(* ===== verification/_CoqProject ===== *)
-Q . S2P
Prelude.v
Dll.v
CString.v
Block.v
Path.v
Rng.v
MemFs.v
Uaccess.v
Sched.v
Process.v
ProcInv.v
Vfs.v
FatVfs.v
VfsInv.v
Ring.v
Keyboard.v
KeyboardInv.v
Fd.v
FdOps.v
FdInv.v
FdCalls.v
Signals.v
FdIo.v
Pty.v
FdIoInv.v
Tty.v
TtyInv.v
PathCalls.v
Files.v
FilesInv.v
FileRefs.v
PtyInv.v
Poll.v
PollInv.v
Vma.v
VmaInv.v
Boottime.v
PageTables.v
UserExec.v
Elf.v
ElfInv.v
BlockIo.v
Ext2.v
Ext2Inv.v
Ext2Dir.v
Ext2Files.v
Ext4.v
Ext4Tree.v
Ext4Inv.v
