(* ===== verification/Prelude.v ===== *)
(** * EdgeOS verification library

    A model of the core of the EdgeOS kernel (the C code under [src/src/]) and the
    theorems about it.

    ** The parts and how they interact

    A system call enters [src/src/sys/syscall.c]. It looks up descriptors (Fd...),
    reads and writes user memory (Uaccess), changes the process table (Process) and
    the run queues (Sched), or resolves a path (PathCalls, Path, Vfs) or takes an open
    file (Files) and calls a file system (MemFs behind FatVfs, Ext2 behind Ext2Files,
    Ext4) over the block layer (Block, BlockIo). A new
    program goes through the loader (Elf, over Vfs and Uaccess), gets page tables
    (PageTables) and its first stack (UserExec).

    ** Files

    - [Prelude]: machine integers ([u32 z] is [z] modulo 2^32), bytes, lists, tactics.
    - [Dll]: segments of doubly linked lists in an array, for run queues and siblings.
    - [CString]: [src/src/string.c] over a byte memory [mem], a function from
      addresses to bytes; loops over a terminator take a fuel, [None] is a run past it.
    - [Block], [BlockIo]: [src/src/block/block.c]; a device is an instance of
      [driver], what a working one does is the class [driver_ok].
    - [Path], [Rng], [Vfs], [VfsInv]: [src/src/vfs/vfs.c]: names, the entropy pool,
      mounts, device nodes, resolution, permissions. File systems and the machine
      are the classes [filesystems] and [machine]; [None] is a null dereference.
    - [MemFs]: [src/src/fs/fat32.c], a table of nodes in memory; [FatVfs]:
      [src/src/fs/fat32/fat32_vfs.c], its instance of [filesystems].
    - [Ext2], [Ext2Inv], [Ext2Dir]: [src/src/fs/ext2/ext2.c]; [Ext4], [Ext4Tree],
      [Ext4Inv]: [src/src/fs/ext4/ext4.c]. Structures of the disk are lists of bytes, [field]
      reads a little-endian field. [Ext2Files] makes a volume an instance of the classes
      that the virtual file system and the open files ask for.
    - [Sched]: [src/src/sys/scheduler.c], [sched] holds the queues of the processors
      and the part of each task that they use.
    - [Process], [ProcInv], [PageTables]: [src/src/sys/process.c] and the calls of
      [syscall.c] on processes; [proc] is the table by columns ([family],
      [credentials], [session], ...), a task is its index.
    - [Boottime]: [src/src/sys/boottime.c]. [UserExec]: [src/src/sys/user_exec.c].
      [Elf], [ElfInv]: [src/src/elf/elf_loader.c].
    - [Uaccess], [Fd], [FdOps], [FdInv], [FdCalls], [Signals], [Ring], [FdIo],
      [FdIoInv], [Pty], [PtyInv], [Tty], [TtyInv], [Poll], [PollInv], [Vma],
      [VmaInv]: [src/src/sys/syscall.c]: user memory, the descriptor tables and the
      objects behind them, signals and the interval timer, pipes, event and timer
      descriptors, epoll sets, pseudo-terminals, the terminal of the console,
      readiness and the calls that wait or sleep, the break and the mapped ranges.
    - [PathCalls], [Files], [FilesInv], [FileRefs]: the calls of [syscall.c] on paths and
      on open files and directories, as computations over the descriptor tables and the
      virtual file system ([call]: a value, an early return, or a fault of the kernel). The class
      [file_store] says what a file system promises of a file; [FilesInv] proves the
      calls against it, [Ext2Files] gives it for a volume. [FileRefs] is a Hoare logic
      of the calls and the invariant of the tables under all of them.
    - [Keyboard], [KeyboardInv]: [src/src/keyboard.c], from the scan codes of the
      controller to the characters that the console reads ([Tty]); the ports are
      inputs.

    A definition carries the name of the function or type it models; a component's
    state is a record with the names of the global variables. A file [XInv] holds
    the invariant of [X] and its theorems.

    ** What the theorems show

    - Invariants of every reachable state: run queues ([Sched.sched_always_ok]), the
      process tree ([ProcInv.process_tree_always_ok]), the memory file system
      ([MemFs.memfs_always_ok]), reference counts of descriptors
      ([FileRefs.files_keep_fd_refs]), mapped ranges ([VmaInv.address_space_always_ok]).
    - Refinements: round robin, pipes as queues, line editing, directories of a
      volume as lists of names, the extents of a file as a finite map, page tables as
      private memories, the keyboard as a bounded queue of characters.
    - Isolation: no privilege gained, loading confined to user memory, exec leaves
      nothing behind, copies confined, directories changed only with permission.
    - The composition of the layers: what a program writes to a descriptor of a file on a
      volume is what it reads back into its memory ([Ext2Files.ext2_write_seek_read]), and
      [getdents64] gives it the names of a directory ([Ext2Files.ext2_directory_is_listed]).
    - Function of single operations with their errors, round trips (write and read of
      a file, signal and return, path and node, a typed line and the read of it), what
      readiness tells of waiting, and termination of loops. The round trips of [Ext2Inv]
      and [Ext4Inv] include that the volume stays consistent (only free blocks are taken,
      inodes beside stay), for volumes whose first data block is 0: with another one the
      allocator takes blocks in use ([Ext2Inv.alloc_reuses_block]).
    - Behaviour the code does not mean to have is stated as it is, next to the
      component: event polls in a cycle, the clock that stops, the copies that reach the kernel, the blocks
      that are taken twice.

    ** Fuel and bounds

    Loops over lists and tables are structural. Where a loop has another measure the
    fuel is that measure: bytes to copy for file reads and writes (each turn moves one
    at least; through a descriptor every turn but the last moves a whole chunk), the records of
    24 bytes or more that a buffer has room for when a directory is listed, the sectors and the halvings of the batch for block transfers
    ([io_fuel]), 260 turns for the search of a gap between at most 256 ranges, ten
    million turns of the calibration as in the code, the expiries passed for timers.
    The descent through extents is not bounded in the code: the model gives it 65536
    levels, as many as the 16-bit depths of a tree can have, and the result of a
    longer descent is that it does not return. The search for a ready event poll among
    those that others watch has a parameter, [None] when it goes deeper. A read of the
    console ([Tty.do_sys_read]) takes as many characters as its parameter allows,
    [More] says that it stopped there. [rmdir] looks at as many entries as its parameter
    allows: the loop of the code ends with the directory only. The scan of a dynamic section has a
    parameter for the same reason. The termination theorems show that the fuel is
    enough.

    ** Not modelled

    A handler is a function that runs to its end; what the timer interrupt does is the
    step [tick] of the scheduler, between handlers. Objects of the kernel are apart from the
    user memory that is modelled, although the address space does not separate them
    ([PageTables.copy_reaches_kernel]). The other device drivers, the screen, processor set-up
    and assembly are interfaces or left out, since what they do is in the hardware. The
    network stack is glue to lwIP, which is not in the repository. procfs and the boot
    messages print. Of [syscall.c] the dispatcher, sockets, ioctls and the calls
    that copy between two descriptors (sendfile, copy_file_range, splice, vmsplice) are not
    modelled; of the file systems on a disk, the superblock that their mount fills in. A
    volume behind [Ext2Files] has a disk of its own: raw writes to its device in [/dev]
    do not reach it. User programs run
    on a C library that is not in the repository. *)

From Stdlib Require Export Ascii String ZArith Lia.
From stdpp Require Export base numbers functions option decidable relations list list_numbers.

#[global] Open Scope Z_scope.
#[export] Set Warnings "-clear-no-such-hyp".

(** ** Machine integers

    C unsigned types are integers modulo a power of two; [uN z] is the value
    of the conversion of [z] to the N-bit unsigned type, [iN z] to the signed
    one (two's complement, as the compiler of the kernel does). *)

Definition u8 (z : Z) : Z := z mod 2 ^ 8.
Definition u16 (z : Z) : Z := z mod 2 ^ 16.
Definition u32 (z : Z) : Z := z mod 2 ^ 32.
Definition u64 (z : Z) : Z := z mod 2 ^ 64.
Definition i32 (z : Z) : Z := (z + 2 ^ 31) mod 2 ^ 32 - 2 ^ 31.

(** [char] is a signed 8-bit type; memory cells hold the byte [0..255]. *)
Definition schar (b : Z) : Z := if b <? 128 then b else b - 256.

(** ** Character and string literals as byte lists *)

Definition chr (a : ascii) : Z := Z.of_N (N_of_ascii a).

Fixpoint str (s : string) : list Z :=
  match s with
  | EmptyString => []
  | String a s' => chr a :: str s'
  end.

Arguments chr _%_char_scope.
Arguments str _%_string_scope.

(** A Boolean test of a decidable proposition, for conditions of the code. *)
Notation "'test' P" := (bool_decide P) (at level 10, P at level 9, only parsing).

(** ** Tactics *)

(** Splits the conjunctions of the context and the goal. *)
Ltac split_all :=
  repeat match goal with
  | H : _ /\ _ |- _ => destruct H
  | |- _ /\ _ => split
  end.

(** Case analysis on the first test of the goal, with its equation turned into
    a proposition of the arithmetic. *)
Ltac ztest :=
  match goal with
  | |- context [Z.eqb ?a ?b] => destruct (Z.eqb_spec a b)
  | |- context [Z.ltb ?a ?b] => destruct (Z.ltb_spec a b)
  | |- context [Z.leb ?a ?b] => destruct (Z.leb_spec a b)
  end.

Ltac ztest_in H :=
  match type of H with
  | context [Z.eqb ?a ?b] => destruct (Z.eqb_spec a b)
  | context [Z.ltb ?a ?b] => destruct (Z.ltb_spec a b)
  | context [Z.leb ?a ?b] => destruct (Z.leb_spec a b)
  end.

(** Closes side conditions on machine integers. *)
Ltac wrap := unfold u8, u16, u32, u64, i32 in *; lia.

(** ** Integers *)

Lemma u8_range z : 0 <= u8 z < 256.
Proof. unfold u8. apply Z.mod_pos_bound. lia. Qed.

Lemma u16_range z : 0 <= u16 z < 2 ^ 16.
Proof. unfold u16. apply Z.mod_pos_bound. lia. Qed.

Lemma u32_range z : 0 <= u32 z < 2 ^ 32.
Proof. unfold u32. apply Z.mod_pos_bound. lia. Qed.

Lemma u64_range z : 0 <= u64 z < 2 ^ 64.
Proof. unfold u64. apply Z.mod_pos_bound. lia. Qed.

Lemma u8_small z : 0 <= z < 256 -> u8 z = z.
Proof. intros. unfold u8. apply Z.mod_small. lia. Qed.

Lemma u16_small z : 0 <= z < 2 ^ 16 -> u16 z = z.
Proof. intros. unfold u16. apply Z.mod_small. lia. Qed.

Lemma u32_small z : 0 <= z < 2 ^ 32 -> u32 z = z.
Proof. intros. unfold u32. apply Z.mod_small. lia. Qed.

Lemma u64_small z : 0 <= z < 2 ^ 64 -> u64 z = z.
Proof. intros. unfold u64. apply Z.mod_small. lia. Qed.

Lemma i32_small z : - 2 ^ 31 <= z < 2 ^ 31 -> i32 z = z.
Proof. intros. unfold i32. rewrite Z.mod_small; lia. Qed.

Create HintDb cint.
#[export] Hint Resolve u8_range u16_range u32_range u64_range : cint.
Create Rewrite HintDb cint.
#[export] Hint Rewrite u8_small u16_small u32_small u64_small i32_small using lia : cint.

(** ** Updates of total functions *)

Lemma upd_eq {A B} `{EqDecision A} (f : A -> B) a b : (<[a := b]> f) a = b.
Proof. apply fn_lookup_insert. Qed.

Lemma upd_ne {A B} `{EqDecision A} (f : A -> B) a a' b :
  a <> a' -> (<[a := b]> f) a' = f a'.
Proof. apply fn_lookup_insert_ne. Qed.

Lemma upd_case {A B} `{EqDecision A} (f : A -> B) a a' b :
  (<[a := b]> f) a' = if decide (a = a') then b else f a'.
Proof. reflexivity. Qed.

(** Splits on every update that is read in the goal. *)
Ltac upd_cases := rewrite ?upd_case; repeat case_decide; subst.

(** ** Lists *)

Lemma Forall_sublist_filter {A} (P Q : A -> Prop) `{forall x, Decision (P x)} (l : list A) :
  Forall Q l -> Forall Q (filter P l).
Proof.
  intros HQ. apply Forall_forall. intros x Hx. apply list_elem_of_filter in Hx as [_ Hx].
  rewrite Forall_forall in HQ. auto.
Qed.

(** ** Linear searches

    [for (i = lo; i < lo + n; ++i) if (p(i)) return i; return -1;] *)
Fixpoint scan (p : Z -> bool) (lo : Z) (n : nat) : Z :=
  match n with
  | O => -1
  | S n => if p lo then lo else scan p (lo + 1) n
  end.

Lemma scan_hit p lo n r :
  0 <= lo -> scan p lo n = r -> r <> -1 ->
  lo <= r < lo + Z.of_nat n /\ p r = true /\ forall j, lo <= j < r -> p j = false.
Proof.
  intros Hlo <-. revert lo Hlo. induction n as [|n IH]; intros lo Hlo H; simpl in *; [done|].
  destruct (p lo) eqn:E; [split; [lia|]; split; [done | lia]|].
  destruct (IH (lo + 1)) as (H1 & H2 & H3); [lia | done |].
  split; [lia|]. split; [done|]. intros j Hj.
  destruct (decide (j = lo)) as [->|]; [done | apply H3; lia].
Qed.

Lemma scan_miss p lo n j :
  0 <= lo -> scan p lo n = -1 -> lo <= j < lo + Z.of_nat n -> p j = false.
Proof.
  revert lo. induction n as [|n IH]; intros lo Hlo E Hj; simpl in *; [lia|].
  destruct (p lo) eqn:Ep; [lia|].
  destruct (decide (j = lo)) as [->|]; [done | apply (IH (lo + 1)); auto; lia].
Qed.

Lemma scan_range p lo n : 0 <= lo -> scan p lo n = -1 \/ lo <= scan p lo n < lo + Z.of_nat n.
Proof.
  intros Hlo. destruct (decide (scan p lo n = -1)) as [|H]; [by left|].
  right. by destruct (scan_hit p lo n _ Hlo eq_refl H).
Qed.

(** The search finds the only index that satisfies the test. *)
Lemma scan_unique p lo n i :
  0 <= lo -> lo <= i < lo + Z.of_nat n -> p i = true ->
  (forall j, lo <= j < lo + Z.of_nat n -> p j = true -> j = i) -> scan p lo n = i.
Proof.
  intros Hlo Hi Hp Hu. destruct (decide (scan p lo n = -1)) as [E|E].
  - rewrite (scan_miss p lo n i) in Hp by done. done.
  - destruct (scan_hit p lo n _ Hlo eq_refl E) as (H1 & H2 & _). auto.
Qed.
