(* ===== verification/Dll.v ===== *)
(** * Intrusive doubly linked lists

    The run queues of the scheduler and the child lists of the process tree are
    linked through fields of the task structures. [dseg p n l]: following the
    previous-field [p] and the next-field [n] one finds exactly the elements of
    [l], in this order, and null at both ends. *)

From S2P Require Import Prelude.

Definition dseg (p n : Z -> option Z) (l : list Z) : Prop :=
  forall l1 x l2, l = l1 ++ x :: l2 -> p x = last l1 /\ n x = head l2.

Lemma dseg_nil p n : dseg p n [].
Proof. intros [|? l1] x l2 H; done. Qed.

Lemma dseg_ext p n p' n' l :
  dseg p n l -> (forall x, x ∈ l -> p' x = p x /\ n' x = n x) -> dseg p' n' l.
Proof.
  intros D E l1 x l2 ->. destruct (D l1 x l2 eq_refl) as [<- <-].
  apply E, elem_of_app. right. left.
Qed.

Lemma last_cons_ne {A} (x : A) l : l <> [] -> last (x :: l) = last l.
Proof. by destruct l. Qed.

Lemma last_elem {A} (l : list A) x : last l = Some x -> x ∈ l.
Proof. intros [l' ->]%last_Some. set_solver. Qed.

Lemma head_elem {A} (l : list A) x : head l = Some x -> x ∈ l.
Proof. destruct l; set_solver. Qed.

Lemma head_app_ne {A} (l k : list A) : l <> [] -> head (l ++ k) = head l.
Proof. by destruct l. Qed.

Lemma last_app_ne {A} (l k : list A) : k <> [] -> last (l ++ k) = last k.
Proof. intros. rewrite last_app. destruct (last k) eqn:E; [done|]. by apply last_None in E. Qed.

(** Unlinking [x] between [a] and [b]. *)
Lemma dseg_unlink p n p' n' a x b :
  NoDup (a ++ x :: b) -> dseg p n (a ++ x :: b) ->
  (forall y, y ∈ a ++ b -> p' y = if decide (head b = Some y) then last a else p y) ->
  (forall y, y ∈ a ++ b -> n' y = if decide (last a = Some y) then head b else n y) ->
  dseg p' n' (a ++ b).
Proof.
  intros ND D Hp Hn l1 y l2 E.
  apply NoDup_app in ND as (NDa & Hab & NDb). apply NoDup_cons in NDb as [Hxb NDb].
  rewrite Hp, Hn by (rewrite E; set_solver). clear Hp Hn.
  apply app_eq_inv in E as [(k & -> & E)|(k & -> & E)].
  - destruct k as [|z k]; simpl in E.
    + subst b. rewrite app_nil_r in *.
      destruct (D (l1 ++ [x]) y l2) as [P N]; [by rewrite <- app_assoc|].
      rewrite decide_True by done. split; [done|].
      rewrite decide_False; [done|]. intros ?%last_elem. set_solver.
    + injection E as <- ->.
      apply NoDup_app in NDa as (? & ? & NDk). apply NoDup_cons in NDk as [? ?].
      destruct (D l1 y (k ++ x :: b)) as [P N]; [by rewrite <- app_assoc|].
      rewrite decide_False by (intros ?%head_elem; set_solver). split; [done|].
      destruct k as [|w k]; simpl in *.
      * rewrite last_snoc. by rewrite decide_True.
      * rewrite decide_False; [done|]. rewrite last_app_ne, last_cons_ne by done.
        intros ?%last_elem. set_solver.
  - subst b. apply NoDup_app in NDb as (? & ? & ?).
    destruct (D (a ++ x :: k) y l2) as [P N]; [by rewrite <- app_assoc|].
    rewrite (decide_False (P := last a = Some y)) by (intros ?%last_elem; set_solver).
    split; [|done]. destruct k as [|w k]; simpl in *.
    + rewrite decide_True by done. by rewrite app_nil_r.
    + rewrite decide_False by set_solver.
      rewrite P. rewrite !last_app_ne by done. by rewrite last_cons_ne.
Qed.

(** Appending [x] at the tail. *)
Lemma dseg_push_tail p n p' n' l x :
  NoDup l -> x ∉ l -> dseg p n l ->
  p' x = last l -> n' x = None ->
  (forall y, y ∈ l -> p' y = p y) ->
  (forall y, y ∈ l -> n' y = if decide (last l = Some y) then Some x else n y) ->
  dseg p' n' (l ++ [x]).
Proof.
  intros ND Hx D Px Nx Hp Hn l1 y l2 E.
  destruct l2 as [|z l2 _] using rev_ind.
  - apply app_inj_tail in E as [-> ->]. done.
  - rewrite app_comm_cons, app_assoc in E. apply app_inj_tail in E as [-> ->].
    destruct (D l1 y l2 eq_refl) as [P N].
    rewrite Hp, Hn by set_solver. split; [done|].
    apply NoDup_app in ND as (? & ? & ND2). apply NoDup_cons in ND2 as [? ?].
    destruct l2 as [|w l2]; simpl in *.
    + by rewrite last_snoc, decide_True.
    + rewrite decide_False; [done|]. rewrite last_app_ne, last_cons_ne by done.
      intros ?%last_elem. set_solver.
Qed.

(** Inserting [x] at the head. *)
Lemma dseg_push_head p n p' n' l x :
  NoDup l -> x ∉ l -> dseg p n l ->
  p' x = None -> n' x = head l ->
  (forall y, y ∈ l -> n' y = n y) ->
  (forall y, y ∈ l -> p' y = if decide (head l = Some y) then Some x else p y) ->
  dseg p' n' (x :: l).
Proof.
  intros ND Hx D Px Nx Hn Hp [|z l1] y l2 E; simplify_eq/=; [done|].
  destruct (D l1 y l2 eq_refl) as [P N].
  rewrite Hp, Hn by set_solver. split; [|done].
  destruct l1 as [|w l1]; simpl in *.
  - by rewrite decide_True.
  - apply NoDup_cons in ND as [? ?]. rewrite decide_False by set_solver. done.
Qed.

(** The neighbours of an element, read off its fields. *)
Lemma dseg_at p n l x : dseg p n l -> x ∈ l ->
  exists a b, l = a ++ x :: b /\ p x = last a /\ n x = head b.
Proof.
  intros D (a & b & ->)%list_elem_of_split. exists a, b. destruct (D a x b eq_refl). auto.
Qed.

(** Walking the list from its head visits its elements in order. *)
Fixpoint walk (n : Z -> option Z) (fuel : nat) (c : option Z) : list Z :=
  match fuel, c with
  | S f, Some x => x :: walk n f (n x)
  | _, _ => []
  end.

Lemma walk_dseg p n a l fuel :
  dseg p n (a ++ l) -> (length l <= fuel)%nat -> walk n fuel (head l) = l.
Proof.
  revert a fuel. induction l as [|x l IH]; intros a [|f] D Hf; simpl in *; try done; try lia.
  destruct (D a x l eq_refl) as [_ ->]. f_equal. apply (IH (a ++ [x])); [by rewrite <- app_assoc | lia].
Qed.

(** Deleting an element of a duplicate-free list. *)
Definition del (x : Z) (l : list Z) : list Z := filter (fun y => y <> x) l.

Lemma elem_of_del x y l : y ∈ del x l <-> y <> x /\ y ∈ l.
Proof. unfold del. by rewrite list_elem_of_filter. Qed.

Lemma NoDup_del x l : NoDup l -> NoDup (del x l).
Proof. apply NoDup_filter. Qed.

Lemma del_notin x l : x ∉ l -> del x l = l.
Proof.
  unfold del. induction l as [|y l IH]; intros H; [done|].
  rewrite filter_cons_True by set_solver. rewrite IH by set_solver. done.
Qed.

Lemma del_app x l k : del x (l ++ k) = del x l ++ del x k.
Proof. apply filter_app. Qed.

Lemma del_cons x l : del x (x :: l) = del x l.
Proof. unfold del. by rewrite filter_cons_False by auto. Qed.

Lemma del_split a x b : NoDup (a ++ x :: b) -> del x (a ++ x :: b) = a ++ b.
Proof.
  intros (? & H & [? ?]%NoDup_cons)%NoDup_app.
  rewrite del_app, del_cons, !del_notin; set_solver.
Qed.
