(* ===== verification/CString.v ===== *)
(** * The C string library of the kernel ([src/src/string.c])

    Memory is a total function from addresses to bytes, as the routines see it:
    they take raw pointers and check nothing. *)

From S2P Require Import Prelude.

Abbreviation mem := (Z -> Z).

(** [memset]: [for (; n != 0; n--) *temp++ = c]. *)
Fixpoint memset (m : mem) (temp c : Z) (n : nat) : mem :=
  match n with
  | O => m
  | S n => memset (<[temp := u8 c]> m) (temp + 1) c n
  end.

(** [memcpy]: byte by byte, upwards. *)
Fixpoint memcpy (m : mem) (p q : Z) (n : nat) : mem :=
  match n with
  | O => m
  | S n => memcpy (<[p := m q]> m) (p + 1) (q + 1) n
  end.

(** The upward and the downward copy loops of [memmove]. *)
Fixpoint memmove_up (m : mem) (d s i : Z) (n : nat) : mem :=
  match n with
  | O => m
  | S n => memmove_up (<[d + i := m (s + i)]> m) d s (i + 1) n
  end.

Fixpoint memmove_down (m : mem) (d s : Z) (i : nat) : mem :=
  match i with
  | O => m
  | S j => memmove_down (<[d + Z.of_nat j := m (s + Z.of_nat j)]> m) d s j
  end.

Definition memmove (m : mem) (d s : Z) (n : nat) : mem :=
  if (d =? s) || (Z.of_nat n =? 0) then m
  else if d <? s then memmove_up m d s 0 n
  else memmove_down m d s n.

Fixpoint memcmp (m : mem) (a b : Z) (n : nat) : Z :=
  match n with
  | O => 0
  | S n => if negb (m a =? m b) then m a - m b else memcmp m (a + 1) (b + 1) n
  end.

(** The scanning loops stop at a terminator that the memory may not have: they
    take fuel, and [None] is "no terminator met yet". *)
Fixpoint strlen_loop (fuel : nat) (m : mem) (s len : Z) : option Z :=
  match fuel with
  | O => None
  | S f => if m s =? 0 then Some len else strlen_loop f m (s + 1) (len + 1)
  end.

Definition strlen (fuel : nat) (m : mem) (s : Z) : option Z := strlen_loop fuel m s 0.

Fixpoint strcmp_loop (fuel : nat) (m : mem) (s1 s2 i : Z) : option Z :=
  match fuel with
  | O => None
  | S f =>
      if m (s1 + i) =? m (s2 + i) then
        if m (s2 + i) =? 0 then Some 0 else strcmp_loop f m s1 s2 (i + 1)
      else Some 1
  end.

Definition strcmp (fuel : nat) (m : mem) (s1 s2 : Z) : option Z := strcmp_loop fuel m s1 s2 0.

Fixpoint strncmp_loop (m : mem) (s1 s2 : Z) (c : nat) (result : Z) : Z :=
  match c with
  | O => result
  | S c =>
      let result := schar (m s1) - schar (m s2) in
      if negb (result =? 0) || (m s1 =? 0) then result
      else strncmp_loop m (s1 + 1) (s2 + 1) c result
  end.

Definition strncmp (m : mem) (s1 s2 : Z) (c : nat) : Z := strncmp_loop m s1 s2 c 0.

(** [strcpy] returns the number of characters copied before the terminator. *)
Fixpoint strcpy_loop (fuel : nat) (m : mem) (dst src i : Z) : option (mem * Z) :=
  match fuel with
  | O => None
  | S f =>
      let m' := <[dst := m src]> m in
      if negb (m src =? 0) then strcpy_loop f m' (dst + 1) (src + 1) (i + 1)
      else Some (m', i)
  end.

Definition strcpy (fuel : nat) (m : mem) (dst src : Z) : option (mem * Z) :=
  strcpy_loop fuel m dst src 0.

Definition strcat (fuel : nat) (m : mem) (dest src : Z) : option mem :=
  ld ← strlen fuel m dest;
  let e := dest + ld in
  ls ← strlen fuel m src;
  let m := memcpy m e src (Z.to_nat ls) in
  ls' ← strlen fuel m src;
  Some (<[e + ls' := 0]> m).

Definition isspace (c : Z) : bool :=
  (c =? chr " ") || (c =? 9) || (c =? 10) || (c =? 11) || (c =? 12) || (c =? 13).

Definition isalpha (c : Z) : bool :=
  ((chr "A" <=? c) && (c <=? chr "Z")) || ((chr "a" <=? c) && (c <=? chr "z")).

Definition upper (c : Z) : Z :=
  if (chr "a" <=? c) && (c <=? chr "z") then c - 32 else c.

Definition lower (c : Z) : Z :=
  if (chr "A" <=? c) && (c <=? chr "Z") then c + 32 else c.

(** The digit loop of [itoa]: [tmp] holds the digits pushed so far, last first. *)
Fixpoint itoa_digits (fuel : nat) (u b : Z) (tmp : list Z) : list Z :=
  match fuel with
  | O => tmp
  | S f =>
      if 0 <? u then
        let r := u mod b in
        itoa_digits f (u / b) b ((if r <? 10 then r + chr "0" else r - 10 + chr "a") :: tmp)
      else tmp
  end.

(** The characters [itoa] stores: the sign, then [tmp] from its top down. *)
Definition itoa_chars (base d : Z) : list Z :=
  let b := if base =? chr "x" then 16 else if base =? chr "o" then 8 else 10 in
  let neg := negb (base =? chr "x") && negb (base =? chr "o") &&
             (base =? chr "d") && (d <? 0) in
  let u := if neg then u32 (- d) else u32 d in
  (if neg then [chr "-"] else []) ++
  (if u =? 0 then [chr "0"] else itoa_digits 32 u b []).

Fixpoint store_bytes (m : mem) (p : Z) (l : list Z) : mem :=
  match l with
  | [] => m
  | c :: l => store_bytes (<[p := c]> m) (p + 1) l
  end.

(** The [n] bytes of memory [m] at [p]. *)
Fixpoint load_bytes (m : mem) (p : Z) (n : nat) : list Z :=
  match n with
  | O => []
  | S n => m p :: load_bytes m (p + 1) n
  end.

(** The string at the start of a buffer. *)
Fixpoint c_string (bs : list Z) : list Z :=
  match bs with [] => [] | c :: bs => if c =? 0 then [] else c :: c_string bs end.

Definition itoa (m : mem) (buf base d : Z) : mem :=
  store_bytes m buf (itoa_chars base d ++ [0]).

(** [strstr]: the two nested loops advance the same pointer; [Some None] is the
    null result, [Some (Some p)] the address of the match. *)
Fixpoint strstr_loop (fuel : nat) (m : mem) (inp c str : Z) (len : nat) : option (option Z) :=
  match fuel with
  | O => None
  | S f =>
      let sc := m inp in
      let inp := inp + 1 in
      if sc =? 0 then Some None
      else if negb (sc =? c) then strstr_loop f m inp c str len
      else if negb (strncmp m inp str len =? 0) then strstr_loop f m inp c str len
      else Some (Some (inp - 1))
  end.

Definition strstr (fuel : nat) (m : mem) (inp str : Z) : option (option Z) :=
  let c := m str in
  let str := str + 1 in
  if c =? 0 then Some (Some inp)
  else len ← strlen fuel m str; strstr_loop fuel m inp c str (Z.to_nat len).

(** [strncpy]: copies up to the terminator, then pads with zeros up to [n]. *)
Fixpoint strncpy_pad (m : mem) (dest i : Z) (n : nat) : mem :=
  match n with
  | O => m
  | S n => strncpy_pad (<[dest + i := 0]> m) dest (i + 1) n
  end.

Fixpoint strncpy_loop (m : mem) (dest src i : Z) (n : nat) : mem :=
  match n with
  | O => m
  | S n' =>
      if negb (m (src + i) =? 0)
      then strncpy_loop (<[dest + i := m (src + i)]> m) dest src (i + 1) n'
      else strncpy_pad m dest i n
  end.

Definition strncpy (m : mem) (dest src : Z) (n : nat) : mem := strncpy_loop m dest src 0 n.

(** [atoi]: white space, a sign, digits; the accumulator is a C [int]. *)
Fixpoint atoi_skip (fuel : nat) (m : mem) (s : Z) : option Z :=
  match fuel with
  | O => None
  | S f => if negb (m s =? 0) && isspace (m s) then atoi_skip f m (s + 1) else Some s
  end.

Fixpoint atoi_digits (fuel : nat) (m : mem) (s v : Z) : option Z :=
  match fuel with
  | O => None
  | S f =>
      if (chr "0" <=? m s) && (m s <=? chr "9")
      then atoi_digits f m (s + 1) (i32 (v * 10 + (m s - chr "0")))
      else Some v
  end.

Definition atoi (fuel : nat) (m : mem) (s : Z) : option Z :=
  if s =? 0 then Some 0
  else
    s ← atoi_skip fuel m s;
    let '(sign, s) :=
      if m s =? chr "-" then (-1, s + 1)
      else if m s =? chr "+" then (1, s + 1) else (1, s) in
    v ← atoi_digits fuel m s 0;
    Some (i32 (sign * v)).

(** ** Contents of C strings *)

(** [cstr m p s]: a null-terminated string of contents [s] is stored at [p]. *)
Fixpoint cstr (m : mem) (p : Z) (s : list Z) : Prop :=
  match s with
  | [] => m p = 0
  | c :: s => m p = c /\ c <> 0 /\ cstr m (p + 1) s
  end.

(** Contents whose cells are bytes. *)
Definition bytes (s : list Z) : Prop := Forall (fun c => 0 <= c < 256) s.

Lemma cstr_nz m p s i c : cstr m p s -> s !! i = Some c -> m (p + Z.of_nat i) = c /\ c <> 0.
Proof.
  revert p i. induction s as [|c' s IH]; intros p i H Hi; [done|].
  destruct H as (H0 & Hnz & H). destruct i; simplify_eq/=.
  - rewrite Z.add_0_r. auto.
  - replace (p + Z.of_nat (S i)) with (p + 1 + Z.of_nat i) by lia. eauto.
Qed.

Lemma cstr_end m p s : cstr m p s -> m (p + Z.of_nat (length s)) = 0.
Proof.
  revert p. induction s as [|c s IH]; intros p H; simpl in *; [rewrite Z.add_0_r; auto|].
  replace (p + Z.of_nat (S (length s))) with (p + 1 + Z.of_nat (length s)) by lia.
  apply IH. tauto.
Qed.

Lemma cstr_drop m p s i : (i <= length s)%nat -> cstr m p s -> cstr m (p + Z.of_nat i) (drop i s).
Proof.
  revert p i. induction s as [|c s IH]; intros p i Hi H; simpl in Hi.
  - replace i with O by lia. simpl. rewrite Z.add_0_r. exact H.
  - destruct i; simpl; [rewrite Z.add_0_r; exact H|].
    replace (p + Z.of_nat (S i)) with (p + 1 + Z.of_nat i) by lia.
    apply IH; [lia | apply H].
Qed.

(** ** Block copies *)

Definition copied (m : mem) (d s : Z) (n : nat) : mem :=
  fun a => if (d <=? a) && (a <? d + Z.of_nat n) then m (s + (a - d)) else m a.

Lemma memset_spec m p c n a :
  memset m p c n a = if (p <=? a) && (a <? p + Z.of_nat n) then u8 c else m a.
Proof.
  revert m p. induction n as [|n IH]; intros m p; simpl memset.
  - destruct (Z.leb_spec p a), (Z.ltb_spec a (p + Z.of_nat 0)); simpl; auto; lia.
  - rewrite IH. upd_cases; repeat ztest; simpl; auto; lia.
Qed.

Lemma memmove_up_spec m d s i n a :
  d < s ->
  memmove_up m d s i n a =
  if (d + i <=? a) && (a <? d + i + Z.of_nat n) then m (s + (a - d)) else m a.
Proof.
  intros Hds. revert m i. induction n as [|n IH]; intros m i; cbn [memmove_up].
  - repeat ztest; simpl; auto; lia.
  - rewrite IH. upd_cases; repeat ztest; simpl; auto; try lia.
    f_equal. lia.
Qed.

Lemma memmove_down_spec m d s n a :
  s < d -> memmove_down m d s n a = copied m d s n a.
Proof.
  intros Hds. revert m. induction n as [|n IH]; intros m; cbn [memmove_down]; unfold copied in *.
  - repeat ztest; simpl; auto; lia.
  - rewrite IH. upd_cases; repeat ztest; simpl; auto; try lia.
    f_equal. lia.
Qed.

(** [memcpy] is right exactly where the regions do not overlap forwards. *)
Lemma memcpy_spec m p q n a :
  p <= q \/ q + Z.of_nat n <= p -> memcpy m p q n a = copied m p q n a.
Proof.
  revert m p q. induction n as [|n IH]; intros m p q H; cbn [memcpy]; unfold copied in *.
  - repeat ztest; simpl; auto; lia.
  - rewrite IH by lia. upd_cases; repeat ztest; simpl; auto; try lia; try (f_equal; lia).
Qed.

(** [memmove] copies the [n] source bytes as they were before the call,
    whatever the overlap of the two regions, and changes nothing else. *)
Theorem memmove_any_overlap (m : mem) (d s : Z) (n : nat) (a : Z) :
  memmove m d s n a =
  if (d <=? a) && (a <? d + Z.of_nat n) then m (s + (a - d)) else m a.
Proof.
  unfold memmove. destruct (Z.eqb_spec d s) as [->|Hds]; simpl.
  { replace (s + (a - s)) with a by lia. by destruct (_ && _). }
  destruct (Z.eqb_spec (Z.of_nat n) 0) as [Hn|Hn]; simpl.
  { repeat ztest; simpl; auto; lia. }
  ztest.
  - rewrite memmove_up_spec by lia. by rewrite Z.add_0_r.
  - rewrite memmove_down_spec by lia. reflexivity.
Qed.

(** ** Scanning routines against the contents *)

Lemma strlen_loop_spec m s p len fuel :
  cstr m p s -> (length s < fuel)%nat ->
  strlen_loop fuel m p len = Some (len + Z.of_nat (length s)).
Proof.
  revert p len fuel. induction s as [|c s IH]; intros p len [|f] H Hf; simpl in *; try lia.
  - rewrite H. simpl. f_equal. lia.
  - destruct H as (-> & Hc & H). destruct (Z.eqb_spec c 0); [lia|].
    rewrite IH by (auto; lia). f_equal. lia.
Qed.

Lemma strlen_spec m p s fuel :
  cstr m p s -> (length s < fuel)%nat -> strlen fuel m p = Some (Z.of_nat (length s)).
Proof. intros. unfold strlen. rewrite strlen_loop_spec with (s := s); auto. Qed.

Lemma strcmp_loop_spec m p q s t i fuel :
  cstr m (p + i) s -> cstr m (q + i) t -> (length s < fuel)%nat ->
  strcmp_loop fuel m p q i = Some (if decide (s = t) then 0 else 1).
Proof.
  revert t i fuel. induction s as [|c s IH]; intros t i [|f] Hs Ht Hf; simpl in *; try lia.
  - rewrite Hs. destruct t as [|c' t]; simpl in Ht.
    + rewrite Ht. simpl. repeat case_decide; simplify_eq; auto.
    + destruct Ht as (-> & Hc & _). destruct (Z.eqb_spec 0 c'); [lia|].
      repeat case_decide; simplify_eq; auto.
  - destruct Hs as (-> & Hc & Hs). destruct t as [|c' t]; simpl in Ht.
    + rewrite Ht. destruct (Z.eqb_spec c 0); [lia|]. repeat case_decide; simplify_eq; auto.
    + destruct Ht as (-> & Hc' & Ht). destruct (Z.eqb_spec c c') as [->|Hne].
      * destruct (Z.eqb_spec c' 0); [lia|].
        rewrite IH with (t := t) by (rewrite ?Z.add_assoc; auto; lia).
        do 2 case_decide; simplify_eq; auto.
      * rewrite decide_False; congruence.
Qed.

Lemma strcmp_spec m p q s t fuel :
  cstr m p s -> cstr m q t -> (length s < fuel)%nat ->
  strcmp fuel m p q = Some (if decide (s = t) then 0 else 1).
Proof. intros. apply strcmp_loop_spec; rewrite ?Z.add_0_r; auto. Qed.

(** Every cell of the memory is a byte. *)
Definition byte_mem (m : mem) : Prop := forall a, 0 <= m a < 256.

Lemma schar_inj a b : 0 <= a < 256 -> 0 <= b < 256 -> schar a = schar b -> a = b.
Proof. unfold schar. repeat ztest; lia. Qed.

Lemma strncmp_loop_prefix m p q s t :
  byte_mem m -> cstr m p s -> cstr m q t ->
  (strncmp_loop m p q (length t) 0 = 0 <-> t `prefix_of` s).
Proof.
  intros Hm. revert p q s. induction t as [|c t IH]; intros p q s Hs Ht; simpl.
  { split; [intros; apply prefix_nil | auto]. }
  destruct Ht as (Hq & Hc & Ht). pose proof (Hm p) as Bp. pose proof (Hm q) as Bq.
  destruct s as [|c' s]; simpl in Hs.
  - rewrite Hs, orb_true_r. split; [|intros [k Hk]; done].
    intros E. exfalso. assert (0 = m q) by (apply schar_inj; lia). lia.
  - destruct Hs as (Hp & Hc' & Hs).
    destruct (Z.eqb_spec (m p) 0); [lia|]. rewrite orb_false_r.
    destruct (Z.eqb_spec (schar (m p) - schar (m q)) 0) as [E|E]; simpl.
    + rewrite E, (IH _ _ s) by auto.
      assert (m p = m q) by (apply schar_inj; lia). assert (c = c') as -> by congruence.
      split; [apply prefix_cons | apply prefix_cons_inv_2].
    + split; [lia|]. intros Hpre. apply prefix_cons_inv_1 in Hpre. exfalso. apply E.
      rewrite Hp, Hq, Hpre. lia.
Qed.

(** [first_match t s i]: the leftmost occurrence of [t] in [s] is at [i]. *)
Definition first_match (t s : list Z) (i : nat) : Prop :=
  (i <= length s)%nat /\ t `prefix_of` drop i s /\
  forall j, (j < i)%nat -> ~ t `prefix_of` drop j s.

Definition no_match (t s : list Z) : Prop := forall j, ~ t `prefix_of` drop j s.

Lemma strstr_loop_spec m p q c t s fuel :
  byte_mem m -> c <> 0 -> cstr m p s -> cstr m q t -> (length s < fuel)%nat ->
  exists r, strstr_loop fuel m p c q (length t) = Some r /\
    match r with
    | Some a => exists i, a = p + Z.of_nat i /\ first_match (c :: t) s i
    | None => no_match (c :: t) s
    end.
Proof.
  intros Hm Hc. revert p fuel. induction s as [|x s IH]; intros p [|f] Hs Ht Hf;
    simpl in Hs, Hf; try lia; cbn [strstr_loop].
  - rewrite Hs. simpl. exists None. split; auto.
    intros j. rewrite drop_nil. intros [k Hk]. done.
  - destruct Hs as (Hp & Hx & Hs). rewrite Hp.
    destruct (Z.eqb_spec x 0); [lia|].
    destruct (IH (p + 1) f Hs Ht ltac:(lia)) as (r & Hr & Hsp).
    assert (Hstep : ~ (c :: t) `prefix_of` (x :: s) ->
      match r with
      | Some a => exists i, a = p + Z.of_nat i /\ first_match (c :: t) (x :: s) i
      | None => no_match (c :: t) (x :: s)
      end).
    { intros Hno. destruct r as [a|].
      - destruct Hsp as (i & -> & Hl & Hpre & Hmin). exists (S i).
        split; [lia|]. split; [simpl; lia|]. split; [auto|].
        intros [|j] Hj; simpl; auto with lia.
      - intros [|j]; simpl; auto. }
    destruct (Z.eqb_spec x c) as [->|Hxc]; simpl.
    + unfold strncmp. pose proof (strncmp_loop_prefix m (p + 1) q s t Hm Hs Ht) as Hcmp.
      destruct (Z.eqb_spec (strncmp_loop m (p + 1) q (length t) 0) 0) as [E|E]; simpl.
      * exists (Some (p + 1 - 1)). split; auto. exists O. split; [lia|].
        split; [lia|]. split; [|lia]. simpl. apply prefix_cons, Hcmp, E.
      * exists r. split; auto. apply Hstep. intros Hpre.
        apply E, Hcmp. by eapply prefix_cons_inv_2.
    + exists r. split; auto. apply Hstep. intros Hpre.
      apply prefix_cons_inv_1 in Hpre. congruence.
Qed.

(** [strstr] terminates on terminated strings and returns the address of
    the leftmost occurrence of the needle, or null when there is none. *)
Theorem strstr_leftmost (m : mem) (p q : Z) (s t : list Z) (fuel : nat)
  (Hm : byte_mem m) (Hs : cstr m p s) (Ht : cstr m q t)
  (Hf : (length s + length t < fuel)%nat) :
  exists r, strstr fuel m p q = Some r /\
    match r with
    | Some a => exists i, a = p + Z.of_nat i /\ first_match t s i
    | None => no_match t s
    end.
Proof.
  unfold strstr. destruct t as [|c t]; simpl in Ht, Hf.
  - rewrite Ht. simpl. exists (Some p). split; auto. exists O.
    split; [lia|]. split; [lia|]. split; [apply prefix_nil | lia].
  - destruct Ht as (-> & Hc & Ht). destruct (Z.eqb_spec c 0); [lia|].
    rewrite strlen_spec with (s := t) by (auto; lia). simpl. rewrite Nat2Z.id.
    apply strstr_loop_spec; auto; lia.
Qed.

(** ** Decimal conversion *)

Definition dval (l : list Z) (v : Z) : Z := fold_left (fun v c => v * 10 + (c - 48)) l v.

Definition digits (l : list Z) : Prop := Forall (fun c => 48 <= c <= 57) l.

Lemma dval_mono l v : digits l -> 0 <= v -> v <= dval l v.
Proof.
  unfold dval. intros H. revert v. induction H as [|c l Hc _ IH]; intros v Hv; simpl; [lia|].
  specialize (IH (v * 10 + (c - 48))). lia.
Qed.

Lemma itoa_digits_spec fuel u tmp :
  0 <= u < 10 ^ Z.of_nat fuel ->
  exists l, itoa_digits fuel u 10 tmp = l ++ tmp /\ digits l /\ dval l 0 = u /\
            (length l <= fuel)%nat.
Proof.
  revert u tmp. induction fuel as [|f IH]; intros u tmp Hu; cbn [itoa_digits].
  { exists []. simpl in Hu. unfold dval. simpl. repeat split; auto; try lia. constructor. }
  ztest.
  - destruct (IH (u / 10) ((if u mod 10 <? 10 then u mod 10 + chr "0" else u mod 10 - 10 + chr "a") :: tmp))
      as (l & -> & Hl & Hv & Hlen).
    { split; [apply Z.div_pos; lia|]. apply Z.div_lt_upper_bound; [lia|].
      rewrite Nat2Z.inj_succ, Z.pow_succ_r in Hu by lia. lia. }
    pose proof (Z.mod_pos_bound u 10 ltac:(lia)).
    destruct (Z.ltb_spec (u mod 10) 10); [|lia]. change (chr "0") with 48.
    exists (l ++ [u mod 10 + 48]). rewrite <- app_assoc. split; [done|]. split_all.
    + apply Forall_app. split; auto. constructor; [lia | constructor].
    + unfold dval in *. rewrite fold_left_app, Hv. simpl. pose proof (Z.div_mod u 10). lia.
    + rewrite length_app. simpl. lia.
  - exists []. assert (u = 0) by lia. subst. repeat split; simpl; auto; try lia. constructor.
Qed.

Lemma store_bytes_frame m p l a : a < p -> store_bytes m p l a = m a.
Proof.
  revert m p. induction l as [|c l IH]; intros m p H; simpl; auto.
  rewrite IH by lia. apply upd_ne. lia.
Qed.

Lemma length_load_bytes m p n : length (load_bytes m p n) = n.
Proof. revert p. induction n; intros; simpl; auto. Qed.

Lemma load_bytes_app m p n1 n2 :
  load_bytes m p (n1 + n2) = load_bytes m p n1 ++ load_bytes m (p + Z.of_nat n1) n2.
Proof.
  revert p. induction n1 as [|n1 IH]; intros p; simpl.
  - by rewrite Z.add_0_r.
  - rewrite IH. do 2 f_equal. f_equal. lia.
Qed.

Lemma load_store_bytes m p l : load_bytes (store_bytes m p l) p (length l) = l.
Proof.
  revert m p. induction l as [|c l IH]; intros m p; simpl; [done|].
  rewrite IH. f_equal. rewrite store_bytes_frame by lia. apply upd_eq.
Qed.

Lemma store_bytes_app m p l1 l2 :
  store_bytes m p (l1 ++ l2) = store_bytes (store_bytes m p l1) (p + Z.of_nat (length l1)) l2.
Proof.
  revert m p. induction l1 as [|c l1 IH]; intros m p; simpl.
  - by rewrite Z.add_0_r.
  - rewrite IH. f_equal. lia.
Qed.

Lemma load_bytes_lookup m p n i :
  (i < n)%nat -> load_bytes m p n !! i = Some (m (p + Z.of_nat i)).
Proof.
  revert p i. induction n as [|n IH]; intros p i Hi; [lia|].
  destruct i as [|i]; simpl; [do 2 f_equal; lia|].
  rewrite IH by lia. do 2 f_equal. lia.
Qed.

Lemma load_bytes_ext m m' p n :
  (forall x, p <= x < p + Z.of_nat n -> m x = m' x) -> load_bytes m p n = load_bytes m' p n.
Proof.
  revert p. induction n as [|n IH]; intros p H; simpl; [done|].
  f_equal; [apply H; lia | apply IH; intros; apply H; lia].
Qed.

(** Storing bytes changes the cells they go to, and no other. *)
Lemma store_bytes_out m p l a : a < p \/ p + Z.of_nat (length l) <= a -> store_bytes m p l a = m a.
Proof.
  revert m p. induction l as [|c l IH]; intros m p H; simpl in *; [done|].
  rewrite IH by lia. apply upd_ne. lia.
Qed.

Lemma store_bytes_in m p l i c : l !! i = Some c -> store_bytes m p l (p + Z.of_nat i) = c.
Proof.
  revert m p i. induction l as [|c' l IH]; intros m p i Hi; [done|].
  destruct i as [|i]; simplify_eq/=.
  - rewrite Z.add_0_r, store_bytes_out by lia. apply upd_eq.
  - replace (p + Z.of_nat (S i)) with (p + 1 + Z.of_nat i) by lia. by apply IH.
Qed.

Lemma cstr_store m p l : Forall (fun c => c <> 0) l -> cstr (store_bytes m p (l ++ [0])) p l.
Proof.
  intros H. revert m p. induction H as [|c l Hc _ IH]; intros m p; simpl; [apply upd_eq|].
  split; [|auto]. rewrite store_bytes_frame by lia. apply upd_eq.
Qed.

Lemma atoi_digits_spec m p l v fuel :
  cstr m p l -> digits l -> 0 <= v -> dval l v < 2 ^ 31 -> (length l < fuel)%nat ->
  atoi_digits fuel m p v = Some (dval l v).
Proof.
  intros H Hd. revert p v fuel H. induction Hd as [|c l Hc Hd IH];
    intros p v [|f] H Hv Hmax Hf; simpl in *; try lia.
  - rewrite H. reflexivity.
  - destruct H as (-> & _ & H). change (chr "0") with 48. change (chr "9") with 57.
    destruct (Z.leb_spec 48 c), (Z.leb_spec c 57); simpl; try lia.
    pose proof (dval_mono l (v * 10 + (c - 48)) Hd ltac:(lia)).
    rewrite i32_small by (unfold dval in *; simpl in *; lia).
    apply IH; auto; lia.
Qed.

Lemma digits_nz l : digits l -> Forall (fun c => c <> 0) l.
Proof. intros H. eapply Forall_impl; [exact H | simpl; lia]. Qed.

Lemma atoi_skip_stop fuel m p : (0 < fuel)%nat -> isspace (m p) = false -> atoi_skip fuel m p = Some p.
Proof. intros Hf Hs. destruct fuel; [lia|]. simpl. by rewrite Hs, andb_false_r. Qed.

Lemma itoa_chars_dec d :
  - 2 ^ 31 < d < 2 ^ 31 ->
  exists l, itoa_chars (chr "d") d = (if d <? 0 then [chr "-"] else []) ++ l /\
            digits l /\ dval l 0 = Z.abs d /\ (length l <= 32)%nat /\ l <> [].
Proof.
  intros Hd. unfold itoa_chars. change (chr "d" =? chr "x") with false.
  change (chr "d" =? chr "o") with false. change (chr "d" =? chr "d") with true. cbn [negb andb].
  set (u := if d <? 0 then u32 (- d) else u32 d).
  assert (Hu : u = Z.abs d) by (unfold u; ztest; rewrite u32_small; lia).
  destruct (Z.eqb_spec u 0) as [E|E].
  - assert (d = 0) as -> by lia. exists [chr "0"]. split; [done|].
    split; [constructor; [unfold chr; simpl; lia | constructor]|].
    split; [reflexivity|]. split; [simpl; lia | discriminate].
  - destruct (itoa_digits_spec 32 u []) as (l & -> & Hl & Hv & Hlen); [lia|].
    exists l. rewrite app_nil_r. repeat split; auto; [lia|].
    intros ->. unfold dval in Hv. simpl in Hv. lia.
Qed.

(** [atoi] reads back every [int] that [itoa] prints in base 10, the sign
    included; the one exception is [INT_MIN], which C cannot negate. *)
Theorem atoi_itoa (m : mem) (buf d : Z) (fuel : nat)
  (Hbuf : buf <> 0) (Hd : - 2 ^ 31 < d < 2 ^ 31) (Hf : (40 <= fuel)%nat) :
  atoi fuel (itoa m buf (chr "d") d) buf = Some d.
Proof.
  destruct (itoa_chars_dec d Hd) as (l & El & Hl & Hv & Hlen & Hne).
  unfold itoa. rewrite El, <- app_assoc. unfold atoi.
  destruct (Z.eqb_spec buf 0); [lia|].
  destruct l as [|c l]; [done|]. pose proof (Forall_inv Hl) as Hc. simpl in Hc.
  destruct (Z.ltb_spec d 0).
  - set (m' := store_bytes _ _ _).
    assert (Hm0 : m' buf = 45).
    { change (store_bytes (<[buf := 45]> m) (buf + 1) ((c :: l) ++ [0]) buf = 45).
      rewrite store_bytes_frame by lia. apply upd_eq. }
    assert (Hm1 : cstr m' (buf + 1) (c :: l))
      by exact (cstr_store (<[buf := 45]> m) (buf + 1) (c :: l) (digits_nz _ Hl)).
    rewrite atoi_skip_stop by (rewrite ?Hm0; auto; lia). cbn [mbind option_bind].
    rewrite Hm0. change (45 =? chr "-") with true. cbv beta iota zeta.
    rewrite (atoi_digits_spec _ _ (c :: l)) by (auto; simpl in *; lia).
    cbn [mbind option_bind]. rewrite Hv, i32_small by lia. f_equal. lia.
  - set (m' := store_bytes _ _ _).
    assert (Hm1 : cstr m' buf (c :: l))
      by exact (cstr_store m buf (c :: l) (digits_nz _ Hl)).
    pose proof (proj1 Hm1) as Hm0.
    rewrite atoi_skip_stop; [|lia|].
    2: { rewrite Hm0. unfold isspace. change (chr " ") with 32.
         repeat (ztest; [lia|]). reflexivity. }
    cbn [mbind option_bind]. rewrite Hm0. change (chr "-") with 45. change (chr "+") with 43.
    destruct (Z.eqb_spec c 45); [lia|]. destruct (Z.eqb_spec c 43); [lia|].
    rewrite (atoi_digits_spec _ _ (c :: l)) by (auto; simpl in *; lia).
    cbn [mbind option_bind]. rewrite Hv, i32_small by lia. f_equal. lia.
Qed.

(** ** Concrete runs *)

Lemma store_bytes_byte m p l : byte_mem m -> bytes l -> byte_mem (store_bytes m p l).
Proof.
  intros Hm Hl. revert m p Hm. induction Hl as [|c l Hc _ IH]; intros m p Hm; simpl; auto.
  apply IH. intros a. upd_cases; auto.
Qed.

Definition sample_mem : mem :=
  store_bytes (store_bytes (fun _ => 0) 100 (str "abababc")) 200 (str "abc").

Lemma sample_mem_byte : byte_mem sample_mem.
Proof.
  unfold sample_mem. do 2 (apply store_bytes_byte; [|repeat constructor; done]).
  intros a. lia.
Qed.

Lemma strstr_leftmost_witness :
  exists r, strstr 20 sample_mem 100 200 = Some r /\
    match r with
    | Some a => exists i, a = 100 + Z.of_nat i /\ first_match (str "abc") (str "abababc") i
    | None => no_match (str "abc") (str "abababc")
    end.
Proof.
  apply (strstr_leftmost sample_mem 100 200 (str "abababc") (str "abc") 20).
  - exact sample_mem_byte.
  - vm_compute. repeat split; discriminate.
  - vm_compute. repeat split; discriminate.
  - vm_compute. lia.
Defined.

Example strstr_run : strstr 20 sample_mem 100 200 = Some (Some 104).
Proof. reflexivity. Qed.

Lemma atoi_itoa_witness : atoi 40 (itoa (fun _ => 0) 64 (chr "d") (-1234)) 64 = Some (-1234).
Proof. apply atoi_itoa; lia. Defined.

Example itoa_hex : itoa_chars (chr "x") (-1) = str "ffffffff".
Proof. reflexivity. Qed.
