(* ===== verification/Block.v ===== *)
(** * The block layer ([src/src/block/block.c], [src/include/block/block.h])

    A table of at most eight devices, and the two routines through which every
    file system reaches a disk: they cut a request into batches and halve the
    batch whenever the driver refuses one. The driver is hardware behind a pair
    of function pointers: it is an interface ([driver]) with its laws
    ([driver_ok]). *)

From S2P Require Import Prelude CString.

Definition BLOCK_NAME_MAX : Z := 16.
Definition BLOCK_MAX_DEVICES : Z := 8.
Definition BLOCK_BATCH_MAX_SECTORS : Z := 1024.

(** [block_ops_t]: a driver keeps its own state [D]. A read gives the bytes when
    the C function returns 0; a write tells whether it returned 0. *)
Class driver (D : Type) := {
  drv_read : D -> Z -> Z -> D * option (list Z);
  drv_write : D -> Z -> Z -> list Z -> D * bool
}.

(** [block_device_t]; [has_read] and [has_write] tell whether the function
    pointers of [ops] are set, [ctx] names the driver's state. *)
Record block_device := {
  present : Z;
  bname : list Z;
  sector_size : Z;
  sector_count : Z;
  start_lba : Z;
  ctx : Z;
  has_read : bool;
  has_write : bool
}.

Definition zero_device : block_device :=
  {| present := 0; bname := []; sector_size := 0; sector_count := 0; start_lba := 0;
     ctx := 0; has_read := false; has_write := false |}.

(** [g_block_devices] and [g_block_count]. *)
Record block_table := { devices : Z -> block_device; count : Z }.

Definition block_init : block_table := {| devices := fun _ => zero_device; count := 0 |}.

(** [strncpy] of a name into [char[16]], whose last byte is then cleared. *)
Definition copy_name (name : list Z) : list Z := take (Z.to_nat (BLOCK_NAME_MAX - 1)) name.

Definition block_register (t : block_table) (name : option (list Z))
    (sector_size sector_count start_lba ctx : Z) (has_read has_write : bool) : block_table * Z :=
  if BLOCK_MAX_DEVICES <=? count t then (t, -1)
  else
    let d := {| present := 1;
                bname := match name with Some n => copy_name n | None => [] end;
                sector_size := sector_size; sector_count := sector_count;
                start_lba := start_lba; ctx := ctx;
                has_read := has_read; has_write := has_write |} in
    ({| devices := <[count t := d]> (devices t); count := count t + 1 |}, count t).

(** Device pointers are indices into the table; [None] is the null pointer. *)
Definition block_get (t : block_table) (idx : Z) : option Z :=
  if (idx <? 0) || (count t <=? idx) then None else Some idx.

Definition block_find (t : block_table) (name : list Z) : option Z :=
  let i := scan (fun i => bool_decide (bname (devices t i) = name)) 0 (Z.to_nat (count t)) in
  if i <? 0 then None else Some i.

Definition block_count (t : block_table) : Z := count t.

Section io.
Context {D : Type} `{!driver D}.

(** The transfer loop; [None] is "out of fuel". *)
Fixpoint read_loop (fuel : nat) (ss : Z) (d : D) (m : mem)
    (lba count dst done max_batch : Z) : option (Z * D * mem) :=
  match fuel with
  | O => None
  | S f =>
      if done <? count then
        let chunk := u32 (count - done) in
        let chunk := if max_batch <? chunk then max_batch else chunk in
        match drv_read d (u32 (lba + done)) chunk with
        | (d, Some bs) =>
            read_loop f ss d (store_bytes m (dst + u32 (done * ss)) bs)
              lba count dst (u32 (done + chunk)) max_batch
        | (d, None) =>
            if chunk <=? 1 then Some (-1, d, m)
            else
              let max_batch := chunk / 2 in
              let max_batch := if max_batch =? 0 then 1 else max_batch in
              read_loop f ss d m lba count dst done max_batch
        end
      else Some (0, d, m)
  end.

Fixpoint write_loop (fuel : nat) (ss : Z) (d : D) (m : mem)
    (lba count src done max_batch : Z) : option (Z * D) :=
  match fuel with
  | O => None
  | S f =>
      if done <? count then
        let chunk := u32 (count - done) in
        let chunk := if max_batch <? chunk then max_batch else chunk in
        match drv_write d (u32 (lba + done)) chunk
                (load_bytes m (src + u32 (done * ss)) (Z.to_nat (chunk * ss))) with
        | (d, true) =>
            write_loop f ss d m lba count src (u32 (done + chunk)) max_batch
        | (d, false) =>
            if chunk <=? 1 then Some (-1, d)
            else
              let max_batch := chunk / 2 in
              let max_batch := if max_batch =? 0 then 1 else max_batch in
              write_loop f ss d m lba count src done max_batch
        end
      else Some (0, d)
  end.

(** Every turn of the loop transfers a sector or halves the batch, which
    starts at 1024: [count + 12] turns are enough. *)
Definition io_fuel (count : Z) : nat := Z.to_nat count + 12.

Definition block_read_sectors (dev : option block_device) (d : D) (m : mem)
    (lba count out : Z) : option (Z * D * mem) :=
  match dev with
  | None => Some (-1, d, m)
  | Some b =>
      if (out =? 0) || negb (has_read b) || (sector_size b =? 0) then Some (-1, d, m)
      else if count =? 0 then Some (0, d, m)
      else read_loop (io_fuel count) (sector_size b) d m lba count out 0 BLOCK_BATCH_MAX_SECTORS
  end.

Definition block_write_sectors (dev : option block_device) (d : D) (m : mem)
    (lba count inp : Z) : option (Z * D) :=
  match dev with
  | None => Some (-1, d)
  | Some b =>
      if (inp =? 0) || negb (has_write b) || (sector_size b =? 0) then Some (-1, d)
      else if count =? 0 then Some (0, d)
      else write_loop (io_fuel count) (sector_size b) d m lba count inp 0 BLOCK_BATCH_MAX_SECTORS
  end.
End io.

(** ** What a driver promises *)

(** [n] consecutive sectors from [lba]. *)
Fixpoint sectors (sector : Z -> list Z) (lba : Z) (n : nat) : list Z :=
  match n with
  | O => []
  | S n => sector lba ++ sectors sector (lba + 1) n
  end.

(** [sector d i] is what sector [i] of the medium holds in driver state [d]: a
    read changes no sector and returns the sectors asked for; a successful write
    stores its bytes there; a refused one disturbs at most the sectors it names. *)
Class driver_ok (D : Type) `{!driver D} (ss : Z) (sector : D -> Z -> list Z) := {
  sector_length : forall d i, Z.of_nat (length (sector d i)) = ss;
  read_frame : forall d lba n d' r i, drv_read d lba n = (d', r) -> sector d' i = sector d i;
  read_data : forall d lba n d' bs,
    drv_read d lba n = (d', Some bs) -> bs = sectors (sector d) lba (Z.to_nat n);
  write_data : forall d lba n bs d',
    drv_write d lba n bs = (d', true) -> Z.of_nat (length bs) = n * ss ->
    sectors (sector d') lba (Z.to_nat n) = bs;
  write_frame : forall d lba n bs d' b i,
    drv_write d lba n bs = (d', b) -> i < lba \/ lba + n <= i -> sector d' i = sector d i
}.

(** The driver refuses no request for a single sector. *)
Definition reads_singles {D} `{!driver D} : Prop :=
  forall d lba, snd (drv_read d lba 1) <> None.

Definition writes_singles {D} `{!driver D} : Prop :=
  forall d lba bs, snd (drv_write d lba 1 bs) = true.

(** ** Lemmas on transfers *)

Lemma sectors_app sec lba n1 n2 :
  sectors sec lba (n1 + n2) = sectors sec lba n1 ++ sectors sec (lba + Z.of_nat n1) n2.
Proof.
  revert lba. induction n1 as [|n1 IH]; intros lba; simpl.
  - by rewrite Z.add_0_r.
  - rewrite IH, <- app_assoc. do 3 f_equal. lia.
Qed.

Lemma sectors_ext sec sec' lba n :
  (forall i, lba <= i < lba + Z.of_nat n -> sec i = sec' i) -> sectors sec lba n = sectors sec' lba n.
Proof.
  revert lba. induction n as [|n IH]; intros lba H; simpl; [done|].
  rewrite H by lia. f_equal. apply IH. intros. apply H. lia.
Qed.

Lemma length_sectors sec ss lba n :
  (forall i, Z.of_nat (length (sec i)) = ss) ->
  Z.of_nat (length (sectors sec lba n)) = Z.of_nat n * ss.
Proof.
  intros H. revert lba. induction n as [|n IH]; intros lba; simpl; [lia|].
  rewrite length_app, Nat2Z.inj_add, H, IH. lia.
Qed.

(** How the batch limit shrinks: halving a refused batch of at least two. *)
Lemma halved_batch chunk max :
  2 <= chunk <= max ->
  let h := if chunk / 2 =? 0 then 1 else chunk / 2 in
  1 <= h <= max /\ Z.log2 h + 1 <= Z.log2 max.
Proof.
  intros H h. assert (Hh : h = chunk / 2).
  { unfold h. ztest; [|done]. exfalso. pose proof (Z.div_le_lower_bound chunk 2 1). lia. }
  rewrite Hh. pose proof (Z.div_le_lower_bound chunk 2 1 ltac:(lia) ltac:(lia)).
  pose proof (Z.div_le_upper_bound chunk 2 max ltac:(lia) ltac:(lia)).
  split; [lia|].
  assert (Z.log2 (2 * (chunk / 2)) <= Z.log2 max).
  { apply Z.log2_le_mono. pose proof (Z.mul_div_le chunk 2). lia. }
  rewrite Z.log2_double in * by lia. lia.
Qed.

Section transfers.
Context {D : Type} `{!driver D} (ss : Z) (sector : D -> Z -> list Z) `{!driver_ok D ss sector}.

(** The batch the loop asks for. *)
Lemma chunk_bounds count done max_batch :
  0 <= done < count -> count < 2 ^ 32 -> 1 <= max_batch ->
  let chunk := if max_batch <? u32 (count - done) then max_batch else u32 (count - done) in
  1 <= chunk <= max_batch /\ chunk <= count - done.
Proof. intros ? ? ?. rewrite u32_small by lia. cbv zeta. ztest; lia. Qed.

Lemma read_loop_spec fuel d m lba cnt dst done max :
  0 < ss -> 0 <= done <= cnt -> cnt * ss < 2 ^ 32 -> 0 <= lba -> lba + cnt <= 2 ^ 32 ->
  1 <= max -> cnt - done + Z.log2 max + 2 <= Z.of_nat fuel ->
  exists ret d' m' k,
    read_loop fuel ss d (store_bytes m dst (sectors (sector d) lba (Z.to_nat done)))
      lba cnt dst done max = Some (ret, d', m') /\
    (forall i, sector d' i = sector d i) /\ 0 <= k <= cnt /\
    m' = store_bytes m dst (sectors (sector d) lba (Z.to_nat k)) /\
    (ret = 0 /\ k = cnt \/
     ret = -1 /\ k < cnt /\ exists d0, snd (drv_read d0 (lba + k) 1) = None).
Proof.
  intros Hss. revert d done max. induction fuel as [|f IH];
    intros d done max Hdone Hcnt Hlba Hl32 Hmax Hf; cbn [read_loop].
  { exfalso. pose proof (Z.log2_nonneg max). lia. }
  destruct (Z.ltb_spec done cnt).
  2: { exists 0, d, (store_bytes m dst (sectors (sector d) lba (Z.to_nat done))), done.
       split; [done|]. split; [done|]. split; [lia|]. split; [done|]. left. lia. }
  assert (Hc32 : cnt < 2 ^ 32) by nia.
  pose proof (chunk_bounds cnt done max ltac:(lia) Hc32 Hmax) as Hchunk. cbv zeta in Hchunk.
  set (chunk := if max <? _ then _ else _) in *.
  rewrite (u32_small (lba + done)), (u32_small (done * ss)) by nia.
  destruct (drv_read d (lba + done) chunk) as [d' [bs|]] eqn:Ed.
  - pose proof (read_data _ _ _ _ _ Ed) as ->.
    assert (Hfr : forall i, sector d' i = sector d i) by (intros; eapply read_frame; eauto).
    rewrite u32_small by lia.
    assert (El : done * ss = Z.of_nat (length (sectors (sector d) lba (Z.to_nat done)))).
    { rewrite (length_sectors _ ss) by apply sector_length. rewrite Z2Nat.id by lia. done. }
    rewrite El, <- store_bytes_app. clear El.
    replace (lba + done) with (lba + Z.of_nat (Z.to_nat done)) by lia.
    rewrite <- sectors_app, <- Z2Nat.inj_add by lia.
    rewrite (sectors_ext (sector d) (sector d')) by (intros; done).
    destruct (IH d' (done + chunk) max) as (ret & d2 & m2 & k & E & Hf2 & Hk & Em & Hr); try lia.
    exists ret, d2, m2, k. split; [exact E|]. split; [intros; by rewrite Hf2|].
    split; [lia|]. split; [|exact Hr].
    rewrite Em. f_equal. apply sectors_ext. intros; done.
  - assert (Hfr : forall i, sector d' i = sector d i) by (intros; eapply read_frame; eauto).
    destruct (Z.leb_spec chunk 1).
    + exists (-1), d', (store_bytes m dst (sectors (sector d) lba (Z.to_nat done))), done.
      repeat (split; [done || lia|]). right. split; [done|]. split; [lia|].
      exists d. replace chunk with 1 in Ed by lia. by rewrite Ed.
    + pose proof (halved_batch chunk max ltac:(lia)) as [Hh1 Hh2]. cbv zeta in *.
      rewrite (sectors_ext (sector d) (sector d')) by (intros; done).
      destruct (IH d' done (if chunk / 2 =? 0 then 1 else chunk / 2))
        as (ret & d2 & m2 & k & E & Hf2 & Hk & Em & Hr); try lia.
      exists ret, d2, m2, k. split; [exact E|]. split; [intros; by rewrite Hf2|].
      split; [lia|]. split; [|exact Hr].
      rewrite Em. f_equal. apply sectors_ext. intros; done.
Qed.

(** State of a transfer to the disk after [done] sectors: they hold the bytes
    of memory, and nothing outside the request has changed since [d0]. *)
Definition written (d0 d : D) (m : mem) (lba cnt src done : Z) : Prop :=
  sectors (sector d) lba (Z.to_nat done) = load_bytes m src (Z.to_nat (done * ss)) /\
  forall i, i < lba \/ lba + cnt <= i -> sector d i = sector d0 i.

Lemma written_refused d0 d d' m lba cnt src done chunk bs b :
  0 <= done -> done + chunk <= cnt -> written d0 d m lba cnt src done ->
  drv_write d (lba + done) chunk bs = (d', b) ->
  written d0 d' m lba cnt src done.
Proof.
  intros Hd Hc [H1 H2] E. split.
  - rewrite <- H1. apply sectors_ext. intros i Hi. eapply write_frame; [exact E | lia].
  - intros i Hi. rewrite <- H2 by done. eapply write_frame; [exact E | lia].
Qed.

Lemma written_step d0 d d' m lba cnt src done chunk :
  0 <= ss -> 0 <= done -> 0 <= chunk -> done + chunk <= cnt ->
  written d0 d m lba cnt src done ->
  drv_write d (lba + done) chunk
    (load_bytes m (src + done * ss) (Z.to_nat (chunk * ss))) = (d', true) ->
  written d0 d' m lba cnt src (done + chunk).
Proof.
  intros Hss Hd Hch Hc Hw E.
  destruct (written_refused _ _ _ _ _ _ _ _ _ _ _ Hd Hc Hw E) as [H1 H2].
  split; [|exact H2].
  rewrite Z.mul_add_distr_r, !Z2Nat.inj_add by nia. rewrite sectors_app, load_bytes_app, H1.
  f_equal. rewrite !Z2Nat.id by nia. eapply write_data; [exact E|].
  rewrite length_load_bytes. nia.
Qed.

Lemma write_loop_spec fuel d0 d m lba cnt src done max :
  0 < ss -> 0 <= done <= cnt -> cnt * ss < 2 ^ 32 -> 0 <= lba -> lba + cnt <= 2 ^ 32 ->
  1 <= max -> cnt - done + Z.log2 max + 2 <= Z.of_nat fuel ->
  written d0 d m lba cnt src done ->
  exists ret d' k,
    write_loop fuel ss d m lba cnt src done max = Some (ret, d') /\ 0 <= k <= cnt /\
    written d0 d' m lba cnt src k /\
    (ret = 0 /\ k = cnt \/
     ret = -1 /\ k < cnt /\ exists d1 bs, snd (drv_write d1 (lba + k) 1 bs) = false).
Proof.
  intros Hss. revert d done max. induction fuel as [|f IH];
    intros d done max Hdone Hcnt Hlba Hl32 Hmax Hf Hw; cbn [write_loop].
  { exfalso. pose proof (Z.log2_nonneg max). lia. }
  destruct (Z.ltb_spec done cnt).
  2: { exists 0, d, done. split; [done|]. split; [lia|]. split; [done|]. left. lia. }
  assert (Hc32 : cnt < 2 ^ 32) by nia.
  pose proof (chunk_bounds cnt done max ltac:(lia) Hc32 Hmax) as Hchunk. cbv zeta in Hchunk.
  set (chunk := if max <? _ then _ else _) in *.
  rewrite (u32_small (lba + done)), (u32_small (done * ss)) by nia.
  destruct (drv_write d (lba + done) chunk _) as [d' []] eqn:Ed.
  - rewrite u32_small by lia. apply IH; try lia.
    apply written_step with (d := d); auto; lia.
  - assert (Hw' : written d0 d' m lba cnt src done)
      by (eapply written_refused; [| | exact Hw | exact Ed]; lia).
    destruct (Z.leb_spec chunk 1).
    + exists (-1), d', done. split; [done|]. split; [lia|]. split; [done|]. right.
      split; [done|]. split; [lia|]. replace chunk with 1 in Ed by lia.
      eexists d, _. by rewrite Ed.
    + pose proof (halved_batch chunk max ltac:(lia)) as [Hh1 Hh2]. cbv zeta in *.
      apply IH; auto; lia.
Qed.

Lemma block_read_spec (b : block_device) (d : D) (m : mem) (lba cnt out : Z)
  (Hss : 0 < ss) (Hb : sector_size b = ss) (Hr : has_read b = true) (Hout : out <> 0)
  (Hc : 0 <= cnt) (Hsz : cnt * ss < 2 ^ 32) (Hlba : 0 <= lba) (Hend : lba + cnt <= 2 ^ 32) :
  exists ret d' k,
    block_read_sectors (Some b) d m lba cnt out =
      Some (ret, d', store_bytes m out (sectors (sector d) lba (Z.to_nat k))) /\
    (forall i, sector d' i = sector d i) /\
    (ret = 0 /\ k = cnt \/
     ret = -1 /\ 0 <= k < cnt /\ exists d0, snd (drv_read d0 (lba + k) 1) = None).
Proof.
  unfold block_read_sectors. rewrite Hr, Hb.
  destruct (Z.eqb_spec out 0), (Z.eqb_spec ss 0); simpl; try lia.
  destruct (Z.eqb_spec cnt 0) as [->|].
  { exists 0, d, 0. repeat (split; [done|]). left. lia. }
  destruct (read_loop_spec (io_fuel cnt) d m lba cnt out 0 BLOCK_BATCH_MAX_SECTORS)
    as (ret & d' & m' & k & E & Hfr & Hk & -> & Hcase); auto; try lia; try done.
  { unfold io_fuel, BLOCK_BATCH_MAX_SECTORS. change (Z.log2 1024) with 10. lia. }
  exists ret, d', k. split; [exact E|]. split; [exact Hfr|]. intuition lia.
Qed.

(** C35: a read always finishes. On 0 the caller's memory holds the sectors asked
    for and is otherwise as before, even over a driver that refuses large
    requests; -1 is returned only when the driver refused some single sector of
    the range, and then exactly the sectors before it have been stored. *)
Theorem block_read_complete (b : block_device) (d : D) (m : mem) (lba cnt out : Z)
  (Hss : 0 < ss) (Hb : sector_size b = ss) (Hr : has_read b = true) (Hout : out <> 0)
  (Hc : 0 <= cnt) (Hsz : cnt * ss < 2 ^ 32) (Hlba : 0 <= lba) (Hend : lba + cnt <= 2 ^ 32) :
  exists ret d' k,
    block_read_sectors (Some b) d m lba cnt out =
      Some (ret, d', store_bytes m out (sectors (sector d) lba (Z.to_nat k))) /\
    (forall i, sector d' i = sector d i) /\
    (ret = 0 /\ k = cnt \/
     ret = -1 /\ 0 <= k < cnt /\ exists d0, snd (drv_read d0 (lba + k) 1) = None).
Proof. by apply block_read_spec. Qed.

Lemma block_write_spec (b : block_device) (d : D) (m : mem) (lba cnt inp : Z)
  (Hws : writes_singles (D := D)) (Hss : 0 < ss) (Hb : sector_size b = ss) (Hw : has_write b = true) (Hinp : inp <> 0)
  (Hc : 0 <= cnt) (Hsz : cnt * ss < 2 ^ 32) (Hlba : 0 <= lba) (Hend : lba + cnt <= 2 ^ 32) :
  exists d1, block_write_sectors (Some b) d m lba cnt inp = Some (0, d1) /\ written d d1 m lba cnt inp cnt.
Proof.
  unfold block_write_sectors. rewrite Hw, Hb.
  destruct (Z.eqb_spec inp 0), (Z.eqb_spec ss 0); simpl; try lia.
  destruct (Z.eqb_spec cnt 0) as [->|].
  { exists d. split; [done|]. split; done. }
  destruct (write_loop_spec (io_fuel cnt) d d m lba cnt inp 0 BLOCK_BATCH_MAX_SECTORS)
    as (ret & d1 & k & E & Hk & Hwk & Hcase); auto; try lia; try done.
  { unfold io_fuel, BLOCK_BATCH_MAX_SECTORS. change (Z.log2 1024) with 10. lia. }
  destruct Hcase as [[-> ->]|(_ & _ & d1' & bs & Hno)]; [eauto|].
  rewrite Hws in Hno. done.
Qed.

(** Over a driver that serves single sectors, a write followed by a read of
    the same range succeeds and gives back the bytes written, and no sector
    outside the range has changed. *)
Theorem block_write_then_read (b : block_device) (d : D) (m : mem) (lba cnt inp out : Z)
  (Hrs : reads_singles (D := D)) (Hws : writes_singles (D := D))
  (Hss : 0 < ss) (Hb : sector_size b = ss) (Hr : has_read b = true) (Hw : has_write b = true)
  (Hinp : inp <> 0) (Hout : out <> 0)
  (Hc : 0 <= cnt) (Hsz : cnt * ss < 2 ^ 32) (Hlba : 0 <= lba) (Hend : lba + cnt <= 2 ^ 32) :
  exists d1 d2,
    block_write_sectors (Some b) d m lba cnt inp = Some (0, d1) /\
    block_read_sectors (Some b) d1 m lba cnt out =
      Some (0, d2, store_bytes m out (load_bytes m inp (Z.to_nat (cnt * ss)))) /\
    forall i, i < lba \/ lba + cnt <= i -> sector d2 i = sector d i.
Proof.
  destruct (block_write_spec b d m lba cnt inp) as (d1 & E1 & Hdata & Hframe); auto.
  destruct (block_read_spec b d1 m lba cnt out) as (ret & d2 & k & E2 & Hfr & Hcase); auto.
  destruct Hcase as [[-> ->]|(_ & _ & d0 & Hno)]; [|by apply Hrs in Hno].
  rewrite Hdata in E2. exists d1, d2. split; [exact E1|]. split; [exact E2|].
  intros i Hi. by rewrite Hfr, Hframe.
Qed.
End transfers.

(** ** A RAM disk with sectors of [k] bytes, which refuses requests of more than
    four sectors *)

Record ramdisk (k : nat) := { rd_sector : Z -> list Z }.
Arguments rd_sector {k}.

Definition pad (k : nat) (l : list Z) : list Z := take k (l ++ replicate k 0).

Definition rd_put {k} (d : ramdisk k) (lba : Z) (n : nat) (bs : list Z) : ramdisk k :=
  {| rd_sector := fun i =>
       if (lba <=? i) && (i <? lba + Z.of_nat n)
       then pad k (drop (k * Z.to_nat (i - lba)) bs) else rd_sector d i |}.

#[export] Instance ramdisk_driver k : driver (ramdisk k) := {
  drv_read d lba n :=
    (d, if n <=? 4 then Some (sectors (fun i => pad k (rd_sector d i)) lba (Z.to_nat n)) else None);
  drv_write d lba n bs := if n <=? 4 then (rd_put d lba (Z.to_nat n) bs, true) else (d, false)
}.

Lemma length_pad k l : length (pad k l) = k.
Proof. unfold pad. rewrite length_take, length_app, length_replicate. lia. Qed.

Lemma pad_long k l : (k <= length l)%nat -> pad k l = take k l.
Proof. intros H. unfold pad. by apply take_app_le. Qed.

Lemma rd_put_sectors k (d : ramdisk k) lba n bs :
  length bs = (n * k)%nat -> sectors (fun i => pad k (rd_sector (rd_put d lba n bs) i)) lba n = bs.
Proof.
  intros H.
  enough (G : forall j l, length l = (j * k)%nat -> (j <= n)%nat -> l = drop (k * (n - j)) bs ->
            sectors (fun i => pad k (rd_sector (rd_put d lba n bs) i)) (lba + Z.of_nat (n - j)) j = l).
  { pose proof (G n bs H ltac:(lia) ltac:(by rewrite Nat.sub_diag, Nat.mul_0_r)) as G'.
    rewrite Nat.sub_diag, Z.add_0_r in G'. exact G'. }
  induction j as [|j IH]; intros l Hl Hj E; [by destruct l|]. cbn [sectors].
  replace (lba + Z.of_nat (n - S j) + 1) with (lba + Z.of_nat (n - j)) by lia.
  rewrite IH with (l := drop k l); [|rewrite length_drop; lia|lia|].
  2: { rewrite E, drop_drop. f_equal. nia. }
  rewrite <- (take_drop k l) at 2. f_equal. unfold rd_put. cbn [rd_sector].
  destruct (Z.leb_spec lba (lba + Z.of_nat (n - S j))), (Z.ltb_spec (lba + Z.of_nat (n - S j)) (lba + Z.of_nat n)); simpl andb; try lia.
  replace (Z.to_nat (lba + Z.of_nat (n - S j) - lba)) with (n - S j)%nat by lia.
  rewrite <- E, (pad_long k (pad k l)) by (rewrite length_pad; lia). rewrite pad_long by nia. by rewrite take_take, Nat.min_id.
Qed.

#[export] Instance ramdisk_ok k : driver_ok (ramdisk k) (Z.of_nat k) (fun d i => pad k (rd_sector d i)).
Proof.
  split.
  - intros. by rewrite length_pad.
  - intros d lba n d' r i E. unfold drv_read, ramdisk_driver in E. by simplify_eq.
  - intros d lba n d' bs E. unfold drv_read, ramdisk_driver in E. destruct (n <=? 4); by simplify_eq.
  - intros d lba n bs d' E Hl. unfold drv_write, ramdisk_driver in E.
    destruct (n <=? 4); simplify_eq. apply rd_put_sectors. nia.
  - intros d lba n bs d' b i E Hi. unfold drv_write, ramdisk_driver in E.
    destruct (n <=? 4); simplify_eq; [|done]. unfold rd_put. cbn [rd_sector].
    destruct (Z.leb_spec lba i), (Z.ltb_spec i (lba + Z.of_nat (Z.to_nat n))); simpl; try done; lia.
Qed.

Definition sample_device : block_device :=
  {| present := 1; bname := str "sda"; sector_size := 2; sector_count := 100; start_lba := 0;
     ctx := 0; has_read := true; has_write := true |}.

Definition sample_disk : ramdisk 2 := {| rd_sector := fun i => [u8 i; u8 (i + 1)] |}.

Lemma block_read_complete_witness :
  exists ret d' k,
    block_read_sectors (Some sample_device) sample_disk (fun _ => 0) 5 20 1000 =
      Some (ret, d', store_bytes (fun _ => 0) 1000
                       (sectors (fun i => pad 2 (rd_sector sample_disk i)) 5 (Z.to_nat k))) /\
    (forall i, pad 2 (rd_sector d' i) = pad 2 (rd_sector sample_disk i)) /\
    (ret = 0 /\ k = 20 \/
     ret = -1 /\ 0 <= k < 20 /\ exists d0, snd (drv_read (D := ramdisk 2) d0 (5 + k) 1) = None).
Proof. apply (block_read_complete 2 (fun d i => pad 2 (rd_sector d i))); done. Defined.

Lemma block_write_then_read_witness :
  exists d1 d2,
    block_write_sectors (Some sample_device) sample_disk (fun a => u8 a) 5 20 300 = Some (0, d1) /\
    block_read_sectors (Some sample_device) d1 (fun a => u8 a) 5 20 1000 =
      Some (0, d2, store_bytes (fun a => u8 a) 1000 (load_bytes (fun a => u8 a) 300 (Z.to_nat (20 * 2)))) /\
    forall i, i < 5 \/ 5 + 20 <= i -> pad 2 (rd_sector d2 i) = pad 2 (rd_sector sample_disk i).
Proof.
  apply (block_write_then_read 2 (fun d i => pad 2 (rd_sector d i))); try done; try lia.
Defined.
