(* ===== verification/Path.v ===== *)
(** * Path names ([normalize_path], [path_split_last] of [src/src/vfs/vfs.c],
    [build_at_path] of [src/src/sys/syscall.c], [task_name_from_path] of
    [src/src/sys/process.c])

    A C string is the list of its characters before the terminator. The routines
    work in buffers of fixed size: a copy that would run past its buffer makes
    the function return [None], "the stack is overwritten". *)

From S2P Require Import Prelude.

Definition VFS_NAME_MAX : Z := 64.
Definition VFS_PATH_MAX : Z := 256.

Abbreviation path := (list Z).

Definition slash : Z := chr "/".
Definition dot : path := str ".".
Definition dotdot : path := str "..".

Definition zlength {A} (l : list A) : Z := Z.of_nat (length l).

(** [while (tmp[i] == '/') i++] and the extent of the component that follows. *)
Fixpoint skip_slashes (s : path) : path :=
  match s with
  | c :: s' => if c =? slash then skip_slashes s' else s
  | [] => []
  end.

Fixpoint upto_slash (s : path) : path :=
  match s with
  | c :: s' => if c =? slash then [] else c :: upto_slash s'
  | [] => []
  end.

Fixpoint from_slash (s : path) : path :=
  match s with
  | c :: s' => if c =? slash then s else from_slash s'
  | [] => []
  end.

(** [while (oi > 0 && out[oi - 1] != '/') oi--]. *)
Fixpoint retract (out : path) (oi : nat) : nat :=
  match oi with
  | O => O
  | S oi' => if default 0 (out !! oi') =? slash then oi else retract out oi'
  end.

(** The [".."] case: one character back, then back to the previous slash. *)
Definition norm_up (out : path) : path :=
  let oi := length out in
  if (1 <? oi)%nat then take (retract out (oi - 1)) out else out.

(** A component: a separating slash, then as many characters as fit. *)
Definition norm_push (out comp : path) : path :=
  let out := if (1 <? zlength out) && (zlength out <? VFS_PATH_MAX - 1)
             then out ++ [slash] else out in
  out ++ take (Z.to_nat (VFS_PATH_MAX - 1 - zlength out)) comp.

(** The scanning loop; every turn consumes a character of [tmp], so its length
    is enough fuel. *)
Fixpoint norm_loop (fuel : nat) (tmp out : path) : path :=
  match fuel with
  | O => out
  | S f =>
      let tmp := skip_slashes tmp in
      match tmp with
      | [] => out
      | _ :: _ =>
          let comp := upto_slash tmp in
          let tmp := from_slash tmp in
          if bool_decide (comp = dot) then norm_loop f tmp out
          else if bool_decide (comp = dotdot) then norm_loop f tmp (norm_up out)
          else norm_loop f tmp (norm_push out comp)
      end
  end.

(** What [tmp] receives: the path itself, or the path after the working directory. *)
Definition norm_tmp (cwd : path) (inp : option path) : path :=
  match inp with
  | None | Some [] => cwd
  | Some ((c :: _) as p) =>
      if c =? slash then p
      else (if bool_decide (cwd = [slash]) then cwd else cwd ++ [slash]) ++ p
  end.

Definition normalize_path (cwd : path) (inp : option path) : option path :=
  let tmp := norm_tmp cwd inp in
  if VFS_PATH_MAX <=? zlength tmp then None
  else
    let out := norm_loop (S (length tmp)) tmp [slash] in
    Some (if bool_decide (out = []) then [slash] else out).

(** [while (len > 1 && path[len - 1] == '/') len--]. *)
Fixpoint trim_len (p : path) (len : nat) : nat :=
  match len with
  | O => O
  | S len' => if (1 <? len)%nat && (default 0 (p !! len') =? slash) then trim_len p len' else len
  end.

(** [while (cut > 0 && path[cut] != '/') cut--]. *)
Fixpoint cut_pos (p : path) (cut : nat) : nat :=
  match cut with
  | O => O
  | S cut' => if negb (default 0 (p !! cut) =? slash) then cut_pos p cut' else cut
  end.

(** The parent directory and the last component; [None] is the result -1. *)
Definition path_split_last (p : path) : option (path * path) :=
  let len := trim_len p (length p) in
  let cut := cut_pos p (len - 1) in
  let n := Z.of_nat len - Z.of_nat cut - 1 in
  if (n <=? 0) || (VFS_NAME_MAX <=? n) then None
  else
    let leaf := take (Z.to_nat n) (drop (S cut) p) in
    Some (if (cut =? 0)%nat then [slash] else take cut p, leaf).

(** [task_name_from_path]: what follows the last slash, cut to the buffer. *)
Fixpoint after_last_slash (p name : path) : path :=
  match p with
  | [] => name
  | c :: p' => after_last_slash p' (if c =? slash then p' else name)
  end.

Definition task_name_from_path (p : option path) (out_sz : Z) : option path :=
  match p with
  | None => None
  | Some p => if out_sz <=? 0 then None
              else Some (take (Z.to_nat (out_sz - 1)) (after_last_slash p p))
  end.

(** [build_at_path]: [base] is the directory the caller selected, the working
    directory or that of the descriptor; [None] is the result -1. *)
Definition build_at_path (base : option path) (path_in : path) (out_sz : Z) : option path :=
  let room (out : path) := Z.to_nat (out_sz - 1 - zlength out) in
  if out_sz <=? 1 then None
  else if bool_decide (head path_in = Some slash) then Some (take (Z.to_nat (out_sz - 1)) path_in)
  else
    match base with
    | None => None
    | Some base =>
        match base with
        | c :: base' =>
            if negb (c =? slash) then None
            else
              let out := [slash] in
              let out := if bool_decide (base' = []) then out else out ++ take (room out) base' in
              let out := if (1 <? zlength out) && negb (default 0 (last out) =? slash) &&
                            (zlength out <? out_sz - 1) then out ++ [slash] else out in
              let out := out ++ take (room out) path_in in
              Some (if negb (bool_decide (path_in = [])) && (default 0 (last out) =? slash) &&
                       (1 <? zlength out) then take (length out - 1) out else out)
        | [] => None
        end
    end.

(** ** Components *)

(** The components of a path: the maximal runs of characters between slashes. *)
Fixpoint comps_from (s cur : path) : list path :=
  match s with
  | [] => if bool_decide (cur = []) then [] else [cur]
  | c :: s =>
      if c =? slash then (if bool_decide (cur = []) then [] else [cur]) ++ comps_from s []
      else comps_from s (cur ++ [c])
  end.

Definition components (s : path) : list path := comps_from s [].

Fixpoint join (cs : list path) : path :=
  match cs with
  | [] => []
  | [c] => c
  | c :: cs => c ++ slash :: join cs
  end.

(** The absolute path of a list of components. *)
Definition render (cs : list path) : path := slash :: join cs.

(** The reference meaning of a path: the stack of names it denotes. *)
Definition posix_step (cs : list path) (c : path) : list path :=
  if bool_decide (c = dot) then cs
  else if bool_decide (c = dotdot) then removelast cs
  else cs ++ [c].

Definition posix (s : path) : list path := fold_left posix_step (components s) [].

(** What the code keeps in [out]: components too, but an "up" leaves the slash
    behind, that is an empty component. *)
Definition leave (cs : list path) : list path := if bool_decide (cs = []) then [] else cs ++ [[]].

Definition code_up (cs : list path) : list path :=
  match last cs with
  | None => cs
  | Some [] =>
      match last (removelast cs) with
      | Some [] => removelast cs
      | _ => leave (removelast (removelast cs))
      end
  | Some (_ :: _) => leave (removelast cs)
  end.

Definition code_step (cs : list path) (c : path) : list path :=
  if bool_decide (c = dot) then cs
  else if bool_decide (c = dotdot) then code_up cs
  else cs ++ [c].

(** Names that may stand in a canonical path. *)
Definition plain (c : path) : Prop := c <> [] /\ slash ∉ c.

Definition name_ok (c : path) : Prop := plain c /\ c <> dot /\ c <> dotdot.

Definition canonical (p : path) : Prop := exists cs, p = render cs /\ Forall name_ok cs.

(** ** Scanning *)

Lemma comps_from_app c s cur : slash ∉ c -> comps_from (c ++ s) cur = comps_from s (cur ++ c).
Proof.
  revert cur. induction c as [|x c IH]; intros cur Hc; simpl; [by rewrite app_nil_r|].
  apply not_elem_of_cons in Hc as [Hx Hc]. destruct (Z.eqb_spec x slash); [congruence|].
  rewrite IH by done. by rewrite <- app_assoc.
Qed.

Lemma comps_from_slash s cur :
  comps_from (slash :: s) cur = (if bool_decide (cur = []) then [] else [cur]) ++ components s.
Proof. reflexivity. Qed.

Lemma components_skip s : components (skip_slashes s) = components s.
Proof.
  induction s as [|c s IH]; simpl; [done|].
  destruct (Z.eqb_spec c slash) as [->|]; [|done]. by rewrite IH.
Qed.

Lemma skip_slashes_head s c s' : skip_slashes s = c :: s' -> c <> slash.
Proof.
  induction s as [|x s IH]; simpl; [done|].
  destruct (Z.eqb_spec x slash); [auto | intros; congruence].
Qed.

Lemma skip_slashes_length s : (length (skip_slashes s) <= length s)%nat.
Proof. induction s as [|c s IH]; simpl; [done|]. destruct (c =? slash); simpl; lia. Qed.

Lemma upto_from s : upto_slash s ++ from_slash s = s.
Proof.
  induction s as [|c s IH]; simpl; [done|].
  destruct (c =? slash); simpl; [done | by rewrite IH].
Qed.

Lemma upto_slash_free s : slash ∉ upto_slash s.
Proof.
  induction s as [|c s IH]; simpl; [apply not_elem_of_nil|].
  destruct (Z.eqb_spec c slash); [apply not_elem_of_nil|].
  apply not_elem_of_cons. split; [congruence | done].
Qed.

(** [from_slash] leaves a slash or nothing. *)
Definition at_slash (s : path) : Prop := s = [] \/ head s = Some slash.

Lemma from_slash_at s : at_slash (from_slash s).
Proof.
  unfold at_slash. induction s as [|c s IH]; simpl; [auto|].
  destruct (Z.eqb_spec c slash) as [->|]; simpl; auto.
Qed.

Lemma components_step s c s' :
  skip_slashes s = c :: s' ->
  components s = upto_slash (c :: s') :: components (from_slash (c :: s')).
Proof.
  intros E. pose proof (skip_slashes_head _ _ _ E) as Hc.
  rewrite <- components_skip, E. rewrite <- (upto_from (c :: s')) at 1.
  unfold components at 1. rewrite comps_from_app by apply upto_slash_free. simpl app.
  assert (Hne : upto_slash (c :: s') <> []).
  { simpl. destruct (Z.eqb_spec c slash); [done | discriminate]. }
  destruct (from_slash_at (c :: s')) as [->|Hh].
  - simpl comps_from. rewrite bool_decide_false by done. done.
  - destruct (from_slash (c :: s')) as [|x r]; simpl in Hh; simplify_eq.
    rewrite comps_from_slash, bool_decide_false by done. done.
Qed.

Lemma components_nil s : skip_slashes s = [] -> components s = [].
Proof. intros E. by rewrite <- components_skip, E. Qed.

Lemma components_plain s : Forall plain (components s).
Proof.
  enough (G : forall s cur, slash ∉ cur -> Forall plain (comps_from s cur)) by (apply G, not_elem_of_nil).
  clear s. induction s as [|c s IH]; intros cur Hcur; simpl.
  - case_bool_decide; repeat constructor; done.
  - destruct (Z.eqb_spec c slash).
    + apply Forall_app. split; [case_bool_decide; repeat constructor; done|].
      apply IH, not_elem_of_nil.
    + apply IH. apply not_elem_of_app. split; [done|].
      apply not_elem_of_cons. split; [congruence | apply not_elem_of_nil].
Qed.

(** ** Rendering *)

Lemma join_snoc cs c : join (cs ++ [c]) = if bool_decide (cs = []) then c else join cs ++ slash :: c.
Proof.
  induction cs as [|d cs IH]; [done|]. rewrite bool_decide_false by done.
  destruct cs as [|e cs]; [done|].
  change (join ((d :: e :: cs) ++ [c])) with (d ++ slash :: join ((e :: cs) ++ [c])).
  rewrite IH. rewrite bool_decide_false by done.
  change (join (d :: e :: cs)) with (d ++ slash :: join (e :: cs)). by rewrite <- app_assoc.
Qed.

Arguments render : simpl never.

Lemma render_snoc cs c : cs <> [] -> render (cs ++ [c]) = render cs ++ slash :: c.
Proof. intros H. unfold render. rewrite join_snoc, bool_decide_false; done. Qed.

(** Components without slashes, of which the first is not empty. *)
Definition good (cs : list path) : Prop :=
  Forall (fun c => slash ∉ c) cs /\ head cs <> Some [].

Lemma good_snoc cs c : good cs -> slash ∉ c -> (cs = [] -> c <> []) -> good (cs ++ [c]).
Proof.
  intros [H1 H2] Hc Hn. split; [apply Forall_app; auto|].
  destruct cs; simpl in *; [|done]. intros [= ->]. by apply Hn.
Qed.

Lemma good_prefix cs cs' : good (cs ++ cs') -> good cs.
Proof.
  intros [H1 H2]. apply Forall_app in H1 as [H1 _]. split; [done|].
  destruct cs; simpl in *; done.
Qed.

Lemma good_leave cs : good cs -> good (leave cs).
Proof.
  intros H. unfold leave. case_bool_decide; [done|].
  apply good_snoc; [done | apply not_elem_of_nil | done].
Qed.

Lemma render_length cs : good cs -> cs <> [] -> 1 < zlength (render cs).
Proof.
  intros [_ H] Hne. unfold zlength, render. destruct cs as [|c cs]; [done|].
  destruct c as [|x c]; [done|]. destruct cs; simpl; lia.
Qed.

(** ** The "up" case *)

Lemma retract_split a b r :
  slash ∉ b -> retract (a ++ slash :: b ++ r) (length a + 1 + length b) = (length a + 1)%nat.
Proof.
  intros Hb. revert r. induction b as [|x b IH] using rev_ind; intros r.
  - simpl length. replace (length a + 1 + 0)%nat with (S (length a)) by lia. simpl retract.
    rewrite list_lookup_middle by done. change (default 0 (Some slash)) with slash.
    rewrite Z.eqb_refl. lia.
  - apply not_elem_of_app in Hb as [Hb Hx]. rewrite length_app. simpl length.
    replace (length a + 1 + (length b + 1))%nat with (S (length a + 1 + length b)) by lia.
    cbn [retract].
    assert (E : (a ++ slash :: (b ++ [x]) ++ r) !! (length a + 1 + length b)%nat = Some x).
    { rewrite lookup_app_r by lia.
      replace (length a + 1 + length b - length a)%nat with (S (length b)) by lia.
      rewrite <- app_assoc. simpl. by rewrite list_lookup_middle. }
    rewrite E. change (default 0 (Some x)) with x.
    destruct (Z.eqb_spec x slash) as [->|]; [exfalso; apply Hx; constructor|].
    rewrite <- app_assoc. apply IH. done.
Qed.

Lemma norm_up_split a b c : slash ∉ b -> norm_up (a ++ slash :: b ++ [c]) = a ++ [slash].
Proof.
  intros Hb. unfold norm_up.
  assert (L : length (a ++ slash :: b ++ [c]) = (length a + 1 + length b + 1)%nat).
  { rewrite length_app. simpl. rewrite length_app. simpl. lia. }
  rewrite L. destruct (Nat.ltb_spec 1 (length a + 1 + length b + 1)); [|].
  - replace (length a + 1 + length b + 1 - 1)%nat with (length a + 1 + length b)%nat by lia.
    rewrite retract_split by done.
    rewrite cons_middle, app_assoc. rewrite take_app_length'; [done|].
    rewrite length_app. simpl. lia.
  - exfalso. lia.
Qed.

Lemma norm_up_render cs : good cs -> norm_up (render cs) = render (code_up cs).
Proof.
  intros Hg. destruct cs as [|l cs0 _] using rev_ind; [done|].
  unfold code_up. rewrite last_snoc, removelast_last.
  pose proof (good_prefix _ _ Hg) as Hg0.
  assert (Hl : slash ∉ l) by (destruct Hg as [Hf _]; apply Forall_app in Hf as [_ Hf]; by inversion Hf).
  destruct l as [|x l].
  - destruct cs0 as [|l1 cs1 _] using rev_ind; [by destruct Hg|].
    rewrite render_snoc by (by destruct cs1). rewrite last_snoc, removelast_last.
    assert (Hl1 : slash ∉ l1)
      by (destruct Hg0 as [Hf _]; apply Forall_app in Hf as [_ Hf]; by inversion Hf).
    destruct cs1 as [|c1 cs1'].
    + destruct l1 as [|y l1]; [by destruct Hg0|]. unfold leave. simpl app.
      exact (norm_up_split [] (y :: l1) slash Hl1).
    + rewrite render_snoc by done. rewrite <- app_assoc. simpl app at 2.
      rewrite norm_up_split by done. destruct l1 as [|y l1].
      * by rewrite render_snoc.
      * unfold leave. rewrite bool_decide_false by done. by rewrite render_snoc.
  - destruct (exists_last (l := x :: l)) as (l0 & ch & El); [done|].
    rewrite El in Hl |- *. apply not_elem_of_app in Hl as [Hl0 _].
    unfold leave. case_bool_decide as Hc.
    + subst cs0. exact (norm_up_split [] l0 ch Hl0).
    + rewrite !render_snoc by done. by apply norm_up_split.
Qed.

Lemma good_code_up cs : good cs -> good (code_up cs).
Proof.
  intros Hg. unfold code_up. destruct cs as [|l cs0 _] using rev_ind; [done|].
  rewrite last_snoc, removelast_last. pose proof (good_prefix _ _ Hg).
  destruct l; [|by apply good_leave].
  destruct cs0 as [|l1 cs1 _] using rev_ind; [done|].
  rewrite last_snoc, removelast_last. destruct l1; [done|].
  apply good_leave. by eapply good_prefix.
Qed.

(** ** The loop computes the component machine *)

Lemma norm_push_fits cs comp :
  good cs -> plain comp -> zlength (render (cs ++ [comp])) <= VFS_PATH_MAX - 1 ->
  norm_push (render cs) comp = render (cs ++ [comp]).
Proof.
  intros Hg [Hne _] Hlen. unfold norm_push, zlength in *.
  destruct (decide (cs = [])) as [->|Hcs].
  - simpl in Hlen |- *. rewrite take_ge; [done|]. unfold VFS_PATH_MAX in *. lia.
  - pose proof (render_length cs Hg Hcs) as H1. unfold zlength in H1.
    rewrite render_snoc in Hlen |- * by done. rewrite length_app, length_cons in Hlen.
    destruct (Z.ltb_spec 1 (Z.of_nat (length (render cs)))); [|lia].
    destruct (Z.ltb_spec (Z.of_nat (length (render cs))) (VFS_PATH_MAX - 1)); [|lia].
    cbn [andb]. rewrite take_ge by (rewrite length_app; change (length [slash]) with 1%nat; lia).
    by rewrite <- app_assoc.
Qed.

(** Room left: what is in [out] and what is still to be scanned fit together. *)
Definition room (cs : list path) (rest : path) : Prop :=
  zlength (render cs) + zlength rest <= (if bool_decide (cs = []) then VFS_PATH_MAX else VFS_PATH_MAX - 1).

Lemma length_code_up cs : good cs -> zlength (render (code_up cs)) <= zlength (render cs).
Proof.
  intros Hg. rewrite <- norm_up_render by done. unfold norm_up, zlength.
  destruct (_ <? _)%nat; [|lia]. rewrite length_take. lia.
Qed.

Lemma norm_loop_machine fuel rest cs :
  good cs -> at_slash rest -> room cs rest -> (length rest < fuel)%nat ->
  norm_loop fuel rest (render cs) = render (fold_left code_step (components rest) cs) /\
  good (fold_left code_step (components rest) cs).
Proof.
  revert rest cs. induction fuel as [|f IH]; intros rest cs Hg Ha Hr Hf; [lia|].
  cbn [norm_loop]. destruct (skip_slashes rest) as [|c s'] eqn:Es.
  { by rewrite (components_nil _ Es). }
  rewrite (components_step _ _ _ Es). cbn [fold_left].
  set (comp := upto_slash (c :: s')). set (rest' := from_slash (c :: s')).
  assert (Ha' : at_slash rest') by apply from_slash_at.
  assert (Hlen : (length comp + length rest' + 1 <= length rest)%nat).
  { unfold comp, rest'. rewrite <- length_app, upto_from, <- Es.
    destruct Ha as [->|Hh]; [done|]. destruct rest as [|x rest]; simpl in Hh; simplify_eq.
    change (skip_slashes (slash :: rest)) with (skip_slashes rest).
    pose proof (skip_slashes_length rest). simpl. lia. }
  assert (Hplain : plain comp).
  { pose proof (components_plain rest) as Hp. rewrite (components_step _ _ _ Es) in Hp.
    by inversion Hp. }
  assert (Hshort : forall cs', zlength (render cs') <= zlength (render cs) -> room cs' rest').
  { intros cs' H'. unfold room, zlength in *. repeat case_bool_decide; unfold VFS_PATH_MAX in *; lia. }
  unfold code_step at 2 4. case_bool_decide.
  { apply IH; auto using Z.le_refl; lia. }
  case_bool_decide.
  { rewrite norm_up_render by done. apply IH; auto using good_code_up, length_code_up; lia. }
  assert (Hroom : zlength (render (cs ++ [comp])) + zlength rest' <= VFS_PATH_MAX - 1).
  { unfold room in Hr. case_bool_decide as Hcs; [subst cs|rewrite render_snoc by done];
      unfold zlength in *; rewrite ?length_app; simpl in *; lia. }
  rewrite norm_push_fits; auto; [|unfold zlength in *; lia].
  apply IH; auto; try lia.
  - destruct Hplain. apply good_snoc; auto.
  - unfold room. rewrite bool_decide_false; [done | by destruct cs].
Qed.

(** The result of the code, component by component. *)
Lemma normalize_machine cwd inp out :
  head cwd = Some slash -> normalize_path cwd inp = Some out ->
  let cs := fold_left code_step (components (norm_tmp cwd inp)) [] in
  out = render cs /\ good cs.
Proof.
  intros Hcwd. unfold normalize_path. destruct (Z.leb_spec VFS_PATH_MAX (zlength (norm_tmp cwd inp))); [done|].
  set (tmp := norm_tmp cwd inp) in *.
  assert (Ht : head tmp = Some slash).
  { unfold tmp, norm_tmp. destruct inp as [[|c p]|]; auto.
    destruct (Z.eqb_spec c slash) as [->|]; [done|]. case_bool_decide; by destruct cwd. }
  destruct (norm_loop_machine (S (length tmp)) tmp []) as [E Hg]; auto.
  - split; [constructor | done].
  - by right.
  - unfold room, zlength in *. rewrite bool_decide_true by done. simpl. unfold VFS_PATH_MAX in *. lia.
  - change (render []) with [slash] in E. rewrite E. rewrite bool_decide_false by done.
    intros [= <-]. auto.
Qed.

(** ** Names of a path *)

Definition names (cs : list path) : list path := filter (fun c => c <> []) cs.

Lemma names_app cs1 cs2 : names (cs1 ++ cs2) = names cs1 ++ names cs2.
Proof. apply filter_app. Qed.

Lemma names_plain cs : Forall plain cs -> names cs = cs.
Proof.
  induction 1 as [|c cs [Hc _] _ IH]; [done|]. unfold names in *.
  rewrite filter_cons_True by done. by rewrite IH.
Qed.

Lemma components_render cs : Forall (fun c => slash ∉ c) cs -> components (render cs) = names cs.
Proof.
  intros H. unfold render. change (components (join cs) = names cs).
  induction H as [|c cs Hc H IH]; [done|].
  unfold components. destruct cs as [|d cs].
  - simpl join. rewrite <- (app_nil_r c) at 1. rewrite comps_from_app by done. simpl.
    unfold names. case_bool_decide; [subst; done|]. by rewrite filter_cons_True.
  - change (join (c :: d :: cs)) with (c ++ slash :: join (d :: cs)).
    rewrite comps_from_app by done. simpl app at 1. rewrite comps_from_slash, IH.
    unfold names. case_bool_decide as Hn.
    + by rewrite (filter_cons_False _ c) by (intros X; done).
    + by rewrite (filter_cons_True _ c).
Qed.

Definition no_up (cs : list path) : Prop := dotdot ∉ cs.

(** Without "..", the code and the reference push the same names. *)
Lemma push_only cs acc :
  no_up cs -> fold_left code_step cs acc = acc ++ filter (fun c => c <> dot) cs /\
              fold_left posix_step cs acc = acc ++ filter (fun c => c <> dot) cs.
Proof.
  unfold no_up. revert acc. induction cs as [|c cs IH]; intros acc H; simpl.
  { by rewrite app_nil_r. }
  apply not_elem_of_cons in H as [Hc H].
  unfold code_step at 2, posix_step at 2. case_bool_decide as Hd.
  - rewrite filter_cons_False by (intros X; done). auto.
  - rewrite bool_decide_false by congruence. rewrite filter_cons_True by done.
    destruct (IH (acc ++ [c]) H) as [-> ->]. by rewrite <- !app_assoc.
Qed.

Lemma plain_removelast cs : Forall plain cs -> Forall plain (removelast cs).
Proof.
  intros H. destruct cs as [|l cs _] using rev_ind; [done|].
  rewrite removelast_last. by apply Forall_app in H as [H _].
Qed.

Lemma code_up_plain cs : Forall plain cs -> cs <> [] -> code_up cs = leave (removelast cs).
Proof.
  intros H Hne. destruct cs as [|l cs _] using rev_ind; [done|].
  unfold code_up. rewrite last_snoc, removelast_last.
  apply Forall_app in H as [_ H]. inversion H as [|? ? [Hl _]]; subst. by destruct l.
Qed.

Lemma code_up_leave cs : Forall plain cs -> code_up (leave cs) = leave (removelast cs).
Proof.
  intros H. unfold leave at 1. case_bool_decide as Hc; [by subst|].
  unfold code_up. rewrite last_snoc, removelast_last.
  destruct cs as [|l cs _] using rev_ind; [done|].
  rewrite last_snoc, removelast_last.
  apply Forall_app in H as [_ H]. inversion H as [|? ? [Hl _]]; subst. by destruct l.
Qed.

(** A run of ".." pops names, and leaves at most one empty component behind. *)
Lemma ups_only k cs :
  Forall plain cs ->
  exists cs', Forall plain cs' /\ fold_left posix_step (repeat dotdot k) cs = cs' /\
    (fold_left code_step (repeat dotdot k) cs = cs' \/
     fold_left code_step (repeat dotdot k) cs = leave cs').
Proof.
  intros H.
  assert (L : forall k cs, Forall plain cs ->
    exists cs', Forall plain cs' /\ fold_left posix_step (repeat dotdot k) cs = cs' /\
                fold_left code_step (repeat dotdot k) (leave cs) = leave cs').
  { clear. induction k as [|k IH]; intros cs H; simpl; [eauto|].
    unfold code_step at 2, posix_step at 2. rewrite !bool_decide_false, !bool_decide_true by done.
    rewrite code_up_leave by done. apply IH. by apply plain_removelast. }
  destruct k as [|k]; simpl; [eauto|].
  unfold code_step at 2 4, posix_step at 2. rewrite !bool_decide_false, !bool_decide_true by done.
  destruct (decide (cs = [])) as [->|Hne].
  - change (code_up []) with (leave []). simpl removelast.
    destruct (L k [] H) as (cs' & H' & E1 & E2). eauto.
  - rewrite code_up_plain by done.
    destruct (L k (removelast cs)) as (cs' & H' & E1 & E2); [by apply plain_removelast | eauto].
Qed.

Lemma names_leave cs : Forall plain cs -> names (leave cs) = cs.
Proof.
  intros H. unfold leave. case_bool_decide; [by subst|].
  rewrite names_app, names_plain by done. simpl. apply app_nil_r.
Qed.

(** ** Canonical paths *)

Lemma code_step_names cs c acc :
  Forall (fun c => c = [] \/ (c <> dot /\ c <> dotdot)) acc -> c = dot \/ c = dotdot \/ (c <> dot /\ c <> dotdot) ->
  cs = code_step acc c -> Forall (fun c => c = [] \/ (c <> dot /\ c <> dotdot)) cs.
Proof.
  intros H Hc ->. unfold code_step.
  assert (Hrm : forall l, Forall (fun c => c = [] \/ (c <> dot /\ c <> dotdot)) l ->
            Forall (fun c => c = [] \/ (c <> dot /\ c <> dotdot)) (removelast l)).
  { intros l Hl. destruct l as [|x l _] using rev_ind; [done|].
    rewrite removelast_last. by apply Forall_app in Hl as [Hl _]. }
  assert (Hlv : forall l, Forall (fun c => c = [] \/ (c <> dot /\ c <> dotdot)) l ->
            Forall (fun c => c = [] \/ (c <> dot /\ c <> dotdot)) (leave l)).
  { intros l Hl. unfold leave. case_bool_decide; [done|].
    apply Forall_app. split; [done | repeat constructor]. }
  repeat case_bool_decide; auto.
  - unfold code_up. repeat case_match; auto.
  - apply Forall_app. split; [done|]. constructor; [right; naive_solver | constructor].
Qed.

Lemma machine_names l acc :
  Forall (fun c => c = [] \/ (c <> dot /\ c <> dotdot)) acc ->
  Forall (fun c => c = [] \/ (c <> dot /\ c <> dotdot)) (fold_left code_step l acc).
Proof.
  revert acc. induction l as [|c l IH]; intros acc H; simpl; [done|].
  apply IH. eapply code_step_names; [exact H | | done].
  destruct (decide (c = dot)), (decide (c = dotdot)); auto.
Qed.

Lemma name_ok_names cs :
  Forall (fun c => slash ∉ c) cs -> Forall (fun c => c = [] \/ (c <> dot /\ c <> dotdot)) cs ->
  Forall name_ok (names cs).
Proof.
  intros H1 H2. apply Forall_forall. intros c Hc. apply list_elem_of_filter in Hc as [Hn Hc].
  rewrite Forall_forall in H1, H2. destruct (H2 c Hc) as [|[]]; [done|].
  split; [|done]. split; auto.
Qed.

Lemma name_ok_push cs : Forall name_ok cs -> fold_left code_step cs [] = cs.
Proof.
  intros H. enough (G : forall acc, fold_left code_step cs acc = acc ++ cs) by apply (G []).
  induction H as [|c cs (_ & Hd & Hdd) _ IH]; intros acc; simpl; [by rewrite app_nil_r|].
  unfold code_step at 2. rewrite !bool_decide_false by done. by rewrite IH, <- app_assoc.
Qed.

(** C1: a path whose ".." components form one block is normalised to a path that
    names the same directory as the reference stack of names does: the components
    of the result are exactly the reference's. *)
Theorem normalize_single_run (cwd : path) (inp : option path) (out : path)
    (xs ys : list path) (k : nat)
  (Hcwd : head cwd = Some slash) (Hn : normalize_path cwd inp = Some out)
  (Hsplit : components (norm_tmp cwd inp) = xs ++ repeat dotdot k ++ ys)
  (Hxs : dotdot ∉ xs) (Hys : dotdot ∉ ys) :
  components out = posix (norm_tmp cwd inp).
Proof.
  destruct (normalize_machine cwd inp out Hcwd Hn) as [-> [Hg _]].
  rewrite components_render by done. unfold posix.
  pose proof (components_plain (norm_tmp cwd inp)) as Hp. rewrite Hsplit in *.
  apply Forall_app in Hp as [Hpx Hp]. apply Forall_app in Hp as [_ Hpy].
  rewrite !fold_left_app.
  destruct (push_only xs [] Hxs) as [-> ->]. simpl app.
  set (px := filter _ xs). assert (Hpl : Forall plain px) by by apply Forall_sublist_filter.
  destruct (ups_only k px Hpl) as (cs' & Hcs' & -> & Hcode).
  destruct (push_only ys cs' Hys) as [Hc1 ->].
  assert (Hpy' : Forall plain (filter (fun c => c <> dot) ys)) by by apply Forall_sublist_filter.
  destruct Hcode as [->| ->].
  - rewrite Hc1, names_app, !names_plain by done. done.
  - destruct (push_only ys (leave cs') Hys) as [-> _].
    by rewrite names_app, names_leave, names_plain.
Qed.

(** Normalising a normalised path, as every file operation does, gives the
    canonical path (no empty, "." or ".." component, no trailing slash) with the
    components of the first result, whatever the working directory. *)
Theorem normalize_twice (cwd cwd' : path) (inp : option path) (out : path)
  (Hcwd : head cwd = Some slash) (Hn : normalize_path cwd inp = Some out)
  (Hlen : zlength out < VFS_PATH_MAX) :
  normalize_path cwd' (Some out) = Some (render (components out)) /\
  canonical (render (components out)).
Proof.
  destruct (normalize_machine cwd inp out Hcwd Hn) as [E [Hg Hh]].
  set (cs := fold_left code_step _ _) in *.
  assert (Hok : Forall name_ok (components out)).
  { rewrite E, components_render by done. apply name_ok_names; [done|].
    apply machine_names. constructor. }
  split; [|by exists (components out)].
  assert (Htmp : norm_tmp cwd' (Some out) = out) by (by rewrite E).
  unfold normalize_path. rewrite Htmp.
  destruct (Z.leb_spec VFS_PATH_MAX (zlength out)); [lia|].
  destruct (norm_loop_machine (S (length out)) out []) as [El _]; auto.
  - split; [constructor | done].
  - right. by rewrite E.
  - unfold room, zlength in *. rewrite bool_decide_true by done.
    change (length (render [])) with 1%nat. unfold VFS_PATH_MAX in *. lia.
  - change (render []) with [slash] in El. rewrite El, bool_decide_false by done.
    by rewrite name_ok_push.
Qed.

(** ** Splitting *)

Lemma trim_len_stop p n :
  (1 < n)%nat -> default 0 (p !! (n - 1)%nat) <> slash -> trim_len p n = n.
Proof.
  intros Hn Hc. destruct n as [|n]; [lia|]. cbn [trim_len].
  replace (S n - 1)%nat with n in Hc by lia.
  destruct (Z.eqb_spec (default 0 (p !! n)) slash); [done|]. by rewrite andb_false_r.
Qed.

Lemma cut_pos_split a b :
  slash ∉ b -> cut_pos (a ++ slash :: b) (length a + length b) = length a.
Proof.
  induction b as [|x b IH] using rev_ind; intros Hb.
  - rewrite Nat.add_0_r. destruct (length a) as [|n] eqn:En; [done|]. cbn [cut_pos].
    rewrite <- En. rewrite list_lookup_middle by done. change (default 0 (Some slash)) with slash.
    by rewrite Z.eqb_refl.
  - apply not_elem_of_app in Hb as [Hb Hx]. rewrite length_app. simpl length.
    replace (length a + (length b + 1))%nat with (S (length a + length b)) by lia. cbn [cut_pos].
    replace (S (length a + length b)) with (length a + S (length b))%nat by lia.
    rewrite lookup_app_r by lia. replace (length a + S (length b) - length a)%nat with (S (length b)) by lia.
    change ((slash :: b ++ [x]) !! S (length b)) with ((b ++ [x]) !! length b).
    rewrite list_lookup_middle by done. change (default 0 (Some x)) with x.
    destruct (Z.eqb_spec x slash) as [->|]; [exfalso; apply Hx; constructor|]. cbn [negb].
    assert (Hpre : forall j, (j <= length a + length b)%nat ->
              cut_pos ((a ++ slash :: b) ++ [x]) j = cut_pos (a ++ slash :: b) j).
    { intros j. induction j as [|j IHj]; intros Hle; [done|]. cbn [cut_pos].
      rewrite lookup_app_l by (rewrite length_app; simpl; lia). by rewrite IHj by lia. }
    rewrite <- app_assoc in Hpre. simpl app in Hpre.
    rewrite Hpre by lia. auto.
Qed.

(** The two scans on a path that ends with the name [leaf]. *)
Lemma split_scan a leaf :
  plain leaf ->
  let p := a ++ slash :: leaf in
  length p = (length a + 1 + length leaf)%nat /\ (0 < length leaf)%nat /\
  trim_len p (length p) = length p /\ cut_pos p (length p - 1) = length a.
Proof.
  intros [Hne Hs] p. destruct (exists_last Hne) as (l0 & ch & El).
  assert (Hch : ch <> slash) by (intros ->; apply Hs; rewrite El; apply elem_of_app; right; constructor).
  assert (Hn : length p = (length a + 1 + length leaf)%nat)
    by (unfold p; rewrite length_app; simpl; lia).
  assert (Hlp : (0 < length leaf)%nat) by (destruct leaf; [done | simpl; lia]).
  split; [done|]. split; [done|]. rewrite Hn.
  replace (length a + 1 + length leaf - 1)%nat with (length a + length leaf)%nat by lia.
  split; [|by apply cut_pos_split].
  apply trim_len_stop; [lia|].
  replace (length a + 1 + length leaf - 1)%nat with (length a + length leaf)%nat by lia.
  unfold p. rewrite El, length_app. simpl length. rewrite lookup_app_r by lia.
  replace (length a + (length l0 + 1) - length a)%nat with (S (length l0)) by lia.
  change ((slash :: l0 ++ [ch]) !! S (length l0)) with ((l0 ++ [ch]) !! length l0).
  by rewrite list_lookup_middle.
Qed.

Lemma split_at a leaf :
  plain leaf ->
  path_split_last (a ++ slash :: leaf) =
  if VFS_NAME_MAX <=? zlength leaf then None
  else Some (if bool_decide (a = []) then [slash] else a, leaf).
Proof.
  intros Hp. destruct (split_scan a leaf Hp) as (Hn & Hl & Ht & Hc).
  unfold path_split_last. rewrite Ht, Hc, Hn.
  replace (Z.of_nat (length a + 1 + length leaf) - Z.of_nat (length a) - 1) with (zlength leaf)
    by (unfold zlength; lia).
  destruct (Z.leb_spec (zlength leaf) 0); [unfold zlength in *; lia|]. cbn [orb].
  destruct (VFS_NAME_MAX <=? zlength leaf); [done|].
  unfold zlength. rewrite Nat2Z.id. f_equal. f_equal.
  - destruct a as [|x a]; [done|]. destruct (Nat.eqb_spec (length (x :: a)) 0); [done|].
    rewrite bool_decide_false by done. by rewrite take_app_length.
  - replace (S (length a)) with (length a + 1)%nat by lia.
    rewrite <- drop_drop, drop_app_length. simpl drop. by rewrite take_ge.
Qed.

(** On a canonical path other than the root, splitting gives the canonical
    parent and the last name, and the path is the parent followed by the name;
    a name of 64 characters or more is refused. *)
Theorem path_split_last_canonical (cs : list path) (c : path)
  (Hcs : Forall name_ok (cs ++ [c])) :
  path_split_last (render (cs ++ [c])) =
    (if VFS_NAME_MAX <=? zlength c then None else Some (render cs, c)).
Proof.
  apply Forall_app in Hcs as [Hcs Hc]. inversion Hc as [|? ? [Hp _] _]; subst.
  assert (E : render (cs ++ [c]) = (if bool_decide (cs = []) then [] else render cs) ++ slash :: c).
  { case_bool_decide as Hd; [by subst cs|]. by rewrite render_snoc. }
  rewrite E. set (a := if bool_decide _ then _ else _).
  assert (Ea : (if bool_decide (a = []) then [slash] else a) = render cs).
  { unfold a. case_bool_decide as Hd; [by subst cs|]. by rewrite bool_decide_false. }
  rewrite split_at, Ea; done.
Qed.

(** ** Concrete runs *)

(** Two blocks of "..": the second one only eats the slash that the first one
    left behind, and the result names another directory than the path does. *)
Example normalize_two_blocks :
  normalize_path (str "/") (Some (str "/a/b/c/../x/../..")) = Some (str "/a/b/") /\
  posix (str "/a/b/c/../x/../..") = [str "a"].
Proof. split; vm_compute; reflexivity. Qed.

(** A long relative path overruns the 256-byte buffer. *)
Example normalize_overrun :
  normalize_path (slash :: repeat 97 200) (Some (repeat 98 100)) = None.
Proof. vm_compute. reflexivity. Qed.

Lemma normalize_single_run_witness :
  components (str "/etc/passwd") = posix (norm_tmp (str "/home/u") (Some (str "../../etc//passwd"))).
Proof.
  apply (normalize_single_run (str "/home/u") (Some (str "../../etc//passwd"))
    (str "/etc/passwd") [str "home"; str "u"] [str "etc"; str "passwd"] 2).
  - reflexivity.
  - vm_compute. reflexivity.
  - vm_compute. reflexivity.
  - apply (bool_decide_unpack _). vm_compute. exact I.
  - apply (bool_decide_unpack _). vm_compute. exact I.
Defined.

Lemma normalize_twice_witness :
  normalize_path (str "/tmp") (Some (str "/a//x")) = Some (render (components (str "/a//x"))) /\
  canonical (render (components (str "/a//x"))).
Proof.
  apply (normalize_twice (str "/") (str "/tmp") (Some (str "a/b/../x")) (str "/a//x")).
  - reflexivity.
  - vm_compute. reflexivity.
  - vm_compute. reflexivity.
Defined.

Lemma path_split_last_canonical_witness :
  path_split_last (str "/usr/bin/ls") = Some (str "/usr/bin", str "ls").
Proof.
  apply (path_split_last_canonical [str "usr"; str "bin"] (str "ls")).
  repeat constructor; try discriminate; apply (bool_decide_unpack _); vm_compute; exact I.
Defined.
