(* ===== verification/Rng.v ===== *)
(** * The entropy pool ([src/src/vfs/vfs.c])

    The generator behind [/dev/random] and [/dev/urandom]. What the pool reads of
    the machine (the timer ticks, the keyboard interrupts and their time stamp,
    the time stamp counter) is a [sample]; every turn of the waiting loop takes
    the next one, so that a list of samples is the fuel of [rng_fill_bytes]. *)

From S2P Require Import Prelude.

Record rng := {
  rng_state : Z; entropy_bits : Z; last_timer_ticks : Z; last_kbd_irqs : Z
}.

Record sample := { ticks : Z; kbd_irqs : Z; tsc : Z; kbd_tsc : Z }.

Definition rng_init : rng :=
  {| rng_state := 0x9E3779B97F4A7C15; entropy_bits := 0; last_timer_ticks := 0; last_kbd_irqs := 0 |}.

Definition mix64 (x : Z) : Z :=
  let x := Z.lxor x (Z.shiftr x 30) in
  let x := u64 (x * 0xBF58476D1CE4E5B9) in
  let x := Z.lxor x (Z.shiftr x 27) in
  let x := u64 (x * 0x94D049BB133111EB) in
  Z.lxor x (Z.shiftr x 31).

Definition rng_mix_u64 (v bits : Z) (g : rng) : rng :=
  let s := rng_state g in
  let s := Z.lxor s (mix64 (u64 (v + 0x9E3779B97F4A7C15 + u64 (Z.shiftl s 7) + Z.shiftr s 3))) in
  let bits := if 64 <? bits then 64 else bits in
  let e := u32 (entropy_bits g + bits) in
  let e := if 256 <? e then 256 else e in
  {| rng_state := s; entropy_bits := e;
     last_timer_ticks := last_timer_ticks g; last_kbd_irqs := last_kbd_irqs g |}.

Definition rng_collect_entropy (m : sample) (g : rng) : rng :=
  let g := rng_mix_u64 (tsc m) 1 g in
  let g := if negb (ticks m =? last_timer_ticks g) then
             let g := rng_mix_u64 (Z.lxor (u64 (Z.shiftl (ticks m) 32)) (tsc m)) 2 g in
             {| rng_state := rng_state g; entropy_bits := entropy_bits g;
                last_timer_ticks := ticks m; last_kbd_irqs := last_kbd_irqs g |}
           else g in
  if negb (kbd_irqs m =? last_kbd_irqs g) then
    let g := rng_mix_u64 (Z.lxor (kbd_tsc m) (u64 (Z.shiftl (kbd_irqs m) 1))) 4 g in
    {| rng_state := rng_state g; entropy_bits := entropy_bits g;
       last_timer_ticks := last_timer_ticks g; last_kbd_irqs := kbd_irqs m |}
  else g.

Definition rng_next_u64 (g : rng) : rng * Z :=
  let x := rng_state g in
  let x := Z.lxor x (Z.shiftr x 12) in
  let x := Z.lxor x (u64 (Z.shiftl x 25)) in
  let x := Z.lxor x (Z.shiftr x 27) in
  ({| rng_state := x; entropy_bits := entropy_bits g;
      last_timer_ticks := last_timer_ticks g; last_kbd_irqs := last_kbd_irqs g |},
   u64 (x * 0x2545F4914F6CDD1D)).

(** The inner loop: collect until there is enough entropy; [None] when the
    samples run out, that is, while the processor is halted. *)
Fixpoint rng_wait (ms : list sample) (blocking : bool) (g : rng) : option (rng * list sample) :=
  match ms with
  | [] => None
  | m :: ms =>
      let g := rng_collect_entropy m g in
      if negb blocking || (8 <=? entropy_bits g) then Some (g, ms) else rng_wait ms blocking g
  end.

Definition set_entropy (e : Z) (g : rng) : rng :=
  {| rng_state := rng_state g; entropy_bits := e;
     last_timer_ticks := last_timer_ticks g; last_kbd_irqs := last_kbd_irqs g |}.

Fixpoint rng_fill_loop (n : nat) (ms : list sample) (blocking : bool) (pool pool_n : Z) (g : rng) :
    option (list Z * rng * list sample) :=
  match n with
  | O => Some ([], g, ms)
  | S n =>
      match rng_wait ms blocking g with
      | None => None
      | Some (g, ms) =>
          let '(g, pool, pool_n) := if pool_n =? 0 then let '(g, x) := rng_next_u64 g in (g, x, 8)
                                    else (g, pool, pool_n) in
          let g := if blocking && negb (entropy_bits g =? 0) then set_entropy (entropy_bits g - 1) g else g in
          match rng_fill_loop n ms blocking (Z.shiftr pool 8) (pool_n - 1) g with
          | Some (out, g, ms) => Some (u8 pool :: out, g, ms)
          | None => None
          end
      end
  end.

Definition rng_fill_bytes (len : nat) (ms : list sample) (blocking : bool) (g : rng) :
    option (list Z * rng * list sample) :=
  rng_fill_loop len ms blocking 0 0 g.

(** The character written to [/dev/random]: [rng_mix_u64] of each byte and its index. *)
Fixpoint rng_write (buf : list Z) (i : Z) (g : rng) : rng :=
  match buf with
  | [] => g
  | b :: buf => rng_write buf (i + 1) (rng_mix_u64 (u8 b + Z.shiftl i 8) 1 g)
  end.

(** ** The accounting of entropy *)

Definition accounted (g : rng) : Prop := 0 <= entropy_bits g <= 256.

Lemma rng_mix_entropy v b g :
  accounted g -> 0 <= b ->
  accounted (rng_mix_u64 v b g) /\
  Z.min 256 (entropy_bits g + Z.min b 64) = entropy_bits (rng_mix_u64 v b g).
Proof.
  unfold accounted. intros Hg Hb. cbn [rng_mix_u64 entropy_bits].
  destruct (Z.ltb_spec 64 b); rewrite u32_small by lia; ztest; lia.
Qed.

(** Every sample brings at least one bit. *)
Lemma collect_gains m g :
  accounted g ->
  accounted (rng_collect_entropy m g) /\
  Z.min 256 (entropy_bits g + 1) <= entropy_bits (rng_collect_entropy m g).
Proof.
  intros Hg. unfold rng_collect_entropy.
  destruct (rng_mix_entropy (tsc m) 1 g Hg) as [H1 E1]; [lia|].
  set (g1 := rng_mix_u64 (tsc m) 1 g) in *. clearbody g1.
  set (g2 := if negb (ticks m =? last_timer_ticks g1) then _ else g1).
  assert (accounted g2 /\ entropy_bits g1 <= entropy_bits g2) as [H2 E2].
  { subst g2. destruct (negb _); [|done].
    destruct (rng_mix_entropy (Z.lxor (u64 (Z.shiftl (ticks m) 32)) (tsc m)) 2 g1 H1) as [Ha Eb]; [lia|].
    unfold accounted in *. cbn [entropy_bits]. lia. }
  clearbody g2. destruct (negb _); [|unfold accounted in *; lia].
  destruct (rng_mix_entropy (Z.lxor (kbd_tsc m) (u64 (Z.shiftl (kbd_irqs m) 1))) 4 g2 H2) as [Ha Eb]; [lia|].
  unfold accounted in *. cbn [entropy_bits]. lia.
Qed.

Lemma wait_ends k ms (blocking : bool) g :
  accounted g -> (blocking = true -> 8 - entropy_bits g <= Z.of_nat k) -> (0 < k <= length ms)%nat ->
  exists g' ms', rng_wait ms blocking g = Some (g', ms') /\ accounted g' /\
    (length ms - k <= length ms')%nat /\ (blocking = true -> 8 <= entropy_bits g').
Proof.
  revert ms g. induction k as [|k IH]; intros ms g Hg Hk Hl; [lia|].
  destruct ms as [|m ms]; simpl in Hl; [lia|]. cbn [rng_wait].
  destruct (collect_gains m g Hg) as [H1 E1]. set (g1 := rng_collect_entropy m g) in *. clearbody g1.
  destruct (negb blocking || (8 <=? entropy_bits g1)) eqn:T.
  - exists g1, ms. split_all; [done | done | simpl; lia |]. intros ->. simpl in T. lia.
  - apply orb_false_iff in T as [T1 T2%Z.leb_gt]. apply negb_false_iff in T1 as ->.
    specialize (Hk eq_refl). unfold accounted in *. destruct k as [|k]; [lia|].
    destruct (IH ms g1 H1) as (g' & ms' & E & Ha & Hb & Hc); [lia..|].
    exists g', ms'. split_all; [done | lia | lia | simpl; lia | done].
Qed.

(** The samples a call needs: one for each byte, and what a blocking reader
    misses of the first seven bits. *)
Definition samples_needed (n : nat) (blocking : bool) (g : rng) : nat :=
  n + (if blocking then Z.to_nat (7 - entropy_bits g) else 0).

Lemma spend_one (blocking : bool) g :
  accounted g -> (blocking = true -> 8 <= entropy_bits g) ->
  let g' := if blocking && negb (entropy_bits g =? 0) then set_entropy (entropy_bits g - 1) g else g in
  accounted g' /\ (blocking = true -> 7 <= entropy_bits g').
Proof.
  unfold accounted. intros Hg Hb. destruct blocking; simpl; [|split; [done | congruence]].
  specialize (Hb eq_refl). ztest; simpl; lia.
Qed.

Lemma fill_ends n ms (blocking : bool) pool pool_n g :
  accounted g -> (samples_needed n blocking g <= length ms)%nat ->
  exists out g' ms', rng_fill_loop n ms blocking pool pool_n g = Some (out, g', ms') /\
    length out = n /\ Forall (fun b => 0 <= b < 256) out /\ accounted g'.
Proof.
  revert ms pool pool_n g. unfold samples_needed.
  induction n as [|n IH]; intros ms pool pool_n g Hg Hl; cbn [rng_fill_loop].
  { exists [], g, ms. split_all; try done; constructor. }
  set (k := S (if blocking then Z.to_nat (7 - entropy_bits g) else 0)).
  destruct (wait_ends k ms blocking g Hg) as (g1 & ms1 & -> & H1 & Hl1 & Hb);
    [subst k; destruct blocking; [lia | done] | lia |].
  set (r := if pool_n =? 0 then _ else _).
  assert (entropy_bits r.1.1 = entropy_bits g1) as He by (subst r; by destruct (pool_n =? 0)).
  clearbody r. destruct r as [[g2 pool2] n2]. cbn [fst] in He.
  destruct (spend_one blocking g2) as [H3 Hb3]; [unfold accounted in *; lia | by rewrite He |].
  set (g3 := if blocking && _ then _ else g2) in *. clearbody g3.
  destruct (IH ms1 (Z.shiftr pool2 8) (n2 - 1) g3 H3) as (out & g' & ms' & -> & Ho & Hf & Ha).
  { destruct blocking; [specialize (Hb3 eq_refl); lia | lia]. }
  exists (u8 pool2 :: out), g', ms'. split_all; [done | simpl; lia | | done].
  constructor; [apply u8_range | done].
Qed.

(** A reader of the entropy pool always gets its bytes: a blocking reader of
    [n] bytes leaves the waiting loop after at most [n + 7] samples, a
    non-blocking one after [n]; the [n] results are bytes, and the entropy
    counter stays between 0 and 256. *)
Theorem rng_fill_terminates (n : nat) (ms : list sample) (blocking : bool) (g : rng)
    (Hg : accounted g) (Hl : (samples_needed n blocking g <= length ms)%nat) :
  (samples_needed n blocking g <= n + 7)%nat /\
  exists out g' ms', rng_fill_bytes n ms blocking g = Some (out, g', ms') /\
    length out = n /\ Forall (fun b => 0 <= b < 256) out /\ accounted g'.
Proof.
  split; [|by apply fill_ends].
  unfold samples_needed, accounted in *. destruct blocking; lia.
Qed.

Definition idle_sample : sample := {| ticks := 0; kbd_irqs := 0; tsc := 12345; kbd_tsc := 0 |}.

Lemma rng_fill_terminates_witness :
  exists out g' ms', rng_fill_bytes 10 (replicate 17 idle_sample) true rng_init = Some (out, g', ms') /\
    length out = 10%nat /\ Forall (fun b => 0 <= b < 256) out /\ accounted g'.
Proof.
  apply (rng_fill_terminates 10 (replicate 17 idle_sample) true rng_init); vm_compute; [split; discriminate | lia].
Defined.

(** A blocking read of eighty bits needs sixteen bits of entropy: each byte costs
    one bit of the counter. *)
Example entropy_per_byte :
  exists out g' ms', rng_fill_bytes 10 (replicate 17 idle_sample) true rng_init = Some (out, g', ms') /\
    length out = 10%nat /\ entropy_bits g' = 7 /\ ms' = [].
Proof. vm_compute. by do 3 eexists. Qed.
