(* ===== verification/MemFs.v ===== *)
(** * The in-memory file system ([src/src/fs/fat32.c], [src/src/fs/fat32/fat32_vfs.c])

    A table of 256 nodes linked to their parents by index. Node pointers are
    indices into the table, [None] the null pointer. *)

From S2P Require Import Prelude Path.

Definition FAT32_PATH_MAX : Z := 256.
Definition FAT32_NAME_MAX : Z := 63.
Definition FAT32_CONTENT_MAX : Z := 10000.
Definition FAT32_NODES_MAX : Z := 256.
Definition FAT32_TYPE_DIR : Z := 1.
Definition FAT32_TYPE_FILE : Z := 2.

(** [fat32_node_t]. [content] is the part of the character array that [size]
    covers; the byte after it is always a terminator. *)
Record node := {
  used : bool;
  ntype : Z;
  parent : Z;
  nname : path;
  content : list Z;
  size : Z
}.

Definition zero_node : node :=
  {| used := false; ntype := 0; parent := 0; nname := []; content := []; size := 0 |}.

Abbreviation nodes := (Z -> node).

Definition fat32_find_child (g : nodes) (par : Z) (name : path) : Z :=
  scan (fun i => used (g i) && (parent (g i) =? par) && bool_decide (nname (g i) = name))
    0 (Z.to_nat FAT32_NODES_MAX).

Definition fat32_alloc_node (g : nodes) : Z :=
  scan (fun i => negb (used (g i))) 0 (Z.to_nat FAT32_NODES_MAX).

Definition fat32_create_node (g : nodes) (par : Z) (name : path) (type : Z) : nodes * Z :=
  if bool_decide (name = []) || bool_decide (name = dot) || bool_decide (name = dotdot) then (g, -1)
  else if FAT32_NAME_MAX <? zlength name then (g, -1)
  else if 0 <=? fat32_find_child g par name then (g, -1)
  else
    let idx := fat32_alloc_node g in
    if idx <? 0 then (g, -1)
    else (<[idx := {| used := true; ntype := type; parent := par; nname := name;
                      content := []; size := 0 |}]> g, idx).

(** The walk of [fat32_resolve]; every turn consumes a character of the path. *)
Fixpoint resolve_loop (fuel : nat) (g : nodes) (p : path) (idx : Z) : Z :=
  match fuel with
  | O => idx
  | S f =>
      let p := skip_slashes p in
      match p with
      | [] => idx
      | _ :: _ =>
          let part := take (Z.to_nat FAT32_NAME_MAX) (upto_slash p) in
          let p := from_slash p in
          if bool_decide (part = dot) then resolve_loop f g p idx
          else if bool_decide (part = dotdot) then
            resolve_loop f g p (if idx =? 0 then idx else parent (g idx))
          else
            let idx := fat32_find_child g idx part in
            if idx <? 0 then -1 else resolve_loop f g p idx
      end
  end.

Definition fat32_resolve (g : nodes) (p : option path) (from : Z) : Z :=
  match p with
  | None => from
  | Some p =>
      let idx := if bool_decide (head p = Some slash) then 0 else from in
      resolve_loop (S (length p)) g p idx
  end.

(** [while (start >= 0 && path[start] != '/') start--], from [start = n - 1];
    the result is [start + 1]. *)
Fixpoint start_pos (p : path) (n : nat) : nat :=
  match n with
  | O => O
  | S n' => if default 0 (p !! n') =? slash then n else start_pos p n'
  end.

(** The parent's index and the last name. *)
Definition fat32_resolve_parent (g : nodes) (p : path) (from : Z) : option (Z * path) :=
  let en := trim_len p (length p) in
  let start1 := start_pos p en in
  let n := Z.of_nat en - Z.of_nat start1 in
  if (n <=? 0) || (FAT32_NAME_MAX <? n) then None
  else
    let leaf := take (Z.to_nat n) (drop start1 p) in
    if (start1 =? 0)%nat then Some (from, leaf)
    else if (start1 =? 1)%nat then Some (0, leaf)
    else if FAT32_PATH_MAX <=? Z.of_nat start1 - 1 then None
    else
      let r := fat32_resolve g (Some (take (start1 - 1) p)) from in
      if r <? 0 then None else Some (r, leaf).

Definition root_node : node :=
  {| used := true; ntype := FAT32_TYPE_DIR; parent := 0; nname := []; content := []; size := 0 |}.

Definition fat32_init : nodes :=
  let mk g name := fst (fat32_create_node g 0 name FAT32_TYPE_DIR) in
  fold_left mk [str "bin"; str "dev"; str "root"; str "etc"; str "boot"; str "home"; str "tmp"]
    (<[0 := root_node]> (fun _ => zero_node)).

Definition from_idx (from : option Z) : Z := default 0 from.

Definition fat32_open (g : nodes) (p : option path) (from : option Z) : option Z :=
  let idx := fat32_resolve g p (from_idx from) in
  if idx <? 0 then None else Some idx.

(** The bytes copied to the caller; [None] is -1. *)
Definition fat32_read (g : nodes) (n : option Z) (max : Z) : option (list Z) :=
  match n with
  | None => None
  | Some i =>
      if negb (ntype (g i) =? FAT32_TYPE_FILE) || (max <=? 0) then None
      else
        let n := if max <=? size (g i) then max - 1 else size (g i) in
        Some (take (Z.to_nat n) (content (g i)))
  end.

Definition fat32_make (type : Z) (g : nodes) (p : path) (from : option Z) : nodes * Z :=
  match fat32_resolve_parent g p (from_idx from) with
  | None => (g, -1)
  | Some (par, name) =>
      if negb (used (g par)) || negb (ntype (g par) =? FAT32_TYPE_DIR) then (g, -1)
      else
        let '(g, r) := fat32_create_node g par name type in
        (g, if 0 <=? r then 0 else -1)
  end.

Definition fat32_mkdir := fat32_make FAT32_TYPE_DIR.
Definition fat32_touch := fat32_make FAT32_TYPE_FILE.

Definition fat32_rm (g : nodes) (p : option path) (from : option Z) : nodes * Z :=
  match fat32_open g p from with
  | None => (g, -1)
  | Some i => if negb (ntype (g i) =? FAT32_TYPE_FILE) then (g, -1)
              else (<[i := zero_node]> g, 0)
  end.

(** [memcpy(n->content, buf, len); n->content[len] = 0; n->size = len]. *)
Definition set_content (n : node) (text : list Z) : node :=
  {| used := used n; ntype := ntype n; parent := parent n; nname := nname n;
     content := text; size := zlength text |}.

Definition clip (text : list Z) : list Z := take (Z.to_nat FAT32_CONTENT_MAX) text.

Definition fat32_write_text (g : nodes) (p : path) (from : option Z) (text : list Z) : nodes * Z :=
  let '(g, n) :=
    match fat32_open g (Some p) from with
    | Some i => (g, Some i)
    | None =>
        let '(g', r) := fat32_touch g p from in
        if r <? 0 then (g', None) else (g', fat32_open g' (Some p) from)
    end in
  match n with
  | None => (g, -1)
  | Some i => if negb (ntype (g i) =? FAT32_TYPE_FILE) then (g, -1)
              else (<[i := set_content (g i) (clip text)]> g, 0)
  end.

(** The text of a node read as a C string: it stops at the first zero. *)
Fixpoint c_text (l : list Z) : list Z :=
  match l with
  | [] => []
  | c :: l => if c =? 0 then [] else c :: c_text l
  end.

Definition fat32_copy (g : nodes) (src : option path) (dst : path) (from : option Z) : nodes * Z :=
  match fat32_open g src from with
  | None => (g, -1)
  | Some s =>
      if negb (ntype (g s) =? FAT32_TYPE_FILE) then (g, -1)
      else
        let '(g, r) := fat32_write_text g dst from (c_text (content (g s))) in
        (g, if r <? 0 then -1 else 0)
  end.

(** The climb of [fat32_build_path]: indices from the root's child down to [p]. *)
Fixpoint climb (g : nodes) (p : Z) (n : nat) (stack : list Z) : list Z :=
  match n with
  | O => stack
  | S n => if p =? 0 then stack else climb g (parent (g p)) n (p :: stack)
  end.

(** The copy loop, which gives up when a name does not fit. *)
Fixpoint put_names (g : nodes) (stack : list Z) (out : path) (outsz : Z) : path :=
  match stack with
  | [] => out
  | i :: stack =>
      if outsz <=? zlength out + zlength (nname (g i)) + 1 then out
      else
        let out := out ++ nname (g i) in
        put_names g stack (if bool_decide (stack = []) then out else out ++ [slash]) outsz
  end.

Definition fat32_build_path (g : nodes) (n : option Z) (outsz : Z) : option path :=
  let p := from_idx n in
  if outsz <? 2 then None
  else if p =? 0 then Some [slash]
  else Some (put_names g (climb g p (Z.to_nat FAT32_NODES_MAX) []) [slash] outsz).

(** ** The well-formed tree *)

(** [reach g i l]: climbing from [i] meets the nodes of [l], [i] last, and then the root. *)
Inductive reach (g : nodes) : Z -> list Z -> Prop :=
  | reach_root : reach g 0 []
  | reach_child i l :
      used (g i) = true -> i <> 0 -> reach g (parent (g i)) l -> reach g i (l ++ [i]).

Definition dirp (g : nodes) (i : Z) : Prop := used (g i) = true /\ ntype (g i) = FAT32_TYPE_DIR.

Record fs_ok (g : nodes) : Prop := {
  ok_root : dirp g 0 /\ parent (g 0) = 0 /\ nname (g 0) = [];
  ok_free : forall i, used (g i) = false -> g i = zero_node;
  ok_range : forall i, used (g i) = true -> 0 <= i < FAT32_NODES_MAX;
  ok_type : forall i, used (g i) = true -> ntype (g i) = FAT32_TYPE_DIR \/ ntype (g i) = FAT32_TYPE_FILE;
  ok_size : forall i, size (g i) = zlength (content (g i)) /\ size (g i) <= FAT32_CONTENT_MAX;
  ok_name : forall i, used (g i) = true -> i <> 0 ->
      name_ok (nname (g i)) /\ zlength (nname (g i)) <= FAT32_NAME_MAX;
  ok_parent : forall i, used (g i) = true -> i <> 0 -> dirp g (parent (g i));
  ok_unique : forall i j, used (g i) = true -> used (g j) = true -> i <> 0 -> j <> 0 ->
      parent (g i) = parent (g j) -> nname (g i) = nname (g j) -> i = j;
  ok_reach : forall i, used (g i) = true -> exists l, reach g i l
}.

(** One operation of the file system, with the arguments a caller may pass. *)
Inductive memfs_step (g : nodes) : nodes -> Prop :=
  | step_mkdir p from : memfs_step g (fst (fat32_mkdir g p from))
  | step_touch p from : memfs_step g (fst (fat32_touch g p from))
  | step_rm p from : memfs_step g (fst (fat32_rm g p from))
  | step_write p from text : memfs_step g (fst (fat32_write_text g p from text))
  | step_copy src dst from : memfs_step g (fst (fat32_copy g src dst from)).

(** ** Scanning helpers *)

Lemma start_pos_le p n : (start_pos p n <= n)%nat.
Proof. induction n as [|n IH]; simpl; [lia|]. destruct (_ =? _); lia. Qed.

Lemma start_pos_free p n i :
  (start_pos p n <= i < n)%nat -> default 0 (p !! i) <> slash.
Proof.
  induction n as [|n IH]; simpl; [lia|].
  destruct (Z.eqb_spec (default 0 (p !! n)) slash) as [E|E]; [lia|].
  intros Hi. destruct (decide (i = n)) as [->|]; [done | apply IH; lia].
Qed.

Lemma trim_len_le p n : (trim_len p n <= n)%nat.
Proof. induction n as [|n IH]; simpl; [lia|]. destruct (_ && _); lia. Qed.

Lemma resolve_parent_leaf g p from par leaf :
  fat32_resolve_parent g p from = Some (par, leaf) ->
  (slash ∉ leaf) /\ zlength leaf <= FAT32_NAME_MAX.
Proof.
  unfold fat32_resolve_parent. set (en := trim_len p (length p)). set (st := start_pos p en).
  pose proof (trim_len_le p (length p)) as Hen. pose proof (start_pos_le p en) as Hst.
  fold en in Hen. fold st in Hst. unfold FAT32_NAME_MAX.
  destruct (Z.leb_spec (Z.of_nat en - Z.of_nat st) 0); [done|].
  destruct (Z.ltb_spec 63 (Z.of_nat en - Z.of_nat st)); [done|]. cbn [orb].
  set (lf := take _ _). intros E.
  assert (leaf = lf) as ->.
  { destruct (st =? 0)%nat; [by simplify_eq|]. destruct (st =? 1)%nat; [by simplify_eq|].
    destruct (_ <=? _); [done|]. destruct (_ <? 0); [done | by simplify_eq]. }
  split.
  - intros Hin. apply list_elem_of_lookup in Hin as [i Hi].
    unfold lf in Hi. apply lookup_take_Some in Hi as [Hi Hlt]. rewrite lookup_drop in Hi.
    apply (start_pos_free p en (st + i)); [fold st; lia|]. by rewrite Hi.
  - unfold zlength, lf. rewrite length_take, length_drop. lia.
Qed.

(** ** Frames: what a search depends on *)

Definition same_tree (g g' : nodes) : Prop :=
  forall i, used (g i) = used (g' i) /\ parent (g i) = parent (g' i) /\ nname (g i) = nname (g' i).

Lemma scan_ext p q lo n : (forall i, p i = q i) -> scan p lo n = scan q lo n.
Proof. intros H. revert lo. induction n as [|n IH]; intros lo; simpl; [done|]. by rewrite H, IH. Qed.

Lemma find_child_ext g g' par name : same_tree g g' -> fat32_find_child g par name = fat32_find_child g' par name.
Proof. intros H. apply scan_ext. intros i. destruct (H i) as (-> & -> & ->). done. Qed.

Lemma resolve_ext g g' p from : same_tree g g' -> fat32_resolve g p from = fat32_resolve g' p from.
Proof.
  intros H. unfold fat32_resolve. destruct p as [p|]; [|done].
  generalize (if bool_decide (head p = Some slash) then 0 else from). generalize (S (length p)) as fuel.
  intros fuel. revert p. induction fuel as [|f IH]; intros p idx; simpl; [done|].
  destruct (skip_slashes p); [done|]. repeat case_bool_decide; auto.
  - rewrite IH. by destruct (H idx) as (_ & -> & _).
  - rewrite (find_child_ext g g') by done. destruct (_ <? 0); auto.
Qed.

Lemma reach_frame g g' i l :
  reach g i l -> (forall j, j ∈ l -> used (g' j) = true /\ parent (g' j) = parent (g j)) -> reach g' i l.
Proof.
  induction 1 as [|i l Hu Hi _ IH]; intros H; [constructor|].
  destruct (H i) as [Hu' Hp]; [apply elem_of_app; right; constructor|].
  constructor; auto. rewrite Hp. apply IH. intros j Hj. apply H, elem_of_app. by left.
Qed.

Lemma reach_used g i l j : reach g i l -> j ∈ l -> used (g j) = true /\ j <> 0.
Proof.
  induction 1 as [|i l Hu Hi _ IH]; intros Hj; [by apply not_elem_of_nil in Hj|].
  apply elem_of_app in Hj as [Hj|Hj%list_elem_of_singleton]; [auto | by subst].
Qed.

Lemma reach_fun g i l l' : reach g i l -> reach g i l' -> l = l'.
Proof.
  intros H. revert l'. induction H as [|i l Hu Hi H IH]; intros l' H'; inversion H'; subst; try done.
  f_equal. by apply IH.
Qed.

(** The proper ancestors of a node are directories. *)
Lemma reach_dirs g i l j : fs_ok g -> reach g i l -> j ∈ l -> j <> i -> ntype (g j) = FAT32_TYPE_DIR.
Proof.
  intros Hok H. induction H as [|i l Hu Hi H IH]; intros Hj Hne; [by apply not_elem_of_nil in Hj|].
  apply elem_of_app in Hj as [Hj|Hj%list_elem_of_singleton]; [|done].
  destruct (decide (j = parent (g i))) as [->|]; [|auto].
  by apply (ok_parent _ Hok).
Qed.

(** ** Preservation *)

Lemma find_child_range g par name :
  fat32_find_child g par name = -1 \/ 0 <= fat32_find_child g par name < FAT32_NODES_MAX.
Proof.
  unfold fat32_find_child. destruct (scan_range (fun i => used (g i) && (parent (g i) =? par) &&
    bool_decide (nname (g i) = name)) 0 (Z.to_nat FAT32_NODES_MAX) ltac:(lia)) as [H|H]; [by left|].
  right. exact H.
Qed.

Lemma find_child_none g par name i :
  fs_ok g -> fat32_find_child g par name < 0 -> used (g i) = true -> parent (g i) = par ->
  nname (g i) <> name.
Proof.
  intros Hok Hlt Hu Hp Hn. destruct (find_child_range g par name) as [E|]; [|lia].
  pose proof (ok_range _ Hok i Hu) as Hr. unfold fat32_find_child in E.
  apply scan_miss with (j := i) in E; [| lia | unfold FAT32_NODES_MAX in *; lia].
  rewrite Hu, Hp, Z.eqb_refl, bool_decide_true in E; done.
Qed.

Lemma find_child_some g par name i :
  fat32_find_child g par name = i -> i <> -1 -> used (g i) = true /\ parent (g i) = par /\ nname (g i) = name.
Proof.
  intros E Hne. destruct (scan_hit _ 0 _ i ltac:(lia) E Hne) as (_ & Ht & _).
  apply andb_prop in Ht as [Ht Hn]. apply andb_prop in Ht as [Hu Hp].
  apply bool_decide_eq_true in Hn. apply Z.eqb_eq in Hp. auto.
Qed.

Lemma create_node_ok g par name type :
  fs_ok g -> dirp g par -> slash ∉ name -> type = FAT32_TYPE_DIR \/ type = FAT32_TYPE_FILE ->
  fs_ok (fst (fat32_create_node g par name type)).
Proof.
  intros Hok Hpar Hs Hty. unfold fat32_create_node.
  repeat case_bool_decide; try done. cbn [orb].
  destruct (Z.ltb_spec FAT32_NAME_MAX (zlength name)); [done|].
  destruct (Z.leb_spec 0 (fat32_find_child g par name)) as [|Hmiss]; [done|].
  destruct (Z.ltb_spec (fat32_alloc_node g) 0) as [|Hal]; [done|]. cbn [fst].
  set (k := fat32_alloc_node g) in *.
  destruct (scan_hit (fun i => negb (used (g i))) 0 (Z.to_nat FAT32_NODES_MAX) k) as (Hk & Hfree & _);
    [lia | done | lia |]. apply negb_true_iff in Hfree.
  assert (Hkr : 0 <= k < FAT32_NODES_MAX) by (unfold FAT32_NODES_MAX in *; lia). clear Hk.
  destruct (ok_root _ Hok) as ((Hr1 & Hr2) & Hr3 & Hr4).
  assert (Hk0 : k <> 0) by congruence.
  set (g' := <[k := _]> g).
  assert (Hold : forall i, i <> k -> g' i = g i) by (intros; by apply upd_ne).
  assert (Hnew : g' k = {| used := true; ntype := type; parent := par; nname := name;
                           content := []; size := 0 |}) by apply upd_eq.
  assert (Hpk : par <> k) by (destruct Hpar; congruence).
  assert (Hpar_ne : forall i, used (g i) = true -> i <> 0 -> parent (g i) <> k).
  { intros i Hu Hi E. destruct (ok_parent _ Hok i Hu Hi) as [Hu' _]. congruence. }
  assert (Hdir : forall i, dirp g i -> dirp g' i).
  { intros i [Hu Ht]. assert (i <> k) by congruence. split; by rewrite Hold. }
  assert (Hreach : forall i l, reach g i l -> reach g' i l).
  { intros i l H'. eapply reach_frame; [exact H'|]. intros j Hj.
    destruct (reach_used _ _ _ _ H' Hj). assert (j <> k) by congruence. by rewrite Hold. }
  split.
  - rewrite (Hold 0) by done. split; [apply Hdir; done | done].
  - intros i Hi. destruct (decide (i = k)) as [->|]; [by rewrite Hnew in Hi|].
    rewrite Hold in Hi |- * by done. by apply ok_free.
  - intros i Hi. destruct (decide (i = k)) as [->|]; [done|].
    rewrite Hold in Hi by done. by apply (ok_range _ Hok).
  - intros i Hi. destruct (decide (i = k)) as [->|]; [by rewrite Hnew|].
    rewrite Hold in Hi |- * by done. by apply (ok_type _ Hok).
  - intros i. destruct (decide (i = k)) as [->|]; [rewrite Hnew; done|].
    rewrite Hold by done. by apply (ok_size _ Hok).
  - intros i Hi Hi0. destruct (decide (i = k)) as [->|].
    + rewrite Hnew. simpl. split; [|lia]. repeat split; done.
    + rewrite Hold in Hi |- * by done. by apply (ok_name _ Hok).
  - intros i Hi Hi0. destruct (decide (i = k)) as [->|].
    + rewrite Hnew. simpl. by apply Hdir.
    + rewrite Hold in Hi |- * by done. by apply Hdir, (ok_parent _ Hok).
  - intros i j Hi Hj Hi0 Hj0 Hp Hn.
    destruct (decide (i = k)) as [->|], (decide (j = k)) as [->|]; [done| | |].
    + rewrite Hnew in Hp, Hn. rewrite (Hold j) in * by done. simpl in *. exfalso.
      by apply (find_child_none g par name j).
    + rewrite Hnew in Hp, Hn. rewrite (Hold i) in * by done. simpl in *. exfalso.
      by apply (find_child_none g par name i).
    + rewrite !Hold in * by done. by apply (ok_unique _ Hok).
  - intros i Hi. destruct (decide (i = k)) as [->|].
    + destruct (ok_reach _ Hok par) as [l Hl]; [by apply Hpar|].
      exists (l ++ [k]). constructor; [done | done |]. rewrite Hnew. simpl. auto.
    + rewrite Hold in Hi by done. destruct (ok_reach _ Hok i Hi) as [l Hl]. eauto.
Qed.

Lemma make_ok type g p from :
  fs_ok g -> type = FAT32_TYPE_DIR \/ type = FAT32_TYPE_FILE -> fs_ok (fst (fat32_make type g p from)).
Proof.
  intros Hok Hty. unfold fat32_make.
  destruct (fat32_resolve_parent g p (from_idx from)) as [[par name]|] eqn:E; [|done].
  destruct (used (g par)) eqn:Hu; [|done].
  destruct (Z.eqb_spec (ntype (g par)) FAT32_TYPE_DIR); [|done]. cbn [negb orb].
  pose proof (create_node_ok g par name type Hok) as H.
  destruct (fat32_create_node g par name type) as [g' r]. simpl in *.
  apply H; auto; [done|]. by eapply resolve_parent_leaf.
Qed.

Lemma rm_ok g p from : fs_ok g -> fs_ok (fst (fat32_rm g p from)).
Proof.
  intros Hok. assert (Hdf : FAT32_TYPE_DIR <> FAT32_TYPE_FILE) by done. unfold fat32_rm. destruct (fat32_open g p from) as [k|]; [|done].
  destruct (Z.eqb_spec (ntype (g k)) FAT32_TYPE_FILE) as [Hf|]; [|done]. cbn [negb fst].
  destruct (ok_root _ Hok) as ((Hr1 & Hr2) & Hr3 & Hr4).
  assert (Hk0 : k <> 0) by congruence.
  set (g' := <[k := _]> g).
  assert (Hold : forall i, i <> k -> g' i = g i) by (intros; by apply upd_ne).
  assert (Hnew : g' k = zero_node) by apply upd_eq.
  assert (Hus : forall i, used (g' i) = true -> i <> k /\ used (g i) = true).
  { intros i Hi. destruct (decide (i = k)) as [->|]; [by rewrite Hnew in Hi|].
    by rewrite Hold in Hi. }
  assert (Hdir : forall i, dirp g i -> dirp g' i).
  { intros i [Hu Ht]. assert (i <> k) by congruence. split; by rewrite Hold. }
  split.
  - rewrite (Hold 0) by done. split; [apply Hdir; done | done].
  - intros i Hi. destruct (decide (i = k)) as [->|]; [done|].
    rewrite Hold in Hi |- * by done. by apply ok_free.
  - intros i [? Hi]%Hus. by apply (ok_range _ Hok).
  - intros i [? Hi]%Hus. rewrite Hold by done. by apply (ok_type _ Hok).
  - intros i. destruct (decide (i = k)) as [->|]; [rewrite Hnew; done|].
    rewrite Hold by done. by apply (ok_size _ Hok).
  - intros i [? Hi]%Hus Hi0. rewrite Hold by done. by apply (ok_name _ Hok).
  - intros i [? Hi]%Hus Hi0. rewrite Hold by done. by apply Hdir, (ok_parent _ Hok).
  - intros i j [? Hi]%Hus [? Hj]%Hus Hi0 Hj0. rewrite !Hold by done. by apply (ok_unique _ Hok).
  - intros i [Hik Hi]%Hus. destruct (ok_reach _ Hok i Hi) as [l Hl]. exists l.
    eapply reach_frame; [exact Hl|]. intros j Hj. destruct (reach_used _ _ _ _ Hl Hj) as [Hu Hj0].
    assert (j <> k).
    { intros ->. pose proof (reach_dirs _ _ _ _ Hok Hl Hj ltac:(congruence)). congruence. }
    by rewrite Hold.
Qed.

Lemma same_tree_set g k text : same_tree g (<[k := set_content (g k) text]> g).
Proof. intros i. upd_cases; done. Qed.

Lemma set_content_ok g k text :
  fs_ok g -> used (g k) = true -> zlength text <= FAT32_CONTENT_MAX ->
  fs_ok (<[k := set_content (g k) text]> g).
Proof.
  intros Hok Hu Hl. set (g' := <[k := _]> g).
  pose proof (same_tree_set g k text) as Hst. fold g' in Hst.
  assert (Hty : forall i, ntype (g' i) = ntype (g i)) by (intros i; unfold g'; upd_cases; done).
  assert (Hdir : forall i, dirp g i -> dirp g' i).
  { intros i [Hd Ht]. split; [by destruct (Hst i) as [<- _] | by rewrite Hty]. }
  destruct (ok_root _ Hok) as (Hr1 & Hr3 & Hr4).
  split.
  - destruct (Hst 0) as (_ & <- & <-). split; [by apply Hdir | done].
  - intros i Hi. unfold g' in *. revert Hi. upd_cases; [simpl; congruence|]. by apply ok_free.
  - intros i Hi. destruct (Hst i) as (E & _). rewrite <- E in Hi. by apply (ok_range _ Hok).
  - intros i Hi. destruct (Hst i) as (E & _). rewrite <- E in Hi. rewrite Hty. by apply (ok_type _ Hok).
  - intros i. unfold g'. upd_cases; [done | apply (ok_size _ Hok)].
  - intros i Hi. destruct (Hst i) as (E & _ & <-). rewrite <- E in Hi. by apply (ok_name _ Hok).
  - intros i Hi Hi0. destruct (Hst i) as (E & <- & _). rewrite <- E in Hi.
    by apply Hdir, (ok_parent _ Hok).
  - intros i j. destruct (Hst i) as (<- & <- & <-), (Hst j) as (<- & <- & <-). apply (ok_unique _ Hok).
  - intros i Hi. destruct (Hst i) as (E & _). rewrite <- E in Hi.
    destruct (ok_reach _ Hok i Hi) as [l H]. exists l. eapply reach_frame; [exact H|].
    intros j Hj. destruct (Hst j) as (<- & <- & _). by destruct (reach_used _ _ _ _ H Hj).
Qed.

Lemma make_spec type g p from :
  fs_ok g -> type = FAT32_TYPE_DIR \/ type = FAT32_TYPE_FILE ->
  fs_ok (fst (fat32_make type g p from)) /\
  forall j, used (g j) = true -> fst (fat32_make type g p from) j = g j.
Proof.
  intros Hok Hty. split; [by apply make_ok|]. intros j Hj. unfold fat32_make, fat32_create_node.
  destruct (fat32_resolve_parent g p (from_idx from)) as [[par name]|]; [|done].
  destruct (_ || _); [done|]. destruct (_ || _); [done|].
  destruct (_ <? _); [done|]. destruct (_ <=? _); [done|].
  destruct (Z.ltb_spec (fat32_alloc_node g) 0); [done|]. cbn [fst].
  apply upd_ne. intros <-.
  destruct (scan_hit (fun i => negb (used (g i))) 0 (Z.to_nat FAT32_NODES_MAX) (fat32_alloc_node g))
    as (_ & Hfree & _); [lia | done | lia |].
  rewrite Hj in Hfree. done.
Qed.

Lemma file_used g i : fs_ok g -> ntype (g i) = FAT32_TYPE_FILE -> used (g i) = true.
Proof. intros Hok Ht. destruct (used (g i)) eqn:E; [done|]. rewrite (ok_free _ Hok i E) in Ht. done. Qed.

Lemma clip_length text : zlength (clip text) <= FAT32_CONTENT_MAX.
Proof. unfold clip, zlength. rewrite length_take. unfold FAT32_CONTENT_MAX. lia. Qed.

(** [fat32_write_text]: the table before the store, and the node it stores in. *)
Lemma write_text_cases g p from text :
  fs_ok g ->
  exists g0, fs_ok g0 /\ (forall j, used (g j) = true -> g0 j = g j) /\
    (fat32_write_text g p from text = (g0, -1) \/
     exists i, fat32_open g0 (Some p) from = Some i /\ ntype (g0 i) = FAT32_TYPE_FILE /\
       fat32_write_text g p from text = (<[i := set_content (g0 i) (clip text)]> g0, 0)).
Proof.
  intros Hok. unfold fat32_write_text. destruct (fat32_open g (Some p) from) as [i|] eqn:Eo.
  - exists g. split; [done|]. split; [done|].
    destruct (Z.eqb_spec (ntype (g i)) FAT32_TYPE_FILE) as [Ht|]; [|by left]. right. eauto.
  - destruct (make_spec FAT32_TYPE_FILE g p from Hok (or_intror eq_refl)) as [Hok' Hfr].
    unfold fat32_touch. destruct (fat32_make FAT32_TYPE_FILE g p from) as [g0 r]. simpl in Hok', Hfr.
    exists g0. split; [done|]. split; [done|].
    destruct (r <? 0); [by left|]. destruct (fat32_open g0 (Some p) from) as [i|]; [|by left].
    destruct (Z.eqb_spec (ntype (g0 i)) FAT32_TYPE_FILE) as [Ht|]; [|by left]. right. eauto.
Qed.

Lemma write_text_ok g p from text : fs_ok g -> fs_ok (fst (fat32_write_text g p from text)).
Proof.
  intros Hok. destruct (write_text_cases g p from text Hok) as (g0 & Hok0 & _ & [->|(i & _ & Ht & ->)]);
    [done|].
  apply set_content_ok; [done | by apply file_used | apply clip_length].
Qed.

Lemma init_ok : fs_ok fat32_init.
Proof.
  assert (Hbase : fs_ok (<[0 := root_node]> (fun _ => zero_node))).
  { split.
    - done.
    - intros i. upd_cases; done.
    - intros i. upd_cases; done.
    - intros i. upd_cases; [by left | done].
    - intros i. upd_cases; done.
    - intros i. upd_cases; done.
    - intros i. upd_cases; done.
    - intros i j. upd_cases; done.
    - intros i. upd_cases; [|done]. intros _. exists []. constructor. }
  unfold fat32_init. revert Hbase. generalize (<[0 := root_node]> (fun _ => zero_node)).
  assert (Hl : Forall (fun n => slash ∉ n) [str "bin"; str "dev"; str "root"; str "etc"; str "boot"; str "home"; str "tmp"]).
  { repeat constructor; apply (bool_decide_unpack _); vm_compute; exact I. }
  induction Hl as [|n l Hn _ IH]; intros g Hg; [done|]. cbn [fold_left]. apply IH.
  apply create_node_ok; auto. by apply (ok_root _ Hg).
Qed.

(** C11: from the initial tree, every sequence of operations with whatever paths,
    starting points and texts leaves a well-formed tree: parents are live
    directories, names are legal and unique among siblings, every node climbs to
    the root, sizes match contents and stay in bounds. *)
Theorem memfs_always_ok (g : nodes) (Hg : rtc memfs_step fat32_init g) : fs_ok g.
Proof.
  apply (rtc_ind_r (R := memfs_step) (fun g => fs_ok g) fat32_init); [exact init_ok | | exact Hg].
  clear. intros g g' _ Hstep Hok. destruct Hstep.
  - apply make_ok; auto.
  - apply make_ok; auto.
  - by apply rm_ok.
  - by apply write_text_ok.
  - unfold fat32_copy. destruct (fat32_open g src from) as [s|]; [|done].
    destruct (negb _); [done|].
    pose proof (write_text_ok g dst from (c_text (content (g s))) Hok) as H.
    by destruct (fat32_write_text g dst from (c_text (content (g s)))).
Qed.

(** ** Paths and nodes *)

Fixpoint walk (g : nodes) (cs : list path) (idx : Z) : Z :=
  match cs with
  | [] => idx
  | c :: cs =>
      let part := take (Z.to_nat FAT32_NAME_MAX) c in
      if bool_decide (part = dot) then walk g cs idx
      else if bool_decide (part = dotdot) then walk g cs (if idx =? 0 then idx else parent (g idx))
      else
        let idx := fat32_find_child g idx part in
        if idx <? 0 then -1 else walk g cs idx
  end.

Lemma resolve_loop_walk fuel g p idx :
  (length p < fuel)%nat -> resolve_loop fuel g p idx = walk g (components p) idx.
Proof.
  revert p idx. induction fuel as [|f IH]; intros p idx Hf; [lia|]. cbn [resolve_loop].
  destruct (skip_slashes p) as [|c s'] eqn:Es; [by rewrite (components_nil _ Es)|].
  rewrite (components_step _ _ _ Es). cbn [walk].
  assert (Hl : (length (from_slash (c :: s')) < f)%nat).
  { pose proof (skip_slashes_length p) as H1. rewrite Es in H1.
    pose proof (f_equal length (upto_from (c :: s'))) as H2. rewrite length_app in H2.
    assert (upto_slash (c :: s') <> []).
    { simpl. destruct (Z.eqb_spec c slash); [by apply skip_slashes_head in Es | discriminate]. }
    destruct (upto_slash (c :: s')); simpl in *; [done | lia]. }
  repeat case_bool_decide; auto. destruct (_ <? 0); auto.
Qed.

Lemma find_child_self g i :
  fs_ok g -> used (g i) = true -> i <> 0 -> fat32_find_child g (parent (g i)) (nname (g i)) = i.
Proof.
  intros Hok Hu Hi. pose proof (ok_range _ Hok i Hu) as Hr. unfold FAT32_NODES_MAX in Hr.
  apply scan_unique; [lia | unfold FAT32_NODES_MAX; lia | |].
  - by rewrite Hu, Z.eqb_refl, bool_decide_true.
  - intros j Hj Ht. apply andb_prop in Ht as [Ht Hn]. apply andb_prop in Ht as [Huj Hp].
    apply bool_decide_eq_true in Hn. apply Z.eqb_eq in Hp.
    assert (j <> 0).
    { intros ->. destruct (ok_name _ Hok i Hu Hi) as [[[Hne _] _] _]. apply Hne.
      rewrite <- Hn. apply (ok_root _ Hok). }
    by apply (ok_unique _ Hok).
Qed.

Lemma walk_reach g i l cs :
  fs_ok g -> reach g i l -> walk g (map (fun j => nname (g j)) l ++ cs) 0 = walk g cs i.
Proof.
  intros Hok H. revert cs. induction H as [|i l Hu Hi H IH]; intros cs; [done|].
  rewrite map_app, <- app_assoc, IH. simpl.
  destruct (ok_name _ Hok i Hu Hi) as [(_ & Hd & Hdd) Hlen].
  rewrite take_ge by (unfold zlength, FAT32_NAME_MAX in *; lia).
  rewrite !bool_decide_false by done. rewrite find_child_self by done.
  pose proof (ok_range _ Hok i Hu). destruct (Z.ltb_spec i 0); [lia | done].
Qed.

Lemma reach_member g i l j : reach g i l -> j ∈ l -> exists l', reach g j l' /\ (length l' <= length l)%nat.
Proof.
  induction 1 as [|i l Hu Hi H IH]; intros Hj; [by apply not_elem_of_nil in Hj|].
  rewrite length_app. apply elem_of_app in Hj as [Hj|Hj%list_elem_of_singleton].
  - destruct (IH Hj) as (l' & Hl & Hle). exists l'. split; [done | lia].
  - subst j. exists (l ++ [i]). split; [by constructor | rewrite length_app; lia].
Qed.

Lemma reach_nodup g i l : reach g i l -> NoDup l.
Proof.
  induction 1 as [|i l Hu Hi H IH]; [constructor|].
  apply NoDup_app. split; [done|]. split; [|apply NoDup_singleton].
  intros j Hj ->%list_elem_of_singleton.
  destruct (reach_member _ _ _ _ H Hj) as (l' & Hl & Hle).
  rewrite (reach_fun _ _ _ _ Hl (reach_child _ _ _ Hu Hi H)), length_app in Hle. simpl in Hle. lia.
Qed.

Lemma reach_short g i l : fs_ok g -> reach g i l -> (length l <= 256)%nat.
Proof.
  intros Hok H. pose proof (NoDup_incl_length (l := map Z.to_nat l) (l' := seq 0 256)) as Hle.
  rewrite length_map, length_seq in Hle. apply Hle; clear Hle.
  - apply NoDup_ListNoDup, NoDup_fmap_2_strong; [|by eapply reach_nodup].
    intros x y Hx Hy. destruct (reach_used _ _ _ _ H Hx) as [Hux _].
    destruct (reach_used _ _ _ _ H Hy) as [Huy _].
    apply (ok_range _ Hok) in Hux, Huy. lia.
  - intros n Hn. apply in_map_iff in Hn as (j & <- & Hj). apply list_elem_of_In in Hj.
    destruct (reach_used _ _ _ _ H Hj) as [Hu _]. apply (ok_range _ Hok) in Hu.
    unfold FAT32_NODES_MAX in Hu. apply in_seq. lia.
Qed.

Lemma climb_reach g i l n stack :
  reach g i l -> (length l <= n)%nat -> climb g i n stack = l ++ stack.
Proof.
  intros H. revert n stack. induction H as [|i l Hu Hi H IH]; intros n stack Hn.
  - by destruct n.
  - rewrite length_app in Hn. simpl in Hn. destruct n as [|n]; [lia|]. simpl.
    destruct (Z.eqb_spec i 0); [done|]. rewrite IH by lia. by rewrite <- app_assoc.
Qed.

Lemma put_names_cons g i st out outsz :
  put_names g (i :: st) out outsz =
  if outsz <=? zlength out + zlength (nname (g i)) + 1 then out
  else put_names g st (if bool_decide (st = []) then out ++ nname (g i)
                       else (out ++ nname (g i)) ++ [slash]) outsz.
Proof. reflexivity. Qed.

Lemma put_names_fits g l out outsz :
  zlength out + zlength (join (map (fun j => nname (g j)) l)) + 1 < outsz ->
  put_names g l out outsz = out ++ join (map (fun j => nname (g j)) l).
Proof.
  unfold zlength. revert out. induction l as [|i l IH]; intros out H; [simpl; by rewrite app_nil_r|].
  destruct l as [|j l].
  - simpl in *. unfold zlength. destruct (Z.leb_spec outsz (Z.of_nat (length out) + Z.of_nat (length (nname (g i))) + 1)); [lia|].
    done.
  - change (join (map (fun j => nname (g j)) (i :: j :: l)))
      with (nname (g i) ++ slash :: join (map (fun j => nname (g j)) (j :: l))) in *.
    rewrite length_app, length_cons in H. rewrite put_names_cons. unfold zlength.
    destruct (Z.leb_spec outsz (Z.of_nat (length out) + Z.of_nat (length (nname (g i))) + 1)); [lia|].
    rewrite bool_decide_false by done.
    rewrite IH by (rewrite !length_app; simpl length in *; lia).
    by rewrite <- !app_assoc.
Qed.

(** The absolute path of a node. *)
Definition full_path (g : nodes) (i : Z) (p : path) : Prop :=
  exists l, reach g i l /\ p = render (map (fun j => nname (g j)) l).

(** In a well-formed tree [fat32_build_path] finishes and prints, when it
    fits, the full path of a node, and resolving that path from anywhere gives the
    node back. *)
Theorem build_path_resolve (g : nodes) (i outsz from : Z)
  (Hok : fs_ok g) (Hu : used (g i) = true) :
  exists p, full_path g i p /\
    (2 <= outsz -> zlength p + 1 < outsz -> fat32_build_path g (Some i) outsz = Some p) /\
    fat32_open g (Some p) (Some from) = Some i.
Proof.
  destruct (ok_reach _ Hok i Hu) as [l Hl]. set (ns := map (fun j => nname (g j)) l).
  exists (render ns). split; [by exists l|]. split.
  - intros H2 Hlen. unfold fat32_build_path. change (from_idx (Some i)) with i.
    destruct (Z.ltb_spec outsz 2); [lia|]. destruct (Z.eqb_spec i 0) as [->|Hi].
    + assert (l = []) as -> by (eapply reach_fun; [exact Hl | constructor]). done.
    + pose proof (reach_short g i l Hok Hl) as Hs.
      rewrite (climb_reach g i l); [| exact Hl | unfold FAT32_NODES_MAX; lia].
      rewrite app_nil_r, put_names_fits; [done|].
      unfold render, zlength in *. fold ns. simpl length in *. lia.
  - unfold fat32_open, fat32_resolve. rewrite bool_decide_true by done.
    rewrite resolve_loop_walk by lia.
    assert (Hp : Forall plain ns).
    { apply Forall_forall. intros n Hn. apply list_elem_of_fmap in Hn as (j & -> & Hj).
      destruct (reach_used _ _ _ _ Hl Hj) as [Hj1 Hj2]. by destruct (ok_name _ Hok j Hj1 Hj2) as [[? _] _]. }
    rewrite components_render by (eapply Forall_impl; [exact Hp | by intros ? []]).
    rewrite names_plain by done. rewrite <- (app_nil_r ns). unfold ns. rewrite (walk_reach g i l) by done.
    simpl. pose proof (ok_range _ Hok i Hu). destruct (Z.ltb_spec i 0); [lia | done].
Qed.

Lemma open_ext g g' p from : same_tree g g' -> fat32_open g p from = fat32_open g' p from.
Proof. intros H. unfold fat32_open. by rewrite (resolve_ext g g'). Qed.

(** After a successful write, the path opens to a file whose contents are the
    text, cut at 10000 bytes; a read returns them up to the caller's buffer, and
    every node that existed before is unchanged except that file. *)
Theorem write_text_read (g g' : nodes) (p : path) (from : option Z) (text : list Z) (max : Z)
  (Hok : fs_ok g) (Hw : fat32_write_text g p from text = (g', 0)) (Hmax : 0 < max) :
  exists i, fat32_open g' (Some p) from = Some i /\
    fat32_read g' (Some i) max = Some (take (Z.to_nat (max - 1)) (clip text)) /\
    forall j, j <> i -> used (g j) = true -> g' j = g j.
Proof.
  destruct (write_text_cases g p from text Hok) as (g0 & Hok0 & Hfr & [E|(i & Ho & Ht & E)]);
    rewrite Hw in E; [by injection E|]. simplify_eq.
  exists i. split; [|split].
  - by rewrite <- (open_ext g0) by apply same_tree_set.
  - unfold fat32_read. rewrite upd_eq. cbn [ntype set_content size content]. rewrite Ht.
    destruct (Z.leb_spec max 0); [lia|]. cbn [Z.eqb negb orb].
    rewrite Z.eqb_refl. cbn [negb orb]. f_equal.
    destruct (Z.leb_spec max (zlength (clip text))); [done|].
    unfold zlength in *. rewrite Nat2Z.id, !take_ge by lia. done.
  - intros j Hj Hu. rewrite upd_ne by done. auto.
Qed.

(** ** Concrete runs *)

Lemma memfs_always_ok_witness :
  fs_ok (fst (fat32_rm (fst (fat32_touch fat32_init (str "/home/a") None)) (Some (str "/home/a")) None)).
Proof.
  apply memfs_always_ok.
  eapply rtc_l; [apply (step_touch fat32_init (str "/home/a") None)|].
  apply rtc_once. apply step_rm.
Defined.

Lemma build_path_resolve_witness :
  exists p, full_path fat32_init 6 p /\
    (2 <= 256 -> zlength p + 1 < 256 -> fat32_build_path fat32_init (Some 6) 256 = Some p) /\
    fat32_open fat32_init (Some p) (Some 3) = Some 6.
Proof. apply (build_path_resolve fat32_init 6 256 3); [exact init_ok | vm_compute; reflexivity]. Defined.

Definition motd_fs : nodes := fst (fat32_write_text fat32_init (str "/etc/motd") None (str "hello")).

Lemma write_text_read_witness :
  exists i, fat32_open motd_fs (Some (str "/etc/motd")) None = Some i /\
    fat32_read motd_fs (Some i) 4 = Some (take (Z.to_nat (4 - 1)) (clip (str "hello"))) /\
    forall j, j <> i -> used (fat32_init j) = true -> motd_fs j = fat32_init j.
Proof.
  apply (write_text_read fat32_init motd_fs (str "/etc/motd") None (str "hello") 4).
  - exact init_ok.
  - unfold motd_fs. rewrite (surjective_pairing (fat32_write_text _ _ _ _)) at 1. f_equal.
  - lia.
Defined.

Example mkdir_twice :
  snd (fat32_mkdir fat32_init (str "/home/u/") None) = 0 /\
  snd (fat32_mkdir (fst (fat32_mkdir fat32_init (str "/home/u/") None)) (str "home/u") (Some 0)) = -1.
Proof. vm_compute. done. Qed.
