(* ===== verification/Uaccess.v ===== *)
(** * Access to user memory ([src/src/sys/syscall.c])

    The checks on user addresses, the copies between the kernel and user memory,
    the walk of the page tables that reads the flags of a user page and the
    conversions of the time structures passed by address. User memory is the
    byte memory of [CString.v]; a kernel buffer is the list of its bytes. A
    failed copy is [None], the code's [-1]. *)

From S2P Require Import Prelude CString.

Definition PAGE_SIZE : Z := 4096.
Definition USER_MIN_ADDR : Z := 0x1000.
Definition USER_MAX_ADDR : Z := 0x40000000.
Definition PTE_PRESENT : Z := 0x1.
Definition PTE_WRITE : Z := 0x2.
Definition PTE_USER : Z := 0x4.
Definition PTE_PS : Z := 0x80.

(** ** Bytes of integers, least significant first *)

Fixpoint le_bytes (n : nat) (z : Z) : list Z :=
  match n with
  | O => []
  | S n => z mod 256 :: le_bytes n (z / 256)
  end.

Fixpoint le_val (l : list Z) : Z :=
  match l with
  | [] => 0
  | b :: l => b + 256 * le_val l
  end.

(** The field of [n] bytes at [off] of a structure, an integer of that width, and
    the structure with another value there. *)
Definition field (off n : nat) (bs : list Z) : Z := le_val (take n (drop off bs)) mod 256 ^ Z.of_nat n.
Definition set_field (off n : nat) (v : Z) (bs : list Z) : list Z := list_inserts off (le_bytes n v) bs.

(** The 64-bit word at an address. *)
Definition load64 (m : mem) (a : Z) : Z := le_val (load_bytes m a 8).

(** ** Addresses *)

Definition page_align_up (v : Z) : Z := Z.land (u64 (v + PAGE_SIZE - 1)) (Z.lnot (PAGE_SIZE - 1)).

Definition user_range_ok (addr len : Z) : bool :=
  if addr <? USER_MIN_ADDR then false
  else if USER_MAX_ADDR <=? addr then false
  else if len =? 0 then true
  else if u64 (addr + len) <? addr then false
  else if USER_MAX_ADDR <? u64 (addr + len) then false
  else true.

(** [f & m], as a condition *)
Definition flag (f m : Z) : bool := negb (Z.land f m =? 0).

(** [rd64 a] is the 64-bit word at physical address [a]. *)
Definition user_pte_flags (rd64 : Z -> Z) (cr3 va : Z) : Z :=
  let table e := Z.land e (Z.lnot 0xFFF) in
  let entry t shift := rd64 (t + 8 * Z.land (Z.shiftr va shift) 0x1FF) in
  let pml4e := entry (table cr3) 39 in
  if negb (flag pml4e PTE_PRESENT) then 0
  else
    let pdpte := entry (table pml4e) 30 in
    if negb (flag pdpte PTE_PRESENT) then 0
    else if flag pdpte PTE_PS then Z.land pdpte 0xFFF
    else
      let pde := entry (table pdpte) 21 in
      if negb (flag pde PTE_PRESENT) then 0
      else if flag pde PTE_PS then Z.land pde 0xFFF
      else
        let pte := entry (table pde) 12 in
        if negb (flag pte PTE_PRESENT) then 0 else Z.land pte 0xFFF.

(** ** Copies *)

Definition copy_from_user (m : mem) (src_u len : Z) : option (list Z) :=
  if negb (user_range_ok src_u len) then None else Some (load_bytes m src_u (Z.to_nat (u32 len))).

Definition copy_to_user (m : mem) (dst_u : Z) (src : list Z) : option mem :=
  if negb (user_range_ok dst_u (Z.of_nat (length src))) then None
  else Some (store_bytes m dst_u src).

(** The loop of [copy_user_cstr]: [n] more bytes fit. *)
Fixpoint cstr_loop (m : mem) (src_u i : Z) (n : nat) : option (list Z) :=
  match n with
  | O => None
  | S n =>
      match copy_from_user m (u64 (src_u + i)) 1 with
      | Some (c :: _) =>
          if c =? 0 then Some []
          else match cstr_loop m src_u (i + 1) n with Some s => Some (c :: s) | None => None end
      | _ => None
      end
  end.

(** The string copied to [dst]; [None] is the return value [-1]. *)
Definition copy_user_cstr (m : mem) (dst_sz src_u : Z) : option (list Z) :=
  if dst_sz <=? 1 then None
  else if src_u =? 0 then Some []
  else cstr_loop m src_u 0 (Z.to_nat (dst_sz - 1)).

(** ** Times

    A [timeval] is the pair of its fields [tv_sec] and [tv_usec], a [timespec]
    of [tv_sec] and [tv_nsec]. *)

Definition timeval_to_us (tv : option (Z * Z)) : Z :=
  match tv with
  | None => 0
  | Some (sec, usec) =>
      if (sec <? 0) || (usec <? 0) || (1000000 <=? usec) then 0
      else u64 (sec * 1000000 + usec)
  end.

(** [None] is [*ok = 0]. *)
Definition timespec_to_us_checked (ts : option (Z * Z)) : option Z :=
  match ts with
  | None => None
  | Some (sec, nsec) =>
      if (sec <? 0) || (nsec <? 0) || (1000000000 <=? nsec) then None
      else Some (u64 (sec * 1000000 + nsec / 1000))
  end.

(** ** Lemmas *)

Lemma align_down_eq x : Z.land x (Z.lnot 4095) = x - x mod 4096.
Proof.
  rewrite <- Z.ldiff_land. change 4095 with (Z.ones 12). rewrite Z.ldiff_ones_r by lia.
  rewrite Z.shiftr_div_pow2, Z.shiftl_mul_pow2 by lia. change (2 ^ 12) with 4096.
  pose proof (Z.div_mod x 4096). lia.
Qed.

Lemma page_align_up_eq v :
  0 <= v -> v + 4095 < 2 ^ 64 -> page_align_up v = (v + 4095) / 4096 * 4096.
Proof.
  intros H1 H2. unfold page_align_up, PAGE_SIZE. rewrite u64_small by lia.
  change (4096 - 1) with 4095. rewrite align_down_eq.
  pose proof (Z.div_mod (v + 4095) 4096). replace (v + 4096 - 1) with (v + 4095) by lia. lia.
Qed.

Lemma page_align_up_bounds v :
  0 <= v -> v + 4095 < 2 ^ 64 ->
  v <= page_align_up v < v + 4096 /\ page_align_up v mod 4096 = 0.
Proof.
  intros H1 H2. rewrite page_align_up_eq by done. rewrite Z.mod_mul by lia.
  pose proof (Z.div_mod (v + 4095) 4096). pose proof (Z.mod_pos_bound (v + 4095) 4096). lia.
Qed.

Lemma page_align_up_range v : 0 <= page_align_up v < 2 ^ 64 /\ page_align_up v mod 4096 = 0.
Proof.
  unfold page_align_up, PAGE_SIZE. change (4096 - 1) with 4095. rewrite align_down_eq.
  pose proof (u64_range (v + 4096 - 1)) as Hu. set (x := u64 (v + 4096 - 1)) in *.
  pose proof (Z.mod_pos_bound x 4096). pose proof (Z.div_mod x 4096).
  replace (x - x mod 4096) with (x / 4096 * 4096) by lia. rewrite Z.mod_mul by lia. lia.
Qed.

Lemma length_le_bytes n z : length (le_bytes n z) = n.
Proof. revert z. induction n; intros; simpl; auto. Qed.

Lemma le_val_bytes n z : 0 <= z < 2 ^ (8 * Z.of_nat n) -> le_val (le_bytes n z) = z.
Proof.
  revert z. induction n as [|n IH]; intros z Hz; cbn [le_bytes le_val].
  - change (2 ^ (8 * Z.of_nat 0)) with 1 in Hz. lia.
  - rewrite IH.
    + pose proof (Z.div_mod z 256). lia.
    + split; [apply Z.div_pos; lia|]. apply Z.div_lt_upper_bound; [lia|].
      replace (8 * Z.of_nat (S n)) with (8 + 8 * Z.of_nat n) in Hz by lia.
      rewrite Z.pow_add_r in Hz by lia. lia.
Qed.

Lemma field_range off n bs : 0 <= field off n bs < 256 ^ Z.of_nat n.
Proof. unfold field. apply Z.mod_pos_bound, Z.pow_pos_nonneg; lia. Qed.

Lemma length_set_field off n v bs : length (set_field off n v bs) = length bs.
Proof. apply length_inserts. Qed.

(** What a structure holds at [off] after a list is put at [o]. *)
Lemma take_drop_inserts off n o (l bs : list Z) :
  (off + n <= o \/ o + length l <= off)%nat -> take n (drop off (list_inserts o l bs)) = take n (drop off bs).
Proof.
  intros H. apply list_eq. intros i. destruct (decide (i < n)%nat).
  - rewrite !lookup_take_lt, !lookup_drop by lia. destruct H; [apply list_lookup_inserts_lt; lia | apply list_lookup_inserts_ge; lia].
  - by rewrite !lookup_take_ge by lia.
Qed.

Lemma take_drop_inserts_same off (l bs : list Z) :
  (off + length l <= length bs)%nat -> take (length l) (drop off (list_inserts off l bs)) = l.
Proof.
  intros H. apply list_eq. intros i. destruct (decide (i < length l)%nat).
  - rewrite lookup_take_lt, lookup_drop by lia. rewrite list_lookup_inserts by lia. f_equal. lia.
  - rewrite lookup_take_ge by lia. symmetry. apply lookup_ge_None. lia.
Qed.

Lemma slice_inside off k n (c l : list Z) :
  (k + n <= length c)%nat -> (off + length c <= length l)%nat -> take n (drop (off + k) (list_inserts off c l)) = take n (drop k c).
Proof.
  intros Hk Hl. apply list_eq. intros j. destruct (decide (j < n)%nat); [|by rewrite !lookup_take_ge by lia].
  rewrite !lookup_take_lt, !lookup_drop by done. rewrite list_lookup_inserts by lia. f_equal. lia.
Qed.

Lemma field_at n v (a r : list Z) : field (length a) n (a ++ le_bytes n v ++ r) = le_val (le_bytes n v) mod 256 ^ Z.of_nat n.
Proof. unfold field. rewrite drop_app_length. rewrite take_app_length' by (by rewrite length_le_bytes). done. Qed.

Lemma field_value n v (a r : list Z) k : k = length a -> 0 <= v < 256 ^ Z.of_nat n -> field k n (a ++ le_bytes n v ++ r) = v.
Proof.
  intros -> Hv. rewrite field_at, le_val_bytes; [by apply Z.mod_small|]. change 256 with (2 ^ 8) in Hv. rewrite <- Z.pow_mul_r in Hv by lia. done.
Qed.

Lemma field_inside off k n c l :
  (k + n <= length c)%nat -> (off + length c <= length l)%nat -> field (off + k) n (list_inserts off c l) = field k n c.
Proof. intros Hk Hl. unfold field. by rewrite slice_inside. Qed.

Lemma field_set off n v bs :
  0 <= v < 256 ^ Z.of_nat n -> (off + n <= length bs)%nat -> field off n (set_field off n v bs) = v.
Proof.
  intros Hv Hl. unfold field, set_field. rewrite <- (length_le_bytes n v) at 1. rewrite take_drop_inserts_same by (rewrite length_le_bytes; lia).
  rewrite le_val_bytes; [by apply Z.mod_small|]. change 256 with (2 ^ 8) in Hv. rewrite <- Z.pow_mul_r in Hv by lia. done.
Qed.

Lemma field_inserts off n o l bs : (off + n <= o \/ o + length l <= off)%nat -> field off n (list_inserts o l bs) = field off n bs.
Proof. intros H. unfold field. by rewrite take_drop_inserts. Qed.

Lemma field_set_ne off n o k v bs : (off + n <= o \/ o + k <= off)%nat -> field off n (set_field o k v bs) = field off n bs.
Proof. intros H. apply field_inserts. by rewrite length_le_bytes. Qed.

Lemma field_app off n (l r : list Z) : (off + n <= length l)%nat -> field off n (l ++ r) = field off n l.
Proof. intros H. unfold field. rewrite drop_app_le by lia. by rewrite take_app_le by (rewrite length_drop; lia). Qed.

Lemma field_front off n k (l : list Z) : (off + n <= k)%nat -> field off n (take k l) = field off n l.
Proof. intros H. unfold field. rewrite skipn_firstn_comm, take_take. by rewrite Nat.min_l by lia. Qed.

Lemma user_range_ok_spec addr len :
  0 <= addr < 2 ^ 64 -> 0 <= len < 2 ^ 64 ->
  user_range_ok addr len = true <->
  USER_MIN_ADDR <= addr < USER_MAX_ADDR /\ addr + len <= USER_MAX_ADDR.
Proof.
  intros Ha Hl. unfold user_range_ok, USER_MIN_ADDR, USER_MAX_ADDR in *.
  destruct (Z_lt_ge_dec (addr + len) (2 ^ 64)) as [E|E].
  - rewrite (u64_small (addr + len)) by lia.
    repeat ztest; split; intros; split_all; try done; lia.
  - assert (u64 (addr + len) = addr + len - 2 ^ 64) as ->.
    { unfold u64. symmetry. apply Z.mod_unique with 1; lia. }
    repeat ztest; split; intros; split_all; try done; lia.
Qed.

Lemma copy_from_user_some m src len bs :
  0 <= src < 2 ^ 64 -> 0 <= len < 2 ^ 64 ->
  copy_from_user m src len = Some bs <->
  user_range_ok src len = true /\ bs = load_bytes m src (Z.to_nat len).
Proof.
  intros Hs Hl. unfold copy_from_user. destruct (user_range_ok src len) eqn:E; simpl.
  - apply user_range_ok_spec in E as [E1 E2]; [|done..].
    unfold USER_MIN_ADDR, USER_MAX_ADDR in *. rewrite u32_small by lia.
    split; [intros [= <-]; done | by intros [_ ->]].
  - split; [done | by intros [? _]].
Qed.

Lemma copy_to_user_some m dst bs m' :
  copy_to_user m dst bs = Some m' <->
  user_range_ok dst (Z.of_nat (length bs)) = true /\ m' = store_bytes m dst bs.
Proof.
  unfold copy_to_user. destruct (user_range_ok _ _); simpl.
  - split; [intros [= <-]; done | by intros [_ ->]].
  - split; [done | by intros [? _]].
Qed.

Lemma copy_byte m a :
  0 <= a < 2 ^ 64 ->
  copy_from_user m a 1 = if (USER_MIN_ADDR <=? a) && (a <? USER_MAX_ADDR) then Some [m a] else None.
Proof.
  intros Ha. destruct (user_range_ok a 1) eqn:E.
  - assert (copy_from_user m a 1 = Some [m a]) as -> by (apply copy_from_user_some; [lia.. | done]).
    apply user_range_ok_spec in E; [|lia..]. unfold USER_MIN_ADDR, USER_MAX_ADDR in *.
    repeat ztest; simpl; try done; lia.
  - assert (copy_from_user m a 1 = None) as -> by (unfold copy_from_user; by rewrite E).
    destruct ((USER_MIN_ADDR <=? a) && (a <? USER_MAX_ADDR)) eqn:F; [|done].
    assert (user_range_ok a 1 = true); [|congruence].
    apply user_range_ok_spec; [lia..|]. unfold USER_MIN_ADDR, USER_MAX_ADDR in *.
    apply andb_true_iff in F as [F1%Z.leb_le F2%Z.ltb_lt]. lia.
Qed.

Lemma cstr_loop_spec m src i n s :
  0 <= src -> 0 <= i -> src + i + Z.of_nat n < 2 ^ 63 ->
  cstr_loop m src i n = Some s <->
  cstr m (src + i) s /\ (length s < n)%nat /\
  USER_MIN_ADDR <= src + i /\ src + i + Z.of_nat (length s) < USER_MAX_ADDR.
Proof.
  revert i s. induction n as [|n IH]; intros i s Hs Hi Hn; cbn [cstr_loop]; [split; [done | lia]|].
  rewrite u64_small, copy_byte by lia.
  destruct ((USER_MIN_ADDR <=? src + i) && (src + i <? USER_MAX_ADDR)) eqn:F.
  2: { split; [done|]. intros (_ & _ & H1 & H2). apply andb_false_iff in F.
       rewrite Z.leb_gt, Z.ltb_ge in F. lia. }
  apply andb_true_iff in F as [F1%Z.leb_le F2%Z.ltb_lt].
  destruct (Z.eqb_spec (m (src + i)) 0) as [E|E].
  - split.
    + intros [= <-]. simpl. split_all; [done | lia..].
    + intros (H & _). destruct s as [|c s]; [done|]. destruct H as (H & ? & _). congruence.
  - destruct (cstr_loop m src (i + 1) n) as [s'|] eqn:L.
    + apply IH in L; [|lia..]. destruct L as (L1 & L2 & L3 & L4). split.
      * intros [= <-]. simpl. replace (src + i + 1) with (src + (i + 1)) by lia.
        split_all; try done; lia.
      * intros (H & H1 & H2 & H3). destruct s as [|c s]; [simpl in H; congruence|].
        destruct H as (Hc & ? & H). assert (cstr_loop m src (i + 1) n = Some s) as Hx.
        { apply IH; [lia..|]. replace (src + (i + 1)) with (src + i + 1) by lia. simpl in *. split_all; [done | lia..]. }
        assert (cstr_loop m src (i + 1) n = Some s') as Hy.
        { apply IH; [lia..|]. done. }
        congruence.
    + split; [done|]. intros (H & H1 & H2 & H3). destruct s as [|c s]; [simpl in H; congruence|].
      destruct H as (Hc & ? & H). exfalso.
      enough (cstr_loop m src (i + 1) n = Some s) by congruence.
      apply IH; [lia..|]. replace (src + (i + 1)) with (src + i + 1) by lia. simpl in *. split_all; [done | lia..].
Qed.

(** C37: [copy_to_user] succeeds exactly when the destination lies in user space,
    whatever 64-bit address and length are asked for, the overflowing ones
    included; it then stores the bytes there and changes no other byte. *)
Theorem copy_to_user_confined (m : mem) (dst : Z) (bs : list Z)
    (Hd : 0 <= dst < 2 ^ 64) (Hl : Z.of_nat (length bs) < 2 ^ 64) :
  (copy_to_user m dst bs = None <->
     ~ (USER_MIN_ADDR <= dst < USER_MAX_ADDR /\ dst + Z.of_nat (length bs) <= USER_MAX_ADDR)) /\
  forall m', copy_to_user m dst bs = Some m' ->
    copy_from_user m' dst (Z.of_nat (length bs)) = Some bs /\
    forall a, m' a <> m a ->
      dst <= a < dst + Z.of_nat (length bs) /\ USER_MIN_ADDR <= a < USER_MAX_ADDR.
Proof.
  split.
  - unfold copy_to_user. rewrite <- user_range_ok_spec by lia.
    destruct (user_range_ok _ _); simpl; split; intros H; try done; by destruct H.
  - intros m' (Hok & ->)%copy_to_user_some. split.
    + apply copy_from_user_some; [lia..|]. split; [done|].
      by rewrite Nat2Z.id, load_store_bytes.
    + intros a Ha. apply user_range_ok_spec in Hok; [|lia..].
      destruct (Z_lt_ge_dec a dst); [by rewrite store_bytes_out in Ha by lia|].
      destruct (Z_lt_ge_dec a (dst + Z.of_nat (length bs))); [lia|].
      by rewrite store_bytes_out in Ha by lia.
Qed.

Lemma copy_to_user_confined_witness :
  exists m', copy_to_user (fun _ => 0) 0x20400000 [1; 2; 3] = Some m' /\
    copy_from_user m' 0x20400000 3 = Some [1; 2; 3].
Proof.
  destruct (copy_to_user_confined (fun _ => 0) 0x20400000 [1; 2; 3]) as [_ H]; [done..|].
  eexists. split; [reflexivity|]. exact (proj1 (H _ eq_refl)).
Defined.

(** [copy_user_cstr] gives the string stored at the address exactly when it
    ends within the buffer and within user space; a null address is the empty
    string, and everything else is refused. *)
Theorem copy_user_cstr_exact (m : mem) (sz src : Z) (s : list Z)
    (Hsz : 1 < sz < 2 ^ 31) (Hsrc : 0 < src < 2 ^ 62) :
  copy_user_cstr m sz 0 = Some [] /\
  (copy_user_cstr m sz src = Some s <->
   cstr m src s /\ Z.of_nat (length s) < sz - 1 /\
   USER_MIN_ADDR <= src /\ src + Z.of_nat (length s) < USER_MAX_ADDR).
Proof.
  unfold copy_user_cstr. destruct (Z.leb_spec sz 1); [lia|]. split; [done|].
  destruct (Z.eqb_spec src 0); [lia|]. rewrite cstr_loop_spec by lia. rewrite Z.add_0_r.
  split; intros (H1 & H2 & H3 & H4); split_all; try done; lia.
Qed.

Lemma copy_user_cstr_exact_witness :
  let m := store_bytes (fun _ => 1) 0x400000 (str "/bin/sh" ++ [0]) in
  copy_user_cstr m 8 0x400000 = None /\ copy_user_cstr m 9 0x400000 = Some (str "/bin/sh").
Proof.
  intros m. split; [vm_compute; reflexivity|].
  apply (copy_user_cstr_exact m 9 0x400000 (str "/bin/sh")); [lia..|].
  unfold m. split; [|vm_compute; done]. apply cstr_store.
  apply Forall_forall. intros c Hc. repeat (apply elem_of_cons in Hc as [->|Hc]; [done|]). by apply elem_of_nil in Hc.
Defined.
