(* ===== verification/Sched.v ===== *)
(** * The scheduler ([src/src/sys/scheduler.c], [src/include/sys/scheduler.h])

    Per-CPU run queues, doubly linked through the task structures. A task pointer
    is the index of the task ([0..63] in [g_tasks], [64 + i] for [g_idle_tasks[i]]),
    [None] the null pointer. Of [task_struct] this file has the fields that belong
    to the scheduler; [Process.v] has the others, so that each side's functions
    visibly leave the other side's fields alone. The run-queue lock is taken with
    interrupts disabled around every function here: each is one atomic step. *)

From S2P Require Import Prelude Dll.

Definition SCHED_MAX_CPUS : Z := 8.
Definition PROC_MAX_TASKS : Z := 64.

Inductive task_state :=
  | TASK_UNUSED | TASK_RUNNABLE | TASK_RUNNING | TASK_BLOCKED | TASK_ZOMBIE.

#[export] Instance task_state_eq_dec : EqDecision task_state.
Proof. solve_decision. Defined.

Record sched_ent := {
  state : task_state;
  need_resched : bool;
  on_runqueue : bool;
  is_idle : bool;
  assigned_cpu : Z;
  rq_prev : option Z;
  rq_next : option Z
}.

Record scheduler_cpu := {
  current : option Z;
  idle : option Z;
  rq_head : option Z;
  rq_tail : option Z
}.

Record sched := {
  ents : Z -> sched_ent;
  cpus : Z -> scheduler_cpu;
  local_cpu : Z;
  ready : bool;
  total_ticks : Z;
  idle_ticks : Z
}.

(** ** Field stores *)

Definition set_state (st : task_state) (e : sched_ent) : sched_ent :=
  {| state := st; need_resched := need_resched e; on_runqueue := on_runqueue e; is_idle := is_idle e;
     assigned_cpu := assigned_cpu e; rq_prev := rq_prev e; rq_next := rq_next e |}.
Definition set_resched (b : bool) (e : sched_ent) : sched_ent :=
  {| state := state e; need_resched := b; on_runqueue := on_runqueue e; is_idle := is_idle e;
     assigned_cpu := assigned_cpu e; rq_prev := rq_prev e; rq_next := rq_next e |}.
Definition set_cpu (c : Z) (e : sched_ent) : sched_ent :=
  {| state := state e; need_resched := need_resched e; on_runqueue := on_runqueue e; is_idle := is_idle e;
     assigned_cpu := c; rq_prev := rq_prev e; rq_next := rq_next e |}.
Definition set_prev (p : option Z) (e : sched_ent) : sched_ent :=
  {| state := state e; need_resched := need_resched e; on_runqueue := on_runqueue e; is_idle := is_idle e;
     assigned_cpu := assigned_cpu e; rq_prev := p; rq_next := rq_next e |}.
Definition set_next (n : option Z) (e : sched_ent) : sched_ent :=
  {| state := state e; need_resched := need_resched e; on_runqueue := on_runqueue e; is_idle := is_idle e;
     assigned_cpu := assigned_cpu e; rq_prev := rq_prev e; rq_next := n |}.
Definition set_links (on : bool) (p n : option Z) (e : sched_ent) : sched_ent :=
  {| state := state e; need_resched := need_resched e; on_runqueue := on; is_idle := is_idle e;
     assigned_cpu := assigned_cpu e; rq_prev := p; rq_next := n |}.

Definition with_head (h : option Z) (k : scheduler_cpu) : scheduler_cpu :=
  {| current := current k; idle := idle k; rq_head := h; rq_tail := rq_tail k |}.
Definition with_tail (t : option Z) (k : scheduler_cpu) : scheduler_cpu :=
  {| current := current k; idle := idle k; rq_head := rq_head k; rq_tail := t |}.
Definition with_current (t : option Z) (k : scheduler_cpu) : scheduler_cpu :=
  {| current := t; idle := idle k; rq_head := rq_head k; rq_tail := rq_tail k |}.

Definition put (t : Z) (f : sched_ent -> sched_ent) (s : sched) : sched :=
  {| ents := <[t := f (ents s t)]> (ents s); cpus := cpus s; local_cpu := local_cpu s;
     ready := ready s; total_ticks := total_ticks s; idle_ticks := idle_ticks s |}.
Definition put_cpu (c : Z) (f : scheduler_cpu -> scheduler_cpu) (s : sched) : sched :=
  {| ents := ents s; cpus := <[c := f (cpus s c)]> (cpus s); local_cpu := local_cpu s;
     ready := ready s; total_ticks := total_ticks s; idle_ticks := idle_ticks s |}.

Definition cpu_by_id (id : Z) : Z := if SCHED_MAX_CPUS <=? id then 0 else id.

Definition scheduler_set_cpu_id (s : sched) (id : Z) : sched :=
  {| ents := ents s; cpus := cpus s; local_cpu := if SCHED_MAX_CPUS <=? id then 0 else id;
     ready := ready s; total_ticks := total_ticks s; idle_ticks := idle_ticks s |}.

Definition scheduler_cpu_id (s : sched) : Z :=
  if SCHED_MAX_CPUS <=? local_cpu s then 0 else local_cpu s.

(** [None] while the scheduler is not initialised. *)
Definition scheduler_cpu_local (s : sched) : option Z :=
  if ready s then Some (cpu_by_id (scheduler_cpu_id s)) else None.

Definition idle_task (i : Z) : Z := PROC_MAX_TASKS + i.

Definition scheduler_current_task (s : sched) : Z :=
  match scheduler_cpu_local s with
  | None => idle_task 0
  | Some c =>
      match current (cpus s c) with
      | Some t => t
      | None => match idle (cpus s c) with Some t => t | None => idle_task 0 end
      end
  end.

(** ** Run queues *)

Definition rq_pop_head_locked (s : sched) (c : Z) : sched * option Z :=
  match rq_head (cpus s c) with
  | None => (s, None)
  | Some t =>
      let h := rq_next (ents s t) in
      let s := put_cpu c (with_head h) s in
      let s := match h with
               | Some n => put n (set_prev None) s
               | None => put_cpu c (with_tail None) s
               end in
      (put t (set_links false None None) s, Some t)
  end.

Definition rq_push_tail_locked (s : sched) (c t : Z) : sched :=
  if on_runqueue (ents s t) then s
  else
    let s := put t (set_prev (rq_tail (cpus s c))) s in
    let s := put t (set_next None) s in
    let s := match rq_tail (cpus s c) with
             | Some p => put p (set_next (Some t)) s
             | None => put_cpu c (with_head (Some t)) s
             end in
    let s := put_cpu c (with_tail (Some t)) s in
    put t (fun e => set_links true (rq_prev e) (rq_next e) e) s.

Definition rq_remove_locked (s : sched) (c t : Z) : sched :=
  if negb (on_runqueue (ents s t)) then s
  else
    let s := match rq_prev (ents s t) with
             | Some p => put p (set_next (rq_next (ents s t))) s
             | None => put_cpu c (with_head (rq_next (ents s t))) s
             end in
    let s := match rq_next (ents s t) with
             | Some n => put n (set_prev (rq_prev (ents s t))) s
             | None => put_cpu c (with_tail (rq_prev (ents s t))) s
             end in
    put t (set_links false None None) s.

(** The popping loop; a queue holds at most the 64 tasks of the table. *)
Fixpoint pick_loop (fuel : nat) (s : sched) (c : Z) : sched * option Z :=
  match fuel with
  | O => (s, None)
  | S f =>
      let '(s, t) := rq_pop_head_locked s c in
      match t with
      | None => (s, idle (cpus s c))
      | Some t =>
          if bool_decide (state (ents s t) = TASK_RUNNABLE) then (s, Some t) else pick_loop f s c
      end
  end.

Definition pick_next_runnable_locked (s : sched) (c : Z) : sched * option Z :=
  pick_loop (S (Z.to_nat PROC_MAX_TASKS)) s c.

(** ** Operations *)

Definition idle_ent (i : Z) (e : sched_ent) : sched_ent :=
  {| state := TASK_RUNNING; need_resched := need_resched e; on_runqueue := false; is_idle := true;
     assigned_cpu := i; rq_prev := None; rq_next := None |}.

Fixpoint init_cpus (n : nat) (s : sched) : sched :=
  match n with
  | O => s
  | S m =>
      let i := Z.of_nat m in
      let s := init_cpus m s in
      let s := put (idle_task i) (idle_ent i) s in
      put_cpu i (fun _ => {| current := Some (idle_task i); idle := Some (idle_task i);
                             rq_head := None; rq_tail := None |}) s
  end.

Definition scheduler_init (s : sched) : sched :=
  if ready s then s
  else
    let s := init_cpus (Z.to_nat SCHED_MAX_CPUS) s in
    {| ents := ents s; cpus := cpus s; local_cpu := 0; ready := true;
       total_ticks := total_ticks s; idle_ticks := idle_ticks s |}.

Definition scheduler_set_boot_current (s : sched) (t : Z) : sched :=
  match scheduler_cpu_local s with
  | None => s
  | Some c =>
      let s := if on_runqueue (ents s t) then rq_remove_locked s c t else s in
      let s := put t (set_cpu (scheduler_cpu_id s)) s in
      let s := put t (set_state TASK_RUNNING) s in
      put_cpu c (with_current (Some t)) s
  end.

Definition scheduler_task_make_runnable (s : sched) (t cpu_id : Z) : sched :=
  if is_idle (ents s t) then s
  else
    let cpu_id := if SCHED_MAX_CPUS <=? cpu_id then 0 else cpu_id in
    let old := if 0 <=? assigned_cpu (ents s t) then assigned_cpu (ents s t) else cpu_id in
    let s := if on_runqueue (ents s t) && negb (old =? cpu_id)
             then rq_remove_locked s (cpu_by_id old) t else s in
    let c := cpu_by_id cpu_id in
    let s := put t (set_cpu cpu_id) s in
    let s := if on_runqueue (ents s t) then rq_remove_locked s c t else s in
    let s := put t (set_state TASK_RUNNABLE) s in
    rq_push_tail_locked s c t.

(** The common body of [scheduler_task_set_blocked], [_zombie], [_unused] and
    [_running]: off the queue, then the new state; [acpu] is the value stored in
    [assigned_cpu]. *)
Definition leave_runqueue (st : task_state) (acpu : Z -> Z) (s : sched) (t : Z) : sched :=
  if is_idle (ents s t) then s
  else
    let cpu_id := if 0 <=? assigned_cpu (ents s t) then assigned_cpu (ents s t)
                  else scheduler_cpu_id s in
    let c := cpu_by_id cpu_id in
    let s := if on_runqueue (ents s t) then rq_remove_locked s c t else s in
    let s := put t (set_cpu (acpu cpu_id)) s in
    put t (set_state st) s.

Definition scheduler_task_set_blocked := leave_runqueue TASK_BLOCKED (fun c => c).
Definition scheduler_task_set_zombie := leave_runqueue TASK_ZOMBIE (fun c => c).
Definition scheduler_task_set_unused := leave_runqueue TASK_UNUSED (fun _ => -1).
Definition scheduler_task_set_running := leave_runqueue TASK_RUNNING (fun c => c).

(** The pair is the context switch performed at the end, if any. *)
Definition schedule_common (tick_mode : bool) (s : sched) : sched * option (Z * Z) :=
  match scheduler_cpu_local s with
  | None => (s, None)
  | Some c =>
      let k := cpus s c in
      match (match current k with Some t => Some t | None => idle k end) with
      | None => (s, None)
      | Some prev =>
          let e := ents s prev in
          let s :=
            if negb (is_idle e) then
              if tick_mode then
                if bool_decide (state e = TASK_RUNNING) || bool_decide (state e = TASK_RUNNABLE)
                then rq_push_tail_locked (put prev (set_state TASK_RUNNABLE) s) c prev else s
              else if bool_decide (state e = TASK_RUNNING)
              then rq_push_tail_locked (put prev (set_state TASK_RUNNABLE) s) c prev else s
            else s in
          let '(s, next) := pick_next_runnable_locked s c in
          let s := match next with
                   | Some n =>
                       if negb (is_idle (ents s n)) then
                         let s := put n (set_cpu (scheduler_cpu_id s)) s in
                         let s := put n (set_state TASK_RUNNING) s in
                         put n (set_resched false) s
                       else s
                   | None => s
                   end in
          let cur := match next with Some n => Some n | None => idle (cpus s c) end in
          let s := put_cpu c (with_current cur) s in
          (s, match cur with
              | Some n => if n =? prev then None else Some (prev, n)
              | None => None
              end)
      end
  end.

Definition scheduler_yield (s : sched) : sched := fst (schedule_common false s).

Definition scheduler_tick (s : sched) : sched :=
  match scheduler_cpu_local s with
  | None => s
  | Some c =>
      match (match current (cpus s c) with Some t => Some t | None => idle (cpus s c) end) with
      | None => s
      | Some t =>
          let e := ents s t in
          let s := {| ents := ents s; cpus := cpus s; local_cpu := local_cpu s; ready := ready s;
                      total_ticks := u64 (total_ticks s + 1);
                      idle_ticks := if is_idle e then u64 (idle_ticks s + 1) else idle_ticks s |} in
          if negb (is_idle e) && bool_decide (state e = TASK_RUNNING)
          then put t (set_resched true) s else s
      end
  end.

(** The processor a caller of [scheduler_task_make_runnable] asks for. *)
Definition wake_cpu (s : sched) (t : Z) : Z :=
  if 0 <=? assigned_cpu (ents s t) then assigned_cpu (ents s t) else scheduler_cpu_id s.

(** What [memset] of a dead task structure does to the fields of this file. *)
Definition zero_ent : sched_ent :=
  {| state := TASK_UNUSED; need_resched := false; on_runqueue := false; is_idle := false;
     assigned_cpu := 0; rq_prev := None; rq_next := None |}.
Definition sched_clear (s : sched) (t : Z) : sched := put t (fun _ => zero_ent) s.

(** ** The run queue of a processor is a list *)

Definition rq_ok (s : sched) (c : Z) (l : list Z) : Prop :=
  NoDup l /\ rq_head (cpus s c) = head l /\ rq_tail (cpus s c) = last l /\
  dseg (fun t => rq_prev (ents s t)) (fun t => rq_next (ents s t)) l.

(** Field-wise effect of the two queue operations. *)
Definition with_ends (h t : option Z) (k : scheduler_cpu) : scheduler_cpu :=
  {| current := current k; idle := idle k; rq_head := h; rq_tail := t |}.

Definition same_clock (s s' : sched) : Prop :=
  local_cpu s' = local_cpu s /\ ready s' = ready s /\
  total_ticks s' = total_ticks s /\ idle_ticks s' = idle_ticks s.

Lemma set_links_self e : set_links (on_runqueue e) (rq_prev e) (rq_next e) e = e.
Proof. by destruct e. Qed.

(** Case analysis on every field store that is read in the goal. *)
Ltac reads := intros; simpl; rewrite ?upd_case; repeat (case_decide; simplify_eq/=; rewrite ?upd_case); try done.

Lemma rq_remove_reads s c t :
  on_runqueue (ents s t) = true -> rq_prev (ents s t) <> Some t -> rq_next (ents s t) <> Some t ->
  let s' := rq_remove_locked s c t in
  let p := rq_prev (ents s t) in let n := rq_next (ents s t) in
  (forall u, ents s' u =
     if decide (u = t) then set_links false None None (ents s t)
     else set_links (on_runqueue (ents s u))
            (if decide (n = Some u) then p else rq_prev (ents s u))
            (if decide (p = Some u) then n else rq_next (ents s u)) (ents s u)) /\
  (forall d, cpus s' d =
     if decide (d = c)
     then with_ends (if p is Some _ then rq_head (cpus s c) else n) (if n is Some _ then rq_tail (cpus s c) else p) (cpus s c)
     else cpus s d) /\ same_clock s s'.
Proof.
  intros On Hp Hn. unfold rq_remove_locked. rewrite On. simpl.
  destruct (rq_prev (ents s t)) as [p|] eqn:Ep; simpl; rewrite ?upd_ne, ?Ep by congruence;
    destruct (rq_next (ents s t)) as [n|] eqn:En; simpl.
  all: split; [intros u | split; [intros d | done]].
  all: rewrite ?upd_case; repeat (case_decide; simplify_eq/=; rewrite ?upd_case); try done.
  all: try (by destruct (ents s u)); try (by destruct (cpus s c)).
  all: destruct (ents s u) eqn:Eu; simplify_eq/=; rewrite ?Ep, ?En; try done.
Qed.
Lemma rq_push_reads s c t :
  on_runqueue (ents s t) = false -> rq_tail (cpus s c) <> Some t ->
  let s' := rq_push_tail_locked s c t in
  let p := rq_tail (cpus s c) in
  (forall u, ents s' u =
     if decide (u = t) then set_links true p None (ents s t)
     else set_links (on_runqueue (ents s u)) (rq_prev (ents s u))
            (if decide (p = Some u) then Some t else rq_next (ents s u)) (ents s u)) /\
  (forall d, cpus s' d =
     if decide (d = c) then with_ends (if p is Some _ then rq_head (cpus s c) else Some t) (Some t) (cpus s c)
     else cpus s d) /\ same_clock s s'.
Proof.
  intros On Hp. unfold rq_push_tail_locked. rewrite On. simpl.
  destruct (rq_tail (cpus s c)) as [p|] eqn:Ep; simpl.
  all: split; [intros u | split; [intros d | done]].
  all: rewrite ?upd_case; repeat (case_decide; simplify_eq/=; rewrite ?upd_case); try done.
  all: try (by destruct (ents s u)); try (by destruct (cpus s c)).
  all: destruct (ents s u) eqn:Eu; simplify_eq/=; rewrite ?Ep, ?En; try done.
Qed.
Lemma rq_remove_ok s c t a b :
  rq_ok s c (a ++ t :: b) -> on_runqueue (ents s t) = true ->
  rq_ok (rq_remove_locked s c t) c (a ++ b).
Proof.
  intros (ND & Hh & Ht & D) On.
  destruct (D a t b eq_refl) as [P N]. simpl in P, N.
  pose proof ND as (NDa & Hab & [Hb NDb]%NoDup_cons)%NoDup_app.
  destruct (rq_remove_reads s c t On) as (HE & HC & _).
  { rewrite P. intros ?%last_elem. set_solver. }
  { rewrite N. intros ?%head_elem. set_solver. }
  split; [apply NoDup_app; set_solver|].
  rewrite HC, decide_True by done. simpl. rewrite P, N.
  split; [|split].
  - destruct (last a) eqn:E; [|apply last_None in E as ->; done].
    rewrite Hh. by destruct a.
  - destruct b as [|n b]; [by rewrite app_nil_r|].
    simpl. rewrite Ht. rewrite !last_app_ne by done. by rewrite last_cons_ne.
  - eapply (dseg_unlink _ _ _ _ a t b); [done | exact D | |]; intros y Hy; simpl;
      rewrite HE, decide_False by set_solver; simpl; by rewrite P, N.
Qed.

Lemma rq_push_ok s c t l :
  rq_ok s c l -> on_runqueue (ents s t) = false -> t ∉ l ->
  rq_ok (rq_push_tail_locked s c t) c (l ++ [t]).
Proof.
  intros (ND & Hh & Ht & D) On Hl.
  destruct (rq_push_reads s c t On) as (HE & HC & _).
  { rewrite Ht. intros ?%last_elem. done. }
  split; [apply NoDup_app; split_all; [done | set_solver | apply NoDup_singleton]|].
  rewrite HC, decide_True by done. simpl. rewrite Ht, last_snoc.
  split; [|split; [done|]].
  - destruct (last l) eqn:E; [|apply last_None in E as ->; done].
    rewrite Hh. by destruct l.
  - eapply dseg_push_tail; [done | done | exact D | | | |]; simpl.
    1,2: by rewrite HE, decide_True, ?Ht by done.
    all: intros y Hy; rewrite HE, decide_False by set_solver; simpl; by rewrite ?Ht.
Qed.

(** Popping the head is removing it. *)
Lemma rq_pop_remove s c t l :
  rq_ok s c (t :: l) -> on_runqueue (ents s t) = true ->
  rq_pop_head_locked s c = (rq_remove_locked s c t, Some t).
Proof.
  intros (ND & Hh & Ht & D) On. destruct (D [] t l eq_refl) as [P N]. simpl in *.
  unfold rq_pop_head_locked, rq_remove_locked. rewrite Hh, On, P. simpl. by rewrite N, P.
Qed.

Lemma rq_pop_empty s c : rq_ok s c [] -> rq_pop_head_locked s c = (s, None).
Proof. intros (_ & Hh & _). unfold rq_pop_head_locked. by rewrite Hh. Qed.

(** The queue only depends on the ends and on the links of its members. *)
Lemma rq_ok_frame s s' c l :
  rq_ok s c l -> rq_head (cpus s' c) = rq_head (cpus s c) -> rq_tail (cpus s' c) = rq_tail (cpus s c) ->
  (forall u, u ∈ l -> rq_prev (ents s' u) = rq_prev (ents s u) /\ rq_next (ents s' u) = rq_next (ents s u)) ->
  rq_ok s' c l.
Proof.
  intros (ND & Hh & Ht & D) Eh Et EL. split; [done|]. rewrite Eh, Et.
  split; [done|]. split; [done|]. eapply dseg_ext; [exact D | exact EL].
Qed.

(** What the queue operations leave alone. *)
Definition frame (s s' : sched) : Prop :=
  (forall u, state (ents s' u) = state (ents s u) /\ need_resched (ents s' u) = need_resched (ents s u) /\
     is_idle (ents s' u) = is_idle (ents s u) /\ assigned_cpu (ents s' u) = assigned_cpu (ents s u)) /\
  (forall d, current (cpus s' d) = current (cpus s d) /\ idle (cpus s' d) = idle (cpus s d)) /\
  same_clock s s'.

Lemma frame_refl s : frame s s.
Proof. repeat split. Qed.

(** The effect on all queues at once: [l] becomes [l'] on [c], [t] joins or
    leaves, and every queue without members of [l] stays. *)
Definition rq_step (s s' : sched) (c t : Z) (on : bool) (l l' : list Z) : Prop :=
  frame s s' /\ (forall u, on_runqueue (ents s' u) = if decide (u = t) then on else on_runqueue (ents s u)) /\
  rq_ok s' c l' /\
  forall d k, d <> c -> (forall u, u ∈ k -> u <> t /\ u ∉ l) -> rq_ok s d k -> rq_ok s' d k.

Lemma rq_remove_step s c t a b :
  rq_ok s c (a ++ t :: b) -> on_runqueue (ents s t) = true ->
  rq_step s (rq_remove_locked s c t) c t false (a ++ t :: b) (a ++ b).
Proof.
  intros R On. pose proof (rq_remove_ok s c t a b R On) as R'.
  destruct R as (ND & _ & _ & D). destruct (D a t b eq_refl) as [P N]. simpl in P, N.
  pose proof ND as (NDa & Hab & [Hb NDb]%NoDup_cons)%NoDup_app.
  destruct (rq_remove_reads s c t On) as (HE & HC & HK).
  { rewrite P. intros ?%last_elem. set_solver. }
  { rewrite N. intros ?%head_elem. set_solver. }
  split; [split; [|split; [|done]]|split; [|split; [done|]]].
  - intros u. rewrite HE. case_decide; subst; done.
  - intros d. rewrite HC. case_decide; subst; done.
  - intros u. rewrite HE. case_decide; subst; done.
  - intros d k Hd Hk Rk. apply (rq_ok_frame s); [done|by rewrite HC, decide_False..|].
    intros u Hu. destruct (Hk u Hu) as [? Hul]. rewrite HE, decide_False by done. simpl.
    rewrite P, N, !decide_False; [done| |].
    + intros ?%last_elem. set_solver.
    + intros ?%head_elem. set_solver.
Qed.

Lemma rq_push_step s c t l :
  rq_ok s c l -> on_runqueue (ents s t) = false -> t ∉ l ->
  rq_step s (rq_push_tail_locked s c t) c t true l (l ++ [t]).
Proof.
  intros R On Hl. pose proof (rq_push_ok s c t l R On Hl) as R'.
  destruct R as (ND & _ & Ht & D).
  destruct (rq_push_reads s c t On) as (HE & HC & HK).
  { rewrite Ht. intros ?%last_elem. done. }
  split; [split; [|split; [|done]]|split; [|split; [done|]]].
  - intros u. rewrite HE. case_decide; subst; done.
  - intros d. rewrite HC. case_decide; subst; done.
  - intros u. rewrite HE. case_decide; subst; done.
  - intros d k Hd Hk Rk. apply (rq_ok_frame s); [done|by rewrite HC, decide_False..|].
    intros u Hu. destruct (Hk u Hu) as [? Hul]. rewrite HE, decide_False by done. simpl.
    rewrite Ht, decide_False; [done|]. intros ?%last_elem. set_solver.
Qed.

(** ** The scheduler invariant

    [Q c] is the queue of processor [c]. The task [x] is exempt from the clauses
    that tie the state to the queues: it is the task an operation has in hand
    ([-1]: no task is). These are the checks of [sched_invariant_check]. *)

Record sched_inv (x : Z) (s : sched) (Q : Z -> list Z) : Prop := {
  so_ready : ready s = true;
  so_local : 0 <= local_cpu s < 8;
  so_queue c : 0 <= c < 8 -> rq_ok s c (Q c);
  so_out c : ~ 0 <= c < 8 -> Q c = [];
  so_mem c t : t ∈ Q c ->
    on_runqueue (ents s t) = true /\ state (ents s t) = TASK_RUNNABLE /\
    assigned_cpu (ents s t) = c /\ 0 <= t < 64;
  so_on t : on_runqueue (ents s t) = true -> t ∈ Q (assigned_cpu (ents s t));
  so_idle i : 0 <= i < 8 ->
    is_idle (ents s (64 + i)) = true /\ idle (cpus s i) = Some (64 + i);
  so_task t : 0 <= t < 64 -> is_idle (ents s t) = false /\ -1 <= assigned_cpu (ents s t) < 8;
  so_runnable t : t <> x -> 0 <= t < 64 -> state (ents s t) = TASK_RUNNABLE ->
    on_runqueue (ents s t) = true;
  so_running t : t <> x -> 0 <= t < 64 -> state (ents s t) = TASK_RUNNING ->
    current (cpus s (local_cpu s)) = Some t /\ assigned_cpu (ents s t) = local_cpu s;
  so_current : exists t, current (cpus s (local_cpu s)) = Some t /\ (t = 64 + local_cpu s \/ 0 <= t < 64);
  so_other c : 0 <= c < 8 -> c <> local_cpu s -> current (cpus s c) = Some (64 + c)
}.

Definition qdel (t : Z) (Q : Z -> list Z) : Z -> list Z := fun c => del t (Q c).
Definition qadd (c t : Z) (Q : Z -> list Z) : Z -> list Z := <[c := Q c ++ [t]]> Q.

Lemma so_cpu x s Q t : sched_inv x s Q -> on_runqueue (ents s t) = true ->
  0 <= assigned_cpu (ents s t) < 8 /\ 0 <= t < 64.
Proof.
  intros I On. pose proof (so_on _ _ _ I t On) as H.
  split; [|by destruct (so_mem _ _ _ I _ _ H) as (_ & _ & _ & ?)].
  destruct (decide (0 <= assigned_cpu (ents s t) < 8)) as [|N]; [done|].
  rewrite (so_out _ _ _ I _ N) in H. by apply not_elem_of_nil in H.
Qed.

Lemma qdel_off x s Q t c : sched_inv x s Q -> on_runqueue (ents s t) = false -> qdel t Q c = Q c.
Proof.
  intros I Off. apply del_notin. intros H. destruct (so_mem _ _ _ I _ _ H). congruence.
Qed.

(** A queue step on [c] carries the invariant over to the changed queues; the
    moving task is the exempt one. *)
Lemma inv_rq_step s s' x Q Q' c t on l' :
  sched_inv x s Q -> x = -1 \/ x = t -> 0 <= c < 8 -> 0 <= t < 64 ->
  rq_step s s' c t on (Q c) l' ->
  Q' c = l' -> (forall d, d <> c -> Q' d = Q d) -> (forall d, d <> c -> t ∉ Q d) ->
  (forall u, u ∈ l' <-> (if on then u = t \/ u ∈ Q c else u <> t /\ u ∈ Q c)) ->
  (on = true -> state (ents s t) = TASK_RUNNABLE /\ assigned_cpu (ents s t) = c) ->
  sched_inv t s' Q'.
Proof.
  intros I Hx Hc Ht ((HE & HC & HL & HR & HK1 & HK2) & HO & HQ & HF) EQ EQ' HN HM HS.
  assert (Hmem : forall d u, u ∈ Q' d <-> (if on then u = t /\ d = c \/ u ∈ Q d else u <> t /\ u ∈ Q d)).
  { intros d u. destruct (decide (d = c)) as [->|Hd].
    - rewrite EQ, HM. destruct on; naive_solver.
    - rewrite EQ' by done. destruct on; [naive_solver|]. specialize (HN d Hd). naive_solver. }
  destruct I as [I1 I2 I3 I4 I5 I6 I7 I8 I9 I10 [cur I11] I12].
  constructor; rewrite ?HR, ?HL; try done.
  - intros d Hd. destruct (decide (d = c)) as [->|Hdc]; [by rewrite EQ|].
    rewrite EQ' by done. apply HF; [done| |by apply I3].
    intros u Hu. split; [by intros ->; eapply HN|]. intros Hu2. apply Hdc.
    destruct (I5 _ _ Hu) as (_ & _ & <- & _), (I5 _ _ Hu2) as (_ & _ & <- & _). done.
  - intros d Hd. rewrite EQ' by (intros ->; done). by apply I4.
  - intros d u Hu. rewrite HO. destruct (HE u) as (-> & _ & _ & ->). apply Hmem in Hu. destruct on.
    + destruct Hu as [[-> ->]|Hu]; [rewrite decide_True by done; naive_solver|].
      destruct (I5 _ _ Hu) as (? & ? & ? & ?). by case_decide.
    + destruct Hu as [? Hu]. rewrite decide_False by done. auto.
  - intros u. rewrite HO. destruct (HE u) as (_ & _ & _ & ->). rewrite Hmem. intros Hu.
    destruct on; case_decide; subst; auto; try done; naive_solver.
  - intros i Hi. destruct (HE (64 + i)) as (_ & _ & -> & _), (HC i) as [_ ->]. auto.
  - intros u Hu. destruct (HE u) as (_ & _ & -> & ->). auto.
  - intros u Hu Hr. rewrite HO, decide_False by done. destruct (HE u) as (-> & _).
    apply I9; [|done]. destruct Hx; [lia | congruence].
  - intros u Hu Hr. destruct (HE u) as (-> & _ & _ & ->), (HC (local_cpu s)) as [-> _].
    apply I10; [|done]. destruct Hx; [lia | congruence].
  - exists cur. by destruct (HC (local_cpu s)) as [-> _].
  - intros d. destruct (HC d) as [-> _]. apply I12.
Qed.

(** Taking [t] off its queue. *)
Lemma inv_drop s Q t c :
  sched_inv (-1) s Q -> 0 <= t < 64 ->
  (on_runqueue (ents s t) = true -> c = assigned_cpu (ents s t)) ->
  let s1 := if on_runqueue (ents s t) then rq_remove_locked s c t else s in
  sched_inv t s1 (qdel t Q) /\ on_runqueue (ents s1 t) = false /\ frame s s1.
Proof.
  intros I Ht Hc. destruct (on_runqueue (ents s t)) eqn:On; simpl.
  - pose proof (so_on _ _ _ I t On) as Hin. rewrite <- Hc in Hin by done.
    destruct (so_cpu _ _ _ _ I On) as [Hr _]. rewrite <- Hc in Hr by done.
    pose proof (so_queue _ _ _ I c Hr) as R.
    apply list_elem_of_split in Hin as (a & b & E). rewrite E in R.
    pose proof (rq_remove_step s c t a b R On) as S.
    split; [|destruct S as (F & HO & _); by rewrite HO, decide_True].
    assert (HN : forall d, d <> c -> t ∉ Q d).
    { intros d Hd H. destruct (so_mem _ _ _ I _ _ H) as (_ & _ & E' & _). rewrite Hc in Hd; congruence. }
    assert (Ed : del t (Q c) = a ++ b) by (rewrite E; apply del_split; by destruct R).
    rewrite <- E in S. eapply (inv_rq_step s _ (-1) Q _ c t false); eauto.
    + intros d Hd. apply del_notin, HN, Hd.
    + intros u. rewrite <- Ed, elem_of_del. done.
    + done.
  - split; [|split; [done | apply frame_refl]].
    assert (E : forall d, qdel t Q d = Q d) by (intros; by eapply qdel_off).
    destruct I. constructor; try setoid_rewrite E; auto.
    + intros u _ Hu. apply so_runnable0; lia.
    + intros u _ Hu. apply so_running0; lia.
Qed.

(** Storing fields of the task in hand while it is off every queue. *)
Lemma inv_put s Q t f :
  sched_inv t s Q -> 0 <= t < 64 -> on_runqueue (ents s t) = false ->
  on_runqueue (f (ents s t)) = false -> is_idle (f (ents s t)) = false ->
  -1 <= assigned_cpu (f (ents s t)) < 8 ->
  sched_inv t (put t f s) Q.
Proof.
  intros I Ht Off F1 F2 F3.
  assert (HN : forall d u, u ∈ Q d -> t <> u).
  { intros d u Hu ->. destruct (so_mem _ _ _ I _ _ Hu). congruence. }
  destruct I. constructor; simpl; try done.
  - intros c Hc. apply (rq_ok_frame s); auto. intros u Hu. simpl. rewrite upd_ne by eauto. done.
  - intros c u Hu. rewrite upd_ne by eauto. auto.
  - intros u. rewrite upd_case. case_decide; [congruence | auto].
  - intros i Hi. rewrite upd_ne by lia. auto.
  - intros u Hu. rewrite upd_case. case_decide; [done | auto].
  - intros u Hu. rewrite upd_ne by done. auto.
  - intros u Hu. rewrite upd_ne by done. auto.
Qed.

(** Putting the task in hand on a queue. *)
Lemma inv_push s Q t c :
  sched_inv t s Q -> 0 <= t < 64 -> 0 <= c < 8 -> on_runqueue (ents s t) = false ->
  state (ents s t) = TASK_RUNNABLE -> assigned_cpu (ents s t) = c ->
  sched_inv (-1) (rq_push_tail_locked s c t) (qadd c t Q) /\ frame s (rq_push_tail_locked s c t).
Proof.
  intros I Ht Hc Off R A.
  assert (HN : forall d, t ∉ Q d) by (intros d H; destruct (so_mem _ _ _ I _ _ H); congruence).
  pose proof (rq_push_step s c t (Q c) (so_queue _ _ _ I c Hc) Off (HN c)) as S.
  assert (I' : sched_inv t (rq_push_tail_locked s c t) (qadd c t Q)).
  { unfold qadd. eapply (inv_rq_step s _ t Q _ c t true); eauto.
    - apply upd_eq.
    - intros d Hd. by apply upd_ne.
    - intros u. set_solver. }
  split; [|apply S]. destruct S as (F & HO & _).
  assert (Ron : on_runqueue (ents (rq_push_tail_locked s c t) t) = true) by (rewrite HO; by case_decide).
  destruct F as (FE & _). destruct (FE t) as (FS & _).
  destruct I'. constructor; auto.
  - intros u _ Hu Hr. destruct (decide (u = t)) as [->|]; auto.
  - intros u _ Hu Hr. destruct (decide (u = t)) as [->|]; [congruence | auto].
Qed.

(** Letting go of the task in hand. *)
Lemma inv_close s Q t :
  sched_inv t s Q ->
  (state (ents s t) = TASK_RUNNABLE -> on_runqueue (ents s t) = true) ->
  (state (ents s t) = TASK_RUNNING ->
   current (cpus s (local_cpu s)) = Some t /\ assigned_cpu (ents s t) = local_cpu s) ->
  sched_inv (-1) s Q.
Proof.
  intros I H1 H2. destruct I. constructor; auto.
  - intros u _ Hu Hr. destruct (decide (u = t)) as [->|]; auto.
  - intros u _ Hu Hr. destruct (decide (u = t)) as [->|]; auto.
Qed.

Lemma frame_trans s1 s2 s3 : frame s1 s2 -> frame s2 s3 -> frame s1 s3.
Proof.
  intros (A1 & B1 & C1) (A2 & B2 & C2). split; [|split].
  - intros u. destruct (A1 u) as (? & ? & ? & ?), (A2 u) as (? & ? & ? & ?). repeat split; congruence.
  - intros d. destruct (B1 d), (B2 d). split; congruence.
  - destruct C1 as (? & ? & ? & ?), C2 as (? & ? & ? & ?). repeat split; congruence.
Qed.

(** ** Waking and putting to sleep *)

Definition clip_cpu (c : Z) : Z := if SCHED_MAX_CPUS <=? c then 0 else c.

Lemma clip_cpu_range c : 0 <= c -> 0 <= clip_cpu c < 8.
Proof. unfold clip_cpu, SCHED_MAX_CPUS. ztest; lia. Qed.

Lemma cpu_by_id_small c : 0 <= c < 8 -> cpu_by_id c = c.
Proof. unfold cpu_by_id, SCHED_MAX_CPUS. ztest; lia. Qed.

Lemma local_small x s Q : sched_inv x s Q ->
  scheduler_cpu_id s = local_cpu s /\ scheduler_cpu_local s = Some (local_cpu s).
Proof.
  intros I. destruct (so_local _ _ _ I). unfold scheduler_cpu_local, scheduler_cpu_id, SCHED_MAX_CPUS.
  rewrite (so_ready _ _ _ I). ztest; [lia|]. split; [done|]. by rewrite cpu_by_id_small.
Qed.

Lemma on_put s t f : on_runqueue (f (ents s t)) = on_runqueue (ents s t) ->
  on_runqueue (ents (put t f s) t) = on_runqueue (ents s t).
Proof. intros <-. simpl. by rewrite upd_eq. Qed.

(** A store that changes nothing. *)
Lemma inv_put_same x s Q t f :
  sched_inv x s Q -> f (ents s t) = ents s t -> sched_inv x (put t f s) Q.
Proof.
  intros I E. assert (EE : forall u, ents (put t f s) u = ents s u).
  { intros u. simpl. rewrite upd_case. case_decide; congruence. }
  destruct I. constructor; simpl; try setoid_rewrite EE; auto.
  intros c Hc. apply (rq_ok_frame s); auto. intros u _. by rewrite EE.
Qed.

Lemma enqueue_ok s Q t k :
  sched_inv t s Q -> 0 <= t < 64 -> 0 <= k < 8 ->
  on_runqueue (ents s t) = false -> assigned_cpu (ents s t) = k ->
  sched_inv (-1) (rq_push_tail_locked (put t (set_state TASK_RUNNABLE) s) k t) (qadd k t Q).
Proof.
  intros I Ht Hk Off A. pose proof (so_task _ _ _ I t Ht) as [Hid _].
  apply inv_push; simpl; rewrite ?upd_eq; try done.
  apply inv_put; simpl; try done. lia.
Qed.

(** A woken task goes to the tail of the queue of the asked processor. *)
Lemma make_runnable_ok s Q t c :
  sched_inv (-1) s Q -> 0 <= t < 64 -> 0 <= c ->
  sched_inv (-1) (scheduler_task_make_runnable s t c) (qadd (clip_cpu c) t (qdel t Q)).
Proof.
  intros I Ht Hc. unfold scheduler_task_make_runnable.
  destruct (so_task _ _ _ I t Ht) as [Hid Ha]. rewrite Hid.
  change (if SCHED_MAX_CPUS <=? c then 0 else c) with (clip_cpu c).
  pose proof (clip_cpu_range c Hc) as Hk. set (k := clip_cpu c) in *. rewrite (cpu_by_id_small k) by done.
  pose proof (fun q => inv_drop s Q t q I Ht) as Hd.
  destruct (on_runqueue (ents s t)) eqn:On; simpl.
  - destruct (so_cpu _ _ _ _ I On) as [Hac _]. rewrite (proj2 (Z.leb_le _ _)) by lia.
    destruct (Z.eqb_spec (assigned_cpu (ents s t)) k) as [E|E]; simpl.
    + assert (Es : set_cpu k (ents s t) = ents s t) by (rewrite <- E; by destruct (ents s t)).
      pose proof (inv_put_same (-1) s Q t (set_cpu k) I Es) as I'.
      rewrite upd_eq, Es, On.
      destruct (inv_drop _ _ t k I' Ht) as (D & Off & (FE & _)).
      { simpl. by rewrite upd_eq, Es. }
      simpl in D, Off, FE. rewrite upd_eq, Es, On in D, Off, FE.
      apply enqueue_ok; try done. destruct (FE t) as (_ & _ & _ & ->).
      by rewrite upd_eq, ?Es.
    + rewrite cpu_by_id_small by done. destruct (Hd (assigned_cpu (ents s t)) ltac:(done)) as (D & Off & (FE & _)).
      rewrite upd_eq. simpl. rewrite Off. apply enqueue_ok; simpl; rewrite ?upd_eq; try done.
      destruct (FE t) as (_ & _ & Hi & _). apply inv_put; simpl; [done.. | congruence | lia].
  - rewrite upd_eq. simpl. rewrite On.
    destruct (Hd 0 ltac:(done)) as (D & _).
    apply enqueue_ok; simpl; rewrite ?upd_eq; try done.
    apply inv_put; simpl; try done; lia.
Qed.

(** A task that blocks or dies leaves its queue. *)
Lemma leave_ok s Q t st f :
  sched_inv (-1) s Q -> 0 <= t < 64 -> st <> TASK_RUNNABLE -> st <> TASK_RUNNING ->
  (forall c, 0 <= c < 8 -> -1 <= f c < 8) ->
  let s' := leave_runqueue st f s t in
  sched_inv (-1) s' (qdel t Q) /\ state (ents s' t) = st /\
  (forall u, u <> t -> state (ents s' u) = state (ents s u)) /\
  local_cpu s' = local_cpu s /\ (forall d, current (cpus s' d) = current (cpus s d)).
Proof.
  intros I Ht N1 N2 Hf. unfold leave_runqueue.
  destruct (so_task _ _ _ I t Ht) as [Hid Ha]. rewrite Hid.
  destruct (local_small _ _ _ I) as [-> _]. pose proof (so_local _ _ _ I) as Hl.
  set (k := if 0 <=? assigned_cpu (ents s t) then assigned_cpu (ents s t) else local_cpu s).
  assert (Hk : 0 <= k < 8) by (unfold k; ztest; lia).
  rewrite cpu_by_id_small by done.
  destruct (inv_drop s Q t k I Ht) as (D & Off & (FE & FC & FL & _)).
  { intros On. destruct (so_cpu _ _ _ _ I On). unfold k. ztest; lia. }
  set (s1 := if on_runqueue (ents s t) then _ else s) in *.
  destruct (FE t) as (_ & _ & Hi & _).
  split; [|split; [|split; [|split]]].
  - apply (inv_close _ _ t); simpl; rewrite ?upd_eq; try done.
    apply inv_put; simpl; rewrite ?upd_eq; simpl; try congruence.
    + apply inv_put; simpl; try congruence. auto.
    + auto.
  - simpl. by rewrite upd_eq.
  - intros u Hu. simpl. rewrite !upd_ne by done. apply FE.
  - done.
  - intros d. apply FC.
Qed.

(** ** Choosing the next task *)

Lemma head_runnable x s Q c t l :
  sched_inv x s Q -> Q c = t :: l -> 0 <= c < 8 ->
  pick_next_runnable_locked s c = (rq_remove_locked s c t, Some t).
Proof.
  intros I E Hc. unfold pick_next_runnable_locked, pick_loop; fold pick_loop.
  destruct (so_mem _ _ _ I c t) as (On & St & _); [rewrite E; left|].
  pose proof (so_queue _ _ _ I c Hc) as R. rewrite E in R.
  rewrite (rq_pop_remove _ _ _ _ R On).
  destruct (rq_remove_step s c t [] l R On) as ((FE & _) & _). destruct (FE t) as (-> & _).
  by rewrite St, bool_decide_true.
Qed.

Lemma empty_idle x s Q c :
  sched_inv x s Q -> Q c = [] -> 0 <= c < 8 ->
  pick_next_runnable_locked s c = (s, Some (64 + c)).
Proof.
  intros I E Hc. unfold pick_next_runnable_locked, pick_loop; fold pick_loop.
  pose proof (so_queue _ _ _ I c Hc) as R. rewrite E in R. rewrite rq_pop_empty by done.
  by destruct (so_idle _ _ _ I c Hc) as [_ ->].
Qed.

(** Switching the local processor to [n] when nothing else runs. *)
Lemma inv_switch x s Q n c :
  sched_inv x s Q -> c = local_cpu s -> n = 64 + c \/ 0 <= n < 64 ->
  (forall u, 0 <= u < 64 -> u <> x -> state (ents s u) <> TASK_RUNNING) ->
  sched_inv x (put_cpu c (with_current (Some n)) s) Q.
Proof.
  intros I -> Hn NR. destruct I. constructor; simpl; auto.
  - intros c Hc. apply (rq_ok_frame s); simpl; auto; rewrite upd_case; by case_decide; subst.
  - intros i Hi. rewrite upd_case. destruct (so_idle0 i Hi). case_decide; subst; auto.
  - intros u ? ? R. by destruct (NR u).
  - exists n. by rewrite upd_eq.
  - intros c Hc Hl. rewrite upd_ne by done. auto.
Qed.

(** The queues before the choice: the running task goes to the tail of its own. *)
Definition requeue (s : sched) (Q : Z -> list Z) : Z -> list Z :=
  match current (cpus s (local_cpu s)) with
  | Some p => if negb (is_idle (ents s p)) && bool_decide (state (ents s p) = TASK_RUNNING)
              then qadd (local_cpu s) p Q else Q
  | None => Q
  end.

Lemma put_frame s t f :
  need_resched (f (ents s t)) = need_resched (ents s t) -> is_idle (f (ents s t)) = is_idle (ents s t) ->
  assigned_cpu (f (ents s t)) = assigned_cpu (ents s t) -> state (f (ents s t)) = state (ents s t) ->
  frame s (put t f s).
Proof.
  intros. split; [|split; [done|done]]. intros u. simpl. rewrite upd_case. by case_decide; subst.
Qed.

Lemma requeue_ok s Q p :
  sched_inv (-1) s Q -> current (cpus s (local_cpu s)) = Some p ->
  let c := local_cpu s in
  let s1 := if negb (is_idle (ents s p)) then
              if bool_decide (state (ents s p) = TASK_RUNNING)
              then rq_push_tail_locked (put p (set_state TASK_RUNNABLE) s) c p else s
            else s in
  sched_inv (-1) s1 (requeue s Q) /\ local_cpu s1 = c /\
  (forall u, 0 <= u < 64 -> state (ents s1 u) <> TASK_RUNNING) /\
  (forall u, state (ents s1 u) = state (ents s u) \/
             u = p /\ state (ents s u) = TASK_RUNNING /\ state (ents s1 u) = TASK_RUNNABLE) /\
  (forall u, is_idle (ents s1 u) = is_idle (ents s u)).
Proof.
  intros I Hp. unfold requeue. rewrite Hp. cbv zeta.
  destruct (so_current _ _ _ I) as (p' & Hp' & Hpr). assert (p' = p) as -> by congruence.
  assert (Hrun : forall u, 0 <= u < 64 -> state (ents s u) = TASK_RUNNING -> u = p).
  { intros u Hu Hs. destruct (so_running _ _ _ I u) as [E _]; [lia | done | done | congruence]. }
  pose proof (so_local _ _ _ I) as Hl.
  destruct Hpr as [->|Hpr].
  - destruct (so_idle _ _ _ I _ Hl) as [-> _]. simpl.
    split_all; try done; auto. intros u Hu Hs. specialize (Hrun u Hu Hs). lia.
  - destruct (so_task _ _ _ I p Hpr) as [Hid Ha]. rewrite Hid. simpl.
    destruct (bool_decide_reflect (state (ents s p) = TASK_RUNNING)) as [R|R].
    2: { split_all; try done; auto. intros u Hu Hs. by rewrite (Hrun u Hu Hs) in Hs. }
    destruct (so_running _ _ _ I p) as [_ A]; [lia | done | done |].
    assert (Off : on_runqueue (ents s p) = false).
    { destruct (on_runqueue (ents s p)) eqn:On; [|done].
      pose proof (so_on _ _ _ I p On) as H. destruct (so_mem _ _ _ I _ _ H). naive_solver congruence. }
    destruct (inv_drop s Q p 0 I Hpr) as (D & _); [congruence|]. rewrite Off in D.
    assert (EQ : forall d, qdel p Q d = Q d) by (intros; by eapply qdel_off).
    assert (D' : sched_inv p s Q) by (destruct D; constructor; try setoid_rewrite <- EQ; auto).
    destruct (inv_push (put p (set_state TASK_RUNNABLE) s) Q p (local_cpu s)) as (J & (FE & _ & FL & _));
      [apply inv_put; simpl; try done; lia | done | done | | | |].
    1-3: simpl; by rewrite ?upd_eq.
    split; [exact J|]. split; [done|].
    assert (FS : forall u, state (ents (rq_push_tail_locked (put p (set_state TASK_RUNNABLE) s) (local_cpu s) p) u)
              = if decide (u = p) then TASK_RUNNABLE else state (ents s u)).
    { intros u. destruct (FE u) as (-> & _). simpl. rewrite upd_case. repeat case_decide; subst; done. }
    split; [|split].
    + intros u Hu. rewrite FS. case_decide; [done|]. intros Hs. by destruct (Hrun u Hu Hs).
    + intros u. rewrite FS. case_decide; subst; auto.
    + intros u. destruct (FE u) as (_ & _ & -> & _). simpl. rewrite upd_case. by case_decide; subst.
Qed.

(** The whole of [schedule_common(0)] on the queues: the running task goes to the
    tail, the head becomes the current task, or the idle task when there is none. *)
Lemma yield_ok s Q :
  sched_inv (-1) s Q ->
  let c := local_cpu s in let Q1 := requeue s Q in let s' := scheduler_yield s in
  sched_inv (-1) s' (<[c := tail (Q1 c)]> Q1) /\
  local_cpu s' = c /\ current (cpus s' c) = Some (default (64 + c) (head (Q1 c))) /\
  (forall t, head (Q1 c) = Some t -> state (ents s' t) = TASK_RUNNING /\ need_resched (ents s' t) = false) /\
  (forall t, head (Q1 c) <> Some t -> state (ents s' t) = state (ents s t) \/
     current (cpus s c) = Some t /\ state (ents s t) = TASK_RUNNING /\ state (ents s' t) = TASK_RUNNABLE).
Proof.
  intros I. destruct (so_current _ _ _ I) as (p & Hp & Hpr).
  destruct (requeue_ok s Q p I Hp) as (I1 & L1 & NR & ST & ID).
  destruct (local_small _ _ _ I) as [_ LL]. cbv zeta.
  unfold scheduler_yield, schedule_common. rewrite LL, Hp.
  set (s1 := if negb (is_idle (ents s p)) then _ else s) in *.
  set (Q1 := requeue s Q) in *. set (c := local_cpu s) in *.
  pose proof (so_local _ _ _ I) as Hc. fold c in Hc.
  destruct (local_small _ _ _ I1) as [LC _].
  destruct (Q1 c) as [|t l] eqn:EQ.
  - rewrite (empty_idle _ _ _ c I1 EQ Hc).
    destruct (so_idle _ _ _ I1 c Hc) as [-> Hi]. simpl.
    assert (E : forall d, (<[c:=[]]> Q1) d = Q1 d) by (intros d; rewrite upd_case; case_decide; subst; auto).
    split; [|split; [done|split; [by rewrite upd_eq|split; [done|]]]].
    + pose proof (inv_switch _ _ _ (64 + c) c I1 (eq_sym L1) ltac:(by left) ltac:(by auto)) as J.
      destruct J. constructor; try setoid_rewrite E; auto.
    + intros u _. destruct (ST u) as [->|(-> & ? & ?)]; auto.
  - rewrite (head_runnable _ _ _ c t l I1 EQ Hc).
    destruct (so_mem _ _ _ I1 c t) as (On & St & Ac & Ht); [rewrite EQ; left|].
    destruct (so_task _ _ _ I1 t Ht) as [Hid _].
    destruct (inv_drop s1 Q1 t c I1 Ht) as (D & Off & F); [done|]. rewrite On in D, Off, F.
    destruct F as (FE & FC & FL & _). destruct (FE t) as (FS & FR & FI & FA).
    rewrite FI, Hid. cbn [negb]. unfold scheduler_cpu_id. cbn [local_cpu put]. rewrite FL.
    unfold scheduler_cpu_id in LC. rewrite LC, L1. set (s2 := rq_remove_locked s1 c t) in *.
    assert (EQ' : forall d, qdel t Q1 d = (<[c:=l]> Q1) d).
    { intros d. unfold qdel. rewrite upd_case. case_decide as Hd.
      - subst d. rewrite EQ, del_cons, del_notin; [done|].
        pose proof (so_queue _ _ _ I1 c Hc) as (ND & _). rewrite EQ in ND. by apply NoDup_cons in ND as [? _].
      - apply del_notin. intros H. destruct (so_mem _ _ _ I1 _ _ H) as (_ & _ & ? & _). congruence. }
    split; [|split; [|split; [|split]]].
    + assert (J : sched_inv t (put t (set_resched false) (put t (set_state TASK_RUNNING) (put t (set_cpu c) s2))) (qdel t Q1)).
      { apply inv_put; simpl; rewrite ?upd_eq; simpl; try congruence; [|lia].
        apply inv_put; simpl; rewrite ?upd_eq; simpl; try congruence; [|lia].
        apply inv_put; simpl; try congruence. lia. }
      assert (J' : sched_inv (-1) (put_cpu c (with_current (Some t)) (put t (set_resched false) (put t (set_state TASK_RUNNING) (put t (set_cpu c) s2)))) (qdel t Q1)).
      { apply (inv_close _ _ t); [apply inv_switch; auto; simpl; [congruence | ] | simpl | simpl].
        - intros u Hu Hut. simpl. rewrite !upd_ne by done. destruct (FE u) as (-> & _). auto.
        - rewrite !upd_eq. done.
        - rewrite FL, L1, !upd_eq. done. }
      cbn [tail]. destruct J'. constructor; try setoid_rewrite <- EQ'; auto.
    + simpl. congruence.
    + simpl. by rewrite upd_eq.
    + intros u [= <-]. simpl. by rewrite !upd_eq.
    + intros u Hu. simpl in Hu. assert (Hne : t <> u) by congruence.
      simpl. rewrite !upd_ne by done. destruct (FE u) as (-> & _).
      destruct (ST u) as [->|(-> & ? & ?)]; auto.
Qed.

(** ** Events

    The calls other parts of the kernel make, between two of which nothing else
    touches these fields. [Spawn] is the initialisation of a fresh task in
    [process_spawn_exec], [Clear] the [memset] of a dead one. *)

Definition spawn_ent : sched_ent :=
  {| state := TASK_BLOCKED; need_resched := false; on_runqueue := false; is_idle := false;
     assigned_cpu := -1; rq_prev := None; rq_next := None |}.
Definition sched_spawn (s : sched) (t : Z) : sched := put t (fun _ => spawn_ent) s.

Inductive event :=
  | Wake (t cpu_id : Z) | Block (t : Z) | Die (t : Z) | Free (t : Z)
  | Clear (t : Z) | Spawn (t : Z) | Yield | Tick.

#[export] Instance event_eq_dec : EqDecision event.
Proof. solve_decision. Defined.

Definition run_event (s : sched) (e : event) : sched :=
  match e with
  | Wake t c => scheduler_task_make_runnable s t c
  | Block t => scheduler_task_set_blocked s t
  | Die t => scheduler_task_set_zombie s t
  | Free t => scheduler_task_set_unused s t
  | Clear t => sched_clear s t
  | Spawn t => sched_spawn s t
  | Yield => scheduler_yield s
  | Tick => scheduler_tick s
  end.

Definition target (e : event) : option Z :=
  match e with
  | Wake t _ | Block t | Die t | Free t | Clear t | Spawn t => Some t
  | Yield | Tick => None
  end.

(** Events name tasks of the table; only free slots are cleared or set up. *)
Definition enabled (s : sched) (e : event) : Prop :=
  match e with
  | Wake t c => 0 <= t < 64 /\ 0 <= c
  | Block t | Die t | Free t => 0 <= t < 64
  | Clear t | Spawn t => 0 <= t < 64 /\ state (ents s t) = TASK_UNUSED
  | Yield | Tick => True
  end.

Inductive sched_step : sched -> sched -> Prop :=
  | sched_event s e : enabled s e -> sched_step s (run_event s e).

(** [process_init] on the zeroed tables. *)
Definition sched_zero : sched :=
  {| ents := fun _ => zero_ent;
     cpus := fun _ => {| current := None; idle := None; rq_head := None; rq_tail := None |};
     local_cpu := 0; ready := false; total_ticks := 0; idle_ticks := 0 |}.
Definition sched_boot : sched :=
  scheduler_set_boot_current (put 0 (set_cpu (-1)) (scheduler_set_cpu_id (scheduler_init sched_zero) 0)) 0.

Lemma init_cpus_task n s t : t < 64 -> ents (init_cpus n s) t = ents s t.
Proof.
  intros Ht. induction n as [|n IH]; [done|]. simpl. rewrite upd_ne; [done|].
  unfold idle_task, PROC_MAX_TASKS. lia.
Qed.

Lemma init_cpus_off n s t :
  on_runqueue (ents s t) = false -> on_runqueue (ents (init_cpus n s) t) = false.
Proof.
  intros H. induction n as [|n IH]; [done|]. simpl. rewrite upd_case. by case_decide.
Qed.

Lemma boot_eq s1 : s1 = scheduler_set_cpu_id (scheduler_init sched_zero) 0 ->
  (forall t, on_runqueue (ents s1 t) = false) ->
  ents sched_boot = ents (put 0 (set_state TASK_RUNNING) (put 0 (set_cpu 0) (put 0 (set_cpu (-1)) s1))).
Proof.
  intros E1 H. unfold sched_boot. rewrite <- E1.
  unfold scheduler_set_boot_current, scheduler_cpu_local, scheduler_cpu_id.
  assert (ER : ready (put 0 (set_cpu (-1)) s1) = true) by (by rewrite E1).
  assert (EL : local_cpu (put 0 (set_cpu (-1)) s1) = 0) by (by rewrite E1).
  assert (EO : on_runqueue (ents (put 0 (set_cpu (-1)) s1) 0) = false) by apply (H 0).
  rewrite ER. cbv zeta. rewrite EO, EL. done.
Qed.

Lemma boot_init_off t : on_runqueue (ents (scheduler_set_cpu_id (scheduler_init sched_zero) 0) t) = false.
Proof. apply (init_cpus_off (Z.to_nat SCHED_MAX_CPUS) sched_zero). done. Qed.

Lemma boot_ents t : 0 <= t < 64 ->
  ents sched_boot t = if decide (t = 0) then set_state TASK_RUNNING zero_ent else zero_ent.
Proof.
  intros Ht. rewrite (boot_eq _ eq_refl boot_init_off).
  set (s1 := scheduler_set_cpu_id _ 0).
  assert (E : forall u, u < 64 -> ents s1 u = zero_ent) by (intros u Hu; by apply (init_cpus_task 8 sched_zero)).
  clearbody s1. simpl. rewrite !upd_case. repeat case_decide; subst; rewrite ?E by lia; done || lia.
Qed.

Lemma small8 (P : Z -> Prop) : P 0 -> P 1 -> P 2 -> P 3 -> P 4 -> P 5 -> P 6 -> P 7 ->
  forall c, 0 <= c < 8 -> P c.
Proof.
  intros. assert (c = 0 \/ c = 1 \/ c = 2 \/ c = 3 \/ c = 4 \/ c = 5 \/ c = 6 \/ c = 7) by lia.
  naive_solver.
Qed.

Lemma boot_off t : on_runqueue (ents sched_boot t) = false.
Proof.
  rewrite (boot_eq _ eq_refl boot_init_off). pose proof boot_init_off as E.
  set (s1 := scheduler_set_cpu_id _ 0) in *. clearbody s1.
  simpl. rewrite !upd_case. repeat case_decide; subst; simpl; auto.
Qed.

Lemma boot_ok : sched_inv (-1) sched_boot (fun _ => []).
Proof.
  constructor; try done.
  - apply small8; (split; [apply NoDup_nil_2 | split; [done | split; [done | apply dseg_nil]]]).
  - intros c t H. by apply not_elem_of_nil in H.
  - intros t H. by rewrite boot_off in H.
  - apply small8; done.
  - intros t Ht. rewrite boot_ents by done. case_decide; simpl; lia.
  - intros t _ Ht. rewrite boot_ents by done. by case_decide.
  - intros t _ Ht. rewrite boot_ents by done. by case_decide; subst.
  - exists 0. split; [done | lia].
  - apply (small8 (fun c => c <> local_cpu sched_boot -> _)); done.
Qed.

(** A fresh record in a free slot. *)
Lemma fresh_ok s Q t e :
  sched_inv (-1) s Q -> 0 <= t < 64 -> state (ents s t) = TASK_UNUSED ->
  state e = TASK_UNUSED \/ state e = TASK_BLOCKED -> on_runqueue e = false -> is_idle e = false ->
  -1 <= assigned_cpu e < 8 ->
  sched_inv (-1) (put t (fun _ => e) s) Q.
Proof.
  intros I Ht Hs He1 He2 He3 He4.
  assert (Off : on_runqueue (ents s t) = false).
  { destruct (on_runqueue (ents s t)) eqn:On; [|done].
    pose proof (so_on _ _ _ I t On) as H. destruct (so_mem _ _ _ I _ _ H). naive_solver congruence. }
  destruct (inv_drop s Q t 0 I Ht) as (D & _); [congruence|]. rewrite Off in D.
  assert (EQ : forall d, qdel t Q d = Q d) by (intros; by eapply qdel_off).
  assert (D' : sched_inv t s Q) by (destruct D; constructor; try setoid_rewrite <- EQ; auto).
  apply (inv_close _ _ t); simpl; rewrite ?upd_eq; [by apply inv_put | |]; destruct He1; congruence.
Qed.

Lemma tick_ok s Q : sched_inv (-1) s Q -> sched_inv (-1) (scheduler_tick s) Q.
Proof.
  intros I. unfold scheduler_tick. destruct (local_small _ _ _ I) as [_ ->].
  destruct (match current _ with Some t => _ | None => _ end) as [t|]; [|done].
  set (s1 := {| ents := _ |}). assert (I1 : sched_inv (-1) s1 Q) by (destruct I; constructor; auto).
  destruct (_ && _); [|done].
  assert (E : forall u, ents (put t (set_resched true) s1) u
     = (if decide (t = u) then set_resched true else fun e => e) (ents s1 u)).
  { intros u. simpl. rewrite upd_case. by case_decide; subst. }
  destruct I1. constructor; auto; try (intros *; rewrite E; case_decide; simpl; eauto; fail).
  intros c Hc. apply (rq_ok_frame s1); auto. intros u _. rewrite E. by case_decide.
Qed.

(** The queues after an event. *)
Definition queues_after (s : sched) (Q : Z -> list Z) (e : event) : Z -> list Z :=
  match e with
  | Wake t c => qadd (clip_cpu c) t (qdel t Q)
  | Block t | Die t | Free t => qdel t Q
  | Clear _ | Spawn _ | Tick => Q
  | Yield => <[local_cpu s := tail (requeue s Q (local_cpu s))]> (requeue s Q)
  end.

Lemma event_ok s Q e :
  sched_inv (-1) s Q -> enabled s e -> sched_inv (-1) (run_event s e) (queues_after s Q e).
Proof.
  intros I En. destruct e; simpl in *.
  - apply make_runnable_ok; tauto.
  - apply leave_ok; auto; lia.
  - apply leave_ok; auto; lia.
  - apply leave_ok; auto; lia.
  - apply fresh_ok; simpl; try tauto; lia.
  - apply fresh_ok; simpl; try tauto; lia.
  - by apply yield_ok.
  - by apply tick_ok.
Qed.

Lemma reachable_ok s : rtc sched_step sched_boot s -> exists Q, sched_inv (-1) s Q.
Proof.
  intros H. assert (I : exists Q, sched_inv (-1) sched_boot Q) by (eexists; apply boot_ok).
  revert I. induction H as [|s0 s1 s2 [? e En] _ IH]; [done|]. intros [Q I]. apply IH.
  eexists. by apply event_ok.
Qed.

(** ** The queues as the code walks them *)

(** The tasks met from [rq_head] through [rq_next]. *)
Definition queue (s : sched) (c : Z) : list Z :=
  walk (fun t => rq_next (ents s t)) 64 (rq_head (cpus s c)).

Lemma length_tasks (l : list Z) : NoDup l -> (forall t, t ∈ l -> 0 <= t < 64) -> (length l <= 64)%nat.
Proof.
  intros ND H. assert (S : l ⊆+ seqZ 0 64).
  { apply NoDup_submseteq; [done|]. intros t Ht. apply elem_of_seqZ. specialize (H t Ht). lia. }
  apply submseteq_length in S. by rewrite length_seqZ in S.
Qed.

Lemma queue_inv x s Q c : sched_inv x s Q -> 0 <= c < 8 -> queue s c = Q c.
Proof.
  intros I Hc. destruct (so_queue _ _ _ I c Hc) as (ND & Hh & _ & D). unfold queue. rewrite Hh.
  eapply (walk_dseg _ _ []); [exact D|]. apply length_tasks; [done|].
  intros t Ht. by destruct (so_mem _ _ _ I _ _ Ht) as (_ & _ & _ & ?).
Qed.

(** A run of events, each enabled where it happens. *)
Fixpoint run (s : sched) (es : list event) : sched :=
  match es with [] => s | e :: es => run (run_event s e) es end.
Fixpoint runs (s : sched) (es : list event) : Prop :=
  match es with [] => True | e :: es => enabled s e /\ runs (run_event s e) es end.

Lemma run_reachable s es : runs s es -> rtc sched_step s (run s es).
Proof.
  revert s. induction es as [|e es IH]; intros s R; [done|]. destruct R as [E R].
  eapply rtc_l; [by constructor | by apply IH].
Qed.

(** Two tasks started by the first process, which then gives up the processor. *)
Definition demo : list event := [Spawn 1; Wake 1 0; Spawn 2; Wake 2 0; Tick; Yield].

(** C2: In every state the kernel reaches, the run queue of a processor, as the
    code walks it, holds exactly the runnable tasks assigned to the processor, each
    once and with its membership flag set; a running task is the current task of
    the local processor; and the processor always has a current task, its idle
    task at worst. *)
Theorem sched_always_ok s :
  rtc sched_step sched_boot s ->
  (forall c, 0 <= c < 8 ->
    NoDup (queue s c) /\
    (forall t, t ∈ queue s c <->
       0 <= t < 64 /\ state (ents s t) = TASK_RUNNABLE /\ assigned_cpu (ents s t) = c) /\
    (forall t, t ∈ queue s c -> on_runqueue (ents s t) = true)) /\
  (forall t, 0 <= t < 64 -> state (ents s t) = TASK_RUNNING -> scheduler_current_task s = t) /\
  (exists t, current (cpus s (local_cpu s)) = Some t).
Proof.
  intros H. destruct (reachable_ok s H) as [Q I]. split; [|split].
  - intros c Hc. rewrite (queue_inv _ _ _ _ I Hc). split; [by destruct (so_queue _ _ _ I c Hc)|].
    split; [intros t; split|].
    + intros Ht. by destruct (so_mem _ _ _ I _ _ Ht) as (? & ? & ? & ?).
    + intros (Ht & St & <-). apply (so_on _ _ _ I), (so_runnable _ _ _ I); [lia | done..].
    + intros t Ht. by destruct (so_mem _ _ _ I _ _ Ht).
  - intros t Ht St. destruct (so_running _ _ _ I t) as [E _]; [lia | done..|].
    unfold scheduler_current_task. destruct (local_small _ _ _ I) as [_ ->]. by rewrite E.
  - destruct (so_current _ _ _ I) as (t & ? & _). eauto.
Qed.

Lemma sched_always_ok_witness :
  NoDup (queue (run sched_boot demo) 0) /\ queue (run sched_boot demo) 0 = [2; 0] /\
  scheduler_current_task (run sched_boot demo) = 1.
Proof.
  split; [|by vm_compute].
  destruct (sched_always_ok (run sched_boot demo)) as [H _].
  - apply run_reachable. by vm_compute.
  - by apply (H 0).
Defined.

Definition yields (es : list event) : nat := length (filter (fun e => e = Yield) es).

Lemma put_cpu_frame s c f :
  current (f (cpus s c)) = current (cpus s c) -> idle (f (cpus s c)) = idle (cpus s c) ->
  frame s (put_cpu c f s).
Proof.
  intros. split; [done|split; [|done]]. intros d. simpl. rewrite upd_case. by case_decide; subst.
Qed.

(** The queue operations change no other field, whatever the state of the links. *)
Lemma rq_remove_frame s c t : frame s (rq_remove_locked s c t).
Proof.
  unfold rq_remove_locked. destruct (on_runqueue (ents s t)); [|apply frame_refl]. simpl.
  set (s1 := match rq_prev (ents s t) with Some p => _ | None => _ end).
  assert (F1 : frame s s1).
  { unfold s1. destruct (rq_prev (ents s t)); [by apply put_frame | by apply put_cpu_frame]. }
  clearbody s1. eapply frame_trans; [exact F1|].
  set (s2 := match rq_next (ents s1 t) with Some p => _ | None => _ end).
  assert (F2 : frame s1 s2).
  { unfold s2. destruct (rq_next (ents s1 t)); [by apply put_frame | by apply put_cpu_frame]. }
  clearbody s2. eapply frame_trans; [exact F2 | by apply put_frame].
Qed.

Lemma rq_push_frame s c t : frame s (rq_push_tail_locked s c t).
Proof.
  unfold rq_push_tail_locked. destruct (on_runqueue (ents s t)); [apply frame_refl|].
  eapply frame_trans; [by apply (put_frame s t (set_prev (rq_tail (cpus s c))))|].
  set (s0 := put t (set_prev _) s). clearbody s0.
  eapply frame_trans; [by apply (put_frame s0 t (set_next None))|].
  set (s1 := put t (set_next None) s0). clearbody s1.
  set (s2 := match rq_tail (cpus s1 c) with Some p => _ | None => _ end).
  assert (F2 : frame s1 s2).
  { unfold s2. destruct (rq_tail (cpus s1 c)); [by apply put_frame | by apply put_cpu_frame]. }
  clearbody s2. eapply frame_trans; [exact F2|].
  eapply frame_trans; [by apply (put_cpu_frame s2 c (with_tail (Some t))) | by apply put_frame].
Qed.

(** *** The fields other components read *)

Definition st_view (s s' : sched) (t : Z) (st : task_state) : Prop :=
  (forall u, state (ents s' u) = if decide (u = t) then st else state (ents s u)) /\
  (forall u, is_idle (ents s' u) = is_idle (ents s u)) /\
  (forall d, current (cpus s' d) = current (cpus s d)) /\ same_clock s s'.

Lemma st_view_put s s1 s2 t st c :
  frame s s1 -> frame (put t (set_state st) (put t (set_cpu c) s1)) s2 -> st_view s s2 t st.
Proof.
  intros (E1 & C1 & (? & ? & ? & ?)) (E2 & C2 & (? & ? & ? & ?)). simpl in *. split; [|split; [|split]].
  - intros u. destruct (E2 u) as (-> & _), (E1 u) as (<- & _). simpl. rewrite !upd_case.
    repeat case_decide; subst; done.
  - intros u. destruct (E2 u) as (_ & _ & -> & _), (E1 u) as (_ & _ & <- & _). simpl.
    rewrite !upd_case. repeat case_decide; subst; done.
  - intros d. destruct (C2 d) as [-> _], (C1 d) as [<- _]. done.
  - repeat split; congruence.
Qed.

Lemma leave_view s t st f :
  is_idle (ents s t) = false -> st_view s (leave_runqueue st f s t) t st.
Proof.
  intros Hid. unfold leave_runqueue. rewrite Hid.
  set (k := if 0 <=? _ then _ else _). eapply st_view_put; [|apply frame_refl].
  destruct (on_runqueue (ents s t)); [apply rq_remove_frame | apply frame_refl].
Qed.

Lemma make_runnable_view s t c :
  is_idle (ents s t) = false -> st_view s (scheduler_task_make_runnable s t c) t TASK_RUNNABLE.
Proof.
  intros Hid. unfold scheduler_task_make_runnable. rewrite Hid.
  set (k := if SCHED_MAX_CPUS <=? c then 0 else c).
  set (s1 := if _ && _ then _ else s).
  assert (F1 : frame s s1) by (unfold s1; destruct (_ && _); [apply rq_remove_frame | apply frame_refl]).
  clearbody s1. set (s2 := put t (set_cpu k) s1).
  set (s3 := if on_runqueue (ents s2 t) then _ else _).
  assert (F3 : frame s2 s3) by (unfold s3; destruct (on_runqueue _); [apply rq_remove_frame | apply frame_refl]).
  clearbody s3. pose proof (rq_push_frame (put t (set_state TASK_RUNNABLE) s3) (cpu_by_id k) t) as F4.
  set (s4 := rq_push_tail_locked _ _ _) in *. clearbody s4.
  assert (F5 : frame (put t (set_state TASK_RUNNABLE) s2) (put t (set_state TASK_RUNNABLE) s3)).
  { destruct F3 as (E & C & K). split; [|done]. intros u. destruct (E u) as (? & ? & ? & ?). simpl in *.
    rewrite !upd_case. destruct (E t) as (? & ? & ? & ?). simpl in *. rewrite !upd_case in *.
    repeat case_decide; subst; done. }
  eapply st_view_put; [exact F1 | eapply frame_trans; [exact F5 | exact F4]].
Qed.

Lemma event_local s Q e :
  sched_inv (-1) s Q -> enabled s e -> local_cpu (run_event s e) = local_cpu s.
Proof.
  intros I En. destruct e; simpl in *; try done.
  - apply make_runnable_view. by destruct (so_task _ _ _ I t ltac:(tauto)).
  - apply (leave_ok s Q t); auto; lia.
  - apply (leave_ok s Q t); auto; lia.
  - apply (leave_ok s Q t); auto; lia.
  - by apply (yield_ok s Q).
  - unfold scheduler_tick. destruct (scheduler_cpu_local s); [|done].
    destruct (match current _ with Some t => _ | None => _ end); [|done]. by destruct (_ && _).
Qed.

(** *** Bounded waiting *)

Lemma del_advance u t l1 l2 : u <> t ->
  exists l1' l2', del u (l1 ++ t :: l2) = l1' ++ t :: l2' /\ (length l1' <= length l1)%nat.
Proof.
  intros Hu. exists (del u l1), (del u l2). rewrite del_app. split.
  - f_equal. unfold del. rewrite filter_cons_True; done.
  - apply length_filter.
Qed.

(** An event that is not about [t] brings it closer to the head of its queue, a
    yield by at least one place. *)
Lemma event_advances s Q e t l1 l2 :
  sched_inv (-1) s Q -> enabled s e -> target e <> Some t ->
  let c := local_cpu s in
  Q c = l1 ++ t :: l2 ->
  e = Yield /\ l1 = [] /\ current (cpus (run_event s e) c) = Some t \/
  exists l1' l2', queues_after s Q e c = l1' ++ t :: l2' /\
    (length l1' + (if decide (e = Yield) then 1 else 0) <= length l1)%nat.
Proof.
  intros I En Ht c E.
  assert (Hd : forall u, Some u <> Some t -> exists l1' l2', qdel u Q c = l1' ++ t :: l2' /\ (length l1' <= length l1)%nat).
  { intros u Hu. unfold qdel. rewrite E. apply del_advance. congruence. }
  destruct e as [u k|u|u|u|u|u| |]; simpl in *.
  - right. destruct (Hd u Ht) as (a & b & Ea & La). unfold qadd. rewrite upd_case. case_decide as Hk.
    + rewrite Hk, Ea. exists a, (b ++ [u]). rewrite <- app_assoc. split; [done | simpl; lia].
    + exists a, b. split; [done | simpl; lia].
  - right. destruct (Hd u Ht) as (a & b & Ea & La). exists a, b. split; [done | simpl; lia].
  - right. destruct (Hd u Ht) as (a & b & Ea & La). exists a, b. split; [done | simpl; lia].
  - right. destruct (Hd u Ht) as (a & b & Ea & La). exists a, b. split; [done | simpl; lia].
  - right. exists l1, l2. split; [done | simpl; lia].
  - right. exists l1, l2. split; [done | simpl; lia].
  - assert (EQ : exists l2', requeue s Q c = l1 ++ t :: l2').
    { unfold requeue. destruct (current _) as [p|]; [|eauto]. destruct (_ && _); [|eauto].
      unfold qadd. fold c. rewrite upd_eq, E. exists (l2 ++ [p]). by rewrite <- app_assoc. }
    destruct EQ as (l2' & EQ). destruct (yield_ok s Q I) as (_ & _ & EC & _). fold c in EC.
    rewrite EQ in EC. destruct l1 as [|x l1]; [left; done|right].
    fold c. rewrite upd_eq, EQ. exists l1, l2'. split; [done | simpl; lia].
  - right. exists l1, l2. split; [done | simpl; lia].
Qed.

Lemma bounded_wait s Q t l1 l2 es :
  sched_inv (-1) s Q -> Q (local_cpu s) = l1 ++ t :: l2 -> runs s es ->
  Forall (fun e => target e <> Some t) es -> (length l1 < yields es)%nat ->
  exists pre post, es = pre ++ post /\ scheduler_current_task (run s pre) = t.
Proof.
  revert s Q l1 l2. induction es as [|e es IH]; intros s Q l1 l2 I E R F Y;
    [change (yields []) with 0%nat in Y; lia|].
  destruct R as [En R]. apply Forall_cons in F as [Ft F].
  pose proof (event_ok s Q e I En) as I'. pose proof (event_local s Q e I En) as L.
  destruct (event_advances s Q e t l1 l2 I En Ft E) as [(-> & -> & C)|(l1' & l2' & E' & Hl)].
  - exists [Yield], es. split; [done|]. unfold scheduler_current_task. simpl in *.
    destruct (local_small _ _ _ I') as [_ ->]. by rewrite L, C.
  - destruct (IH (run_event s e) _ l1' l2' I') as (pre & post & -> & C); [by rewrite L | done | done | |].
    + unfold yields in *. destruct (decide (e = Yield)) as [He|He].
      * rewrite filter_cons_True in Y by done. simpl in Y. lia.
      * rewrite filter_cons_False in Y by done. lia.
    + exists (e :: pre), post. done.
Qed.

(** C3: No runnable task starves: a task at position [k] of the queue of the running
    processor becomes the current task before [k + 1] yields have happened, whatever
    wake-ups, blockings, exits, spawns and ticks of other tasks come between. *)
Theorem runnable_task_runs s t l1 l2 es :
  rtc sched_step sched_boot s ->
  queue s (local_cpu s) = l1 ++ t :: l2 ->
  runs s es -> Forall (fun e => target e <> Some t) es -> (length l1 < yields es)%nat ->
  exists pre post, es = pre ++ post /\ scheduler_current_task (run s pre) = t.
Proof.
  intros H E R F Y. destruct (reachable_ok s H) as [Q I].
  rewrite (queue_inv _ _ _ _ I (so_local _ _ _ I)) in E. by eapply bounded_wait.
Qed.

(** C4: A yield is one turn of round robin: the running task goes to the tail of its
    queue, the head of the queue becomes the current task (the idle task if the
    queue is empty), running and without a pending reschedule; the queues of the
    other processors do not change. *)
Theorem yield_round_robin s :
  rtc sched_step sched_boot s ->
  let c := local_cpu s in let p := scheduler_current_task s in let s' := scheduler_yield s in
  let q := queue s c ++ (if negb (is_idle (ents s p)) && test (state (ents s p) = TASK_RUNNING)
                         then [p] else []) in
  scheduler_current_task s' = default (idle_task c) (head q) /\ queue s' c = tail q /\
  (forall d, 0 <= d < 8 -> d <> c -> queue s' d = queue s d) /\
  (forall t, head q = Some t -> state (ents s' t) = TASK_RUNNING /\ need_resched (ents s' t) = false).
Proof.
  intros H c p s'. destruct (reachable_ok s H) as [Q I].
  destruct (yield_ok s Q I) as (I' & L' & C' & R' & _). pose proof (so_local _ _ _ I) as Hc. fold c in Hc.
  fold s' in I', L', C', R'. fold c in I', L', C', R'.
  destruct (so_current _ _ _ I) as (p' & Hp & _).
  assert (p = p') as <-.
  { unfold p, scheduler_current_task. destruct (local_small _ _ _ I) as [_ ->]. by rewrite Hp. }
  intros q. assert (Eq : requeue s Q c = q).
  { unfold requeue, q. rewrite Hp, (queue_inv _ _ _ _ I Hc). destruct (_ && _); [|by rewrite app_nil_r].
    unfold qadd. by rewrite upd_eq. }
  rewrite Eq in *. split; [|split; [|split; [|done]]].
  - unfold scheduler_current_task. destruct (local_small _ _ _ I') as [_ ->]. by rewrite L', C'.
  - rewrite (queue_inv _ _ _ _ I' Hc), upd_eq. done.
  - intros d Hd Hdc. rewrite (queue_inv _ _ _ _ I' Hd), (queue_inv _ _ _ _ I Hd), upd_ne by done.
    unfold requeue. rewrite Hp. destruct (_ && _); [|done]. unfold qadd. by rewrite upd_ne.
Qed.

(** Waking a task, queued or not, leaves it exactly once in the queues: at the
    tail of the queue of the asked processor (processor 0 for a bad number); the
    other tasks keep their order, their states and the processors their current
    tasks. *)
Theorem wake_fifo s t k :
  rtc sched_step sched_boot s -> 0 <= t < 64 -> 0 <= k ->
  let s' := scheduler_task_make_runnable s t k in
  (forall d, 0 <= d < 8 -> queue s' d = del t (queue s d) ++ (if d =? clip_cpu k then [t] else [])) /\
  (forall u, state (ents s' u) = if decide (u = t) then TASK_RUNNABLE else state (ents s u)) /\
  (forall d, current (cpus s' d) = current (cpus s d)).
Proof.
  intros H Ht Hk s'. destruct (reachable_ok s H) as [Q I].
  destruct (so_task _ _ _ I t Ht) as [Hid _].
  destruct (make_runnable_view s t k Hid) as (V1 & _ & V2 & _). split; [|done].
  pose proof (make_runnable_ok s Q t k I Ht Hk) as I'. fold s' in I'.
  intros d Hd. rewrite (queue_inv _ _ _ _ I' Hd), (queue_inv _ _ _ _ I Hd). unfold qadd, qdel.
  rewrite upd_case. destruct (Z.eqb_spec d (clip_cpu k)) as [->|N].
  - by rewrite decide_True.
  - by rewrite decide_False, app_nil_r.
Qed.

Lemma runnable_task_runs_witness :
  exists pre post, [Yield; Block 1; Yield] = pre ++ post /\
    scheduler_current_task (run (run sched_boot demo) pre) = 0.
Proof.
  apply (runnable_task_runs (run sched_boot demo) 0 [2] [] [Yield; Block 1; Yield]).
  - apply run_reachable. by vm_compute.
  - by vm_compute.
  - by vm_compute.
  - repeat constructor; done.
  - vm_compute. lia.
Defined.

Lemma yield_round_robin_witness :
  scheduler_current_task (scheduler_yield (run sched_boot demo)) = 2 /\
  queue (scheduler_yield (run sched_boot demo)) 0 = [0; 1].
Proof.
  destruct (yield_round_robin (run sched_boot demo)) as (E & F & _).
  - apply run_reachable. by vm_compute.
  - split; [rewrite E; by vm_compute|].
    assert (L : local_cpu (run sched_boot demo) = 0) by (by vm_compute).
    rewrite L in F. rewrite F. by vm_compute.
Defined.

Lemma wake_fifo_witness :
  queue (scheduler_task_make_runnable (run sched_boot demo) 2 0) 0 = [0; 2].
Proof.
  destruct (wake_fifo (run sched_boot demo) 2 0) as (E & _).
  - apply run_reachable. by vm_compute.
  - lia.
  - lia.
  - rewrite E by lia. by vm_compute.
Defined.
