(* ===== verification/Process.v ===== *)
(** * Processes ([src/src/sys/process.c], [src/include/sys/process.h])

    The process table: the tree of parents and children linked through the task
    structures, creation ([process_fork], [process_spawn_exec]), exit, waiting,
    signals, credentials and sessions. Each group of fields of [task_struct] is a
    record of its own and the table an array of each, so that a function that only
    touches one group is a function on that array; the scheduler's fields are in
    [Sched.v]. A task pointer is the index of the task, [None] the null pointer.
    [cr3] and the saved kernel context, read by assembly only, are left out. *)

From S2P Require Import Prelude Dll CString Uaccess Path Sched.

Definition TASK_NAME_MAX : Z := 32.
Definition USER_AS_MAX_TASKS : Z := 16.
Definition PROCESS_CTTY_NONE : Z := 0.
Definition PROCESS_CTTY_CONSOLE : Z := 1.
Definition LINUX_SIGINT : Z := 2.
Definition LINUX_SIGKILL : Z := 9.
Definition LINUX_SIGTERM : Z := 15.
Definition LINUX_SIG_DFL : Z := 0.
Definition LINUX_SIG_IGN : Z := 1.

(** ** The fields of a task *)

Record ident := { pid : Z; exit_code : Z; name : list Z }.

Record family := {
  ppid : Z;
  parent : option Z;
  first_child : option Z;
  sibling_prev : option Z;
  sibling_next : option Z
}.

Record credentials := { uid : Z; gid : Z; euid : Z; egid : Z; umask : Z }.

Record session := { pgid : Z; sid : Z; ctty_kind : Z; ctty_id : Z }.

Record dirs := { cwd : list Z; root : list Z }.

Record signals := {
  sigint_handler : Z; sigalrm_handler : Z; sigterm_handler : Z; sigchld_handler : Z;
  sigmask : Z;
  itimer_real_next_us : Z; itimer_real_interval_us : Z; itimer_real_active : bool;
  sigint_pending : bool; sigalrm_pending : bool; sigterm_pending : bool; sigchld_pending : bool;
  sig_stub_installed : bool;
  sigaltstack_sp : Z; sigaltstack_size : Z; sigaltstack_flags : Z
}.

Record user_vma := { vma_start : Z; vma_end : Z; vma_prot : Z; vma_flags : Z }.

Record memory := {
  user_stack_top : Z; user_heap_base : Z; user_brk : Z; user_heap_limit : Z; user_mmap_next : Z;
  user_vma_count : Z; user_vmas : list user_vma; fs_base : Z
}.

Record trap_frame := {
  tf_rax : Z; tf_rbx : Z; tf_rcx : Z; tf_rdx : Z; tf_rbp : Z; tf_rdi : Z; tf_rsi : Z;
  tf_r8 : Z; tf_r9 : Z; tf_r10 : Z; tf_r11 : Z; tf_r12 : Z; tf_r13 : Z; tf_r14 : Z; tf_r15 : Z;
  tf_int_no : Z; tf_err_code : Z; tf_rip : Z; tf_cs : Z; tf_rflags : Z; tf_rsp : Z; tf_ss : Z
}.

Record start_info := {
  start_entry : Z; start_argv : list (list Z); start_pending : bool;
  start_at_phdr : Z; start_at_phnum : Z; start_at_entry : Z; start_at_base : Z
}.

(** ** The process tree *)

Definition set_parent (q : option Z) (f : family) : family :=
  {| ppid := ppid f; parent := q; first_child := first_child f;
     sibling_prev := sibling_prev f; sibling_next := sibling_next f |}.
Definition set_first (q : option Z) (f : family) : family :=
  {| ppid := ppid f; parent := parent f; first_child := q;
     sibling_prev := sibling_prev f; sibling_next := sibling_next f |}.
Definition set_sprev (q : option Z) (f : family) : family :=
  {| ppid := ppid f; parent := parent f; first_child := first_child f;
     sibling_prev := q; sibling_next := sibling_next f |}.
Definition set_snext (q : option Z) (f : family) : family :=
  {| ppid := ppid f; parent := parent f; first_child := first_child f;
     sibling_prev := sibling_prev f; sibling_next := q |}.
Definition set_ppid (q : Z) (f : family) : family :=
  {| ppid := q; parent := parent f; first_child := first_child f;
     sibling_prev := sibling_prev f; sibling_next := sibling_next f |}.

Definition no_family : family :=
  {| ppid := 0; parent := None; first_child := None; sibling_prev := None; sibling_next := None |}.

Definition fput (t : Z) (g : family -> family) (F : Z -> family) : Z -> family := <[t := g (F t)]> F.

Definition task_child_unlink (F : Z -> family) (child : Z) : Z -> family :=
  let F := match sibling_prev (F child), parent (F child) with
           | Some p, _ => fput p (set_snext (sibling_next (F child))) F
           | None, Some q => fput q (set_first (sibling_next (F child))) F
           | None, None => F
           end in
  let F := match sibling_next (F child) with
           | Some n => fput n (set_sprev (sibling_prev (F child))) F
           | None => F
           end in
  let F := fput child (set_sprev None) F in
  let F := fput child (set_snext None) F in
  fput child (set_parent None) F.

(** [pid_of] reads the [pid] field of a task. *)
Definition task_child_link (pid_of : Z -> Z) (F : Z -> family) (par : option Z) (child : Z) : Z -> family :=
  let F := task_child_unlink F child in
  let F := fput child (set_parent par) F in
  match par with
  | Some q =>
      let F := fput child (set_snext (first_child (F q))) F in
      let F := match first_child (F q) with
               | Some c => fput c (set_sprev (Some child)) F
               | None => F
               end in
      let F := fput q (set_first (Some child)) F in
      fput child (set_ppid (pid_of q)) F
  | None => fput child (set_ppid 0) F
  end.

(** [K p] lists the children of [p] in the order of the links. *)
Record tree (F : Z -> family) (K : Z -> list Z) : Prop := {
  tr_first p : first_child (F p) = head (K p);
  tr_seg p : dseg (fun t => sibling_prev (F t)) (fun t => sibling_next (F t)) (K p);
  tr_nodup p : NoDup (K p);
  tr_par p c : c ∈ K p <-> parent (F c) = Some p;
  tr_orphan c : parent (F c) = None -> sibling_prev (F c) = None /\ sibling_next (F c) = None
}.

Lemma unlink_reads F c :
  sibling_prev (F c) <> Some c -> sibling_next (F c) <> Some c ->
  forall x, task_child_unlink F c x =
    {| ppid := ppid (F x);
       parent := if decide (x = c) then None else parent (F x);
       first_child := match sibling_prev (F c), parent (F c) with
                      | None, Some q => if decide (q = x) then sibling_next (F c) else first_child (F x)
                      | _, _ => first_child (F x)
                      end;
       sibling_prev := if decide (x = c) then None
                       else if decide (sibling_next (F c) = Some x) then sibling_prev (F c)
                       else sibling_prev (F x);
       sibling_next := if decide (x = c) then None
                       else if decide (sibling_prev (F c) = Some x) then sibling_next (F c)
                       else sibling_next (F x) |}.
Proof.
  intros Hp Hn x. unfold task_child_unlink, fput.
  destruct (sibling_prev (F c)) as [p|] eqn:Ep, (sibling_next (F c)) as [n|] eqn:En,
    (parent (F c)) as [q|] eqn:Eq;
  repeat first [progress simpl | progress rewrite ?upd_case, ?Ep, ?En, ?Eq | case_decide | progress simplify_eq];
  try done; destruct (F x) eqn:EF; simplify_eq/=; try done.
Qed.

Lemma tree_at F K c q : tree F K -> parent (F c) = Some q ->
  exists a b, K q = a ++ c :: b /\ sibling_prev (F c) = last a /\ sibling_next (F c) = head b /\
    NoDup (a ++ c :: b).
Proof.
  intros T H. apply (tr_par _ _ T) in H.
  destruct (dseg_at _ _ _ _ (tr_seg _ _ T q) H) as (a & b & E & P & N).
  exists a, b. rewrite <- E. split_all; try done. apply T.
Qed.

Lemma tree_disjoint F K p q c : tree F K -> c ∈ K p -> c ∈ K q -> p = q.
Proof. intros T Hp Hq. apply (tr_par _ _ T) in Hp, Hq. congruence. Qed.

Definition kdel (c : Z) (K : Z -> list Z) : Z -> list Z := fun p => del c (K p).

Lemma unlink_ok F K c :
  tree F K ->
  tree (task_child_unlink F c) (kdel c K) /\
  (forall x, ppid (task_child_unlink F c x) = ppid (F x)) /\
  (forall x, parent (task_child_unlink F c x) = if decide (x = c) then None else parent (F x)).
Proof.
  intros T.
  assert (HS : sibling_prev (F c) <> Some c /\ sibling_next (F c) <> Some c).
  { destruct (parent (F c)) as [q|] eqn:Eq; [|destruct (tr_orphan _ _ T c Eq) as [-> ->]; done].
    destruct (tree_at F K c q T Eq) as (a & b & _ & -> & -> & (? & ? & [? ?]%NoDup_cons)%NoDup_app).
    split; [intros ?%last_elem | intros ?%head_elem]; set_solver. }
  destruct HS as [Hp Hn]. pose proof (unlink_reads F c Hp Hn) as R.
  set (F' := task_child_unlink F c) in *. clearbody F'.
  split; [|split; intros x; by rewrite R].
  assert (HK : forall p, parent (F c) <> Some p -> kdel c K p = K p).
  { intros p Hq. apply del_notin. by rewrite (tr_par _ _ T). }
  constructor.
  - intros p. rewrite R. simpl. destruct (parent (F c)) as [q|] eqn:Eq.
    + destruct (tree_at F K c q T Eq) as (a & b & E & Ep & En & ND). rewrite Ep, En.
      destruct (decide (q = p)) as [->|Hqp].
      * unfold kdel. rewrite E, del_split by done. rewrite (tr_first _ _ T p), E.
        destruct a as [|x a]; [done|]. destruct (last (x :: a)) eqn:L; [done|]. by apply last_None in L.
      * rewrite HK by congruence. rewrite <- (tr_first _ _ T). by destruct (last a).
    + rewrite HK by done. rewrite <- (tr_first _ _ T). by destruct (sibling_prev (F c)).
  - intros p. destruct (decide (parent (F c) = Some p)) as [Eq|Hq].
    + destruct (tree_at F K c p T Eq) as (a & b & E & Ep & En & ND).
      unfold kdel. rewrite E, del_split by done.
      apply (dseg_unlink (fun t => sibling_prev (F t)) (fun t => sibling_next (F t)) _ _ a c b);
        [done | rewrite <- E; apply T | |]; intros y Hy; rewrite R; simpl;
        (rewrite (decide_False (P := y = c)) by (apply NoDup_app in ND as (? & ? & [? ?]%NoDup_cons); set_solver));
        by rewrite Ep, En.
    + rewrite HK by done. eapply dseg_ext; [apply (tr_seg _ _ T p)|].
      intros x Hx. rewrite R. simpl.
      assert (Hxc : x <> c) by (intros ->; by apply (tr_par _ _ T) in Hx).
      rewrite !(decide_False (P := x = c)) by done.
      destruct (parent (F c)) as [q|] eqn:Eq.
      * destruct (tree_at F K c q T Eq) as (a & b & E & Ep & En & ND). rewrite Ep, En.
        rewrite !decide_False; [done| |].
        -- intros Hl%last_elem. apply Hq. f_equal. apply (tree_disjoint F K q p x T); [|done].
           rewrite E. set_solver.
        -- intros Hl%head_elem. apply Hq. f_equal. apply (tree_disjoint F K q p x T); [|done].
           rewrite E. set_solver.
      * destruct (tr_orphan _ _ T c Eq) as [-> ->]. by rewrite !decide_False by done.
  - intros p. apply NoDup_del, T.
  - intros p x. unfold kdel. rewrite elem_of_del, R. simpl. rewrite (tr_par _ _ T).
    case_decide; subst; naive_solver.
  - intros x. rewrite R. simpl. case_decide as Hx; [done|]. intros Hpx.
    destruct (tr_orphan _ _ T x Hpx) as [-> ->].
    destruct (parent (F c)) as [q|] eqn:Eq.
    + destruct (tree_at F K c q T Eq) as (a & b & E & Ep & En & ND). rewrite Ep, En.
      assert (HN : x ∉ a ++ c :: b) by (rewrite <- E, (tr_par _ _ T); congruence).
      rewrite !decide_False; [done| |]; [intros ?%last_elem | intros ?%head_elem]; set_solver.
    + destruct (tr_orphan _ _ T c Eq) as [-> ->]. by rewrite !decide_False by done.
Qed.

Definition klink (par : option Z) (c : Z) (K : Z -> list Z) : Z -> list Z :=
  fun p => if decide (par = Some p) then c :: del c (K p) else del c (K p).

Lemma link_reads pid_of F q c :
  let F0 := task_child_unlink F c in
  q <> c -> first_child (F0 q) <> Some c ->
  sibling_prev (F0 c) = None -> sibling_next (F0 c) = None ->
  forall x, task_child_link pid_of F (Some q) c x =
    {| ppid := if decide (x = c) then pid_of q else ppid (F0 x);
       parent := if decide (x = c) then Some q else parent (F0 x);
       first_child := if decide (x = q) then Some c else first_child (F0 x);
       sibling_prev := if decide (first_child (F0 q) = Some x) then Some c else sibling_prev (F0 x);
       sibling_next := if decide (x = c) then first_child (F0 q) else sibling_next (F0 x) |}.
Proof.
  intros F0 Hqc Hf Hp Hn x. unfold task_child_link. fold F0. clearbody F0. unfold fput.
  destruct (first_child (F0 q)) as [f|] eqn:Ef;
  repeat first [progress simpl | progress rewrite ?upd_case, ?Ef | case_decide | progress simplify_eq];
  try done; destruct (F0 x) eqn:EF; simplify_eq/=; try done.
Qed.

Lemma link_ok pid_of F K par c :
  tree F K -> par <> Some c ->
  let F' := task_child_link pid_of F par c in
  tree F' (klink par c K) /\
  (forall x, parent (F' x) = if decide (x = c) then par else parent (F x)) /\
  (forall x, ppid (F' x) = if decide (x = c) then match par with Some q => pid_of q | None => 0 end else ppid (F x)).
Proof.
  intros T Hpc. destruct (unlink_ok F K c T) as (T0 & P0 & R0).
  set (F0 := task_child_unlink F c) in *.
  assert (Hpar : parent (F0 c) = None) by (rewrite R0; by rewrite decide_True).
  destruct (tr_orphan _ _ T0 c Hpar) as [Hsp Hsn].
  assert (HcK : forall p, c ∉ kdel c K p) by (intros p; unfold kdel; rewrite elem_of_del; naive_solver).
  destruct par as [q|].
  - assert (Hqc : q <> c) by congruence.
    assert (Hf : first_child (F0 q) <> Some c).
    { rewrite (tr_first _ _ T0). intros ?%head_elem. by apply (HcK q). }
    pose proof (link_reads pid_of F q c Hqc Hf Hsp Hsn) as R. fold F0 in R.
    set (F' := task_child_link pid_of F (Some q) c) in *. clearbody F'. clearbody F0.
    split; [|split; intros x; rewrite R; simpl; case_decide; rewrite ?R0, ?P0; subst; by rewrite ?decide_False].
    constructor.
    + intros p. rewrite R. simpl. unfold klink. destruct (decide (p = q)) as [->|].
      * by rewrite decide_True.
      * rewrite decide_False by congruence. apply T0.
    + intros p. unfold klink. destruct (decide (Some q = Some p)) as [[= <-]|Hp].
      * eapply (dseg_push_head (fun t => sibling_prev (F0 t)) (fun t => sibling_next (F0 t)));
          [apply T0 | apply (HcK q) | apply T0 | | | |]; simpl.
        -- rewrite R. simpl. rewrite decide_False by done. done.
        -- rewrite R. simpl. rewrite decide_True by done. apply T0.
        -- intros y Hy. rewrite R. simpl. rewrite decide_False; [done|]. intros ->. by apply (HcK q).
        -- intros y Hy. rewrite R. simpl. rewrite (tr_first _ _ T0). done.
      * eapply dseg_ext; [apply (tr_seg _ _ T0 p)|]. intros x Hx. rewrite R. simpl.
        rewrite (decide_False (P := x = c)) by (intros ->; by apply (HcK p)).
        rewrite decide_False; [done|]. rewrite (tr_first _ _ T0). intros Hh%head_elem.
        apply Hp. f_equal. by apply (tree_disjoint F0 (kdel c K) q p x T0).
    + intros p. unfold klink. case_decide; [|apply T0].
      apply NoDup_cons. split; [apply (HcK p) | apply T0].
    + intros p x. rewrite R. simpl. unfold klink.
      change (del c (K p)) with (kdel c K p). destruct (decide (x = c)) as [->|Hx].
      * case_decide; [split; [done|intros _; left]|]. split; [intros H'; by apply HcK in H' | done].
      * rewrite <- (tr_par _ _ T0). case_decide; [|done]. rewrite elem_of_cons. naive_solver.
    + intros x. rewrite R. simpl. destruct (decide (x = c)) as [->|Hx]; [done|]. intros Hx0.
      destruct (tr_orphan _ _ T0 x Hx0) as [-> ->]. rewrite decide_False; [done|].
      rewrite (tr_first _ _ T0). intros Hh%head_elem. apply (tr_par _ _ T0) in Hh. congruence.
  - unfold task_child_link. fold F0. clearbody F0.
    assert (R : forall x, fput c (set_ppid 0) (fput c (set_parent None) F0) x
              = if decide (x = c) then set_ppid 0 (F0 x) else F0 x).
    { intros x. unfold fput. rewrite !upd_case. repeat case_decide; subst; try done.
      destruct (F0 x) eqn:E; simplify_eq/=. done. }
    split; [|split; intros x; rewrite R; case_decide; subst; simpl; rewrite ?R0, ?P0; by repeat case_decide].
    destruct T0. constructor.
    + intros p. rewrite R. unfold klink. rewrite (decide_False (P := None = Some p)) by done. case_decide; apply tr_first0.
    + intros p. unfold klink. rewrite (decide_False (P := None = Some p)) by done. eapply dseg_ext; [apply tr_seg0|].
      intros x _. rewrite R. by case_decide.
    + intros p. unfold klink. rewrite (decide_False (P := None = Some p)) by done. apply tr_nodup0.
    + intros p x. unfold klink. rewrite (decide_False (P := None = Some p)) by done.
      change (del c (K p)) with (kdel c K p). rewrite R, tr_par0. by case_decide.
    + intros x. rewrite R. case_decide; apply tr_orphan0.
Qed.

(** ** User memory

    Every task slot owns the same six static regions, mapped at fixed addresses. *)

Inductive region := LOW | TEXT | STACK | HEAP | HEAP_EXT | BIGPIE.

#[export] Instance region_eq_dec : EqDecision region.
Proof. solve_decision. Defined.

Definition MiB : Z := 1024 * 1024.
Definition USER_HEAP_BASE : Z := 0x20400000.
Definition USER_STACK_BASE : Z := 0x20200000.
Definition USER_MMAP_BASE : Z := 0x30000000.
Definition USER_HEAP_MAX_DELTA : Z := 32 * MiB.
Definition USER_HEAP_DEFAULT_DELTA : Z := 32 * MiB.
Definition USER_HEAP_PY_EXTRA_DELTA : Z := 8 * MiB.
Definition USER_REGION_SIZE : Z := 2 * MiB.
Definition USER_HEAP_SIZE : Z := USER_HEAP_MAX_DELTA / USER_REGION_SIZE * USER_REGION_SIZE.
Definition USER_HEAP_EXT_SIZE : Z := USER_HEAP_PY_EXTRA_DELTA.
Definition USER_BIGPIE_SIZE : Z := 16 * MiB.
Definition USER_LOW_SIZE : Z := 4 * MiB.
Definition USER_STACK_TOP : Z := USER_STACK_BASE + USER_REGION_SIZE.

Definition region_size (r : region) : Z :=
  match r with
  | LOW => USER_LOW_SIZE | TEXT => USER_REGION_SIZE | STACK => USER_REGION_SIZE
  | HEAP => USER_HEAP_SIZE | HEAP_EXT => USER_HEAP_EXT_SIZE | BIGPIE => USER_BIGPIE_SIZE
  end.

(** The memory of one slot: a byte for every offset of every region. *)
Abbreviation umem := (region -> Z -> Z).

Definition zero_from (off n : Z) (f : Z -> Z) : Z -> Z :=
  fun i => if (off <=? i) && (i <? off + n) then 0 else f i.
Definition copy_from (n : Z) (src dst : Z -> Z) : Z -> Z :=
  fun i => if (0 <=? i) && (i <? n) then src i else dst i.
Definition at_region (r : region) (g : (Z -> Z) -> Z -> Z) (m : umem) : umem := <[r := g (m r)]> m.

(** How much of [HEAP] and [HEAP_EXT] lies below the heap limit. *)
Definition heap_bytes (limit : Z) : Z * Z :=
  if USER_HEAP_BASE <? limit then
    let h := limit - USER_HEAP_BASE in
    if USER_HEAP_SIZE <? h then
      let x := h - USER_HEAP_SIZE in
      (USER_HEAP_SIZE, if USER_HEAP_EXT_SIZE <? x then USER_HEAP_EXT_SIZE else x)
    else (h, 0)
  else (USER_HEAP_DEFAULT_DELTA, 0).

(** The body of [task_clear_user_regions] for a slot below [USER_AS_MAX_TASKS]. *)
Definition clear_regions (limit : Z) (m : umem) : umem :=
  let '(h, x) := heap_bytes limit in
  let m := at_region LOW (zero_from 0 USER_LOW_SIZE) m in
  let m := at_region TEXT (zero_from 0 USER_REGION_SIZE) m in
  let m := at_region STACK (zero_from 0 USER_REGION_SIZE) m in
  let m := at_region HEAP (zero_from 0 h) m in
  at_region HEAP_EXT (zero_from 0 x) m.

(** What [process_fork] copies of the parent's memory [s]. *)
Definition fork_regions (limit : Z) (s m : umem) : umem :=
  let '(h, x) := heap_bytes limit in
  let m := at_region LOW (copy_from USER_LOW_SIZE (s LOW)) m in
  let m := at_region TEXT (copy_from USER_REGION_SIZE (s TEXT)) m in
  let m := at_region STACK (copy_from USER_REGION_SIZE (s STACK)) m in
  let m := at_region HEAP (copy_from h (s HEAP)) m in
  let m := if h <? USER_HEAP_SIZE then at_region HEAP (zero_from h (USER_HEAP_SIZE - h)) m else m in
  let m := at_region HEAP_EXT (copy_from x (s HEAP_EXT)) m in
  if x <? USER_HEAP_EXT_SIZE then at_region HEAP_EXT (zero_from x (USER_HEAP_EXT_SIZE - x)) m else m.

(** ** The process layer's state

    The descriptor tables belong to [syscall.c]; the process layer only asks it to
    drop the descriptors of a dead process and to copy them for a fork. *)

Class fd_layer := {
  fd_tables : Type;
  syscall_release_process_fds : Z -> fd_tables -> fd_tables;
  fd_clone_after_fork : Z -> Z -> fd_tables -> fd_tables
}.

(** What [elf_loader_exec] reports; loading fills the memory of the slot. *)
Record elf_image := { entry_rip : Z; at_phdr : Z; at_phnum : Z; at_entry : Z; at_base : Z }.

Section ops.
Context `{FD : fd_layer}.

Record proc := {
  sch : sched;
  next_pid : Z;
  ids : Z -> ident;
  fam : Z -> family;
  cred : Z -> credentials;
  sess : Z -> session;
  dir : Z -> dirs;
  sigs : Z -> signals;
  mem : Z -> memory;
  start : Z -> start_info;
  fork_tf : Z -> trap_frame;
  user : Z -> umem;
  fds : fd_tables
}.

Definition with_sch (f : sched -> sched) (p : proc) : proc :=
  {| sch := f (sch p); next_pid := next_pid p; ids := ids p; fam := fam p; cred := cred p; sess := sess p;
     dir := dir p; sigs := sigs p; mem := mem p; start := start p; fork_tf := fork_tf p; user := user p; fds := fds p |}.
Definition with_next_pid (n : Z) (p : proc) : proc :=
  {| sch := sch p; next_pid := n; ids := ids p; fam := fam p; cred := cred p; sess := sess p;
     dir := dir p; sigs := sigs p; mem := mem p; start := start p; fork_tf := fork_tf p; user := user p; fds := fds p |}.
Definition with_ids (t : Z) (f : ident -> ident) (p : proc) : proc :=
  {| sch := sch p; next_pid := next_pid p; ids := <[t := f (ids p t)]> (ids p); fam := fam p; cred := cred p; sess := sess p;
     dir := dir p; sigs := sigs p; mem := mem p; start := start p; fork_tf := fork_tf p; user := user p; fds := fds p |}.
Definition with_fam (f : (Z -> family) -> Z -> family) (p : proc) : proc :=
  {| sch := sch p; next_pid := next_pid p; ids := ids p; fam := f (fam p); cred := cred p; sess := sess p;
     dir := dir p; sigs := sigs p; mem := mem p; start := start p; fork_tf := fork_tf p; user := user p; fds := fds p |}.
Definition with_cred (t : Z) (f : credentials -> credentials) (p : proc) : proc :=
  {| sch := sch p; next_pid := next_pid p; ids := ids p; fam := fam p; cred := <[t := f (cred p t)]> (cred p); sess := sess p;
     dir := dir p; sigs := sigs p; mem := mem p; start := start p; fork_tf := fork_tf p; user := user p; fds := fds p |}.
Definition with_sess (t : Z) (f : session -> session) (p : proc) : proc :=
  {| sch := sch p; next_pid := next_pid p; ids := ids p; fam := fam p; cred := cred p; sess := <[t := f (sess p t)]> (sess p);
     dir := dir p; sigs := sigs p; mem := mem p; start := start p; fork_tf := fork_tf p; user := user p; fds := fds p |}.
Definition with_dir (t : Z) (f : dirs -> dirs) (p : proc) : proc :=
  {| sch := sch p; next_pid := next_pid p; ids := ids p; fam := fam p; cred := cred p; sess := sess p;
     dir := <[t := f (dir p t)]> (dir p); sigs := sigs p; mem := mem p; start := start p; fork_tf := fork_tf p; user := user p; fds := fds p |}.
Definition with_sigs (t : Z) (f : signals -> signals) (p : proc) : proc :=
  {| sch := sch p; next_pid := next_pid p; ids := ids p; fam := fam p; cred := cred p; sess := sess p;
     dir := dir p; sigs := <[t := f (sigs p t)]> (sigs p); mem := mem p; start := start p; fork_tf := fork_tf p; user := user p; fds := fds p |}.
Definition with_mem (t : Z) (f : memory -> memory) (p : proc) : proc :=
  {| sch := sch p; next_pid := next_pid p; ids := ids p; fam := fam p; cred := cred p; sess := sess p;
     dir := dir p; sigs := sigs p; mem := <[t := f (mem p t)]> (mem p); start := start p; fork_tf := fork_tf p; user := user p; fds := fds p |}.
Definition with_start (t : Z) (f : start_info -> start_info) (p : proc) : proc :=
  {| sch := sch p; next_pid := next_pid p; ids := ids p; fam := fam p; cred := cred p; sess := sess p;
     dir := dir p; sigs := sigs p; mem := mem p; start := <[t := f (start p t)]> (start p); fork_tf := fork_tf p; user := user p; fds := fds p |}.
Definition with_fork_tf (t : Z) (f : trap_frame) (p : proc) : proc :=
  {| sch := sch p; next_pid := next_pid p; ids := ids p; fam := fam p; cred := cred p; sess := sess p;
     dir := dir p; sigs := sigs p; mem := mem p; start := start p; fork_tf := <[t := f]> (fork_tf p); user := user p; fds := fds p |}.
Definition with_user (t : Z) (f : umem -> umem) (p : proc) : proc :=
  {| sch := sch p; next_pid := next_pid p; ids := ids p; fam := fam p; cred := cred p; sess := sess p;
     dir := dir p; sigs := sigs p; mem := mem p; start := start p; fork_tf := fork_tf p; user := <[t := f (user p t)]> (user p); fds := fds p |}.
Definition with_fds (f : fd_tables -> fd_tables) (p : proc) : proc :=
  {| sch := sch p; next_pid := next_pid p; ids := ids p; fam := fam p; cred := cred p; sess := sess p;
     dir := dir p; sigs := sigs p; mem := mem p; start := start p; fork_tf := fork_tf p; user := user p; fds := f (fds p) |}.

Definition pid_of (p : proc) (t : Z) : Z := pid (ids p t).
Definition st (p : proc) (t : Z) : task_state := state (ents (sch p) t).

Definition process_current_task (p : proc) : Z := scheduler_current_task (sch p).
Definition process_pick_target_cpu (p : proc) : Z := scheduler_cpu_id (sch p).

Definition task_ptr (i : Z) : option Z := if i <? 0 then None else Some i.

Definition task_find_by_pid (p : proc) (n : Z) : option Z :=
  task_ptr (scan (fun i => negb (test (st p i = TASK_UNUSED)) && (pid_of p i =? n)) 0 64).

Definition task_alloc (p : proc) : option Z :=
  task_ptr (scan (fun i => test (st p i = TASK_UNUSED)) 0 16).

(** *** The tree *)

Definition link_child (par : option Z) (c : Z) (p : proc) : proc :=
  with_fam (fun F => task_child_link (pid_of p) F par c) p.
Definition unlink_child (c : Z) (p : proc) : proc := with_fam (fun F => task_child_unlink F c) p.

Fixpoint adopt_loop (fuel : nat) (to : option Z) (c : option Z) (p : proc) (moved : Z) : proc * Z :=
  match fuel, c with
  | S f, Some c =>
      let next := sibling_next (fam p c) in
      adopt_loop f to next (link_child to c p) (moved + 1)
  | _, _ => (p, moved)
  end.

Fixpoint adopt_scan (n : nat) (i from_ppid : Z) (to : option Z) (p : proc) (moved : Z) : proc * Z :=
  match n with
  | O => (p, moved)
  | S n =>
      if test (st p i = TASK_UNUSED) || negb (ppid (fam p i) =? from_ppid)
      then adopt_scan n (i + 1) from_ppid to p moved
      else adopt_scan n (i + 1) from_ppid to (link_child to i p) (moved + 1)
  end.

Definition process_adopt_orphans (from_ppid to_ppid : Z) (p : proc) : proc * Z :=
  let to := task_find_by_pid p to_ppid in
  match task_find_by_pid p from_ppid with
  | Some from => adopt_loop 64 to (first_child (fam p from)) p 0
  | None => adopt_scan 64 0 from_ppid to p 0
  end.

(** *** Signals to the parent *)

Definition set_sigchld (b : bool) (s : signals) : signals :=
  {| sigint_handler := sigint_handler s; sigalrm_handler := sigalrm_handler s;
     sigterm_handler := sigterm_handler s; sigchld_handler := sigchld_handler s; sigmask := sigmask s;
     itimer_real_next_us := itimer_real_next_us s; itimer_real_interval_us := itimer_real_interval_us s;
     itimer_real_active := itimer_real_active s; sigint_pending := sigint_pending s;
     sigalrm_pending := sigalrm_pending s; sigterm_pending := sigterm_pending s; sigchld_pending := b;
     sig_stub_installed := sig_stub_installed s; sigaltstack_sp := sigaltstack_sp s;
     sigaltstack_size := sigaltstack_size s; sigaltstack_flags := sigaltstack_flags s |}.

Definition wake_task (t : Z) (p : proc) : proc :=
  with_sch (fun s => scheduler_task_make_runnable s t (wake_cpu s t)) p.

Definition process_notify_parent_sigchld (par : option Z) (p : proc) : proc :=
  match par with
  | None => p
  | Some q =>
      if test (st p q = TASK_UNUSED) || test (st p q = TASK_ZOMBIE) then p
      else
        let p := if negb (sigchld_handler (sigs p q) =? LINUX_SIG_IGN)
                 then with_sigs q (set_sigchld true) p else p in
        if test (st p q = TASK_BLOCKED) then wake_task q p else p
  end.

(** *** Exit *)

Definition set_exit (code : Z) (i : ident) : ident :=
  {| pid := pid i; exit_code := code; name := name i |}.

(** The common tail of [process_exit_current] and [process_kill_pid]. *)
Definition die (t code : Z) (p : proc) : proc :=
  let p := with_ids t (set_exit code) p in
  let p := fst (process_adopt_orphans (pid_of p t) 1 p) in
  let par := parent (fam p t) in
  let ini := task_find_by_pid p 1 in
  let '(p, par) := match par, ini with
                   | Some q, Some i =>
                       if sigchld_handler (sigs p q) =? LINUX_SIG_IGN
                       then (link_child (Some i) t (unlink_child t p), Some i) else (p, par)
                   | _, _ => (p, par)
                   end in
  let p := with_sch (fun s => scheduler_task_set_zombie s t) p in
  process_notify_parent_sigchld par p.

(** [None]: the first process exits, the machine halts. *)
Definition process_exit_current (code : Z) (p : proc) : option proc :=
  let cur := process_current_task p in
  if pid_of p cur =? 1 then None else Some (die cur code p).

Definition process_kill_pid (n code : Z) (p : proc) : proc * Z :=
  match task_find_by_pid p n with
  | None => (p, -1)
  | Some t => if n =? 1 then (p, -1) else (die t code p, 0)
  end.

Fixpoint kill_pgid_loop (n : nat) (i pg code : Z) (p : proc) (killed : Z) : proc * Z :=
  match n with
  | O => (p, killed)
  | S n =>
      if test (st p i = TASK_UNUSED) || (pid_of p i =? 1) || negb (pgid (sess p i) =? pg)
      then kill_pgid_loop n (i + 1) pg code p killed
      else
        let p := with_ids i (set_exit code) p in
        let p := fst (process_adopt_orphans (pid_of p i) 1 p) in
        let p := with_sch (fun s => scheduler_task_set_zombie s i) p in
        let p := match parent (fam p i) with
                 | Some q => if test (st p q = TASK_BLOCKED) then wake_task q p else p
                 | None => p
                 end in
        kill_pgid_loop n (i + 1) pg code p (killed + 1)
  end.

Definition process_kill_pgid (pg code : Z) (p : proc) : proc * Z :=
  if pg <=? 0 then (p, -1)
  else let '(p, k) := kill_pgid_loop 64 0 pg code p 0 in (p, if 0 <? k then 0 else -1).

(** *** Signals *)

Definition set_pending (sig : Z) (s : signals) : signals :=
  {| sigint_handler := sigint_handler s; sigalrm_handler := sigalrm_handler s;
     sigterm_handler := sigterm_handler s; sigchld_handler := sigchld_handler s; sigmask := sigmask s;
     itimer_real_next_us := itimer_real_next_us s; itimer_real_interval_us := itimer_real_interval_us s;
     itimer_real_active := itimer_real_active s;
     sigint_pending := (sig =? LINUX_SIGINT) || sigint_pending s;
     sigalrm_pending := sigalrm_pending s;
     sigterm_pending := (sig =? LINUX_SIGTERM) || sigterm_pending s; sigchld_pending := sigchld_pending s;
     sig_stub_installed := sig_stub_installed s; sigaltstack_sp := sigaltstack_sp s;
     sigaltstack_size := sigaltstack_size s; sigaltstack_flags := sigaltstack_flags s |}.

Definition process_signal_one (t sig : Z) (p : proc) : proc * Z :=
  if test (st p t = TASK_UNUSED) || test (st p t = TASK_ZOMBIE) then (p, -1)
  else if sig =? LINUX_SIGKILL then
    if pid_of p t =? 1 then (p, -1) else process_kill_pid (pid_of p t) (128 + sig) p
  else
    let handler := if sig =? LINUX_SIGINT then Some (sigint_handler (sigs p t))
                   else if sig =? LINUX_SIGTERM then Some (sigterm_handler (sigs p t)) else None in
    match handler with
    | None => (p, -1)
    | Some h =>
        if h =? LINUX_SIG_IGN then (p, 0)
        else if h =? LINUX_SIG_DFL then
          if pid_of p t =? 1 then (p, -1) else process_kill_pid (pid_of p t) (128 + sig) p
        else
          let p := with_sigs t (set_pending sig) p in
          (if test (st p t = TASK_BLOCKED) then wake_task t p else p, 0)
    end.

Definition process_send_signal (n sig : Z) (p : proc) : proc * Z :=
  if n <=? 0 then (p, -1)
  else match task_find_by_pid p n with None => (p, -1) | Some t => process_signal_one t sig p end.

Fixpoint send_pgid_loop (n : nat) (i pg sig : Z) (p : proc) (delivered : Z) : proc * Z :=
  match n with
  | O => (p, delivered)
  | S n =>
      if test (st p i = TASK_UNUSED) || test (st p i = TASK_ZOMBIE) || negb (pgid (sess p i) =? pg)
      then send_pgid_loop n (i + 1) pg sig p delivered
      else
        let '(p, r) := process_signal_one i sig p in
        send_pgid_loop n (i + 1) pg sig p (if r =? 0 then delivered + 1 else delivered)
  end.

Definition process_send_signal_pgid (pg sig : Z) (p : proc) : proc * Z :=
  if pg <=? 0 then (p, -1)
  else let '(p, d) := send_pgid_loop 64 0 pg sig p 0 in (p, if 0 <? d then 0 else -1).

Definition EINVAL : Z := 22.
Definition ESRCH : Z := 3.
Definition EPERM : Z := 1.
Definition ECHILD : Z := 10.
Definition EAGAIN : Z := 11.

(** [kill]: signal 0 only asks whether the target exists. *)
Definition do_sys_kill (ipid isig : Z) (p : proc) : proc * Z :=
  if ipid =? 0 then (p, - EINVAL)
  else if isig =? 0 then
    if 0 <? ipid then (p, if task_find_by_pid p ipid is Some _ then 0 else - ESRCH)
    else (p, if 0 <=? scan (fun i => negb (test (st p i = TASK_UNUSED)) && (pgid (sess p i) =? - ipid)) 0 64
             then 0 else - ESRCH)
  else if negb (isig =? LINUX_SIGTERM) && negb (isig =? LINUX_SIGKILL) && negb (isig =? LINUX_SIGINT)
  then (p, - EINVAL)
  else
    let '(p, r) := if 0 <? ipid then process_send_signal ipid isig p
                   else process_send_signal_pgid (- ipid) isig p in
    (p, if r =? 0 then 0 else - ESRCH).

Definition process_set_state (n : Z) (s : task_state) (p : proc) : proc * Z :=
  match task_find_by_pid p n with
  | None => (p, -1)
  | Some t =>
      (match s with
       | TASK_RUNNABLE | TASK_RUNNING =>
           with_sch (fun s => scheduler_task_make_runnable s t (wake_cpu s t)) p
       | TASK_BLOCKED => with_sch (fun s => scheduler_task_set_blocked s t) p
       | TASK_ZOMBIE => with_sch (fun s => scheduler_task_set_zombie s t) p
       | TASK_UNUSED => with_sch (fun s => scheduler_task_set_unused s t) p
       end, 0)
  end.

(** *** Waiting *)

(** [memset(t, 0, sizeof( *t))]. *)
Definition zero_vma : user_vma := {| vma_start := 0; vma_end := 0; vma_prot := 0; vma_flags := 0 |}.
(** The table of [PROCESS_USER_VMA_MAX] ranges, all empty. *)
Definition no_vmas : list user_vma := replicate 256 zero_vma.
Definition zero_ident : ident := {| pid := 0; exit_code := 0; name := [] |}.
Definition zero_cred : credentials := {| uid := 0; gid := 0; euid := 0; egid := 0; umask := 0 |}.
Definition zero_sess : session := {| pgid := 0; sid := 0; ctty_kind := 0; ctty_id := 0 |}.
Definition zero_dirs : dirs := {| cwd := []; root := [] |}.
Definition zero_sigs : signals :=
  {| sigint_handler := 0; sigalrm_handler := 0; sigterm_handler := 0; sigchld_handler := 0; sigmask := 0;
     itimer_real_next_us := 0; itimer_real_interval_us := 0; itimer_real_active := false;
     sigint_pending := false; sigalrm_pending := false; sigterm_pending := false; sigchld_pending := false;
     sig_stub_installed := false; sigaltstack_sp := 0; sigaltstack_size := 0; sigaltstack_flags := 0 |}.
Definition zero_mem : memory :=
  {| user_stack_top := 0; user_heap_base := 0; user_brk := 0; user_heap_limit := 0; user_mmap_next := 0;
     user_vma_count := 0; user_vmas := no_vmas; fs_base := 0 |}.
Definition zero_start : start_info :=
  {| start_entry := 0; start_argv := []; start_pending := false; start_at_phdr := 0; start_at_phnum := 0;
     start_at_entry := 0; start_at_base := 0 |}.
Definition zero_tf : trap_frame :=
  {| tf_rax := 0; tf_rbx := 0; tf_rcx := 0; tf_rdx := 0; tf_rbp := 0; tf_rdi := 0; tf_rsi := 0;
     tf_r8 := 0; tf_r9 := 0; tf_r10 := 0; tf_r11 := 0; tf_r12 := 0; tf_r13 := 0; tf_r14 := 0; tf_r15 := 0;
     tf_int_no := 0; tf_err_code := 0; tf_rip := 0; tf_cs := 0; tf_rflags := 0; tf_rsp := 0; tf_ss := 0 |}.

Definition clear_task (t : Z) (p : proc) : proc :=
  {| sch := sched_clear (sch p) t; next_pid := next_pid p; ids := <[t := zero_ident]> (ids p);
     fam := <[t := no_family]> (fam p); cred := <[t := zero_cred]> (cred p); sess := <[t := zero_sess]> (sess p);
     dir := <[t := zero_dirs]> (dir p); sigs := <[t := zero_sigs]> (sigs p); mem := <[t := zero_mem]> (mem p);
     start := <[t := zero_start]> (start p); fork_tf := <[t := zero_tf]> (fork_tf p); user := user p; fds := fds p |}.

Definition exit_status (code : Z) : Z := Z.land code 255 * 256.

(** Which children [process_wait_pid] looks at; [par] is the waiting task. *)
Definition wait_matches (n par t : Z) (p : proc) : bool :=
  if 0 <? n then pid_of p t =? n
  else if n =? 0 then pgid (sess p t) =? pgid (sess p par)
  else if n <? -1 then pgid (sess p t) =? - n
  else true.

(** The walk over the children: did one match, and the first matching zombie. *)
Fixpoint wait_scan (fuel : nat) (m : Z -> bool) (c : option Z) (p : proc) (seen : bool) : bool * option Z :=
  match fuel, c with
  | S f, Some t =>
      if negb (m t) then wait_scan f m (sibling_next (fam p t)) p seen
      else if test (st p t = TASK_ZOMBIE) then (true, Some t)
      else wait_scan f m (sibling_next (fam p t)) p true
  | _, _ => (seen, None)
  end.

Inductive wait_result :=
  | Reaped (pid status : Z)
  | NoChild
  | NoneReady
  | Sleeping.

Definition reap (t : Z) (p : proc) : proc * wait_result :=
  let n := pid_of p t in
  let status := exit_status (exit_code (ids p t)) in
  let p := with_fds (syscall_release_process_fds n) p in
  let p := unlink_child t p in
  let p := with_sch (fun s => scheduler_task_set_unused s t) p in
  (clear_task t p, Reaped n status).

(** One turn of the loop of [process_wait_pid]; the caller that is [Sleeping] runs
    the next turn when it is scheduled again. *)
Definition process_wait_pid (n options : Z) (p : proc) : proc * wait_result :=
  let par := process_current_task p in
  match wait_scan 64 (fun t => wait_matches n par t p) (first_child (fam p par)) p false with
  | (_, Some t) => reap t p
  | (false, None) => (p, NoChild)
  | (true, None) =>
      if negb (Z.land options 1 =? 0) then (p, NoneReady)
      else (with_sch (fun s => scheduler_yield (scheduler_task_set_blocked s par)) p, Sleeping)
  end.

Definition process_wait_any (p : proc) : proc * wait_result :=
  let par := process_current_task p in
  match wait_scan 64 (fun _ => true) (first_child (fam p par)) p false with
  | (_, Some t) => reap t p
  | (false, None) => (p, NoChild)
  | (true, None) => (with_sch (fun s => scheduler_yield (scheduler_task_set_blocked s par)) p, Sleeping)
  end.

Definition LINUX_WNOHANG : Z := 1.
Definition LINUX_WUNTRACED : Z := 2.
Definition LINUX_WCONTINUED : Z := 8.

Definition EFAULT : Z := 14.

(** [None]: the call sleeps. The status goes to the memory [m] of the caller; a child
    whose status cannot be stored is gone all the same. *)
Definition do_sys_wait4 (pid_u status_u options_u : Z) (m : CString.mem) (p : proc) : proc * CString.mem * option Z :=
  let options := i32 options_u in
  if negb (Z.land options (Z.lnot (Z.lor LINUX_WNOHANG (Z.lor LINUX_WUNTRACED LINUX_WCONTINUED))) =? 0)
  then (p, m, Some (- EINVAL))
  else
    let '(p, r) := process_wait_pid (i32 pid_u) (if Z.land options LINUX_WNOHANG =? 0 then 0 else LINUX_WNOHANG) p in
    match r with
    | Reaped n status =>
        if (status_u =? 0) || (n <=? 0) then (p, m, Some n)
        else
          match copy_to_user m status_u (le_bytes 4 status) with
          | Some m => (p, m, Some n)
          | None => (p, m, Some (- EFAULT))
          end
    | NoChild => (p, m, Some (- ECHILD))
    | NoneReady => (p, m, Some 0)
    | Sleeping => (p, m, None)
    end.

(** *** Creation *)

Definition fork_sigs (par old : signals) : signals :=
  {| sigint_handler := sigint_handler par; sigalrm_handler := sigalrm_handler par;
     sigterm_handler := sigterm_handler par; sigchld_handler := sigchld_handler par; sigmask := sigmask old;
     itimer_real_next_us := itimer_real_next_us old; itimer_real_interval_us := itimer_real_interval_us old;
     itimer_real_active := itimer_real_active old;
     sigint_pending := false; sigalrm_pending := false; sigterm_pending := false;
     sigchld_pending := sigchld_pending old; sig_stub_installed := sig_stub_installed old;
     sigaltstack_sp := sigaltstack_sp par; sigaltstack_size := sigaltstack_size par;
     sigaltstack_flags := sigaltstack_flags par |}.

Definition cwd_or_root (c : list Z) : list Z := match c with [] => str "/" | _ => c end.

(** The child returns 0 and is not single-stepped. *)
Definition child_tf (tf : trap_frame) : trap_frame :=
  {| tf_rax := 0; tf_rbx := tf_rbx tf; tf_rcx := tf_rcx tf; tf_rdx := tf_rdx tf; tf_rbp := tf_rbp tf;
     tf_rdi := tf_rdi tf; tf_rsi := tf_rsi tf; tf_r8 := tf_r8 tf; tf_r9 := tf_r9 tf; tf_r10 := tf_r10 tf;
     tf_r11 := tf_r11 tf; tf_r12 := tf_r12 tf; tf_r13 := tf_r13 tf; tf_r14 := tf_r14 tf; tf_r15 := tf_r15 tf;
     tf_int_no := tf_int_no tf; tf_err_code := tf_err_code tf; tf_rip := tf_rip tf; tf_cs := tf_cs tf;
     tf_rflags := Z.land (tf_rflags tf) (2 ^ 64 - 1 - 2 ^ 8); tf_rsp := tf_rsp tf; tf_ss := tf_ss tf |}.

Definition process_fork (tf : trap_frame) (p : proc) : proc * Z :=
  let par := process_current_task p in
  match task_alloc p with
  | None => (p, -1)
  | Some c =>
      if (USER_AS_MAX_TASKS <=? c) || (USER_AS_MAX_TASKS <=? par) then (p, -1)
      else
        let n := next_pid p in
        let p := with_next_pid (i32 (n + 1)) p in
        let p := with_ids c (fun _ => {| pid := n; exit_code := 0; name := name (ids p par) |}) p in
        let p := with_fam (fput c (set_ppid (pid_of p par))) p in
        let p := with_user c (clear_regions (user_heap_limit (mem p c))) p in
        let p := with_mem c (fun _ => mem p par) p in
        let p := with_cred c (fun _ => cred p par) p in
        let p := with_sess c (fun _ => sess p par) p in
        let p := with_dir c (fun d => {| cwd := cwd_or_root (cwd (dir p par)); root := root d |}) p in
        let p := with_sigs c (fork_sigs (sigs p par)) p in
        let p := link_child (Some par) c p in
        let p := with_user c (fork_regions (user_heap_limit (mem p par)) (user p par)) p in
        let p := with_fork_tf c (child_tf tf) p in
        let p := with_sch (fun s => scheduler_task_set_blocked s c) p in
        (p, n)
  end.

(** The child gets its descriptors and may run. *)
Definition do_sys_fork_compat (tf : trap_frame) (p : proc) : proc * Z :=
  let parent_pid := pid_of p (process_current_task p) in
  let '(p, n) := process_fork tf p in
  if n <? 0 then (p, - EAGAIN)
  else if 0 <? n then
    let p := with_fds (fd_clone_after_fork parent_pid n) p in
    (fst (process_set_state n TASK_RUNNABLE p), n)
  else (p, n).

Definition do_sys_vfork_compat (tf : trap_frame) (p : proc) : proc * Z :=
  let '(p, n) := do_sys_fork_compat tf p in
  (if 0 <? n then with_sch scheduler_yield p else p, n).

Definition fresh_mem : memory :=
  {| user_stack_top := USER_STACK_TOP; user_heap_base := USER_HEAP_BASE; user_brk := USER_HEAP_BASE;
     user_heap_limit := USER_HEAP_BASE + USER_HEAP_DEFAULT_DELTA; user_mmap_next := USER_MMAP_BASE;
     user_vma_count := 0; user_vmas := no_vmas; fs_base := 0 |}.

Definition spawn_sigs (par : signals) : signals :=
  {| sigint_handler := sigint_handler par; sigalrm_handler := sigalrm_handler par;
     sigterm_handler := sigterm_handler par; sigchld_handler := sigchld_handler par; sigmask := 0;
     itimer_real_next_us := 0; itimer_real_interval_us := 0; itimer_real_active := false;
     sigint_pending := false; sigalrm_pending := false; sigterm_pending := false;
     sigchld_pending := false; sig_stub_installed := false;
     sigaltstack_sp := sigaltstack_sp par; sigaltstack_size := sigaltstack_size par;
     sigaltstack_flags := sigaltstack_flags par |}.

(** The arguments as the child sees them: at most 32, each cut to 127 bytes. *)
Definition copy_args (argc : Z) (argv : list (list Z)) : list (list Z) :=
  let argc := if argc <? 0 then 0 else argc in
  let argc := if 32 <? argc then 32 else argc in
  map (take 127) (take (Z.to_nat argc) argv).

Definition wipe (m : umem) : umem :=
  at_region BIGPIE (zero_from 0 USER_BIGPIE_SIZE) (at_region HEAP_EXT (zero_from 0 USER_HEAP_EXT_SIZE) m).

(** The new task before its program is loaded. *)
Definition spawn_child (c : Z) (path : list Z) (p : proc) : proc :=
  let par := process_current_task p in
  let n := next_pid p in
  let p := clear_task c p in
  let p := with_next_pid (i32 (n + 1)) p in
  let p := with_ids c (fun _ => {| pid := n; exit_code := 0; name := [] |}) p in
  let p := with_fam (fput c (set_ppid (pid_of p par))) p in
  let p := with_sch (fun s => sched_spawn s c) p in
  let p := with_mem c (fun _ => fresh_mem) p in
  let p := with_cred c (fun _ => cred p par) p in
  let p := with_sess c (fun _ => sess p par) p in
  let p := with_dir c (fun d => {| cwd := cwd_or_root (cwd (dir p par)); root := root d |}) p in
  let p := with_sigs c (fun _ => spawn_sigs (sigs p par)) p in
  let p := link_child (Some par) c p in
  with_ids c (fun i => {| pid := pid i; exit_code := exit_code i;
                          name := default [] (task_name_from_path (Some path) TASK_NAME_MAX) |}) p.

(** The way out when the program cannot be loaded. *)
Definition spawn_undo (c : Z) (p : proc) : proc :=
  clear_task c (with_sch (fun s => scheduler_task_set_unused s c) (unlink_child c p)).

(** Clean pages and the arguments of the new program. *)
Definition spawn_prepare (c argc : Z) (argv : list (list Z)) (p : proc) : proc :=
  let p := with_user c (fun m => wipe (clear_regions (user_heap_limit (mem p c)) m)) p in
  with_start c (fun _ =>
    {| start_entry := 0; start_argv := copy_args argc argv; start_pending := false;
       start_at_phdr := 0; start_at_phnum := 0; start_at_entry := 0; start_at_base := 0 |}) p.

(** The loaded program's entry point is noted and the child may run. *)
Definition spawn_ready (c : Z) (img : elf_image) (p : proc) : proc :=
  with_start c (fun i =>
    {| start_entry := entry_rip img; start_argv := start_argv i; start_pending := true;
       start_at_phdr := at_phdr img; start_at_phnum := at_phnum img;
       start_at_entry := at_entry img; start_at_base := at_base img |}) p.
Definition spawn_enqueue (c : Z) (p : proc) : proc :=
  let p := with_sch (fun s => scheduler_task_set_blocked s c) p in
  with_sch (fun s => scheduler_task_make_runnable s c (scheduler_cpu_id s)) p.

(** [elf_exec] is [elf_loader_exec] on the child's address space. *)
Definition process_spawn_exec (elf_exec : list Z -> umem -> umem * option elf_image)
    (path : list Z) (argc : Z) (argv : list (list Z)) (p : proc) : proc * Z :=
  match task_alloc p with
  | None => (p, -1)
  | Some c =>
      let n := next_pid p in
      let p := spawn_child c path p in
      if USER_AS_MAX_TASKS <=? c then (spawn_undo c p, -1)
      else
        let p := spawn_prepare c argc argv p in
        let '(m, img) := elf_exec path (user p c) in
        let p := with_user c (fun _ => m) p in
        match img with
        | None => (spawn_undo c p, -1)
        | Some img => (spawn_enqueue c (spawn_ready c img p), n)
        end
  end.

(** *** Exec *)

Definition dfl_unless_ign (h : Z) : Z := if negb (h =? LINUX_SIG_IGN) then LINUX_SIG_DFL else h.

Definition exec_sigs (s : signals) : signals :=
  {| sigint_handler := dfl_unless_ign (sigint_handler s); sigalrm_handler := dfl_unless_ign (sigalrm_handler s);
     sigterm_handler := dfl_unless_ign (sigterm_handler s); sigchld_handler := dfl_unless_ign (sigchld_handler s);
     sigmask := sigmask s;
     itimer_real_next_us := itimer_real_next_us s; itimer_real_interval_us := itimer_real_interval_us s;
     itimer_real_active := itimer_real_active s;
     sigint_pending := false; sigalrm_pending := false; sigterm_pending := false; sigchld_pending := false;
     sig_stub_installed := false; sigaltstack_sp := 0; sigaltstack_size := 0; sigaltstack_flags := 2 |}.

Definition process_prepare_exec_current (p : proc) : proc * Z :=
  let cur := process_current_task p in
  if USER_AS_MAX_TASKS <=? cur then (p, -1)
  else
    let p := with_user cur (fun m => wipe (clear_regions (user_heap_limit (mem p cur)) m)) p in
    let p := with_mem cur (fun _ => fresh_mem) p in
    (with_sigs cur exec_sigs p, 0).

Definition process_set_fs_base (base : Z) (p : proc) : proc * Z :=
  (with_mem (process_current_task p) (fun m =>
     {| user_stack_top := user_stack_top m; user_heap_base := user_heap_base m; user_brk := user_brk m;
        user_heap_limit := user_heap_limit m; user_mmap_next := user_mmap_next m;
        user_vma_count := user_vma_count m; user_vmas := user_vmas m; fs_base := base |}) p, 0).

(** *** Credentials and sessions *)

Definition no_id : Z := 2 ^ 32 - 1.

Definition set_uids (u e : Z) (c : credentials) : credentials :=
  {| uid := u; gid := gid c; euid := e; egid := egid c; umask := umask c |}.
Definition set_gids (g e : Z) (c : credentials) : credentials :=
  {| uid := uid c; gid := g; euid := euid c; egid := e; umask := umask c |}.

Definition process_setuid (u : Z) (p : proc) : proc * Z :=
  let cur := process_current_task p in let c := cred p cur in
  if euid c =? 0 then (with_cred cur (set_uids u u) p, 0)
  else if (u =? uid c) || (u =? euid c) then (with_cred cur (set_uids (uid c) u) p, 0)
  else (p, no_id).

Definition process_setgid (g : Z) (p : proc) : proc * Z :=
  let cur := process_current_task p in let c := cred p cur in
  if euid c =? 0 then (with_cred cur (set_gids g g) p, 0)
  else if (g =? gid c) || (g =? egid c) then (with_cred cur (set_gids (gid c) g) p, 0)
  else (p, no_id).

Definition id_denied (new a b : Z) : bool := negb (new =? no_id) && negb (new =? a) && negb (new =? b).
Definition new_id (new old : Z) : Z := if negb (new =? no_id) then new else old.

Definition process_setreuid (r e : Z) (p : proc) : proc * Z :=
  let cur := process_current_task p in let c := cred p cur in
  if negb (euid c =? 0) && (id_denied r (uid c) (euid c) || id_denied e (uid c) (euid c)) then (p, -1)
  else (with_cred cur (set_uids (new_id r (uid c)) (new_id e (euid c))) p, 0).

Definition process_setregid (r e : Z) (p : proc) : proc * Z :=
  let cur := process_current_task p in let c := cred p cur in
  if negb (euid c =? 0) && (id_denied r (gid c) (egid c) || id_denied e (gid c) (egid c)) then (p, -1)
  else (with_cred cur (set_gids (new_id r (gid c)) (new_id e (egid c))) p, 0).

Definition do_sys_setresuid (r e sv : Z) (p : proc) : proc * Z :=
  let cur := process_current_task p in let c := cred p cur in
  if negb (euid c =? 0) && negb (sv =? no_id) && negb (sv =? uid c) && negb (sv =? euid c) &&
     ((r =? no_id) || negb (sv =? r)) && ((e =? no_id) || negb (sv =? e))
  then (p, - EPERM)
  else let '(p, rc) := process_setreuid r e p in (p, if rc =? 0 then 0 else - EPERM).

Definition do_sys_setresgid (r e sv : Z) (p : proc) : proc * Z :=
  let cur := process_current_task p in let c := cred p cur in
  if negb (euid c =? 0) && negb (sv =? no_id) && negb (sv =? gid c) && negb (sv =? egid c) &&
     ((r =? no_id) || negb (sv =? r)) && ((e =? no_id) || negb (sv =? e))
  then (p, - EPERM)
  else let '(p, rc) := process_setregid r e p in (p, if rc =? 0 then 0 else - EPERM).

Definition do_sys_setfsuid (u : Z) (p : proc) : proc * Z :=
  (fst (process_setreuid no_id u p), euid (cred p (process_current_task p))).
Definition do_sys_setfsgid (g : Z) (p : proc) : proc * Z :=
  (fst (process_setregid no_id g p), egid (cred p (process_current_task p))).

Definition process_set_umask (m : Z) (p : proc) : proc * Z :=
  let cur := process_current_task p in
  (with_cred cur (fun c => {| uid := uid c; gid := gid c; euid := euid c; egid := egid c;
                              umask := Z.land m 511 |}) p, umask (cred p cur)).

Definition set_pgid (g : Z) (s : session) : session :=
  {| pgid := g; sid := sid s; ctty_kind := ctty_kind s; ctty_id := ctty_id s |}.

Definition process_setpgid (n g : Z) (p : proc) : proc * Z :=
  let cur := process_current_task p in
  match task_find_by_pid p (if n =? 0 then pid_of p cur else n) with
  | None => (p, -1)
  | Some t =>
      if negb (sid (sess p t) =? sid (sess p cur)) then (p, -1)
      else
        let g := if g =? 0 then pid_of p t else g in
        if g <? 0 then (p, -1)
        else
          let leader_ok := if negb (g =? pid_of p t)
                           then match task_find_by_pid p g with
                                | None => false
                                | Some l => sid (sess p l) =? sid (sess p cur)
                                end
                           else true in
          if leader_ok then (with_sess t (set_pgid g) p, 0) else (p, -1)
  end.

Definition process_getpgid (n : Z) (p : proc) : Z :=
  match task_find_by_pid p (if n =? 0 then pid_of p (process_current_task p) else n) with
  | None => -1 | Some t => pgid (sess p t)
  end.

Definition process_getsid (n : Z) (p : proc) : Z :=
  match task_find_by_pid p (if n =? 0 then pid_of p (process_current_task p) else n) with
  | None => -1 | Some t => sid (sess p t)
  end.

Definition process_setsid (p : proc) : proc * Z :=
  let cur := process_current_task p in let n := pid_of p cur in
  if pgid (sess p cur) =? n then (p, -1)
  else (with_sess cur (fun _ => {| pgid := n; sid := n; ctty_kind := PROCESS_CTTY_NONE; ctty_id := -1 |}) p, n).

(** *** Boot *)

Definition proc_zero (f : fd_tables) : proc :=
  {| sch := sched_zero; next_pid := 1; ids := fun _ => zero_ident; fam := fun _ => no_family;
     cred := fun _ => zero_cred; sess := fun _ => zero_sess; dir := fun _ => zero_dirs;
     sigs := fun _ => zero_sigs; mem := fun _ => zero_mem; start := fun _ => zero_start;
     fork_tf := fun _ => zero_tf; user := fun _ _ _ => 0; fds := f |}.

(** [process_init] on the zeroed tables: the first process is task 0. *)
Definition process_init (f : fd_tables) : proc :=
  let p := proc_zero f in
  let p := with_ids 0 (fun _ => {| pid := 1; exit_code := 0; name := str "init" |}) p in
  let p := with_next_pid 2 p in
  let p := with_mem 0 (fun _ => fresh_mem) p in
  let p := with_cred 0 (fun _ => {| uid := 0; gid := 0; euid := 0; egid := 0; umask := 18 |}) p in
  let p := with_sess 0 (fun _ => {| pgid := 1; sid := 1; ctty_kind := PROCESS_CTTY_CONSOLE; ctty_id := -1 |}) p in
  let p := with_dir 0 (fun d => {| cwd := str "/"; root := root d |}) p in
  let p := with_sigs 0 (fun s =>
             {| sigint_handler := sigint_handler s; sigalrm_handler := sigalrm_handler s;
                sigterm_handler := sigterm_handler s; sigchld_handler := sigchld_handler s; sigmask := sigmask s;
                itimer_real_next_us := itimer_real_next_us s; itimer_real_interval_us := itimer_real_interval_us s;
                itimer_real_active := itimer_real_active s; sigint_pending := sigint_pending s;
                sigalrm_pending := sigalrm_pending s; sigterm_pending := sigterm_pending s;
                sigchld_pending := sigchld_pending s; sig_stub_installed := sig_stub_installed s;
                sigaltstack_sp := sigaltstack_sp s; sigaltstack_size := sigaltstack_size s; sigaltstack_flags := 2 |}) p in
  with_sch (fun _ => sched_boot) p.
End ops.
