(* ===== verification/ProcInv.v ===== *)
(** * Invariant of the process table

    What [Process.v] keeps true of the tree, the process ids and the scheduler's
    queues, for every sequence of calls. *)

From S2P Require Import Prelude Dll Path Sched Process.

(** The invariant speaks of four parts of the state: the scheduler [s], the
    process ids [P], the links [F] and the next process id [n]; [K q] lists the
    children of [q]. *)
Record pok (K : Z -> list Z) (s : sched) (P : Z -> Z) (F : Z -> family) (n : Z) : Prop := {
  po_sched : exists Q, sched_inv (-1) s Q;
  po_tree : tree F K;
  po_init : P 0 = 1 /\ state (ents s 0) <> TASK_UNUSED /\ state (ents s 0) <> TASK_ZOMBIE;
  po_next : 1 < n;
  po_pid t : 0 <= t < 64 -> state (ents s t) <> TASK_UNUSED -> 1 <= P t < n;
  po_uniq t u : 0 <= t < 64 -> 0 <= u < 64 -> state (ents s t) <> TASK_UNUSED ->
    state (ents s u) <> TASK_UNUSED -> P t = P u -> t = u;
  po_child q c : c ∈ K q ->
    0 <= c < 64 /\ state (ents s c) <> TASK_UNUSED /\
    0 <= q < 64 /\ state (ents s q) <> TASK_UNUSED /\ state (ents s q) <> TASK_ZOMBIE /\
    P q < P c /\ ppid (F c) = P q;
  po_parent c : 0 < c < 64 -> state (ents s c) <> TASK_UNUSED -> exists q, parent (F c) = Some q
}.

(** The scheduler moves: nobody is born, nobody dies. *)
Definition sched_moved (s s' : sched) : Prop :=
  (exists Q, sched_inv (-1) s' Q) /\
  forall t, 0 <= t < 64 ->
    (state (ents s' t) = TASK_UNUSED <-> state (ents s t) = TASK_UNUSED) /\
    (state (ents s' t) = TASK_ZOMBIE <-> state (ents s t) = TASK_ZOMBIE).

Lemma pok_moved K s s' P F n : pok K s P F n -> sched_moved s s' -> pok K s' P F n.
Proof.
  intros [? ? [? []] ? PP PU PC PA] [I M].
  assert (ML : forall t, 0 <= t < 64 -> state (ents s' t) <> TASK_UNUSED <-> state (ents s t) <> TASK_UNUSED).
  { intros t Ht. by destruct (M t Ht) as [-> _]. }
  assert (MZ : forall t, 0 <= t < 64 -> state (ents s' t) <> TASK_ZOMBIE <-> state (ents s t) <> TASK_ZOMBIE).
  { intros t Ht. by destruct (M t Ht) as [_ ->]. }
  constructor; auto.
  - rewrite ML, MZ by lia. auto.
  - intros t Ht. rewrite ML by done. auto.
  - intros t u Ht Hu. rewrite !ML by done. auto.
  - intros q c Hqc. destruct (PC q c Hqc) as (? & ? & ? & ? & ? & ? & ?). rewrite !ML, MZ by done. auto 10.
  - intros c Hc. rewrite ML by lia. auto.
Qed.

Lemma moved_refl K s P F n : pok K s P F n -> sched_moved s s.
Proof. intros H. split; [apply H | done]. Qed.

Lemma moved_runnable s Q t c :
  sched_inv (-1) s Q -> 0 <= t < 64 -> 0 <= c ->
  state (ents s t) <> TASK_UNUSED -> state (ents s t) <> TASK_ZOMBIE ->
  sched_moved s (scheduler_task_make_runnable s t c).
Proof.
  intros I Ht Hc H1 H2. split; [eexists; by apply make_runnable_ok|].
  intros u Hu. destruct (so_task _ _ _ I t Ht) as [Hid _].
  destruct (make_runnable_view s t c Hid) as [V _]. rewrite V.
  case_decide; subst; [|done]. split; (split; [done | congruence]).
Qed.

Lemma wake_cpu_nonneg s Q t : sched_inv (-1) s Q -> 0 <= wake_cpu s t.
Proof.
  intros I. unfold wake_cpu. destruct (local_small _ _ _ I) as [-> _].
  pose proof (so_local _ _ _ I). ztest; lia.
Qed.

Lemma moved_block s Q t :
  sched_inv (-1) s Q -> 0 <= t < 64 ->
  state (ents s t) <> TASK_UNUSED -> state (ents s t) <> TASK_ZOMBIE ->
  sched_moved s (scheduler_task_set_blocked s t).
Proof.
  intros I Ht H1 H2.
  destruct (leave_ok s Q t TASK_BLOCKED (fun c => c) I Ht) as (J & V1 & V2 & _); [done | done | lia |].
  split; [eexists; exact J|]. intros u Hu. unfold scheduler_task_set_blocked.
  destruct (decide (u = t)) as [->|Hne]; [rewrite V1; split; (split; [done | congruence]) | by rewrite V2].
Qed.

Lemma requeue_alive s Q c t :
  sched_inv (-1) s Q -> t ∈ requeue s Q c ->
  state (ents s t) = TASK_RUNNABLE \/ state (ents s t) = TASK_RUNNING.
Proof.
  intros I. unfold requeue.
  assert (H0 : t ∈ Q c -> state (ents s t) = TASK_RUNNABLE) by (intros H; by destruct (so_mem _ _ _ I _ _ H) as (_ & ? & _)).
  destruct (current _) as [p|]; [|auto].
  destruct (is_idle (ents s p)); simpl; [auto|].
  destruct (bool_decide_reflect (state (ents s p) = TASK_RUNNING)); [|auto].
  unfold qadd. rewrite upd_case. case_decide; [subst|auto].
  rewrite elem_of_app, list_elem_of_singleton. intros [? | ->]; auto.
Qed.

Lemma moved_yield s Q : sched_inv (-1) s Q -> sched_moved s (scheduler_yield s).
Proof.
  intros I. destruct (yield_ok s Q I) as (J & _ & _ & V1 & V2). split; [by eexists|].
  intros u Hu. destruct (decide (head (requeue s Q (local_cpu s)) = Some u)) as [E|E].
  - destruct (V1 u E) as [-> _].
    destruct (requeue_alive s Q _ u I (head_elem _ _ E)) as [-> | ->]; repeat split; done.
  - destruct (V2 u E) as [->|(_ & -> & ->)]; repeat split; done.
Qed.

Lemma moved_tick s Q : sched_inv (-1) s Q -> sched_moved s (scheduler_tick s).
Proof.
  intros I. split; [eexists; by apply tick_ok|]. intros u _. unfold scheduler_tick.
  destruct (scheduler_cpu_local s); [|done].
  destruct (match current _ with Some t => _ | None => _ end) as [t|]; [|done].
  destruct (_ && _); [|done]. simpl. rewrite upd_case. by case_decide; subst.
Qed.

Lemma moved_trans s1 s2 s3 : sched_moved s1 s2 -> sched_moved s2 s3 -> sched_moved s1 s3.
Proof.
  intros [_ M1] [I M2]. split; [done|]. intros t Ht.
  destruct (M2 t Ht) as [-> ->]. apply M1, Ht.
Qed.

(** A task without children dies. *)
Lemma pok_zombie K s P F n t :
  pok K s P F n -> 0 < t < 64 -> K t = [] -> state (ents s t) <> TASK_UNUSED ->
  pok K (scheduler_task_set_zombie s t) P F n.
Proof.
  intros [[Q I] ? [? []] ? PP PU PC PA] Ht HK HL.
  destruct (leave_ok s Q t TASK_ZOMBIE (fun c => c) I) as (J & V1 & V2 & _); [lia | done | done | lia |].
  change (leave_runqueue TASK_ZOMBIE (fun c => c) s t) with (scheduler_task_set_zombie s t) in *.
  set (s' := scheduler_task_set_zombie s t) in *. clearbody s'.
  assert (ML : forall u, state (ents s' u) <> TASK_UNUSED <-> state (ents s u) <> TASK_UNUSED).
  { intros u. destruct (decide (u = t)) as [->|Hne]; [rewrite V1; split; done | by rewrite V2]. }
  constructor; auto.
  - by eexists.
  - rewrite V2 by lia. auto.
  - intros u Hu. rewrite ML. auto.
  - intros u v Hu Hv. rewrite !ML. auto.
  - intros q c Hqc. destruct (PC q c Hqc) as (? & ? & ? & ? & ? & ? & ?). rewrite !ML.
    rewrite V2; [by auto 10|]. intros ->. rewrite HK in Hqc. by apply not_elem_of_nil in Hqc.
  - intros c Hc. rewrite ML. auto.
Qed.

(** A live task is hung under a live parent with a smaller process id; it may
    have been unlinked before ([F'], [K']). *)
Lemma pok_link K K' s P F F' n q c :
  pok K s P F n -> 0 <= c < 64 -> state (ents s c) <> TASK_UNUSED ->
  0 <= q < 64 -> state (ents s q) <> TASK_UNUSED -> state (ents s q) <> TASK_ZOMBIE -> P q < P c ->
  tree F' K' -> (forall x y, y ∈ K' x -> y <> c -> y ∈ K x) ->
  (forall x, x <> c -> parent (F' x) = parent (F x)) -> (forall x, ppid (F' x) = ppid (F x)) ->
  pok (klink (Some q) c K') s P (task_child_link P F' (Some q) c) n.
Proof.
  intros [I _ ? ? PP PU PC PA] Hc Lc Hq Lq Zq Hpq T HK HF Hpp.
  assert (Hne : Some q <> Some c) by (intros [= ->]; lia).
  destruct (link_ok P F' K' (Some q) c T Hne) as (T' & Ep & Epp).
  constructor; auto.
  - intros x y Hy. unfold klink in Hy. rewrite Epp, Hpp.
    destruct (decide (Some q = Some x)) as [[= <-]|Hx].
    + apply elem_of_cons in Hy as [->|Hy]; [rewrite decide_True by done; auto 10|].
      apply elem_of_del in Hy as [? Hy]. rewrite decide_False by done. apply PC; auto.
    + apply elem_of_del in Hy as [? Hy]. rewrite decide_False by done. apply PC; auto.
  - intros x Hx Lx. rewrite Ep. case_decide; [eauto|]. rewrite HF by done. auto.
Qed.

(** A zombie leaves the tree and the table. *)
Lemma pok_free K s P F n t :
  pok K s P F n -> 0 < t < 64 -> K t = [] ->
  pok (kdel t K) (sched_clear (scheduler_task_set_unused s t) t) (<[t := 0]> P)
      (<[t := no_family]> (task_child_unlink F t)) n.
Proof.
  intros [[Q I] T [? []] ? PP PU PC PA] Ht HK.
  destruct (leave_ok s Q t TASK_UNUSED (fun _ => -1) I) as (J & V1 & V2 & _); [lia | done | done | lia |].
  change (leave_runqueue TASK_UNUSED (fun _ => -1) s t) with (scheduler_task_set_unused s t) in *.
  set (s1 := scheduler_task_set_unused s t) in *. clearbody s1.
  assert (VS : forall u, state (ents (sched_clear s1 t) u) = if decide (t = u) then TASK_UNUSED else state (ents s u)).
  { intros u. simpl. rewrite upd_case. case_decide; [done|]. by rewrite V2. }
  destruct (unlink_ok F K t T) as (T' & P' & R').
  set (F1 := task_child_unlink F t) in *. clearbody F1.
  assert (Hpar : parent (F1 t) = None) by (rewrite R'; by rewrite decide_True).
  assert (EF : forall x, (<[t := no_family]> F1) x = if decide (x = t) then
     {| ppid := 0; parent := parent (F1 x); first_child := first_child (F1 x);
        sibling_prev := sibling_prev (F1 x); sibling_next := sibling_next (F1 x) |} else F1 x).
  { intros x. rewrite upd_case. repeat case_decide; subst; try done.
    destruct (tr_orphan _ _ T' x Hpar) as [-> ->]. rewrite Hpar, (tr_first _ _ T').
    unfold kdel. by rewrite HK. }
  assert (T2 : tree (<[t := no_family]> F1) (kdel t K)).
  { destruct T' as [T1 T2 T3 T4 T5]. constructor.
    - intros p. rewrite EF, <- T1. by case_decide.
    - intros p. eapply dseg_ext; [apply T2|]. intros x _. rewrite EF. by case_decide.
    - apply T3.
    - intros p c. rewrite T4, EF. by case_decide.
    - intros c. rewrite EF. case_decide; apply T5. }
  constructor; auto.
  - exists (qdel t Q). apply (fresh_ok s1 _ t zero_ent J); simpl; first [done | lia | auto].
  - rewrite VS, upd_ne by lia. rewrite decide_False by lia. auto.
  - intros u Hu. rewrite VS, upd_case. case_decide; [done|auto].
  - intros u v Hu Hv. rewrite !VS, !upd_case. repeat case_decide; try done. auto.
  - intros q c Hqc. apply elem_of_del in Hqc as [Hct Hqc].
    assert (Hqt : t <> q) by (intros ->; rewrite HK in Hqc; by apply not_elem_of_nil in Hqc).
    destruct (PC q c Hqc) as (? & ? & ? & ? & ? & ? & ?).
    rewrite !VS, !upd_ne, P' by done. rewrite !decide_False by done. auto 10.
  - intros c Hc. rewrite VS, EF. case_decide; [done|]. intros Lc. rewrite decide_False by done.
    rewrite R', decide_False by done. by apply PA.
Qed.

(** A free slot has no family. *)
Lemma pok_dead K s P F n c :
  pok K s P F n -> 0 <= c < 64 -> state (ents s c) = TASK_UNUSED ->
  K c = [] /\ parent (F c) = None /\ first_child (F c) = None /\
  sibling_prev (F c) = None /\ sibling_next (F c) = None.
Proof.
  intros [_ T _ _ _ _ PC _] Hc Hs.
  assert (Kc : K c = []).
  { destruct (K c) as [|x l] eqn:E; [done|]. destruct (PC c x) as (_ & _ & _ & ? & _); [rewrite E; left | done]. }
  assert (Pc : parent (F c) = None).
  { destruct (parent (F c)) as [q|] eqn:E; [|done]. apply (tr_par _ _ T) in E.
    destruct (PC q c E) as (_ & ? & _). done. }
  split; [done|]. split; [done|]. rewrite (tr_first _ _ T), Kc. split; [done|]. by apply T.
Qed.

Lemma tree_ppid F F' K :
  tree F K -> (forall x, F' x = set_ppid (ppid (F' x)) (F x)) -> tree F' K.
Proof.
  intros [T1 T2 T3 T4 T5] E. constructor.
  - intros p. rewrite E. apply T1.
  - intros p. eapply dseg_ext; [apply T2|]. intros x _. by rewrite E.
  - apply T3.
  - intros p c. rewrite T4, (E c). done.
  - intros c. rewrite E. apply T5.
Qed.

(** A task is born in a free slot, as the first child of [q]. *)
Lemma pok_birth K s s' P P' F F' n q c :
  pok K s P F n -> 0 <= c < 64 -> state (ents s c) = TASK_UNUSED ->
  0 <= q < 64 -> state (ents s q) <> TASK_UNUSED -> state (ents s q) <> TASK_ZOMBIE ->
  (exists Q, sched_inv (-1) s' Q) -> state (ents s' c) <> TASK_UNUSED ->
  (forall u, u <> c -> state (ents s' u) = state (ents s u)) ->
  P' c = n -> (forall u, u <> c -> P' u = P u) ->
  (forall x, F' x = set_ppid (ppid (F' x)) (F x)) -> (forall x, x <> c -> F' x = F x) ->
  pok (klink (Some q) c K) s' P' (task_child_link P' F' (Some q) c) (n + 1).
Proof.
  intros H Hc Dc Hq Lq Zq I' Lc VS Pc VP EF EF'.
  destruct (pok_dead K s P F n c H Hc Dc) as (Kc & Fc & _).
  destruct H as [I T [P0 [L0 Z0]] N1 PP PU PC PA].
  assert (Hqc : q <> c) by congruence.
  assert (H0c : 0 <> c) by (intros <-; done).
  destruct (link_ok P' F' K (Some q) c (tree_ppid F F' K T EF) ltac:(congruence)) as (T' & Ep & Epp).
  set (F2 := task_child_link P' F' (Some q) c) in *. clearbody F2.
  assert (Lx : forall u, u <> c -> state (ents s' u) <> TASK_UNUSED -> state (ents s u) <> TASK_UNUSED).
  { intros u Hu. by rewrite VS. }
  constructor; auto.
  - rewrite VP, VS by done. auto.
  - lia.
  - intros u Hu Lu. destruct (decide (u = c)) as [->|Hne]; [lia|].
    rewrite VP by done. specialize (PP u Hu (Lx u Hne Lu)). lia.
  - intros u v Hu Hv Lu Lv. destruct (decide (u = c)) as [->|Huc], (decide (v = c)) as [->|Hvc]; auto.
    + rewrite Pc, VP by done. specialize (PP v Hv (Lx v Hvc Lv)). lia.
    + rewrite Pc, VP by done. specialize (PP u Hu (Lx u Huc Lu)). lia.
    + rewrite !VP by done. auto.
  - intros x y Hy. rewrite Epp. unfold klink in Hy.
    assert (HK : y ∈ del c (K x) -> y <> c /\ x <> c /\ y ∈ K x).
    { intros [? Hx]%elem_of_del. repeat split; try done. intros ->. rewrite Kc in Hx. by apply not_elem_of_nil in Hx. }
    assert (Hold : y ∈ del c (K x) -> 0 <= y < 64 /\ state (ents s' y) <> TASK_UNUSED /\ 0 <= x < 64 /\
      state (ents s' x) <> TASK_UNUSED /\ state (ents s' x) <> TASK_ZOMBIE /\ P' x < P' y /\
      (if decide (y = c) then P' q else ppid (F' y)) = P' x).
    { intros (Hyc & Hxc & Hx)%HK. destruct (PC x y Hx) as (? & ? & ? & ? & ? & ? & ?).
      rewrite !VS, !VP, decide_False, EF' by done. auto 10. }
    destruct (decide (Some q = Some x)) as [[= <-]|Hx]; [|by apply Hold].
    apply elem_of_cons in Hy as [->|Hy]; [|by apply Hold].
    rewrite decide_True, !(VS q), Pc, (VP q) by done.
    specialize (PP q Hq Lq). split_all; auto; lia.
  - intros x Hx Lx'. rewrite Ep. case_decide as Hxc; [eauto|].
    destruct (PA x Hx (Lx x Hxc Lx')) as [z Hz]. exists z. by rewrite EF'.
Qed.

(** ** The calls *)

Section calls.
Context `{FD : fd_layer}.

Definition proc_ok (K : Z -> list Z) (p : proc) : Prop := pok K (sch p) (pid_of p) (fam p) (next_pid p).

Lemma find_live K p t : proc_ok K p -> 0 <= t < 64 -> st p t <> TASK_UNUSED ->
  task_find_by_pid p (pid_of p t) = Some t.
Proof.
  intros H Ht L. unfold task_find_by_pid. rewrite (scan_unique _ 0 64 t); [|lia|lia| |].
  - unfold task_ptr. ztest; [lia | done].
  - rewrite bool_decide_false by done. by rewrite Z.eqb_refl.
  - intros j Hj. rewrite andb_true_iff, negb_true_iff, bool_decide_eq_false, Z.eqb_eq.
    intros [Lj E]. eapply (po_uniq _ _ _ _ _ H); auto.
Qed.

Lemma task_ptr_scan f k t : task_ptr (scan f 0 k) = Some t -> 0 <= t < Z.of_nat k /\ f t = true.
Proof.
  unfold task_ptr. intros E. destruct (Z.ltb_spec (scan f 0 k) 0) as [|Hr]; [done|].
  injection E as E. destruct (scan_hit f 0 k t) as (R & B & _); [lia | done | lia |]. split; [lia | done].
Qed.

Lemma find_some p n t : task_find_by_pid p n = Some t ->
  0 <= t < 64 /\ st p t <> TASK_UNUSED /\ pid_of p t = n.
Proof.
  intros [R [B1 B2]%andb_true_iff]%task_ptr_scan.
  apply negb_true_iff, bool_decide_eq_false in B1. apply Z.eqb_eq in B2. split; [lia | done].
Qed.

Lemma find_init K p : proc_ok K p -> task_find_by_pid p 1 = Some 0.
Proof.
  intros H. destruct (po_init _ _ _ _ _ H) as (E & L & _). rewrite <- E. eapply find_live; eauto. lia.
Qed.

Lemma alloc_some p c : task_alloc p = Some c -> 0 <= c < 16 /\ st p c = TASK_UNUSED.
Proof. intros [R B%bool_decide_eq_true]%task_ptr_scan. split; [lia | done]. Qed.

Lemma children_bound K p q : proc_ok K p -> (length (K q) <= 64)%nat.
Proof.
  intros H. apply length_tasks; [apply (po_tree _ _ _ _ _ H)|].
  intros t Ht. by destruct (po_child _ _ _ _ _ H _ _ Ht).
Qed.

(** What [process_adopt_orphans] leaves alone. *)
Definition adopted (p p' : proc) : Prop := exists F, p' = with_fam (fun _ => F) p.

(** All children of [from] move to the first process. *)
Lemma adopt_loop_ok fuel from l K p m :
  proc_ok K p -> from <> 0 -> K from = l -> (length l <= fuel)%nat ->
  exists K', let r := adopt_loop fuel (Some 0) (head l) p m in
    proc_ok K' (fst r) /\ adopted p (fst r) /\ K' from = [] /\ K' 0 = rev l ++ K 0 /\
    (forall q, q <> 0 -> q <> from -> K' q = K q) /\
    (forall x, parent (fam (fst r) x) = if decide (x ∈ l) then Some 0 else parent (fam p x)).
Proof.
  intros H Hf. revert fuel K p m H. induction l as [|c l IH]; intros fuel K p m H E Hl.
  - exists K. assert (Er : adopt_loop fuel (Some 0) (head []) p m = (p, m)) by (by destruct fuel).
    rewrite Er. cbn [fst]. split; [done|]. split; [by exists (fam p); destruct p|].
    split; [done|]. split; [done|]. split; [done|]. intros x. rewrite decide_False; [done|]. apply not_elem_of_nil.
  - destruct fuel as [|fuel]; [simpl in Hl; lia|]. cbn [head adopt_loop].
    assert (Hc : c ∈ K from) by (rewrite E; left).
    destruct (po_child _ _ _ _ _ H _ _ Hc) as (Rc & Lc & Rf & Lf & Zf & Lt & _).
    destruct (po_init _ _ _ _ _ H) as (P0 & L0 & Z0).
    pose proof (po_pid _ _ _ _ _ H _ Rf Lf) as Pf.
    assert (N : sibling_next (fam p c) = head l).
    { destruct (tr_seg _ _ (po_tree _ _ _ _ _ H) from [] c l) as [_ N]; [by rewrite E | exact N]. }
    rewrite N.
    pose proof (tr_nodup _ _ (po_tree _ _ _ _ _ H) from) as ND. rewrite E in ND.
    apply NoDup_cons in ND as [Hcl ND].
    assert (Hc0 : c ∉ K 0).
    { intros Hc0. apply Hf. symmetry. by eapply (tree_disjoint _ _ _ _ _ (po_tree _ _ _ _ _ H)). }
    assert (H' : proc_ok (klink (Some 0) c K) (link_child (Some 0) c p)).
    { apply (pok_link K K (sch p) (pid_of p) (fam p) (fam p) (next_pid p) 0 c H); auto; [lia.. | apply H]. }
    destruct (IH fuel _ (link_child (Some 0) c p) (m + 1) H') as (K' & I1 & [F2 I2] & I3 & I4 & I5 & I6).
    + unfold klink. rewrite decide_False by congruence. rewrite E, del_cons. by apply del_notin.
    + simpl in Hl. lia.
    + exists K'. cbv zeta. split; [exact I1|]. split; [exists F2; rewrite I2; done|]. split; [exact I3|].
      split; [|split].
      * rewrite I4. unfold klink. rewrite decide_True, del_notin by done. simpl. by rewrite <- app_assoc.
      * intros q Hq0 Hqf. rewrite I5 by done. unfold klink. rewrite decide_False by congruence.
        apply del_notin. intros Hcq. apply Hqf. by eapply (tree_disjoint _ _ _ _ _ (po_tree _ _ _ _ _ H)).
      * intros x. rewrite I6.
        change (fam (link_child (Some 0) c p)) with (task_child_link (pid_of p) (fam p) (Some 0) c).
        destruct (link_ok (pid_of p) (fam p) K (Some 0) c (po_tree _ _ _ _ _ H)) as (_ & -> & _);
          [intros [= <-]; lia|].
        destruct (decide (x = c)) as [->|Hxc].
        -- rewrite (decide_True (P := c ∈ c :: l)) by left. by case_decide.
        -- destruct (decide (x ∈ l)).
           ++ rewrite decide_True by (by right). done.
           ++ rewrite decide_False; [done|]. by intros [?|?]%elem_of_cons.
Qed.

Lemma pok_pids K s P P' F n : pok K s P F n -> (forall t, P' t = P t) -> pok K s P' F n.
Proof.
  intros [? ? ? ? PP PU PC ?] E. constructor; auto; intros *; rewrite ?E; auto.
Qed.

(** The invariant does not read the other fields. *)
Lemma proc_ok_ext K p p' :
  proc_ok K p -> sch p' = sch p -> next_pid p' = next_pid p -> fam p' = fam p ->
  (forall t, pid_of p' t = pid_of p t) -> proc_ok K p'.
Proof.
  unfold proc_ok. intros H -> -> -> E. eapply pok_pids; [exact H | exact E].
Qed.

Lemma proc_moved K p f : proc_ok K p -> sched_moved (sch p) (f (sch p)) -> proc_ok K (with_sch f p).
Proof. intros H M. by eapply pok_moved. Qed.

Lemma wake_ok K p t :
  proc_ok K p -> 0 <= t < 64 -> st p t = TASK_BLOCKED -> proc_ok K (wake_task t p).
Proof.
  intros H Ht E. apply proc_moved; [done|]. destruct (po_sched _ _ _ _ _ H) as [Q I].
  unfold st in E. eapply moved_runnable; eauto; [by eapply wake_cpu_nonneg | congruence..].
Qed.

Lemma notify_ok K p par :
  proc_ok K p -> (forall q, par = Some q -> 0 <= q < 64) ->
  proc_ok K (process_notify_parent_sigchld par p).
Proof.
  intros H Hp. destruct par as [q|]; simpl; [|done]. destruct (_ || _); [done|].
  set (p1 := if negb _ then _ else p).
  assert (H1 : proc_ok K p1) by (unfold p1; destruct (negb _); [by apply (proc_ok_ext K p)|done]).
  destruct (bool_decide_reflect (st p1 q = TASK_BLOCKED)); [|done]. apply wake_ok; auto.
Qed.

(** The calls change the tree but keep the invariant; [t] is done with its children. *)
Lemma adopt_ok K p t :
  proc_ok K p -> 0 < t < 64 -> st p t <> TASK_UNUSED ->
  exists K', let p' := fst (process_adopt_orphans (pid_of p t) 1 p) in
    proc_ok K' p' /\ adopted p p' /\ K' t = [] /\ K' 0 = rev (K t) ++ K 0 /\
    (forall q, q <> 0 -> q <> t -> K' q = K q) /\
    (forall x, parent (fam p' x) = if decide (x ∈ K t) then Some 0 else parent (fam p x)).
Proof.
  intros H Ht L. unfold process_adopt_orphans.
  rewrite (find_live K) by (auto; lia). rewrite (find_init K) by done.
  rewrite (tr_first _ _ (po_tree _ _ _ _ _ H)).
  apply (adopt_loop_ok 64 t (K t) K p 0 H); [lia | done | by eapply children_bound].
Qed.

Lemma proc_zombie K p t :
  proc_ok K p -> 0 < t < 64 -> K t = [] -> st p t <> TASK_UNUSED ->
  proc_ok K (with_sch (fun s => scheduler_task_set_zombie s t) p).
Proof. intros H Ht HK L. by apply pok_zombie. Qed.

Lemma relink_init_ok K p t :
  proc_ok K p -> 0 < t < 64 -> st p t <> TASK_UNUSED ->
  proc_ok (klink (Some 0) t (kdel t K)) (link_child (Some 0) t (unlink_child t p)).
Proof.
  intros H Ht L. destruct (po_init _ _ _ _ _ H) as (P0 & L0 & Z0).
  destruct (unlink_ok (fam p) K t (po_tree _ _ _ _ _ H)) as (T & Epp & Ep).
  assert (P1 : pid_of p t <> 1).
  { intros E. rewrite <- P0 in E. apply (po_uniq _ _ _ _ _ H) in E; auto; lia. }
  pose proof (po_pid _ _ _ _ _ H t ltac:(lia) L).
  apply (pok_link K (kdel t K) (sch p) (pid_of p) (fam p) (task_child_unlink (fam p) t) (next_pid p) 0 t H);
    auto; try lia.
  - intros x y Hy _. by apply elem_of_del in Hy as [_ ?].
  - intros x Hx. rewrite Ep. by rewrite decide_False.
Qed.

Lemma die_ok K p t code :
  proc_ok K p -> 0 < t < 64 -> st p t <> TASK_UNUSED -> exists K', proc_ok K' (die t code p).
Proof.
  intros H Ht L. unfold die.
  set (p0 := with_ids t (set_exit code) p).
  assert (H0 : proc_ok K p0).
  { apply (proc_ok_ext K p); try done. intros u. unfold pid_of, p0. simpl. rewrite upd_case. by case_decide; subst. }
  destruct (adopt_ok K p0 t H0 Ht L) as (K1 & H1 & [F1 E1] & HK1 & _).
  set (p1 := fst (process_adopt_orphans (pid_of p0 t) 1 p0)) in *. 
  assert (L1 : st p1 t <> TASK_UNUSED) by (rewrite E1; exact L).
  clearbody p1. rewrite (find_init K1) by done.
  set (r := match parent (fam p1 t) with Some q => _ | None => _ end).
  assert (Hr : exists K2, proc_ok K2 (fst r) /\ K2 t = [] /\ st (fst r) t <> TASK_UNUSED /\
                forall q, snd r = Some q -> 0 <= q < 64).
  { unfold r. destruct (parent (fam p1 t)) as [q|] eqn:Ep.
    - destruct (sigchld_handler (sigs p1 q) =? LINUX_SIG_IGN); simpl.
      + exists (klink (Some 0) t (kdel t K1)). split; [by apply relink_init_ok|].
        split; [|split; [done|]].
        * unfold klink, kdel. rewrite decide_False by (intros [= ?]; lia). by rewrite HK1.
        * intros ? [= <-]. lia.
      + exists K1. split_all; try done. intros ? [= <-].
        apply (tr_par _ _ (po_tree _ _ _ _ _ H1)) in Ep. by destruct (po_child _ _ _ _ _ H1 _ _ Ep) as (_ & _ & ? & _).
    - by exists K1. }
  destruct r as [p2 par]. destruct Hr as (K2 & H2 & HK2 & L2 & Hq). exists K2.
  apply notify_ok; [by apply proc_zombie | exact Hq].
Qed.

Definition preserves (p p' : proc) : Prop := forall K, proc_ok K p -> exists K', proc_ok K' p'.

Lemma preserves_refl p : preserves p p.
Proof. intros K H. eauto. Qed.

Lemma preserves_trans p1 p2 p3 : preserves p1 p2 -> preserves p2 p3 -> preserves p1 p3.
Proof. intros A B K H. destruct (A K H) as [K' H']. eauto. Qed.

Lemma preserves_ext p p' :
  sch p' = sch p -> next_pid p' = next_pid p -> fam p' = fam p ->
  (forall t, pid_of p' t = pid_of p t) -> preserves p p'.
Proof. intros ? ? ? ? K H. exists K. by eapply proc_ok_ext. Qed.

Lemma init_pid K p t : proc_ok K p -> 0 <= t < 64 -> st p t <> TASK_UNUSED -> pid_of p t <> 1 -> 0 < t.
Proof.
  intros H Ht L N. destruct (po_init _ _ _ _ _ H) as (P0 & _).
  destruct (decide (t = 0)) as [->|]; [done | lia].
Qed.

Lemma kill_pid_ok n code p : preserves p (fst (process_kill_pid n code p)).
Proof.
  intros K H. unfold process_kill_pid.
  destruct (task_find_by_pid p n) as [t|] eqn:E; [|eauto].
  destruct (Z.eqb_spec n 1) as [|N]; [eauto|].
  destruct (find_some _ _ _ E) as (R & L & <-). simpl.
  eapply die_ok; eauto. pose proof (init_pid K p t H R L N). lia.
Qed.

Lemma kill_pgid_loop_ok k i pg code p killed :
  0 <= i -> i + Z.of_nat k <= 64 -> preserves p (fst (kill_pgid_loop k i pg code p killed)).
Proof.
  revert i p killed. induction k as [|k IH]; intros i p killed Hi Hk; [apply preserves_refl|].
  cbn [kill_pgid_loop]. destruct (_ || _ || _) eqn:B; [apply IH; lia|].
  apply orb_false_iff in B as [[B1%bool_decide_eq_false B2%Z.eqb_neq]%orb_false_iff _].
  eapply preserves_trans; [|apply IH; lia].
  intros K H. set (p0 := with_ids i (set_exit code) p).
  assert (H0 : proc_ok K p0).
  { apply (proc_ok_ext K p); try done. intros u. unfold pid_of, p0. simpl. rewrite upd_case. by case_decide; subst. }
  pose proof (init_pid K p i H ltac:(lia) B1 B2) as Hi0.
  destruct (adopt_ok K p0 i H0) as (K1 & H1 & [F1 E1] & HK1 & _); [lia | exact B1|].
  set (p1 := fst (process_adopt_orphans (pid_of p0 i) 1 p0)) in *.
  assert (L1 : st p1 i <> TASK_UNUSED) by (rewrite E1; exact B1). clearbody p1.
  assert (H2 : proc_ok K1 (with_sch (fun s => scheduler_task_set_zombie s i) p1)) by (apply proc_zombie; auto; lia).
  set (p2 := with_sch _ p1) in *. clearbody p2.
  destruct (parent (fam p2 i)) as [q|] eqn:Ep; [|eauto].
  destruct (bool_decide_reflect (st p2 q = TASK_BLOCKED)); [|eauto].
  exists K1. apply wake_ok; auto.
  apply (tr_par _ _ (po_tree _ _ _ _ _ H2)) in Ep. by destruct (po_child _ _ _ _ _ H2 _ _ Ep) as (_ & _ & ? & _).
Qed.

Lemma kill_pgid_ok pg code p : preserves p (fst (process_kill_pgid pg code p)).
Proof.
  unfold process_kill_pgid. destruct (pg <=? 0); [apply preserves_refl|].
  pose proof (kill_pgid_loop_ok 64 0 pg code p 0 ltac:(lia) ltac:(lia)) as H.
  by destruct (kill_pgid_loop 64 0 pg code p 0).
Qed.

Lemma signal_one_ok t sig p : 0 <= t < 64 -> preserves p (fst (process_signal_one t sig p)).
Proof.
  intros Ht. unfold process_signal_one.
  destruct (_ || _); [apply preserves_refl|].
  destruct (sig =? LINUX_SIGKILL); [destruct (_ =? 1); [apply preserves_refl | apply kill_pid_ok]|].
  destruct (if sig =? LINUX_SIGINT then _ else _) as [h|]; [|apply preserves_refl].
  destruct (h =? LINUX_SIG_IGN); [apply preserves_refl|].
  destruct (h =? LINUX_SIG_DFL); [destruct (_ =? 1); [apply preserves_refl | apply kill_pid_ok]|].
  cbn [fst]. intros K H. set (p1 := with_sigs t (set_pending sig) p).
  assert (H1 : proc_ok K p1) by (by apply (proc_ok_ext K p)).
  destruct (bool_decide_reflect (st p1 t = TASK_BLOCKED)); [|eauto]. exists K. by apply wake_ok.
Qed.

Lemma send_signal_ok n sig p : preserves p (fst (process_send_signal n sig p)).
Proof.
  unfold process_send_signal. destruct (n <=? 0); [apply preserves_refl|].
  destruct (task_find_by_pid p n) as [t|] eqn:E; [|apply preserves_refl].
  apply signal_one_ok. by destruct (find_some _ _ _ E).
Qed.

Lemma send_pgid_loop_ok k i pg sig p d :
  0 <= i -> i + Z.of_nat k <= 64 -> preserves p (fst (send_pgid_loop k i pg sig p d)).
Proof.
  revert i p d. induction k as [|k IH]; intros i p d Hi Hk; [apply preserves_refl|].
  cbn [send_pgid_loop]. destruct (_ || _ || _); [apply IH; lia|].
  pose proof (signal_one_ok i sig p ltac:(lia)) as H.
  destruct (process_signal_one i sig p) as [p' r]. eapply preserves_trans; [exact H | apply IH; lia].
Qed.

Lemma sys_kill_ok n sig p : preserves p (fst (do_sys_kill n sig p)).
Proof.
  unfold do_sys_kill. destruct (n =? 0); [apply preserves_refl|].
  destruct (sig =? 0); [destruct (0 <? n); apply preserves_refl|].
  destruct (_ && _ && _); [apply preserves_refl|].
  destruct (0 <? n).
  - pose proof (send_signal_ok n sig p) as H. by destruct (process_send_signal n sig p).
  - unfold process_send_signal_pgid. destruct (- n <=? 0); [apply preserves_refl|].
    pose proof (send_pgid_loop_ok 64 0 (- n) sig p 0 ltac:(lia) ltac:(lia)) as H.
    by destruct (send_pgid_loop 64 0 (- n) sig p 0).
Qed.

(** *** Waiting *)

(** The walk over the children [l] of the waiting task finds the first matching
    zombie, or tells whether any child matches at all. *)
Lemma wait_scan_spec F p m pre l fuel seen :
  fam p = F -> dseg (fun t => sibling_prev (F t)) (fun t => sibling_next (F t)) (pre ++ l) ->
  (length l <= fuel)%nat ->
  match wait_scan fuel m (head l) p seen with
  | (_, Some t) => exists l1 l2, l = l1 ++ t :: l2 /\ m t = true /\ st p t = TASK_ZOMBIE /\
                     forall u, u ∈ l1 -> m u = true -> st p u <> TASK_ZOMBIE
  | (b, None) => b = seen || existsb m l /\ forall u, u ∈ l -> m u = true -> st p u <> TASK_ZOMBIE
  end.
Proof.
  intros EF. revert pre fuel seen. induction l as [|c l IH]; intros pre fuel seen D Hf.
  - assert (E : wait_scan fuel m (head []) p seen = (seen, None)) by (by destruct fuel).
    rewrite E. simpl. rewrite orb_false_r. split; [done|]. intros u Hu. by apply not_elem_of_nil in Hu.
  - destruct fuel as [|fuel]; [simpl in Hf; lia|]. cbn [head wait_scan].
    destruct (D pre c l eq_refl) as [_ N]. rewrite <- EF in N. rewrite N.
    assert (D' : dseg (fun t => sibling_prev (F t)) (fun t => sibling_next (F t)) ((pre ++ [c]) ++ l)).
    { by rewrite <- app_assoc. }
    assert (Hf' : (length l <= fuel)%nat) by (simpl in Hf; lia).
    destruct (m c) eqn:M; cbn [negb].
    + destruct (bool_decide_reflect (st p c = TASK_ZOMBIE)) as [Z|Z].
      * exists [], l. split_all; try done. intros u Hu. by apply not_elem_of_nil in Hu.
      * specialize (IH (pre ++ [c]) fuel true D' Hf'). destruct (wait_scan fuel m (head l) p true) as [b [t|]].
        -- destruct IH as (l1 & l2 & -> & ? & ? & H). exists (c :: l1), l2. split_all; try done.
           intros u [->|Hu]%elem_of_cons; auto.
        -- destruct IH as [-> H]. simpl. rewrite M, orb_true_r. split; [done|].
           intros u [->|Hu]%elem_of_cons; auto.
    + specialize (IH (pre ++ [c]) fuel seen D' Hf'). destruct (wait_scan fuel m (head l) p seen) as [b [t|]].
      * destruct IH as (l1 & l2 & -> & ? & ? & H). exists (c :: l1), l2. split_all; try done.
        intros u [->|Hu]%elem_of_cons; [congruence | auto].
      * destruct IH as [-> H]. simpl. rewrite M. split; [done|].
        intros u [->|Hu]%elem_of_cons; [congruence | auto].
Qed.

Lemma zombie_free K p t : proc_ok K p -> 0 <= t < 64 -> st p t = TASK_ZOMBIE -> 0 < t /\ K t = [].
Proof.
  intros H Ht Z. destruct (po_init _ _ _ _ _ H) as (_ & _ & Z0).
  split; [destruct (decide (t = 0)) as [->|]; [done | lia]|].
  destruct (K t) as [|x l] eqn:E; [done|].
  destruct (po_child _ _ _ _ _ H t x) as (_ & _ & _ & _ & ? & _); [rewrite E; left | done].
Qed.

Lemma reap_ok K p t : proc_ok K p -> 0 <= t < 64 -> st p t = TASK_ZOMBIE ->
  proc_ok (kdel t K) (fst (reap t p)).
Proof.
  intros H Ht Z. destruct (zombie_free K p t H Ht Z) as [Ht0 HK].
  unfold proc_ok. eapply pok_pids; [apply (pok_free K (sch p) (pid_of p) (fam p) (next_pid p) t H); [lia | done]|].
  intros u. unfold pid_of. simpl. rewrite !upd_case. by case_decide.
Qed.

(** The caller of a system call: the running process. *)
Definition caller (p : proc) : Prop :=
  0 <= process_current_task p < 64 /\ st p (process_current_task p) = TASK_RUNNING.

Lemma sleep_ok p t : 0 <= t < 64 -> st p t = TASK_RUNNING ->
  preserves p (with_sch (fun s => scheduler_yield (scheduler_task_set_blocked s t)) p).
Proof.
  intros Ht R K H. exists K. destruct (po_sched _ _ _ _ _ H) as [Q I]. unfold st in R.
  apply proc_moved; [done|].
  pose proof (moved_block (sch p) Q t I Ht ltac:(congruence) ltac:(congruence)) as M.
  destruct M as [[Q' I'] M]. eapply moved_trans; [split; eauto | by eapply moved_yield].
Qed.

(** [walk]ing the children as the code does. *)
Definition children (p : proc) (q : Z) : list Z :=
  walk (fun t => sibling_next (fam p t)) 64 (first_child (fam p q)).

Lemma children_K K p q : proc_ok K p -> children p q = K q.
Proof.
  intros H. unfold children. rewrite (tr_first _ _ (po_tree _ _ _ _ _ H)).
  eapply (walk_dseg _ _ []); [apply (po_tree _ _ _ _ _ H) | by eapply children_bound].
Qed.

Lemma wait_ok n opt p : caller p -> preserves p (fst (process_wait_pid n opt p)).
Proof.
  intros [Hc R] K H. unfold process_wait_pid. set (par := process_current_task p) in *.
  rewrite (tr_first _ _ (po_tree _ _ _ _ _ H)).
  pose proof (wait_scan_spec (fam p) p (fun t => wait_matches n par t p) [] (K par) 64 false eq_refl
    (tr_seg _ _ (po_tree _ _ _ _ _ H) par) (children_bound K p par H)) as W.
  destruct (wait_scan _ _ _ p false) as [b [t|]].
  - destruct W as (l1 & l2 & E & _ & Z & _). replace (fst _) with (fst (reap t p)) by (by destruct b).
    eexists. apply reap_ok; eauto.
    destruct (po_child _ _ _ _ _ H par t) as (? & _); [rewrite E; set_solver | done].
  - destruct b; [|by exists K]. destruct (negb _); [by exists K|]. by apply (sleep_ok p par Hc R K).
Qed.

Lemma wait_any_ok p : caller p -> preserves p (fst (process_wait_any p)).
Proof.
  intros [Hc R] K H. unfold process_wait_any. set (par := process_current_task p) in *.
  rewrite (tr_first _ _ (po_tree _ _ _ _ _ H)).
  pose proof (wait_scan_spec (fam p) p (fun _ => true) [] (K par) 64 false eq_refl
    (tr_seg _ _ (po_tree _ _ _ _ _ H) par) (children_bound K p par H)) as W.
  destruct (wait_scan _ _ _ p false) as [b [t|]].
  - destruct W as (l1 & l2 & E & _ & Z & _). replace (fst _) with (fst (reap t p)) by (by destruct b).
    eexists. apply reap_ok; eauto.
    destruct (po_child _ _ _ _ _ H par t) as (? & _); [rewrite E; set_solver | done].
  - destruct b; [|by exists K]. by apply (sleep_ok p par Hc R K).
Qed.

Lemma exit_ok code p p' : caller p -> process_exit_current code p = Some p' -> preserves p p'.
Proof.
  intros [Hc R] E K H. unfold process_exit_current in E.
  destruct (Z.eqb_spec (pid_of p (process_current_task p)) 1) as [|N]; [done|]. injection E as <-.
  assert (L : st p (process_current_task p) <> TASK_UNUSED) by congruence.
  pose proof (init_pid K p _ H Hc L N). eapply die_ok; eauto. lia.
Qed.

(** *** Births *)

Definition born (K : Z -> list Z) (p p' : proc) (c : Z) : Prop :=
  proc_ok (klink (Some (process_current_task p)) c K) p'.

Lemma fork_some tf p p' n :
  process_fork tf p = (p', n) -> n <> -1 -> exists c, task_alloc p = Some c.
Proof.
  unfold process_fork. destruct (task_alloc p) as [c|]; [eauto|]. intros [= <- <-]. done.
Qed.

(** The four parts of the state the invariant reads, after a fork. *)
Lemma fork_eqs tf p c :
  let par := process_current_task p in
  task_alloc p = Some c -> (USER_AS_MAX_TASKS <=? c) || (USER_AS_MAX_TASKS <=? par) = false ->
  let p' := fst (process_fork tf p) in
  let ids' := <[c := {| pid := next_pid p; exit_code := 0; name := name (ids p par) |}]> (ids p) in
  snd (process_fork tf p) = next_pid p /\
  sch p' = scheduler_task_set_blocked (sch p) c /\ next_pid p' = i32 (next_pid p + 1) /\ ids p' = ids' /\
  fam p' = task_child_link (fun t => pid (ids' t)) (fput c (set_ppid (pid (ids' par))) (fam p)) (Some par) c.
Proof.
  intros par A B. unfold process_fork. rewrite A. fold par. rewrite B. repeat split.
Qed.

Lemma fork_ok K tf p p' n c :
  proc_ok K p -> caller p -> next_pid p < 2 ^ 31 - 1 -> task_alloc p = Some c ->
  process_fork tf p = (p', n) -> n <> -1 ->
  n = next_pid p /\ born K p p' c /\ next_pid p' = next_pid p + 1 /\
  st p' c = TASK_BLOCKED /\ (forall u, u <> c -> st p' u = st p u) /\
  pid_of p' c = next_pid p /\ (forall u, u <> c -> pid_of p' u = pid_of p u).
Proof.
  intros H [Hc R] Hn A E Hm. set (par := process_current_task p) in *.
  destruct (alloc_some p c A) as [Rc U].
  assert (B : (USER_AS_MAX_TASKS <=? c) || (USER_AS_MAX_TASKS <=? par) = false).
  { unfold process_fork in E. rewrite A in E. fold par in E. destruct (_ || _); [|done]. by injection E. }
  destruct (fork_eqs tf p c A B) as (E1 & E2 & E3 & E4 & E5). fold par in E4, E5.
  rewrite E in E1, E2, E3, E4, E5. cbn [fst snd] in *. clear E Hm B.
  pose proof (po_next _ _ _ _ _ H) as H1.
  rewrite i32_small in E3 by lia.
  destruct (po_sched _ _ _ _ _ H) as [Q I].
  destruct (leave_ok (sch p) Q c TASK_BLOCKED (fun c => c) I) as (J & V1 & V2 & _); [lia | done | done | lia |].
  change (leave_runqueue TASK_BLOCKED (fun c => c)) with scheduler_task_set_blocked in *.
  rewrite <- E2 in J, V1, V2.
  assert (P1 : pid_of p' c = next_pid p) by (unfold pid_of; rewrite E4, upd_eq; done).
  assert (P2 : forall u, u <> c -> pid_of p' u = pid_of p u).
  { intros u Hu. unfold pid_of. by rewrite E4, upd_ne. }
  split; [done|]. split; [|by auto].
  unfold born, proc_ok. fold par. rewrite E3, E5, <- E4.
  apply (pok_birth K (sch p) _ (pid_of p) _ (fam p) _ (next_pid p) par c H); auto.
  - lia.
  - unfold st in R. congruence.
  - unfold st in R. congruence.
  - by eexists.
  - congruence.
  - intros x. unfold fput. rewrite upd_case. case_decide; subst; simpl; [done|]. by destruct (fam p x).
  - intros x Hx. unfold fput. by rewrite upd_ne.
Qed.

Lemma set_state_runnable_ok n p :
  (forall t, task_find_by_pid p n = Some t -> st p t <> TASK_ZOMBIE) ->
  preserves p (fst (process_set_state n TASK_RUNNABLE p)).
Proof.
  intros HZ K H. unfold process_set_state. destruct (task_find_by_pid p n) as [t|] eqn:E; [|eauto].
  destruct (find_some _ _ _ E) as (R & L & _). destruct (po_sched _ _ _ _ _ H) as [Q I].
  exists K. apply proc_moved; [done|].
  apply (moved_runnable (sch p) Q); [done | done | by eapply wake_cpu_nonneg | done | by apply HZ].
Qed.

Lemma fork_compat_ok tf p : caller p -> next_pid p < 2 ^ 31 - 1 -> preserves p (fst (do_sys_fork_compat tf p)).
Proof.
  intros C Hn K H. unfold do_sys_fork_compat.
  destruct (process_fork tf p) as [p1 n] eqn:E.
  assert (Hf : n = -1 /\ p1 = p \/ n <> -1).
  { destruct (decide (n = -1)) as [->|]; [left|by right]. split; [done|].
    unfold process_fork in E. destruct (task_alloc p) as [c|]; [|by injection E as <-].
    destruct (_ || _); [by injection E as <-|]. injection E as _ En.
    pose proof (po_next _ _ _ _ _ H). lia. }
  destruct Hf as [[-> ->]|Hn1]; [simpl; eauto|].
  destruct (fork_some tf p p1 n E Hn1) as [c A].
  destruct (fork_ok K tf p p1 n c H C Hn A E Hn1) as (-> & B & _ & S & _ & P & _).
  pose proof (po_next _ _ _ _ _ H). destruct (Z.ltb_spec (next_pid p) 0); [lia|].
  destruct (Z.ltb_spec 0 (next_pid p)); [|lia]. cbn [fst].
  set (p2 := with_fds _ p1). assert (Hp2 : proc_ok (klink (Some (process_current_task p)) c K) p2) by (by apply (proc_ok_ext _ p1)).
  apply (set_state_runnable_ok (next_pid p) p2) with (K := klink (Some (process_current_task p)) c K); [|exact Hp2].
  intros t (Rt & Lt & Pt)%find_some. destruct (alloc_some p c A) as [Rc _].
  assert (t = c) as ->; [|change (st p1 c <> TASK_ZOMBIE); congruence].
  apply (po_uniq _ _ _ _ _ Hp2); auto; [lia| |].
  - change (st p1 c <> TASK_UNUSED). congruence.
  - change (pid_of p1 t = pid_of p1 c). change (pid_of p1 t = next_pid p) in Pt. congruence.
Qed.

Lemma spawn_eqs path p c :
  let par := process_current_task p in let p' := spawn_child c path p in
  sch p' = sched_spawn (sched_clear (sch p) c) c /\ next_pid p' = i32 (next_pid p + 1) /\
  (forall u, pid_of p' u = if decide (c = u) then next_pid p else pid_of p u) /\
  exists P', (forall u, P' u = pid_of p' u) /\
  fam p' = task_child_link P' (fput c (set_ppid (P' par)) (<[c := no_family]> (fam p))) (Some par) c.
Proof.
  intros par p'. split; [done|]. split; [done|].
  assert (E : forall u, pid_of p' u = if decide (c = u) then next_pid p else pid_of p u).
  { intros u. unfold pid_of, p', spawn_child. cbn. rewrite !upd_case. repeat case_decide; done. }
  split; [exact E|].
  exists (fun u => pid ((<[c := {| pid := next_pid p; exit_code := 0; name := [] |}]> (<[c := zero_ident]> (ids p))) u)).
  split; [|done]. intros u. rewrite E. unfold pid_of. rewrite !upd_case. by case_decide.
Qed.

Lemma spawn_child_ok K path p c :
  proc_ok K p -> caller p -> next_pid p < 2 ^ 31 - 1 -> 0 <= c < 64 -> st p c = TASK_UNUSED ->
  born K p (spawn_child c path p) c /\ st (spawn_child c path p) c = TASK_BLOCKED.
Proof.
  intros H [Hc R] Hn Rc U. set (par := process_current_task p) in *.
  destruct (spawn_eqs path p c) as (E1 & E2 & E3 & P' & E4 & E5). fold par in E5.
  set (p' := spawn_child c path p) in *. clearbody p'.
  pose proof (po_next _ _ _ _ _ H). rewrite i32_small in E2 by lia.
  destruct (po_sched _ _ _ _ _ H) as [Q I].
  assert (VS : forall u, state (ents (sch p') u) = if decide (c = u) then TASK_BLOCKED else state (ents (sch p) u)).
  { intros u. rewrite E1. simpl. rewrite !upd_case. by case_decide. }
  split; [|unfold st; by rewrite VS, decide_True].
  unfold born, proc_ok. fold par.
  apply (pok_pids _ _ P'); [|intros; by rewrite E4]. rewrite E5, E2.
  apply (pok_birth K (sch p) _ (pid_of p) _ (fam p) _ (next_pid p) par c H); auto.
  - unfold st in R. congruence.
  - unfold st in R. congruence.
  - exists Q. rewrite E1. apply fresh_ok; simpl; rewrite ?upd_eq; try done; [|by right].
    apply fresh_ok; simpl; try done. by left.
  - by rewrite VS, decide_True.
  - intros u Hu. by rewrite VS, decide_False.
  - by rewrite E4, E3, decide_True.
  - intros u Hu. by rewrite E4, E3, decide_False.
  - destruct (pok_dead _ _ _ _ _ c H Rc U) as (_ & D1 & D2 & D3 & D4).
    intros x. unfold fput. rewrite !upd_case. repeat case_decide; subst; simpl; try done.
    + destruct (fam p x); simplify_eq/=. done.
    + by destruct (fam p x).
  - intros x Hx. unfold fput. by rewrite !upd_ne.
Qed.

Lemma undo_ok K p c :
  proc_ok K p -> 0 < c < 64 -> K c = [] -> proc_ok (kdel c K) (spawn_undo c p).
Proof.
  intros H Hc HK. unfold proc_ok.
  eapply pok_pids; [apply (pok_free K (sch p) (pid_of p) (fam p) (next_pid p) c H Hc HK)|].
  intros u. unfold pid_of. simpl. rewrite !upd_case. by case_decide.
Qed.

Definition same_core (p p' : proc) : Prop :=
  sch p' = sch p /\ next_pid p' = next_pid p /\ fam p' = fam p /\ ids p' = ids p.

Lemma core_refl p : same_core p p.
Proof. done. Qed.

Lemma core_user t f p p' : same_core p p' -> same_core p (with_user t f p').
Proof. done. Qed.

Lemma core_start t f p p' : same_core p p' -> same_core p (with_start t f p').
Proof. done. Qed.

Lemma core_ok K p p' : proc_ok K p -> same_core p p' -> proc_ok K p'.
Proof.
  intros H (? & ? & ? & E). apply (proc_ok_ext K p); try done. intros t. unfold pid_of. by rewrite E.
Qed.

Lemma core_trans p1 p2 p3 : same_core p1 p2 -> same_core p2 p3 -> same_core p1 p3.
Proof. intros (? & ? & ? & ?) (? & ? & ? & ?). repeat split; congruence. Qed.

Lemma prepare_core c argc argv p : same_core p (spawn_prepare c argc argv p) /\ cred (spawn_prepare c argc argv p) = cred p.
Proof. done. Qed.

Lemma ready_core c img p : same_core p (spawn_ready c img p) /\ cred (spawn_ready c img p) = cred p.
Proof. done. Qed.

Lemma load_core c m p : same_core p (with_user c (fun _ => m) p) /\ cred (with_user c (fun _ => m) p) = cred p.
Proof. done. Qed.

(** The three ways [process_spawn_exec] ends. *)
Lemma spawn_cases elf path argc argv p :
  process_spawn_exec elf path argc argv p = (p, -1) \/
  exists c p2, task_alloc p = Some c /\ same_core (spawn_child c path p) p2 /\
    cred p2 = cred (spawn_child c path p) /\
    (process_spawn_exec elf path argc argv p = (spawn_undo c p2, -1) \/
     process_spawn_exec elf path argc argv p = (spawn_enqueue c p2, next_pid p)).
Proof.
  unfold process_spawn_exec. destruct (task_alloc p) as [c|]; [right; exists c|by left].
  generalize (spawn_child c path p). intros p1.
  destruct (USER_AS_MAX_TASKS <=? c); [exists p1; auto using core_refl|].
  destruct (prepare_core c argc argv p1) as [C2 G2]. revert C2 G2. generalize (spawn_prepare c argc argv p1).
  intros p2 C2 G2. destruct (elf path (user p2 c)) as [m img].
  destruct (load_core c m p2) as [C3 G3]. revert C3 G3. generalize (with_user c (fun _ => m) p2). intros p3 C3 G3.
  destruct img as [img|].
  - destruct (ready_core c img p3) as [C4 G4]. exists (spawn_ready c img p3).
    split; [done|]. split; [eauto using core_trans|]. split; [congruence | by right].
  - exists p3. split; [done|]. split; [eauto using core_trans|]. split; [congruence | by left].
Qed.

Lemma spawn_ok elf path argc argv p :
  caller p -> next_pid p < 2 ^ 31 - 1 -> preserves p (fst (process_spawn_exec elf path argc argv p)).
Proof.
  intros C Hn K H. destruct (spawn_cases elf path argc argv p) as [->|(c & p2 & A & C2 & _ & Hr)]; [eauto|].
  destruct (alloc_some p c A) as [Rc U].
  destruct (spawn_child_ok K path p c H C Hn ltac:(lia) U) as [B S].
  destruct (pok_dead _ _ _ _ _ c H ltac:(lia) U) as (Kc & _).
  assert (Hc0 : 0 < c).
  { destruct (po_init _ _ _ _ _ H) as (_ & L0 & _). destruct (decide (c = 0)) as [->|]; [done | lia]. }
  set (par := process_current_task p) in *. unfold born in B. fold par in B.
  set (K1 := klink (Some par) c K) in *.
  assert (H2 : proc_ok K1 p2) by (by eapply core_ok).
  assert (K1c : K1 c = []).
  { unfold K1, klink. rewrite decide_False, Kc; [done|]. intros [= E].
    destruct C as [_ R]. fold par in R. rewrite E in R. congruence. }
  destruct Hr as [->| ->]; cbn [fst].
  - eexists. apply (undo_ok K1); [done | lia | done].
  - exists K1. assert (S2 : state (ents (sch p2) c) = TASK_BLOCKED) by (destruct C2 as (-> & _); exact S).
    destruct (po_sched _ _ _ _ _ H2) as [Q I].
    pose proof (moved_block (sch p2) Q c I ltac:(lia) ltac:(congruence) ltac:(congruence)) as M.
    set (p3 := with_sch (fun s => scheduler_task_set_blocked s c) p2).
    assert (H3 : proc_ok K1 p3) by (by apply proc_moved).
    change (spawn_enqueue c p2) with (with_sch (fun s => scheduler_task_make_runnable s c (scheduler_cpu_id s)) p3).
    apply proc_moved; [done|]. destruct (po_sched _ _ _ _ _ H3) as [Q3 I3].
    destruct (local_small _ _ _ I3) as [-> _]. pose proof (so_local _ _ _ I3).
    destruct (proj2 M c ltac:(lia)) as [M1 M2].
    apply (moved_runnable (sch p3) Q3); auto; [lia | lia | |].
    + intros E%M1. congruence.
    + intros E%M2. congruence.
Qed.

(** ** All sequences of calls *)

Inductive call :=
  | Fork (tf : trap_frame) | Vfork (tf : trap_frame)
  | SpawnExec (elf : list Z -> umem -> umem * option elf_image) (path : list Z) (argc : Z) (argv : list (list Z))
  | Exit (code : Z) | WaitPid (n options : Z) | WaitAny | Kill (n sig : Z) | KillPgid (g code : Z)
  | PrepareExec | SetFsBase (b : Z)
  | Setuid (u : Z) | Setgid (g : Z) | Setreuid (r e : Z) | Setregid (r e : Z)
  | Setresuid (r e s : Z) | Setresgid (r e s : Z) | Setfsuid (u : Z) | Setfsgid (g : Z)
  | Umask (m : Z) | Setpgid (n g : Z) | Setsid.

(** [None]: the machine halts. *)
Definition run_call (c : call) (p : proc) : option proc :=
  match c with
  | Fork tf => Some (fst (do_sys_fork_compat tf p))
  | Vfork tf => Some (fst (do_sys_vfork_compat tf p))
  | SpawnExec elf path argc argv => Some (fst (process_spawn_exec elf path argc argv p))
  | Exit code => process_exit_current code p
  | WaitPid n o => Some (fst (process_wait_pid n o p))
  | WaitAny => Some (fst (process_wait_any p))
  | Kill n sig => Some (fst (do_sys_kill n sig p))
  | KillPgid g code => Some (fst (process_kill_pgid g code p))
  | PrepareExec => Some (fst (process_prepare_exec_current p))
  | SetFsBase b => Some (fst (process_set_fs_base b p))
  | Setuid u => Some (fst (process_setuid u p))
  | Setgid g => Some (fst (process_setgid g p))
  | Setreuid r e => Some (fst (process_setreuid r e p))
  | Setregid r e => Some (fst (process_setregid r e p))
  | Setresuid r e s => Some (fst (do_sys_setresuid r e s p))
  | Setresgid r e s => Some (fst (do_sys_setresgid r e s p))
  | Setfsuid u => Some (fst (do_sys_setfsuid u p))
  | Setfsgid g => Some (fst (do_sys_setfsgid g p))
  | Umask m => Some (fst (process_set_umask m p))
  | Setpgid n g => Some (fst (process_setpgid n g p))
  | Setsid => Some (fst (process_setsid p))
  end.

(** The running process makes a call, or the scheduler acts. Process ids do not
    run out: fewer than 2^31 processes are created. *)
Inductive proc_step : proc -> proc -> Prop :=
  | proc_call p c p' : caller p -> next_pid p < 2 ^ 31 - 1 -> run_call c p = Some p' -> proc_step p p'
  | proc_yield p : proc_step p (with_sch scheduler_yield p)
  | proc_tick p : proc_step p (with_sch scheduler_tick p).

Lemma keep_ids p p' : same_core p p' -> preserves p p'.
Proof. intros C K H. exists K. by eapply core_ok. Qed.

Lemma core_setreuid r e p : same_core p (fst (process_setreuid r e p)).
Proof. unfold process_setreuid. by destruct (_ && _). Qed.

Lemma core_setregid r e p : same_core p (fst (process_setregid r e p)).
Proof. unfold process_setregid. by destruct (_ && _). Qed.

Lemma cred_core c p p' :
  match c with
  | PrepareExec | SetFsBase _ | Setuid _ | Setgid _ | Setreuid _ _ | Setregid _ _ | Setresuid _ _ _
  | Setresgid _ _ _ | Setfsuid _ | Setfsgid _ | Umask _ | Setpgid _ _ | Setsid => True
  | _ => False
  end -> run_call c p = Some p' -> same_core p p'.
Proof.
  destruct c; intros []; cbn [run_call]; intros [= <-].
  - unfold process_prepare_exec_current. by destruct (_ <=? _).
  - done.
  - unfold process_setuid. destruct (_ =? 0); [done|]. by destruct (_ || _).
  - unfold process_setgid. destruct (_ =? 0); [done|]. by destruct (_ || _).
  - apply core_setreuid.
  - apply core_setregid.
  - unfold do_sys_setresuid. destruct (_ && _ && _ && _ && _ && _); [done|].
    pose proof (core_setreuid r e p) as C. by destruct (process_setreuid r e p).
  - unfold do_sys_setresgid. destruct (_ && _ && _ && _ && _ && _); [done|].
    pose proof (core_setregid r e p) as C. by destruct (process_setregid r e p).
  - apply core_setreuid.
  - apply core_setregid.
  - done.
  - unfold process_setpgid. destruct (task_find_by_pid _ _) as [t|]; [|done].
    destruct (negb _); [done|]. set (h := if g =? 0 then _ else g). destruct (h <? 0); [done|].
    by destruct (if negb (h =? _) then _ else true).
  - unfold process_setsid. by destruct (_ =? _).
Qed.

Lemma step_ok p p' : proc_step p p' -> preserves p p'.
Proof.
  intros [q c q' C Hn E|q|q].
  - destruct c; try (apply keep_ids; eapply cred_core; [|exact E]; exact I); cbn [run_call] in E; try injection E as <-.
    + by apply fork_compat_ok.
    + unfold do_sys_vfork_compat. pose proof (fork_compat_ok tf q C Hn) as F.
      destruct (do_sys_fork_compat tf q) as [q1 n]. cbn [fst] in *.
      destruct (0 <? n); [|done]. eapply preserves_trans; [exact F|].
      intros K H. exists K. destruct (po_sched _ _ _ _ _ H) as [Q I]. apply proc_moved; [done|]. by eapply moved_yield.
    + by apply spawn_ok.
    + by eapply exit_ok.
    + by apply wait_ok.
    + by apply wait_any_ok.
    + apply sys_kill_ok.
    + apply kill_pgid_ok.
  - intros K H. exists K. destruct (po_sched _ _ _ _ _ H) as [Q I]. apply proc_moved; [done|]. by eapply moved_yield.
  - intros K H. exists K. destruct (po_sched _ _ _ _ _ H) as [Q I]. apply proc_moved; [done|]. by eapply moved_tick.
Qed.

Lemma process_init_ok f : proc_ok (fun _ => []) (process_init f).
Proof.
  assert (S : forall t, 0 <= t < 64 -> state (ents sched_boot t) <> TASK_UNUSED -> t = 0).
  { intros t Ht. rewrite boot_ents by done. by case_decide. }
  unfold proc_ok. constructor.
  - exists (fun _ => []). apply boot_ok.
  - constructor; try done.
    + intros p. apply dseg_nil.
    + intros p. apply NoDup_nil_2.
    + intros p c. simpl. split; [|done]. intros H. by apply not_elem_of_nil in H.
  - split; [done|]. change (sch (process_init f)) with sched_boot. by rewrite boot_ents by lia.
  - done.
  - intros t Ht L. rewrite (S t Ht L). by vm_compute.
  - intros t u Ht Hu Lt Lu _. rewrite (S t Ht Lt). symmetry. by apply S.
  - intros q c H. by apply not_elem_of_nil in H.
  - intros c Hc L. apply S in L; lia.
Qed.

Lemma proc_reachable_ok f p : rtc proc_step (process_init f) p -> exists K, proc_ok K p.
Proof.
  intros H. assert (I : exists K, proc_ok K (process_init f)) by (eexists; apply process_init_ok).
  revert I. induction H as [|p0 p1 p2 S _ IH]; [done|]. intros [K I]. apply IH.
  by apply (step_ok p0 p1 S K).
Qed.

Definition live (p : proc) (t : Z) : Prop := 0 <= t < 64 /\ st p t <> TASK_UNUSED.

Lemma zombie_states K p t u : proc_ok K p -> 0 <= t < 64 ->
  st (with_sch (fun s => scheduler_task_set_zombie s t) p) u = if decide (u = t) then TASK_ZOMBIE else st p u.
Proof.
  intros H Ht. destruct (po_sched _ _ _ _ _ H) as [Q I]. destruct (so_task _ _ _ I t Ht) as [Hid _].
  destruct (leave_view (sch p) t TASK_ZOMBIE (fun c => c) Hid) as [V _]. apply V.
Qed.

(** What the parent of a dead process sees. *)
Lemma notify_spec K p q :
  proc_ok K p -> live p q -> st p q <> TASK_ZOMBIE ->
  let p' := process_notify_parent_sigchld (Some q) p in
  st p' q = (if decide (st p q = TASK_BLOCKED) then TASK_RUNNABLE else st p q) /\
  (forall u, u <> q -> st p' u = st p u) /\
  sigchld_pending (sigs p' q) = (negb (sigchld_handler (sigs p q) =? LINUX_SIG_IGN) || sigchld_pending (sigs p q)) /\
  fam p' = fam p /\ ids p' = ids p.
Proof.
  intros H [Hq Lq] Zq. destruct (po_sched _ _ _ _ _ H) as [Q I]. destruct (so_task _ _ _ I q Hq) as [Hid _].
  unfold process_notify_parent_sigchld. rewrite !bool_decide_false by done. cbn [orb].
  destruct (make_runnable_view (sch p) q (wake_cpu (sch p) q) Hid) as [V _].
  destruct (negb (sigchld_handler (sigs p q) =? LINUX_SIG_IGN)); unfold wake_task, st; simpl;
    destruct (bool_decide_reflect (state (ents (sch p) q) = TASK_BLOCKED)) as [B|B]; simpl;
    rewrite ?V, ?upd_eq; (split; [repeat case_decide; done|]); (split; [|done]);
    intros u Hu; rewrite ?V; by repeat case_decide.
Qed.

(** Dying, in terms of the code's walks: [c0] is the task the dead one hangs under
    afterwards. *)
Lemma die_spec K p t q code :
  proc_ok K p -> 0 < t < 64 -> live p t -> parent (fam p t) = Some q ->
  let p' := die t code p in
  let q' := if sigchld_handler (sigs p q) =? LINUX_SIG_IGN then 0 else q in
  exists K', proc_ok K' p' /\ K' t = [] /\
  st p' t = TASK_ZOMBIE /\ ids p' t = set_exit code (ids p t) /\ parent (fam p' t) = Some q' /\
  (forall c, c ∈ K t -> parent (fam p' c) = Some 0) /\
  st p' q' = (if decide (st p q' = TASK_BLOCKED) then TASK_RUNNABLE else st p q') /\
  (forall u, u <> t -> u <> q' -> st p' u = st p u) /\
  sigchld_pending (sigs p' q') = (negb (sigchld_handler (sigs p q') =? LINUX_SIG_IGN) || sigchld_pending (sigs p q')).
Proof.
  intros H Ht [_ L] Ep p' q'. unfold p', die. clear p'.
  set (p0 := with_ids t (set_exit code) p) in *.
  assert (H0 : proc_ok K p0).
  { apply (proc_ok_ext K p); try done. intros u. unfold pid_of, p0. simpl. rewrite upd_case. by case_decide; subst. }
  assert (I0 : ids p0 t = set_exit code (ids p t)) by apply upd_eq.
  destruct (adopt_ok K p0 t H0 Ht L) as (K1 & H1 & [F1 E1] & HK1 & _ & _ & Hpar1).
  set (p1 := fst (process_adopt_orphans (pid_of p0 t) 1 p0)) in *.
  assert (S1 : sch p1 = sch p) by (by rewrite E1). assert (G1 : sigs p1 = sigs p) by (by rewrite E1).
  assert (I1 : ids p1 t = set_exit code (ids p t)) by (by rewrite E1).
  assert (Htt : t ∉ K t).
  { intros X. destruct (po_child _ _ _ _ _ H t t X) as (_ & _ & _ & _ & _ & ? & _). lia. }
  assert (Q1 : parent (fam p1 t) = Some q) by (rewrite Hpar1, decide_False by done; exact Ep).
  assert (C1 : forall c, c ∈ K t -> parent (fam p1 c) = Some 0 /\ c <> t).
  { intros c Hc. rewrite Hpar1, decide_True by done. split; [done|]. by intros ->. }
  clear E1 Hpar1. clearbody p1. clearbody p0. rewrite (find_init K1) in * by done. rewrite Q1 in *.
  pose proof Q1 as Q2. apply (tr_par _ _ (po_tree _ _ _ _ _ H1)) in Q2.
  destruct (po_child _ _ _ _ _ H1 _ _ Q2) as (_ & _ & Rq & Lq & Zq & Pq & _).
  destruct (po_init _ _ _ _ _ H1) as (_ & L0 & Z0). unfold st in L. rewrite S1 in L0, Z0, Lq, Zq.
  assert (Hqt : q <> t) by (intros ->; lia). rewrite G1 in *.
  assert (Hr : exists p2 K2, (if sigchld_handler (sigs p q) =? LINUX_SIG_IGN
       then (link_child (Some 0) t (unlink_child t p1), Some 0) else (p1, Some q)) = (p2, Some q') /\
       proc_ok K2 p2 /\ K2 t = [] /\ sch p2 = sch p /\ sigs p2 = sigs p /\ ids p2 t = set_exit code (ids p t) /\
       parent (fam p2 t) = Some q' /\ forall c, c ∈ K t -> parent (fam p2 c) = Some 0).
  { unfold q'. destruct (sigchld_handler (sigs p q) =? LINUX_SIG_IGN).
    - do 2 eexists. split; [done|]. split; [apply (relink_init_ok K1); auto; unfold st; by rewrite S1|].
      split; [unfold klink, kdel; rewrite decide_False by (intros [= ?]; lia); by rewrite HK1|].
      destruct (unlink_ok (fam p1) K1 t (po_tree _ _ _ _ _ H1)) as (T & _ & Eu).
      destruct (link_ok (pid_of p1) _ _ (Some 0) t T) as (_ & El & _); [intros [= ?]; lia|].
      change (fam (link_child (Some 0) t (unlink_child t p1))) with
        (task_child_link (pid_of p1) (task_child_unlink (fam p1) t) (Some 0) t).
      split; [done|]. split; [done|]. split; [done|]. split; [by rewrite El, decide_True|].
      intros c Hc. destruct (C1 c Hc) as [? ?]. rewrite El, decide_False, Eu, decide_False by done. done.
    - exists p1, K1. split_all; try done. intros c Hc. by apply C1. }
  destruct Hr as (p2 & K2 & Er & H2 & HK2 & S2 & G2 & I2 & Q3 & C2). rewrite Er in *. clear Er.
  assert (L2 : st p2 t <> TASK_UNUSED) by (unfold st; by rewrite S2).
  set (p3 := with_sch (fun s => scheduler_task_set_zombie s t) p2) in *.
  assert (H3 : proc_ok K2 p3) by (by apply proc_zombie).
  assert (S3 : forall u, st p3 u = if decide (u = t) then TASK_ZOMBIE else st p u).
  { intros u. unfold p3. rewrite (zombie_states K2) by (auto; lia). unfold st. by rewrite S2. }
  assert (Hq' : 0 <= q' < 64 /\ q' <> t /\ st p q' <> TASK_UNUSED /\ st p q' <> TASK_ZOMBIE).
  { unfold q', st. destruct (_ =? _); split_all; auto; lia. }
  destruct Hq' as (Rq' & Nq' & Lq' & Zq'). assert (Nt : t <> q') by congruence.
  destruct (notify_spec K2 p3 q' H3) as (N1 & N2 & N3 & N4 & N5).
  { split; [done|]. by rewrite S3, decide_False. }
  { by rewrite S3, decide_False. }
  assert (H4 : proc_ok K2 (process_notify_parent_sigchld (Some q') p3)) by (apply notify_ok; [done|]; by intros ? [= <-]).
  exists K2. split; [exact H4|]. split; [exact HK2|].
  rewrite N4, N5. split; [by rewrite N2, S3, decide_True|]. split; [exact I2|]. split; [exact Q3|].
  split; [exact C2|]. split.
  { assert (S3q : st p3 q' = st p q') by (by rewrite S3, decide_False). by rewrite N1, S3q. }
  split; [intros u Hu Hu'; by rewrite N2, S3, decide_False|].
  rewrite N3. unfold p3. simpl. by rewrite G2.
Qed.

(** C5: Whatever calls the processes make, the process table stays a tree: the first
    process never dies; every other live process hangs in the child list of
    exactly one parent, a live process that has not exited, whose id is the
    child's [ppid] and smaller than the child's; the child lists, as the code
    walks them, hold each child once; ids are unique; no free slot is linked. *)
Theorem process_tree_always_ok f p :
  rtc proc_step (process_init f) p ->
  (live p 0 /\ pid_of p 0 = 1 /\ st p 0 <> TASK_ZOMBIE) /\
  (forall t u, live p t -> live p u -> pid_of p t = pid_of p u -> t = u) /\
  (forall c, live p c -> c <> 0 -> exists q, parent (fam p c) = Some q) /\
  (forall q, NoDup (children p q)) /\
  (forall q c, c ∈ children p q <-> parent (fam p c) = Some q) /\
  (forall q c, parent (fam p c) = Some q ->
     live p c /\ live p q /\ st p q <> TASK_ZOMBIE /\ ppid (fam p c) = pid_of p q /\ pid_of p q < pid_of p c).
Proof.
  intros R. destruct (proc_reachable_ok f p R) as [K H].
  assert (Ech : forall q, children p q = K q) by (intros; by apply children_K).
  destruct (po_init _ _ _ _ _ H) as (P0 & L0 & Z0). unfold live.
  split; [split_all; try done; lia|]. split; [|split; [|split; [|split]]].
  - intros t u [Ht Lt] [Hu Lu]. by apply (po_uniq _ _ _ _ _ H).
  - intros c [Hc Lc] N. apply (po_parent _ _ _ _ _ H); [lia | done].
  - intros q. rewrite Ech. apply (po_tree _ _ _ _ _ H).
  - intros q c. rewrite Ech. apply (po_tree _ _ _ _ _ H).
  - intros q c Hq. apply (tr_par _ _ (po_tree _ _ _ _ _ H)) in Hq.
    destruct (po_child _ _ _ _ _ H q c Hq) as (? & ? & ? & ? & ? & ? & ?). auto 10.
Qed.
(** C8: A process that exits becomes a zombie with its exit code; its children are
    taken over by the first process; it hangs under its parent, or under the
    first process when the parent ignores SIGCHLD, and that process is woken if it
    sleeps and gets SIGCHLD unless it ignores it; no other process changes state. *)
Theorem exit_hands_over f p p' t q code :
  rtc proc_step (process_init f) p -> caller p -> process_exit_current code p = Some p' ->
  t = process_current_task p -> parent (fam p t) = Some q ->
  let q' := if sigchld_handler (sigs p q) =? LINUX_SIG_IGN then 0 else q in
  st p' t = TASK_ZOMBIE /\ exit_code (ids p' t) = code /\ pid_of p' t = pid_of p t /\
  children p' t = [] /\ parent (fam p' t) = Some q' /\
  (forall c, c ∈ children p t -> parent (fam p' c) = Some 0) /\
  st p' q' = (if decide (st p q' = TASK_BLOCKED) then TASK_RUNNABLE else st p q') /\
  (sigchld_handler (sigs p q') <> LINUX_SIG_IGN -> sigchld_pending (sigs p' q') = true) /\
  (forall u, u <> t -> u <> q' -> st p' u = st p u).
Proof.
  intros R [Hc Ru] E -> Ep q'. destruct (proc_reachable_ok f p R) as [K H].
  unfold process_exit_current in E.
  destruct (Z.eqb_spec (pid_of p (process_current_task p)) 1) as [|N]; [done|]. injection E as <-.
  set (t := process_current_task p) in *.
  assert (L : st p t <> TASK_UNUSED) by congruence.
  pose proof (init_pid K p t H Hc L N) as Ht.
  destruct (die_spec K p t q code H ltac:(lia) (conj Hc L) Ep) as (K' & H' & HK & D1 & D2 & D3 & D4 & D5 & D6 & D7).
  fold q' in D3, D5, D6, D7. rewrite (children_K _ _ t H), (children_K _ _ t H').
  split; [done|]. split; [by rewrite D2|]. split; [unfold pid_of; by rewrite D2|].
  split_all; try done. intros Hi. rewrite D7. by rewrite (proj2 (Z.eqb_neq _ _) Hi).
Qed.

(** C7: Waiting reaps the first exited child that matches, in the order of the child
    list: the caller gets its id and exit status, its descriptors are released,
    its slot is free and linked nowhere, and the other children stay in order. It
    fails exactly when no child matches, and otherwise sleeps, or reports "none"
    if asked not to. *)
Theorem wait_reaps_first f p n opt :
  rtc proc_step (process_init f) p -> caller p ->
  let par := process_current_task p in
  let m t := wait_matches n par t p in
  match process_wait_pid n opt p with
  | (p', Reaped r status) =>
      exists t l1 l2, children p par = l1 ++ t :: l2 /\ m t = true /\ st p t = TASK_ZOMBIE /\
        (forall u, u ∈ l1 -> m u = true -> st p u <> TASK_ZOMBIE) /\
        r = pid_of p t /\ status = exit_status (exit_code (ids p t)) /\
        st p' t = TASK_UNUSED /\ fam p' t = no_family /\ children p' par = l1 ++ l2 /\
        fds p' = syscall_release_process_fds r (fds p)
  | (p', NoChild) => p' = p /\ forall t, t ∈ children p par -> m t = false
  | (p', NoneReady) => p' = p /\ Z.land opt 1 <> 0 /\ (exists t, t ∈ children p par /\ m t = true) /\
        forall t, t ∈ children p par -> m t = true -> st p t <> TASK_ZOMBIE
  | (p', Sleeping) => Z.land opt 1 = 0 /\ (exists t, t ∈ children p par /\ m t = true) /\
        forall t, t ∈ children p par -> m t = true -> st p t <> TASK_ZOMBIE
  end.
Proof.
  intros R C par m. destruct (proc_reachable_ok f p R) as [K H].
  assert (HC : caller p) by done. destruct C as [Hc Ru].
  unfold process_wait_pid. fold par. rewrite (children_K K p par H).
  rewrite (tr_first _ _ (po_tree _ _ _ _ _ H)).
  pose proof (wait_scan_spec (fam p) p m [] (K par) 64 false eq_refl
    (tr_seg _ _ (po_tree _ _ _ _ _ H) par) (children_bound K p par H)) as W. fold m.
  assert (HB : existsb m (K par) = true -> exists t, t ∈ K par /\ m t = true).
  { intros (x & Hx & Mx)%existsb_exists. exists x. split; [by apply list_elem_of_In | done]. }
  destruct (wait_scan 64 m (head (K par)) p false) as [b [t|]].
  - destruct W as (l1 & l2 & E & Mt & Zt & Hf).
    assert (Hin : t ∈ K par) by (rewrite E; set_solver).
    destruct (po_child _ _ _ _ _ H par t Hin) as (Rt & _).
    pose proof (reap_ok K p t H Rt Zt) as H'.
    replace (if b then reap t p else reap t p) with (reap t p) by (by destruct b).
    destruct b; unfold reap in *; cbn [fst] in H'; set (p' := clear_task t _) in *;
      (exists t, l1, l2; split; [done|]; split; [done|]; split; [done|]; split; [done|]; split; [done|];
       split; [done|]; rewrite (children_K _ _ par H'); split; [|split; [|split; [|done]]]).
    1,4: unfold st, p'; simpl; by rewrite upd_eq.
    1,3: unfold p'; simpl; by rewrite upd_eq.
    all: unfold kdel; rewrite E, del_split; [done|]; rewrite <- E; apply (po_tree _ _ _ _ _ H).
  - destruct W as [-> Hn]. destruct (existsb m (K par)) eqn:B; cbn [orb].
    + specialize (HB eq_refl). destruct (Z.eqb_spec (Z.land opt 1) 0); cbn [negb]; auto.
    + split; [done|]. intros t Ht. destruct (m t) eqn:Mt; [|done].
      apply list_elem_of_In in Ht. assert (X : existsb m (K par) = true) by (apply existsb_exists; eauto). congruence.
Qed.
(** *** What a fork copies *)

Lemma fork_frame tf p c :
  let par := process_current_task p in
  task_alloc p = Some c -> (USER_AS_MAX_TASKS <=? c) || (USER_AS_MAX_TASKS <=? par) = false ->
  let p' := fst (process_fork tf p) in
  mem p' = <[c := mem p par]> (mem p) /\ cred p' = <[c := cred p par]> (cred p) /\
  sess p' = <[c := sess p par]> (sess p) /\
  dir p' = <[c := {| cwd := cwd_or_root (cwd (dir p par)); root := root (dir p c) |}]> (dir p) /\
  sigs p' = <[c := fork_sigs (sigs p par) (sigs p c)]> (sigs p) /\
  fork_tf p' = <[c := child_tf tf]> (fork_tf p) /\ start p' = start p /\ fds p' = fds p.
Proof.
  intros par A B. unfold process_fork. rewrite A. fold par. rewrite B. repeat split.
Qed.

Lemma clear_regions_bigpie limit m : clear_regions limit m BIGPIE = m BIGPIE.
Proof.
  unfold clear_regions, at_region. destruct (heap_bytes limit) as [h x]. rewrite !upd_ne by done. by repeat (destruct (_ <? _); rewrite ?upd_ne by done).
Qed.

Lemma fork_user tf p c :
  let par := process_current_task p in
  task_alloc p = Some c -> (USER_AS_MAX_TASKS <=? c) || (USER_AS_MAX_TASKS <=? par) = false -> par <> c ->
  let p' := fst (process_fork tf p) in
  (forall u, u <> c -> user p' u = user p u) /\
  exists m, user p' c = fork_regions (user_heap_limit (mem p par)) (user p par) m /\ m BIGPIE = user p c BIGPIE.
Proof.
  intros par A B N. unfold process_fork. rewrite A. fold par. rewrite B.
  set (cl := clear_regions _). set (lim := user_heap_limit (mem p par)).
  assert (E : (<[c := mem p par]> (mem p)) par = mem p par) by (by apply upd_ne).
  cbn [fst with_sch with_fork_tf with_user link_child with_fam with_sigs with_dir with_sess with_cred with_mem
       user mem with_ids with_next_pid].
  rewrite E. fold lim. split.
  - intros u Hu. by rewrite !upd_ne.
  - eexists. rewrite upd_eq, (upd_ne (user p) c par) by done. split; [reflexivity|]. rewrite upd_eq. apply clear_regions_bigpie.
Qed.

Lemma heap_bytes_bound limit : 0 <= snd (heap_bytes limit) <= USER_HEAP_EXT_SIZE /\
  0 <= fst (heap_bytes limit) <= USER_HEAP_SIZE.
Proof.
  assert (H1 : USER_HEAP_SIZE = 33554432) by (by vm_compute).
  assert (H2 : USER_HEAP_EXT_SIZE = 8388608) by (by vm_compute).
  assert (H3 : USER_HEAP_DEFAULT_DELTA = 33554432) by (by vm_compute).
  unfold heap_bytes. destruct (Z.ltb_spec USER_HEAP_BASE limit); [|simpl; lia].
  destruct (Z.ltb_spec USER_HEAP_SIZE (limit - USER_HEAP_BASE)); simpl; [|lia].
  destruct (Z.ltb_spec USER_HEAP_EXT_SIZE (limit - USER_HEAP_BASE - USER_HEAP_SIZE)); lia.
Qed.

Lemma fork_regions_spec limit s m r i :
  0 <= i < region_size r ->
  fork_regions limit s m r i =
    match r with
    | LOW | TEXT | STACK => s r i
    | HEAP => if i <? fst (heap_bytes limit) then s r i else 0
    | HEAP_EXT => if i <? snd (heap_bytes limit) then s r i else 0
    | BIGPIE => m r i
    end.
Proof.
  intros Hi. unfold fork_regions. pose proof (heap_bytes_bound limit) as B.
  destruct (heap_bytes limit) as [h x]. cbn [fst snd] in *.
  unfold at_region, copy_from, zero_from.
  destruct r; unfold region_size in Hi;
    destruct (Z.ltb_spec h USER_HEAP_SIZE), (Z.ltb_spec x USER_HEAP_EXT_SIZE);
    rewrite ?(upd_case m), ?upd_case; repeat (case_decide; try done); rewrite ?upd_case;
    repeat (case_decide; try done);
    repeat match goal with |- context [Z.leb ?a ?b] => destruct (Z.leb_spec a b) | |- context [Z.ltb ?a ?b] => destruct (Z.ltb_spec a b) end;
    simpl; try done; lia.
Qed.
(** The registers that the child takes over, and those of the flags but one. *)
Definition registers (r : trap_frame) : list Z :=
  [tf_rbx r; tf_rcx r; tf_rdx r; tf_rbp r; tf_rdi r; tf_rsi r; tf_r8 r; tf_r9 r; tf_r10 r; tf_r11 r; tf_r12 r; tf_r13 r; tf_r14 r; tf_r15 r;
   tf_int_no r; tf_err_code r; tf_rip r; tf_cs r; tf_rsp r; tf_ss r].

Lemma child_flags tf i : 0 <= i < 64 -> Z.testbit (tf_rflags (child_tf tf)) i = if i =? 8 then false else Z.testbit (tf_rflags tf) i.
Proof.
  intros Hi. cbn [child_tf tf_rflags]. change (2 ^ 64 - 1 - 2 ^ 8) with (Z.ldiff (Z.ones 64) (2 ^ 8)).
  rewrite Z.land_spec, Z.ldiff_spec, Z.ones_spec_low by lia. destruct (Z.eqb_spec i 8) as [->|]; [apply andb_false_r|].
  rewrite (Z.pow2_bits_false 8 i) by lia. apply andb_true_r.
Qed.

(** C9: A fork that succeeds puts a blocked child with a fresh id at the head of the
    caller's child list, in a slot that was free, with the caller's credentials,
    session, working directory, memory map, handlers and all of its registers but for the
    result 0 and the trap flag, and a copy of the caller's low, text and stack
    memory and of the heap up to its limit, followed by zeros; the region of large programs
    is not copied but keeps what was in the slot. No other process's memory, credentials,
    session, directory, signals, registers or state changes. It fails, without effect,
    exactly when the 16 slots are taken. *)
Theorem fork_child f p tf p' n :
  rtc proc_step (process_init f) p -> caller p -> next_pid p < 2 ^ 31 - 1 ->
  process_current_task p < 16 -> process_fork tf p = (p', n) ->
  let par := process_current_task p in
  (n = -1 /\ p' = p /\ forall c, 0 <= c < 16 -> st p c <> TASK_UNUSED) \/
  exists c, 0 <= c < 16 /\ st p c = TASK_UNUSED /\ n = next_pid p /\ next_pid p' = n + 1 /\
    st p' c = TASK_BLOCKED /\ pid_of p' c = n /\ parent (fam p' c) = Some par /\
    children p' par = c :: children p par /\
    cred p' c = cred p par /\ sess p' c = sess p par /\ mem p' c = mem p par /\
    cwd (dir p' c) = cwd_or_root (cwd (dir p par)) /\
    (let s := sigs p' c in let s0 := sigs p par in
     sigint_handler s = sigint_handler s0 /\ sigalrm_handler s = sigalrm_handler s0 /\
     sigterm_handler s = sigterm_handler s0 /\ sigchld_handler s = sigchld_handler s0 /\
     sigint_pending s = false /\ sigalrm_pending s = false /\ sigterm_pending s = false) /\
    tf_rax (fork_tf p' c) = 0 /\ registers (fork_tf p' c) = registers tf /\
    (forall i, 0 <= i < 64 -> Z.testbit (tf_rflags (fork_tf p' c)) i = if i =? 8 then false else Z.testbit (tf_rflags tf) i) /\
    (forall r i, r = LOW \/ r = TEXT \/ r = STACK -> 0 <= i < region_size r -> user p' c r i = user p par r i) /\
    (let '(h, x) := heap_bytes (user_heap_limit (mem p par)) in
     (forall i, 0 <= i < region_size HEAP -> user p' c HEAP i = if i <? h then user p par HEAP i else 0) /\
     (forall i, 0 <= i < region_size HEAP_EXT -> user p' c HEAP_EXT i = if i <? x then user p par HEAP_EXT i else 0)) /\
    (forall i, 0 <= i < region_size BIGPIE -> user p' c BIGPIE i = user p c BIGPIE i) /\
    (forall u, u <> c -> user p' u = user p u /\ cred p' u = cred p u /\ mem p' u = mem p u /\ sess p' u = sess p u /\
       dir p' u = dir p u /\ sigs p' u = sigs p u /\ fork_tf p' u = fork_tf p u /\ st p' u = st p u).
Proof.
  intros R C Hn H16 E par. destruct (proc_reachable_ok f p R) as [K H].
  destruct (task_alloc p) as [c|] eqn:A.
  2: { left. unfold process_fork in E. rewrite A in E. injection E as <- <-.
       split; [done|]. split; [done|]. intros c Hc. unfold task_alloc, task_ptr in A.
       destruct (Z.ltb_spec (scan (fun i => test (st p i = TASK_UNUSED)) 0 16) 0) as [Hs|]; [|done].
       destruct (scan_range (fun i => test (st p i = TASK_UNUSED)) 0 16) as [Em|]; [lia | | lia].
       pose proof (scan_miss _ 0 16 c ltac:(lia) Em ltac:(lia)) as B. by apply bool_decide_eq_false in B. }
  right. exists c. destruct (alloc_some p c A) as [Rc U].
  assert (B : (USER_AS_MAX_TASKS <=? c) || (USER_AS_MAX_TASKS <=? par) = false).
  { unfold USER_AS_MAX_TASKS, par. destruct (Z.leb_spec 16 c); [lia|]. destruct (Z.leb_spec 16 (process_current_task p)); [lia|done]. }
  destruct (fork_eqs tf p c A B) as (E1 & _). rewrite E in E1. cbn [snd] in E1.
  pose proof (po_next _ _ _ _ _ H) as Hnp.
  destruct (fork_ok K tf p p' n c H C Hn A E ltac:(lia)) as (_ & Hb & N1 & S1 & S2 & P1 & P2).
  destruct (fork_frame tf p c A B) as (M1 & M2 & M3 & M4 & M5 & M6 & _ & _).
  assert (Hpc : par <> c) by (intros X; destruct C as [_ Ru]; fold par in Ru; rewrite X in Ru; congruence).
  destruct (fork_user tf p c A B Hpc) as (U1 & m & U2 & U3). rewrite E in *. cbn [fst] in *. fold par in M1, M2, M3, M4, M5, U2.
  destruct (pok_dead _ _ _ _ _ c H ltac:(lia) U) as (_ & Fc & _).
  split; [done|]. split; [done|]. split; [done|]. split; [lia|]. split; [done|]. split; [lia|].
  unfold born in Hb. fold par in Hb. split.
  { apply (tr_par _ _ (po_tree _ _ _ _ _ Hb)). unfold klink. rewrite decide_True by done. left. }
  split.
  { rewrite (children_K _ _ par Hb), (children_K _ _ par H). unfold klink. rewrite decide_True by done.
    f_equal. apply del_notin. rewrite (tr_par _ _ (po_tree _ _ _ _ _ H)). congruence. }
  rewrite M1, M2, M3, M4, M5, M6, !upd_eq. do 4 (split; [done|]). split; [done|]. do 2 (split; [done|]).
  split; [intros i; apply child_flags|]. split; [|split; [|split]].
  - intros r i Hr Hi. rewrite U2, fork_regions_spec by done. by destruct Hr as [->|[->| ->]].
  - pose proof (fork_regions_spec (user_heap_limit (mem p par)) (user p par) m) as F. rewrite U2. destruct (heap_bytes _) as [h x]. cbn [fst snd] in F.
    split; intros i Hi; by rewrite F.
  - intros i Hi. by rewrite U2, fork_regions_spec, U3.
  - intros u Hu. rewrite U1, !upd_ne by done. do 7 (split; [done|]). by apply S2.
Qed.

(** *** Credentials *)

(** No credentials change and nobody is born. *)
Definition keeps (p p' : proc) : Prop :=
  cred p' = cred p /\ forall u, 0 <= u < 64 -> st p u = TASK_UNUSED -> st p' u = TASK_UNUSED.

Lemma keeps_refl p : keeps p p.
Proof. done. Qed.

Lemma keeps_trans p1 p2 p3 : keeps p1 p2 -> keeps p2 p3 -> keeps p1 p3.
Proof. intros [E1 D1] [E2 D2]. split; [congruence | auto]. Qed.

Lemma keeps_wake t p : st p t <> TASK_UNUSED -> keeps p (wake_task t p).
Proof.
  intros L. split; [done|]. intros u _ Hu. unfold st, wake_task. cbn [sch with_sch].
  destruct (is_idle (ents (sch p) t)) eqn:I.
  - unfold scheduler_task_make_runnable. by rewrite I.
  - destruct (make_runnable_view (sch p) t (wake_cpu (sch p) t) I) as [-> _]. case_decide; [congruence | done].
Qed.

Lemma keeps_zombie t p : st p t <> TASK_UNUSED -> keeps p (with_sch (fun s => scheduler_task_set_zombie s t) p).
Proof.
  intros L. split; [done|]. intros u _ Hu. unfold st, scheduler_task_set_zombie. cbn [sch with_sch].
  destruct (is_idle (ents (sch p) t)) eqn:I.
  - unfold leave_runqueue. by rewrite I.
  - destruct (leave_view (sch p) t TASK_ZOMBIE (fun c => c) I) as [-> _]. case_decide; [congruence | done].
Qed.

Lemma adopt_keeps a b p :
  let p' := fst (process_adopt_orphans a b p) in keeps p p' /\ sch p' = sch p.
Proof.
  assert (L1 : forall k o c q m, keeps q (fst (adopt_loop k o c q m)) /\ sch (fst (adopt_loop k o c q m)) = sch q).
  { induction k as [|k IH]; intros o [c|] q m; try (by split). cbn [adopt_loop].
    destruct (IH o (sibling_next (fam q c)) (link_child o c q) (m + 1)) as [K S].
    split; [by eapply keeps_trans; [|exact K] | by rewrite S]. }
  assert (L2 : forall k i o q m, keeps q (fst (adopt_scan k i a o q m)) /\ sch (fst (adopt_scan k i a o q m)) = sch q).
  { induction k as [|k IH]; intros i o q m; [by split|]. cbn [adopt_scan].
    destruct (_ || _); [apply IH|]. destruct (IH (i + 1) o (link_child o i q) (m + 1)) as [K S].
    split; [by eapply keeps_trans; [|exact K] | by rewrite S]. }
  unfold process_adopt_orphans. destruct (task_find_by_pid p a); [apply L1 | apply L2].
Qed.

Lemma notify_keeps par p : keeps p (process_notify_parent_sigchld par p).
Proof.
  destruct par as [q|]; simpl; [|apply keeps_refl].
  destruct (bool_decide_reflect (st p q = TASK_UNUSED)) as [|L]; [apply keeps_refl|]. cbn [orb].
  destruct (test (st p q = TASK_ZOMBIE)); [apply keeps_refl|].
  set (p1 := if negb _ then _ else p). assert (E : keeps p p1 /\ sch p1 = sch p).
  { unfold p1. by destruct (negb _). }
  clearbody p1. destruct E as [E S]. eapply keeps_trans; [exact E|].
  destruct (test (st p1 q = TASK_BLOCKED)); [|apply keeps_refl].
  apply keeps_wake. unfold st in *. by rewrite S.
Qed.

Lemma die_keeps t code p : st p t <> TASK_UNUSED -> keeps p (die t code p).
Proof.
  intros L. unfold die. set (p0 := with_ids t (set_exit code) p).
  destruct (adopt_keeps (pid_of p0 t) 1 p0) as [K1 S1]. set (p1 := fst _) in *.
  assert (K01 : keeps p p1) by exact K1. assert (S01 : sch p1 = sch p) by exact S1.
  clearbody p1. clear K1 S1 p0.
  set (r := match parent (fam p1 t) with Some q => _ | None => _ end).
  assert (Hr : keeps p (fst r) /\ sch (fst r) = sch p).
  { unfold r. destruct (parent (fam p1 t)) as [q|], (task_find_by_pid p1 1) as [i|]; try by split.
    by destruct (sigchld_handler (sigs p1 q) =? LINUX_SIG_IGN); split. }
  destruct r as [p2 par]. destruct Hr as [K2 S2]. cbn [fst] in *.
  eapply keeps_trans; [exact K2|]. eapply keeps_trans; [|apply notify_keeps].
  apply keeps_zombie. unfold st in *. by rewrite S2.
Qed.

Lemma kill_pid_keeps n code p : keeps p (fst (process_kill_pid n code p)).
Proof.
  unfold process_kill_pid. destruct (task_find_by_pid p n) as [t|] eqn:E; [|apply keeps_refl].
  destruct (_ =? _); [apply keeps_refl|]. apply die_keeps. by destruct (find_some _ _ _ E) as (_ & ? & _).
Qed.

Lemma signal_one_keeps t sig p : keeps p (fst (process_signal_one t sig p)).
Proof.
  unfold process_signal_one. destruct (bool_decide_reflect (st p t = TASK_UNUSED)) as [|L]; [apply keeps_refl|].
  cbn [orb]. destruct (test (st p t = TASK_ZOMBIE)); [apply keeps_refl|].
  destruct (sig =? LINUX_SIGKILL); [destruct (_ =? 1); [apply keeps_refl | apply kill_pid_keeps]|].
  destruct (if sig =? LINUX_SIGINT then _ else _) as [h|]; [|apply keeps_refl].
  destruct (h =? LINUX_SIG_IGN); [apply keeps_refl|].
  destruct (h =? LINUX_SIG_DFL); [destruct (_ =? 1); [apply keeps_refl | apply kill_pid_keeps]|].
  cbn [fst]. destruct (test (st (with_sigs t (set_pending sig) p) t = TASK_BLOCKED)); [|done].
  by apply (keeps_wake t (with_sigs t (set_pending sig) p)).
Qed.

Lemma sys_kill_keeps n sig p : keeps p (fst (do_sys_kill n sig p)).
Proof.
  unfold do_sys_kill. destruct (n =? 0); [apply keeps_refl|].
  destruct (sig =? 0); [destruct (0 <? n); apply keeps_refl|].
  destruct (_ && _ && _); [apply keeps_refl|]. destruct (0 <? n).
  - assert (E : keeps p (fst (process_send_signal n sig p))).
    { unfold process_send_signal. destruct (n <=? 0); [apply keeps_refl|].
      destruct (task_find_by_pid p n); [apply signal_one_keeps | apply keeps_refl]. }
    by destruct (process_send_signal n sig p).
  - unfold process_send_signal_pgid. destruct (- n <=? 0); [apply keeps_refl|].
    assert (L : forall k i p m, keeps p (fst (send_pgid_loop k i (- n) sig p m))).
    { clear p. induction k as [|k IH]; intros i p m; cbn [send_pgid_loop]; [apply keeps_refl|].
      destruct (_ || _ || _); [apply IH|]. pose proof (signal_one_keeps i sig p) as E.
      destruct (process_signal_one i sig p). eapply keeps_trans; [exact E | apply IH]. }
    pose proof (L 64%nat 0 p 0) as E. by destruct (send_pgid_loop 64 0 (- n) sig p 0).
Qed.

Lemma kill_pgid_keeps g code p : keeps p (fst (process_kill_pgid g code p)).
Proof.
  unfold process_kill_pgid. destruct (g <=? 0); [apply keeps_refl|].
  assert (L : forall k i p m, keeps p (fst (kill_pgid_loop k i g code p m))).
  { clear p. induction k as [|k IH]; intros i p m; cbn [kill_pgid_loop]; [apply keeps_refl|].
    destruct (bool_decide_reflect (st p i = TASK_UNUSED)) as [|L]; [apply IH|].
    cbn [orb]. destruct (_ || _); [apply IH|]. eapply keeps_trans; [|apply IH].
    set (p0 := with_ids i (set_exit code) p). destruct (adopt_keeps (pid_of p0 i) 1 p0) as [K1 S1].
    set (p1 := fst _) in *. assert (K01 : keeps p p1) by exact K1. assert (S01 : sch p1 = sch p) by exact S1.
    clearbody p1. clear K1 S1. eapply keeps_trans; [exact K01|].
    eapply keeps_trans; [apply (keeps_zombie i p1); unfold st in *; by rewrite S01|].
    set (p2 := with_sch _ p1). clearbody p2. destruct (parent (fam p2 i)) as [q|]; [|apply keeps_refl].
    destruct (bool_decide_reflect (st p2 q = TASK_BLOCKED)); [|apply keeps_refl]. apply keeps_wake. congruence. }
  pose proof (L 64%nat 0 p 0) as E. by destruct (kill_pgid_loop 64 0 g code p 0).
Qed.
Definition unpriv (c : credentials) : Prop := uid c <> 0 /\ euid c <> 0.

Lemma keeps_unpriv p p' t :
  keeps p p' -> live p' t ->
  (live p t /\ unpriv (cred p t)) \/ (st p t = TASK_UNUSED /\ unpriv (cred p (process_current_task p))) ->
  unpriv (cred p' t).
Proof. intros [-> D] [R L] [[_ U]|[N _]]; [done|]. by apply D in N. Qed.

Lemma moved_keeps p f : sched_moved (sch p) (f (sch p)) -> keeps p (with_sch f p).
Proof. intros [_ M]. split; [done|]. intros u Ru Hu. by apply (M u Ru). Qed.

(** One call's effect on the caller's credentials. *)
Lemma setreuid_unpriv r e p :
  unpriv (cred p (process_current_task p)) ->
  unpriv (cred (fst (process_setreuid r e p)) (process_current_task p)).
Proof.
  intros [U1 U2]. unfold process_setreuid. rewrite (proj2 (Z.eqb_neq _ _) U2). cbn [negb andb].
  destruct (id_denied r _ _ || id_denied e _ _) eqn:D; [done|].
  apply orb_false_iff in D as [D1 D2]. unfold id_denied in D1, D2. simpl. rewrite upd_eq.
  unfold unpriv, set_uids, new_id; simpl. split.
  - destruct (Z.eqb_spec r no_id) as [|]; simpl in *; [done|].
    destruct (Z.eqb_spec r (uid (cred p (process_current_task p)))) as [->|]; [done|].
    destruct (Z.eqb_spec r (euid (cred p (process_current_task p)))) as [->|]; done.
  - destruct (Z.eqb_spec e no_id) as [|]; simpl in *; [done|].
    destruct (Z.eqb_spec e (uid (cred p (process_current_task p)))) as [->|]; [done|].
    destruct (Z.eqb_spec e (euid (cred p (process_current_task p)))) as [->|]; done.
Qed.

Lemma setreuid_others r e p t : t <> process_current_task p ->
  cred (fst (process_setreuid r e p)) t = cred p t.
Proof. intros N. unfold process_setreuid. destruct (_ && _); [done|]. simpl. by rewrite upd_ne. Qed.

Lemma setregid_uids r e p t :
  uid (cred (fst (process_setregid r e p)) t) = uid (cred p t) /\
  euid (cred (fst (process_setregid r e p)) t) = euid (cred p t).
Proof.
  unfold process_setregid. destruct (_ && _); [done|]. simpl. rewrite upd_case. by case_decide; subst.
Qed.

Lemma cred_call_unpriv c p p' t :
  match c with
  | PrepareExec | SetFsBase _ | Setuid _ | Setgid _ | Setreuid _ _ | Setregid _ _ | Setresuid _ _ _
  | Setresgid _ _ _ | Setfsuid _ | Setfsgid _ | Umask _ | Setpgid _ _ | Setsid => True
  | _ => False
  end -> run_call c p = Some p' -> unpriv (cred p t) -> unpriv (cred p' t).
Proof.
  set (cur := process_current_task p).
  assert (SU : forall r e, unpriv (cred p t) -> unpriv (cred (fst (process_setreuid r e p)) t)).
  { intros r e U. destruct (decide (t = cur)) as [->|N]; [by apply setreuid_unpriv | by rewrite setreuid_others]. }
  assert (SG : forall r e, unpriv (cred p t) -> unpriv (cred (fst (process_setregid r e p)) t)).
  { intros r e [U1 U2]. unfold unpriv. destruct (setregid_uids r e p t) as [-> ->]. done. }
  destruct c; intros []; cbn [run_call]; intros [= <-] U.
  - unfold process_prepare_exec_current. by destruct (_ <=? _).
  - done.
  - unfold process_setuid. fold cur. destruct (Z.eqb_spec (euid (cred p cur)) 0) as [E|E]; simpl.
    + rewrite upd_case. case_decide; subst; [by destruct U | done].
    + destruct (_ || _) eqn:B; simpl; [|done]. rewrite upd_case. case_decide; subst; [|done].
      destruct U as [U1 U2]. split; simpl; [done|].
      apply orb_true_iff in B as [->%Z.eqb_eq| ->%Z.eqb_eq]; done.
  - unfold process_setgid. fold cur. destruct (_ =? 0); [|destruct (_ || _)]; simpl; try done;
      rewrite upd_case; case_decide; subst; done.
  - by apply SU.
  - by apply SG.
  - unfold do_sys_setresuid. destruct (_ && _ && _ && _ && _ && _); [done|].
    pose proof (SU r e U) as C. by destruct (process_setreuid r e p).
  - unfold do_sys_setresgid. destruct (_ && _ && _ && _ && _ && _); [done|].
    pose proof (SG r e U) as C. by destruct (process_setregid r e p).
  - by apply SU.
  - by apply SG.
  - simpl. rewrite upd_case. case_decide; subst; done.
  - unfold process_setpgid. destruct (task_find_by_pid _ _) as [x|]; [|done].
    destruct (negb _); [done|]. set (h := if g =? 0 then _ else g). destruct (h <? 0); [done|].
    by destruct (if negb (h =? _) then _ else true).
  - unfold process_setsid. by destruct (_ =? _).
Qed.

Lemma set_state_keeps n p : keeps p (fst (process_set_state n TASK_RUNNABLE p)).
Proof.
  unfold process_set_state. destruct (task_find_by_pid p n) as [t|] eqn:E; [|apply keeps_refl].
  cbn [fst]. apply (keeps_wake t). by destruct (find_some _ _ _ E) as (_ & ? & _).
Qed.

(** The task [c] is born, with the credentials of the caller. *)
Definition begets (p p' : proc) (c : Z) : Prop :=
  0 <= c < 64 /\ st p c = TASK_UNUSED /\
  (forall u, 0 <= u < 64 -> u <> c -> cred p' u = cred p u /\ (st p u = TASK_UNUSED -> st p' u = TASK_UNUSED)) /\
  (live p' c -> cred p' c = cred p (process_current_task p)).

Lemma begets_keeps p p1 p2 c : begets p p1 c -> keeps p1 p2 -> begets p p2 c.
Proof.
  intros (Rc & U & A & B) [E D]. split; [done|]. split; [done|]. rewrite E. split.
  - intros u Ru Hu. destruct (A u Ru Hu). split; auto.
  - intros [_ L]. apply B. split; [done|]. intros X. by apply L, D.
Qed.

Lemma begets_unpriv p p' c t :
  begets p p' c -> live p' t ->
  (live p t /\ unpriv (cred p t)) \/ (st p t = TASK_UNUSED /\ unpriv (cred p (process_current_task p))) ->
  unpriv (cred p' t).
Proof.
  intros (Rc & U & A & B) [Rt Lt] H. destruct (decide (t = c)) as [->|N].
  - rewrite B by done. destruct H as [[[_ ?] _]|[_ ?]]; done.
  - destruct (A t Rt N) as [-> D]. destruct H as [[_ ?]|[X _]]; [done|]. by apply D in X.
Qed.

Lemma fork_begets K tf p p' n :
  proc_ok K p -> caller p -> next_pid p < 2 ^ 31 - 1 -> process_fork tf p = (p', n) ->
  p' = p \/ exists c, begets p p' c.
Proof.
  intros H C Hn E. destruct (task_alloc p) as [c|] eqn:A; [|left; unfold process_fork in E; rewrite A in E; by injection E].
  destruct ((USER_AS_MAX_TASKS <=? c) || (USER_AS_MAX_TASKS <=? process_current_task p)) eqn:B.
  { left. unfold process_fork in E. rewrite A, B in E. by injection E. }
  right. exists c. destruct (fork_eqs tf p c A B) as (E1 & _). rewrite E in E1. cbn [snd] in E1.
  pose proof (po_next _ _ _ _ _ H). destruct (alloc_some p c A) as [Rc U].
  destruct (fork_ok K tf p p' n c H C Hn A E ltac:(lia)) as (_ & _ & _ & _ & S & _).
  destruct (fork_frame tf p c A B) as (_ & M & _). rewrite E in M. cbn [fst] in M.
  split; [lia|]. split; [done|]. split.
  - intros u _ Hu. rewrite M, upd_ne by done. split; [done|]. by rewrite S.
  - intros _. by rewrite M, upd_eq.
Qed.

Lemma spawn_child_cred c path p : process_current_task p <> c ->
  cred (spawn_child c path p) = <[c := cred p (process_current_task p)]> (<[c := zero_cred]> (cred p)).
Proof.
  intros N.
  change (cred (spawn_child c path p)) with (<[c := (<[c := zero_cred]> (cred p)) (process_current_task p)]> (<[c := zero_cred]> (cred p))).
  by rewrite (upd_ne (cred p) c).
Qed.

Lemma leave_other s t x f u : u <> t -> state (ents (leave_runqueue x f s t) u) = state (ents s u).
Proof.
  intros N. destruct (is_idle (ents s t)) eqn:I; [unfold leave_runqueue; by rewrite I|].
  destruct (leave_view s t x f I) as [-> _]. by rewrite decide_False.
Qed.

Lemma runnable_other s t c u : u <> t -> state (ents (scheduler_task_make_runnable s t c) u) = state (ents s u).
Proof.
  intros N. destruct (is_idle (ents s t)) eqn:I; [unfold scheduler_task_make_runnable; by rewrite I|].
  destruct (make_runnable_view s t c I) as [-> _]. by rewrite decide_False.
Qed.

Lemma spawn_begets elf path argc argv p : caller p ->
  fst (process_spawn_exec elf path argc argv p) = p \/
  exists c, begets p (fst (process_spawn_exec elf path argc argv p)) c.
Proof.
  intros [Hc R]. destruct (spawn_cases elf path argc argv p) as [->|(c & p2 & A & (S2 & _) & G2 & Hr)]; [by left|].
  right. exists c. destruct (alloc_some p c A) as [Rc U].
  assert (N : process_current_task p <> c) by (intros X; rewrite X in R; congruence).
  rewrite (spawn_child_cred c path p N) in G2.
  destruct (spawn_eqs path p c) as (ES & _). rewrite ES in S2.
  assert (O : forall u, u <> c -> state (ents (sch p2) u) = st p u).
  { intros u Hu. rewrite S2. simpl. by rewrite !upd_ne. }
  assert (CO : forall u, u <> c -> cred p2 u = cred p u) by (intros u Hu; by rewrite G2, !upd_ne).
  assert (CC : cred p2 c = cred p (process_current_task p)) by (by rewrite G2, upd_eq).
  split; [lia|]. split; [done|]. destruct Hr as [->| ->]; cbn [fst].
  - split.
    + intros u _ Hu. unfold st, spawn_undo. simpl. rewrite !upd_ne by done. split; [by apply CO|].
      unfold scheduler_task_set_unused. rewrite leave_other by done. intros X. by rewrite O.
    + intros [_ L]. exfalso. apply L. unfold st. simpl. by rewrite upd_eq.
  - split; [|by intros _].
    intros u _ Hu. split; [by apply CO|]. unfold st, spawn_enqueue. cbn [sch with_sch]. rewrite runnable_other by done.
    unfold scheduler_task_set_blocked. rewrite leave_other by done. intros X. by rewrite O.
Qed.

Lemma sleep_keeps K p t : proc_ok K p -> 0 <= t < 64 -> st p t = TASK_RUNNING ->
  keeps p (with_sch (fun s => scheduler_yield (scheduler_task_set_blocked s t)) p).
Proof.
  intros H Ht R. destruct (po_sched _ _ _ _ _ H) as [Q I]. unfold st in R.
  apply (moved_keeps p (fun s => scheduler_yield (scheduler_task_set_blocked s t))).
  destruct (moved_block (sch p) Q t I Ht ltac:(congruence) ltac:(congruence)) as [[Q' I'] M].
  eapply moved_trans; [split; eauto | by eapply moved_yield].
Qed.

(** A reaped slot is free, the other credentials stay. *)
Lemma reap_unpriv p t u : u <> t -> cred (fst (reap t p)) u = cred p u /\ st (fst (reap t p)) u = st p u.
Proof.
  intros N. unfold reap, st. simpl. rewrite !upd_ne by done. split; [done|].
  unfold scheduler_task_set_unused. by rewrite leave_other.
Qed.

Lemma reap_dead p t : st (fst (reap t p)) t = TASK_UNUSED.
Proof. unfold reap, st. simpl. by rewrite upd_eq. Qed.

Lemma reap_case_unpriv p r t u :
  live (fst (reap r p)) t ->
  (live p t /\ unpriv (cred p t)) \/ (st p t = TASK_UNUSED /\ unpriv (cred p u)) ->
  unpriv (cred (fst (reap r p)) t).
Proof.
  intros [Rt Lt] H. destruct (decide (t = r)) as [->|N]; [by destruct Lt; apply reap_dead|].
  destruct (reap_unpriv p r t N) as [-> S]. rewrite S in Lt. by destruct H as [[_ ?]|[? _]].
Qed.

Lemma fork_compat_keeps tf p : keeps (fst (process_fork tf p)) (fst (do_sys_fork_compat tf p)).
Proof.
  unfold do_sys_fork_compat. destruct (process_fork tf p) as [p1 n]. cbn [fst].
  destruct (n <? 0); [apply keeps_refl|]. destruct (0 <? n); [|apply keeps_refl]. cbn [fst].
  eapply keeps_trans; [|apply set_state_keeps]. done.
Qed.

Lemma vfork_keeps K tf p : proc_ok K p -> caller p -> next_pid p < 2 ^ 31 - 1 ->
  keeps (fst (process_fork tf p)) (fst (do_sys_vfork_compat tf p)).
Proof.
  intros H C Hn. pose proof (fork_compat_keeps tf p) as F.
  destruct (fork_compat_ok tf p C Hn K H) as [K' H']. unfold do_sys_vfork_compat.
  destruct (do_sys_fork_compat tf p) as [p1 n]. cbn [fst] in *. destruct (0 <? n); [|done].
  eapply keeps_trans; [exact F|]. destruct (po_sched _ _ _ _ _ H') as [Q I].
  apply moved_keeps. by eapply moved_yield.
Qed.

Lemma fork_unpriv K tf p p' t :
  proc_ok K p -> caller p -> next_pid p < 2 ^ 31 - 1 -> keeps (fst (process_fork tf p)) p' -> live p' t ->
  (live p t /\ unpriv (cred p t)) \/ (st p t = TASK_UNUSED /\ unpriv (cred p (process_current_task p))) ->
  unpriv (cred p' t).
Proof.
  intros H C Hn Kp L U. destruct (process_fork tf p) as [p1 n] eqn:E. cbn [fst] in Kp.
  destruct (fork_begets K tf p p1 n H C Hn E) as [->|[c B]].
  - by apply (keeps_unpriv p).
  - eapply begets_unpriv; eauto. by eapply begets_keeps.
Qed.

Definition inherits (p : proc) (t : Z) : Prop :=
  (live p t /\ unpriv (cred p t)) \/ (st p t = TASK_UNUSED /\ unpriv (cred p (process_current_task p))).

Lemma wait_unpriv K p t m c : proc_ok K p -> caller p ->
  let par := process_current_task p in
  let r := match wait_scan 64 m c p false with
           | (_, Some t) => reap t p
           | (false, None) => (p, NoChild)
           | (true, None) => (with_sch (fun s => scheduler_yield (scheduler_task_set_blocked s par)) p, Sleeping)
           end in
  live (fst r) t -> inherits p t -> unpriv (cred (fst r) t).
Proof.
  intros HK [Rc Rn] par. destruct (wait_scan 64 m c p false) as [[] [r|]]; cbv zeta.
  - apply reap_case_unpriv.
  - cbn [fst]. apply keeps_unpriv. by eapply sleep_keeps.
  - apply reap_case_unpriv.
  - cbn [fst]. apply keeps_unpriv, keeps_refl.
Qed.

Lemma exit_unpriv code p p' t : caller p -> process_exit_current code p = Some p' ->
  live p' t -> inherits p t -> unpriv (cred p' t).
Proof.
  intros [_ Rn] E. unfold process_exit_current in E. destruct (_ =? 1); [done|].
  assert (Ep : p' = die (process_current_task p) code p) by congruence. rewrite Ep.
  apply keeps_unpriv, die_keeps. congruence.
Qed.

Lemma spawn_unpriv elf path argc argv p t : caller p ->
  live (fst (process_spawn_exec elf path argc argv p)) t -> inherits p t ->
  unpriv (cred (fst (process_spawn_exec elf path argc argv p)) t).
Proof.
  intros C. destruct (spawn_begets elf path argc argv p C) as [->|[c B]]; [apply keeps_unpriv, keeps_refl|].
  by apply (begets_unpriv p _ c).
Qed.

Lemma wait_pid_unpriv K n opt p t : proc_ok K p -> caller p ->
  live (fst (process_wait_pid n opt p)) t -> inherits p t -> unpriv (cred (fst (process_wait_pid n opt p)) t).
Proof.
  intros HK C. pose proof (wait_unpriv K p t (fun t => wait_matches n (process_current_task p) t p)
    (first_child (fam p (process_current_task p))) HK C) as W.
  unfold process_wait_pid. destruct (wait_scan 64 _ _ p false) as [[] [r|]]; try exact W.
  destruct (negb _); [apply keeps_unpriv, keeps_refl | exact W].
Qed.

Lemma wait_any_unpriv K p t : proc_ok K p -> caller p ->
  live (fst (process_wait_any p)) t -> inherits p t -> unpriv (cred (fst (process_wait_any p)) t).
Proof.
  intros HK C. apply (wait_unpriv K p t (fun _ => true) (first_child (fam p (process_current_task p))) HK C).
Qed.

(** C6: Privileges are never gained. Whatever step the system takes, a process whose
    real and effective user ids are both non-zero keeps them so, and a process
    that is born inherits this from the process that made it. *)
Theorem no_privilege_gained f p p' t :
  rtc proc_step (process_init f) p -> proc_step p p' -> live p' t -> inherits p t -> unpriv (cred p' t).
Proof.
  intros R S L H. destruct (proc_reachable_ok f p R) as [K HK]. destruct (po_sched _ _ _ _ _ HK) as [Q I].
  destruct S as [p c p' C Hn E|p|p].
  2: { apply (keeps_unpriv p _ t); [apply moved_keeps; by eapply moved_yield | done | done]. }
  2: { apply (keeps_unpriv p _ t); [apply moved_keeps; by eapply moved_tick | done | done]. }
  assert (HC : match c with
               | PrepareExec | SetFsBase _ | Setuid _ | Setgid _ | Setreuid _ _ | Setregid _ _ | Setresuid _ _ _
               | Setresgid _ _ _ | Setfsuid _ | Setfsgid _ | Umask _ | Setpgid _ _ | Setsid => True
               | _ => False
               end -> unpriv (cred p' t)).
  { intros M. apply (cred_call_unpriv c p p' t M E). destruct L as [_ Lt].
    destruct (cred_core c p p' M E) as (ES & _). unfold st in Lt. rewrite ES in Lt. by destruct H as [[_ ?]|[? _]]. }
  destruct c; try exact (HC Logic.I); clear HC; cbn [run_call] in E.
  4: { by eapply exit_unpriv. }
  all: apply Some_inj in E; rewrite <- E in *.
  - by eapply (fork_unpriv K tf p); [| | |apply fork_compat_keeps| |].
  - by eapply (fork_unpriv K tf p); [| | |eapply vfork_keeps| |].
  - by apply spawn_unpriv.
  - by eapply wait_pid_unpriv.
  - by eapply wait_any_unpriv.
  - by apply (keeps_unpriv p); [apply sys_kill_keeps|..].
  - by apply (keeps_unpriv p); [apply kill_pgid_keeps|..].
Qed.

(** *** Exec and process groups *)

Lemma wipe_clear_zero limit m r i :
  USER_HEAP_BASE + USER_HEAP_SIZE <= limit -> 0 <= i < region_size r -> wipe (clear_regions limit m) r i = 0.
Proof.
  intros Hl Hi. assert (H1 : USER_HEAP_SIZE = 33554432) by (by vm_compute).
  assert (Hh : fst (heap_bytes limit) = USER_HEAP_SIZE).
  { unfold heap_bytes. destruct (Z.ltb_spec USER_HEAP_BASE limit); [|lia].
    destruct (Z.ltb_spec USER_HEAP_SIZE (limit - USER_HEAP_BASE)); simpl; lia. }
  unfold wipe, clear_regions. destruct (heap_bytes limit) as [h x]. cbn [fst] in Hh. subst h.
  assert (Z0 : forall n f, 0 <= i < n -> zero_from 0 n f i = 0).
  { intros n f Hn. unfold zero_from. by rewrite (proj2 (Z.leb_le _ _)), (proj2 (Z.ltb_lt _ _)) by lia. }
  unfold at_region. destruct r; unfold region_size in Hi; rewrite ?upd_case;
    repeat (case_decide; try done); apply Z0; exact Hi.
Qed.

Lemma dfl_or_ign h : dfl_unless_ign h = if h =? LINUX_SIG_IGN then LINUX_SIG_IGN else LINUX_SIG_DFL.
Proof. unfold dfl_unless_ign. by destruct (Z.eqb_spec h LINUX_SIG_IGN) as [->|]. Qed.

(** C36: A program started by exec sees nothing of its predecessor: every byte of the
    six regions of the slot is zero, the memory map is the initial one, no signal
    is pending, each of the four handlers is the default unless it was "ignore", and there is
    no alternate stack and no signal stub; the memory and signals of the other processes are
    untouched. *)
Theorem exec_starts_clean p p' :
  process_current_task p < 16 ->
  USER_HEAP_BASE + USER_HEAP_SIZE <= user_heap_limit (mem p (process_current_task p)) ->
  process_prepare_exec_current p = (p', 0) ->
  let t := process_current_task p in
  (forall r i, 0 <= i < region_size r -> user p' t r i = 0) /\ mem p' t = fresh_mem /\
  (let s := sigs p' t in
   sigint_pending s = false /\ sigalrm_pending s = false /\ sigterm_pending s = false /\ sigchld_pending s = false /\
   (forall h : signals -> Z, h ∈ [sigint_handler; sigalrm_handler; sigterm_handler; sigchld_handler] ->
      h s = if h (sigs p t) =? LINUX_SIG_IGN then LINUX_SIG_IGN else LINUX_SIG_DFL) /\
   sig_stub_installed s = false /\ sigaltstack_sp s = 0 /\ sigaltstack_size s = 0) /\
  (forall u, u <> t -> user p' u = user p u /\ mem p' u = mem p u /\ sigs p' u = sigs p u).
Proof.
  intros H16 Hl E t. unfold process_prepare_exec_current in E. fold t in E, Hl.
  unfold USER_AS_MAX_TASKS in E. destruct (Z.leb_spec 16 t); [unfold t in *; lia|]. injection E as <-.
  split; [|split; [|split]].
  - intros r i Hi. cbn [user with_sigs with_mem with_user]. rewrite upd_eq. by apply wipe_clear_zero.
  - cbn [mem with_sigs with_mem with_user]. by rewrite upd_eq.
  - cbn [sigs with_sigs with_mem with_user]. rewrite upd_eq. do 4 (split; [done|]). split; [|done].
    intros h Hh. rewrite !elem_of_cons, elem_of_nil in Hh. by destruct Hh as [->|[->|[->|[->|[]]]]]; apply dfl_or_ign.
  - intros u Hu. cbn [user mem sigs with_sigs with_mem with_user]. by rewrite !upd_ne.
Qed.

(** A process group is only ever joined inside the caller's session: when
    [process_setpgid] succeeds, its target and, unless the target starts its own
    group, a live process with the group's number belong to the caller's session;
    nothing else changes, and a failure changes nothing. *)
Theorem setpgid_in_session n g p p' rc :
  process_setpgid n g p = (p', rc) ->
  let cur := process_current_task p in
  (rc = -1 /\ p' = p) \/
  (rc = 0 /\ exists t, live p t /\ pid_of p t = (if n =? 0 then pid_of p cur else n) /\
     sid (sess p t) = sid (sess p cur) /\
     0 <= pgid (sess p' t) /\
     pgid (sess p' t) = (if g =? 0 then pid_of p t else g) /\
     (pgid (sess p' t) = pid_of p t \/
      exists l, live p l /\ pid_of p l = pgid (sess p' t) /\ sid (sess p l) = sid (sess p cur)) /\
     (forall u, sid (sess p' u) = sid (sess p u)) /\ (forall u, u <> t -> sess p' u = sess p u)).
Proof.
  intros E cur. unfold process_setpgid in E. fold cur in E.
  destruct (task_find_by_pid p (if n =? 0 then pid_of p cur else n)) as [t|] eqn:Ft; [|injection E as <- <-; by left].
  destruct (find_some _ _ _ Ft) as (Rt & Lt & Pt).
  destruct (Z.eqb_spec (sid (sess p t)) (sid (sess p cur))) as [Es|]; cbn [negb] in E; [|injection E as <- <-; by left].
  set (g' := if g =? 0 then pid_of p t else g) in *.
  destruct (Z.ltb_spec g' 0); [injection E as <- <-; by left|].
  assert (HL : (if negb (g' =? pid_of p t) then match task_find_by_pid p g' with
                 | None => false | Some l => sid (sess p l) =? sid (sess p cur) end else true) = true ->
               g' = pid_of p t \/ exists l, live p l /\ pid_of p l = g' /\ sid (sess p l) = sid (sess p cur)).
  { destruct (Z.eqb_spec g' (pid_of p t)) as [|]; cbn [negb]; [by left|].
    destruct (task_find_by_pid p g') as [l|] eqn:Fl; [|done]. intros El%Z.eqb_eq.
    destruct (find_some _ _ _ Fl) as (? & ? & ?). right. exists l. done. }
  destruct (if negb (g' =? pid_of p t) then _ else true); injection E as <- <-; [right | by left].
  specialize (HL eq_refl). split; [done|]. exists t. cbn [sess with_sess]. rewrite upd_eq. cbn [set_pgid pgid].
  split; [done|]. split; [done|]. split; [done|]. split; [done|]. split; [done|]. split; [done|].
  split; [intros u; rewrite upd_case; by case_decide; subst | intros u Hu; by rewrite upd_ne].
Qed.

(** *** Runs *)

Definition callerb (p : proc) : bool :=
  let t := process_current_task p in (0 <=? t) && (t <? 64) && test (st p t = TASK_RUNNING).

(** [None]: a yield. *)
Fixpoint run_all (cs : list (option call)) (p : proc) : option proc :=
  match cs with
  | [] => Some p
  | None :: cs => run_all cs (with_sch scheduler_yield p)
  | Some c :: cs =>
      if callerb p && (next_pid p <? 2 ^ 31 - 1)
      then match run_call c p with Some p => run_all cs p | None => None end else None
  end.

Lemma callerb_ok p : callerb p = true -> caller p.
Proof.
  unfold callerb. rewrite !andb_true_iff, bool_decide_eq_true. intros [[H1%Z.leb_le H2%Z.ltb_lt] H3].
  by split.
Qed.

Lemma run_all_ok cs p p' : run_all cs p = Some p' -> rtc proc_step p p'.
Proof.
  revert p. induction cs as [|[c|] cs IH]; intros p E; simpl in E.
  - by injection E as ->.
  - destruct (callerb p && (next_pid p <? 2 ^ 31 - 1)) eqn:B; [|done].
    apply andb_true_iff in B as [B1%callerb_ok B2%Z.ltb_lt].
    destruct (run_call c p) as [p1|] eqn:E1; [|done].
    eapply rtc_l; [by eapply proc_call | by apply IH].
  - eapply rtc_l; [apply proc_yield | by apply IH].
Qed.
End calls.

(** ** A concrete run: descriptors as a log of the processes released *)

Definition log_fds : fd_layer :=
  {| fd_tables := list Z; syscall_release_process_fds := cons; fd_clone_after_fork := fun _ _ l => l |}.

Definition load_ok : list Z -> umem -> umem * option elf_image :=
  fun _ m => (m, Some {| entry_rip := 0x20000000; at_phdr := 0; at_phnum := 0; at_entry := 0; at_base := 0 |}).

(** The first process starts a shell, drops to user 5 in it, and the shell forks. *)
Definition demo_calls : list (option call) :=
  [Some (SpawnExec load_ok (str "/bin/sh") 0 []); None; Some (Setuid 5); Some (Fork zero_tf)].

Definition demo_proc (cs : list (option call)) : @proc log_fds :=
  default (@process_init log_fds []) (@run_all log_fds cs (@process_init log_fds [])).

Lemma demo_reachable cs :
  bool_decide (is_Some (@run_all log_fds cs (@process_init log_fds []))) = true ->
  rtc proc_step (@process_init log_fds []) (demo_proc cs).
Proof.
  unfold demo_proc. intros [p E]%bool_decide_eq_true. rewrite E. by apply run_all_ok with (cs := cs).
Qed.

Lemma process_tree_always_ok_witness :
  NoDup (children (demo_proc demo_calls) 1) /\ children (demo_proc demo_calls) 1 = [2] /\
  children (demo_proc demo_calls) 0 = [1].
Proof.
  split; [|by vm_compute].
  destruct (@process_tree_always_ok log_fds [] (demo_proc demo_calls)) as (_ & _ & _ & H & _).
  - apply demo_reachable. by vm_compute.
  - apply H.
Defined.

Lemma exit_hands_over_witness :
  let p := demo_proc demo_calls in
  exists p', process_exit_current 7 p = Some p' /\
    st p' 1 = TASK_ZOMBIE /\ exit_code (ids p' 1) = 7 /\ parent (fam p' 2) = Some 0.
Proof.
  intros p.
  assert (R : rtc proc_step (@process_init log_fds []) p) by (apply demo_reachable; by vm_compute).
  assert (C : caller p) by (apply callerb_ok; by vm_compute).
  assert (N : (pid_of p (process_current_task p) =? 1) = false) by (by vm_compute).
  assert (T1 : process_current_task p = 1) by (by vm_compute).
  assert (T2 : parent (fam p 1) = Some 0) by (by vm_compute).
  assert (T3 : children p 1 = [2]) by (by vm_compute). clearbody p.
  assert (E : exists p', process_exit_current 7 p = Some p') by (unfold process_exit_current; rewrite N; eauto).
  destruct E as [p' E]. exists p'. split; [done|].
  destruct (@exit_hands_over log_fds [] p p' 1 0 7 R C E (eq_sym T1) T2) as (A & B & _ & _ & _ & D & _).
  split; [exact A|]. split; [exact B|]. apply D. rewrite T3. left.
Defined.

Lemma wait_reaps_first_witness :
  let p := demo_proc (demo_calls ++ [Some (Exit 7); None]) in
  exists p' t, process_wait_pid (-1) 0 p = (p', Reaped 2 1792) /\ st p' t = TASK_UNUSED /\
    fds p' = syscall_release_process_fds 2 (fds p).
Proof.
  intros p.
  assert (R : rtc proc_step (@process_init log_fds []) p) by (apply demo_reachable; by vm_compute).
  assert (C : caller p) by (apply callerb_ok; by vm_compute).
  pose proof (@wait_reaps_first log_fds [] p (-1) 0 R C) as H.
  assert (E : snd (process_wait_pid (-1) 0 p) = Reaped 2 1792) by (by vm_compute). clearbody p.
  destruct (process_wait_pid (-1) 0 p) as [p' r]. cbn [snd] in E. subst r.
  destruct H as (t & l1 & l2 & _ & _ & _ & _ & _ & _ & U & _ & _ & F). eauto.
Defined.

Lemma fork_child_witness :
  let p := demo_proc (demo_calls ++ [None]) in
  exists p' c, process_fork zero_tf p = (p', 4) /\ st p' c = TASK_BLOCKED /\ cred p' c = cred p 0 /\
    user p' c TEXT 100 = user p 0 TEXT 100.
Proof.
  intros p.
  assert (R : rtc proc_step (@process_init log_fds []) p) by (apply demo_reachable; by vm_compute).
  assert (C : caller p) by (apply callerb_ok; by vm_compute).
  assert (E : snd (process_fork zero_tf p) = 4) by (by vm_compute).
  assert (P0 : process_current_task p = 0) by (by vm_compute).
  assert (N4 : next_pid p = 4) by (by vm_compute). clearbody p.
  pose proof (fun p' n => @fork_child log_fds [] p zero_tf p' n R C) as H. rewrite P0, N4 in H.
  destruct (process_fork zero_tf p) as [p' r]. cbn [snd] in E. subst r.
  destruct (H p' 4 ltac:(lia) ltac:(lia) eq_refl) as [[X _]|(c & _ & _ & _ & _ & S & _ & _ & _ & Cr & _ & _ & _ & _ & _ & _ & _ & U & _)];
    [done|].
  exists p', c. split; [done|]. split; [exact S|]. split; [exact Cr|]. apply U; [auto | by vm_compute].
Defined.

Lemma no_privilege_gained_witness :
  exists p, rtc proc_step (@process_init log_fds []) p /\ uid (cred p 1) = 5 /\
    unpriv (cred (fst (process_setreuid 0 0 p)) 1).
Proof.
  assert (X : exists p, rtc proc_step (@process_init log_fds []) p /\ caller p /\ next_pid p < 2 ^ 31 - 1 /\
    st (fst (process_setreuid 0 0 p)) 1 <> TASK_UNUSED /\ st p 1 <> TASK_UNUSED /\ uid (cred p 1) = 5 /\ euid (cred p 1) = 5).
  { exists (demo_proc demo_calls). split; [apply demo_reachable; by vm_compute|].
    split; [apply callerb_ok; by vm_compute|]. split_all; by vm_compute. }
  destruct X as (p & R & C & N & L' & L & U1 & U2). exists p. split; [done|]. split; [done|].
  apply (@no_privilege_gained log_fds [] p (fst (process_setreuid 0 0 p)) 1 R).
  - by apply (proc_call p (Setreuid 0 0)).
  - split; [lia | exact L'].
  - left. split; [split; [lia | exact L]|]. unfold unpriv. rewrite U1, U2. done.
Defined.

Lemma exec_starts_clean_witness :
  let p := demo_proc demo_calls in
  exists p', process_prepare_exec_current p = (p', 0) /\ user p' 1 BIGPIE 5 = 0 /\ mem p' 1 = fresh_mem.
Proof.
  intros p. assert (E : snd (process_prepare_exec_current p) = 0) by (by vm_compute).
  assert (P1 : process_current_task p = 1) by (by vm_compute).
  assert (H1 : USER_HEAP_BASE + USER_HEAP_SIZE <= user_heap_limit (mem p 1)) by (by vm_compute).
  clearbody p. pose proof (fun p' => exec_starts_clean p p') as H. rewrite P1 in H.
  destruct (process_prepare_exec_current p) as [p' r]. cbn [snd] in E. subst r.
  destruct (H p' ltac:(lia) H1 eq_refl) as (A & B & _).
  exists p'. split; [done|]. split; [apply A; by vm_compute | exact B].
Defined.

Lemma setpgid_in_session_witness :
  let p := demo_proc demo_calls in
  exists p', process_setpgid 3 2 p = (p', 0) /\ exists t, live p t /\ pid_of p t = 3 /\ pgid (sess p' t) = 2.
Proof.
  intros p. assert (E : snd (process_setpgid 3 2 p) = 0) by (by vm_compute). clearbody p.
  pose proof (fun p' => setpgid_in_session 3 2 p p') as H.
  destruct (process_setpgid 3 2 p) as [p' r]. cbn [snd] in E. subst r.
  destruct (H p' 0 eq_refl) as [[X _]|(_ & t & L & P & _ & _ & G & _)]; [done|].
  exists p'. split; [done|]. exists t. done.
Defined.

(** [process_setpgid] only asks that some process of the session has the group's
    number, and [process_setsid] that the caller is not in its own group: process 3
    can be left in group 2 of the old session when 2 leads a new one. *)
Example setsid_splits_group :
  let p := demo_proc (demo_calls ++ [Some (Setpgid 3 2); Some Setsid]) in
  pgid (sess p 2) = 2 /\ pgid (sess p 1) = 2 /\ sid (sess p 2) = 1 /\ sid (sess p 1) = 2.
Proof. by vm_compute. Qed.
