(* ===== verification/Vfs.v ===== *)
(** * The virtual file system ([src/src/vfs/vfs.c], [src/include/vfs/vfs.h])

    The mount table, the device nodes of [/dev], the resolution of a path to an
    inode, the permission checks and the operations on paths. A file system is
    the table of functions of its superblock: the class [filesystems] holds these
    functions, the class [machine] those of the keyboard, the console and the
    frame buffer, over a world [W]. A result [None] is a fault of the kernel: a call through a null
    superblock, or a path that runs past its buffer ([Path.v]). *)

From S2P Require Import Prelude CString Block Path Process Rng Uaccess.

Definition VFS_MAX_MOUNTS : Z := 8.
Definition VFS_INODE_DIR : Z := 0x4000.
Definition VFS_INODE_FILE : Z := 0x8000.
Definition VFS_INODE_CHR : Z := 0x2000.
Definition VFS_INODE_BLK : Z := 0x6000.
Definition ENOSYS : Z := 38.
Definition EACCES : Z := 13.

(** The permission bits, written with their octal digits. *)
Definition oct (z : Z) : Z := z mod 10 + 8 * (z / 10 mod 10) + 64 * (z / 100 mod 10) + 512 * (z / 1000 mod 10).

Record vfs_inode := {
  i_ino : Z; i_mode : Z; i_uid : Z; i_gid : Z; i_size : Z; i_private : list Z
}.

Definition zero_inode : vfs_inode :=
  {| i_ino := 0; i_mode := 0; i_uid := 0; i_gid := 0; i_size := 0; i_private := [0; 0; 0; 0] |}.

(** [sb_ops] names the table of functions. *)
Record superblock := {
  fs_name : path; dev_name : path; mountpoint : path; sb_root : vfs_inode; sb_ops : Z; sb_private : Z
}.

Inductive dev_kind :=
  | DEV_KIND_NONE | DEV_KIND_BLOCK | DEV_KIND_TTY0 | DEV_KIND_NULL | DEV_KIND_ZERO
  | DEV_KIND_FB0 | DEV_KIND_RANDOM | DEV_KIND_URANDOM | DEV_KIND_PTMX.

#[export] Instance dev_kind_eq_dec : EqDecision dev_kind.
Proof. solve_decision. Defined.

(** [dn_ptr]: the address of the block device, 0 for the others. *)
Record devnode := { dn_name : path; dn_mode : Z; dn_kind : dev_kind; dn_ptr : Z }.

(** What the current task gives the file system. *)
Record caller := { c_cred : credentials; c_dirs : dirs }.

Definition set_cwd (p : path) (c : caller) : caller :=
  {| c_cred := c_cred c; c_dirs := {| cwd := p; root := root (c_dirs c) |} |}.
Definition set_root (p : path) (c : caller) : caller :=
  {| c_cred := c_cred c; c_dirs := {| cwd := cwd (c_dirs c); root := p |} |}.

(** The functions of a superblock that may be missing. *)
Inductive fs_op := OP_READ | OP_WRITE | OP_CREATE | OP_MKDIR | OP_UNLINK | OP_STATFS.

(** [filesystem_ops_t]. [sb_has] tells whether a pointer is set; the last
    argument of [op_lookup] before the world is the inode it fills, and
    [ext_setattr] stands for [ext2_setattr] and [ext4_setattr]. *)
Class filesystems (W : Type) := {
  sb_has : superblock -> fs_op -> bool;
  op_lookup : superblock -> vfs_inode -> path -> vfs_inode -> W -> W * option vfs_inode;
  op_read : superblock -> vfs_inode -> Z -> Z -> W -> W * Z * list Z;
  op_write : superblock -> vfs_inode -> Z -> list Z -> W -> W * vfs_inode * Z;
  op_create : superblock -> vfs_inode -> path -> Z -> W -> W * option vfs_inode;
  op_mkdir : superblock -> vfs_inode -> path -> Z -> W -> W * option vfs_inode;
  op_unlink : superblock -> vfs_inode -> path -> W -> W * Z;
  op_statfs : superblock -> W -> option (Z * Z);
  ext_setattr : path -> superblock -> vfs_inode -> Z -> Z -> Z -> Z -> W -> W * Z
}.

(** The keyboard, the mouse, the console, the frame buffer ([fb_bytes] is its
    size, [None] when there is none) and what feeds the entropy pool. *)
Class machine (W : Type) := {
  keyboard_getchar : W -> W * Z;
  keyboard_mouse_read : Z -> W -> W * Z * list Z;
  keyboard_mouse_event_read : Z -> W -> W * Z * list Z;
  console_putchar : Z -> W -> W;
  fb_bytes : W -> option Z;
  fb_store : Z -> list Z -> W -> W;
  fb_get_2m_phys_window : W -> option (Z * Z * Z);
  fb_addr : W -> Z;
  entropy_source : W -> list sample * W
}.

Section vfs.
Context {W D : Type} `{!filesystems W} `{!machine W} `{!driver D}.

(** The tables of the module, the block layer below, the world and the current
    task. A table is the list of its entries in use. *)
Record vfs := {
  g_mounts : list superblock; g_fsreg : list path; g_cwd : path; g_devnodes : list devnode;
  g_rng : rng; g_block : block_table; g_disk : D; world : W; current : option caller
}.

Definition with_world (s : vfs) (w : W) : vfs :=
  {| g_mounts := g_mounts s; g_fsreg := g_fsreg s; g_cwd := g_cwd s; g_devnodes := g_devnodes s;
     g_rng := g_rng s; g_block := g_block s; g_disk := g_disk s; world := w; current := current s |}.
Definition with_rng (s : vfs) (g : rng) : vfs :=
  {| g_mounts := g_mounts s; g_fsreg := g_fsreg s; g_cwd := g_cwd s; g_devnodes := g_devnodes s;
     g_rng := g; g_block := g_block s; g_disk := g_disk s; world := world s; current := current s |}.
Definition with_disk (s : vfs) (d : D) : vfs :=
  {| g_mounts := g_mounts s; g_fsreg := g_fsreg s; g_cwd := g_cwd s; g_devnodes := g_devnodes s;
     g_rng := g_rng s; g_block := g_block s; g_disk := d; world := world s; current := current s |}.
Definition with_devnodes (s : vfs) (l : list devnode) : vfs :=
  {| g_mounts := g_mounts s; g_fsreg := g_fsreg s; g_cwd := g_cwd s; g_devnodes := l;
     g_rng := g_rng s; g_block := g_block s; g_disk := g_disk s; world := world s; current := current s |}.
Definition with_mounts (s : vfs) (l : list superblock) : vfs :=
  {| g_mounts := l; g_fsreg := g_fsreg s; g_cwd := g_cwd s; g_devnodes := g_devnodes s;
     g_rng := g_rng s; g_block := g_block s; g_disk := g_disk s; world := world s; current := current s |}.
Definition with_fsreg (s : vfs) (l : list path) : vfs :=
  {| g_mounts := g_mounts s; g_fsreg := l; g_cwd := g_cwd s; g_devnodes := g_devnodes s;
     g_rng := g_rng s; g_block := g_block s; g_disk := g_disk s; world := world s; current := current s |}.
Definition with_cwd (s : vfs) (p : path) : vfs :=
  {| g_mounts := g_mounts s; g_fsreg := g_fsreg s; g_cwd := p; g_devnodes := g_devnodes s;
     g_rng := g_rng s; g_block := g_block s; g_disk := g_disk s; world := world s; current := current s |}.
Definition with_current (s : vfs) (c : option caller) : vfs :=
  {| g_mounts := g_mounts s; g_fsreg := g_fsreg s; g_cwd := g_cwd s; g_devnodes := g_devnodes s;
     g_rng := g_rng s; g_block := g_block s; g_disk := g_disk s; world := world s; current := c |}.

Definition vfs_current_cwd_ptr (s : vfs) : path :=
  match current s with
  | Some c => if test (cwd (c_dirs c) = []) then [slash] else cwd (c_dirs c)
  | None => g_cwd s
  end.

Definition vfs_getcwd : vfs -> path := vfs_current_cwd_ptr.

(** ** Device nodes *)

Definition vfs_add_devnode (n : devnode) (s : vfs) : vfs * Z :=
  if BLOCK_MAX_DEVICES + 16 <=? zlength (g_devnodes s) then (s, -1)
  else (with_devnodes s (g_devnodes s ++ [n]), 0).

Definition vfs_inode_set_ptr (i : vfs_inode) (v : Z) : vfs_inode :=
  {| i_ino := i_ino i; i_mode := i_mode i; i_uid := i_uid i; i_gid := i_gid i; i_size := i_size i;
     i_private := Z.land v 0xFFFFFFFF :: Z.land (Z.shiftr v 32) 0xFFFFFFFF :: drop 2 (i_private i) |}.

Definition vfs_inode_get_ptr (i : vfs_inode) : Z :=
  Z.lor (nth 0 (i_private i) 0) (u64 (Z.shiftl (nth 1 (i_private i) 0) 32)).

(** The address of a device of the block table; the table starts at 1 here. *)
Definition block_addr (i : Z) : Z := i + 1.
Definition block_at (s : vfs) (a : Z) : option block_device :=
  if a =? 0 then None else Some (devices (g_block s) (a - 1)).

Fixpoint add_block_nodes (n : nat) (i : Z) (s : vfs) : vfs :=
  match n with
  | O => s
  | S n =>
      match block_get (g_block s) i with
      | Some b =>
          if present (devices (g_block s) b) =? 0 then add_block_nodes n (i + 1) s
          else
            let '(s, r) := vfs_add_devnode
              {| dn_name := bname (devices (g_block s) b); dn_mode := Z.lor VFS_INODE_BLK (oct 660);
                 dn_kind := DEV_KIND_BLOCK; dn_ptr := block_addr b |} s in
            if r <? 0 then s else add_block_nodes n (i + 1) s
      | None => add_block_nodes n (i + 1) s
      end
  end.

Definition chr_node (nm : string) (perm : Z) (k : dev_kind) : devnode :=
  {| dn_name := str nm; dn_mode := Z.lor VFS_INODE_CHR perm; dn_kind := k; dn_ptr := 0 |}.

Definition chr_nodes : list devnode :=
  [chr_node "console" (oct 666) DEV_KIND_TTY0; chr_node "tty0" (oct 666) DEV_KIND_TTY0;
   chr_node "tty1" (oct 666) DEV_KIND_TTY0; chr_node "tty2" (oct 666) DEV_KIND_TTY0;
   chr_node "tty3" (oct 666) DEV_KIND_TTY0; chr_node "tty4" (oct 666) DEV_KIND_TTY0;
   chr_node "tty" (oct 666) DEV_KIND_TTY0; chr_node "null" (oct 666) DEV_KIND_NULL;
   chr_node "zero" (oct 666) DEV_KIND_ZERO; chr_node "fb0" (oct 660) DEV_KIND_FB0;
   chr_node "random" (oct 666) DEV_KIND_RANDOM; chr_node "urandom" (oct 666) DEV_KIND_URANDOM;
   chr_node "ptmx" (oct 666) DEV_KIND_PTMX].

(** [m] is what the machine reads for [rng_collect_entropy]. *)
Definition vfs_build_devnodes (m : sample) (s : vfs) : vfs :=
  let s := with_devnodes s [] in
  let s := add_block_nodes (Z.to_nat (block_count (g_block s))) 0 s in
  let s := fold_left (fun s n => fst (vfs_add_devnode n s)) chr_nodes s in
  with_rng s (rng_collect_entropy m (g_rng s)).

Definition node_at (s : vfs) (i : Z) : option devnode := g_devnodes s !! Z.to_nat i.

Definition vfs_devnode_find (s : vfs) (nm : path) : Z :=
  scan (fun i => if node_at s i is Some n then test (dn_name n = nm) else false)
    0 (length (g_devnodes s)).

Definition vfs_devnode_from_inode (s : vfs) (i : vfs_inode) : Z :=
  if i_ino i <? 0xD0000000 then -1
  else
    let idx := i_ino i - 0xD0000000 in
    if zlength (g_devnodes s) <=? idx then -1 else idx.

Fixpoint vfs_read_tty_loop (n : nat) (w : W) : W * list Z :=
  match n with
  | O => (w, [])
  | S n =>
      let '(w, ch) := keyboard_getchar w in
      if ch <? 0 then (w, [])
      else if u8 ch =? 10 then (w, [u8 ch])
      else let '(w, out) := vfs_read_tty_loop n w in (w, u8 ch :: out)
  end.

Definition vfs_read_tty (max : Z) (s : vfs) : vfs * Z * list Z :=
  if max =? 0 then (s, 0, [])
  else let '(w, out) := vfs_read_tty_loop (Z.to_nat max) (world s) in (with_world s w, zlength out, out).

(** Reading the pool; [None]: the reader waits for entropy for ever. *)
Definition read_pool (max : Z) (blocking : bool) (s : vfs) : option (vfs * Z * list Z) :=
  let '(ms, w) := entropy_source (world s) in
  match rng_fill_bytes (Z.to_nat max) ms blocking (g_rng s) with
  | Some (out, g, _) => Some (with_rng (with_world s w) g, i32 max, out)
  | None => None
  end.

Definition vfs_dev_read_chr (dn : devnode) (max : Z) (s : vfs) : option (vfs * Z * list Z) :=
  match dn_kind dn with
  | DEV_KIND_TTY0 => Some (vfs_read_tty max s)
  | DEV_KIND_NULL => Some (s, 0, [])
  | DEV_KIND_ZERO => Some (s, i32 max, replicate (Z.to_nat max) 0)
  | DEV_KIND_FB0 => Some (s, - ENOSYS, [])
  | DEV_KIND_RANDOM => read_pool max true s
  | DEV_KIND_URANDOM => read_pool max false s
  | DEV_KIND_PTMX => Some (s, - ENOSYS, [])
  | _ => Some (s, -1, [])
  end.

Definition put_chars (buf : list Z) (s : vfs) : vfs :=
  with_world s (fold_left (fun w c => console_putchar c w) buf (world s)).

Definition vfs_dev_write_chr (dn : devnode) (buf : list Z) (s : vfs) : vfs * Z :=
  let len := zlength buf in
  match dn_kind dn with
  | DEV_KIND_TTY0 => (put_chars buf s, i32 len)
  | DEV_KIND_NULL | DEV_KIND_ZERO => (s, i32 len)
  | DEV_KIND_FB0 =>
      match fb_bytes (world s) with
      | None => (s, -1)
      | Some total =>
          let n := if len <? total then len else total in
          (with_world s (fb_store 0 (take (Z.to_nat n) buf) (world s)), i32 n)
      end
  | DEV_KIND_RANDOM | DEV_KIND_URANDOM => (with_rng s (rng_write buf 0 (g_rng s)), i32 len)
  | DEV_KIND_PTMX => (s, - ENOSYS)
  | _ => (s, -1)
  end.

(** ** Paths below [/dev] *)

Fixpoint parse_decimal_loop (p : path) (v : Z) : option Z :=
  match p with
  | [] => Some v
  | c :: p =>
      if (c <? chr "0") || (chr "9" <? c) then None
      else
        let v := i32 (v * 10 + (c - chr "0")) in
        if (v <? 0) || (1000000 <? v) then None else parse_decimal_loop p v
  end.

Definition parse_decimal_str (p : path) : option Z :=
  if test (p = []) then None else parse_decimal_loop p 0.

Definition dev_input_is_mouse_stream (nm : path) : bool :=
  test (nm = str "input/mice") || test (nm = str "input/mouse0").
Definition dev_input_is_event_stream (nm : path) : bool := test (nm = str "input/event0").

Definition vfs_current_umask (s : vfs) : Z :=
  match current s with Some c => Z.land (umask (c_cred c)) (oct 777) | None => 0 end.

Definition dev_inode (ino mode ptr : Z) : vfs_inode :=
  vfs_inode_set_ptr {| i_ino := ino; i_mode := mode; i_uid := 0; i_gid := 0; i_size := 0;
                       i_private := [0; 0; 0; 0] |} ptr.

(** The inode of a device path. Its superblock is null; no caller asks for the
    parent. *)
Definition vfs_try_resolve_devpath (s : vfs) (abs : path) : option vfs_inode :=
  if test (abs = str "/dev") then None
  else if negb (test (take 5 abs = str "/dev/")) then None
  else
    let nm := drop 5 abs in
    if test (nm = str "pts") then Some (dev_inode 0xD0FFF000 (Z.lor VFS_INODE_DIR (oct 755)) 0)
    else if test (nm = str "input") then Some (dev_inode 0xD0FFE000 (Z.lor VFS_INODE_DIR (oct 755)) 0)
    else if dev_input_is_mouse_stream nm || dev_input_is_event_stream nm then
      Some (dev_inode (if dev_input_is_event_stream nm then 0xD0FFE101 else 0xD0FFE100)
                      (Z.lor VFS_INODE_CHR (oct 666)) 0)
    else if test (take 4 nm = str "pts/") then
      match parse_decimal_str (drop 4 nm) with
      | None => None
      | Some idx => Some (dev_inode (u32 (0xD0FFF100 + idx)) (Z.lor VFS_INODE_CHR (oct 620)) 0)
      end
    else if test (nm = []) then None
    else if test (slash ∈ nm) then None
    else
      let idx := vfs_devnode_find s nm in
      if idx <? 0 then None
      else match node_at s idx with
           | Some n => Some (dev_inode (0xD0000000 + idx) (dn_mode n) (dn_ptr n))
           | None => None
           end.

(** ** Mounts *)

Definition vfs_register (nm : path) (s : vfs) : vfs * Z :=
  if 4 <=? zlength (g_fsreg s) then (s, -1) else (with_fsreg s (g_fsreg s ++ [nm]), 0).

Definition vfs_init (m : sample) (s : vfs) : vfs :=
  let s := with_cwd (with_devnodes (with_fsreg (with_mounts s []) []) []) [slash] in
  let s := fst (vfs_register (str "ext2") s) in
  let s := fst (vfs_register (str "ext4") s) in
  let s := fst (vfs_register (str "fat32") s) in
  let s := fst (vfs_register (str "proc") s) in
  vfs_build_devnodes m s.

(** The test of [vfs_find_mount] on one mount point. *)
Definition covers (mp p : path) : bool :=
  test (take (length mp) p = mp) &&
  (match p !! length mp with Some c => c =? slash | None => true end || (length mp =? 1)%nat).

Fixpoint find_mount_loop (l : list superblock) (p : path) (best : option superblock) (best_len : Z) :
    option superblock :=
  match l with
  | [] => best
  | sb :: l =>
      let ml := zlength (mountpoint sb) in
      if (best_len <? ml) && covers (mountpoint sb) p then find_mount_loop l p (Some sb) ml
      else find_mount_loop l p best best_len
  end.

Definition vfs_find_mount (s : vfs) (p : path) : option superblock := find_mount_loop (g_mounts s) p None (-1).

(** [vfs_mount]: the registered file system of that name mounts itself. *)
Definition vfs_mount (mount_fn : path -> path -> path -> vfs -> vfs * Z) (dev target fsname : path) (s : vfs) : vfs * Z :=
  if test (fsname ∈ g_fsreg s) then mount_fn fsname dev target s else (s, -1).

Definition vfs_mount_blockdev (mount_block : path -> Z -> path -> vfs -> vfs * Z) (dev : Z) (target fsname : path)
    (s : vfs) : vfs * Z :=
  if dev =? 0 then (s, -1)
  else if test (fsname = str "ext4") || test (fsname = str "ext2") then mount_block fsname dev target s
  else (s, -1).

Definition vfs_add_superblock (sb : superblock) (s : vfs) : vfs * Z :=
  if VFS_MAX_MOUNTS <=? zlength (g_mounts s) then (s, -1)
  else (with_mounts s (g_mounts s ++ [sb]), 0).

Definition vfs_has_mounts (s : vfs) : bool := negb (test (g_mounts s = [])).

(** ** Resolution *)

(** The loop over the components of the path below the mount point. *)
Fixpoint walk_path (fuel : nat) (sb : superblock) (p : path) (cur : vfs_inode) (w : W) : W * option vfs_inode :=
  match fuel with
  | O => (w, Some cur)
  | S f =>
      match p with
      | [] => (w, Some cur)
      | _ :: _ =>
          let part := take (Z.to_nat (VFS_NAME_MAX - 1)) (upto_slash p) in
          let p := drop 1 (from_slash p) in
          if test (part = []) || test (part = dot) then walk_path f sb p cur w
          else if test (part = dotdot) then walk_path f sb p cur w
          else
            match op_lookup sb cur part cur w with
            | (w, None) => (w, None)
            | (w, Some i) => walk_path f sb p i w
            end
      end
  end.

(** What is left of an absolute path below its mount point. *)
Definition below (mp abs : path) : path :=
  if (length mp =? 1)%nat then drop 1 abs
  else drop (length mp + (if test (abs !! length mp = Some slash) then 1 else 0)) abs.

Inductive resolution :=
  | Resolved (ino : vfs_inode) (sb : option superblock)
  | Unresolved.

Definition vfs_resolve (p : option path) (s : vfs) : option (vfs * resolution) :=
  match normalize_path (vfs_current_cwd_ptr s) p with
  | None => None
  | Some abs =>
      match vfs_try_resolve_devpath s abs with
      | Some i => Some (s, Resolved i None)
      | None =>
          match vfs_find_mount s abs with
          | None => Some (s, Unresolved)
          | Some sb =>
              let rel := below (mountpoint sb) abs in
              match walk_path (length rel) sb rel (sb_root sb) (world s) with
              | (w, Some i) => Some (with_world s w, Resolved i (Some sb))
              | (w, None) => Some (with_world s w, Unresolved)
              end
          end
      end
  end.

(** ** Permissions *)

Definition vfs_permission_check (i : vfs_inode) (mask : Z) (t : option caller) : Z :=
  match t with
  | None => 0
  | Some t =>
      let mode := Z.land (i_mode i) (oct 7777) in
      if euid (c_cred t) =? 0 then
        if flag mask 1 && negb (flag mode (oct 111)) then - EACCES else 0
      else
        let bits := if euid (c_cred t) =? i_uid i then Z.land (Z.shiftr mode 6) 7
                    else if egid (c_cred t) =? i_gid i then Z.land (Z.shiftr mode 3) 7
                    else Z.land mode 7 in
        if flag mask 4 && negb (flag bits 4) then - EACCES
        else if flag mask 2 && negb (flag bits 2) then - EACCES
        else if flag mask 1 && negb (flag bits 1) then - EACCES
        else 0
  end.

(** [(inode.mode & 0xF000) == k] *)
Definition is_kind (i : vfs_inode) (k : Z) : bool := Z.land (i_mode i) 0xF000 =? k.

(** ** Files *)

Definition SECBUF : Z := 65536.

(** How many sectors a transfer of [n] bytes takes through the static buffer. *)
Definition sectors_for (n ss : Z) : Z :=
  let k := u32 (n + ss - 1) / ss in
  let k := if SECBUF <? u32 (k * ss) then SECBUF / ss else k in
  if k =? 0 then 1 else k.

Definition read_block_file (i : vfs_inode) (max : Z) (s : vfs) : option (vfs * Z * list Z) :=
  match block_at s (vfs_inode_get_ptr i) with
  | None => Some (s, -1, [])
  | Some b =>
      if negb (has_read b) || (sector_size b =? 0) then Some (s, -1, [])
      else if max =? 0 then Some (s, 0, [])
      else
        let sectors := sectors_for max (sector_size b) in
        match block_read_sectors (Some b) (g_disk s) (fun _ => 0) 0 sectors SECBUF with
        | None => None
        | Some (r, d, m) =>
            let s := with_disk s d in
            if r <? 0 then Some (s, -1, [])
            else
              let n := u32 (sectors * sector_size b) in
              let n := if max <? n then max else n in
              Some (s, n, load_bytes m SECBUF (Z.to_nat n))
        end
  end.

Definition write_block_file (i : vfs_inode) (buf : list Z) (s : vfs) : option (vfs * Z) :=
  match block_at s (vfs_inode_get_ptr i) with
  | None => Some (s, -1)
  | Some b =>
      let len := zlength buf in
      if negb (has_write b) || (sector_size b =? 0) then Some (s, -1)
      else if len =? 0 then Some (s, 0)
      else
        let sectors := sectors_for len (sector_size b) in
        let total := u32 (sectors * sector_size b) in
        let m := store_bytes (memset (fun _ => 0) SECBUF 0 (Z.to_nat total)) SECBUF
                   (take (Z.to_nat (if len <? total then len else total)) buf) in
        match block_write_sectors (Some b) (g_disk s) m 0 sectors SECBUF with
        | None => None
        | Some (r, d) => Some (with_disk s d, if r <? 0 then -1 else i32 len)
        end
  end.

Definition vfs_read_file (p : path) (max : Z) (s : vfs) : option (vfs * Z * list Z) :=
  match vfs_resolve (Some p) s with
  | None => None
  | Some (s, Unresolved) => Some (s, -1, [])
  | Some (s, Resolved i sb) =>
      if vfs_permission_check i 4 (current s) <? 0 then Some (s, -1, [])
      else if test (p = str "/dev/input/mice") || test (p = str "/dev/input/mouse0") then
        let '(w, r, out) := keyboard_mouse_read max (world s) in Some (with_world s w, r, out)
      else if test (p = str "/dev/input/event0") then
        let '(w, r, out) := keyboard_mouse_event_read max (world s) in Some (with_world s w, r, out)
      else if is_kind i VFS_INODE_CHR then
        match node_at s (vfs_devnode_from_inode s i) with
        | Some dn => if 0 <=? vfs_devnode_from_inode s i then vfs_dev_read_chr dn max s
                     else Some (vfs_read_tty max s)
        | None => Some (vfs_read_tty max s)
        end
      else if is_kind i VFS_INODE_BLK then read_block_file i max s
      else
        match sb with
        | None => Some (s, -1, [])
        | Some sb =>
            if negb (sb_has sb OP_READ) then Some (s, -1, [])
            else let '(w, r, out) := op_read sb i 0 max (world s) in Some (with_world s w, r, out)
        end
  end.

(** The creation of the file, once its path is known not to resolve. *)
Definition write_new_file (abs : path) (buf : list Z) (s : vfs) : option (vfs * Z) :=
  match path_split_last abs with
  | None => Some (s, -1)
  | Some (parent_path, leaf) =>
      match vfs_resolve (Some parent_path) s with
      | None => None
      | Some (s, Unresolved) => Some (s, -1)
      | Some (s, Resolved par sb) =>
          match sb with
          | None => None
          | Some sb =>
              if negb (sb_has sb OP_CREATE) then Some (s, -1)
              else if vfs_permission_check par 3 (current s) <? 0 then Some (s, -1)
              else
                let mode := Z.lor VFS_INODE_FILE (Z.land (oct 644) (Z.lnot (vfs_current_umask s))) in
                match op_create sb par leaf mode (world s) with
                | (w, None) => Some (with_world s w, -1)
                | (w, Some i) =>
                    if sb_has sb OP_WRITE
                    then let '(w, _, r) := op_write sb i 0 buf w in Some (with_world s w, r)
                    else Some (with_world s w, -1)
                end
          end
      end
  end.

Definition write_old_file (i : vfs_inode) (sb : option superblock) (buf : list Z) (s : vfs) : option (vfs * Z) :=
  if vfs_permission_check i 2 (current s) <? 0 then Some (s, -1)
  else if is_kind i VFS_INODE_CHR then
    match node_at s (vfs_devnode_from_inode s i) with
    | Some dn => Some (if 0 <=? vfs_devnode_from_inode s i then vfs_dev_write_chr dn buf s
                       else (put_chars buf s, i32 (zlength buf)))
    | None => Some (put_chars buf s, i32 (zlength buf))
    end
  else if is_kind i VFS_INODE_BLK then write_block_file i buf s
  else
    match sb with
    | None => None
    | Some sb =>
        if negb (sb_has sb OP_WRITE) then Some (s, -1)
        else let '(w, _, r) := op_write sb i 0 buf (world s) in Some (with_world s w, r)
    end.

Definition vfs_write_file (p : path) (buf : list Z) (s : vfs) : option (vfs * Z) :=
  match normalize_path (vfs_current_cwd_ptr s) (Some p) with
  | None => None
  | Some abs =>
      match vfs_resolve (Some abs) s with
      | None => None
      | Some (s, Resolved i sb) => write_old_file i sb buf s
      | Some (s, Unresolved) => write_new_file abs buf s
      end
  end.

Definition vfs_mkdir (p : path) (s : vfs) : option (vfs * Z) :=
  match normalize_path (vfs_current_cwd_ptr s) (Some p) with
  | None => None
  | Some abs =>
      match path_split_last abs with
      | None => Some (s, -1)
      | Some (parent_path, leaf) =>
          match vfs_resolve (Some parent_path) s with
          | None => None
          | Some (s, Unresolved) => Some (s, -1)
          | Some (s, Resolved par sb) =>
              match sb with
              | None => None
              | Some sb =>
                  if negb (sb_has sb OP_MKDIR) then Some (s, -1)
                  else if vfs_permission_check par 3 (current s) <? 0 then Some (s, -1)
                  else
                    let mode := Z.lor VFS_INODE_DIR (Z.land (oct 755) (Z.lnot (vfs_current_umask s))) in
                    let '(w, r) := op_mkdir sb par leaf mode (world s) in
                    Some (with_world s w, if r is Some _ then 0 else -1)
              end
          end
      end
  end.

Definition vfs_touch (p : path) (s : vfs) : option (vfs * Z) :=
  match vfs_write_file p [] s with
  | Some (s, r) => Some (s, if 0 <=? r then 0 else -1)
  | None => None
  end.

(** The sticky bit of a directory protects the files of others. *)
Definition sticky_denies (par victim : vfs_inode) (t : option caller) : bool :=
  match t with
  | None => false
  | Some t => flag (i_mode par) (oct 1000) && negb (euid (c_cred t) =? 0) &&
              negb (euid (c_cred t) =? i_uid par) && negb (euid (c_cred t) =? i_uid victim)
  end.

(** [stack] is the inode on the stack before the lookup fills it. *)
Definition vfs_unlink (stack : vfs_inode) (p : path) (s : vfs) : option (vfs * Z) :=
  match normalize_path (vfs_current_cwd_ptr s) (Some p) with
  | None => None
  | Some abs =>
      match path_split_last abs with
      | None => Some (s, -1)
      | Some (parent_path, leaf) =>
          match vfs_resolve (Some parent_path) s with
          | None => None
          | Some (s, Unresolved) => Some (s, -1)
          | Some (s, Resolved par sb) =>
              match sb with
              | None => None
              | Some sb =>
                  if negb (sb_has sb OP_UNLINK) then Some (s, -1)
                  else if vfs_permission_check par 3 (current s) <? 0 then Some (s, -1)
                  else
                    let '(w, victim) := op_lookup sb par leaf stack (world s) in
                    let s := with_world s w in
                    if (if victim is Some v then sticky_denies par v (current s) else false)
                    then Some (s, -1)
                    else let '(w, r) := op_unlink sb par leaf (world s) in Some (with_world s w, r)
              end
          end
      end
  end.

(** ** Directories of the task *)

(** The path resolves to a directory the task may search: its normal form. *)
Definition resolve_dir (p : option path) (s : vfs) : option (vfs * option path) :=
  match normalize_path (vfs_current_cwd_ptr s) p with
  | None => None
  | Some abs =>
      match vfs_resolve (Some abs) s with
      | None => None
      | Some (s, Unresolved) => Some (s, None)
      | Some (s, Resolved i _) =>
          if negb (flag (i_mode i) VFS_INODE_DIR) then Some (s, None)
          else if vfs_permission_check i 1 (current s) <? 0 then Some (s, None)
          else Some (s, Some abs)
      end
  end.

Definition vfs_chdir (p : option path) (s : vfs) : option (vfs * Z) :=
  match resolve_dir p s with
  | None => None
  | Some (s, None) => Some (s, -1)
  | Some (s, Some abs) =>
      Some (match current s with
            | Some c => with_current s (Some (set_cwd abs c))
            | None => with_cwd s abs
            end, 0)
  end.

Definition vfs_chroot (p : option path) (s : vfs) : option (vfs * Z) :=
  match current s, p with
  | None, _ | _, None => Some (s, -1)
  | Some _, Some _ =>
      match resolve_dir p s with
      | None => None
      | Some (s, None) => Some (s, -1)
      | Some (s, Some abs) =>
          Some (match current s with
                | Some c =>
                    let c := set_root abs c in
                    with_current s (Some (if test (cwd (c_dirs c) = []) then set_cwd [slash] c else c))
                | None => s
                end, 0)
      end
  end.

(** ** Attributes and devices *)

Definition vfs_statfs_path (p : path) (s : vfs) : option (Z * Z) :=
  match vfs_find_mount s (if test (p = []) then vfs_current_cwd_ptr s else p) with
  | None => None
  | Some sb => if negb (sb_has sb OP_STATFS) then None else op_statfs sb (world s)
  end.

Definition set_attr (p : path) (mode uid gid mask : Z) (s : vfs) : option (vfs * Z) :=
  match vfs_resolve (Some p) s with
  | None => None
  | Some (s, Unresolved) => Some (s, -1)
  | Some (s, Resolved i None) => Some (s, 0)
  | Some (s, Resolved i (Some sb)) =>
      if test (fs_name sb = str "ext2") || test (fs_name sb = str "ext4") then
        let '(w, r) := ext_setattr (fs_name sb) sb i mode uid gid mask (world s) in Some (with_world s w, r)
      else Some (s, 0)
  end.

Definition vfs_chmod (p : path) (mode : Z) : vfs -> option (vfs * Z) := set_attr p mode 0 0 1.
Definition vfs_chown (p : path) (uid gid : Z) : vfs -> option (vfs * Z) := set_attr p 0 uid gid 6.

Definition vfs_inode_get_block_device (i : vfs_inode) : option Z :=
  if negb (is_kind i VFS_INODE_BLK) then None
  else let a := vfs_inode_get_ptr i in if a =? 0 then None else Some a.

(** The character device of a path, for the calls that want one. *)
Definition char_device (p : path) (s : vfs) : option (vfs * option devnode) :=
  match vfs_resolve (Some p) s with
  | None => None
  | Some (s, Unresolved) => Some (s, None)
  | Some (s, Resolved i _) =>
      if negb (is_kind i VFS_INODE_CHR) then Some (s, None)
      else if vfs_devnode_from_inode s i <? 0 then Some (s, None)
      else Some (s, node_at s (vfs_devnode_from_inode s i))
  end.

Definition EDGE_FBDEV_USER_BASE : Z := 0x38000000.
Definition EDGE_FBDEV_USER_MAX_PAGES : Z := 32.

(** The result code, the address and the length. *)
Definition vfs_dev_mmap (p : path) (s : vfs) : option (vfs * (Z * Z * Z)) :=
  match char_device p s with
  | None => None
  | Some (s, None) => Some (s, (- EINVAL, 0, 0))
  | Some (s, Some dn) =>
      if negb (test (dn_kind dn = DEV_KIND_FB0)) then Some (s, (- ENOSYS, 0, 0))
      else
        match fb_bytes (world s) with
        | None => Some (s, (-1, 0, 0))
        | Some total =>
            match fb_get_2m_phys_window (world s) with
            | Some (_, pages, off) =>
                if (0 <? pages) && (pages <=? EDGE_FBDEV_USER_MAX_PAGES)
                then Some (s, (0, EDGE_FBDEV_USER_BASE + off, total))
                else Some (s, (0, fb_addr (world s), total))
            | None => Some (s, (0, fb_addr (world s), total))
            end
        end
  end.

Definition vfs_dev_pwrite (p : path) (buf : list Z) (off : Z) (s : vfs) : option (vfs * Z) :=
  match char_device p s with
  | None => None
  | Some (s, None) => Some (s, - EINVAL)
  | Some (s, Some dn) =>
      if test (dn_kind dn = DEV_KIND_FB0) then
        match fb_bytes (world s) with
        | None => Some (s, -1)
        | Some total =>
            if total <=? off then Some (s, 0)
            else
              let n := zlength buf in
              let n := if (u64 (off + n) <? off) || (total <? u64 (off + n)) then total - off else n in
              Some (with_world s (fb_store (u32 off) (take (Z.to_nat n) buf) (world s)), i32 n)
        end
      else vfs_write_file p buf s
  end.

(** ** The list of mounts *)

(** [APPEND_STR]: the characters that fit in [buf], whose last byte is kept for
    the terminator. *)
Definition append_str (max : Z) (out p : path) : path :=
  out ++ take (Z.to_nat (max - 1 - zlength out)) p.

Definition or_default (p d : path) : path := if test (p = []) then d else p.

Fixpoint snapshot_loop (l : list superblock) (max : Z) (out : path) : path :=
  match l with
  | [] => out
  | sb :: l =>
      let out := append_str max out (or_default (dev_name sb) (str "none")) in
      let out := append_str max out (str " ") in
      let out := append_str max out (or_default (mountpoint sb) [slash]) in
      let out := append_str max out (str " ") in
      let out := append_str max out (or_default (fs_name sb) (str "unknown")) in
      let out := append_str max out (str " rw 0 0" ++ [10]) in
      if max <=? zlength out + 1 then out else snapshot_loop l max out
  end.

(** The text in the buffer; [None] is the result -1. *)
Definition vfs_mounts_snapshot (max : Z) (s : vfs) : option path :=
  if max =? 0 then None else Some (snapshot_loop (g_mounts s) max []).
End vfs.

Arguments vfs : clear implicits.
