(* ===== verification/FatVfs.v ===== *)
(** * The in-memory file system behind the virtual file system
    ([src/src/fs/fat32/fat32_vfs.c])

    The functions of [g_ops] as an instance of the interface of [Vfs.v]: the
    world is the node table of [MemFs.v] next to the machine. An inode number is
    the address of a node; the table starts at 1 here, 0 is the null pointer. *)

From S2P Require Import Prelude Path Rng Vfs MemFs Uaccess.

Section fat.
Context {M : Type} `{!machine M}.

Definition fatworld : Type := nodes * M.

Definition node_addr (i : Z) : Z := i + 1.
Definition node_ptr (ino : Z) : option Z := if ino =? 0 then None else Some (ino - 1).
Definition node_or_root (ino : Z) : Z := default 0 (node_ptr ino).

Definition fat_mode (g : nodes) (i : Z) : Z :=
  Z.lor (if ntype (g i) =? FAT32_TYPE_DIR then VFS_INODE_DIR else VFS_INODE_FILE) (oct 777).

(** The fields the functions set; the others keep what [out] held. *)
Definition fill_inode (ino mode size : Z) (out : vfs_inode) : vfs_inode :=
  {| i_ino := ino; i_mode := mode; i_uid := i_uid out; i_gid := i_gid out; i_size := size;
     i_private := i_private out |}.

Definition f_lookup (g : nodes) (dir : vfs_inode) (nm : path) (out : vfs_inode) : option vfs_inode :=
  match fat32_open g (Some nm) (Some (node_or_root (i_ino dir))) with
  | None => None
  | Some n => Some (fill_inode (node_addr n) (fat_mode g n) (MemFs.size (g n)) out)
  end.

Definition f_read (g : nodes) (i : vfs_inode) (off len : Z) : Z * list Z :=
  match fat32_read g (node_ptr (i_ino i)) (i32 len) with
  | None => (-1, [])
  | Some bs => (zlength bs, bs)
  end.

Definition f_write (g : nodes) (i : vfs_inode) (off : Z) (buf : list Z) : nodes * Z :=
  match node_ptr (i_ino i) with
  | None => (g, -1)
  | Some n =>
      if negb (ntype (g n) =? FAT32_TYPE_FILE) then (g, -1)
      else (<[n := set_content (g n) (clip buf)]> g, zlength (clip buf))
  end.

(** The common part of [f_create] and [f_mkdir]. *)
Definition f_make (make : nodes -> path -> option Z -> nodes * Z) (kind : Z) (g : nodes) (dir : vfs_inode)
    (nm : path) : nodes * option vfs_inode :=
  let '(g, r) := make g nm (node_ptr (i_ino dir)) in
  if r <? 0 then (g, None)
  else
    let n := fat32_open g (Some nm) (node_ptr (i_ino dir)) in
    (g, Some (fill_inode (match n with Some n => node_addr n | None => 0 end)
                (Z.lor kind (oct 777)) 0 zero_inode)).

Definition f_create (g : nodes) (dir : vfs_inode) (nm : path) : nodes * option vfs_inode :=
  f_make fat32_touch VFS_INODE_FILE g dir nm.
Definition f_mkdir (g : nodes) (dir : vfs_inode) (nm : path) : nodes * option vfs_inode :=
  f_make fat32_mkdir VFS_INODE_DIR g dir nm.

Definition f_unlink (g : nodes) (dir : vfs_inode) (nm : path) : nodes * Z :=
  fat32_rm g (Some nm) (node_ptr (i_ino dir)).

Definition f_statfs : Z * Z := (1024, 128).

#[export] Instance fat_filesystems : filesystems fatworld := {|
  sb_has _ _ := true;
  op_lookup _ dir nm out w := (w, f_lookup w.1 dir nm out);
  op_read _ i off len w := let '(r, bs) := f_read w.1 i off len in (w, r, bs);
  op_write _ i off buf w := let '(g, r) := f_write w.1 i off buf in ((g, w.2), i, r);
  op_create _ dir nm _ w := let '(g, r) := f_create w.1 dir nm in ((g, w.2), r);
  op_mkdir _ dir nm _ w := let '(g, r) := f_mkdir w.1 dir nm in ((g, w.2), r);
  op_unlink _ dir nm w := let '(g, r) := f_unlink w.1 dir nm in ((g, w.2), r);
  op_statfs _ _ := Some f_statfs;
  ext_setattr _ _ _ _ _ _ _ w := (w, -1)
|}.

(** The machine next to the nodes. *)
#[export] Instance fat_machine : machine fatworld := {|
  keyboard_getchar w := let '(m, c) := keyboard_getchar w.2 in ((w.1, m), c);
  keyboard_mouse_read n w := let '(m, r, bs) := keyboard_mouse_read n w.2 in ((w.1, m), r, bs);
  keyboard_mouse_event_read n w := let '(m, r, bs) := keyboard_mouse_event_read n w.2 in ((w.1, m), r, bs);
  console_putchar c w := (w.1, console_putchar c w.2);
  fb_bytes w := fb_bytes w.2;
  fb_store off bs w := (w.1, fb_store off bs w.2);
  fb_get_2m_phys_window w := fb_get_2m_phys_window w.2;
  fb_addr w := fb_addr w.2;
  entropy_source w := let '(ms, m) := entropy_source w.2 in (ms, (w.1, m))
|}.

(** [fat32_mount]: the superblock that is added. *)
Definition fat32_superblock (target : path) : superblock :=
  {| fs_name := str "fat32"; dev_name := str "memfs"; mountpoint := target;
     sb_root := fill_inode (node_addr 0) (Z.lor VFS_INODE_DIR (oct 777)) 0 zero_inode;
     sb_ops := 0; sb_private := 0 |}.

Definition fat32_mount {D} (target : path) (s : vfs fatworld D) : vfs fatworld D * Z :=
  vfs_add_superblock (fat32_superblock target) (with_world s (fat32_init, (world s).2)).
End fat.

Arguments fatworld : clear implicits.

(** A machine without keyboard, console or frame buffer. *)
#[export] Instance quiet_machine : machine unit := {|
  keyboard_getchar w := (w, -1);
  keyboard_mouse_read _ w := (w, 0, []);
  keyboard_mouse_event_read _ w := (w, 0, []);
  console_putchar _ w := w;
  fb_bytes _ := None;
  fb_store _ _ w := w;
  fb_get_2m_phys_window _ := None;
  fb_addr _ := 0;
  entropy_source w := ([], w)
|}.
