(* ===== verification/VfsInv.v ===== *)
(** * Properties of the virtual file system

    The mount table picks the longest mount point, resolution is one lookup per
    component of the path, the permission bits are those of the owner, the group
    or the others, and the directories change only with write permission. The
    concrete inputs mount the in-memory file system of [FatVfs.v]. *)

From S2P Require Import Prelude CString Block Path Process Rng Uaccess Vfs MemFs FatVfs.

(** ** The mount table *)

Lemma find_mount_spec l p best best_len :
  (forall sb, best = Some sb -> best_len = zlength (mountpoint sb)) ->
  match find_mount_loop l p best best_len with
  | None => best = None /\ forall sb, sb ∈ l -> covers (mountpoint sb) p = true -> zlength (mountpoint sb) <= best_len
  | Some sb =>
      (best = Some sb /\
       forall sb', sb' ∈ l -> covers (mountpoint sb') p = true -> zlength (mountpoint sb') <= best_len) \/
      (exists l1 l2, l = l1 ++ sb :: l2 /\ covers (mountpoint sb) p = true /\
       best_len < zlength (mountpoint sb) /\
       (forall sb', sb' ∈ l1 -> covers (mountpoint sb') p = true ->
          zlength (mountpoint sb') < zlength (mountpoint sb)) /\
       (forall sb', sb' ∈ l2 -> covers (mountpoint sb') p = true ->
          zlength (mountpoint sb') <= zlength (mountpoint sb)))
  end.
Proof.
  revert best best_len. induction l as [|x l IH]; intros best bl Hb; cbn [find_mount_loop].
  { destruct best as [sb|]; [left|]; (split; [done|]); intros ? []%elem_of_nil. }
  destruct ((bl <? zlength (mountpoint x)) && covers (mountpoint x) p) eqn:T.
  - apply andb_true_iff in T as [T1%Z.ltb_lt T2].
    specialize (IH (Some x) (zlength (mountpoint x))). 
    destruct (find_mount_loop l p (Some x) (zlength (mountpoint x))) as [sb|].
    + destruct IH as [[E H]|(l1 & l2 & -> & H1 & H2 & H3 & H4)]; [by intros ? [= <-] | |]; right.
      * injection E as ->. exists [], l. split_all; try done. intros ? []%elem_of_nil.
      * exists (x :: l1), l2. split_all; try done; [lia|].
        intros sb' [->|Hin]%elem_of_cons Hc; [lia | by apply H3].
    + destruct IH as [? _]; [by intros ? [= <-] | done].
  - specialize (IH best bl Hb). destruct (find_mount_loop l p best bl) as [sb|].
    + assert (covers (mountpoint x) p = true -> zlength (mountpoint x) <= bl) as Hx.
      { intros Hc. rewrite Hc, andb_true_r in T. apply Z.ltb_ge in T. lia. }
      destruct IH as [[E H]|(l1 & l2 & -> & H1 & H2 & H3 & H4)]; [left | right].
      * split; [done|]. intros sb' [->|Hin]%elem_of_cons Hc; [auto | by apply H].
      * exists (x :: l1), l2. split_all; try done.
        intros sb' [->|Hin]%elem_of_cons Hc; [specialize (Hx Hc); lia | by apply H3].
    + destruct IH as [E H]. split; [done|]. intros sb' [->|Hin]%elem_of_cons Hc; [|by apply H].
      rewrite Hc, andb_true_r in T. apply Z.ltb_ge in T. lia.
Qed.

Section vfs.
Context {W D : Type} `{!filesystems W} `{!machine W} `{!driver D}.
Implicit Types (s : vfs W D).

(** [vfs_find_mount] returns the mount whose mount point is the longest of
    those that cover the path, the first one of that length, and none exactly
    when no mount point covers the path. *)
Theorem find_mount_longest s (p : path) :
  match vfs_find_mount s p with
  | Some sb =>
      exists l1 l2, g_mounts s = l1 ++ sb :: l2 /\ covers (mountpoint sb) p = true /\
        (forall sb', sb' ∈ l1 -> covers (mountpoint sb') p = true ->
           zlength (mountpoint sb') < zlength (mountpoint sb)) /\
        (forall sb', sb' ∈ l2 -> covers (mountpoint sb') p = true ->
           zlength (mountpoint sb') <= zlength (mountpoint sb))
  | None => forall sb, sb ∈ g_mounts s -> covers (mountpoint sb) p = false
  end.
Proof.
  pose proof (find_mount_spec (g_mounts s) p None (-1)) as H. unfold vfs_find_mount.
  destruct (find_mount_loop _ _ _ _) as [sb|].
  - destruct H as [[? _]|(l1 & l2 & E & H1 & _ & H2)]; [done | done |]. by exists l1, l2.
  - destruct H as [_ H]; [done|]. intros sb Hin. destruct (covers _ _) eqn:E; [|done].
    specialize (H sb Hin E). unfold zlength in H. lia.
Qed.

(** ** Resolution *)

(** One lookup per name, from the root of the mount. *)
Fixpoint lookup_all (sb : superblock) (cs : list path) (cur : vfs_inode) (w : W) : W * option vfs_inode :=
  match cs with
  | [] => (w, Some cur)
  | c :: cs =>
      match op_lookup sb cur c cur w with
      | (w, None) => (w, None)
      | (w, Some i) => lookup_all sb cs i w
      end
  end.

(** The names that resolution looks up: the components but ["."] and [".."], cut
    to the size of the buffer. *)
Definition lookup_name (c : path) : path := take (Z.to_nat (VFS_NAME_MAX - 1)) c.
Definition lookup_names (p : path) : list path :=
  filter (fun c => c <> dot /\ c <> dotdot) (lookup_name <$> components p).

Lemma upto_slash_first p : upto_slash p = [] -> p = [] \/ exists q, p = slash :: q.
Proof.
  destruct p as [|c p]; [by left|]. simpl. destruct (Z.eqb_spec c slash) as [->|]; [|done].
  intros _. right. by exists p.
Qed.

Lemma components_slash q : components (slash :: q) = components q.
Proof. rewrite <- (components_skip q). exact (eq_sym (components_skip (slash :: q))). Qed.

Lemma components_next p :
  upto_slash p <> [] -> components p = upto_slash p :: components (drop 1 (from_slash p)).
Proof.
  intros Hne. destruct p as [|c p]; [done|].
  assert (skip_slashes (c :: p) = c :: p) as Hs.
  { simpl in *. destruct (Z.eqb_spec c slash); [done | reflexivity]. }
  rewrite (components_step (c :: p) c p Hs). f_equal.
  destruct (from_slash_at (c :: p)) as [E|E]; [by rewrite E|].
  destruct (from_slash (c :: p)) as [|x r]; [done|]. injection E as ->. simpl drop. by rewrite components_slash.
Qed.

Lemma walk_lookup_all fuel sb p cur (w : W) :
  (length p <= fuel)%nat -> walk_path fuel sb p cur w = lookup_all sb (lookup_names p) cur w.
Proof.
  revert p cur w. induction fuel as [|f IH]; intros p cur w Hf; destruct p as [|c p]; simpl in Hf; try done; [lia|].
  cbn [walk_path]. unfold lookup_names.
  assert ((length (drop 1 (from_slash (c :: p))) <= f)%nat) as Hl.
  { pose proof (upto_from (c :: p)) as H. apply (f_equal length) in H. rewrite length_app in H.
    rewrite length_drop. cbn [length] in H.
    destruct (from_slash (c :: p)) eqn:Ef, (upto_slash (c :: p)) eqn:Eu; cbn [length] in *; lia. }
  destruct (decide (upto_slash (c :: p) = [])) as [E|E].
  - rewrite E, take_nil. cbn [bool_decide]. rewrite bool_decide_true by done. cbn [orb].
    rewrite IH by done. destruct (upto_slash_first _ E) as [?|[q Eq]]; [done|].
    injection Eq as -> ->. by rewrite components_slash.
  - rewrite components_next by done. cbn [fmap list_fmap]. fold (lookup_name (upto_slash (c :: p))).
    assert (lookup_name (upto_slash (c :: p)) <> []) as Hne.
    { unfold lookup_name. intros Ht. apply (f_equal length) in Ht. rewrite length_take in Ht.
      destruct (upto_slash (c :: p)); [done|]. simpl in Ht. unfold VFS_NAME_MAX in Ht. lia. }
    rewrite bool_decide_false by done. cbn [orb].
    destruct (decide (lookup_name (upto_slash (c :: p)) = dot)) as [Ed|Ed].
    { rewrite bool_decide_true by done. rewrite filter_cons_False by (intros [? _]; done). by rewrite IH. }
    rewrite bool_decide_false by done.
    destruct (decide (lookup_name (upto_slash (c :: p)) = dotdot)) as [Edd|Edd].
    { rewrite bool_decide_true by done. rewrite filter_cons_False by (intros [_ ?]; done). by rewrite IH. }
    rewrite bool_decide_false by done. rewrite filter_cons_True by done. cbn [lookup_all].
    destruct (op_lookup sb cur _ cur w) as [w' [i|]]; [by rewrite IH | done].
Qed.

Lemma components_app_slash a b : components (a ++ slash :: b) = components a ++ components b.
Proof.
  unfold components. generalize (@nil Z) at 1 2 as cur. induction a as [|c a IH]; intros cur; cbn [app comps_from].
  - change (slash =? slash) with true. cbv iota. reflexivity.
  - destruct (c =? slash); rewrite IH; [by rewrite app_assoc | done].
Qed.

(** The path below the mount point has the names that the mount point lacks. *)
Lemma components_below mp abs :
  covers mp abs = true -> head mp = Some slash -> components abs = components mp ++ components (below mp abs).
Proof.
  unfold covers, below. intros [Ht Hc]%andb_true_iff Hs. apply bool_decide_eq_true in Ht.
  rewrite <- (take_drop (length mp) abs) at 1. rewrite Ht.
  destruct (Nat.eqb_spec (length mp) 1) as [El|El].
  - destruct mp as [|c [|]]; simplify_eq/=. rewrite components_slash. reflexivity.
  - rewrite orb_false_r in Hc. destruct (abs !! length mp) as [c|] eqn:Ea.
    + apply Z.eqb_eq in Hc as ->. rewrite bool_decide_true by done.
      rewrite (drop_S abs slash (length mp)) by done. rewrite components_app_slash.
      by rewrite Nat.add_1_r.
    + rewrite bool_decide_false by done. rewrite Nat.add_0_r.
      apply lookup_ge_None in Ea. rewrite drop_ge by done. by rewrite !app_nil_r.
Qed.

(** C38: off the device paths, resolving a path is one lookup for each name of
    the normalised path that lies below the mount point, starting at the root of
    the mount; the result is the last inode with the superblock, and the first
    failing lookup fails it. *)
Theorem resolve_by_names s (p abs : path) (sb : superblock)
    (Habs : normalize_path (vfs_current_cwd_ptr s) (Some p) = Some abs)
    (Hdev : vfs_try_resolve_devpath s abs = None) (Hm : vfs_find_mount s abs = Some sb)
    (Hcov : covers (mountpoint sb) abs = true) (Hmp : head (mountpoint sb) = Some slash) :
  components abs = components (mountpoint sb) ++ components (below (mountpoint sb) abs) /\
  vfs_resolve (Some p) s =
    let '(w, r) := lookup_all sb (lookup_names (below (mountpoint sb) abs)) (sb_root sb) (world s) in
    Some (with_world s w, match r with Some i => Resolved i (Some sb) | None => Unresolved end).
Proof.
  split; [by apply components_below|]. unfold vfs_resolve.
  rewrite Habs, Hdev, Hm, walk_lookup_all by done.
  by destruct (lookup_all _ _ _ _) as [w [i|]].
Qed.

(** ** Permissions *)

(** The three bits that concern a task: those of the owner, of the group or of
    the others, the first that applies. *)
Definition class_bits (c : caller) (i : vfs_inode) : Z :=
  let k := if euid (c_cred c) =? i_uid i then 6 else if egid (c_cred c) =? i_gid i then 3 else 0 in
  Z.land (Z.shiftr (i_mode i) k) 7.

Lemma shiftr_mode mode k : 0 <= k <= 6 -> Z.land (Z.shiftr (Z.land mode (oct 7777)) k) 7 = Z.land (Z.shiftr mode k) 7.
Proof.
  intros Hk. change (oct 7777) with (Z.ones 12). change 7 with (Z.ones 3). apply Z.bits_inj'. intros n Hn.
  rewrite !Z.land_spec, !Z.shiftr_spec, Z.land_spec by lia.
  destruct (Z_lt_ge_dec n 3).
  - rewrite (Z.ones_spec_low 12) by lia. by rewrite andb_true_r.
  - rewrite (Z.ones_spec_high 3 n) by lia. by rewrite !andb_false_r.
Qed.

Lemma land_small a n : 0 <= n -> 0 <= Z.land a (Z.ones n) < 2 ^ n.
Proof. intros. rewrite Z.land_ones by lia. apply Z.mod_pos_bound. lia. Qed.

(** Granting three bits out of three, by cases. *)
Lemma grant_cases mask bits :
  0 <= mask < 8 -> 0 <= bits < 8 ->
  (if flag mask 4 && negb (flag bits 4) then - EACCES
   else if flag mask 2 && negb (flag bits 2) then - EACCES
   else if flag mask 1 && negb (flag bits 1) then - EACCES else 0)
  = if Z.land mask bits =? mask then 0 else - EACCES.
Proof.
  intros Hm Hb.
  assert (forallb (fun m => forallb (fun b =>
    (if flag m 4 && negb (flag b 4) then - EACCES
     else if flag m 2 && negb (flag b 2) then - EACCES
     else if flag m 1 && negb (flag b 1) then - EACCES else 0)
    =? (if Z.land m b =? m then 0 else - EACCES)) (seqZ 0 8)) (seqZ 0 8) = true) as H by reflexivity.
  assert (forall k, 0 <= k < 8 -> In k (seqZ 0 8)) as Hin by (intros; apply list_elem_of_In, elem_of_seqZ; lia).
  rewrite forallb_forall in H. specialize (H mask (Hin _ Hm)). rewrite forallb_forall in H.
  apply Z.eqb_eq, H, Hin, Hb.
Qed.

(** For a task that is not the superuser, [vfs_permission_check] grants a
    request exactly when the owner, group or other bits that concern the task
    contain every requested bit; the superuser is refused only the execution of
    a file nobody may execute, and the kernel itself nothing; a refusal is
    [EACCES]. *)
Theorem permission_check_exact (i : vfs_inode) (mask : Z) (c : caller) (Hm : 0 <= mask < 8) :
  vfs_permission_check i mask None = 0 /\
  vfs_permission_check i mask (Some c) =
    (if euid (c_cred c) =? 0
     then if flag mask 1 && (Z.land (i_mode i) (oct 111) =? 0) then - EACCES else 0
     else if Z.land mask (class_bits c i) =? mask then 0 else - EACCES).
Proof.
  split; [done|]. cbn [vfs_permission_check].
  destruct (Z.eqb_spec (euid (c_cred c)) 0).
  - unfold flag at 2. rewrite negb_involutive.
    rewrite <- Z.land_assoc. change (Z.land (oct 7777) (oct 111)) with (oct 111). reflexivity.
  - rewrite grant_cases; [|done|].
    + unfold class_bits. destruct (euid _ =? i_uid i); [by rewrite shiftr_mode by lia|].
      destruct (egid _ =? i_gid i); [by rewrite shiftr_mode by lia|].
      rewrite <- (shiftr_mode _ 0) by lia. by rewrite Z.shiftr_0_r.
    + repeat case_match; apply (land_small _ 3); lia.
Qed.

(** The bits of the mode that let a task change the entries of a directory: write and
    search of the class of the task, for the superuser the search bit of any class. *)
Definition may_change (c : caller) (i : vfs_inode) : bool :=
  if euid (c_cred c) =? 0 then Z.testbit (i_mode i) 0 || Z.testbit (i_mode i) 3 || Z.testbit (i_mode i) 6
  else
    let k := if euid (c_cred c) =? i_uid i then 6 else if egid (c_cred c) =? i_gid i then 3 else 0 in
    Z.testbit (i_mode i) (k + 1) && Z.testbit (i_mode i) k.

Lemma land_bits a m : Z.land a m = 0 <-> forall n, 0 <= n -> Z.testbit m n = true -> Z.testbit a n = false.
Proof.
  split.
  - intros H n Hn Hm. pose proof (f_equal (fun x => Z.testbit x n) H) as Hb. cbv beta in Hb. rewrite Z.land_spec, Hm, Z.bits_0, andb_true_r in Hb. done.
  - intros H. apply Z.bits_inj'. intros n Hn. rewrite Z.land_spec, Z.bits_0. destruct (Z.testbit m n) eqn:E; [rewrite (H n) by done; done | apply andb_false_r].
Qed.

Lemma search_bits m : Z.land m (oct 111) = 0 <-> Z.testbit m 0 || Z.testbit m 3 || Z.testbit m 6 = false.
Proof.
  rewrite land_bits, !orb_false_iff. split; [intros H; repeat split; apply H; (reflexivity || lia)|].
  intros [[H0 H3] H6] n Hn Hb. change (oct 111) with 73 in Hb.
  assert (n < 7) by (destruct (Z_lt_ge_dec n 7); [done|]; rewrite Z.bits_above_log2 in Hb; [done | done | change (Z.log2 73) with 6; lia]).
  assert (n = 0 \/ n = 1 \/ n = 2 \/ n = 3 \/ n = 4 \/ n = 5 \/ n = 6) as Hc by lia.
  by destruct Hc as [->|[->|[->|[->|[->|[->| ->]]]]]].
Qed.

Lemma class_bits_both (i : vfs_inode) k : 0 <= k -> Z.land 3 (Z.land (Z.shiftr (i_mode i) k) 7) = 3 -> Z.testbit (i_mode i) (k + 1) && Z.testbit (i_mode i) k = true.
Proof.
  intros Hk H. pose proof (f_equal (fun x => Z.testbit x 0) H) as H0. pose proof (f_equal (fun x => Z.testbit x 1) H) as H1. cbv beta in H0, H1.
  rewrite !Z.land_spec, Z.shiftr_spec in H0, H1 by lia. change (Z.testbit 3 0) with true in *. change (Z.testbit 3 1) with true in *.
  change (Z.testbit 7 0) with true in *. change (Z.testbit 7 1) with true in *. rewrite !andb_true_r in *. cbn [andb] in *.
  by rewrite (Z.add_comm k 1), H1, <- (Z.add_0_l k), H0.
Qed.

Lemma denied_by_mode c i : may_change c i = false -> vfs_permission_check i 3 (Some c) < 0.
Proof.
  intros H. destruct (permission_check_exact i 3 c ltac:(lia)) as [_ ->]. unfold may_change in H. unfold class_bits.
  destruct (euid (c_cred c) =? 0).
  - apply search_bits in H. rewrite H. done.
  - destruct (Z.eqb_spec (Z.land 3 (Z.land (Z.shiftr (i_mode i) (if euid (c_cred c) =? i_uid i then 6 else if egid (c_cred c) =? i_gid i then 3 else 0)) 7)) 3) as [E|];
      [|done].
    apply class_bits_both in E; [congruence|]. by repeat destruct (_ =? _).
Qed.

(** C39: unless the mode of the parent directory gives the caller both write and
    search permission, by the bits of the owner, of the group or of the others, whichever
    concern the caller, nothing is created in it and nothing is removed from it: after
    resolving the parent, [vfs_mkdir] and [vfs_unlink] fail and change nothing, and so
    does [vfs_write_file] on a path that does not exist. The superuser is refused only
    a directory that nobody may search. *)
Theorem directory_change_needs_permission s (stack : vfs_inode) (p abs parent_path leaf buf : path)
    s1 (par : vfs_inode) (sb : superblock) (c : caller)
    (Habs : normalize_path (vfs_current_cwd_ptr s) (Some p) = Some abs)
    (Hsplit : path_split_last abs = Some (parent_path, leaf))
    (Hpar : vfs_resolve (Some parent_path) s = Some (s1, Resolved par (Some sb)))
    (Hcur : current s1 = Some c) (Hdeny : may_change c par = false) :
  vfs_mkdir p s = Some (s1, -1) /\ vfs_unlink stack p s = Some (s1, -1) /\
  (vfs_resolve (Some abs) s = Some (s, Unresolved) -> vfs_write_file p buf s = Some (s1, -1)).
Proof.
  apply denied_by_mode in Hdeny. rewrite <- Hcur in Hdeny. apply Z.ltb_lt in Hdeny. unfold vfs_mkdir, vfs_unlink, vfs_write_file, write_new_file.
  rewrite Habs, Hsplit, Hpar, Hdeny. split_all.
  - by destruct (negb _).
  - by destruct (negb _).
  - intros ->. rewrite Hpar, Hdeny. by destruct (negb _).
Qed.

(** ** The list of mounts *)

(** The whole text: a line per mount. *)
Definition mount_line (sb : superblock) : path :=
  or_default (dev_name sb) (str "none") ++ str " " ++ or_default (mountpoint sb) [slash] ++ str " " ++
  or_default (fs_name sb) (str "unknown") ++ str " rw 0 0" ++ [10].
Definition mounts_text (l : list superblock) : path := concat (mount_line <$> l).

Lemma append_str_take max out p q :
  0 < max -> out = take (Z.to_nat (max - 1)) q ->
  append_str max out p = take (Z.to_nat (max - 1)) (q ++ p).
Proof.
  intros Hm ->. unfold append_str, zlength. rewrite take_app. f_equal. f_equal.
  rewrite length_take. lia.
Qed.

Lemma snapshot_prefix l max out q :
  0 < max -> out = take (Z.to_nat (max - 1)) q ->
  snapshot_loop l max out = take (Z.to_nat (max - 1)) (q ++ mounts_text l).
Proof.
  intros Hm. revert out q. induction l as [|sb l IH]; intros out q Ho; cbn [snapshot_loop].
  { by rewrite app_nil_r. }
  rewrite (append_str_take max out _ q Hm Ho). rewrite !(append_str_take max _ _ _ Hm eq_refl).
  set (q' := (((((q ++ _) ++ _) ++ _) ++ _) ++ _) ++ _).
  assert (q ++ mounts_text (sb :: l) = q' ++ mounts_text l) as ->.
  { subst q'. unfold mounts_text, mount_line. cbn [fmap list_fmap concat]. by rewrite <- !app_assoc. }
  destruct (Z.leb_spec max (zlength (take (Z.to_nat (max - 1)) q') + 1)) as [Hle|Hlt]; [|by apply IH].
  unfold zlength in Hle. rewrite length_take in Hle. rewrite take_app_le by lia. done.
Qed.

(** [vfs_mounts_snapshot] never overruns its buffer: with room for
    [max] bytes it gives the first [max - 1] bytes of the text that has one line
    per mount, which leaves room for the terminator, and [-1] with no room. *)
Theorem snapshot_bounded s (max : Z) (Hmax : 0 <= max) :
  (max = 0 -> vfs_mounts_snapshot max s = None) /\
  (0 < max -> vfs_mounts_snapshot max s = Some (take (Z.to_nat (max - 1)) (mounts_text (g_mounts s)))).
Proof.
  unfold vfs_mounts_snapshot. split; intros H; [by rewrite H|].
  destruct (Z.eqb_spec max 0); [lia|]. f_equal. rewrite (snapshot_prefix _ _ _ []); [done | done |].
  by rewrite take_nil.
Qed.
End vfs.

(** ** The null superblock of a device directory *)

Lemma pts_resolves {W D : Type} `{!filesystems W} `{!machine W} (s : vfs W D) (d : path) :
  d = str "/dev/pts" \/ d = str "/dev/input" -> exists i, vfs_resolve (Some d) s = Some (s, Resolved i None).
Proof. intros [-> | ->]; eexists; reflexivity. Qed.

(** C40: the directories [/dev/pts] and [/dev/input] resolve with a null
    superblock, which [vfs_mkdir], [vfs_unlink] and [vfs_write_file] follow: for
    every path whose parent is one of them, and every caller, making a directory,
    removing an entry and creating a file fault. *)
Theorem mkdir_below_pts_faults {W D : Type} `{!filesystems W} `{!machine W} `{!driver D} (s : vfs W D)
    (stack : vfs_inode) (p abs parent_path leaf buf : path)
    (Habs : normalize_path (vfs_current_cwd_ptr s) (Some p) = Some abs)
    (Hsplit : path_split_last abs = Some (parent_path, leaf))
    (Hdev : parent_path = str "/dev/pts" \/ parent_path = str "/dev/input") :
  vfs_mkdir p s = None /\ vfs_unlink stack p s = None /\
  (vfs_resolve (Some abs) s = Some (s, Unresolved) -> vfs_write_file p buf s = None).
Proof.
  destruct (pts_resolves s parent_path Hdev) as [i Hr].
  unfold vfs_mkdir, vfs_unlink, vfs_write_file, write_new_file. rewrite Habs, Hsplit, Hr.
  split_all; [reflexivity | reflexivity | intros ->]. by rewrite Hr.
Qed.

(** Resolution does not read the root directory of the task: [vfs_chroot]
    confines nobody. *)
Theorem chroot_does_not_confine {W D : Type} `{!filesystems W} `{!machine W} (s : vfs W D)
    (c : caller) (r : path) (p : option path) :
  vfs_resolve p (with_current s (Some (set_root r c))) =
  match vfs_resolve p (with_current s (Some c)) with
  | Some (s', x) => Some (with_current s' (Some (set_root r c)), x)
  | None => None
  end.
Proof.
  unfold vfs_resolve. change (vfs_current_cwd_ptr (with_current s (Some (set_root r c))))
    with (vfs_current_cwd_ptr (with_current s (Some c))).
  destruct (normalize_path _ p) as [abs|]; [|done].
  change (vfs_try_resolve_devpath (with_current s (Some (set_root r c))) abs)
    with (vfs_try_resolve_devpath (with_current s (Some c)) abs).
  destruct (vfs_try_resolve_devpath _ abs); [done|].
  change (vfs_find_mount (with_current s (Some (set_root r c))) abs)
    with (vfs_find_mount (with_current s (Some c)) abs).
  destruct (vfs_find_mount _ abs) as [sb|]; [|done]. cbn [with_current world].
  by destruct (walk_path _ _ _ _ _) as [w [i|]].
Qed.

(** ** Concrete inputs *)

#[local] Instance no_disk : driver unit := {|
  drv_read d _ _ := (d, None); drv_write d _ _ _ := (d, false)
|}.

Definition task_of (u : Z) : caller :=
  {| c_cred := {| uid := u; gid := u; euid := u; egid := u; umask := 18 |};
     c_dirs := {| cwd := [slash]; root := [slash] |} |}.

(** The in-memory file system mounted on the root, and a second mount. *)
Definition demo_vfs (c : caller) : vfs (fatworld unit) unit :=
  {| g_mounts := [fat32_superblock [slash]; fat32_superblock (str "/mnt")]; g_fsreg := [str "fat32"];
     g_cwd := [slash]; g_devnodes := chr_nodes; g_rng := rng_init; g_block := block_init;
     g_disk := (); world := (fat32_init, ()); current := Some c |}.

Lemma resolve_by_names_witness :
  components (str "/mnt/etc") = components (str "/mnt") ++ components (str "etc") /\
  match vfs_resolve (Some (str "/mnt//./etc/")) (demo_vfs (task_of 0)) with
  | Some (_, Resolved i (Some sb)) => i_ino i = 5 /\ mountpoint sb = str "/mnt"
  | _ => False
  end.
Proof.
  destruct (resolve_by_names (demo_vfs (task_of 0)) (str "/mnt//./etc/") (str "/mnt/etc")
              (fat32_superblock (str "/mnt"))) as [H1 H2]; [vm_compute; reflexivity..|].
  split; [exact H1|]. rewrite H2. vm_compute. split; reflexivity.
Defined.

Lemma permission_check_exact_witness :
  vfs_permission_check {| i_ino := 1; i_mode := 0x81A4; i_uid := 5; i_gid := 7; i_size := 0; i_private := [] |}
    2 (Some (task_of 7)) = - EACCES.
Proof.
  destruct (permission_check_exact {| i_ino := 1; i_mode := 0x81A4; i_uid := 5; i_gid := 7; i_size := 0;
              i_private := [] |} 2 (task_of 7)) as [_ H]; [lia|].
  rewrite H. reflexivity.
Defined.

(** A mount whose root only the superuser may change. *)
Definition locked_root (c : caller) : vfs (fatworld unit) unit :=
  with_mounts (demo_vfs c)
    [{| fs_name := str "fat32"; dev_name := str "memfs"; mountpoint := [slash];
        sb_root := fill_inode 1 (Z.lor VFS_INODE_DIR (oct 755)) 0 zero_inode; sb_ops := 0; sb_private := 0 |}].

Lemma directory_change_needs_permission_witness :
  let s := locked_root (task_of 1000) in
  vfs_mkdir (str "/new") s = Some (s, -1) /\ vfs_unlink zero_inode (str "/new") s = Some (s, -1) /\
  vfs_write_file (str "/new") (str "text") s = Some (s, -1).
Proof.
  intros s.
  destruct (directory_change_needs_permission s zero_inode (str "/new") (str "/new") [slash] (str "new")
    (str "text") s (fill_inode 1 (Z.lor VFS_INODE_DIR (oct 755)) 0 zero_inode)
    {| fs_name := str "fat32"; dev_name := str "memfs"; mountpoint := [slash];
       sb_root := fill_inode 1 (Z.lor VFS_INODE_DIR (oct 755)) 0 zero_inode; sb_ops := 0; sb_private := 0 |} (task_of 1000))
    as (H1 & H2 & H3); [vm_compute; reflexivity..|].
  split_all; [exact H1 | exact H2 | apply H3; vm_compute; reflexivity].
Defined.

Lemma snapshot_bounded_witness :
  vfs_mounts_snapshot 17 (demo_vfs (task_of 0)) = Some (str "memfs / fat32 rw") /\
  vfs_mounts_snapshot 0 (demo_vfs (task_of 0)) = None.
Proof.
  destruct (snapshot_bounded (demo_vfs (task_of 0)) 17) as [_ H]; [lia|].
  destruct (snapshot_bounded (demo_vfs (task_of 0)) 0) as [H0 _]; [lia|].
  split; [rewrite H by lia; reflexivity | exact (H0 eq_refl)].
Defined.

Lemma mkdir_below_pts_faults_witness :
  vfs_mkdir (str "/dev/pts/x") (demo_vfs (task_of 1000)) = None /\
  vfs_unlink zero_inode (str "/dev/pts/x") (demo_vfs (task_of 1000)) = None /\
  vfs_write_file (str "/dev/pts/x") (str "text") (demo_vfs (task_of 1000)) = None.
Proof.
  destruct (mkdir_below_pts_faults (demo_vfs (task_of 1000)) zero_inode (str "/dev/pts/x") (str "/dev/pts/x")
    (str "/dev/pts") (str "x") (str "text")) as (H1 & H2 & H3); [vm_compute; reflexivity.. | by left |].
  split_all; [exact H1 | exact H2 | apply H3; vm_compute; reflexivity].
Defined.

(** Any user makes the kernel fault by creating a file below [/dev/pts]. *)
Example touch_below_pts_faults :
  vfs_touch (str "/dev/pts/x") (demo_vfs (task_of 1000)) = None.
Proof. reflexivity. Qed.

(** A file of the in-memory file system is read from its start at any offset: a
    reader that advances by what it got never sees the end. *)
Example fat_read_never_ends :
  let g := fst (fat32_write_text fat32_init (str "/etc/motd") None (str "hello")) in
  let i := fill_inode 9 0x81FF 5 zero_inode in
  f_read g i 0 4096 = (5, str "hello") /\ f_read g i 5 4096 = (5, str "hello").
Proof. split; reflexivity. Qed.
