(* ===== verification/Ring.v ===== *)
(** * Rings of bytes

    The buffers of pipes and of pseudo-terminals: a read position, a write
    position, a length and an array. A ring that is well formed is a queue, and
    the operations of [syscall.c] on positions and lengths are those of the
    queue. *)

From S2P Require Import Prelude.

(** The read and write positions, the length and the array. *)
Record ring := { rpos : Z; wpos : Z; cnt : Z; rbuf : Z -> Z }.

Definition zero_ring : ring := {| rpos := 0; wpos := 0; cnt := 0; rbuf := fun _ => 0 |}.

Section ring.
Context (size : Z).
Implicit Types (r : ring) (c : Z).

(** [buf[wpos] = c; wpos = (wpos + 1) % size; count++;] *)
Definition push (c : Z) (r : ring) : ring :=
  {| rpos := rpos r; wpos := u32 (wpos r + 1) mod size; cnt := u32 (cnt r + 1);
     rbuf := <[wpos r := c]> (rbuf r) |}.

(** [c = buf[rpos]; rpos = (rpos + 1) % size; count--;] *)
Definition pop (r : ring) : Z * ring :=
  (rbuf r (rpos r),
   {| rpos := u32 (rpos r + 1) mod size; wpos := wpos r; cnt := u32 (cnt r - 1); rbuf := rbuf r |}).

(** [prev = (wpos + size - 1) % size], the byte written last. *)
Definition prev (r : ring) : Z := u32 (wpos r + size - 1) mod size.

(** [wpos = prev; count--;] *)
Definition unpush (r : ring) : ring :=
  {| rpos := rpos r; wpos := prev r; cnt := u32 (cnt r - 1); rbuf := rbuf r |}.

(** ** Rings as queues *)

Definition ring_ok r : Prop :=
  0 <= rpos r < size /\ 0 <= cnt r <= size /\ wpos r = (rpos r + cnt r) mod size.

(** The bytes of the ring, oldest first. *)
Definition content r : list Z := map (fun i => rbuf r ((rpos r + i) mod size)) (seqZ 0 (cnt r)).

Context (Hsize : 0 < size < 2 ^ 31).

Lemma zero_ring_ok : ring_ok zero_ring.
Proof. split; [simpl; lia|]. split; [simpl; lia|]. cbn. by rewrite Z.mod_small by lia. Qed.

Lemma zero_content : content zero_ring = [].
Proof. reflexivity. Qed.

Lemma length_content r : 0 <= cnt r -> Z.of_nat (length (content r)) = cnt r.
Proof. intros H. unfold content. rewrite length_map, length_seqZ. lia. Qed.

(** Two indices of a window of at most [size] bytes are different cells. *)
Lemma window_inj p i j : 0 <= i < size -> 0 <= j < size -> (p + i) mod size = (p + j) mod size -> i = j.
Proof.
  intros Hi Hj E. pose proof (Z.div_mod (p + i) size ltac:(lia)). pose proof (Z.div_mod (p + j) size ltac:(lia)).
  assert (i - j = size * ((p + i) / size - (p + j) / size)) as D by lia.
  destruct (decide ((p + i) / size - (p + j) / size = 0)) as [Hz|Hz]; [rewrite Hz in D; lia|]. nia.
Qed.

Lemma push_ok c r : ring_ok r -> cnt r < size -> ring_ok (push c r) /\ content (push c r) = content r ++ [c].
Proof.
  intros (Hr & Hc & Hw) Hlt. assert (0 <= wpos r < size) as Hwr by (rewrite Hw; apply Z.mod_pos_bound; lia).
  split.
  - unfold push. split; [exact Hr|]. cbn [cnt wpos rpos]. rewrite !u32_small by lia. split; [lia|].
    rewrite Hw, Zplus_mod_idemp_l. f_equal. lia.
  - unfold content, push. cbn [cnt rpos rbuf]. rewrite u32_small by lia.
    rewrite seqZ_app, map_app by lia. cbn [map]. rewrite Z.add_0_l. f_equal.
    + apply map_ext_in. intros i Hi. apply list_elem_of_In, elem_of_seqZ in Hi. apply upd_ne. rewrite Hw.
      intros E. apply window_inj in E; lia.
    + change (seqZ (cnt r) 1) with [cnt r]. cbn [map]. by rewrite Hw, upd_eq.
Qed.

Lemma pop_ok c r r' : ring_ok r -> 0 < cnt r -> pop r = (c, r') -> ring_ok r' /\ content r = c :: content r' /\ cnt r' = cnt r - 1.
Proof.
  intros (Hr & Hc & Hw) Hlt [= <- <-]. split; [|split].
  - split; [cbn [rpos]; apply Z.mod_pos_bound; lia|]. cbn [cnt wpos rpos]. rewrite !u32_small by lia. split; [lia|].
    rewrite Hw, Zplus_mod_idemp_l. f_equal. lia.
  - unfold content. cbn [cnt rpos rbuf]. rewrite !u32_small by lia. rewrite seqZ_cons by lia. cbn [map]. f_equal.
    + rewrite Z.add_0_r, Z.mod_small by lia. done.
    + replace (seqZ (Z.succ 0) (Z.pred (cnt r))) with (map (Z.add 1) (seqZ 0 (cnt r - 1)))
        by (rewrite Z.sub_1_r; exact (fmap_add_seqZ 1 0 (Z.pred (cnt r)))).
      rewrite map_map. apply map_ext. intros i. rewrite Zplus_mod_idemp_l. do 2 f_equal. lia.
  - cbn [cnt]. by rewrite u32_small by lia.
Qed.

(** The byte written last is the last of the queue, and taking it back removes it. *)
Lemma unpush_ok r :
  ring_ok r -> 0 < cnt r -> ring_ok (unpush r) /\ content r = content (unpush r) ++ [rbuf r (prev r)].
Proof.
  intros (Hr & Hc & Hw) Hlt. assert (0 <= wpos r < size) as Hwr by (rewrite Hw; apply Z.mod_pos_bound; lia).
  assert (prev r = (rpos r + (cnt r - 1)) mod size) as Hp.
  { unfold prev. rewrite u32_small by lia. rewrite Hw. rewrite <- Z.add_sub_assoc, Zplus_mod_idemp_l.
    replace (rpos r + cnt r + (size - 1)) with (rpos r + (cnt r - 1) + 1 * size) by lia. by rewrite Z.mod_add by lia. }
  split.
  - split; [exact Hr|]. cbn [unpush cnt wpos rpos]. rewrite u32_small by lia. split; [lia | exact Hp].
  - unfold content, unpush. cbn [cnt rpos rbuf]. rewrite u32_small by lia. rewrite Hp.
    replace (cnt r) with (cnt r - 1 + 1) at 1 by lia. rewrite seqZ_app, map_app by lia. by rewrite Z.add_0_l.
Qed.
End ring.

#[export] Hint Resolve zero_ring_ok : core.
