(* ===== verification/Keyboard.v ===== *)
(** * The keyboard and the mouse it emulates ([src/src/keyboard.c])

    The interrupt handler of the keyboard: the decoding of scan codes into
    characters, the three circular buffers for characters, mouse packets and mouse
    events, and the calls that take bytes out of them. A call that halts until an
    interrupt is a turn: [None] is a halt, after which it is called again. The byte of
    the port, the clock and the counter of the processor are arguments; the clock does
    not move while the events of one packet are made. *)

From S2P Require Import Prelude Uaccess.

Definition KBD_BUF_SIZE : Z := 256.
Definition MOUSE_BUF_SIZE : Z := 1024.
Definition MOUSE_EVENT_BUF_SIZE : Z := 8192.

Definition LINUX_EV_SYN : Z := 0x00.
Definition LINUX_EV_KEY : Z := 0x01.
Definition LINUX_EV_REL : Z := 0x02.
Definition LINUX_SYN_REPORT : Z := 0.
Definition LINUX_REL_X : Z := 0.
Definition LINUX_REL_Y : Z := 1.
Definition LINUX_REL_WHEEL : Z := 8.
Definition LINUX_BTN_LEFT : Z := 0x110.
Definition LINUX_BTN_RIGHT : Z := 0x111.
Definition LINUX_BTN_MIDDLE : Z := 0x112.

Definition SCAN_CODE_KEY_LEFT_CTRL : Z := 0x1D.
Definition SCAN_CODE_KEY_RIGHT_CTRL : Z := 0x1D.
Definition SCAN_CODE_KEY_LEFT_SHIFT : Z := 0x2A.
Definition SCAN_CODE_KEY_RIGHT_SHIFT : Z := 0x36.
Definition SCAN_CODE_KEY_CAPS_LOCK : Z := 0x3A.
Definition SCAN_CODE_KEY_Z : Z := 0x2C.
Definition SCAN_CODE_KEY_X : Z := 0x2D.
Definition SCAN_CODE_KEY_C : Z := 0x2E.
Definition SCAN_CODE_KEY_UP : Z := 0x48.
Definition SCAN_CODE_KEY_LEFT : Z := 0x4B.
Definition SCAN_CODE_KEY_RIGHT : Z := 0x4D.
Definition SCAN_CODE_KEY_DOWN : Z := 0x50.

(** ** Circular buffers

    A buffer is empty when its head is its tail: one place is never used. *)

Record cbuf := { cb_buf : Z -> Z; cb_head : Z; cb_tail : Z }.

Definition empty_cbuf : cbuf := {| cb_buf := fun _ => 0; cb_head := 0; cb_tail := 0 |}.

(** [head = 0; tail = 0;] *)
Definition reset_cbuf (r : cbuf) : cbuf := {| cb_buf := cb_buf r; cb_head := 0; cb_tail := 0 |}.

Definition cb_push (size b : Z) (r : cbuf) : cbuf :=
  let next := (cb_head r + 1) mod size in
  if next =? cb_tail r then r
  else {| cb_buf := <[cb_head r := b]> (cb_buf r); cb_head := next; cb_tail := cb_tail r |}.

Definition cb_pop (size : Z) (r : cbuf) : option (Z * cbuf) :=
  if cb_head r =? cb_tail r then None
  else Some (cb_buf r (cb_tail r), {| cb_buf := cb_buf r; cb_head := cb_head r; cb_tail := (cb_tail r + 1) mod size |}).

Definition cb_pending (size : Z) (r : cbuf) : Z :=
  let n := cb_head r - cb_tail r in if n <? 0 then n + size else n.

Definition cb_push_all (size : Z) (l : list Z) (r : cbuf) : cbuf := fold_left (fun r b => cb_push size b r) l r.

(** The loop of the reads: what is taken out, at most [n] bytes. *)
Fixpoint cb_take (size : Z) (n : nat) (r : cbuf) : cbuf * list Z :=
  match n with
  | O => (r, [])
  | S n =>
      match cb_pop size r with
      | None => (r, [])
      | Some (b, r) => let '(r, l) := cb_take size n r in (r, b :: l)
      end
  end.

(** ** The state of the module *)

Record keyboard := {
  g_caps_lock : bool; g_shift_pressed : bool; g_ctrl_pressed : bool; g_extended : bool;
  g_ch : Z; g_scan_code : Z; g_skip_irq_scancode : Z;
  g_keyboard_irq_count : Z; g_keyboard_last_tsc : Z; g_sigint_pending : Z;
  kbd_buf : cbuf; mouse_buf : cbuf; mouse_event_buf : cbuf;
  g_mouse_buttons : Z; g_mouse_wheel_mode : bool; g_mouse_ext_prefix : bool
}.

Definition with_keys (caps shift ctrl ext : bool) (k : keyboard) : keyboard :=
  {| g_caps_lock := caps; g_shift_pressed := shift; g_ctrl_pressed := ctrl; g_extended := ext;
     g_ch := g_ch k; g_scan_code := g_scan_code k; g_skip_irq_scancode := g_skip_irq_scancode k;
     g_keyboard_irq_count := g_keyboard_irq_count k; g_keyboard_last_tsc := g_keyboard_last_tsc k;
     g_sigint_pending := g_sigint_pending k; kbd_buf := kbd_buf k; mouse_buf := mouse_buf k;
     mouse_event_buf := mouse_event_buf k; g_mouse_buttons := g_mouse_buttons k;
     g_mouse_wheel_mode := g_mouse_wheel_mode k; g_mouse_ext_prefix := g_mouse_ext_prefix k |}.
Definition with_last (ch scan skip : Z) (k : keyboard) : keyboard :=
  {| g_caps_lock := g_caps_lock k; g_shift_pressed := g_shift_pressed k; g_ctrl_pressed := g_ctrl_pressed k;
     g_extended := g_extended k; g_ch := ch; g_scan_code := scan; g_skip_irq_scancode := skip;
     g_keyboard_irq_count := g_keyboard_irq_count k; g_keyboard_last_tsc := g_keyboard_last_tsc k;
     g_sigint_pending := g_sigint_pending k; kbd_buf := kbd_buf k; mouse_buf := mouse_buf k;
     mouse_event_buf := mouse_event_buf k; g_mouse_buttons := g_mouse_buttons k;
     g_mouse_wheel_mode := g_mouse_wheel_mode k; g_mouse_ext_prefix := g_mouse_ext_prefix k |}.
Definition with_counts (irq tsc sigint : Z) (k : keyboard) : keyboard :=
  {| g_caps_lock := g_caps_lock k; g_shift_pressed := g_shift_pressed k; g_ctrl_pressed := g_ctrl_pressed k;
     g_extended := g_extended k; g_ch := g_ch k; g_scan_code := g_scan_code k;
     g_skip_irq_scancode := g_skip_irq_scancode k;
     g_keyboard_irq_count := irq; g_keyboard_last_tsc := tsc; g_sigint_pending := sigint;
     kbd_buf := kbd_buf k; mouse_buf := mouse_buf k;
     mouse_event_buf := mouse_event_buf k; g_mouse_buttons := g_mouse_buttons k;
     g_mouse_wheel_mode := g_mouse_wheel_mode k; g_mouse_ext_prefix := g_mouse_ext_prefix k |}.
Definition with_bufs (kb mb eb : cbuf) (k : keyboard) : keyboard :=
  {| g_caps_lock := g_caps_lock k; g_shift_pressed := g_shift_pressed k; g_ctrl_pressed := g_ctrl_pressed k;
     g_extended := g_extended k; g_ch := g_ch k; g_scan_code := g_scan_code k;
     g_skip_irq_scancode := g_skip_irq_scancode k;
     g_keyboard_irq_count := g_keyboard_irq_count k; g_keyboard_last_tsc := g_keyboard_last_tsc k;
     g_sigint_pending := g_sigint_pending k; kbd_buf := kb; mouse_buf := mb;
     mouse_event_buf := eb; g_mouse_buttons := g_mouse_buttons k;
     g_mouse_wheel_mode := g_mouse_wheel_mode k; g_mouse_ext_prefix := g_mouse_ext_prefix k |}.
Definition with_mouse (buttons : Z) (wheel ext : bool) (k : keyboard) : keyboard :=
  {| g_caps_lock := g_caps_lock k; g_shift_pressed := g_shift_pressed k; g_ctrl_pressed := g_ctrl_pressed k;
     g_extended := g_extended k; g_ch := g_ch k; g_scan_code := g_scan_code k;
     g_skip_irq_scancode := g_skip_irq_scancode k;
     g_keyboard_irq_count := g_keyboard_irq_count k; g_keyboard_last_tsc := g_keyboard_last_tsc k;
     g_sigint_pending := g_sigint_pending k; kbd_buf := kbd_buf k; mouse_buf := mouse_buf k;
     mouse_event_buf := mouse_event_buf k; g_mouse_buttons := buttons;
     g_mouse_wheel_mode := wheel; g_mouse_ext_prefix := ext |}.

Definition kbd_buf_push_char (ch : Z) (k : keyboard) : keyboard :=
  with_bufs (cb_push KBD_BUF_SIZE (u8 ch) (kbd_buf k)) (mouse_buf k) (mouse_event_buf k) k.
Definition mouse_buf_push_byte (b : Z) (k : keyboard) : keyboard :=
  with_bufs (kbd_buf k) (cb_push MOUSE_BUF_SIZE (u8 b) (mouse_buf k)) (mouse_event_buf k) k.
Definition mouse_event_buf_push_byte (b : Z) (k : keyboard) : keyboard :=
  with_bufs (kbd_buf k) (mouse_buf k) (cb_push MOUSE_EVENT_BUF_SIZE (u8 b) (mouse_event_buf k)) k.

(** ** The mouse *)

(** [edge_linux_input_event_t] *)
Definition event_bytes (us type code value : Z) : list Z :=
  le_bytes 8 (us / 1000000) ++ le_bytes 8 (us mod 1000000) ++ le_bytes 2 type ++ le_bytes 2 code ++ le_bytes 4 value.

Definition mouse_event_push (us type code value : Z) (k : keyboard) : keyboard :=
  fold_left (fun k b => mouse_event_buf_push_byte b k) (event_bytes us type code value) k.

Definition button_event (us bit code old new : Z) (k : keyboard) : keyboard :=
  if Z.land old bit =? Z.land new bit then k
  else mouse_event_push us LINUX_EV_KEY code (if flag new bit then 1 else 0) k.

Definition mouse_emit_linux_events (us dx dy wheel old_buttons new_buttons : Z) (wheel_present : bool) (k : keyboard) :
    keyboard :=
  let k := if negb (dx =? 0) then mouse_event_push us LINUX_EV_REL LINUX_REL_X dx k else k in
  let k := if negb (dy =? 0) then mouse_event_push us LINUX_EV_REL LINUX_REL_Y dy k else k in
  let k := if wheel_present && negb (wheel =? 0) then mouse_event_push us LINUX_EV_REL LINUX_REL_WHEEL wheel k else k in
  let k := button_event us 0x01 LINUX_BTN_LEFT old_buttons new_buttons k in
  let k := button_event us 0x02 LINUX_BTN_RIGHT old_buttons new_buttons k in
  let k := button_event us 0x04 LINUX_BTN_MIDDLE old_buttons new_buttons k in
  if negb (dx =? 0) || negb (dy =? 0) || (wheel_present && negb (wheel =? 0)) || negb (old_buttons =? new_buttons)
  then mouse_event_push us LINUX_EV_SYN LINUX_SYN_REPORT 0 k
  else k.

Definition clamp127 (d : Z) : Z := if 127 <? d then 127 else if d <? -127 then -127 else d.

Definition mouse_emit_ps2_packet (dx dy wheel buttons : Z) (wheel_present : bool) (k : keyboard) : keyboard :=
  let dx := clamp127 dx in
  let dy := clamp127 dy in
  let b0 := Z.lor 0x08 (Z.land buttons 0x07) in
  let b0 := if dx <? 0 then Z.lor b0 0x10 else b0 in
  let b0 := if dy <? 0 then Z.lor b0 0x20 else b0 in
  let k := mouse_buf_push_byte dy (mouse_buf_push_byte dx (mouse_buf_push_byte b0 k)) in
  let k := if wheel_present then with_mouse (g_mouse_buttons k) true (g_mouse_ext_prefix k) k else k in
  if g_mouse_wheel_mode k then mouse_buf_push_byte (clamp127 wheel) k else k.

Definition keyboard_mouse_emit_packet_ex (us dx dy wheel buttons : Z) (wheel_present : bool) (k : keyboard) : keyboard :=
  let old_buttons := g_mouse_buttons k in
  let next_buttons := Z.land buttons 0x07 in
  let k := with_mouse next_buttons (g_mouse_wheel_mode k) (g_mouse_ext_prefix k) k in
  let k := mouse_emit_ps2_packet dx dy wheel next_buttons wheel_present k in
  mouse_emit_linux_events us dx dy wheel old_buttons next_buttons wheel_present k.

Definition keyboard_mouse_emit_packet (us dx dy buttons : Z) (k : keyboard) : keyboard :=
  keyboard_mouse_emit_packet_ex us dx dy 0 buttons false k.

(** The arrow keys move the mouse, [z], [x] and [c] are its buttons. *)
Definition mouse_emulate_from_scancode (us scancode : Z) (k : keyboard) : keyboard :=
  if scancode =? 0xE0 then with_mouse (g_mouse_buttons k) (g_mouse_wheel_mode k) true k
  else
    let release := flag scancode 0x80 in
    let sc := if release then Z.land scancode 0x7F else scancode in
    if g_mouse_ext_prefix k then
      let k :=
        if release then k
        else if sc =? SCAN_CODE_KEY_UP then keyboard_mouse_emit_packet_ex us 0 8 0 (g_mouse_buttons k) false k
        else if sc =? SCAN_CODE_KEY_DOWN then keyboard_mouse_emit_packet_ex us 0 (-8) 0 (g_mouse_buttons k) false k
        else if sc =? SCAN_CODE_KEY_LEFT then keyboard_mouse_emit_packet_ex us (-8) 0 0 (g_mouse_buttons k) false k
        else if sc =? SCAN_CODE_KEY_RIGHT then keyboard_mouse_emit_packet_ex us 8 0 0 (g_mouse_buttons k) false k
        else k in
      with_mouse (g_mouse_buttons k) (g_mouse_wheel_mode k) false k
    else if (sc =? SCAN_CODE_KEY_Z) || (sc =? SCAN_CODE_KEY_X) || (sc =? SCAN_CODE_KEY_C) then
      let mask := if sc =? SCAN_CODE_KEY_Z then 1 else if sc =? SCAN_CODE_KEY_X then 2 else 4 in
      let next := if release then u8 (Z.land (g_mouse_buttons k) (Z.lnot mask)) else u8 (Z.lor (g_mouse_buttons k) mask) in
      if next =? g_mouse_buttons k then k
      else keyboard_mouse_emit_packet_ex us 0 0 0 next false k
    else k.

(** ** Scan codes *)

Definition g_scan_code_chars : list Z :=
  [0; 27] ++ str "1234567890-=" ++ [8; 9] ++ str "qwertyuiop[]" ++ [10; 0] ++ str "asdfghjkl;'`" ++ [0] ++
  str "\zxcvbnm,./" ++ [0] ++ str "*" ++ [0] ++ str " " ++ replicate 16 0 ++ str "-" ++ [0; 0; 0] ++ str "+" ++
  replicate 49 0.

(** The cases of the switch, [34] is the double quote. *)
Definition alternates : list (Z * Z) :=
  zip (str "`1234567890-=[]\;',./") (str "~!@#$%^&*()_+{}|:" ++ [34] ++ str "<>?").

Definition alternate_chars (ch : Z) : Z :=
  match List.find (fun p => p.1 =? ch) alternates with Some (_, c) => c | None => ch end.

Definition is_lower (ch : Z) : bool := (chr "a" <=? ch) && (ch <=? chr "z").
Definition is_upper (ch : Z) : bool := (chr "A" <=? ch) && (ch <=? chr "Z").

(** The character of a key that is not a modifier. *)
Definition key_char (caps shift ctrl : bool) (scancode : Z) : Z :=
  let ch := nth (Z.to_nat scancode) g_scan_code_chars 0 in
  let ch := if is_lower ch then (if negb (eqb caps shift) then ch - 32 else ch)
            else if shift then alternate_chars ch else ch in
  if ctrl && (is_upper ch || is_lower ch)
  then (if is_upper ch then ch - chr "A" + chr "a" else ch) - chr "a" + 1
  else ch.

Definition decode_scancode_to_char (scancode : Z) (k : keyboard) : keyboard * Z :=
  let caps := g_caps_lock k in
  let shift := g_shift_pressed k in
  let ctrl := g_ctrl_pressed k in
  let ext := g_extended k in
  if scancode =? 0 then (k, 0)
  else if scancode =? 0xE0 then (with_keys caps shift ctrl true k, 0)
  else if flag scancode 0x80 then
    let released := Z.land scancode 0x7F in
    let shift := if (released =? SCAN_CODE_KEY_LEFT_SHIFT) || (released =? SCAN_CODE_KEY_RIGHT_SHIFT) then false else shift in
    let ctrl := if (released =? SCAN_CODE_KEY_LEFT_CTRL) || (released =? SCAN_CODE_KEY_RIGHT_CTRL) then false else ctrl in
    (with_keys caps shift ctrl false k, 0)
  else if (scancode =? SCAN_CODE_KEY_LEFT_SHIFT) || (scancode =? SCAN_CODE_KEY_RIGHT_SHIFT) then
    (with_keys caps true ctrl ext k, 0)
  else if (scancode =? SCAN_CODE_KEY_LEFT_CTRL) || (scancode =? SCAN_CODE_KEY_RIGHT_CTRL) then
    (with_keys caps shift true ext k, 0)
  else if scancode =? SCAN_CODE_KEY_CAPS_LOCK then (with_keys (negb caps) shift ctrl ext k, 0)
  else if ext then
    (with_keys caps shift ctrl false k,
     if scancode =? 0x48 then 0x80 else if scancode =? 0x50 then 0x81
     else if scancode =? 0x4B then 0x82 else if scancode =? 0x4D then 0x83 else 0)
  else (k, if scancode <? 128 then key_char caps shift ctrl scancode else 0).

(** What the handler puts in the buffer for a decoded character. *)
Definition tty_chars (ch : Z) : list Z :=
  if ch =? 0 then []
  else if (ch =? 0x80) || (ch =? 0x81) || (ch =? 0x82) || (ch =? 0x83) then
    [27; chr "["; if ch =? 0x80 then chr "A" else if ch =? 0x81 then chr "B" else if ch =? 0x82 then chr "D" else chr "C"]
  else [ch].

(** [scancode] is the byte of the port, [us] the clock, [tsc] the counter. *)
Definition keyboard_handler (us tsc scancode : Z) (k : keyboard) : keyboard :=
  if scancode =? 0 then k
  else
    let k := mouse_emulate_from_scancode us scancode k in
    if negb (g_skip_irq_scancode k =? 0) && (scancode =? g_skip_irq_scancode k)
    then with_last (g_ch k) (g_scan_code k) 0 k
    else
      let k := with_last (g_ch k) (schar (u8 scancode)) (g_skip_irq_scancode k) k in
      let k := with_counts (u64 (g_keyboard_irq_count k + 1)) tsc (g_sigint_pending k) k in
      let '(k, ch) := decode_scancode_to_char scancode k in
      if ch =? 0 then k
      else
        let k := if ch =? 3 then with_counts (g_keyboard_irq_count k) (g_keyboard_last_tsc k) (u32 (g_sigint_pending k + 1)) k
                 else k in
        match tty_chars ch with
        | [c] => kbd_buf_push_char c (with_last (schar (u8 ch)) (g_scan_code k) (g_skip_irq_scancode k) k)
        | l => with_last 27 (g_scan_code k) (g_skip_irq_scancode k) (fold_left (fun k c => kbd_buf_push_char c k) l k)
        end.

Definition keyboard_init (tsc : Z) (k : keyboard) : keyboard :=
  let k := with_keys false false false false (with_last 0 0 (g_skip_irq_scancode k) (with_counts 0 tsc 0 k)) in
  with_mouse 0 (g_mouse_wheel_mode k) false
    (with_bufs (reset_cbuf (kbd_buf k)) (reset_cbuf (mouse_buf k)) (reset_cbuf (mouse_event_buf k)) k).

(** ** The calls *)

(** A turn of each of the three blocking calls. *)
Definition kb_getchar (k : keyboard) : option (keyboard * Z) :=
  if g_ch k <=? 0 then None else Some (with_last 0 0 (g_skip_irq_scancode k) k, g_ch k).

Definition kb_get_scancode (k : keyboard) : option (keyboard * Z) :=
  if g_scan_code k <=? 0 then None else Some (with_last 0 0 (g_skip_irq_scancode k) k, g_scan_code k).

(** The result and, when it is 1, the character and the scan code. *)
Definition kb_read_event (blocking : bool) (k : keyboard) : option (keyboard * Z * (Z * Z)) :=
  if g_scan_code k =? 0 then (if blocking then None else Some (k, 0, (0, 0)))
  else Some (with_last 0 0 (g_skip_irq_scancode k) k, 1, (g_ch k, g_scan_code k)).

Definition keyboard_getchar (k : keyboard) : keyboard * Z :=
  match cb_pop KBD_BUF_SIZE (kbd_buf k) with
  | None => (k, -1)
  | Some (c, r) => (with_bufs r (mouse_buf k) (mouse_event_buf k) k, c)
  end.

Definition keyboard_pollchar (k : keyboard) : keyboard * Z := keyboard_getchar k.

(** [status] is the byte of the status port. *)
Definition keyboard_haschar (status : Z) (k : keyboard) : Z :=
  if negb (cb_head (kbd_buf k) =? cb_tail (kbd_buf k)) then 1 else if flag status 1 then 1 else 0.

Definition keyboard_mouse_pending (k : keyboard) : Z := cb_pending MOUSE_BUF_SIZE (mouse_buf k).
Definition keyboard_mouse_event_pending (k : keyboard) : Z := cb_pending MOUSE_EVENT_BUF_SIZE (mouse_event_buf k).

(** A turn of a read: it halts when it is to wait and has nothing. *)
Definition keyboard_mouse_read (max : Z) (blocking : bool) (k : keyboard) : option (keyboard * list Z) :=
  if max =? 0 then Some (k, [])
  else
    let '(r, l) := cb_take MOUSE_BUF_SIZE (Z.to_nat max) (mouse_buf k) in
    if blocking && test (l = []) then None
    else Some (with_bufs (kbd_buf k) r (mouse_event_buf k) k, l).

Definition keyboard_mouse_event_read (max : Z) (blocking : bool) (k : keyboard) : option (keyboard * list Z) :=
  if max =? 0 then Some (k, [])
  else
    let '(r, l) := cb_take MOUSE_EVENT_BUF_SIZE (Z.to_nat max) (mouse_event_buf k) in
    if blocking && test (l = []) then None
    else Some (with_bufs (kbd_buf k) (mouse_buf k) r k, l).

Definition keyboard_take_sigint_pending (k : keyboard) : keyboard * Z :=
  (with_counts (g_keyboard_irq_count k) (g_keyboard_last_tsc k) 0 k, g_sigint_pending k).

Definition keyboard_entropy_irq_count (k : keyboard) : Z := g_keyboard_irq_count k.
Definition keyboard_entropy_last_tsc (k : keyboard) : Z := g_keyboard_last_tsc k.
