(* ===== verification/KeyboardInv.v ===== *)
(** * Properties of the keyboard

    The buffers are queues of a bounded length, the keyboard is the decoder in front
    of one of them, and a text that is typed is the text that is read. The mouse
    drops bytes, not packets, and the second control key eats the key after it. *)

From S2P Require Import Prelude Path Uaccess Ring Keyboard.

(** ** Circular buffers as queues *)

Definition as_ring (size : Z) (r : cbuf) : ring :=
  {| rpos := cb_tail r; wpos := cb_head r; cnt := cb_pending size r; rbuf := cb_buf r |}.

Definition cb_ok (size : Z) (r : cbuf) : Prop := 0 <= cb_head r < size /\ 0 <= cb_tail r < size.
Definition cb_content (size : Z) (r : cbuf) : list Z := content size (as_ring size r).

(** A queue that holds less than [size] bytes drops what does not fit. *)
Definition enqueue (size b : Z) (l : list Z) : list Z := if zlength l + 1 <? size then l ++ [b] else l.

Section cbuf.
Context (size : Z) (Hsize : 1 < size < 2 ^ 31).
Implicit Types r : cbuf.

Lemma next_index i : 0 <= i < size -> (i + 1) mod size = if i + 1 =? size then 0 else i + 1.
Proof.
  intros H. destruct (Z.eqb_spec (i + 1) size) as [->|]; [apply Z.mod_same; lia | apply Z.mod_small; lia].
Qed.

Lemma pending_range r : cb_ok size r -> 0 <= cb_pending size r < size.
Proof. intros [? ?]. unfold cb_pending. ztest; lia. Qed.

Lemma as_ring_ok r : cb_ok size r -> ring_ok size (as_ring size r).
Proof.
  intros H. pose proof (pending_range r H). destruct H as [Hh Ht]. split; [done|]. split; [simpl; lia|].
  cbn [as_ring wpos rpos cnt]. unfold cb_pending. destruct (Z.ltb_spec (cb_head r - cb_tail r) 0).
  - replace (_ + _) with (cb_head r + 1 * size) by lia. rewrite Z.mod_add, Z.mod_small by lia. done.
  - replace (_ + _) with (cb_head r) by lia. by rewrite Z.mod_small by lia.
Qed.

Lemma zlength_cb r : cb_ok size r -> zlength (cb_content size r) = cb_pending size r.
Proof. intros H. pose proof (pending_range r H). apply (length_content size (as_ring size r)). simpl. lia. Qed.

Lemma cb_push_ok b r : cb_ok size r -> cb_ok size (cb_push size b r) /\ cb_content size (cb_push size b r) = enqueue size b (cb_content size r).
Proof.
  intros H. pose proof (as_ring_ok r H) as Hr. pose proof (pending_range r H) as Hp. unfold enqueue. rewrite zlength_cb by done.
  destruct H as [Hh Ht]. unfold cb_push. rewrite next_index by done. unfold cb_pending in *.
  destruct (Z.ltb_spec (cb_head r - cb_tail r) 0), (Z.eqb_spec (cb_head r + 1) size);
    destruct (Z.eqb_spec (if cb_head r + 1 =? size then 0 else cb_head r + 1) (cb_tail r)) as [En|En];
    repeat ztest; try lia; (split; [split; simpl; lia|]); try done.
  all: destruct (push_ok size ltac:(lia) b _ Hr) as [_ E]; [simpl; unfold cb_pending; ztest; lia|]; unfold cb_content; rewrite <- E.
  all: f_equal; unfold as_ring, push; cbn [rpos wpos cnt rbuf cb_head cb_tail cb_buf]; unfold cb_pending; cbn [cb_head cb_tail].
  all: rewrite !u32_small by (repeat ztest; lia); rewrite next_index by lia; f_equal; repeat ztest; lia.
Qed.

Lemma cb_pop_ok r :
  cb_ok size r ->
  match cb_pop size r with
  | None => cb_content size r = []
  | Some (b, r') => cb_content size r = b :: cb_content size r' /\ cb_ok size r'
  end.
Proof.
  intros H. pose proof (as_ring_ok r H) as Hr. pose proof (pending_range r H) as Hp. destruct H as [Hh Ht]. unfold cb_pop.
  destruct (Z.eqb_spec (cb_head r) (cb_tail r)) as [E|E].
  - unfold cb_content, content, as_ring, cb_pending. cbn [cnt]. rewrite E, Z.sub_diag. reflexivity.
  - assert (0 < cb_pending size r) as Hpos by (unfold cb_pending in *; ztest; lia).
    destruct (pop size (as_ring size r)) as [c r'] eqn:Ep.
    destruct (pop_ok size ltac:(lia) c _ r' Hr Hpos Ep) as (_ & Ec & _). injection Ep as <- <-.
    split; [|split; simpl; [lia | rewrite next_index by lia; ztest; lia]].
    unfold cb_content. rewrite Ec. f_equal. f_equal. unfold as_ring. cbn [rpos wpos cnt rbuf cb_head cb_tail cb_buf].
    rewrite !u32_small by lia. f_equal. unfold cb_pending in *. cbn [cb_head cb_tail]. rewrite next_index by lia. repeat ztest; lia.
Qed.

Lemma cb_take_ok n r : cb_ok size r -> let '(r', l) := cb_take size n r in
  cb_ok size r' /\ cb_content size r = l ++ cb_content size r' /\ l = take n (cb_content size r).
Proof.
  revert r. induction n as [|n IH]; intros r H; cbn [cb_take]; [by rewrite take_0|].
  pose proof (cb_pop_ok r H) as Hp. destruct (cb_pop size r) as [[b r1]|]; [|by rewrite Hp, take_nil].
  destruct Hp as [E H1]. specialize (IH r1 H1). destruct (cb_take size n r1) as [r2 l]. destruct IH as (H2 & E2 & El).
  split; [done|]. rewrite E. cbn [take]. rewrite <- El. split; [|done]. rewrite E2 at 1. done.
Qed.
End cbuf.

(** ** The keyboard as a decoder and a queue *)

(** The state of a fresh kernel. *)
Definition zero_keyboard : keyboard :=
  {| g_caps_lock := false; g_shift_pressed := false; g_ctrl_pressed := false; g_extended := false;
     g_ch := 0; g_scan_code := 0; g_skip_irq_scancode := 0; g_keyboard_irq_count := 0; g_keyboard_last_tsc := 0;
     g_sigint_pending := 0; kbd_buf := empty_cbuf; mouse_buf := empty_cbuf; mouse_event_buf := empty_cbuf;
     g_mouse_buttons := 0; g_mouse_wheel_mode := false; g_mouse_ext_prefix := false |}.

(** What happens to the keyboard: interrupts, packets of a mouse on the bus, and calls. *)
Inductive kevent :=
  | Scan (us tsc scancode : Z)
  | Packet (us dx dy wheel buttons : Z) (wheel_present : bool)
  | Getchar
  | TakeSigint
  | MouseRead (max : Z)
  | MouseEvents (max : Z).

(** One event, with the value that a call returns. *)
Definition kstep (e : kevent) (k : keyboard) : keyboard * option Z :=
  match e with
  | Scan us tsc sc => (keyboard_handler us tsc sc k, None)
  | Packet us dx dy wheel b p => (keyboard_mouse_emit_packet_ex us dx dy wheel b p k, None)
  | Getchar => let '(k, c) := keyboard_getchar k in (k, Some c)
  | TakeSigint => let '(k, n) := keyboard_take_sigint_pending k in (k, Some n)
  | MouseRead max => (match keyboard_mouse_read max false k with Some (k, _) => k | None => k end, None)
  | MouseEvents max => (match keyboard_mouse_event_read max false k with Some (k, _) => k | None => k end, None)
  end.

(** The abstract keyboard: the modifier keys, the characters that wait, the
    interrupts that wait. *)
Record kspec := { q_keys : bool * bool * bool * bool; q_chars : list Z; q_sigint : Z }.

Definition keys_of (k : keyboard) : bool * bool * bool * bool :=
  (g_caps_lock k, g_shift_pressed k, g_ctrl_pressed k, g_extended k).
Definition with_mods (m : bool * bool * bool * bool) : keyboard :=
  let '(caps, shift, ctrl, ext) := m in with_keys caps shift ctrl ext zero_keyboard.
Definition decode (m : bool * bool * bool * bool) (sc : Z) : (bool * bool * bool * bool) * Z :=
  let '(k, ch) := decode_scancode_to_char sc (with_mods m) in (keys_of k, ch).

Definition sstep (e : kevent) (q : kspec) : kspec * option Z :=
  match e with
  | Scan _ _ sc =>
      let '(m, ch) := decode (q_keys q) sc in
      ({| q_keys := m; q_chars := fold_left (fun l c => enqueue KBD_BUF_SIZE (u8 c) l) (tty_chars ch) (q_chars q);
          q_sigint := if ch =? 3 then u32 (q_sigint q + 1) else q_sigint q |}, None)
  | Getchar =>
      match q_chars q with
      | [] => (q, Some (-1))
      | c :: l => ({| q_keys := q_keys q; q_chars := l; q_sigint := q_sigint q |}, Some c)
      end
  | TakeSigint => ({| q_keys := q_keys q; q_chars := q_chars q; q_sigint := 0 |}, Some (q_sigint q))
  | Packet _ _ _ _ _ _ | MouseRead _ | MouseEvents _ => (q, None)
  end.

Fixpoint krun (l : list kevent) (k : keyboard) : keyboard * list Z :=
  match l with
  | [] => (k, [])
  | e :: l => let '(k, o) := kstep e k in let '(k, out) := krun l k in (k, option_list o ++ out)
  end.
Fixpoint srun (l : list kevent) (q : kspec) : kspec * list Z :=
  match l with
  | [] => (q, [])
  | e :: l => let '(q, o) := sstep e q in let '(q, out) := srun l q in (q, option_list o ++ out)
  end.

(** What the buffers of the mouse leave alone. *)
Definition same_keys (k k' : keyboard) : Prop :=
  keys_of k' = keys_of k /\ kbd_buf k' = kbd_buf k /\ g_sigint_pending k' = g_sigint_pending k /\
  g_skip_irq_scancode k' = g_skip_irq_scancode k.

Lemma same_keys_refl k : same_keys k k.
Proof. by repeat split. Qed.

Lemma same_keys_trans k k1 k2 : same_keys k k1 -> same_keys k1 k2 -> same_keys k k2.
Proof. intros (?&?&?&?) (?&?&?&?). repeat split; congruence. Qed.

Lemma same_keys_fold {A} (f : keyboard -> A -> keyboard) l k :
  (forall k a, same_keys k (f k a)) -> same_keys k (fold_left f l k).
Proof.
  intros H. revert k. induction l as [|a l IH]; intros k; [apply same_keys_refl|].
  cbn [fold_left]. eapply same_keys_trans; [apply H | apply IH].
Qed.

Lemma event_push_keys us t c v k : same_keys k (mouse_event_push us t c v k).
Proof. apply same_keys_fold. by repeat split. Qed.

Lemma button_event_keys us b c o n k : same_keys k (button_event us b c o n k).
Proof. unfold button_event. destruct (_ =? _); [apply same_keys_refl | apply event_push_keys]. Qed.

Create HintDb keys.
#[export] Hint Resolve same_keys_refl event_push_keys button_event_keys : keys.

(** Peels the outer operation off the goal. *)
Ltac keys_step :=
  match goal with
  | |- same_keys ?k ?k => apply same_keys_refl
  | |- same_keys _ (mouse_event_push _ _ _ _ _) => eapply same_keys_trans; [|apply event_push_keys]
  | |- same_keys _ (button_event _ _ _ _ _ _) => eapply same_keys_trans; [|apply button_event_keys]
  | |- same_keys _ (if ?b then _ else _) => destruct b
  end.

Lemma linux_events_keys us dx dy w o n p k : same_keys k (mouse_emit_linux_events us dx dy w o n p k).
Proof. unfold mouse_emit_linux_events. cbv zeta. repeat keys_step. Qed.

Lemma ps2_packet_keys dx dy w b p k : same_keys k (mouse_emit_ps2_packet dx dy w b p k).
Proof. unfold mouse_emit_ps2_packet. cbv zeta. destruct p, (g_mouse_wheel_mode k) eqn:E; cbn; rewrite ?E; by repeat split. Qed.

Lemma packet_keys us dx dy w b p k : same_keys k (keyboard_mouse_emit_packet_ex us dx dy w b p k).
Proof.
  unfold keyboard_mouse_emit_packet_ex. cbv zeta. eapply same_keys_trans; [|apply linux_events_keys].
  eapply same_keys_trans; [|apply ps2_packet_keys]. by repeat split.
Qed.

Lemma with_mouse_keys b w e k k' : same_keys k k' -> same_keys k (with_mouse b w e k').
Proof. intros (?&?&?&?). by repeat split. Qed.

Lemma emulate_keys us sc k : same_keys k (mouse_emulate_from_scancode us sc k).
Proof.
  unfold mouse_emulate_from_scancode. cbv zeta. destruct (sc =? 0xE0); [by apply with_mouse_keys, same_keys_refl|].
  destruct (g_mouse_ext_prefix k).
  - apply with_mouse_keys. repeat (destruct (flag _ _) || destruct (_ =? _)); solve [apply same_keys_refl | apply packet_keys].
  - repeat match goal with |- same_keys _ (if ?b then _ else _) => destruct b end; solve [apply same_keys_refl | apply packet_keys].
Qed.

(** The relation between the two. *)
Definition krel (k : keyboard) (q : kspec) : Prop :=
  q_keys q = keys_of k /\ q_chars q = cb_content KBD_BUF_SIZE (kbd_buf k) /\ q_sigint q = g_sigint_pending k /\
  cb_ok KBD_BUF_SIZE (kbd_buf k) /\ g_skip_irq_scancode k = 0.

Lemma krel_same k k' q : same_keys k k' -> krel k q -> krel k' q.
Proof. intros (E1&E2&E3&E4) (?&?&?&?&?). unfold krel. by rewrite E1, E2, E3, E4. Qed.

(** Decoding looks at the modifiers only and changes nothing else. *)
Lemma decode_spec sc k :
  let '(k', ch) := decode_scancode_to_char sc k in
  decode (keys_of k) sc = (keys_of k', ch) /\ kbd_buf k' = kbd_buf k /\ g_sigint_pending k' = g_sigint_pending k /\
  g_skip_irq_scancode k' = g_skip_irq_scancode k.
Proof.
  unfold decode, with_mods, keys_of, decode_scancode_to_char. cbn.
  repeat match goal with |- context [if ?b then (_, _) else _] => destruct b eqn:?; [by repeat split|] end.
  repeat split. cbn. congruence.
Qed.

Lemma push_fold l k :
  cb_ok KBD_BUF_SIZE (kbd_buf k) ->
  let k' := fold_left (fun k c => kbd_buf_push_char c k) l k in
  cb_ok KBD_BUF_SIZE (kbd_buf k') /\
  cb_content KBD_BUF_SIZE (kbd_buf k') = fold_left (fun q c => enqueue KBD_BUF_SIZE (u8 c) q) l (cb_content KBD_BUF_SIZE (kbd_buf k)) /\
  keys_of k' = keys_of k /\ g_sigint_pending k' = g_sigint_pending k /\ g_skip_irq_scancode k' = g_skip_irq_scancode k.
Proof.
  revert k. induction l as [|c l IH]; intros k H; cbn [fold_left]; [done|].
  destruct (cb_push_ok KBD_BUF_SIZE ltac:(unfold KBD_BUF_SIZE; lia) (u8 c) (kbd_buf k) H) as [H1 E1].
  specialize (IH (kbd_buf_push_char c k) H1). cbn zeta in IH. destruct IH as (A & B & C & D & F).
  split; [done|]. rewrite B. split; [|by rewrite C, D, F]. f_equal. exact E1.
Qed.

(** The handler: the emulated mouse, the bookkeeping, the decoder and the queue. *)
Lemma handler_spec us tsc sc k q : krel k q -> krel (keyboard_handler us tsc sc k) (fst (sstep (Scan us tsc sc) q)).
Proof.
  intros H. unfold keyboard_handler. destruct (Z.eqb_spec sc 0) as [->|Hsc].
  { destruct H as (E&?&?&?&?). destruct q as [m l n]. simpl in *. subst m. unfold decode, with_mods, keys_of. unfold krel. simpl. by split_and!. }
  pose proof (krel_same _ _ q (emulate_keys us sc k) H) as H1. set (k1 := mouse_emulate_from_scancode us sc k) in *. clearbody k1.
  destruct H1 as (E1 & E2 & E3 & Hok & Hs). rewrite Hs. cbn [Z.eqb negb andb]. cbv zeta.
  set (k2 := with_counts _ _ _ _). pose proof (decode_spec sc k2) as Hd.
  destruct (decode_scancode_to_char sc k2) as [k3 ch]. destruct Hd as (Ed & Eb & Esg & Esk).
  change (keys_of k2) with (keys_of k1) in Ed. change (kbd_buf k2) with (kbd_buf k1) in Eb.
  change (g_sigint_pending k2) with (g_sigint_pending k1) in Esg. change (g_skip_irq_scancode k2) with 0 in Esk.
  clearbody k2. cbn [sstep fst]. rewrite E1, Ed.
  destruct (Z.eqb_spec ch 0) as [->|Hch].
  { cbn. unfold krel. split_and!; cbn; congruence. }
  set (k4 := if ch =? 3 then _ else k3).
  assert (kbd_buf k4 = kbd_buf k1 /\ keys_of k4 = keys_of k3 /\ g_skip_irq_scancode k4 = 0 /\
          g_sigint_pending k4 = if ch =? 3 then u32 (q_sigint q + 1) else q_sigint q) as (F1 & F2 & F3 & F4).
  { unfold k4. destruct (ch =? 3); repeat split; cbn; congruence. }
  clearbody k4. rewrite <- F1 in Hok, E2. rewrite E2.
  assert (tty_chars ch = [ch] \/ exists a b c, tty_chars ch = [a; b; c]) as [->|(a & b & c & ->)].
  { unfold tty_chars. destruct (Z.eqb_spec ch 0); [done|]. destruct (_ || _); [right; by eexists _, _, _ | by left]. }
  - destruct (push_fold [ch] k4 Hok) as (A & B & C & D & F). cbn [fold_left] in *. cbv zeta in *.
    unfold krel. split_and!; cbn; try congruence; [exact (eq_sym F2) | exact (eq_sym B) | exact A].
  - destruct (push_fold [a; b; c] k4 Hok) as (A & B & C & D & F). cbv zeta in *.
    set (k5 := fold_left _ _ k4) in *. clearbody k5. unfold krel. split_and!; cbn; try congruence; solve [exact A | exact (eq_sym B) | change (keys_of k3 = keys_of k5); congruence].
Qed.

Lemma kstep_spec e k q : krel k q -> krel (fst (kstep e k)) (fst (sstep e q)) /\ snd (kstep e k) = snd (sstep e q).
Proof.
  intros H. destruct e as [us tsc sc|us dx dy w b p| | |max|max]; cbn [kstep].
  - split; [by apply handler_spec|]. cbn. by destruct (decode _ _).
  - split; [|done]. exact (krel_same _ _ q (packet_keys _ _ _ _ _ _ _) H).
  - destruct H as (E1 & E2 & E3 & Hok & Hs). cbn [sstep]. unfold keyboard_getchar.
    pose proof (cb_pop_ok KBD_BUF_SIZE ltac:(unfold KBD_BUF_SIZE; lia) _ Hok) as Hp. rewrite E2.
    destruct (cb_pop KBD_BUF_SIZE (kbd_buf k)) as [[c r]|].
    + destruct Hp as [-> Hr]. cbn. by unfold krel; split_and!.
    + rewrite Hp. cbn. unfold krel. split_and!; congruence.
  - destruct H as (E1 & E2 & E3 & Hok & Hs). cbn. unfold krel. split_and!; solve [exact E1 | cbn; congruence].
  - split; [|done]. apply (krel_same k); [|done]. unfold keyboard_mouse_read.
    destruct (max =? 0); [apply same_keys_refl|]. destruct (cb_take _ _ _) as [r l]. cbn. by repeat split.
  - split; [|done]. apply (krel_same k); [|done]. unfold keyboard_mouse_event_read.
    destruct (max =? 0); [apply same_keys_refl|]. destruct (cb_take _ _ _) as [r l]. cbn. by repeat split.
Qed.

Lemma krun_spec l k q : krel k q -> krel (fst (krun l k)) (fst (srun l q)) /\ snd (krun l k) = snd (srun l q).
Proof.
  revert k q. induction l as [|e l IH]; intros k q H; cbn [krun srun]; [done|].
  destruct (kstep_spec e k q H) as [H1 Ho]. destruct (kstep e k) as [k1 o], (sstep e q) as [q1 o']. cbn in H1, Ho. subst o'.
  destruct (IH k1 q1 H1) as [H2 Hl]. destruct (krun l k1) as [k2 l2], (srun l q1) as [q2 l3]. cbn in *. by subst l3.
Qed.

Definition boot_spec : kspec := {| q_keys := (false, false, false, false); q_chars := []; q_sigint := 0 |}.

Lemma boot_rel tsc : krel (keyboard_init tsc zero_keyboard) boot_spec.
Proof. by unfold krel; split_and!. Qed.

(** C29: after [keyboard_init], whatever interrupts, mouse packets and calls follow,
    the calls return what the abstract keyboard returns: a decoder of scan codes in
    front of a queue of 255 characters, which drops a character that does not fit and
    gives [-1] when it is empty, and a counter of interrupt characters; the mouse, its
    emulation and its readers do not show. *)
Theorem keyboard_is_bounded_queue tsc (l : list kevent) : snd (krun l (keyboard_init tsc zero_keyboard)) = snd (srun l boot_spec).
Proof. apply krun_spec, boot_rel. Qed.

(** ** Typing *)

(** The first key that gives [c], without and with shift. *)
Definition key_for (shift : bool) (c : Z) : option Z :=
  List.find (fun i => key_char false shift false i =? c) (seqZ 1 88).

(** The scan codes of a character that is typed: the key goes down and up, within
    those of the left shift key if it needs it. *)
Definition type_char (c : Z) : list Z :=
  match key_for false c with
  | Some i => [i; i + 128]
  | None =>
      match key_for true c with
      | Some i => [SCAN_CODE_KEY_LEFT_SHIFT; i; i + 128; SCAN_CODE_KEY_LEFT_SHIFT + 128]
      | None => []
      end
  end.

(** The characters that a text is made of: backspace, tab, newline, escape and what
    can be printed. *)
Definition typable : list Z := [8; 9; 10; 27] ++ seqZ 32 95.

Definition scan_event (sc : Z) : kevent := Scan 0 0 sc.
Definition type_text (text : list Z) : list kevent := map scan_event (concat (map type_char text)).

Definition up : bool * bool * bool * bool := (false, false, false, false).

(** What a sequence of scan codes decodes to. *)
Fixpoint decode_all (m : bool * bool * bool * bool) (l : list Z) : (bool * bool * bool * bool) * list Z :=
  match l with
  | [] => (m, [])
  | sc :: l =>
      let '(m, ch) := decode m sc in
      let '(m, cs) := decode_all m l in (m, tty_chars ch ++ cs)
  end.

(** Every character of a text decodes to itself and leaves the modifiers up. *)
Lemma typed_chars : forallb (fun c => match decode_all up (type_char c) with
                                      | ((false, false, false, false), [c']) => (c' =? c) && (u8 c =? c)
                                      | _ => false end) typable = true.
Proof. vm_compute. reflexivity. Qed.

Lemma type_char_decodes c : c ∈ typable -> decode_all up (type_char c) = (up, [c]) /\ u8 c = c.
Proof.
  intros H. pose proof typed_chars as E. rewrite forallb_forall in E. specialize (E c (proj1 (list_elem_of_In _ _) H)).
  destruct (decode_all up (type_char c)) as [[[[[] []] []] []] [|c' [|]]]; try done.
  apply andb_true_iff in E as [->%Z.eqb_eq ->%Z.eqb_eq]. done.
Qed.

Lemma srun_app l1 l2 q :
  srun (l1 ++ l2) q = let '(q1, o1) := srun l1 q in let '(q2, o2) := srun l2 q1 in (q2, o1 ++ o2).
Proof.
  revert q. induction l1 as [|e l1 IH]; intros q; cbn [srun app]; [by destruct (srun l2 q)|].
  destruct (sstep e q) as [q1 o]. rewrite IH. destruct (srun l1 q1) as [q2 o1], (srun l2 q2). by rewrite app_assoc.
Qed.

Lemma enqueue_fits size l q :
  zlength q + zlength l < size -> fold_left (fun q c => enqueue size (u8 c) q) l q = q ++ map u8 l.
Proof.
  revert q. induction l as [|c l IH]; intros q H; cbn [fold_left map]; [by rewrite app_nil_r|].
  unfold zlength in *. cbn [length] in H. unfold enqueue at 2, zlength. destruct (Z.ltb_spec (Z.of_nat (length q) + 1) size); [|lia].
  rewrite IH by (rewrite length_app; cbn; lia). by rewrite <- app_assoc.
Qed.

Lemma srun_scans l m q n :
  zlength q + zlength (snd (decode_all m l)) < KBD_BUF_SIZE ->
  exists n', srun (map scan_event l) {| q_keys := m; q_chars := q; q_sigint := n |} =
    ({| q_keys := fst (decode_all m l); q_chars := q ++ map u8 (snd (decode_all m l)); q_sigint := n' |}, []).
Proof.
  revert m q n. induction l as [|sc l IH]; intros m q n H; cbn [map srun]; [exists n; by rewrite app_nil_r|].
  cbn [decode_all] in *. cbn [scan_event sstep q_keys q_chars q_sigint].
  destruct (decode m sc) as [m1 ch]. specialize (IH m1). destruct (decode_all m1 l) as [m2 cs]. cbn [fst snd] in *.
  unfold zlength in *. rewrite length_app in H.
  rewrite enqueue_fits by (unfold zlength; lia).
  destruct (IH (q ++ map u8 (tty_chars ch)) (if ch =? 3 then u32 (n + 1) else n)) as [n' E];
    [rewrite length_app, length_map; lia|].
  exists n'. cbn [scan_event] in E. rewrite E, map_app, app_assoc. done.
Qed.

Lemma decode_text text : Forall (fun c => c ∈ typable) text -> decode_all up (concat (map type_char text)) = (up, text) /\ map u8 text = text.
Proof.
  assert (forall l1 l2 m, decode_all m (l1 ++ l2) = let '(m1, c1) := decode_all m l1 in let '(m2, c2) := decode_all m1 l2 in (m2, c1 ++ c2)) as Happ.
  { induction l1 as [|sc l1 IH]; intros l2 m; cbn [app decode_all]; [by destruct (decode_all m l2)|].
    destruct (decode m sc) as [m1 ch]. rewrite IH. destruct (decode_all m1 l1) as [m2 c1], (decode_all m2 l2). by rewrite app_assoc. }
  induction 1 as [|c text Hc _ IH]; [done|]. cbn [map concat]. destruct IH as [E Eu]. destruct (type_char_decodes c Hc) as [Ec Ecu].
  rewrite Happ, Ec, E, Eu, Ecu. done.
Qed.

Lemma srun_gets m q n : snd (srun (replicate (length q) Getchar) {| q_keys := m; q_chars := q; q_sigint := n |}) = q.
Proof.
  induction q as [|c q IH]; [done|]. cbn. destruct (srun _ _) as [q' o]. cbn in *. by rewrite IH.
Qed.

(** A text of at most 255 characters that is typed on a keyboard at rest is what
    the calls to [keyboard_getchar] return, character by character. *)
Theorem typed_text_is_read tsc (text : list Z)
    (Htext : Forall (fun c => c ∈ typable) text) (Hlen : zlength text <= 255) :
  snd (krun (type_text text ++ replicate (length text) Getchar) (keyboard_init tsc zero_keyboard)) = text.
Proof.
  rewrite (proj2 (krun_spec _ _ _ (boot_rel tsc))). rewrite srun_app. unfold type_text, boot_spec. fold up.
  destruct (decode_text text Htext) as [E Eu].
  destruct (srun_scans (concat (map type_char text)) up [] 0) as [n' ->]; [rewrite E; unfold zlength, KBD_BUF_SIZE in *; cbn; lia|].
  rewrite E. cbn [fst snd app]. rewrite Eu. pose proof (srun_gets up text n') as H. destruct (srun _ _). exact H.
Qed.

Lemma typed_text_is_read_witness :
  snd (krun (type_text (str "Make |ok|") ++ replicate 9 Getchar) (keyboard_init 7 zero_keyboard)) = str "Make |ok|".
Proof. apply (typed_text_is_read 7 (str "Make |ok|")); [|vm_compute; done]. apply (bool_decide_unpack _). vm_compute. exact I. Defined.

(** ** What goes wrong *)

(** The right control key sends [0xE0 0x1D]: the prefix stays set, and the next key
    is lost. *)
Lemma right_ctrl_eats_key tsc :
  snd (krun (map scan_event [0xE0; 0x1D; 0x2E; 0xAE; 0xE0; 0x9D] ++ [TakeSigint; Getchar]) (keyboard_init tsc zero_keyboard)) = [0; -1] /\
  snd (krun (map scan_event [0x1D; 0x2E; 0xAE; 0x9D] ++ [TakeSigint; Getchar]) (keyboard_init tsc zero_keyboard)) = [1; 3].
Proof. rewrite !(proj2 (krun_spec _ _ _ (boot_rel tsc))). split; vm_compute; reflexivity. Qed.

(** The buffer of events has room for 8191 bytes, 341 events of 24 bytes and 7 bytes
    of the next: a reader that comes late gets a part of an event, and all that
    follow are out of step. *)
Lemma events_out_of_step tsc :
  let k := fold_left (fun k _ => keyboard_mouse_emit_packet 0 1 0 0 k) (replicate 171 tt) (keyboard_init tsc zero_keyboard) in
  keyboard_mouse_event_pending k = 8191 /\ 8191 mod 24 = 7.
Proof. split; [vm_compute|]; reflexivity. Qed.
