(* ===== verification/Fd.v ===== *)
(** * File descriptors ([src/src/sys/syscall.c])

    The descriptor tables of the processes and the objects behind descriptors:
    the reference counts of open files, the pipes, the pseudo-terminals, the
    event, timer and signal descriptors, the event polls. Each table of the C
    code is a total function on its index; a failed allocation is [-1] (0 for
    file references), as in the code, and an error is the negated error number.
    Sockets are behind the interface [sock_layer]. Tracing is left out. *)

From S2P Require Import Prelude CString Path Process Uaccess Vfs Ring.

Definition EBADF : Z := 9.
Definition ENOMEM : Z := 12.

Definition EDGE_MAX_FD : Z := 64.
Definition EDGE_MAX_FD_PROCS : Z := 64.
Definition EDGE_MAX_PIPES : Z := 32.
Definition EDGE_PIPE_SIZE : Z := 4096.
Definition EDGE_MAX_SOCKETS : Z := 32.
Definition EDGE_MAX_PTYS : Z := 16.
Definition EDGE_PTY_BUF_SIZE : Z := 4096.
Definition EDGE_MAX_FILE_REFS : Z := 1024.
Definition EDGE_MAX_EVENTFDS : Z := 64.
Definition EDGE_MAX_TIMERFDS : Z := 64.
Definition EDGE_MAX_SIGNALFDS : Z := 64.
Definition EDGE_MAX_EPOLLS : Z := 32.
Definition EDGE_EPOLL_MAX_WATCH : Z := 64.

Definition LINUX_O_ACCMODE : Z := 0x3.
Definition LINUX_O_WRONLY : Z := 0x1.
Definition LINUX_O_RDWR : Z := 0x2.
Definition LINUX_O_CREAT : Z := 0x40.
Definition LINUX_O_TRUNC : Z := 0x200.
Definition LINUX_O_APPEND : Z := 0x400.
Definition LINUX_O_NONBLOCK : Z := 0x800.
Definition LINUX_O_CLOEXEC : Z := 0x80000.
Definition LINUX_FD_CLOEXEC : Z := 1.

Inductive edge_fd_kind :=
  | FD_NONE | FD_CONSOLE | FD_VFS | FD_PIPE_R | FD_PIPE_W | FD_SOCKET | FD_PTY_MASTER | FD_PTY_SLAVE
  | FD_EVENTFD | FD_TIMERFD | FD_SIGNALFD | FD_EPOLL | FD_PIDFD.

#[export] Instance fd_kind_eq_dec : EqDecision edge_fd_kind.
Proof. solve_decision. Defined.

(** [edge_fd_t]; [f_obj] is the field [pipe_id]. *)
Record edge_fd := {
  f_used : bool; f_kind : edge_fd_kind; f_ref : Z; f_flags : Z; f_fdflags : Z; f_pos : Z;
  f_inode : vfs_inode; f_sb : option superblock; f_path : path; f_obj : Z
}.

Definition no_inode : vfs_inode :=
  {| i_ino := 0; i_mode := 0; i_uid := 0; i_gid := 0; i_size := 0; i_private := [0; 0; 0; 0] |}.

(** [memset(e, 0, sizeof( *e))]. *)
Definition zero_fd : edge_fd :=
  {| f_used := false; f_kind := FD_NONE; f_ref := 0; f_flags := 0; f_fdflags := 0; f_pos := 0;
     f_inode := no_inode; f_sb := None; f_path := []; f_obj := 0 |}.

Record edge_file_ref := { r_used : bool; r_refs : Z }.
Record edge_fd_proc := { fp_pid : Z; fp_fds : Z -> edge_fd }.

Record edge_pipe := {
  p_used : bool; p_readers : Z; p_writers : Z; p_rpos : Z; p_wpos : Z; p_count : Z; p_buf : Z -> Z
}.

Record edge_termios := {
  c_iflag : Z; c_oflag : Z; c_cflag : Z; c_lflag : Z; c_line : Z; c_cc : list Z
}.
Record edge_winsize := { ws_row : Z; ws_col : Z; ws_xpixel : Z; ws_ypixel : Z }.

Record edge_pty := {
  y_used : bool; y_refs_master : Z; y_refs_slave : Z; y_unlocked : Z; y_fg_pgid : Z;
  y_termios : edge_termios; y_winsz : edge_winsize; m2s : ring; s2m : ring
}.

Record edge_eventfd := { ev_used : bool; ev_refs : Z; ev_counter : Z; ev_semaphore : bool }.
Record edge_timerfd := {
  tf_used : bool; tf_refs : Z; tf_clockid : Z; tf_active : bool; tf_next_us : Z; tf_interval_us : Z
}.
Record edge_signalfd := { sf_used : bool; sf_refs : Z; sf_mask : Z }.
Record epoll_watch := { w_fd : Z; w_events : Z; w_data : Z }.
(** The watches in use, the first [nwatch] of the array. *)
Record edge_epoll := { ep_used : bool; ep_refs : Z; ep_watch : list epoll_watch }.

Definition zero_pipe : edge_pipe :=
  {| p_used := false; p_readers := 0; p_writers := 0; p_rpos := 0; p_wpos := 0; p_count := 0;
     p_buf := fun _ => 0 |}.
Definition zero_termios : edge_termios :=
  {| c_iflag := 0; c_oflag := 0; c_cflag := 0; c_lflag := 0; c_line := 0; c_cc := replicate 19 0 |}.
Definition zero_winsize : edge_winsize := {| ws_row := 0; ws_col := 0; ws_xpixel := 0; ws_ypixel := 0 |}.
Definition zero_pty : edge_pty :=
  {| y_used := false; y_refs_master := 0; y_refs_slave := 0; y_unlocked := 0; y_fg_pgid := 0;
     y_termios := zero_termios; y_winsz := zero_winsize; m2s := zero_ring; s2m := zero_ring |}.
Definition zero_eventfd : edge_eventfd :=
  {| ev_used := false; ev_refs := 0; ev_counter := 0; ev_semaphore := false |}.
Definition zero_timerfd : edge_timerfd :=
  {| tf_used := false; tf_refs := 0; tf_clockid := 0; tf_active := false; tf_next_us := 0; tf_interval_us := 0 |}.
Definition zero_signalfd : edge_signalfd := {| sf_used := false; sf_refs := 0; sf_mask := 0 |}.
Definition zero_epoll : edge_epoll := {| ep_used := false; ep_refs := 0; ep_watch := [] |}.

(** The console terminal: its settings and the line being edited. *)
Record console_tty := {
  t_termios : edge_termios; t_linebuf : list Z; t_line_pos : Z; t_foreground_pgid : Z
}.

(** [termios_init_sane]: [c_cc] is VINTR, -, VERASE, VKILL, VEOF, VTIME, VMIN. *)
Definition LINUX_OPOST : Z := 1.
Definition LINUX_ONLCR : Z := 4.
Definition LINUX_ICANON : Z := 2.
Definition LINUX_ECHO : Z := 8.
Definition LINUX_ISIG : Z := 1.

Definition termios_init_sane : edge_termios :=
  {| c_iflag := 0; c_oflag := Z.lor LINUX_OPOST LINUX_ONLCR; c_cflag := 0;
     c_lflag := Z.lor (Z.lor LINUX_ICANON LINUX_ECHO) LINUX_ISIG; c_line := 0;
     c_cc := [3; 0; 127; 21; 4; 0; 1] ++ replicate 12 0 |}.

Definition tty_reset_defaults : console_tty :=
  {| t_termios := termios_init_sane; t_linebuf := []; t_line_pos := 0; t_foreground_pgid := 0 |}.

(** What the descriptors need of the sockets. *)
Class sock_layer (SK : Type) := {
  socket_add_ref : Z -> SK -> SK;
  socket_drop_ref : Z -> SK -> SK;
  socket_set_nonblock : Z -> bool -> SK -> SK
}.

Section fd.
Context {SK : Type} `{!sock_layer SK}.

(** The tables, the console, and the memory of the current process. *)
Record fdw := {
  procs : Z -> edge_fd_proc; file_refs : Z -> edge_file_ref; pipes : Z -> edge_pipe; ptys : Z -> edge_pty;
  eventfds : Z -> edge_eventfd; timerfds : Z -> edge_timerfd; signalfds : Z -> edge_signalfd;
  epolls : Z -> edge_epoll; sockets : SK; tty : console_tty; fb_hold : Z; fb_present : bool; umem : CString.mem
}.

Definition set_procs f w := {| procs := f; file_refs := file_refs w; pipes := pipes w; ptys := ptys w;
  eventfds := eventfds w; timerfds := timerfds w; signalfds := signalfds w; epolls := epolls w;
  sockets := sockets w; tty := tty w; fb_hold := fb_hold w; fb_present := fb_present w; umem := umem w |}.
Definition set_refs f w := {| procs := procs w; file_refs := f; pipes := pipes w; ptys := ptys w;
  eventfds := eventfds w; timerfds := timerfds w; signalfds := signalfds w; epolls := epolls w;
  sockets := sockets w; tty := tty w; fb_hold := fb_hold w; fb_present := fb_present w; umem := umem w |}.
Definition set_pipes f w := {| procs := procs w; file_refs := file_refs w; pipes := f; ptys := ptys w;
  eventfds := eventfds w; timerfds := timerfds w; signalfds := signalfds w; epolls := epolls w;
  sockets := sockets w; tty := tty w; fb_hold := fb_hold w; fb_present := fb_present w; umem := umem w |}.
Definition set_ptys f w := {| procs := procs w; file_refs := file_refs w; pipes := pipes w; ptys := f;
  eventfds := eventfds w; timerfds := timerfds w; signalfds := signalfds w; epolls := epolls w;
  sockets := sockets w; tty := tty w; fb_hold := fb_hold w; fb_present := fb_present w; umem := umem w |}.
Definition set_eventfds f w := {| procs := procs w; file_refs := file_refs w; pipes := pipes w; ptys := ptys w;
  eventfds := f; timerfds := timerfds w; signalfds := signalfds w; epolls := epolls w;
  sockets := sockets w; tty := tty w; fb_hold := fb_hold w; fb_present := fb_present w; umem := umem w |}.
Definition set_timerfds f w := {| procs := procs w; file_refs := file_refs w; pipes := pipes w; ptys := ptys w;
  eventfds := eventfds w; timerfds := f; signalfds := signalfds w; epolls := epolls w;
  sockets := sockets w; tty := tty w; fb_hold := fb_hold w; fb_present := fb_present w; umem := umem w |}.
Definition set_signalfds f w := {| procs := procs w; file_refs := file_refs w; pipes := pipes w; ptys := ptys w;
  eventfds := eventfds w; timerfds := timerfds w; signalfds := f; epolls := epolls w;
  sockets := sockets w; tty := tty w; fb_hold := fb_hold w; fb_present := fb_present w; umem := umem w |}.
Definition set_epolls f w := {| procs := procs w; file_refs := file_refs w; pipes := pipes w; ptys := ptys w;
  eventfds := eventfds w; timerfds := timerfds w; signalfds := signalfds w; epolls := f;
  sockets := sockets w; tty := tty w; fb_hold := fb_hold w; fb_present := fb_present w; umem := umem w |}.
Definition set_sockets f w := {| procs := procs w; file_refs := file_refs w; pipes := pipes w; ptys := ptys w;
  eventfds := eventfds w; timerfds := timerfds w; signalfds := signalfds w; epolls := epolls w;
  sockets := f; tty := tty w; fb_hold := fb_hold w; fb_present := fb_present w; umem := umem w |}.
Definition set_tty f w := {| procs := procs w; file_refs := file_refs w; pipes := pipes w; ptys := ptys w;
  eventfds := eventfds w; timerfds := timerfds w; signalfds := signalfds w; epolls := epolls w;
  sockets := sockets w; tty := f; fb_hold := fb_hold w; fb_present := fb_present w; umem := umem w |}.
Definition set_fb h b w := {| procs := procs w; file_refs := file_refs w; pipes := pipes w; ptys := ptys w;
  eventfds := eventfds w; timerfds := timerfds w; signalfds := signalfds w; epolls := epolls w;
  sockets := sockets w; tty := tty w; fb_hold := h; fb_present := b; umem := umem w |}.
Definition set_umem m w := {| procs := procs w; file_refs := file_refs w; pipes := pipes w; ptys := ptys w;
  eventfds := eventfds w; timerfds := timerfds w; signalfds := signalfds w; epolls := epolls w;
  sockets := sockets w; tty := tty w; fb_hold := fb_hold w; fb_present := fb_present w; umem := m |}.

(** The descriptor [fd] of process slot [pi]. *)
Definition fd_of (w : fdw) (pi fd : Z) : edge_fd := fp_fds (procs w pi) fd.
Definition set_fd (pi fd : Z) (e : edge_fd) (w : fdw) : fdw :=
  set_procs (<[pi := {| fp_pid := fp_pid (procs w pi); fp_fds := <[fd := e]> (fp_fds (procs w pi)) |}]> (procs w)) w.

(** ** Event, timer and signal descriptors, event polls *)

Definition in_range (id max : Z) : bool := (0 <=? id) && (id <? max).

Definition eventfd_alloc_obj (initval : Z) (semaphore : bool) (w : fdw) : fdw * Z :=
  let i := scan (fun i => negb (ev_used (eventfds w i))) 0 64 in
  if i <? 0 then (w, -1)
  else (set_eventfds (<[i := {| ev_used := true; ev_refs := 1; ev_counter := initval;
                                ev_semaphore := semaphore |}]> (eventfds w)) w, i).

Definition eventfd_set_refs (n : Z) (v : edge_eventfd) : edge_eventfd :=
  {| ev_used := ev_used v; ev_refs := n; ev_counter := ev_counter v; ev_semaphore := ev_semaphore v |}.

Definition eventfd_add_ref (id : Z) (w : fdw) : fdw :=
  if in_range id EDGE_MAX_EVENTFDS && ev_used (eventfds w id)
  then set_eventfds (<[id := eventfd_set_refs (ev_refs (eventfds w id) + 1) (eventfds w id)]> (eventfds w)) w
  else w.

Definition eventfd_drop_ref (id : Z) (w : fdw) : fdw :=
  if negb (in_range id EDGE_MAX_EVENTFDS) || negb (ev_used (eventfds w id)) then w
  else
    let n := ev_refs (eventfds w id) - 1 in
    set_eventfds (<[id := if n <=? 0 then zero_eventfd else eventfd_set_refs n (eventfds w id)]> (eventfds w)) w.

Definition timerfd_alloc_obj (clockid : Z) (w : fdw) : fdw * Z :=
  let i := scan (fun i => negb (tf_used (timerfds w i))) 0 64 in
  if i <? 0 then (w, -1)
  else (set_timerfds (<[i := {| tf_used := true; tf_refs := 1; tf_clockid := clockid; tf_active := false;
                                tf_next_us := 0; tf_interval_us := 0 |}]> (timerfds w)) w, i).

Definition timerfd_set_refs (n : Z) (v : edge_timerfd) : edge_timerfd :=
  {| tf_used := tf_used v; tf_refs := n; tf_clockid := tf_clockid v; tf_active := tf_active v;
     tf_next_us := tf_next_us v; tf_interval_us := tf_interval_us v |}.

Definition timerfd_add_ref (id : Z) (w : fdw) : fdw :=
  if in_range id EDGE_MAX_TIMERFDS && tf_used (timerfds w id)
  then set_timerfds (<[id := timerfd_set_refs (tf_refs (timerfds w id) + 1) (timerfds w id)]> (timerfds w)) w
  else w.

Definition timerfd_drop_ref (id : Z) (w : fdw) : fdw :=
  if negb (in_range id EDGE_MAX_TIMERFDS) || negb (tf_used (timerfds w id)) then w
  else
    let n := tf_refs (timerfds w id) - 1 in
    set_timerfds (<[id := if n <=? 0 then zero_timerfd else timerfd_set_refs n (timerfds w id)]> (timerfds w)) w.

Definition signalfd_alloc_obj (mask : Z) (w : fdw) : fdw * Z :=
  let i := scan (fun i => negb (sf_used (signalfds w i))) 0 64 in
  if i <? 0 then (w, -1)
  else (set_signalfds (<[i := {| sf_used := true; sf_refs := 1; sf_mask := mask |}]> (signalfds w)) w, i).

Definition signalfd_set_refs (n : Z) (v : edge_signalfd) : edge_signalfd :=
  {| sf_used := sf_used v; sf_refs := n; sf_mask := sf_mask v |}.

Definition signalfd_add_ref (id : Z) (w : fdw) : fdw :=
  if in_range id EDGE_MAX_SIGNALFDS && sf_used (signalfds w id)
  then set_signalfds (<[id := signalfd_set_refs (sf_refs (signalfds w id) + 1) (signalfds w id)]> (signalfds w)) w
  else w.

Definition signalfd_drop_ref (id : Z) (w : fdw) : fdw :=
  if negb (in_range id EDGE_MAX_SIGNALFDS) || negb (sf_used (signalfds w id)) then w
  else
    let n := sf_refs (signalfds w id) - 1 in
    set_signalfds (<[id := if n <=? 0 then zero_signalfd else signalfd_set_refs n (signalfds w id)]> (signalfds w)) w.

Definition epoll_alloc_obj (w : fdw) : fdw * Z :=
  let i := scan (fun i => negb (ep_used (epolls w i))) 0 32 in
  if i <? 0 then (w, -1)
  else (set_epolls (<[i := {| ep_used := true; ep_refs := 1; ep_watch := [] |}]> (epolls w)) w, i).

Definition epoll_set_refs (n : Z) (v : edge_epoll) : edge_epoll :=
  {| ep_used := ep_used v; ep_refs := n; ep_watch := ep_watch v |}.

Definition epoll_add_ref (id : Z) (w : fdw) : fdw :=
  if in_range id EDGE_MAX_EPOLLS && ep_used (epolls w id)
  then set_epolls (<[id := epoll_set_refs (ep_refs (epolls w id) + 1) (epolls w id)]> (epolls w)) w
  else w.

Definition epoll_drop_ref (id : Z) (w : fdw) : fdw :=
  if negb (in_range id EDGE_MAX_EPOLLS) || negb (ep_used (epolls w id)) then w
  else
    let n := ep_refs (epolls w id) - 1 in
    set_epolls (<[id := if n <=? 0 then zero_epoll else epoll_set_refs n (epolls w id)]> (epolls w)) w.

(** ** References to open files *)

Definition file_ref_alloc (w : fdw) : fdw * Z :=
  let i := scan (fun i => negb (r_used (file_refs w i))) 1 (Z.to_nat (EDGE_MAX_FILE_REFS - 1)) in
  if i <? 0 then (w, 0)
  else (set_refs (<[i := {| r_used := true; r_refs := 1 |}]> (file_refs w)) w, i).

Definition file_ref_get (id : Z) (w : fdw) : fdw * Z :=
  if (id <=? 0) || (EDGE_MAX_FILE_REFS <=? id) then (w, -1)
  else if negb (r_used (file_refs w id)) || (r_refs (file_refs w id) <=? 0) then (w, -1)
  else (set_refs (<[id := {| r_used := true; r_refs := r_refs (file_refs w id) + 1 |}]> (file_refs w)) w, 0).

Definition file_ref_put (id : Z) (w : fdw) : fdw * Z :=
  if (id <=? 0) || (EDGE_MAX_FILE_REFS <=? id) then (w, -1)
  else if negb (r_used (file_refs w id)) || (r_refs (file_refs w id) <=? 0) then (w, -1)
  else
    let n := r_refs (file_refs w id) - 1 in
    (set_refs (<[id := {| r_used := negb (n =? 0); r_refs := n |}]> (file_refs w)) w, n).

(** ** Pipes *)

Definition pipe_alloc (w : fdw) : fdw * Z :=
  let i := scan (fun i => negb (p_used (pipes w i))) 0 32 in
  if i <? 0 then (w, -1)
  else (set_pipes (<[i := {| p_used := true; p_readers := 0; p_writers := 0; p_rpos := 0; p_wpos := 0;
                             p_count := 0; p_buf := fun _ => 0 |}]> (pipes w)) w, i).

Definition pipe_ends (r n : Z) (p : edge_pipe) : edge_pipe :=
  {| p_used := p_used p; p_readers := r; p_writers := n; p_rpos := p_rpos p; p_wpos := p_wpos p;
     p_count := p_count p; p_buf := p_buf p |}.

(** The end of both drops: the last descriptor frees the pipe. *)
Definition pipe_free_if_closed (p : edge_pipe) : edge_pipe :=
  if (p_readers p =? 0) && (p_writers p =? 0) then zero_pipe else p.

Definition pipe_drop_reader (id : Z) (w : fdw) : fdw :=
  if negb (in_range id EDGE_MAX_PIPES) then w
  else
    let p := pipes w id in
    if negb (p_used p) then w
    else
      let p := if 0 <? p_readers p then pipe_ends (p_readers p - 1) (p_writers p) p else p in
      set_pipes (<[id := pipe_free_if_closed p]> (pipes w)) w.

Definition pipe_drop_writer (id : Z) (w : fdw) : fdw :=
  if negb (in_range id EDGE_MAX_PIPES) then w
  else
    let p := pipes w id in
    if negb (p_used p) then w
    else
      let p := if 0 <? p_writers p then pipe_ends (p_readers p) (p_writers p - 1) p else p in
      set_pipes (<[id := pipe_free_if_closed p]> (pipes w)) w.

(** ** Pseudo-terminals *)

Definition pty_alloc (w : fdw) : fdw * Z :=
  let i := scan (fun i => negb (y_used (ptys w i))) 0 16 in
  if i <? 0 then (w, -1)
  else (set_ptys (<[i := {| y_used := true; y_refs_master := 1; y_refs_slave := 0; y_unlocked := 0;
                            y_fg_pgid := 0; y_termios := termios_init_sane;
                            y_winsz := {| ws_row := 25; ws_col := 80; ws_xpixel := 0; ws_ypixel := 0 |};
                            m2s := zero_ring; s2m := zero_ring |}]> (ptys w)) w, i).

Definition pty_refs (a b : Z) (y : edge_pty) : edge_pty :=
  {| y_used := y_used y; y_refs_master := a; y_refs_slave := b; y_unlocked := y_unlocked y;
     y_fg_pgid := y_fg_pgid y; y_termios := y_termios y; y_winsz := y_winsz y; m2s := m2s y; s2m := s2m y |}.

Definition pty_add_ref (id : Z) (is_master : bool) (w : fdw) : fdw :=
  if negb (in_range id EDGE_MAX_PTYS) || negb (y_used (ptys w id)) then w
  else
    let y := ptys w id in
    set_ptys (<[id := if is_master then pty_refs (y_refs_master y + 1) (y_refs_slave y) y
                      else pty_refs (y_refs_master y) (y_refs_slave y + 1) y]> (ptys w)) w.

Definition pty_drop_ref (id : Z) (is_master : bool) (w : fdw) : fdw :=
  if negb (in_range id EDGE_MAX_PTYS) || negb (y_used (ptys w id)) then w
  else
    let y := ptys w id in
    let y := if is_master
             then if 0 <? y_refs_master y then pty_refs (y_refs_master y - 1) (y_refs_slave y) y else y
             else if 0 <? y_refs_slave y then pty_refs (y_refs_master y) (y_refs_slave y - 1) y else y in
    set_ptys (<[id := if (y_refs_master y <=? 0) && (y_refs_slave y <=? 0) then zero_pty else y]> (ptys w)) w.
End fd.

Arguments fdw : clear implicits.
