(* ===== verification/FdOps.v ===== *)
(** * Calls on file descriptors ([src/src/sys/syscall.c])

    The descriptor table of a process and the calls that create, copy and close
    descriptors. The process is [me], the result of [process_getpid]; a result
    below zero is the negated error number, the code's [(uint64_t)-E...]. *)

From S2P Require Import Prelude CString Path Process Uaccess Vfs Fd.

Definition LINUX_F_DUPFD : Z := 0.
Definition LINUX_F_GETFD : Z := 1.
Definition LINUX_F_SETFD : Z := 2.
Definition LINUX_F_GETFL : Z := 3.
Definition LINUX_F_SETFL : Z := 4.
Definition LINUX_F_GETLK : Z := 5.
Definition LINUX_F_SETLK : Z := 6.
Definition LINUX_F_SETLKW : Z := 7.
Definition LINUX_F_DUPFD_CLOEXEC : Z := 1030.
Definition LINUX_F_UNLCK : Z := 2.
Definition LINUX_EFD_SEMAPHORE : Z := 1.
Definition PROCESS_CTTY_PTY : Z := 2.
Definition CLOCK_REALTIME : Z := 0.
Definition CLOCK_MONOTONIC : Z := 1.

(** What [fd_proc_release] reads of the task: its group and controlling terminal. *)
Record task_tty := { k_pgid : Z; k_ctty_kind : Z; k_ctty_id : Z }.

Definition path_is_console_tty (p : path) : bool :=
  if test (p = []) then false
  else if test (p = str "/dev/tty") then true
  else if test (p = str "/dev/console") then true
  else if test (take 8 p = str "/dev/tty") then
    let n := drop 8 p in
    if test (n = []) then false else forallb (fun c => (chr "0" <=? c) && (c <=? chr "9")) n
  else false.

Definition path_is_mouse_input (p : path) : bool :=
  test (p = str "/dev/input/mice") || test (p = str "/dev/input/mouse0").

Section fd.
Context {SK : Type} `{!sock_layer SK}.
Implicit Types (w : fdw SK).

(** ** The table of a process *)

(** [slot] is the first free slot seen, [None] when none is wanted or found. *)
Fixpoint find_proc (n : nat) (i pid : Z) (create : bool) w (slot : option Z) : option Z * option Z :=
  match n with
  | O => (None, slot)
  | S n =>
      if fp_pid (procs w i) =? pid then (Some i, slot)
      else find_proc n (i + 1) pid create w
             (if create && (fp_pid (procs w i) =? 0) && negb (test (is_Some slot)) then Some i else slot)
  end.

Definition console_fd (ref flags : Z) (e : edge_fd) : edge_fd :=
  {| f_used := true; f_kind := FD_CONSOLE; f_ref := ref; f_flags := flags; f_fdflags := 0;
     f_pos := f_pos e; f_inode := f_inode e; f_sb := f_sb e; f_path := f_path e; f_obj := -1 |}.

(** One of the three parts of [fd_ensure_stdio]; [false] when it returns early. *)
Definition ensure_console (pi fd flags : Z) w : fdw SK * bool :=
  if f_used (fd_of w pi fd) then (w, true)
  else
    let '(w, ref) := file_ref_alloc w in
    if ref =? 0 then (w, false)
    else (set_fd pi fd (console_fd ref flags (fd_of w pi fd)) w, true).

Definition fd_ensure_stdio (pi : Z) w : fdw SK :=
  let '(w, ok) := ensure_console pi 0 0 w in
  if negb ok then w
  else
    let '(w, ok) := ensure_console pi 1 LINUX_O_WRONLY w in
    if negb ok then w
    else fst (ensure_console pi 2 LINUX_O_WRONLY w).

Definition fd_proc_for_pid (pid : Z) (create : bool) w : fdw SK * option Z :=
  match find_proc 64 0 pid create w None with
  | (Some i, _) => (w, Some i)
  | (None, None) => (w, None)
  | (None, Some i) =>
      (fd_ensure_stdio i (set_procs (<[i := {| fp_pid := pid; fp_fds := fun _ => zero_fd |}]> (procs w)) w), Some i)
  end.

Definition fd_proc_with_stdio (me : Z) w : fdw SK * option Z :=
  match fd_proc_for_pid me true w with
  | (w, None) => (w, None)
  | (w, Some p) => (fd_ensure_stdio p w, Some p)
  end.

Definition used_fd : edge_fd :=
  {| f_used := true; f_kind := FD_NONE; f_ref := 0; f_flags := 0; f_fdflags := 0; f_pos := 0;
     f_inode := no_inode; f_sb := None; f_path := []; f_obj := 0 |}.

Definition fd_alloc (p minfd : Z) w : fdw SK * Z :=
  let minfd := if minfd <? 0 then 0 else minfd in
  let i := scan (fun i => negb (f_used (fd_of w p i))) minfd (Z.to_nat (EDGE_MAX_FD - minfd)) in
  if i <? 0 then (w, -1) else (set_fd p i used_fd w, i).

(** The descriptor is open; [p] is the slot of the process, if it has one. *)
Definition fd_get (p : option Z) (fd : Z) w : option (Z * edge_fd) :=
  match p with
  | None => None
  | Some p =>
      if (fd <? 0) || (EDGE_MAX_FD <=? fd) then None
      else if negb (f_used (fd_of w p fd)) then None
      else Some (p, fd_of w p fd)
  end.

(** ** What a descriptor holds *)

(** The tests on [kind] that copy a descriptor. *)
Definition add_obj (e : edge_fd) w : fdw SK :=
  match f_kind e with
  | FD_PIPE_R =>
      if in_range (f_obj e) EDGE_MAX_PIPES
      then set_pipes (<[f_obj e := pipe_ends (p_readers (pipes w (f_obj e)) + 1) (p_writers (pipes w (f_obj e)))
                                     (pipes w (f_obj e))]> (pipes w)) w
      else w
  | FD_PIPE_W =>
      if in_range (f_obj e) EDGE_MAX_PIPES
      then set_pipes (<[f_obj e := pipe_ends (p_readers (pipes w (f_obj e))) (p_writers (pipes w (f_obj e)) + 1)
                                     (pipes w (f_obj e))]> (pipes w)) w
      else w
  | FD_SOCKET => if in_range (f_obj e) EDGE_MAX_SOCKETS then set_sockets (socket_add_ref (f_obj e) (sockets w)) w else w
  | FD_PTY_MASTER => if in_range (f_obj e) EDGE_MAX_PTYS then pty_add_ref (f_obj e) true w else w
  | FD_PTY_SLAVE => if in_range (f_obj e) EDGE_MAX_PTYS then pty_add_ref (f_obj e) false w else w
  | FD_EVENTFD => eventfd_add_ref (f_obj e) w
  | FD_TIMERFD => timerfd_add_ref (f_obj e) w
  | FD_SIGNALFD => signalfd_add_ref (f_obj e) w
  | FD_EPOLL => epoll_add_ref (f_obj e) w
  | _ => w
  end.

(** The tests on [kind] that close a descriptor. *)
Definition drop_obj (e : edge_fd) w : fdw SK :=
  match f_kind e with
  | FD_PIPE_R => pipe_drop_reader (f_obj e) w
  | FD_PIPE_W => pipe_drop_writer (f_obj e) w
  | FD_SOCKET => set_sockets (socket_drop_ref (f_obj e) (sockets w)) w
  | FD_PTY_MASTER => pty_drop_ref (f_obj e) true w
  | FD_PTY_SLAVE => pty_drop_ref (f_obj e) false w
  | FD_EVENTFD => eventfd_drop_ref (f_obj e) w
  | FD_TIMERFD => timerfd_drop_ref (f_obj e) w
  | FD_SIGNALFD => signalfd_drop_ref (f_obj e) w
  | FD_EPOLL => epoll_drop_ref (f_obj e) w
  | _ => w
  end.

Definition put_ref (e : edge_fd) w : fdw SK := if 0 <? f_ref e then fst (file_ref_put (f_ref e) w) else w.

Definition release_fb (e : edge_fd) w : fdw SK :=
  if test (f_kind e = FD_VFS) && test (f_path e = str "/dev/fb0") && (0 <? fb_hold w)
  then set_fb (fb_hold w - 1) (if fb_hold w - 1 =? 0 then true else fb_present w) w
  else w.

Definition do_sys_close (me fd_u : Z) w : fdw SK * Z :=
  let fd := i32 fd_u in
  let p := snd (fd_proc_for_pid me false w) in
  match fd_get p fd w with
  | None => (w, - EBADF)
  | Some (p, e) => (set_fd p fd zero_fd (release_fb e (drop_obj e (put_ref e w))), 0)
  end.

(** ** Release and fork *)

Definition reset_line (pgid : option Z) (t : console_tty) : console_tty :=
  {| t_termios := termios_init_sane; t_linebuf := []; t_line_pos := 0;
     t_foreground_pgid :=
       if (if pgid is Some g then (0 <? g) && (t_foreground_pgid t =? g) else false) then 0
       else t_foreground_pgid t |}.

Definition pty_reset (pgid : option Z) (y : edge_pty) : edge_pty :=
  {| y_used := y_used y; y_refs_master := y_refs_master y; y_refs_slave := y_refs_slave y;
     y_unlocked := y_unlocked y;
     y_fg_pgid := if (if pgid is Some g then (0 <? g) && (y_fg_pgid y =? g) else false) then 0 else y_fg_pgid y;
     y_termios := termios_init_sane; y_winsz := y_winsz y; m2s := m2s y; s2m := s2m y |}.

(** [reset_pty_ids]: the terminals the process controls or has open. *)
Definition pty_to_reset (t : option task_tty) (fds : Z -> edge_fd) (id : Z) : bool :=
  (if t is Some t then negb (k_ctty_kind t =? PROCESS_CTTY_CONSOLE) && (k_ctty_kind t =? PROCESS_CTTY_PTY) &&
                       (k_ctty_id t =? id) else false) ||
  (0 <=? scan (fun i => f_used (fds i) && (test (f_kind (fds i) = FD_PTY_MASTER) || test (f_kind (fds i) = FD_PTY_SLAVE)) &&
                        (f_obj (fds i) =? id)) 0 64).

Fixpoint reset_ptys (n : nat) (id : Z) (t : option task_tty) (fds : Z -> edge_fd) w : fdw SK :=
  match n with
  | O => w
  | S n =>
      reset_ptys n (id + 1) t fds
        (if pty_to_reset t fds id && y_used (ptys w id)
         then set_ptys (<[id := pty_reset (k_pgid <$> t) (ptys w id)]> (ptys w)) w else w)
  end.

(** The loop that drops every open descriptor. *)
Fixpoint release_fds (n : nat) (i p : Z) w : fdw SK :=
  match n with
  | O => w
  | S n =>
      release_fds n (i + 1) p
        (if f_used (fd_of w p i) then drop_obj (fd_of w p i) (put_ref (fd_of w p i) w) else w)
  end.

(** The console is reset on every release ([reset_console_tty] starts as 1). *)
Definition fd_proc_release (pid : Z) (t : option task_tty) w : fdw SK :=
  match snd (fd_proc_for_pid pid false w) with
  | None => w
  | Some p =>
      let w := set_tty (reset_line (k_pgid <$> t) (tty w)) w in
      let w := reset_ptys 16 0 t (fp_fds (procs w p)) w in
      let w := release_fds 64 0 p w in
      set_procs (<[p := {| fp_pid := 0; fp_fds := fun _ => zero_fd |}]> (procs w)) w
  end.

Definition fd_proc_has_pty_fd (pid : Z) w : bool :=
  match snd (fd_proc_for_pid pid false w) with
  | None => false
  | Some p => 0 <=? scan (fun i => f_used (fd_of w p i) &&
                (test (f_kind (fd_of w p i) = FD_PTY_MASTER) || test (f_kind (fd_of w p i) = FD_PTY_SLAVE))) 0 64
  end.

Fixpoint clone_loop (n : nat) (i par child : Z) w : fdw SK :=
  match n with
  | O => w
  | S n =>
      let e := fd_of w par i in
      clone_loop n (i + 1) par child
        (if negb (f_used e) then w
         else
           let w := set_fd child i e w in
           if 0 <? f_ref e then
             match file_ref_get (f_ref e) w with
             | (w, r) => if r <? 0 then set_fd child i zero_fd w else add_obj e w
             end
           else add_obj e w)
  end.

Definition fd_clone_after_fork (parent_pid child_pid : Z) w : fdw SK :=
  match snd (fd_proc_for_pid parent_pid false w) with
  | None => w
  | Some par =>
      if child_pid <=? 0 then w
      else
        match fd_proc_for_pid child_pid true w with
        | (w, None) => w
        | (w, Some child) =>
            let w := set_procs (<[child := {| fp_pid := fp_pid (procs w child); fp_fds := fun _ => zero_fd |}]> (procs w)) w in
            clone_loop 64 0 par child w
        end
  end.

(** ** Copies of a descriptor *)

Definition with_fdflags (f : Z) (e : edge_fd) : edge_fd :=
  {| f_used := f_used e; f_kind := f_kind e; f_ref := f_ref e; f_flags := f_flags e; f_fdflags := f;
     f_pos := f_pos e; f_inode := f_inode e; f_sb := f_sb e; f_path := f_path e; f_obj := f_obj e |}.
Definition with_flags (f : Z) (e : edge_fd) : edge_fd :=
  {| f_used := f_used e; f_kind := f_kind e; f_ref := f_ref e; f_flags := f; f_fdflags := f_fdflags e;
     f_pos := f_pos e; f_inode := f_inode e; f_sb := f_sb e; f_path := f_path e; f_obj := f_obj e |}.

(** The descriptor [nfd] receives a copy of [e], whose references it takes. *)
Definition install_copy (p nfd fdflags : Z) (e : edge_fd) w : fdw SK * Z :=
  let w := set_fd p nfd e w in
  if f_ref e <=? 0 then (set_fd p nfd zero_fd w, - ENOMEM)
  else
    let '(w, r) := file_ref_get (f_ref e) w in
    if r <? 0 then (set_fd p nfd zero_fd w, - ENOMEM)
    else (add_obj e (set_fd p nfd (with_fdflags fdflags e) w), nfd).

Definition clear_bits (x m : Z) : Z := Z.land x (Z.lnot m).

Definition fcntl_dupfd (p : Z) (cloexec : bool) (minfd : Z) (e : edge_fd) w : fdw SK * Z :=
  let '(w, nfd) := fd_alloc p minfd w in
  if nfd <? 0 then (w, - ENOMEM)
  else install_copy p nfd (if cloexec then Z.lor (f_fdflags e) LINUX_FD_CLOEXEC
                           else clear_bits (f_fdflags e) LINUX_FD_CLOEXEC) e w.

Definition fcntl_setfl (p fd arg : Z) (e : edge_fd) w : fdw SK * Z :=
  let fl := Z.lor (Z.land (f_flags e) LINUX_O_ACCMODE) (clear_bits (i32 arg) LINUX_O_ACCMODE) in
  let w := set_fd p fd (with_flags fl e) w in
  (if test (f_kind e = FD_SOCKET) && in_range (f_obj e) EDGE_MAX_SOCKETS
   then set_sockets (socket_set_nonblock (f_obj e) (flag fl LINUX_O_NONBLOCK) (sockets w)) w else w, 0).

(** [l_type] is the first field of the 32 bytes of [struct edge_linux_flock],
    [l_pid] is at offset 24. *)
Definition fcntl_getlk (arg : Z) w : fdw SK * Z :=
  if arg =? 0 then (w, - EINVAL)
  else
    match copy_from_user (umem w) arg 32 with
    | None => (w, - EFAULT)
    | Some fl =>
        let fl := le_bytes 2 LINUX_F_UNLCK ++ take 22 (drop 2 fl) ++ le_bytes 4 0 ++ drop 28 fl in
        match copy_to_user (umem w) arg fl with
        | None => (w, - EFAULT)
        | Some m => (set_umem m w, 0)
        end
    end.

Definition do_sys_fcntl (me fd_u cmd_u arg_u : Z) w : fdw SK * Z :=
  let fd := i32 fd_u in
  let cmd := i32 cmd_u in
  let '(w, p) := fd_proc_with_stdio me w in
  match fd_get p fd w with
  | None => (w, - EBADF)
  | Some (p, e) =>
      if (cmd =? LINUX_F_DUPFD) || (cmd =? LINUX_F_DUPFD_CLOEXEC) then
        fcntl_dupfd p (cmd =? LINUX_F_DUPFD_CLOEXEC) (i32 arg_u) e w
      else if cmd =? LINUX_F_GETFD then (w, Z.land (f_fdflags e) LINUX_FD_CLOEXEC)
      else if cmd =? LINUX_F_SETFD then (set_fd p fd (with_fdflags (Z.land arg_u LINUX_FD_CLOEXEC) e) w, 0)
      else if cmd =? LINUX_F_GETFL then (w, f_flags e)
      else if cmd =? LINUX_F_SETFL then fcntl_setfl p fd arg_u e w
      else if (cmd =? LINUX_F_SETLK) || (cmd =? LINUX_F_SETLKW) then (w, 0)
      else if cmd =? LINUX_F_GETLK then fcntl_getlk arg_u w
      else (w, - ENOSYS)
  end.

Definition do_sys_dup (me fd_u : Z) w : fdw SK * Z := do_sys_fcntl me fd_u LINUX_F_DUPFD 0 w.

Definition do_sys_dup2 (me oldfd_u newfd_u : Z) w : fdw SK * Z :=
  let oldfd := i32 oldfd_u in
  let newfd := i32 newfd_u in
  let '(w, p) := fd_proc_with_stdio me w in
  match fd_get p oldfd w with
  | None => (w, - EBADF)
  | Some (p, _) =>
      if (newfd <? 0) || (EDGE_MAX_FD <=? newfd) then (w, - EBADF)
      else if oldfd =? newfd then (w, newfd)
      else
        let w := if f_used (fd_of w p newfd) then fst (do_sys_close me newfd w) else w in
        let e := fd_of w p oldfd in
        install_copy p newfd (clear_bits (f_fdflags e) LINUX_FD_CLOEXEC) e w
  end.

Definition do_sys_dup3 (me oldfd_u newfd_u flags_u : Z) w : fdw SK * Z :=
  let flags := i32 flags_u in
  if negb (clear_bits flags LINUX_O_CLOEXEC =? 0) then (w, - EINVAL)
  else if i32 oldfd_u =? i32 newfd_u then (w, - EINVAL)
  else
    let '(w, r) := do_sys_dup2 me oldfd_u newfd_u w in
    if r <? 0 then (w, r)
    else if flag flags LINUX_O_CLOEXEC then
      let '(w, p) := fd_proc_with_stdio me w in
      match fd_get p r w with
      | Some (p, e) => (set_fd p r (with_fdflags (Z.lor (f_fdflags e) LINUX_FD_CLOEXEC) e) w, r)
      | None => (w, r)
      end
    else (w, r).

(** ** New descriptors *)

Definition end_fd (kind : edge_fd_kind) (ref obj flags fdflags : Z) : edge_fd :=
  {| f_used := true; f_kind := kind; f_ref := ref; f_flags := flags; f_fdflags := fdflags; f_pos := 0;
     f_inode := no_inode; f_sb := None; f_path := []; f_obj := obj |}.

Definition free_pipe (id : Z) w : fdw SK := set_pipes (<[id := zero_pipe]> (pipes w)) w.

(** The two ends: a reference and the fields of each. *)
Definition open_ends (p id rfd wfd flags : Z) w : fdw SK * bool :=
  let nb := if flag flags LINUX_O_NONBLOCK then LINUX_O_NONBLOCK else 0 in
  let ce := if flag flags LINUX_O_CLOEXEC then LINUX_FD_CLOEXEC else 0 in
  let '(w, r1) := file_ref_alloc w in
  if r1 =? 0 then (free_pipe id (set_fd p wfd zero_fd (set_fd p rfd zero_fd w)), false)
  else
    let w := set_fd p rfd (end_fd FD_PIPE_R r1 id nb ce) w in
    let '(w, r2) := file_ref_alloc w in
    if r2 =? 0 then
      let w := fst (file_ref_put r1 w) in
      (free_pipe id (set_fd p wfd zero_fd (set_fd p rfd zero_fd w)), false)
    else
      let w := set_fd p wfd (end_fd FD_PIPE_W r2 id (Z.lor LINUX_O_WRONLY nb) ce) w in
      (set_pipes (<[id := pipe_ends (p_readers (pipes w id) + 1) (p_writers (pipes w id) + 1) (pipes w id)]> (pipes w)) w,
       true).

(** The two smallest free descriptors, or neither. *)
Definition pipe_places (p id : Z) w : fdw SK * option (Z * Z) :=
  let '(w, rfd) := fd_alloc p 0 w in
  if rfd <? 0 then (free_pipe id w, None)
  else
    let '(w, wfd) := fd_alloc p 0 w in
    if wfd <? 0 then (free_pipe id (set_fd p rfd zero_fd w), None) else (w, Some (rfd, wfd)).

(** The numbers are written to the caller; both ends are closed when that
    fails. *)
Definition pipe_report (me pipefd_u rfd wfd : Z) w : fdw SK * Z :=
  match copy_to_user (umem w) pipefd_u (le_bytes 4 rfd ++ le_bytes 4 wfd) with
  | Some m => (set_umem m w, 0)
  | None => (fst (do_sys_close me wfd (fst (do_sys_close me rfd w))), - EFAULT)
  end.

Definition do_sys_pipe (me pipefd_u flags_u : Z) w : fdw SK * Z :=
  let flags := i32 flags_u in
  if negb (clear_bits flags (Z.lor LINUX_O_CLOEXEC LINUX_O_NONBLOCK) =? 0) then (w, - EINVAL)
  else
    let '(w, p) := fd_proc_with_stdio me w in
    match p with
    | None => (w, - ENOMEM)
    | Some p =>
        let '(w, id) := pipe_alloc w in
        if id <? 0 then (w, - ENOMEM)
        else
          let '(w, places) := pipe_places p id w in
          match places with
          | None => (w, - ENOMEM)
          | Some (rfd, wfd) =>
              let '(w, ok) := open_ends p id rfd wfd flags w in
              if negb ok then (w, - ENOMEM) else pipe_report me pipefd_u rfd wfd w
          end
    end.

Definition alloc_special_fd (me : Z) (kind : edge_fd_kind) (obj flags : Z) w : fdw SK * Z :=
  let '(w, p) := fd_proc_with_stdio me w in
  match p with
  | None => (w, - ENOMEM)
  | Some p =>
      let '(w, fd) := fd_alloc p 0 w in
      if fd <? 0 then (w, - ENOMEM)
      else
        let '(w, ref) := file_ref_alloc w in
        if ref =? 0 then (set_fd p fd zero_fd w, - ENOMEM)
        else
          let fl := Z.land flags (Z.lor (Z.lor LINUX_O_NONBLOCK LINUX_O_RDWR) LINUX_O_WRONLY) in
          (set_fd p fd (end_fd kind ref obj fl (if flag flags LINUX_O_CLOEXEC then LINUX_FD_CLOEXEC else 0)) w, fd)
  end.

Definition object_flags (flags : Z) : Z := Z.land flags (Z.lor LINUX_O_NONBLOCK LINUX_O_CLOEXEC).

Definition do_sys_eventfd2 (me initval_u flags_u : Z) w : fdw SK * Z :=
  let flags := i32 flags_u in
  if negb (clear_bits flags (Z.lor (Z.lor LINUX_EFD_SEMAPHORE LINUX_O_NONBLOCK) LINUX_O_CLOEXEC) =? 0)
  then (w, - EINVAL)
  else
    let '(w, id) := eventfd_alloc_obj (u32 initval_u) (flag flags LINUX_EFD_SEMAPHORE) w in
    if id <? 0 then (w, - ENOMEM)
    else
      let '(w, fd) := alloc_special_fd me FD_EVENTFD id (object_flags flags) w in
      (if fd <? 0 then eventfd_drop_ref id w else w, fd).

Definition do_sys_eventfd (me initval_u : Z) : fdw SK -> fdw SK * Z := do_sys_eventfd2 me initval_u 0.

Definition do_sys_timerfd_create (me clockid_u flags_u : Z) w : fdw SK * Z :=
  let clockid := i32 clockid_u in
  let flags := i32 flags_u in
  if negb ((clockid =? CLOCK_REALTIME) || (clockid =? CLOCK_MONOTONIC)) then (w, - EINVAL)
  else if negb (clear_bits flags (Z.lor LINUX_O_NONBLOCK LINUX_O_CLOEXEC) =? 0) then (w, - EINVAL)
  else
    let '(w, id) := timerfd_alloc_obj clockid w in
    if id <? 0 then (w, - ENOMEM)
    else
      let '(w, fd) := alloc_special_fd me FD_TIMERFD id (object_flags flags) w in
      (if fd <? 0 then timerfd_drop_ref id w else w, fd).

Definition do_sys_signalfd4 (me fd_u mask_u siz_u flags_u : Z) w : fdw SK * Z :=
  let '(w, p) := fd_proc_with_stdio me w in
  let flags := i32 flags_u in
  if (mask_u =? 0) || (siz_u <? 8) then (w, - EINVAL)
  else
    match copy_from_user (umem w) mask_u 8 with
    | None => (w, - EFAULT)
    | Some bs =>
        let mask := le_val bs in
        if negb (clear_bits flags (Z.lor LINUX_O_NONBLOCK LINUX_O_CLOEXEC) =? 0) then (w, - EINVAL)
        else if i32 fd_u =? -1 then
          let '(w, id) := signalfd_alloc_obj mask w in
          if id <? 0 then (w, - ENOMEM)
          else
            let '(w, fd) := alloc_special_fd me FD_SIGNALFD id (object_flags flags) w in
            (if fd <? 0 then signalfd_drop_ref id w else w, fd)
        else
          match fd_get p (i32 fd_u) w with
          | None => (w, - EBADF)
          | Some (p, e) =>
              if negb (test (f_kind e = FD_SIGNALFD)) then (w, - EBADF)
              else if negb (in_range (f_obj e) EDGE_MAX_SIGNALFDS) || negb (sf_used (signalfds w (f_obj e)))
              then (w, - EBADF)
              else
                let sf := signalfds w (f_obj e) in
                let w := set_signalfds (<[f_obj e := {| sf_used := sf_used sf; sf_refs := sf_refs sf; sf_mask := mask |}]>
                                          (signalfds w)) w in
                let e := with_flags (Z.lor (clear_bits (f_flags e) LINUX_O_NONBLOCK) (Z.land flags LINUX_O_NONBLOCK)) e in
                let e := if flag flags LINUX_O_CLOEXEC then with_fdflags (Z.lor (f_fdflags e) LINUX_FD_CLOEXEC) e else e in
                (set_fd p (i32 fd_u) e w, fd_u)
          end
    end.

Definition do_sys_signalfd (me fd_u mask_u siz_u : Z) : fdw SK -> fdw SK * Z := do_sys_signalfd4 me fd_u mask_u siz_u 0.

Definition do_sys_epoll_create1 (me flags_u : Z) w : fdw SK * Z :=
  let flags := i32 flags_u in
  if negb (clear_bits flags LINUX_O_CLOEXEC =? 0) then (w, - EINVAL)
  else
    let '(w, id) := epoll_alloc_obj w in
    if id <? 0 then (w, - ENOMEM)
    else
      let '(w, fd) := alloc_special_fd me FD_EPOLL id (Z.land flags LINUX_O_CLOEXEC) w in
      (if fd <? 0 then epoll_drop_ref id w else w, fd).

Definition do_sys_epoll_create (me size_u : Z) w : fdw SK * Z :=
  if i32 size_u <=? 0 then (w, - EINVAL) else do_sys_epoll_create1 me 0 w.
End fd.
