(* ===== verification/FdInv.v ===== *)
(** * Reference counts of descriptors

    In every state that the calls of [FdOps.v] reach, the count of an object (the
    readers and the writers of a pipe, the ends of a pseudo-terminal, the
    references of an event, timer or signal descriptor or of an event poll) is
    the number of open descriptors that name it, over all processes; an object
    lives exactly as long as one of them is open. The references of open files
    are at least the descriptors that hold them. *)

From S2P Require Import Prelude CString Path Process Uaccess Vfs Fd FdOps.

(** ** Sums over the tables *)

Fixpoint sumn (n : nat) (f : Z -> Z) : Z :=
  match n with
  | O => 0
  | S n => sumn n f + f (Z.of_nat n)
  end.

Lemma sumn_ext n f g : (forall i, 0 <= i < Z.of_nat n -> f i = g i) -> sumn n f = sumn n g.
Proof.
  induction n as [|n IH]; intros H; simpl; [done|]. rewrite IH by (intros; apply H; lia).
  rewrite H by lia. done.
Qed.

Lemma sumn_nonneg n f : (forall i, 0 <= i < Z.of_nat n -> 0 <= f i) -> 0 <= sumn n f.
Proof.
  induction n as [|n IH]; intros H; simpl; [lia|].
  assert (0 <= sumn n f) by (apply IH; intros; apply H; lia). pose proof (H (Z.of_nat n)). lia.
Qed.

(** Changing one term. *)
Lemma sumn_change n f g j :
  0 <= j < Z.of_nat n -> (forall i, 0 <= i < Z.of_nat n -> i <> j -> g i = f i) ->
  sumn n g = sumn n f + g j - f j.
Proof.
  induction n as [|n IH]; intros Hj H; simpl; [lia|].
  destruct (decide (j = Z.of_nat n)) as [->|Hne].
  - rewrite (sumn_ext n g f); [lia|]. intros i Hi. apply H; lia.
  - rewrite IH; [|lia | intros; apply H; lia]. rewrite (H (Z.of_nat n)) by lia. lia.
Qed.

Lemma sumn_zero n f : (forall i, 0 <= i < Z.of_nat n -> f i = 0) -> sumn n f = 0.
Proof.
  intros H. rewrite (sumn_ext n f (fun _ => 0)) by done. clear H. induction n; simpl; lia.
Qed.

Lemma sumn_ge n f j :
  0 <= j < Z.of_nat n -> (forall i, 0 <= i < Z.of_nat n -> 0 <= f i) -> f j <= sumn n f.
Proof.
  induction n as [|n IH]; intros Hj H; simpl; [lia|].
  destruct (decide (j = Z.of_nat n)) as [->|].
  - assert (0 <= sumn n f) by (apply sumn_nonneg; intros; apply H; lia). lia.
  - assert (f j <= sumn n f) by (apply IH; [lia | intros; apply H; lia]). pose proof (H (Z.of_nat n)). lia.
Qed.

Lemma sumn_le n m f : (n <= m)%nat -> (forall i, 0 <= i < Z.of_nat m -> 0 <= f i) -> sumn n f <= sumn m f.
Proof.
  intros Hnm H. induction Hnm as [|m Hnm IH]; [lia|]. simpl.
  pose proof (H (Z.of_nat m) ltac:(lia)). assert (sumn n f <= sumn m f) by (apply IH; intros; apply H; lia). lia.
Qed.

(** ** Objects and their counts *)

Definition limit (k : edge_fd_kind) : option Z :=
  match k with
  | FD_PIPE_R | FD_PIPE_W => Some EDGE_MAX_PIPES
  | FD_PTY_MASTER | FD_PTY_SLAVE => Some EDGE_MAX_PTYS
  | FD_EVENTFD => Some EDGE_MAX_EVENTFDS
  | FD_TIMERFD => Some EDGE_MAX_TIMERFDS
  | FD_SIGNALFD => Some EDGE_MAX_SIGNALFDS
  | FD_EPOLL => Some EDGE_MAX_EPOLLS
  | _ => None
  end.

(** [id] names an object of kind [k]. *)
Definition object (k : edge_fd_kind) (id : Z) : Prop := exists n, limit k = Some n /\ 0 <= id < n.

(** One when the descriptor names the object, or holds the reference. *)
Definition holds (k : edge_fd_kind) (id : Z) (e : edge_fd) : Z :=
  if f_used e && test (f_kind e = k) && (f_obj e =? id) then 1 else 0.
Definition holds_ref (r : Z) (e : edge_fd) : Z := if f_used e && (f_ref e =? r) then 1 else 0.

Definition good_fd (e : edge_fd) : Prop :=
  f_used e = true -> (limit (f_kind e) <> None -> object (f_kind e) (f_obj e)) /\ 0 <= f_ref e < EDGE_MAX_FILE_REFS.

Section fd.
Context {SK : Type} `{!sock_layer SK}.
Implicit Types (w : fdw SK).

Definition refs_of w (k : edge_fd_kind) (id : Z) : Z :=
  match k with
  | FD_PIPE_R => p_readers (pipes w id)
  | FD_PIPE_W => p_writers (pipes w id)
  | FD_PTY_MASTER => y_refs_master (ptys w id)
  | FD_PTY_SLAVE => y_refs_slave (ptys w id)
  | FD_EVENTFD => ev_refs (eventfds w id)
  | FD_TIMERFD => tf_refs (timerfds w id)
  | FD_SIGNALFD => sf_refs (signalfds w id)
  | FD_EPOLL => ep_refs (epolls w id)
  | _ => 0
  end.

Definition live w (k : edge_fd_kind) (id : Z) : bool :=
  match k with
  | FD_PIPE_R | FD_PIPE_W => p_used (pipes w id)
  | FD_PTY_MASTER | FD_PTY_SLAVE => y_used (ptys w id)
  | FD_EVENTFD => ev_used (eventfds w id)
  | FD_TIMERFD => tf_used (timerfds w id)
  | FD_SIGNALFD => sf_used (signalfds w id)
  | FD_EPOLL => ep_used (epolls w id)
  | _ => false
  end.

(** The references that keep the object alive: those of both ends. *)
Definition all_refs w (k : edge_fd_kind) (id : Z) : Z :=
  match k with
  | FD_PIPE_R | FD_PIPE_W => p_readers (pipes w id) + p_writers (pipes w id)
  | FD_PTY_MASTER | FD_PTY_SLAVE => y_refs_master (ptys w id) + y_refs_slave (ptys w id)
  | _ => refs_of w k id
  end.

(** The weight of all open descriptors, and of those of a process. *)
Definition slot (g : edge_fd -> Z) (f : Z -> edge_fd) : Z := sumn 64 (fun i => g (f i)).
Definition total (g : edge_fd -> Z) w : Z := sumn 64 (fun p => slot g (fp_fds (procs w p))).
Definition holders (k : edge_fd_kind) (id : Z) w : Z := total (holds k id) w.

(** The invariant, off by [d] on the counts and by [r] on the file references
    while a call is under way; [x] is a pipe being created. *)
Record fd_ok (d : edge_fd_kind -> Z -> Z) (r : Z -> Z) (x : option Z) w : Prop := {
  ok_count : forall k id, object k id -> refs_of w k id = holders k id w + d k id;
  ok_dead : forall k id, object k id -> live w k id = false -> refs_of w k id = 0;
  ok_live : forall k id, object k id -> live w k id = true ->
              0 < all_refs w k id \/ (x = Some id /\ (k = FD_PIPE_R \/ k = FD_PIPE_W));
  ok_nonneg : forall k id, object k id -> 0 <= refs_of w k id;
  ok_fds : forall p fd, 0 <= p < 64 -> 0 <= fd < 64 -> good_fd (fd_of w p fd);
  ok_files : forall i, 0 < i < EDGE_MAX_FILE_REFS ->
               total (holds_ref i) w + r i <= r_refs (file_refs w i) /\
               r_used (file_refs w i) = (0 <? r_refs (file_refs w i)) /\ 0 <= r_refs (file_refs w i);
  ok_idle : forall p fd, 0 <= p < 64 -> 0 <= fd < 64 -> fp_pid (procs w p) = 0 -> f_used (fd_of w p fd) = false
}.

Definition none2 : edge_fd_kind -> Z -> Z := fun _ _ => 0.
Definition none1 : Z -> Z := fun _ => 0.

Lemma fd_ok_ext d d' r r' x w :
  fd_ok d r x w -> (forall k id, object k id -> d k id = d' k id) ->
  (forall i, 0 < i < EDGE_MAX_FILE_REFS -> r' i <= r i) -> fd_ok d' r' x w.
Proof.
  intros [H1 H2 H3 H4 H5 H6 H7] Hd Hr. constructor; try done.
  - intros k id Ho. rewrite H1, Hd by done. done.
  - intros i Hi. destruct (H6 i Hi) as (? & ? & ?). specialize (Hr i Hi). split_all; [lia | done | done].
Qed.

(** ** The tables *)

Lemma slot_set g f fd e :
  0 <= fd < 64 -> slot g (<[fd := e]> f) = slot g f + g e - g (f fd).
Proof.
  intros Hfd. unfold slot. rewrite (sumn_change 64 (fun i => g (f i)) _ fd).
  - by rewrite upd_eq.
  - lia.
  - intros i _ Hne. by rewrite upd_ne.
Qed.

Lemma total_set_slot g w p q :
  0 <= p < 64 ->
  total g (set_procs (<[p := q]> (procs w)) w) = total g w + slot g (fp_fds q) - slot g (fp_fds (procs w p)).
Proof.
  intros Hp. unfold total. rewrite (sumn_change 64 (fun p => slot g (fp_fds (procs w p))) _ p).
  - cbn [set_procs procs]. by rewrite upd_eq.
  - lia.
  - intros i _ Hne. cbn [set_procs procs]. by rewrite upd_ne.
Qed.

Lemma total_set_fd g w p fd e :
  0 <= p < 64 -> 0 <= fd < 64 -> total g (set_fd p fd e w) = total g w + g e - g (fd_of w p fd).
Proof.
  intros Hp Hfd. unfold set_fd. rewrite total_set_slot by done. cbn [fp_fds]. rewrite slot_set by done.
  unfold fd_of. lia.
Qed.

Lemma holds_nonneg k id e : 0 <= holds k id e.
Proof. unfold holds. case_match; lia. Qed.
Lemma holds_ref_nonneg i e : 0 <= holds_ref i e.
Proof. unfold holds_ref. case_match; lia. Qed.

Lemma slot_nonneg g f : (forall e, 0 <= g e) -> 0 <= slot g f.
Proof. intros. apply sumn_nonneg. auto. Qed.

Lemma total_ge_slot g w p :
  0 <= p < 64 -> (forall e, 0 <= g e) -> slot g (fp_fds (procs w p)) <= total g w.
Proof.
  intros Hp Hg. apply (sumn_ge 64 (fun p => slot g (fp_fds (procs w p)))); [lia|].
  intros. by apply slot_nonneg.
Qed.

Lemma total_ge_fd g w p fd :
  0 <= p < 64 -> 0 <= fd < 64 -> (forall e, 0 <= g e) -> g (fd_of w p fd) <= total g w.
Proof.
  intros Hp Hfd Hg. etransitivity; [|by apply (total_ge_slot g w p)].
  apply (sumn_ge 64 (fun i => g (fp_fds (procs w p) i))); [lia | auto].
Qed.

(** The weight of the first [n] descriptors of a table. *)
Definition part (g : edge_fd -> Z) (f : Z -> edge_fd) (n : nat) : Z := sumn n (fun i => g (f i)).

Lemma part_succ g f n : part g f (S n) = part g f n + g (f (Z.of_nat n)).
Proof. unfold part. reflexivity. Qed.

Lemma part_zero g f : part g f 0 = 0.
Proof. reflexivity. Qed.

Lemma part_all g f : part g f 64 = slot g f.
Proof. unfold part, slot. reflexivity. Qed.

Lemma part_le_total g w p n :
  (n <= 64)%nat -> 0 <= p < 64 -> (forall e, 0 <= g e) -> part g (fp_fds (procs w p)) n <= total g w.
Proof.
  intros Hn Hp Hg. etransitivity; [|by apply (total_ge_slot g w p)]. exact (sumn_le n 64 (fun i => g (fp_fds (procs w p) i)) Hn (fun i _ => Hg _)).
Qed.

Lemma holds_unused k id e : f_used e = false -> holds k id e = 0.
Proof. unfold holds. by intros ->. Qed.
Lemma holds_ref_unused i e : f_used e = false -> holds_ref i e = 0.
Proof. unfold holds_ref. by intros ->. Qed.

Lemma fd_of_set w p fd e p' fd' :
  fd_of (set_fd p fd e w) p' fd' = if decide (p = p' /\ fd = fd') then e else fd_of w p' fd'.
Proof.
  unfold fd_of, set_fd, set_procs. cbn [procs]. destruct (decide (p = p')) as [->|Hp].
  - rewrite upd_eq. cbn [fp_fds]. rewrite upd_case. repeat case_decide; naive_solver.
  - rewrite upd_ne by done. rewrite decide_False by naive_solver. done.
Qed.

Lemma pid_set_fd w p fd e q : fp_pid (procs (set_fd p fd e w) q) = fp_pid (procs w q).
Proof. unfold set_fd, set_procs. cbn [procs]. rewrite upd_case. by case_decide; subst. Qed.

(** Writing a descriptor moves what it holds into the balance. *)
Lemma set_fd_ok d r x w p fd e :
  fd_ok d r x w -> 0 <= p < 64 -> 0 <= fd < 64 -> good_fd e ->
  (fp_pid (procs w p) = 0 -> f_used e = false) ->
  fd_ok (fun k id => d k id - holds k id e + holds k id (fd_of w p fd))
        (fun i => r i - holds_ref i e + holds_ref i (fd_of w p fd)) x (set_fd p fd e w).
Proof.
  intros [H1 H2 H3 H4 H5 H6 H7] Hp Hfd He Hpid. constructor.
  - intros k id Ho. unfold holders. rewrite total_set_fd by done.
    change (refs_of (set_fd p fd e w) k id) with (refs_of w k id). rewrite H1 by done. unfold holders. lia.
  - done.
  - done.
  - done.
  - intros p' fd' Hp' Hfd'. rewrite fd_of_set. case_decide; [done | by apply H5].
  - intros i Hi. rewrite total_set_fd by done. change (file_refs (set_fd p fd e w)) with (file_refs w).
    destruct (H6 i Hi) as (? & ? & ?). split_all; [lia | done | done].
  - intros p' fd' Hp' Hfd'. rewrite pid_set_fd, fd_of_set. intros Hz. case_decide as Hd; [|by apply H7].
    destruct Hd as [-> ->]. auto.
Qed.

(** ** References to open files *)

Definition one (i j : Z) : Z := if i =? j then 1 else 0.

Lemma total_procs g w w' : procs w' = procs w -> total g w' = total g w.
Proof. unfold total. by intros ->. Qed.

Lemma holders_procs k id w w' : procs w' = procs w -> holders k id w' = holders k id w.
Proof. apply total_procs. Qed.

Lemma slot_zero g : g zero_fd = 0 -> slot g (fun _ => zero_fd) = 0.
Proof. intros H. apply sumn_zero. intros. exact H. Qed.

Lemma slot_null g f : (forall i, 0 <= i < 64 -> g (f i) = 0) -> slot g f = 0.
Proof. apply (sumn_zero 64 (fun i => g (f i))). Qed.

#[local] Opaque sumn slot part total.

Definition file_ok (n : Z) (e : edge_file_ref) : Prop :=
  n <= r_refs e /\ r_used e = (0 <? r_refs e) /\ 0 <= r_refs e.

(** What the invariant reads of the objects. *)
Definition same_objs w w' : Prop :=
  forall k id, refs_of w' k id = refs_of w k id /\ live w' k id = live w k id /\ all_refs w' k id = all_refs w k id.

(** A step that leaves the objects and the descriptors alone. *)
Lemma files_only_ok d r r' x w w' :
  fd_ok d r x w -> procs w' = procs w -> same_objs w w' ->
  (forall i, 0 < i < EDGE_MAX_FILE_REFS -> file_ok (total (holds_ref i) w + r' i) (file_refs w' i)) ->
  fd_ok d r' x w'.
Proof.
  intros [H1 H2 H3 H4 H5 H6 H7] Hp Ho Hf. constructor.
  - intros k id Hk. rewrite (holders_procs _ _ _ _ Hp). destruct (Ho k id) as (-> & _). by apply H1.
  - intros k id Hk. destruct (Ho k id) as (-> & -> & _). by apply H2.
  - intros k id Hk. destruct (Ho k id) as (_ & -> & ->). by apply H3.
  - intros k id Hk. destruct (Ho k id) as (-> & _). by apply H4.
  - intros p fd ? ?. unfold fd_of. rewrite Hp. by apply H5.
  - intros i Hi. rewrite (total_procs _ _ _ Hp). by apply Hf.
  - intros p fd ? ?. unfold fd_of. rewrite Hp. by apply H7.
Qed.

Lemma same_objs_refs f w : same_objs w (set_refs f w).
Proof. intros k id. by destruct k. Qed.

(** Changing one file reference. *)
Lemma set_ref_ok d r x w i e :
  fd_ok d r x w -> forall n,
  (0 < i < EDGE_MAX_FILE_REFS -> file_ok (total (holds_ref i) w + r i) (file_refs w i) ->
   file_ok (total (holds_ref i) w + r i + n) e) ->
  fd_ok d (fun j => r j + n * one i j) x (set_refs (<[i := e]> (file_refs w)) w).
Proof.
  intros H n He. apply (files_only_ok _ _ _ _ _ _ H); [done | apply same_objs_refs|].
  intros j Hj. pose proof (ok_files _ _ _ _ H j Hj) as Hf. cbn [set_refs file_refs]. unfold one. rewrite upd_case.
  case_decide as Hij; destruct (Z.eqb_spec i j); try congruence.
  - subst j. specialize (He Hj Hf).
    replace (total (holds_ref i) w + (r i + n * 1)) with (total (holds_ref i) w + r i + n) by lia. exact He.
  - replace (total (holds_ref j) w + (r j + n * 0)) with (total (holds_ref j) w + r j) by lia. exact Hf.
Qed.

Lemma file_ref_alloc_ok d r x w w' i :
  fd_ok d r x w -> file_ref_alloc w = (w', i) ->
  procs w' = procs w /\
  (i = 0 /\ w' = w \/ 0 < i < EDGE_MAX_FILE_REFS /\ fd_ok d (fun j => r j + 1 * one i j) x w').
Proof.
  intros H. unfold file_ref_alloc. set (P := fun i => negb (r_used (file_refs w i))).
  generalize (scan_hit P 1 (Z.to_nat (EDGE_MAX_FILE_REFS - 1)) _ ltac:(lia) eq_refl).
  generalize (scan P 1 (Z.to_nat (EDGE_MAX_FILE_REFS - 1))). intros j Hj.
  destruct (decide (j = -1)) as [->|E]; [intros [= <- <-]; split; [done | by left]|].
  destruct (Hj E) as (Hr & Hp & _). rewrite Z2Nat.id in Hr by done.
  destruct (Z.ltb_spec j 0); [lia|]. intros [= <- <-]. split; [done|]. right.
  split; [unfold EDGE_MAX_FILE_REFS in *; lia|]. apply set_ref_ok; [done|].
  intros _ (Ha & Hb & Hc). subst P. cbv beta in Hp. rewrite Hb in Hp. apply negb_true_iff, Z.ltb_ge in Hp.
  unfold file_ok. cbn [r_refs r_used]. split_all; [lia | done | lia].
Qed.

Lemma file_ref_get_ok d r x w w' i n :
  fd_ok d r x w -> file_ref_get i w = (w', n) ->
  procs w' = procs w /\
  (n = -1 /\ w' = w \/ n = 0 /\ 0 < i < EDGE_MAX_FILE_REFS /\ fd_ok d (fun j => r j + 1 * one i j) x w').
Proof.
  intros H. unfold file_ref_get.
  destruct ((i <=? 0) || (EDGE_MAX_FILE_REFS <=? i)) eqn:T1; [intros [= <- <-]; split; [done | by left]|].
  destruct (negb (r_used _) || _) eqn:T2; intros [= <- <-]; (split; [done|]); [by left | right].
  apply orb_false_iff in T1 as [T1%Z.leb_gt T1'%Z.leb_gt].
  apply orb_false_iff in T2 as [T2%negb_false_iff T2'%Z.leb_gt]. split; [done|]. split; [lia|].
  apply set_ref_ok; [done|]. intros _ (Ha & Hb & Hc). unfold file_ok. cbn [r_refs r_used].
  split_all; [lia | symmetry; apply Z.ltb_lt; lia | lia].
Qed.

Lemma file_ref_put_ok d r x w i :
  fd_ok d r x w -> 0 < i < EDGE_MAX_FILE_REFS -> 0 < r_refs (file_refs w i) ->
  procs (fst (file_ref_put i w)) = procs w /\
  fd_ok d (fun j => r j + -1 * one i j) x (fst (file_ref_put i w)).
Proof.
  intros H Hi Hpos. unfold file_ref_put.
  destruct (Z.leb_spec i 0); [lia|]. destruct (Z.leb_spec EDGE_MAX_FILE_REFS i); [lia|]. cbn [orb].
  destruct (ok_files _ _ _ _ H i Hi) as (Ha & Hb & Hc).
  rewrite Hb. rewrite (proj2 (Z.ltb_lt 0 _)) by lia. cbn [negb orb].
  destruct (Z.leb_spec (r_refs (file_refs w i)) 0); [lia|]. cbn [fst]. split; [done|].
  apply set_ref_ok; [done|]. intros _ _. unfold file_ok. cbn [r_refs r_used].
  split_all; [lia | | lia]. ztest; ztest; try lia; done.
Qed.

(** ** Objects *)

(** What the invariant says of one object. *)
Definition obj_ok (x : option Z) w (k : edge_fd_kind) (id : Z) : Prop :=
  0 <= refs_of w k id /\ (live w k id = false -> refs_of w k id = 0) /\
  (live w k id = true -> 0 < all_refs w k id \/ (x = Some id /\ (k = FD_PIPE_R \/ k = FD_PIPE_W))).

Lemma fd_ok_obj d r x w k id : fd_ok d r x w -> object k id -> obj_ok x w k id.
Proof. intros [H1 H2 H3 H4 H5 H6 H7] Ho. unfold obj_ok. split; [by apply H4|]. split; [by apply H2 | by apply H3]. Qed.

(** A step that changes objects only. *)
Lemma objs_only_ok d d' r x x' w w' :
  fd_ok d r x w -> procs w' = procs w -> file_refs w' = file_refs w ->
  (forall k id, object k id -> obj_ok x w k id ->
     refs_of w' k id - d' k id = refs_of w k id - d k id /\ obj_ok x' w' k id) ->
  fd_ok d' r x' w'.
Proof.
  intros H Hp Hf Ho.
  assert (forall k id, object k id -> refs_of w' k id - d' k id = refs_of w k id - d k id /\ obj_ok x' w' k id) as Ho'.
  { intros k id Hk. apply Ho; [done|]. by eapply fd_ok_obj. }
  clear Ho. destruct H as [H1 H2 H3 H4 H5 H6 H7]. constructor.
  - intros k id Hk. rewrite (holders_procs _ _ _ _ Hp). specialize (H1 k id Hk). destruct (Ho' k id Hk) as [? _]. lia.
  - intros k id Hk. by destruct (Ho' k id Hk) as (_ & _ & ? & _).
  - intros k id Hk. by destruct (Ho' k id Hk) as (_ & _ & _ & ?).
  - intros k id Hk. by destruct (Ho' k id Hk) as (_ & ? & _).
  - intros p fd ? ?. unfold fd_of. rewrite Hp. by apply H5.
  - intros i Hi. rewrite (total_procs _ _ _ Hp), Hf. by apply H6.
  - intros p fd ? ?. unfold fd_of. rewrite Hp. by apply H7.
Qed.

(** The other end of a pipe or a terminal. *)
Definition peer (k : edge_fd_kind) : edge_fd_kind :=
  match k with
  | FD_PIPE_R => FD_PIPE_W | FD_PIPE_W => FD_PIPE_R
  | FD_PTY_MASTER => FD_PTY_SLAVE | FD_PTY_SLAVE => FD_PTY_MASTER
  | _ => k
  end.

Lemma object_peer k id : object k id -> object (peer k) id.
Proof. by destruct k. Qed.

Lemma object_in_range k id n : limit k = Some n -> object k id -> in_range id n = true.
Proof.
  intros E (n' & E' & H). assert (n' = n) as -> by congruence. unfold in_range.
  apply andb_true_iff. rewrite Z.leb_le, Z.ltb_lt. done.
Qed.

Lemma holds_eq k id e : f_used e = true -> holds k id e = if id =? f_obj e then (if test (f_kind e = k) then 1 else 0) else 0.
Proof. intros Hu. unfold holds. rewrite Hu, (Z.eqb_sym id). by destruct (bool_decide _), (_ =? _). Qed.

(** The change of a count: [v] at object [id] of kind [k0], [v'] at its other end. *)
Definition bump2 (k0 k1 : edge_fd_kind) (id v v' : Z) (d : edge_fd_kind -> Z -> Z) (k : edge_fd_kind) (j : Z) : Z :=
  d k j + (if j =? id then (if test (k0 = k) then v else if test (k1 = k) then v' else 0) else 0).

(** Changing one cell of a table, the shape of the next six lemmas. *)
Ltac cell_tac H id :=
  eapply objs_only_ok; [exact H | done | done|];
  intros k j Ho Hk; unfold bump2; destruct (Z.eqb_spec j id) as [->|Hne];
  [ destruct k; try (destruct Ho as (? & [=] & _));
    unfold obj_ok in *; cbn [refs_of live all_refs set_pipes set_ptys set_eventfds set_timerfds set_signalfds set_epolls
      pipes ptys eventfds timerfds signalfds epolls] in *; rewrite ?upd_eq;
    (split; [try (rewrite bool_decide_true by done); repeat (rewrite bool_decide_false by done);
             try (rewrite bool_decide_true by done); lia |]); try done; naive_solver
  | rewrite Z.add_0_r; split;
    [destruct k; cbn; rewrite ?upd_ne by done; lia |
     unfold obj_ok in *; destruct k; cbn in *; rewrite ?upd_ne by done; naive_solver]].

Definition pipe_cell (x : option Z) (id : Z) (p : edge_pipe) : Prop :=
  0 <= p_readers p /\ 0 <= p_writers p /\ (p_used p = false -> p_readers p = 0 /\ p_writers p = 0) /\
  (p_used p = true -> 0 < p_readers p + p_writers p \/ x = Some id).

Lemma set_pipe_ok d r x x' w id p :
  fd_ok d r x w -> pipe_cell x' id p -> (forall j, j <> id -> x = Some j -> x' = Some j) ->
  fd_ok (bump2 FD_PIPE_R FD_PIPE_W id (p_readers p - p_readers (pipes w id)) (p_writers p - p_writers (pipes w id)) d)
    r x' (set_pipes (<[id := p]> (pipes w)) w).
Proof. intros H (Ha & Hb & Hc & He) Hx. cell_tac H id. Qed.

Definition pty_cell (p : edge_pty) : Prop :=
  0 <= y_refs_master p /\ 0 <= y_refs_slave p /\
  (y_used p = false -> y_refs_master p = 0 /\ y_refs_slave p = 0) /\
  (y_used p = true -> 0 < y_refs_master p + y_refs_slave p).

Lemma set_pty_ok d r x w id p :
  fd_ok d r x w -> pty_cell p ->
  fd_ok (bump2 FD_PTY_MASTER FD_PTY_SLAVE id (y_refs_master p - y_refs_master (ptys w id))
           (y_refs_slave p - y_refs_slave (ptys w id)) d) r x (set_ptys (<[id := p]> (ptys w)) w).
Proof. intros H (Ha & Hb & Hc & He). cell_tac H id. Qed.

Definition eventfd_cell (p : edge_eventfd) : Prop :=
  0 <= ev_refs p /\ (ev_used p = false -> ev_refs p = 0) /\ (ev_used p = true -> 0 < ev_refs p).

Lemma set_eventfd_ok d r x w id p :
  fd_ok d r x w -> eventfd_cell p ->
  fd_ok (bump2 FD_EVENTFD FD_EVENTFD id (ev_refs p - ev_refs (eventfds w id)) 0 d) r x (set_eventfds (<[id := p]> (eventfds w)) w).
Proof. intros H (Ha & Hc & He). cell_tac H id. Qed.

Definition timerfd_cell (p : edge_timerfd) : Prop :=
  0 <= tf_refs p /\ (tf_used p = false -> tf_refs p = 0) /\ (tf_used p = true -> 0 < tf_refs p).

Lemma set_timerfd_ok d r x w id p :
  fd_ok d r x w -> timerfd_cell p ->
  fd_ok (bump2 FD_TIMERFD FD_TIMERFD id (tf_refs p - tf_refs (timerfds w id)) 0 d) r x (set_timerfds (<[id := p]> (timerfds w)) w).
Proof. intros H (Ha & Hc & He). cell_tac H id. Qed.

Definition signalfd_cell (p : edge_signalfd) : Prop :=
  0 <= sf_refs p /\ (sf_used p = false -> sf_refs p = 0) /\ (sf_used p = true -> 0 < sf_refs p).

Lemma set_signalfd_ok d r x w id p :
  fd_ok d r x w -> signalfd_cell p ->
  fd_ok (bump2 FD_SIGNALFD FD_SIGNALFD id (sf_refs p - sf_refs (signalfds w id)) 0 d) r x (set_signalfds (<[id := p]> (signalfds w)) w).
Proof. intros H (Ha & Hc & He). cell_tac H id. Qed.

Definition epoll_cell (p : edge_epoll) : Prop :=
  0 <= ep_refs p /\ (ep_used p = false -> ep_refs p = 0) /\ (ep_used p = true -> 0 < ep_refs p).

Lemma set_epoll_ok d r x w id p :
  fd_ok d r x w -> epoll_cell p ->
  fd_ok (bump2 FD_EPOLL FD_EPOLL id (ep_refs p - ep_refs (epolls w id)) 0 d) r x (set_epolls (<[id := p]> (epolls w)) w).
Proof. intros H (Ha & Hc & He). cell_tac H id. Qed.

Lemma bump_fst k0 k1 n v v' d e k j :
  f_used e = true -> f_kind e = k0 -> v = n -> v' = 0 ->
  bump2 k0 k1 (f_obj e) v v' d k j = d k j + n * holds k j e.
Proof.
  intros Hu <- -> ->. unfold bump2. rewrite holds_eq by done. destruct (j =? f_obj e); [|lia].
  destruct (bool_decide (f_kind e = k)); [lia|]. destruct (bool_decide _); lia.
Qed.

Lemma bump_snd k0 k1 n v v' d e k j :
  f_used e = true -> f_kind e = k1 -> v' = n -> v = 0 -> k0 <> k1 ->
  bump2 k0 k1 (f_obj e) v v' d k j = d k j + n * holds k j e.
Proof.
  intros Hu <- -> -> Hne. unfold bump2. rewrite holds_eq by done. destruct (j =? f_obj e); [|lia].
  destruct (bool_decide_reflect (k0 = k)); [rewrite bool_decide_false by congruence; lia|].
  destruct (bool_decide _); lia.
Qed.

(** What the invariant says of the ends of a descriptor's object. *)
Lemma live_of d r x w k id : fd_ok d r x w -> object k id -> 0 < refs_of w k id -> live w k id = true.
Proof.
  intros H Ho Hp. destruct (live w k id) eqn:E; [done|]. rewrite (ok_dead _ _ _ _ H k id Ho E) in Hp. lia.
Qed.

Ltac cell_simpl :=
  cbn [pipe_ends pty_refs eventfd_set_refs timerfd_set_refs signalfd_set_refs epoll_set_refs zero_pipe zero_pty
       zero_eventfd zero_timerfd zero_signalfd zero_epoll p_readers p_writers p_used y_used y_refs_master y_refs_slave
       ev_used ev_refs tf_used tf_refs sf_used sf_refs ep_used ep_refs andb].

Lemma pipe_free_cell id p :
  p_used p = true -> 0 <= p_readers p -> 0 <= p_writers p -> pipe_cell None id (pipe_free_if_closed p) /\
  p_readers (pipe_free_if_closed p) = p_readers p /\ p_writers (pipe_free_if_closed p) = p_writers p.
Proof.
  unfold pipe_free_if_closed, pipe_cell. intros Hu Ha Hb. 
  destruct (Z.eqb_spec (p_readers p) 0), (Z.eqb_spec (p_writers p) 0); cell_simpl; split_all; intros; try done; try lia;
  try congruence; left; lia.
Qed.

Definition pty_free_if_closed (y : edge_pty) : edge_pty :=
  if (y_refs_master y <=? 0) && (y_refs_slave y <=? 0) then zero_pty else y.

Lemma pty_free_cell y :
  y_used y = true -> 0 <= y_refs_master y -> 0 <= y_refs_slave y -> pty_cell (pty_free_if_closed y) /\
  y_refs_master (pty_free_if_closed y) = y_refs_master y /\ y_refs_slave (pty_free_if_closed y) = y_refs_slave y.
Proof.
  unfold pty_free_if_closed, pty_cell. intros Hu Ha Hb.
  destruct (Z.leb_spec (y_refs_master y) 0), (Z.leb_spec (y_refs_slave y) 0); cell_simpl; split_all; intros;
  try done; try lia; congruence.
Qed.

Ltac one_count lem H :=
  eapply fd_ok_ext;
  [ apply (lem _ _ _ _ _ _ H); unfold eventfd_cell, timerfd_cell, signalfd_cell, epoll_cell;
    try ztest; cell_simpl; split_all; intros; (congruence || lia)
  | intros k j _; apply bump_fst; [done | done | try ztest; cell_simpl; lia | done]
  | intros; lia ].

(** Dropping what a descriptor holds. *)
Lemma drop_obj_ok d r w e :
  fd_ok d r None w -> f_used e = true -> object (f_kind e) (f_obj e) -> 0 < refs_of w (f_kind e) (f_obj e) ->
  fd_ok (fun k id => d k id + -1 * holds k id e) r None (drop_obj e w).
Proof.
  intros H Hu Hobj Hpos.
  pose proof (ok_nonneg _ _ _ _ H _ _ (object_peer _ _ Hobj)) as Hp0.
  assert (Hr : forall n, limit (f_kind e) = Some n -> in_range (f_obj e) n = true) by (intros; by eapply object_in_range).
  pose proof (live_of _ _ _ _ _ _ H Hobj Hpos) as Hl. apply Z.ltb_lt in Hpos as Hpos'.
  unfold drop_obj. destruct (f_kind e) eqn:Ek; try (destruct Hobj as (? & [=] & _));
  specialize (Hr _ eq_refl); cbn [refs_of live peer] in *;
  unfold pipe_drop_reader, pipe_drop_writer, pty_drop_ref, eventfd_drop_ref, timerfd_drop_ref, signalfd_drop_ref, epoll_drop_ref;
  rewrite Hr, Hl; cbn [negb orb]; try rewrite Hpos'.
  - destruct (pipe_free_cell (f_obj e) (pipe_ends (p_readers (pipes w (f_obj e)) - 1) (p_writers (pipes w (f_obj e)))
      (pipes w (f_obj e)))) as (C1 & C2 & C3); [done | cbn; lia | cbn; lia|].
    eapply fd_ok_ext; [apply (set_pipe_ok _ _ _ None _ _ _ H); [exact C1 | done] | | intros; lia].
    intros k j _. rewrite C2, C3. apply bump_fst; cbn; (done || lia).
  - destruct (pipe_free_cell (f_obj e) (pipe_ends (p_readers (pipes w (f_obj e))) (p_writers (pipes w (f_obj e)) - 1)
      (pipes w (f_obj e)))) as (C1 & C2 & C3); [done | cbn; lia | cbn; lia|].
    eapply fd_ok_ext; [apply (set_pipe_ok _ _ _ None _ _ _ H); [exact C1 | done] | | intros; lia].
    intros k j _. rewrite C2, C3. apply bump_snd; cbn; (done || lia).
  - destruct (pty_free_cell (pty_refs (y_refs_master (ptys w (f_obj e)) - 1) (y_refs_slave (ptys w (f_obj e)))
      (ptys w (f_obj e)))) as (C1 & C2 & C3); [done | cbn; lia | cbn; lia|].
    eapply fd_ok_ext; [apply (set_pty_ok _ _ _ _ _ _ H); exact C1 | | intros; lia].
    intros k j _. fold (pty_free_if_closed (pty_refs (y_refs_master (ptys w (f_obj e)) - 1) (y_refs_slave (ptys w (f_obj e))) (ptys w (f_obj e)))).
    rewrite C2, C3. apply bump_fst; cbn; (done || lia).
  - destruct (pty_free_cell (pty_refs (y_refs_master (ptys w (f_obj e))) (y_refs_slave (ptys w (f_obj e)) - 1)
      (ptys w (f_obj e)))) as (C1 & C2 & C3); [done | cbn; lia | cbn; lia|].
    eapply fd_ok_ext; [apply (set_pty_ok _ _ _ _ _ _ H); exact C1 | | intros; lia].
    intros k j _. fold (pty_free_if_closed (pty_refs (y_refs_master (ptys w (f_obj e))) (y_refs_slave (ptys w (f_obj e)) - 1) (ptys w (f_obj e)))).
    rewrite C2, C3. apply bump_snd; cbn; (done || lia).
  - one_count set_eventfd_ok H.
  - one_count set_timerfd_ok H.
  - one_count set_signalfd_ok H.
  - one_count set_epoll_ok H.
Qed.

(** Copying a descriptor of a live object. *)
Lemma add_obj_ok d r w e :
  fd_ok d r None w -> f_used e = true -> object (f_kind e) (f_obj e) -> live w (f_kind e) (f_obj e) = true ->
  fd_ok (fun k id => d k id + 1 * holds k id e) r None (add_obj e w).
Proof.
  intros H Hu Hobj Hl.
  pose proof (ok_nonneg _ _ _ _ H _ _ Hobj) as Hk0. pose proof (ok_nonneg _ _ _ _ H _ _ (object_peer _ _ Hobj)) as Hp0.
  assert (Hr : forall n, limit (f_kind e) = Some n -> in_range (f_obj e) n = true) by (intros; by eapply object_in_range).
  unfold add_obj. destruct (f_kind e) eqn:Ek; try (destruct Hobj as (? & [=] & _));
  specialize (Hr _ eq_refl); cbn [refs_of live peer] in *;
  unfold pty_add_ref, eventfd_add_ref, timerfd_add_ref, signalfd_add_ref, epoll_add_ref;
  rewrite Hr; cbn [negb orb andb]; try rewrite Hl; cbn [negb orb andb].
  - eapply fd_ok_ext; [apply (set_pipe_ok _ _ _ None _ _ _ H); [|done] | intros k j _; apply bump_fst; cbn; (done || lia) | intros; lia].
    unfold pipe_cell. cell_simpl. split_all; intros; try lia; try congruence; left; lia.
  - eapply fd_ok_ext; [apply (set_pipe_ok _ _ _ None _ _ _ H); [|done] | intros k j _; apply bump_snd; cbn; (done || lia) | intros; lia].
    unfold pipe_cell. cell_simpl. split_all; intros; try lia; try congruence; left; lia.
  - eapply fd_ok_ext; [apply (set_pty_ok _ _ _ _ _ _ H) | intros k j _; apply bump_fst; cbn; (done || lia) | intros; lia].
    unfold pty_cell. cell_simpl. split_all; intros; try lia; congruence.
  - eapply fd_ok_ext; [apply (set_pty_ok _ _ _ _ _ _ H) | intros k j _; apply bump_snd; cbn; (done || lia) | intros; lia].
    unfold pty_cell. cell_simpl. split_all; intros; try lia; congruence.
  - one_count set_eventfd_ok H.
  - one_count set_timerfd_ok H.
  - one_count set_signalfd_ok H.
  - one_count set_epoll_ok H.
Qed.

(** The invariant between two calls. *)
Definition fds_ok w : Prop := fd_ok none2 none1 None w.

Lemma holds_uncounted k id e : object k id -> limit (f_kind e) = None -> holds k id e = 0.
Proof.
  intros (n & En & _) H. unfold holds. rewrite bool_decide_false by congruence. by rewrite andb_false_r.
Qed.

Lemma drop_obj_frame e w :
  procs (drop_obj e w) = procs w /\ file_refs (drop_obj e w) = file_refs w.
Proof.
  unfold drop_obj, pipe_drop_reader, pipe_drop_writer, pty_drop_ref, eventfd_drop_ref, timerfd_drop_ref,
    signalfd_drop_ref, epoll_drop_ref. destruct (f_kind e); repeat case_match; done.
Qed.

Lemma add_obj_frame e w :
  procs (add_obj e w) = procs w /\ file_refs (add_obj e w) = file_refs w.
Proof.
  unfold add_obj, pty_add_ref, eventfd_add_ref, timerfd_add_ref, signalfd_add_ref, epoll_add_ref.
  destruct (f_kind e); repeat case_match; done.
Qed.

Lemma uncounted_objs e w :
  limit (f_kind e) = None -> same_objs w (drop_obj e w) /\ same_objs w (add_obj e w).
Proof.
  intros H. unfold drop_obj, add_obj. destruct (f_kind e); try done; split; intros k id; repeat case_match; by destruct k.
Qed.

Lemma same_objs_ok d r x w w' :
  fd_ok d r x w -> procs w' = procs w -> file_refs w' = file_refs w -> same_objs w w' -> fd_ok d r x w'.
Proof.
  intros H Hp Hf Ho. apply (files_only_ok _ _ _ _ _ _ H Hp Ho). intros i Hi. rewrite Hf. by apply (ok_files _ _ _ _ H).
Qed.

Lemma drop_any_ok d r w e :
  fd_ok d r None w -> f_used e = true -> good_fd e ->
  (object (f_kind e) (f_obj e) -> 0 < refs_of w (f_kind e) (f_obj e)) ->
  fd_ok (fun k id => d k id + -1 * holds k id e) r None (drop_obj e w).
Proof.
  intros H Hu Hg Hpos. destruct (limit (f_kind e)) as [n|] eqn:El.
  - assert (object (f_kind e) (f_obj e)) as Ho by (apply Hg; [done | by rewrite El]). apply drop_obj_ok; auto.
  - destruct (drop_obj_frame e w) as [Hp Hf]. destruct (uncounted_objs e w El) as [Hs _].
    eapply fd_ok_ext; [by apply (same_objs_ok _ _ _ _ _ H) | | intros; lia].
    intros k id Ho. rewrite (holds_uncounted k id e) by done. lia.
Qed.

Lemma add_any_ok d r w e :
  fd_ok d r None w -> f_used e = true -> good_fd e ->
  (object (f_kind e) (f_obj e) -> live w (f_kind e) (f_obj e) = true) ->
  fd_ok (fun k id => d k id + 1 * holds k id e) r None (add_obj e w).
Proof.
  intros H Hu Hg Hl. destruct (limit (f_kind e)) as [n|] eqn:El.
  - assert (object (f_kind e) (f_obj e)) as Ho by (apply Hg; [done | by rewrite El]). apply add_obj_ok; auto.
  - destruct (add_obj_frame e w) as [Hp Hf]. destruct (uncounted_objs e w El) as [_ Hs].
    eapply fd_ok_ext; [by apply (same_objs_ok _ _ _ _ _ H) | | intros; lia].
    intros k id Ho. rewrite (holds_uncounted k id e) by done. lia.
Qed.

Lemma holds_self e : f_used e = true -> holds (f_kind e) (f_obj e) e = 1.
Proof. intros Hu. by rewrite holds_eq, Z.eqb_refl, bool_decide_true. Qed.

(** A descriptor of the table is counted. *)
Lemma counted_fd d r x w p fd k id :
  fd_ok d r x w -> 0 <= p < 64 -> 0 <= fd < 64 -> object k id -> d k id = 0 ->
  holds k id (fd_of w p fd) <= refs_of w k id.
Proof.
  intros H Hp Hfd Ho Hd. rewrite (ok_count _ _ _ _ H k id Ho), Hd.
  pose proof (total_ge_fd (holds k id) w p fd Hp Hfd (holds_nonneg k id)). unfold holders. lia.
Qed.

Lemma counted_self d r x w p fd :
  fd_ok d r x w -> 0 <= p < 64 -> 0 <= fd < 64 -> f_used (fd_of w p fd) = true ->
  (forall k id, d k id = 0) -> object (f_kind (fd_of w p fd)) (f_obj (fd_of w p fd)) ->
  0 < refs_of w (f_kind (fd_of w p fd)) (f_obj (fd_of w p fd)).
Proof.
  intros H Hp Hfd Hu Hd Ho. pose proof (counted_fd _ _ _ _ _ _ _ _ H Hp Hfd Ho (Hd _ _)) as Hc.
  rewrite holds_self in Hc by done. lia.
Qed.

(** ** The slot of a process *)

Definition home w (me p : Z) : Prop :=
  0 <= p < 64 /\ fp_pid (procs w p) = me /\ forall j, 0 <= j < p -> fp_pid (procs w j) <> me.

Definition same_pids w w' : Prop := forall q, fp_pid (procs w' q) = fp_pid (procs w q).

Lemma home_pids w w' me p : same_pids w w' -> home w me p -> home w' me p.
Proof. intros H (Ha & Hb & Hc). split; [done|]. split; [by rewrite H | intros j Hj; rewrite H; auto]. Qed.

Lemma find_proc_spec n i pid create w s :
  0 <= i ->
  match find_proc n i pid create w s with
  | (Some p, _) => i <= p < i + Z.of_nat n /\ fp_pid (procs w p) = pid /\
                   forall j, i <= j < p -> fp_pid (procs w j) <> pid
  | (None, s') =>
      (forall j, i <= j < i + Z.of_nat n -> fp_pid (procs w j) <> pid) /\
      (s' = s \/ exists q, s' = Some q /\ create = true /\ i <= q < i + Z.of_nat n /\ fp_pid (procs w q) = 0)
  end.
Proof.
  revert i s. induction n as [|n IH]; intros i s Hi; cbn [find_proc].
  { split; [lia | by left]. }
  destruct (Z.eqb_spec (fp_pid (procs w i)) pid) as [E|E].
  { split; [lia|]. split; [done | lia]. }
  match goal with |- context [find_proc n (i + 1) pid create w ?z] => set (s' := z) end. specialize (IH (i + 1) s' ltac:(lia)).
  destruct (find_proc n (i + 1) pid create w s') as [[p|] s''].
  - destruct IH as (Ha & Hb & Hc). split; [lia|]. split; [done|]. intros j Hj.
    destruct (decide (j = i)) as [->|]; [done | apply Hc; lia].
  - destruct IH as [Ha Hb]. split.
    + intros j Hj. destruct (decide (j = i)) as [->|]; [done | apply Ha; lia].
    + destruct Hb as [->|(q & -> & Hc & Hq & Hz)]; [|right; exists q; split_all; (done || lia)].
      subst s'. destruct create; cbn [andb]; [|by left].
      destruct (Z.eqb_spec (fp_pid (procs w i)) 0); cbn [andb]; [|by left].
      destruct (negb _); [right; exists i; split_all; (done || lia) | by left].
Qed.

Lemma find_proc_home w me p create : home w me p -> exists s, find_proc 64 0 me create w None = (Some p, s).
Proof.
  intros (Ha & Hb & Hc). pose proof (find_proc_spec 64 0 me create w None ltac:(lia)) as H.
  destruct (find_proc 64 0 me create w None) as [[q|] s].
  - destruct H as (H1 & H2 & H3). assert (q = p) as ->; [|by exists s].
    destruct (Z_lt_ge_dec q p); [exfalso; by apply (Hc q); [lia|]|].
    destruct (Z_lt_ge_dec p q); [exfalso; by apply (H3 p); [lia|] | lia].
  - destruct H as [H _]. exfalso. by apply (H p); [lia|].
Qed.

Lemma find_proc_found w me create p s : find_proc 64 0 me create w None = (Some p, s) -> home w me p.
Proof.
  intros E. pose proof (find_proc_spec 64 0 me create w None ltac:(lia)) as H. rewrite E in H.
  destruct H as (H1 & H2 & H3). split; [lia|]. split; [done | intros; apply H3; lia].
Qed.

Lemma for_pid_home w me p create : home w me p -> fd_proc_for_pid me create w = (w, Some p).
Proof. intros H. unfold fd_proc_for_pid. by destruct (find_proc_home w me p create H) as [s ->]. Qed.

(** A console descriptor in a free place. *)
Lemma ensure_console_ok {d x} w pi fd flags :
  fd_ok d none1 x w -> 0 <= pi < 64 -> 0 <= fd < 64 -> fp_pid (procs w pi) <> 0 ->
  fd_ok d none1 x (fst (ensure_console pi fd flags w)) /\ same_pids w (fst (ensure_console pi fd flags w)).
Proof.
  intros H Hp Hfd Hpid. unfold ensure_console. destruct (f_used (fd_of w pi fd)) eqn:Eu; [by split|].
  destruct (file_ref_alloc w) as [w1 i] eqn:Ea.
  destruct (file_ref_alloc_ok _ _ _ _ _ _ H Ea) as (Hpr & [[-> ->]|[Hi H1]]); [by split|].
  destruct (Z.eqb_spec i 0); [lia|]. cbn [fst]. split.
  2: { intros q. by rewrite pid_set_fd, Hpr. }
  set (e := console_fd i flags (fd_of w1 pi fd)).
  assert (fd_of w1 pi fd = fd_of w pi fd) as Ef by (unfold fd_of; by rewrite Hpr).
  assert (good_fd e) as Hg.
  { intros _. split; [intros Hl; by destruct Hl | subst e; cbn; unfold EDGE_MAX_FILE_REFS in *; lia]. }
  eapply fd_ok_ext; [apply (set_fd_ok _ _ _ _ pi fd e H1 Hp Hfd Hg)| |].
  - rewrite Hpr. intros; congruence.
  - intros k id Ho. rewrite Ef, (holds_unused _ _ (fd_of w pi fd)) by done.
    rewrite (holds_uncounted k id e) by done. lia.
  - intros j Hj. cbv beta. rewrite Ef, (holds_ref_unused _ (fd_of w pi fd)) by done.
    unfold holds_ref, one, none1. subst e. cbn. ztest; lia.
Qed.

Lemma ensure_stdio_ok {d x} w pi :
  fd_ok d none1 x w -> 0 <= pi < 64 -> fp_pid (procs w pi) <> 0 ->
  fd_ok d none1 x (fd_ensure_stdio pi w) /\ same_pids w (fd_ensure_stdio pi w).
Proof.
  intros H Hp Hpid. unfold fd_ensure_stdio.
  destruct (ensure_console_ok w pi 0 0 H Hp ltac:(lia) Hpid) as [H1 S1].
  destruct (ensure_console pi 0 0 w) as [w1 [|]]; cbn [fst negb] in *; [|done].
  assert (fp_pid (procs w1 pi) <> 0) as Hpid1 by (by rewrite S1).
  destruct (ensure_console_ok w1 pi 1 LINUX_O_WRONLY H1 Hp ltac:(lia) Hpid1) as [H2 S2].
  destruct (ensure_console pi 1 LINUX_O_WRONLY w1) as [w2 [|]]; cbn [fst negb] in *.
  2: { split; [done|]. intros q. by rewrite S2, S1. }
  assert (fp_pid (procs w2 pi) <> 0) as Hpid2 by (by rewrite S2).
  destruct (ensure_console_ok w2 pi 2 LINUX_O_WRONLY H2 Hp ltac:(lia) Hpid2) as [H3 S3].
  split; [done|]. intros q. by rewrite S3, S2, S1.
Qed.


Lemma same_objs_procs f w : same_objs w (set_procs f w).
Proof. intros k id. by destruct k. Qed.

(** A step that changes the descriptors only. *)
Lemma fds_only_ok d d' r r' x w w' :
  fd_ok d r x w -> same_objs w w' -> file_refs w' = file_refs w ->
  (forall k id, object k id -> holders k id w' + d' k id = holders k id w + d k id) ->
  (forall i, 0 < i < EDGE_MAX_FILE_REFS -> total (holds_ref i) w' + r' i <= total (holds_ref i) w + r i) ->
  (forall p fd, 0 <= p < 64 -> 0 <= fd < 64 -> good_fd (fd_of w' p fd) /\
     (fp_pid (procs w' p) = 0 -> f_used (fd_of w' p fd) = false)) ->
  fd_ok d' r' x w'.
Proof.
  intros [H1 H2 H3 H4 H5 H6 H7] Ho Hf Hh Hr Hg. constructor.
  - intros k id Hk. destruct (Ho k id) as (-> & _). rewrite H1, Hh by done. done.
  - intros k id Hk. destruct (Ho k id) as (-> & -> & _). by apply H2.
  - intros k id Hk. destruct (Ho k id) as (_ & -> & ->). by apply H3.
  - intros k id Hk. destruct (Ho k id) as (-> & _). by apply H4.
  - intros p fd Hp Hfd. by apply Hg.
  - intros i Hi. rewrite Hf. destruct (H6 i Hi) as (? & ? & ?). specialize (Hr i Hi). split; [lia | done].
  - intros p fd Hp Hfd. by apply Hg.
Qed.

(** Replacing the table of a process by an empty one. *)
Lemma clear_slot_ok d r x w p n :
  fd_ok d r x w -> 0 <= p < 64 ->
  fd_ok (fun k id => d k id + slot (holds k id) (fp_fds (procs w p)))
        (fun i => r i + slot (holds_ref i) (fp_fds (procs w p))) x
        (set_procs (<[p := {| fp_pid := n; fp_fds := fun _ => zero_fd |}]> (procs w)) w).
Proof.
  intros H Hp.
  assert (forall g, g zero_fd = 0 ->
    total g (set_procs (<[p := {| fp_pid := n; fp_fds := fun _ => zero_fd |}]> (procs w)) w) =
    total g w - slot g (fp_fds (procs w p))) as Ht.
  { intros g Hg. rewrite total_set_slot by done. cbn [fp_fds]. rewrite slot_zero by done. lia. }
  apply (fds_only_ok _ _ _ _ _ _ _ H); [apply same_objs_procs | done | | |].
  - intros k id Ho. unfold holders. rewrite Ht by done. lia.
  - intros i Hi. rewrite Ht by done. lia.
  - intros q fd Hq Hfd. unfold fd_of. cbn [set_procs procs]. rewrite upd_case. case_decide; [by split|].
    split; [by apply (ok_fds _ _ _ _ H) | by apply (ok_idle _ _ _ _ H)].
Qed.

Lemma slot_idle {d x} w p g :
  fd_ok d none1 x w -> 0 <= p < 64 -> fp_pid (procs w p) = 0 -> (forall e, f_used e = false -> g e = 0) ->
  slot g (fp_fds (procs w p)) = 0.
Proof.
  intros H Hp Hz Hg. apply slot_null. intros i Hi. apply Hg. exact (ok_idle _ _ _ _ H p i Hp ltac:(lia) Hz).
Qed.

Lemma for_pid_ok {d x} w me w' o :
  fd_ok d none1 x w -> me <> 0 -> fd_proc_for_pid me true w = (w', o) ->
  fd_ok d none1 x w' /\ forall p, o = Some p -> home w' me p.
Proof.
  intros H Hme. unfold fd_proc_for_pid.
  destruct (find_proc 64 0 me true w None) as [[p|] s] eqn:E.
  { intros [= <- <-]. split; [done|]. intros q [= ->]. by eapply find_proc_found. }
  pose proof (find_proc_spec 64 0 me true w None ltac:(lia)) as Hs. rewrite E in Hs.
  destruct Hs as [Hn Hs]. destruct s as [q|]; [|intros [= <- <-]; split; [done | intros ? [=]]].
  destruct Hs as [[=]|(q' & [= <-] & _ & Hq & Hz)]. intros [= <- <-].
  set (w1 := set_procs _ w).
  assert (fd_ok d none1 x w1) as H1.
  { eapply fd_ok_ext; [apply (clear_slot_ok _ _ _ _ q me H); lia| |].
    - intros k id Ho. cbv beta. rewrite (slot_idle w q (holds k id)) by (try done; try lia; apply holds_unused). lia.
    - intros i Hi. cbv beta. rewrite (slot_idle w q (holds_ref i)) by (try done; try lia; apply holds_ref_unused). unfold none1. lia. }
  assert (fp_pid (procs w1 q) = me) as Hpq by (subst w1; cbn [set_procs procs]; by rewrite upd_eq).
  destruct (ensure_stdio_ok w1 q H1) as [H2 S2]; [lia | congruence|]. split; [done|].
  intros p [= <-]. apply (home_pids w1); [done|]. split; [lia|]. split; [done|]. intros j Hj.
  subst w1. cbn [set_procs procs]. rewrite upd_ne by lia. apply Hn. lia.
Qed.

Lemma with_stdio_ok {d x} w me w' o :
  fd_ok d none1 x w -> me <> 0 -> fd_proc_with_stdio me w = (w', o) ->
  fd_ok d none1 x w' /\ forall p, o = Some p -> home w' me p.
Proof.
  intros H Hme. unfold fd_proc_with_stdio.
  destruct (fd_proc_for_pid me true w) as [w1 [p|]] eqn:E; intros [= <- <-];
    destruct (for_pid_ok _ _ _ _ H Hme E) as [H1 Hh]; [|by split].
  destruct (Hh p eq_refl) as (Hp & Hpid & Hf). destruct (ensure_stdio_ok w1 p H1 Hp) as [H2 S2]; [congruence|].
  split; [done|]. intros q [= <-]. by apply (home_pids w1).
Qed.

Lemma fd_get_some p0 fd w p e :
  fd_get p0 fd w = Some (p, e) -> p0 = Some p /\ 0 <= fd < 64 /\ e = fd_of w p fd /\ f_used e = true.
Proof.
  unfold fd_get. destruct p0 as [q|]; [|done]. destruct (Z.ltb_spec fd 0); [done|].
  destruct (Z.leb_spec EDGE_MAX_FD fd); [done|]. cbn [orb]. unfold EDGE_MAX_FD in *.
  destruct (f_used (fd_of w q fd)) eqn:E; intros [= <- <-]. split_all; done.
Qed.

(** A place in the table of the process. *)
Definition place w (p fd : Z) : Prop := 0 <= p < 64 /\ 0 <= fd < 64 /\ fp_pid (procs w p) <> 0.

Lemma put_ref_ok {d r} w e :
  fd_ok d r None w -> f_used e = true -> good_fd e ->
  (0 < f_ref e -> 0 < r_refs (file_refs w (f_ref e))) ->
  fd_ok d (fun j => r j + -1 * holds_ref j e) None (put_ref e w) /\ procs (put_ref e w) = procs w /\
  same_objs w (put_ref e w).
Proof.
  intros H Hu Hg Hpos. unfold put_ref. destruct (Hg Hu) as [_ Hr]. destruct (Z.ltb_spec 0 (f_ref e)) as [Hlt|Hge].
  - destruct (file_ref_put_ok _ _ _ _ (f_ref e) H ltac:(lia) (Hpos Hlt)) as [Hpr Hok]. split_all.
    + eapply fd_ok_ext; [exact Hok | done|]. intros i Hi. unfold one, holds_ref. rewrite Hu. simpl. lia.
    + exact Hpr.
    + unfold file_ref_put. repeat case_match; try done; apply same_objs_refs.
  - split_all; [|done | done]. eapply fd_ok_ext; [exact H | done|]. intros i Hi. unfold holds_ref.
    destruct (Z.eqb_spec (f_ref e) i); [lia|]. rewrite andb_false_r. lia.
Qed.

(** Closing a descriptor keeps the invariant and empties its place. *)
Lemma close_place_ok w w' p fd :
  fds_ok w -> place w p fd -> f_used (fd_of w p fd) = true ->
  w' = set_fd p fd zero_fd (release_fb (fd_of w p fd) (drop_obj (fd_of w p fd) (put_ref (fd_of w p fd) w))) ->
  fds_ok w' /\ same_pids w w' /\
  (forall q i, fd_of w' q i = if decide (p = q /\ fd = i) then zero_fd else fd_of w q i).
Proof.
  intros H (Hp & Hfd & Hpid) Hu. set (e := fd_of w p fd) in *.
  pose proof (ok_fds _ _ _ _ H p fd Hp Hfd) as Hg. fold e in Hg.
  set (w1 := put_ref e w).
  assert (fd_ok none2 (fun j => none1 j + -1 * holds_ref j e) None w1 /\ procs w1 = procs w /\ same_objs w w1) as (H1 & P1 & O1).
  { subst w1. apply put_ref_ok; [done..|]. intros Hlt. destruct (Hg Hu) as [_ Hr].
    destruct (ok_files _ _ _ _ H (f_ref e) ltac:(lia)) as (Ha & _).
    pose proof (total_ge_fd (holds_ref (f_ref e)) w p fd Hp Hfd (holds_ref_nonneg _)) as Hh. fold e in Hh.
    unfold holds_ref at 1 in Hh. rewrite Hu, Z.eqb_refl in Hh. unfold none1 in Ha. simpl in Hh. lia. }
  set (w2 := drop_obj e w1). destruct (drop_obj_frame e w1) as [P2 F2]. fold w2 in P2, F2.
  assert (fd_ok (fun k id => none2 k id + -1 * holds k id e) (fun j => none1 j + -1 * holds_ref j e) None w2) as H2.
  { apply drop_any_ok; [done.. |]. intros Ho. destruct (O1 (f_kind e) (f_obj e)) as (-> & _).
    exact (counted_self _ _ _ _ p fd H Hp Hfd Hu (fun _ _ => eq_refl) Ho). }
  set (w3 := release_fb e w2).
  assert (procs w3 = procs w /\ file_refs w3 = file_refs w2 /\ same_objs w2 w3) as (P3 & F3 & O3).
  { subst w3. unfold release_fb. case_match; (split; [by rewrite <- P1, <- P2|]); (split; [done|]); intros k id; by destruct k. }
  assert (fd_ok (fun k id => none2 k id + -1 * holds k id e) (fun j => none1 j + -1 * holds_ref j e) None w3) as H3.
  { apply (same_objs_ok _ _ _ w2); [done | | done | done]. by rewrite P3, P2, P1. }
  assert (forall q i, fd_of w3 q i = fd_of w q i) as Ef by (intros; unfold fd_of; by rewrite P3).
  assert (same_pids w (set_fd p fd zero_fd w3)) as Hs by (intros q; by rewrite pid_set_fd, P3).
  intros ->. fold w1 w2 w3. split; [|split; [done|]].
  - eapply fd_ok_ext; [apply (set_fd_ok _ _ _ _ p fd zero_fd H3 Hp Hfd)| |].
    + intros [=].
    + done.
    + intros k id Ho. cbv beta. rewrite Ef. fold e. rewrite (holds_unused k id zero_fd) by done. unfold none2. lia.
    + intros i Hi. cbv beta. rewrite Ef. fold e. rewrite (holds_ref_unused i zero_fd) by done. unfold none1. lia.
  - intros q i. rewrite fd_of_set. case_decide; [done | apply Ef].
Qed.

Lemma for_pid_none w me s : find_proc 64 0 me false w None = (None, s) -> fd_proc_for_pid me false w = (w, None).
Proof.
  intros E. pose proof (find_proc_spec 64 0 me false w None ltac:(lia)) as Hs. unfold fd_proc_for_pid. rewrite E in Hs |- *.
  destruct Hs as [_ [->|(? & _ & [=] & _)]]. done.
Qed.

Lemma for_pid_cases w me :
  (exists p, home w me p /\ fd_proc_for_pid me false w = (w, Some p)) \/ fd_proc_for_pid me false w = (w, None).
Proof.
  destruct (find_proc 64 0 me false w None) as [[p|] s] eqn:E; [left | right; by eapply for_pid_none].
  apply find_proc_found in E. exists p. split; [done | by apply for_pid_home].
Qed.

Lemma close_cases w me fd_u :
  do_sys_close me fd_u w = (w, - EBADF) \/
  exists p e, home w me p /\ 0 <= i32 fd_u < 64 /\ e = fd_of w p (i32 fd_u) /\ f_used e = true /\
    do_sys_close me fd_u w = (set_fd p (i32 fd_u) zero_fd (release_fb e (drop_obj e (put_ref e w))), 0).
Proof.
  unfold do_sys_close. destruct (for_pid_cases w me) as [(p & Hh & ->)| ->]; [|by left]. cbn [snd].
  destruct (fd_get (Some p) (i32 fd_u) w) as [[q e]|] eqn:G; [right | by left].
  apply fd_get_some in G as ([= ->] & Hfd & He & Hu). by exists q, e.
Qed.

Lemma close_ok w me fd_u :
  fds_ok w -> me <> 0 -> fds_ok (fst (do_sys_close me fd_u w)) /\ same_pids w (fst (do_sys_close me fd_u w)).
Proof.
  intros H Hme. destruct (close_cases w me fd_u) as [-> | (p & e & (Hp & Hpid & _) & Hfd & -> & Hu & ->)]; [done|].
  cbn [fst]. edestruct close_place_ok as (Ha & Hb & _); [exact H | | exact Hu | reflexivity | by split].
  split; [done|]. split; [done | congruence].
Qed.

(** A descriptor that holds nothing, as [fd_alloc] leaves it. *)
Definition empty_fd (e : edge_fd) : Prop :=
  (forall k id, object k id -> holds k id e = 0) /\ (forall i, 0 < i < EDGE_MAX_FILE_REFS -> holds_ref i e = 0).

Lemma empty_unused e : f_used e = false -> empty_fd e.
Proof. intros H. split; intros; [by apply holds_unused | by apply holds_ref_unused]. Qed.

Lemma empty_used_fd : empty_fd used_fd.
Proof.
  split.
  - intros k id Ho. by apply holds_uncounted.
  - intros i Hi. unfold holds_ref. destruct (Z.eqb_spec (f_ref used_fd) i) as [E|]; [cbn in E; lia | done].
Qed.

(** A call: the invariant and the owners of the slots are kept. *)
Definition keeps_mid d x w (r : fdw SK) : Prop := fd_ok d none1 x r /\ same_pids w r.
Definition keeps w (r : fdw SK) : Prop := keeps_mid none2 None w r.

Lemma fd_keeps_refl w : fds_ok w -> keeps w w.
Proof. by split. Qed.

Lemma fd_keeps_trans w w1 w2 : keeps w w1 -> keeps w1 w2 -> keeps w w2.
Proof. intros [_ S1] [H2 S2]. split; [done|]. intros q. by rewrite S2, S1. Qed.

Lemma place_pids w w' p fd : same_pids w w' -> place w p fd -> place w' p fd.
Proof. intros H (Ha & Hb & Hc). split; [done|]. split; [done|]. by rewrite H. Qed.

(** Replacing one descriptor that holds nothing by another. *)
Lemma set_empty_ok {d x} w p fd e :
  fd_ok d none1 x w -> place w p fd -> empty_fd (fd_of w p fd) -> empty_fd e -> good_fd e -> keeps_mid d x w (set_fd p fd e w).
Proof.
  intros H (Hp & Hfd & Hpid) [E1 E2] [F1 F2] Hg. split; [|intros q; by rewrite pid_set_fd].
  eapply fd_ok_ext; [apply (set_fd_ok _ _ _ _ p fd e H Hp Hfd Hg)| |]; [by intros| |].
  - intros k id Ho. cbv beta. rewrite E1, F1 by done. lia.
  - intros i Hi. cbv beta. rewrite E2, F2 by done. unfold none1. lia.
Qed.

Lemma good_zero : good_fd zero_fd.
Proof. intros [=]. Qed.

Lemma good_used : good_fd used_fd.
Proof. intros _. split; [intros H; by destruct H | cbn; unfold EDGE_MAX_FILE_REFS; lia]. Qed.

Lemma alloc_ok {d x} w p minfd w' i :
  fd_ok d none1 x w -> 0 <= p < 64 -> fp_pid (procs w p) <> 0 -> fd_alloc p minfd w = (w', i) ->
  i = -1 /\ w' = w \/
  place w p i /\ f_used (fd_of w p i) = false /\ w' = set_fd p i used_fd w /\ keeps_mid d x w w'.
Proof.
  intros H Hp Hpid. unfold fd_alloc. set (m := if minfd <? 0 then 0 else minfd).
  assert (0 <= m) as Hm by (subst m; ztest; lia). clearbody m.
  generalize (scan_hit (fun i => negb (f_used (fd_of w p i))) m (Z.to_nat (EDGE_MAX_FD - m)) _ Hm eq_refl).
  generalize (scan (fun i => negb (f_used (fd_of w p i))) m (Z.to_nat (EDGE_MAX_FD - m))). intros j Hj.
  destruct (decide (j = -1)) as [->|E]; [intros [= <- <-]; by left|].
  destruct (Hj E) as (Hr & Hu & _). apply negb_true_iff in Hu. destruct (Z.ltb_spec j 0); [lia|].
  intros [= <- <-]. right. unfold EDGE_MAX_FD in Hr.
  assert (place w p j) as Hpl by (split; [done|]; split; [lia | done]).
  split; [done|]. split; [done|]. split; [done|]. apply set_empty_ok; [done | done | by apply empty_unused | apply empty_used_fd | apply good_used].
Qed.

Lemma good_fdflags f e : good_fd e -> good_fd (with_fdflags f e).
Proof. done. Qed.

Lemma live_set_fd w p fd e k id : live (set_fd p fd e w) k id = live w k id.
Proof. by destruct k. Qed.

Lemma live_set_refs f w k id : live (set_refs f w) k id = live w k id.
Proof. by destruct k. Qed.

Lemma get_ref_objs w i k id : live (fst (file_ref_get i w)) k id = live w k id.
Proof. unfold file_ref_get. repeat case_match; cbn [fst]; by rewrite ?live_set_refs. Qed.

Lemma install_ok w p nfd fl e :
  fds_ok w -> place w p nfd -> empty_fd (fd_of w p nfd) -> f_used e = true -> good_fd e ->
  (object (f_kind e) (f_obj e) -> live w (f_kind e) (f_obj e) = true) ->
  keeps w (fst (install_copy p nfd fl e w)).
Proof.
  intros H Hpl [E1 E2] Hu Hg Hl. pose proof Hpl as (Hp & Hfd & Hpid). unfold install_copy.
  set (w1 := set_fd p nfd e w).
  assert (same_pids w w1) as S1 by (intros q; apply pid_set_fd).
  assert (fd_of w1 p nfd = e) as F1 by (subst w1; rewrite fd_of_set; by rewrite decide_True).
  assert (fd_ok (fun k id => none2 k id + -1 * holds k id e) (fun i => none1 i + -1 * holds_ref i e) None w1) as H1.
  { eapply fd_ok_ext; [apply (set_fd_ok _ _ _ _ p nfd e H Hp Hfd Hg)| |]; [by intros| |].
    - intros k id Ho. cbv beta. rewrite E1 by done. lia.
    - intros i Hi. cbv beta. rewrite E2 by done. lia. }
  assert (live w1 (f_kind e) (f_obj e) = live w (f_kind e) (f_obj e)) as L1 by apply live_set_fd.
  clearbody w1.
  assert (keeps w (set_fd p nfd zero_fd w1)) as Hback.
  { split; [|intros q; by rewrite pid_set_fd, S1].
    eapply fd_ok_ext; [apply (set_fd_ok _ _ _ _ p nfd zero_fd H1 Hp Hfd good_zero)| |]; [done| |].
    - intros k id Ho. cbv beta. rewrite F1, (holds_unused k id zero_fd) by done. unfold none2. lia.
    - intros i Hi. cbv beta. rewrite F1, (holds_ref_unused i zero_fd) by done. unfold none1. lia. }
  destruct (Z.leb_spec (f_ref e) 0); [done|].
  pose proof (get_ref_objs w1 (f_ref e)) as G1.
  destruct (file_ref_get (f_ref e) w1) as [w2 n] eqn:Eg. cbn [fst] in G1.
  destruct (file_ref_get_ok _ _ _ _ _ _ _ H1 Eg) as (P2 & [[-> ->]|(-> & Hi & H2)]).
  { done. }
  cbn [Z.ltb Z.compare fst].
  assert (fd_of w2 p nfd = e) as F2 by (unfold fd_of; rewrite P2; exact F1).
  assert (same_pids w w2) as S2 by (intros q; by rewrite P2, S1).
  set (e' := with_fdflags fl e). set (w3 := set_fd p nfd e' w2).
  assert (fd_ok (fun k id => none2 k id + -1 * holds k id e) none1 None w3) as H3.
  { eapply fd_ok_ext; [apply (set_fd_ok _ _ _ _ p nfd e' H2 Hp Hfd)| |].
    - by apply good_fdflags.
    - rewrite S2. by intros.
    - intros k id Ho. cbv beta. rewrite F2. change (holds k id e') with (holds k id e). lia.
    - intros i Hii. cbv beta. rewrite F2. change (holds_ref i e') with (holds_ref i e).
      unfold holds_ref, one, none1. rewrite Hu. cbn [andb]. lia. }
  assert (live w3 (f_kind e) (f_obj e) = live w (f_kind e) (f_obj e)) as L3.
  { subst w3. by rewrite live_set_fd, G1, L1. }
  assert (same_pids w w3) as S3 by (intros q; subst w3; by rewrite pid_set_fd).
  clearbody w3. destruct (add_obj_frame e w3) as [P4 _]. split; [|intros q; by rewrite P4].
  eapply fd_ok_ext; [apply (add_any_ok _ _ _ e H3 Hu Hg)| |].
  - intros Ho. rewrite L3. by apply Hl.
  - intros k id Ho. cbv beta. unfold none2. lia.
  - done.
Qed.

(** A descriptor of the table names a live object. *)
Lemma table_live w p fd :
  fds_ok w -> 0 <= p < 64 -> 0 <= fd < 64 -> f_used (fd_of w p fd) = true ->
  object (f_kind (fd_of w p fd)) (f_obj (fd_of w p fd)) ->
  live w (f_kind (fd_of w p fd)) (f_obj (fd_of w p fd)) = true.
Proof.
  intros H Hp Hfd Hu Ho. eapply live_of; [exact H | done|].
  exact (counted_self _ _ _ _ p fd H Hp Hfd Hu (fun _ _ => eq_refl) Ho).
Qed.

(** Changing the flags of a descriptor. *)
Lemma reflag_ok w p fd e' :
  fds_ok w -> place w p fd ->
  f_used e' = f_used (fd_of w p fd) -> f_kind e' = f_kind (fd_of w p fd) -> f_obj e' = f_obj (fd_of w p fd) ->
  f_ref e' = f_ref (fd_of w p fd) -> keeps w (set_fd p fd e' w).
Proof.
  intros H (Hp & Hfd & Hpid) Hu Hk Ho Hr. split; [|intros q; by rewrite pid_set_fd].
  eapply fd_ok_ext; [apply (set_fd_ok _ _ _ _ p fd e' H Hp Hfd)| |].
  - intros Hu'. rewrite Hk, Ho, Hr. apply (ok_fds _ _ _ _ H p fd Hp Hfd). congruence.
  - by intros.
  - intros k id _. cbv beta. unfold holds. rewrite Hu, Hk, Ho. unfold none2. lia.
  - intros i _. cbv beta. unfold holds_ref. rewrite Hu, Hr. unfold none1. lia.
Qed.

Lemma other_ok w w' : fds_ok w -> procs w' = procs w -> file_refs w' = file_refs w -> same_objs w w' -> keeps w w'.
Proof. intros H Hp Hf Ho. split; [by apply (same_objs_ok _ _ _ _ _ H) | intros q; by rewrite Hp]. Qed.

Lemma dupfd_ok w p ce minfd fd :
  fds_ok w -> 0 <= p < 64 -> fp_pid (procs w p) <> 0 -> 0 <= fd < 64 -> f_used (fd_of w p fd) = true ->
  keeps w (fst (fcntl_dupfd p ce minfd (fd_of w p fd) w)).
Proof.
  intros H Hp Hpid Hfd Hu. unfold fcntl_dupfd.
  destruct (fd_alloc p minfd w) as [w1 i] eqn:E.
  destruct (alloc_ok _ _ _ _ _ H Hp Hpid E) as [[-> ->]|(Hpl & Hfree & -> & Hk)]; [by apply fd_keeps_refl|].
  destruct (Z.ltb_spec i 0) as [?|_]; [destruct Hpl as (_ & ? & _); lia|].
  eapply fd_keeps_trans; [exact Hk|]. destruct Hk as [H1 S1].
  apply install_ok; [done | by apply (place_pids w) | | done | by apply (ok_fds _ _ _ _ H) |].
  - rewrite fd_of_set, decide_True by done. apply empty_used_fd.
  - intros Ho. rewrite live_set_fd. by apply table_live.
Qed.

Lemma keeps_ok w w' : keeps w w' -> fds_ok w'.
Proof. by intros []. Qed.

Lemma with_stdio_keeps w me w' o :
  fds_ok w -> me <> 0 -> fd_proc_with_stdio me w = (w', o) ->
  fds_ok w' /\ forall p, o = Some p -> home w' me p /\ 0 <= p < 64 /\ fp_pid (procs w' p) <> 0.
Proof.
  intros H Hme E. destruct (with_stdio_ok _ _ _ _ H Hme E) as [H1 Hh]. split; [done|].
  intros p Hp. pose proof (Hh p Hp) as Hhp. split; [done|]. destruct Hhp as (? & -> & _). done.
Qed.

Lemma fcntl_ok w me fd_u cmd arg :
  fds_ok w -> me <> 0 -> fds_ok (fst (do_sys_fcntl me fd_u cmd arg w)).
Proof.
  intros H Hme. unfold do_sys_fcntl. destruct (fd_proc_with_stdio me w) as [w1 o] eqn:E.
  destruct (with_stdio_keeps _ _ _ _ H Hme E) as [H1 Hh].
  destruct (fd_get o (i32 fd_u) w1) as [[p e]|] eqn:G; [|done].
  apply fd_get_some in G as (-> & Hfd & -> & Hu). destruct (Hh p eq_refl) as (_ & Hp & Hpid).
  assert (place w1 p (i32 fd_u)) as Hpl by done.
  destruct (_ || _); [by apply keeps_ok with w1, dupfd_ok|].
  destruct (_ =? LINUX_F_GETFD); [done|].
  destruct (_ =? LINUX_F_SETFD); [by apply keeps_ok with w1, reflag_ok|].
  destruct (_ =? LINUX_F_GETFL); [done|].
  destruct (_ =? LINUX_F_SETFL).
  { unfold fcntl_setfl. cbn [fst]. match goal with |- fds_ok (if _ then set_sockets _ ?x else _) => set (w2 := x) end.
    assert (fds_ok w2) as H2 by (by apply keeps_ok with w1, reflag_ok). clearbody w2.
    case_match; [|done]. apply keeps_ok with w2, other_ok; [done..|]. intros k id. by destruct k. }
  destruct (_ || _); [done|]. destruct (_ =? LINUX_F_GETLK); [|done].
  unfold fcntl_getlk. repeat case_match; try done. cbn [fst].
  apply keeps_ok with w1, other_ok; [done..|]. intros k id. by destruct k.
Qed.

Lemma dup2_ok w me oldfd newfd :
  fds_ok w -> me <> 0 -> fds_ok (fst (do_sys_dup2 me oldfd newfd w)).
Proof.
  intros H Hme. unfold do_sys_dup2. destruct (fd_proc_with_stdio me w) as [w1 o] eqn:E.
  destruct (with_stdio_keeps _ _ _ _ H Hme E) as [H1 Hh].
  destruct (fd_get o (i32 oldfd) w1) as [[p e]|] eqn:G; [|done].
  apply fd_get_some in G as (-> & Hfd & -> & Hu). destruct (Hh p eq_refl) as (Hho & Hp & Hpid).
  destruct ((i32 newfd <? 0) || _) eqn:T; [done|]. apply orb_false_iff in T as [T1%Z.ltb_ge T2%Z.leb_gt].
  unfold EDGE_MAX_FD in T2. destruct (Z.eqb_spec (i32 oldfd) (i32 newfd)) as [|Hne]; [done|].
  assert (place w1 p (i32 newfd)) as Hpl by (split; [done|]; split; [lia | done]).
  set (w2 := if f_used _ then _ else w1).
  assert (keeps w1 w2 /\ empty_fd (fd_of w2 p (i32 newfd)) /\ fd_of w2 p (i32 oldfd) = fd_of w1 p (i32 oldfd)) as (K2 & E2 & F2).
  { subst w2. destruct (f_used (fd_of w1 p (i32 newfd))) eqn:Eu.
    2: { split; [by apply fd_keeps_refl|]. split; [by apply empty_unused | done]. }
    assert (i32 (i32 newfd) = i32 newfd) as Ei by (apply i32_small; lia).
    unfold do_sys_close. rewrite (for_pid_home w1 me p false Hho), Ei. cbn [snd].
    assert (fd_get (Some p) (i32 newfd) w1 = Some (p, fd_of w1 p (i32 newfd))) as ->.
    { unfold fd_get. destruct (Z.ltb_spec (i32 newfd) 0); [lia|].
      destruct (Z.leb_spec EDGE_MAX_FD (i32 newfd)); [unfold EDGE_MAX_FD in *; lia|]. by rewrite Eu. }
    cbn [fst]. match goal with |- keeps _ ?x /\ _ => destruct (close_place_ok w1 x p (i32 newfd) H1 Hpl Eu eq_refl) as (Ha & Hb & Hc) end.
    split; [by split|]. rewrite !Hc. rewrite decide_True by done. rewrite decide_False by naive_solver.
    split; [by apply empty_unused | done]. }
  clearbody w2. destruct K2 as [H2 S2]. rewrite F2.
  apply keeps_ok with w2, install_ok; [done | by apply (place_pids w1) | done | done | by apply (ok_fds _ _ _ _ H1) |].
  rewrite <- F2. apply table_live; [done | done | done |]. by rewrite F2.
Qed.

Lemma dup3_ok w me oldfd newfd fl :
  fds_ok w -> me <> 0 -> fds_ok (fst (do_sys_dup3 me oldfd newfd fl w)).
Proof.
  intros H Hme. unfold do_sys_dup3. destruct (negb _); [done|]. destruct (_ =? _); [done|].
  pose proof (dup2_ok w me oldfd newfd H Hme) as H1.
  destruct (do_sys_dup2 me oldfd newfd w) as [w1 r]. cbn [fst] in H1.
  destruct (r <? 0); [done|]. destruct (flag _ _); [|done].
  destruct (fd_proc_with_stdio me w1) as [w2 o] eqn:E.
  destruct (with_stdio_keeps _ _ _ _ H1 Hme E) as [H2 Hh].
  destruct (fd_get o r w2) as [[p e]|] eqn:G; [|done].
  apply fd_get_some in G as (-> & Hfd & -> & Hu). destruct (Hh p eq_refl) as (_ & Hp & Hpid).
  by apply keeps_ok with w2, reflag_ok.
Qed.

(** ** New objects *)

(** An object has one reference more than it has descriptors. *)
Definition owed (k0 : edge_fd_kind) (id : Z) (k : edge_fd_kind) (j : Z) : Z :=
  if test (k0 = k) && (j =? id) then 1 else 0.

Lemma owed_holds k0 id e : f_used e = true -> f_kind e = k0 -> f_obj e = id -> forall k j, owed k0 id k j = holds k j e.
Proof. intros Hu <- <- k j. rewrite holds_eq by done. unfold owed. by destruct (bool_decide _), (j =? _). Qed.

Lemma bump_owed k0 id v v' k j : v = 1 -> v' = 0 -> bump2 k0 k0 id v v' none2 k j = owed k0 id k j.
Proof. intros -> ->. unfold bump2, owed, none2. by destruct (j =? id), (bool_decide _). Qed.

Lemma scan64 p n i : scan p 0 n = i -> i <> -1 -> 0 <= i < Z.of_nat n /\ p i = true.
Proof. intros E Hi. destruct (scan_hit p 0 n i ltac:(lia) E Hi) as (? & ? & _). split; [lia | done]. Qed.

(** The shape of the four allocations of counted objects. *)
Ltac alloc_obj H kind lem cell :=
  match goal with |- context [scan ?p 0 ?n] =>
    generalize (scan64 p n _ eq_refl); generalize (scan p 0 n) end;
  let i := fresh "i" in let Hi := fresh "Hi" in let E := fresh "E" in let Hr := fresh "Hr" in
  let Hu := fresh "Hu" in let Ho := fresh "Ho" in intros i Hi;
  destruct (decide (i = -1)) as [->|E]; [intros [= <- <-]; by left|];
  destruct (Hi E) as [Hr Hu]; apply negb_true_iff in Hu;
  destruct (Z.ltb_spec i 0); [lia|]; intros [= <- <-]; right;
  (assert (object kind i) as Ho by (eexists; split; [reflexivity | done]));
  (split; [done|]); (split; [by cbn; rewrite upd_eq|]);
  pose proof (ok_dead _ _ _ _ H kind i Ho Hu);
  (eapply fd_ok_ext; [apply (lem _ _ _ _ _ _ H); unfold cell; cbn; split_all; intros; (done || lia) | | done]);
  intros; apply bump_owed; [cbn in *; lia | done].

Lemma eventfd_alloc_ok w v b w' id :
  fds_ok w -> eventfd_alloc_obj v b w = (w', id) ->
  id = -1 /\ w' = w \/ object FD_EVENTFD id /\ live w' FD_EVENTFD id = true /\ fd_ok (owed FD_EVENTFD id) none1 None w'.
Proof. intros H. unfold eventfd_alloc_obj. alloc_obj H FD_EVENTFD set_eventfd_ok eventfd_cell. Qed.

Lemma timerfd_alloc_ok w v w' id :
  fds_ok w -> timerfd_alloc_obj v w = (w', id) ->
  id = -1 /\ w' = w \/ object FD_TIMERFD id /\ live w' FD_TIMERFD id = true /\ fd_ok (owed FD_TIMERFD id) none1 None w'.
Proof. intros H. unfold timerfd_alloc_obj. alloc_obj H FD_TIMERFD set_timerfd_ok timerfd_cell. Qed.

Lemma signalfd_alloc_ok w v w' id :
  fds_ok w -> signalfd_alloc_obj v w = (w', id) ->
  id = -1 /\ w' = w \/ object FD_SIGNALFD id /\ live w' FD_SIGNALFD id = true /\ fd_ok (owed FD_SIGNALFD id) none1 None w'.
Proof. intros H. unfold signalfd_alloc_obj. alloc_obj H FD_SIGNALFD set_signalfd_ok signalfd_cell. Qed.

Lemma epoll_alloc_ok w w' id :
  fds_ok w -> epoll_alloc_obj w = (w', id) ->
  id = -1 /\ w' = w \/ object FD_EPOLL id /\ live w' FD_EPOLL id = true /\ fd_ok (owed FD_EPOLL id) none1 None w'.
Proof. intros H. unfold epoll_alloc_obj. alloc_obj H FD_EPOLL set_epoll_ok epoll_cell. Qed.

Lemma with_stdio_mid {d x} w me w' o :
  fd_ok d none1 x w -> me <> 0 -> fd_proc_with_stdio me w = (w', o) ->
  fd_ok d none1 x w' /\ forall p, o = Some p -> 0 <= p < 64 /\ fp_pid (procs w' p) <> 0.
Proof.
  intros H Hme E. destruct (with_stdio_ok _ _ _ _ H Hme E) as [H1 Hh]. split; [done|].
  intros p Hp. destruct (Hh p Hp) as (? & -> & _). done.
Qed.

(** A new descriptor of an object that is owed one. *)
Lemma special_ok w me kind obj fl w' fd :
  fd_ok (owed kind obj) none1 None w -> me <> 0 -> object kind obj ->
  alloc_special_fd me kind obj fl w = (w', fd) ->
  fd < 0 /\ fd_ok (owed kind obj) none1 None w' \/ 0 <= fd /\ fds_ok w'.
Proof.
  intros H Hme Ho. unfold alloc_special_fd. destruct (fd_proc_with_stdio me w) as [w1 o] eqn:E.
  destruct (with_stdio_mid _ _ _ _ H Hme E) as [H1 Hh].
  destruct o as [p|]; [|intros [= <- <-]; by left]. destruct (Hh p eq_refl) as (Hp & Hpid).
  destruct (fd_alloc p 0 w1) as [w2 i] eqn:Ea.
  destruct (alloc_ok _ _ _ _ _ H1 Hp Hpid Ea) as [[-> ->]|(Hpl & Hfree & E2 & [H2 S2])]; [intros [= <- <-]; by left|].
  destruct (Z.ltb_spec i 0) as [?|Hi]; [destruct Hpl as (_ & ? & _); lia|].
  assert (fd_of w2 p i = used_fd) as F2 by (rewrite E2, fd_of_set; by rewrite decide_True).
  clear E2. destruct (file_ref_alloc w2) as [w3 r] eqn:Er.
  destruct (file_ref_alloc_ok _ _ _ _ _ _ H2 Er) as (P3 & [[-> ->]|[Hr H3]]).
  - intros [= <- <-]. left. split; [done|].
    apply (set_empty_ok w2 p i zero_fd H2); [by apply (place_pids w1) | rewrite F2; apply empty_used_fd | by apply empty_unused | apply good_zero].
  - destruct (Z.eqb_spec r 0); [lia|]. intros [= <- <-]. right. split; [done|].
    assert (fd_of w3 p i = used_fd) as F3 by (unfold fd_of; rewrite P3; exact F2).
    set (e := end_fd kind r obj _ _). destruct Hpl as (_ & Hfd & _).
    eapply fd_ok_ext; [apply (set_fd_ok _ _ _ _ p i e H3 Hp Hfd)| |].
    + intros _. split; [intros _; exact Ho | unfold EDGE_MAX_FILE_REFS in *; cbn; lia].
    + rewrite P3, S2. by intros.
    + intros k j Hk. cbv beta. rewrite F3, (owed_holds kind obj e) by done.
      destruct empty_used_fd as [Hu _]. rewrite (Hu k j Hk). unfold none2. lia.
    + intros j Hj. cbv beta. rewrite F3. destruct empty_used_fd as [_ Hu]. rewrite (Hu j Hj).
      unfold holds_ref, one, none1. cbn [end_fd f_used f_ref e andb]. lia.
Qed.

(** Giving the owed reference back. *)
Lemma drop_owed_ok w kind obj e :
  fd_ok (owed kind obj) none1 None w -> object kind obj -> f_used e = true -> f_kind e = kind -> f_obj e = obj ->
  0 <= f_ref e < EDGE_MAX_FILE_REFS -> fds_ok (drop_obj e w).
Proof.
  intros H Ho Hu Hk Hob Hr. eapply fd_ok_ext; [apply (drop_any_ok _ _ _ e H Hu)| |].
  - intros _. split; [intros _; by rewrite Hk, Hob | done].
  - intros _. rewrite (ok_count _ _ _ _ H) by (by rewrite Hk, Hob).
    rewrite (owed_holds kind obj e Hu Hk Hob), holds_self by done.
    assert (0 <= holders (f_kind e) (f_obj e) w); [|lia].
    unfold holders. transitivity (slot (holds (f_kind e) (f_obj e)) (fp_fds (procs w 0))).
    + apply slot_nonneg, holds_nonneg.
    + apply total_ge_slot; [lia | apply holds_nonneg].
  - intros k j Hj. cbv beta. rewrite (owed_holds kind obj e Hu Hk Hob). unfold none2. lia.
  - done.
Qed.

Lemma new_object_ok kind w1 id me fl :
  fd_ok (owed kind id) none1 None w1 -> me <> 0 -> object kind id ->
  let '(w2, fd) := alloc_special_fd me kind id fl w1 in
  fds_ok (if fd <? 0 then drop_obj (end_fd kind 0 id 0 0) w2 else w2).
Proof.
  intros H Hme Ho. destruct (alloc_special_fd me kind id fl w1) as [w2 fd] eqn:E.
  destruct (special_ok _ _ _ _ _ _ _ H Hme Ho E) as [[Hf H2]|[Hf H2]]; destruct (Z.ltb_spec fd 0); try lia; [|done].
  by apply (drop_owed_ok w2 kind id).
Qed.

Lemma eventfd2_ok w me v fl : fds_ok w -> me <> 0 -> fds_ok (fst (do_sys_eventfd2 me v fl w)).
Proof.
  intros H Hme. unfold do_sys_eventfd2. destruct (negb _); [done|].
  destruct (eventfd_alloc_obj _ _ w) as [w1 id] eqn:Ea.
  destruct (eventfd_alloc_ok _ _ _ _ _ H Ea) as [[-> ->]|(Ho & _ & H1)]; [done|].
  destruct (Z.ltb_spec id 0) as [|_]; [destruct Ho as (? & _ & ?); lia|].
  pose proof (new_object_ok FD_EVENTFD w1 id me (object_flags (i32 fl)) H1 Hme Ho) as Hn.
  destruct (alloc_special_fd _ _ _ _ w1) as [w2 fd]. exact Hn.
Qed.

Lemma timerfd_create_ok w me v fl : fds_ok w -> me <> 0 -> fds_ok (fst (do_sys_timerfd_create me v fl w)).
Proof.
  intros H Hme. unfold do_sys_timerfd_create. destruct (negb _); [done|]. destruct (negb _); [done|].
  destruct (timerfd_alloc_obj _ w) as [w1 id] eqn:Ea.
  destruct (timerfd_alloc_ok _ _ _ _ H Ea) as [[-> ->]|(Ho & _ & H1)]; [done|].
  destruct (Z.ltb_spec id 0) as [|_]; [destruct Ho as (? & _ & ?); lia|].
  pose proof (new_object_ok FD_TIMERFD w1 id me (object_flags (i32 fl)) H1 Hme Ho) as Hn.
  destruct (alloc_special_fd _ _ _ _ w1) as [w2 fd]. exact Hn.
Qed.

Lemma epoll_create1_ok w me fl : fds_ok w -> me <> 0 -> fds_ok (fst (do_sys_epoll_create1 me fl w)).
Proof.
  intros H Hme. unfold do_sys_epoll_create1. destruct (negb _); [done|].
  destruct (epoll_alloc_obj w) as [w1 id] eqn:Ea.
  destruct (epoll_alloc_ok _ _ _ H Ea) as [[-> ->]|(Ho & _ & H1)]; [done|].
  destruct (Z.ltb_spec id 0) as [|_]; [destruct Ho as (? & _ & ?); lia|].
  pose proof (new_object_ok FD_EPOLL w1 id me (Z.land (i32 fl) LINUX_O_CLOEXEC) H1 Hme Ho) as Hn.
  destruct (alloc_special_fd _ _ _ _ w1) as [w2 fd]. exact Hn.
Qed.

Lemma signalfd4_ok w me fd_u mu siz fl : fds_ok w -> me <> 0 -> fds_ok (fst (do_sys_signalfd4 me fd_u mu siz fl w)).
Proof.
  intros H Hme. unfold do_sys_signalfd4. destruct (fd_proc_with_stdio me w) as [w0 o] eqn:E.
  destruct (with_stdio_keeps _ _ _ _ H Hme E) as [H0 Hh].
  destruct (_ || _); [done|]. destruct (copy_from_user _ _ _) as [bs|]; [|done]. destruct (negb _); [done|].
  destruct (i32 fd_u =? -1).
  - destruct (signalfd_alloc_obj _ w0) as [w1 id] eqn:Ea.
    destruct (signalfd_alloc_ok _ _ _ _ H0 Ea) as [[-> ->]|(Ho & _ & H1)]; [done|].
    destruct (Z.ltb_spec id 0) as [|_]; [destruct Ho as (? & _ & ?); lia|].
    pose proof (new_object_ok FD_SIGNALFD w1 id me (object_flags (i32 fl)) H1 Hme Ho) as Hn.
    destruct (alloc_special_fd _ _ _ _ w1) as [w2 fd]. exact Hn.
  - destruct (fd_get o (i32 fd_u) w0) as [[p e]|] eqn:G; [|done].
    apply fd_get_some in G as (-> & Hfd & -> & Hu). destruct (Hh p eq_refl) as (_ & Hp & Hpid).
    destruct (negb _); [done|]. destruct (_ || _) eqn:T; [done|].
    apply orb_false_iff in T as [T1 T2%negb_false_iff]. cbn [fst].
    set (id := f_obj (fd_of w0 p (i32 fd_u))) in *. set (sf := signalfds w0 id) in *.
    match goal with |- fds_ok (set_fd _ _ _ ?x) => set (w1 := x) end.
    assert (fds_ok w1) as H1.
    { eapply fd_ok_ext; [apply (set_signalfd_ok _ _ _ _ id _ H0)| |done].
      - assert (object FD_SIGNALFD id) as Ho.
        { exists EDGE_MAX_SIGNALFDS. split; [done|]. apply negb_false_iff in T1. unfold in_range in T1.
          apply andb_true_iff in T1 as [A%Z.leb_le B%Z.ltb_lt]. done. }
        destruct (fd_ok_obj _ _ _ _ _ _ H0 Ho) as (A & B & C). unfold signalfd_cell. cbn in *. fold sf in A, B, C.
        split; [done|]. split; [done|]. intros Hx. destruct (C Hx) as [|[[=] _]]. done.
      - intros k j _. unfold bump2. cbn. fold sf. rewrite Z.sub_diag. repeat case_match; done. }
    assert (forall q i, fd_of w1 q i = fd_of w0 q i) as Ef by done.
    assert (same_pids w0 w1) as S1 by done. clearbody w1.
    apply keeps_ok with w1, reflag_ok; [done | by apply (place_pids w0) | ..]; rewrite Ef; by case_match.
Qed.

(** ** Pipes *)

Definition fresh_pipe : edge_pipe :=
  {| p_used := true; p_readers := 0; p_writers := 0; p_rpos := 0; p_wpos := 0; p_count := 0; p_buf := fun _ => 0 |}.

Lemma pipe_alloc_ok w w' id :
  fds_ok w -> pipe_alloc w = (w', id) ->
  id = -1 /\ w' = w \/ 0 <= id < 32 /\ pipes w' id = fresh_pipe /\ fd_ok none2 none1 (Some id) w'.
Proof.
  intros H. unfold pipe_alloc.
  generalize (scan64 (fun i => negb (p_used (pipes w i))) 32 _ eq_refl).
  generalize (scan (fun i => negb (p_used (pipes w i))) 0 32). intros i Hi.
  destruct (decide (i = -1)) as [->|E]; [intros [= <- <-]; by left|].
  destruct (Hi E) as [Hr Hu]. apply negb_true_iff in Hu.
  destruct (Z.ltb_spec i 0); [lia|]. intros [= <- <-]. right.
  split; [lia|]. split; [cbn; by rewrite upd_eq|].
  assert (object FD_PIPE_R i) as Ho by (eexists; split; [reflexivity | done]).
  pose proof (ok_dead _ _ _ _ H FD_PIPE_R i Ho Hu) as Hz1. pose proof (ok_dead _ _ _ _ H FD_PIPE_W i Ho Hu) as Hz2.
  eapply fd_ok_ext; [apply (set_pipe_ok _ _ _ (Some i) _ i _ H)| |done].
  - unfold pipe_cell. cbn. split_all; intros; (done || lia || by right).
  - done.
  - intros k j _. unfold bump2. cbn in *. rewrite Hz1, Hz2. unfold none2. repeat case_match; done.
Qed.

Lemma free_pipe_ok w id : fd_ok none2 none1 (Some id) w -> pipes w id = fresh_pipe -> fds_ok (free_pipe id w).
Proof.
  intros H Hp. eapply fd_ok_ext; [apply (set_pipe_ok _ _ _ None _ id zero_pipe H)| |done].
  - unfold pipe_cell. cbn. split_all; intros; (done || lia).
  - congruence.
  - intros k j _. rewrite Hp. unfold bump2, none2. cbn. repeat case_match; done.
Qed.

Lemma file_ref_alloc_pipes w : pipes (fst (file_ref_alloc w)) = pipes w.
Proof. unfold file_ref_alloc. by case_match. Qed.
Lemma file_ref_put_pipes i w : pipes (fst (file_ref_put i w)) = pipes w.
Proof. unfold file_ref_put. by repeat case_match. Qed.

(** Emptying a place gives back what its descriptor held. *)
Lemma unset_ok {d r x} w p fd e :
  fd_ok d r x w -> place w p fd -> fd_of w p fd = e ->
  fd_ok (fun k id => d k id + holds k id e) (fun i => r i + holds_ref i e) x (set_fd p fd zero_fd w).
Proof.
  intros H (Hp & Hfd & Hpid) <-.
  eapply fd_ok_ext; [apply (set_fd_ok _ _ _ _ p fd zero_fd H Hp Hfd good_zero)| |]; [done| |].
  - intros k id Ho. cbv beta. rewrite (holds_unused k id zero_fd) by done. lia.
  - intros i Hi. cbv beta. rewrite (holds_ref_unused i zero_fd) by done. lia.
Qed.

(** Filling an empty place takes the new descriptor off the balance. *)
Lemma fill_ok {d r x} w p fd e :
  fd_ok d r x w -> place w p fd -> empty_fd (fd_of w p fd) -> good_fd e ->
  fd_ok (fun k id => d k id - holds k id e) (fun i => r i - holds_ref i e) x (set_fd p fd e w).
Proof.
  intros H (Hp & Hfd & Hpid) [E1 E2] Hg.
  eapply fd_ok_ext; [apply (set_fd_ok _ _ _ _ p fd e H Hp Hfd Hg)| |]; [by intros| |].
  - intros k id Ho. cbv beta. rewrite E1 by done. lia.
  - intros i Hi. cbv beta. rewrite E2 by done. lia.
Qed.

Lemma end_good kind r id fl c :
  object kind id -> 0 < r < EDGE_MAX_FILE_REFS -> good_fd (end_fd kind r id fl c).
Proof. intros Ho Hr _. split; [by intros | cbn; lia]. Qed.

Lemma end_holds_ref kind r id fl c i : holds_ref i (end_fd kind r id fl c) = one r i.
Proof. done. Qed.

Lemma open_ends_ok w p id rfd wfd fl w' ok :
  fd_ok none2 none1 (Some id) w -> pipes w id = fresh_pipe -> 0 <= id < 32 ->
  place w p rfd -> place w p wfd -> rfd <> wfd -> fd_of w p rfd = used_fd -> fd_of w p wfd = used_fd ->
  open_ends p id rfd wfd fl w = (w', ok) -> keeps w w'.
Proof.
  intros H Hpi Hid Hpr Hpw Hne Fr Fw. unfold open_ends.
  set (nb := if flag fl LINUX_O_NONBLOCK then _ else _). set (ce := if flag fl LINUX_O_CLOEXEC then _ else _). clearbody nb ce.
  assert (object FD_PIPE_R id /\ object FD_PIPE_W id) as [OR OW] by (split; eexists; (split; [reflexivity | done])).
  assert (empty_fd (fd_of w p rfd)) as Er by (rewrite Fr; apply empty_used_fd).
  assert (empty_fd (fd_of w p wfd)) as Ew by (rewrite Fw; apply empty_used_fd).
  pose proof (file_ref_alloc_pipes w) as P1. destruct (file_ref_alloc w) as [w1 r1] eqn:E1. cbn [fst] in P1.
  destruct (file_ref_alloc_ok _ _ _ _ _ _ H E1) as (Q1 & [[-> ->]|[Hr1 H1]]).
  { intros [= <- <-]. destruct (set_empty_ok w p rfd zero_fd H Hpr Er (empty_unused zero_fd eq_refl) good_zero) as [Ha Sa].
    destruct (set_empty_ok _ p wfd zero_fd Ha (place_pids _ _ _ _ Sa Hpw)) as [Hb Sb];
      [rewrite fd_of_set, decide_False by naive_solver; exact Ew | by apply empty_unused | apply good_zero |].
    split; [by apply free_pipe_ok | intros q; transitivity (fp_pid (procs (set_fd p rfd zero_fd w) q)); [apply Sb | apply Sa]]. }
  destruct (Z.eqb_spec r1 0); [lia|].
  assert (same_pids w w1) as S1 by (intros q; by rewrite Q1).
  assert (forall i, fd_of w1 p i = fd_of w p i) as F1 by (intros; unfold fd_of; by rewrite Q1).
  set (er := end_fd FD_PIPE_R r1 id nb ce).
  pose proof (fill_ok w1 p rfd er H1 (place_pids _ _ _ _ S1 Hpr) ltac:(by rewrite F1) (end_good _ _ _ _ _ OR Hr1)) as H2.
  set (w2 := set_fd p rfd er w1) in *.
  assert (same_pids w w2) as S2 by (intros q; subst w2; by rewrite pid_set_fd, S1).
  assert (fd_of w2 p rfd = er) as Fr2 by (subst w2; by rewrite fd_of_set, decide_True).
  assert (fd_of w2 p wfd = used_fd) as Fw2.
  { subst w2. rewrite fd_of_set, decide_False by naive_solver. by rewrite F1. }
  assert (pipes w2 id = fresh_pipe) as Pi2 by (by rewrite <- Hpi, <- P1).
  assert (fd_ok (fun k j => none2 k j - holds k j er) none1 (Some id) w2) as H2'.
  { eapply fd_ok_ext; [exact H2 | done|]. intros i Hi. unfold er. rewrite end_holds_ref. unfold none1. lia. }
  clear H2. clearbody w2.
  pose proof (file_ref_alloc_pipes w2) as P3. destruct (file_ref_alloc w2) as [w3 r2] eqn:E3. cbn [fst] in P3.
  destruct (file_ref_alloc_ok _ _ _ _ _ _ H2' E3) as (Q3 & [[-> ->]|[Hr2 H3]]).
  { intros [= <- <-].
    assert (0 < r_refs (file_refs w2 r1)) as Hpos.
    { destruct (ok_files _ _ _ _ H2' r1 Hr1) as (Ha & _). unfold none1 in Ha.
      pose proof (total_ge_fd (holds_ref r1) w2 p rfd (proj1 Hpr) (proj1 (proj2 Hpr)) (holds_ref_nonneg _)) as Hh.
      rewrite Fr2 in Hh. unfold er in Hh. rewrite end_holds_ref in Hh. unfold one in Hh. rewrite Z.eqb_refl in Hh. lia. }
    destruct (file_ref_put_ok _ _ _ _ r1 H2' Hr1 Hpos) as [Q4 H4]. pose proof (file_ref_put_pipes r1 w2) as P4.
    set (w4 := fst (file_ref_put r1 w2)) in *. clearbody w4.
    assert (same_pids w w4) as S4 by (intros q; by rewrite Q4, S2).
    assert (forall i, fd_of w4 p i = fd_of w2 p i) as F4 by (intros; unfold fd_of; by rewrite Q4).
    pose proof (unset_ok w4 p rfd er H4 (place_pids _ _ _ _ S4 Hpr) ltac:(by rewrite F4)) as H5.
    set (w5 := set_fd p rfd zero_fd w4) in *.
    assert (same_pids w w5) as S5 by (intros q; subst w5; by rewrite pid_set_fd, S4).
    assert (fd_of w5 p wfd = used_fd) as Fw5.
    { subst w5. rewrite fd_of_set, decide_False by naive_solver. by rewrite F4. }
    pose proof (unset_ok w5 p wfd used_fd H5 (place_pids _ _ _ _ S5 Hpw) Fw5) as H6.
    split; [|intros q; transitivity (fp_pid (procs (set_fd p wfd zero_fd w5) q)); [done | rewrite pid_set_fd; apply S5]].
    apply free_pipe_ok; [|cbn; by rewrite P4].
    destruct empty_used_fd as [U1 U2].
    eapply fd_ok_ext; [exact H6 | |].
    - intros k j Hk. cbv beta. rewrite U1 by done. unfold none2. lia.
    - intros i Hi. cbv beta. rewrite U2 by done. unfold er. rewrite end_holds_ref. unfold none1. lia. }
  destruct (Z.eqb_spec r2 0); [lia|]. intros [= <- <-].
  assert (same_pids w w3) as S3 by (intros q; by rewrite Q3, S2).
  assert (forall i, fd_of w3 p i = fd_of w2 p i) as F3 by (intros; unfold fd_of; by rewrite Q3).
  set (ew := end_fd FD_PIPE_W r2 id (Z.lor LINUX_O_WRONLY nb) ce).
  pose proof (fill_ok w3 p wfd ew H3 (place_pids _ _ _ _ S3 Hpw) ltac:(rewrite F3, Fw2; apply empty_used_fd)
                (end_good _ _ _ _ _ OW Hr2)) as H4.
  set (w4 := set_fd p wfd ew w3) in *.
  assert (pipes w4 id = fresh_pipe) as Pi4 by (by rewrite <- Pi2, <- P3).
  assert (same_pids w w4) as S4 by (intros q; subst w4; by rewrite pid_set_fd, S3).
  assert (pipes w3 = pipes w4) as P4 by done. rewrite P4.
  clearbody w4. split; [|exact S4].
  eapply fd_ok_ext; [apply (set_pipe_ok _ _ _ None _ id _ H4)| |].
  - rewrite Pi4. unfold pipe_cell. cbn. split_all; intros; (done || lia).
  - congruence.
  - intros k j Hk. rewrite Pi4. unfold bump2. cbn [pipe_ends p_readers p_writers fresh_pipe].
    rewrite !holds_eq by done. unfold er, ew. cbn [end_fd f_kind f_obj]. unfold none2.
    destruct (j =? id); [|lia]. destruct k; reflexivity.
  - intros i Hi. cbv beta. unfold ew. rewrite end_holds_ref. lia.
Qed.
Lemma alloc_pipes p m w : pipes (fst (fd_alloc p m w)) = pipes w.
Proof. unfold fd_alloc. by case_match. Qed.

Lemma ensure_console_pipes pi fd fl w : pipes (fst (ensure_console pi fd fl w)) = pipes w.
Proof.
  unfold ensure_console. case_match; [done|]. pose proof (file_ref_alloc_pipes w) as Hal.
  destruct (file_ref_alloc w) as [w1 r]. cbn [fst] in Hal. case_match; exact Hal.
Qed.

Lemma pipe_alloc_procs w : procs (fst (pipe_alloc w)) = procs w.
Proof. unfold pipe_alloc. by case_match. Qed.

Lemma free_keeps w p fd id :
  fd_ok none2 none1 (Some id) w -> pipes w id = fresh_pipe -> place w p fd -> empty_fd (fd_of w p fd) ->
  fds_ok (free_pipe id (set_fd p fd zero_fd w)).
Proof.
  intros H Hp Hpl He. apply free_pipe_ok; [|exact Hp].
  apply (set_empty_ok w p fd zero_fd H Hpl He); [by apply empty_unused | apply good_zero].
Qed.

(** The two places that [do_sys_pipe] allocates. *)
Lemma two_places w p w2 rfd w3 wfd {d x} :
  fd_ok d none1 x w -> 0 <= p < 64 -> fp_pid (procs w p) <> 0 ->
  fd_alloc p 0 w = (w2, rfd) -> 0 <= rfd -> fd_alloc p 0 w2 = (w3, wfd) -> 0 <= wfd ->
  fd_ok d none1 x w3 /\ same_pids w w3 /\ place w3 p rfd /\ place w3 p wfd /\ rfd <> wfd /\
  fd_of w3 p rfd = used_fd /\ fd_of w3 p wfd = used_fd.
Proof.
  intros H Hp Hpid E2 Hr E3 Hw.
  destruct (alloc_ok _ _ _ _ _ H Hp Hpid E2) as [[-> ->]|(Hpl2 & Hf2 & W2 & [H2 S2])]; [lia|].
  destruct (alloc_ok _ _ _ _ _ H2 Hp ltac:(by rewrite S2) E3) as [[-> ->]|(Hpl3 & Hf3 & W3 & [H3 S3])]; [lia|].
  assert (fd_of w2 p rfd = used_fd) as Fr by (rewrite W2, fd_of_set; by rewrite decide_True).
  assert (rfd <> wfd) as Hne by (intros <-; rewrite Fr in Hf3; done).
  assert (fd_of w3 p rfd = used_fd) as Fr3 by (rewrite W3, fd_of_set, decide_False by naive_solver; exact Fr).
  assert (fd_of w3 p wfd = used_fd) as Fw3 by (rewrite W3, fd_of_set; by rewrite decide_True).
  clear W2 W3. split; [done|]. split; [intros q; by rewrite S3, S2|].
  split; [apply (place_pids w); [intros q; by rewrite S3, S2 | done]|].
  split; [by apply (place_pids w2)|]. done.
Qed.

Lemma pipe_places_ok w p id w' o :
  fd_ok none2 none1 (Some id) w -> 0 <= p < 64 -> fp_pid (procs w p) <> 0 -> pipes w id = fresh_pipe ->
  pipe_places p id w = (w', o) ->
  match o with
  | None => fds_ok w'
  | Some (rfd, wfd) =>
      fd_ok none2 none1 (Some id) w' /\ pipes w' id = fresh_pipe /\ same_pids w w' /\ place w' p rfd /\
      place w' p wfd /\ rfd <> wfd /\ fd_of w' p rfd = used_fd /\ fd_of w' p wfd = used_fd
  end.
Proof.
  intros H Hp Hpid Hpi. unfold pipe_places.
  pose proof (alloc_pipes p 0 w) as P2. destruct (fd_alloc p 0 w) as [w2 rfd] eqn:E2. cbn [fst] in P2.
  destruct (Z.ltb_spec rfd 0) as [Hr|Hr].
  { intros [= <- <-]. destruct (alloc_ok _ _ _ _ _ H Hp Hpid E2) as [[-> ->]|((_ & ? & _) & _)]; [|lia].
    by apply free_pipe_ok. }
  pose proof (alloc_pipes p 0 w2) as P3. destruct (fd_alloc p 0 w2) as [w3 wfd] eqn:E3. cbn [fst] in P3.
  destruct (Z.ltb_spec wfd 0) as [Hw|Hw]; intros [= <- <-].
  - destruct (alloc_ok _ _ _ _ _ H Hp Hpid E2) as [[-> ->]|(Hpl2 & _ & W2 & [H2 S2])]; [lia|].
    destruct (alloc_ok _ _ _ _ _ H2 Hp ltac:(by rewrite S2) E3) as [[-> ->]|((_ & ? & _) & _)]; [|lia].
    apply free_keeps; [done | congruence | by apply (place_pids w) |].
    rewrite W2, fd_of_set, decide_True by done. apply empty_used_fd.
  - destruct (two_places _ _ _ _ _ _ H Hp Hpid E2 Hr E3 Hw) as (H3 & S3 & Hplr & Hplw & Hne & Fr & Fw).
    split; [exact H3|]. split; [congruence|]. done.
Qed.

#[local] Opaque copy_to_user.

Lemma set_umem_ok m w : fds_ok w -> fds_ok (set_umem m w).
Proof. intros H. apply (keeps_ok w), other_ok; [exact H | reflexivity | reflexivity |]. intros [] j; repeat split. Qed.

Lemma close_two_ok w me a b : fds_ok w -> me <> 0 -> fds_ok (fst (do_sys_close me a (fst (do_sys_close me b w)))).
Proof.
  intros H Hme. destruct (close_ok w me b H Hme) as [H5 _]. generalize dependent (fst (do_sys_close me b w)).
  intros w5 H5. exact (proj1 (close_ok w5 me a H5 Hme)).
Qed.

Lemma pipe_report_ok w me a rfd wfd : fds_ok w -> me <> 0 -> fds_ok (fst (pipe_report me a rfd wfd w)).
Proof.
  intros H Hme. unfold pipe_report. pose proof (close_two_ok w me wfd rfd H Hme) as H5.
  generalize dependent (fst (do_sys_close me wfd (fst (do_sys_close me rfd w)))). intros w5 H5.
  destruct (copy_to_user _ _ _) as [m|]; [exact (set_umem_ok m w H) | exact H5].
Qed.

Lemma pipe_ok w me a fl : fds_ok w -> me <> 0 -> fds_ok (fst (do_sys_pipe me a fl w)).
Proof.
  intros H Hme. unfold do_sys_pipe. destruct (negb _); [exact H|].
  destruct (fd_proc_with_stdio me w) as [w0 o] eqn:E.
  destruct (with_stdio_keeps _ _ _ _ H Hme E) as [H0 Hh].
  destruct o as [p|]; [|exact H0]. destruct (Hh p eq_refl) as (_ & Hp & Hpid).
  pose proof (pipe_alloc_procs w0) as P1.
  destruct (pipe_alloc w0) as [w1 id] eqn:E1. cbn [fst] in P1.
  destruct (pipe_alloc_ok _ _ _ H0 E1) as [[-> ->]|(Hid & Hpi & H1)]; [exact H0|].
  destruct (Z.ltb_spec id 0) as [Hlt|_]; [lia|]. rewrite <- P1 in Hpid.
  destruct (pipe_places p id w1) as [w3 o] eqn:E2.
  pose proof (pipe_places_ok _ _ _ _ _ H1 Hp Hpid Hpi E2) as H3. destruct o as [[rfd wfd]|]; [|exact H3].
  destruct H3 as (H3 & Hpi3 & S3 & Hplr & Hplw & Hne & Fr & Fw).
  destruct (open_ends p id rfd wfd (i32 fl) w3) as [w4 ok] eqn:E4.
  destruct (open_ends_ok w3 p id rfd wfd (i32 fl) w4 ok H3 Hpi3 Hid Hplr Hplw Hne Fr Fw E4) as [H4 _].
  destruct ok; cbn [negb]; [by apply pipe_report_ok | exact H4].
Qed.

(** ** Fork and exit *)

(** The descriptors of a slot below [n] counted from the end. *)
Lemma clone_loop_ok n i par child w :
  fds_ok w -> 0 <= i -> i + Z.of_nat n <= 64 -> 0 <= par < 64 -> 0 <= child < 64 -> par <> child ->
  fp_pid (procs w child) <> 0 -> (forall j, i <= j < 64 -> empty_fd (fd_of w child j)) ->
  keeps w (clone_loop n i par child w).
Proof.
  revert i w. induction n as [|n IH]; intros i w H Hi Hn Hp Hc Hne Hpid He; cbn [clone_loop]; [by apply fd_keeps_refl|].
  set (e := fd_of w par i). set (w' := if negb (f_used e) then w else _).
  assert (keeps w w' /\ forall j, j <> i -> fd_of w' child j = fd_of w child j) as [K F].
  { subst w'. destruct (f_used e) eqn:Hu; cbn [negb]; [|split; [by apply fd_keeps_refl | done]].
    assert (good_fd e) as Hg by (apply (ok_fds _ _ _ _ H); lia).
    assert (place w child i) as Hpl by (split; [done|]; split; [lia | done]).
    pose proof (fill_ok w child i e H Hpl (He i ltac:(lia)) Hg) as H1. set (w1 := set_fd child i e w) in *.
    assert (same_pids w w1) as S1 by (intros q; apply pid_set_fd).
    assert (fd_of w1 child i = e) as F1 by (subst w1; rewrite fd_of_set; by rewrite decide_True).
    assert (forall j, j <> i -> fd_of w1 child j = fd_of w child j) as G1.
    { intros j Hj. subst w1. rewrite fd_of_set, decide_False by naive_solver. done. }
    assert (object (f_kind e) (f_obj e) -> live w1 (f_kind e) (f_obj e) = true) as L1.
    { intros Ho. subst w1. rewrite live_set_fd. by apply table_live; [done | done | lia | done | done]. }
    clearbody w1. destruct (Z.ltb_spec 0 (f_ref e)) as [Hlt|Hge].
    - pose proof (get_ref_objs w1 (f_ref e)) as L2.
      destruct (file_ref_get (f_ref e) w1) as [w2 r] eqn:Eg. cbn [fst] in L2.
      destruct (file_ref_get_ok _ _ _ _ _ _ _ H1 Eg) as (P2 & [[-> ->]|(-> & Hr & H2)]); cbn [Z.ltb Z.compare].
      + split.
        * split; [|intros q; by rewrite pid_set_fd].
          eapply fd_ok_ext; [apply (unset_ok w1 child i e H1); [by apply (place_pids w) | done] | |].
          -- intros k j Hk. cbv beta. unfold none2. lia.
          -- intros j Hj. cbv beta. unfold none1. lia.
        * intros j Hj. rewrite fd_of_set, decide_False by naive_solver. by apply G1.
      + destruct (add_obj_frame e w2) as [P3 _]. split.
        * split; [|intros q; by rewrite P3, P2].
          eapply fd_ok_ext; [apply (add_any_ok _ _ w2 e H2 Hu Hg) | |].
          -- intros Ho. rewrite L2. by apply L1.
          -- intros k j Hk. cbv beta. unfold none2. lia.
          -- intros j Hj. cbv beta. unfold holds_ref, one, none1. rewrite Hu. cbn [andb]. lia.
        * intros j Hj. unfold fd_of. rewrite P3, P2. by apply G1.
    - destruct (add_obj_frame e w1) as [P3 _]. split.
      + split; [|intros q; by rewrite P3].
        eapply fd_ok_ext; [apply (add_any_ok _ _ w1 e H1 Hu Hg L1) | |].
        * intros k j Hk. cbv beta. unfold none2. lia.
        * intros j Hj. cbv beta. unfold holds_ref, none1. destruct (Z.eqb_spec (f_ref e) j); [lia|]. rewrite andb_false_r. lia.
      + intros j Hj. unfold fd_of. rewrite P3. by apply G1. }
  clearbody w'. eapply fd_keeps_trans; [exact K|]. destruct K as [H' S'].
  apply IH; try done; try lia; [by rewrite S'|]. intros j Hj. rewrite F by lia. apply He. lia.
Qed.
(** Dropping what the descriptors of [p] hold, from the first on, while they
    stay in the table. *)
Lemma release_loop_ok n k p w f :
  (k + n = 64)%nat -> 0 <= p < 64 -> fp_fds (procs w p) = f ->
  fd_ok (fun kd id => - part (holds kd id) f k) (fun i => - part (holds_ref i) f k) None w ->
  fd_ok (fun kd id => - part (holds kd id) f 64) (fun i => - part (holds_ref i) f 64) None (release_fds n (Z.of_nat k) p w) /\
  procs (release_fds n (Z.of_nat k) p w) = procs w.
Proof.
  revert k w. induction n as [|n IH]; intros k w Hk Hp Hf H; cbn [release_fds].
  { assert (k = 64%nat) as -> by lia. by split. }
  set (e := fd_of w p (Z.of_nat k)). set (w' := if f_used e then _ else w).
  assert (fd_ok (fun kd id => - part (holds kd id) f (S k)) (fun i => - part (holds_ref i) f (S k)) None w' /\ procs w' = procs w)
    as [H' P'].
  { assert (f (Z.of_nat k) = e) as Ee by (subst e; unfold fd_of; by rewrite Hf).
    subst w'. destruct (f_used e) eqn:Hu.
    - pose proof (ok_fds _ _ _ _ H p (Z.of_nat k) Hp ltac:(lia)) as Hg. fold e in Hg.
      destruct (put_ref_ok w e H Hu Hg) as (H1 & P1 & O1).
      { intros Hlt. destruct (Hg Hu) as [_ Hr]. destruct (ok_files _ _ _ _ H (f_ref e) ltac:(lia)) as (Ha & _).
        pose proof (part_le_total (holds_ref (f_ref e)) w p (S k) ltac:(lia) Hp (holds_ref_nonneg _)) as Hle.
        rewrite Hf, part_succ, Ee in Hle. unfold holds_ref at 2 in Hle. rewrite Hu, Z.eqb_refl in Hle.
        cbn [andb] in Hle. lia. }
      destruct (drop_obj_frame e (put_ref e w)) as [P2 _]. split; [|by rewrite P2].
      eapply fd_ok_ext; [apply (drop_any_ok _ _ _ e H1 Hu Hg)| |].
      + intros Ho. destruct (O1 (f_kind e) (f_obj e)) as (-> & _). rewrite (ok_count _ _ _ _ H _ _ Ho).
        pose proof (part_le_total (holds (f_kind e) (f_obj e)) w p (S k) ltac:(lia) Hp (holds_nonneg _ _)) as Hle.
        rewrite Hf, part_succ, Ee, holds_self in Hle by done. unfold holders. lia.
      + intros kd id Ho. cbv beta. rewrite part_succ, Ee. lia.
      + intros i Hi. cbv beta. rewrite part_succ, Ee. lia.
    - split; [|done]. eapply fd_ok_ext; [exact H| |].
      + intros kd id Ho. cbv beta. rewrite part_succ, Ee, holds_unused by done. lia.
      + intros i Hi. cbv beta. rewrite part_succ, Ee, holds_ref_unused by done. lia. }
  clearbody w'. replace (Z.of_nat k + 1) with (Z.of_nat (S k)) by lia.
  destruct (IH (S k) w') as [H2 P2]; [lia | done | by rewrite P' | done |]. split; [done|]. by rewrite P2.
Qed.

Lemma reset_ptys_ok n id t f w : fds_ok w -> fds_ok (reset_ptys n id t f w) /\ procs (reset_ptys n id t f w) = procs w.
Proof.
  revert id w. induction n as [|n IH]; intros id w H; cbn [reset_ptys]; [done|].
  destruct (pty_to_reset t f id && y_used (ptys w id)); [|by apply IH].
  set (w' := set_ptys _ w).
  assert (fds_ok w') as H'.
  { apply (keeps_ok w), other_ok; [exact H | reflexivity | reflexivity |]. subst w'. intros k j.
    destruct k; try (repeat split; reflexivity); cbn [refs_of live all_refs set_ptys ptys];
      rewrite upd_case; case_decide; subst; repeat split; reflexivity. }
  destruct (IH (id + 1) w' H') as [H2 P2]. split; [exact H2|]. rewrite P2. reflexivity.
Qed.

Lemma set_tty_ok t w : fds_ok w -> fds_ok (set_tty t w).
Proof. intros H. apply (keeps_ok w), other_ok; [exact H | reflexivity | reflexivity |]. intros [] j; repeat split. Qed.

Lemma release_ok w pid t : fds_ok w -> fds_ok (fd_proc_release pid t w).
Proof.
  intros H. unfold fd_proc_release. destruct (for_pid_cases w pid) as [(p & (Hp & _) & ->)| ->]; [|exact H]. cbn [snd].
  pose proof (set_tty_ok (reset_line (k_pgid <$> t) (tty w)) w H) as H1.
  set (w1 := set_tty _ w) in *. clearbody w1.
  destruct (reset_ptys_ok 16 0 t (fp_fds (procs w1 p)) w1 H1) as [H2 _].
  set (w2 := reset_ptys 16 0 t (fp_fds (procs w1 p)) w1) in *. clearbody w2.
  destruct (release_loop_ok 64 0 p w2 _ eq_refl Hp eq_refl) as [H3 P3].
  { eapply fd_ok_ext; [exact H2| |]; intros; cbv beta; rewrite part_zero; unfold none2, none1; lia. }
  change (Z.of_nat 0) with 0 in *. set (w3 := release_fds 64 0 p w2) in *. clearbody w3.
  eapply fd_ok_ext; [apply (clear_slot_ok _ _ _ w3 p 0 H3 Hp)| |].
  - intros k id Ho. cbv beta. rewrite part_all, P3. unfold none2. lia.
  - intros i Hi. cbv beta. rewrite part_all, P3. unfold none1. lia.
Qed.

(** A new slot opens consoles only. *)
Definition plain w (p : Z) : Prop := forall i, f_used (fd_of w p i) = true -> limit (f_kind (fd_of w p i)) = None.

Lemma file_ref_alloc_procs w : procs (fst (file_ref_alloc w)) = procs w.
Proof. unfold file_ref_alloc. by case_match. Qed.

Lemma ensure_console_plain pi fd fl w : plain w pi -> plain (fst (ensure_console pi fd fl w)) pi.
Proof.
  intros H. unfold ensure_console. case_match; [done|]. pose proof (file_ref_alloc_procs w) as Hal.
  destruct (file_ref_alloc w) as [w1 r]. cbn [fst] in Hal.
  assert (forall i, fd_of w1 pi i = fd_of w pi i) as E by (intros; unfold fd_of; by rewrite Hal).
  case_match; cbn [fst]; [intros i; rewrite E; apply H|]. intros i. rewrite fd_of_set. case_decide; [done|]. rewrite E. apply H.
Qed.

Lemma ensure_stdio_plain pi w : plain w pi -> plain (fd_ensure_stdio pi w) pi.
Proof.
  intros H. unfold fd_ensure_stdio.
  pose proof (ensure_console_plain pi 0 0 w H) as H1. destruct (ensure_console pi 0 0 w) as [w1 o1]. cbn [fst] in H1.
  destruct o1; cbn [negb]; [|exact H1].
  pose proof (ensure_console_plain pi 1 LINUX_O_WRONLY w1 H1) as H2. destruct (ensure_console pi 1 _ w1) as [w2 o2]. cbn [fst] in H2.
  destruct o2; cbn [negb]; [|exact H2]. by apply ensure_console_plain.
Qed.

Lemma for_pid_new w me w' p :
  (forall q, 0 <= q < 64 -> fp_pid (procs w q) <> me) -> fd_proc_for_pid me true w = (w', Some p) ->
  plain w' p /\ fp_pid (procs w p) = 0.
Proof.
  intros Hno. pose proof (find_proc_spec 64 0 me true w None ltac:(lia)) as Hs. unfold fd_proc_for_pid. destruct (find_proc 64 0 me true w None) as [[q|] s] eqn:E.
  { apply find_proc_found in E as (Hq & Hm & _). by destruct (Hno q Hq). }
  destruct Hs as [_ Hs].
  destruct s as [q|]; [|done]. destruct Hs as [[=]|(q' & [= <-] & _ & Hq & Hz)]. intros [= <- <-]. split; [|exact Hz].
  apply ensure_stdio_plain. intros i. unfold fd_of, set_procs. cbn [procs].
  by rewrite upd_eq.
Qed.

Lemma fd_fork_ok w par child :
  fds_ok w -> par <> 0 -> (forall q, 0 <= q < 64 -> fp_pid (procs w q) <> child) -> fds_ok (fd_clone_after_fork par child w).
Proof.
  intros H Hpar Hno. unfold fd_clone_after_fork.
  destruct (for_pid_cases w par) as [(p & (Hp & Hpp & _) & ->)| ->]; cbn [snd]; [|exact H].
  destruct (Z.leb_spec child 0) as [|Hc]; [exact H|].
  destruct (fd_proc_for_pid child true w) as [w1 o] eqn:E. assert (child <> 0) as Hc0 by lia.
  destruct (for_pid_ok _ _ _ _ H Hc0 E) as [H1 Hh]. destruct o as [q|]; [|exact H1].
  destruct (Hh q eq_refl) as (Hq & Hqp & Hqm). destruct (for_pid_new _ _ _ _ Hno E) as [Hpl Hqz]. rewrite Hqp.
  set (w2 := set_procs _ w1).
  assert (fds_ok w2) as H2.
  { eapply fd_ok_ext; [apply (clear_slot_ok _ _ _ w1 q child H1 Hq)| |].
    - intros k id Ho. cbv beta. rewrite slot_null; [done|]. intros i Hi. specialize (Hpl i). unfold fd_of in Hpl.
      destruct (f_used (fp_fds (procs w1 q) i)) eqn:Hu; [apply holds_uncounted; auto | by apply holds_unused].
    - intros i Hi. cbv beta. assert (0 <= slot (holds_ref i) (fp_fds (procs w1 q))) by (apply slot_nonneg, holds_ref_nonneg).
      unfold none1. lia. }
  assert (procs w2 q = {| fp_pid := child; fp_fds := fun _ => zero_fd |}) as P2 by (subst w2; unfold set_procs; cbn [procs]; by rewrite upd_eq).
  assert (p <> q) as Hpq.
  { intros ->. congruence. }
  assert (fp_pid (procs w2 q) <> 0) as Hq2 by (by rewrite P2).
  clearbody w2. apply (keeps_ok w2), clone_loop_ok; [exact H2 | lia | lia | exact Hp | exact Hq | exact Hpq | exact Hq2|].
  intros j Hj. unfold fd_of. rewrite P2. by apply empty_unused.
Qed.
End fd.
