(* ===== verification/FdCalls.v ===== *)
(** * Runs of the descriptor calls

    The calls of [FdOps.v] that processes make, fork and exit as a step relation
    on the tables, from the state the kernel starts in, and what holds in every
    state a run reaches. *)

From S2P Require Import Prelude CString Path Process Uaccess Vfs Fd FdOps FdInv.

(** The calls, with their arguments as the process passes them. *)
Inductive fd_call :=
  | Close (fd : Z)
  | Fcntl (fd cmd arg : Z)
  | Dup (fd : Z)
  | Dup2 (oldfd newfd : Z)
  | Dup3 (oldfd newfd flags : Z)
  | Pipe2 (pipefd flags : Z)
  | Eventfd2 (initval flags : Z)
  | Timerfd_create (clockid flags : Z)
  | Signalfd4 (fd mask sizemask flags : Z)
  | Epoll_create1 (flags : Z)
  | Epoll_create (size : Z).

Definition zero_tty : console_tty :=
  {| t_termios := zero_termios; t_linebuf := []; t_line_pos := 0; t_foreground_pgid := 0 |}.

Section fd.
Context {SK : Type} `{!sock_layer SK}.
Implicit Types (w : fdw SK).

Definition do_fd_call (me : Z) (c : fd_call) w : fdw SK * Z :=
  match c with
  | Close fd => do_sys_close me fd w
  | Fcntl fd cmd arg => do_sys_fcntl me fd cmd arg w
  | Dup fd => do_sys_dup me fd w
  | Dup2 a b => do_sys_dup2 me a b w
  | Dup3 a b fl => do_sys_dup3 me a b fl w
  | Pipe2 p fl => do_sys_pipe me p fl w
  | Eventfd2 v fl => do_sys_eventfd2 me v fl w
  | Timerfd_create c fl => do_sys_timerfd_create me c fl w
  | Signalfd4 fd mu sz fl => do_sys_signalfd4 me fd mu sz fl w
  | Epoll_create1 fl => do_sys_epoll_create1 me fl w
  | Epoll_create n => do_sys_epoll_create me n w
  end.

(** The tables before the first call: the zeros of static data. *)
Definition fd_init (s : SK) (m : CString.mem) : fdw SK :=
  {| procs := fun _ => {| fp_pid := 0; fp_fds := fun _ => zero_fd |};
     file_refs := fun _ => {| r_used := false; r_refs := 0 |}; pipes := fun _ => zero_pipe; ptys := fun _ => zero_pty;
     eventfds := fun _ => zero_eventfd; timerfds := fun _ => zero_timerfd; signalfds := fun _ => zero_signalfd;
     epolls := fun _ => zero_epoll; sockets := s; tty := tty_reset_defaults; fb_hold := 0; fb_present := true;
     umem := m |}.

(** A process makes a call, forks a child whose number no slot has, or ends; its
    memory changes between calls. *)
Inductive fd_step w : fdw SK -> Prop :=
  | step_call me c : 0 < me -> fd_step w (fst (do_fd_call me c w))
  | step_fork par child :
      0 < par -> (forall q, 0 <= q < 64 -> fp_pid (procs w q) <> child) -> fd_step w (fd_clone_after_fork par child w)
  | step_exit pid t : fd_step w (fd_proc_release pid t w)
  | step_memory m : fd_step w (set_umem m w).

Lemma fd_init_ok s m : fds_ok (fd_init s m).
Proof.
  assert (forall g, g zero_fd = 0 -> total g (fd_init s m) = 0) as Ht.
  { intros g Hg. unfold total. apply sumn_zero. intros i _. cbn [fd_init procs fp_fds]. by apply slot_zero. }
  constructor.
  - intros k id Ho. unfold holders. rewrite Ht by done. by destruct k.
  - intros k id Ho _. by destruct k.
  - intros k id Ho. by destruct k.
  - intros k id Ho. destruct k; cbn; lia.
  - intros p fd _ _. apply good_zero.
  - intros i Hi. rewrite Ht by done. cbn. unfold none1. done.
  - done.
Qed.

Lemma call_ok w me c : fds_ok w -> 0 < me -> fds_ok (fst (do_fd_call me c w)).
Proof.
  intros H Hme. assert (me <> 0) as Hm by lia.
  destruct c as [fd|fd cmd arg|fd|a b|a b fl|p fl|v fl|c fl|fd mu sz fl|fl|n]; cbn [do_fd_call].
  - exact (proj1 (close_ok w me fd H Hm)).
  - exact (fcntl_ok w me fd cmd arg H Hm).
  - exact (fcntl_ok w me fd LINUX_F_DUPFD 0 H Hm).
  - exact (dup2_ok w me a b H Hm).
  - exact (dup3_ok w me a b fl H Hm).
  - by apply pipe_ok.
  - by apply eventfd2_ok.
  - by apply timerfd_create_ok.
  - by apply signalfd4_ok.
  - by apply epoll_create1_ok.
  - unfold do_sys_epoll_create. case_match; [exact H | by apply epoll_create1_ok].
Qed.

Lemma fd_step_ok w w' : fd_step w w' -> fds_ok w -> fds_ok w'.
Proof.
  intros [me c Hme|par child Hpar Hno|pid t|m] H;
    [by apply call_ok | apply fd_fork_ok; [done | lia | done] | by apply release_ok | by apply set_umem_ok].
Qed.

Lemma run_ok w w' : rtc fd_step w w' -> fds_ok w -> fds_ok w'.
Proof. induction 1 as [|w w1 w2 Hs _ IH]; intros H; [done|]. apply IH. by eapply fd_step_ok. Qed.

(** What the invariant says of the counts. *)
Lemma counts_of_ok w k id i :
  fds_ok w -> object k id -> 0 < i < EDGE_MAX_FILE_REFS ->
  refs_of w k id = holders k id w /\ (live w k id = true <-> 0 < all_refs w k id) /\
  total (holds_ref i) w <= r_refs (file_refs w i).
Proof.
  intros H Ho Hi. split; [|split].
  - rewrite (ok_count _ _ _ _ H k id Ho). unfold none2. lia.
  - split; [intros Hl; destruct (ok_live _ _ _ _ H k id Ho Hl) as [|[[=] _]]; done|].
    intros Hp. destruct (live w k id) eqn:El; [done|].
    pose proof (ok_dead _ _ _ _ H k id Ho El) as Hz.
    assert (object (peer k) id) as Hpo by (by apply object_peer).
    pose proof (ok_dead _ _ _ _ H (peer k) id Hpo) as Hz2.
    destruct k; cbn [peer live refs_of all_refs] in *; try lia; specialize (Hz2 El); lia.
  - destruct (ok_files _ _ _ _ H i Hi) as (Ha & _). unfold none1 in Ha. lia.
Qed.

(** In every state that a run of close, dup, fcntl, pipe, eventfd, timerfd,
    signalfd and epoll calls, forks and exits reaches, each count of an object is
    the number of open descriptors that name it over all processes, an object is
    in use exactly while a descriptor names it, and the references of an open
    file are at least the descriptors that hold it. *)
Theorem fd_refs_always_ok s m w k id i :
  rtc fd_step (fd_init s m) w -> object k id -> 0 < i < EDGE_MAX_FILE_REFS ->
  refs_of w k id = holders k id w /\ (live w k id = true <-> 0 < all_refs w k id) /\
  total (holds_ref i) w <= r_refs (file_refs w i).
Proof. intros Hrun Ho Hi. apply counts_of_ok; [|done..]. by apply (run_ok _ _ Hrun), fd_init_ok. Qed.
End fd.

(** ** Runs *)

#[local] Instance no_sockets : sock_layer unit :=
  {| socket_add_ref := fun _ s => s; socket_drop_ref := fun _ s => s; socket_set_nonblock := fun _ _ s => s |}.

(** A page of user memory at the address 0x40000000, all zero. *)
Definition demo_mem : CString.mem := fun _ => 0.

(** Process 5 opens a pipe and an event descriptor, forks 6 and closes its
    reader. *)
Definition demo1 : fdw unit := fst (do_fd_call 5 (Eventfd2 7 0) (fd_init tt demo_mem)).
Definition demo2 : fdw unit := fst (do_fd_call 5 (Dup2 3 9) demo1).
Definition demo3 : fdw unit := fd_clone_after_fork 5 6 demo2.
Definition demo4 : fdw unit := fst (do_fd_call 5 (Close 3) demo3).

Lemma fd_refs_always_ok_witness :
  rtc fd_step (fd_init tt demo_mem) demo4 /\ refs_of demo4 FD_EVENTFD 0 = 3 /\ holders FD_EVENTFD 0 demo4 = 3.
Proof.
  assert (rtc fd_step (fd_init tt demo_mem) demo4) as Hrun.
  { apply rtc_l with demo1; [unfold demo1; apply (step_call _ 5 (Eventfd2 7 0)); reflexivity|].
    apply rtc_l with demo2; [unfold demo2; apply (step_call _ 5 (Dup2 3 9)); reflexivity|].
    apply rtc_l with demo3; [unfold demo3; apply (step_fork _ 5 6); [reflexivity|]|].
    - intros q Hq. assert (forallb (fun q => negb (fp_pid (procs demo2 q) =? 6)) (seqZ 0 64) = true) as Hall
        by (vm_compute; reflexivity).
      rewrite forallb_forall in Hall. specialize (Hall q). rewrite <- list_elem_of_In, elem_of_seqZ in Hall.
      specialize (Hall Hq). lia.
    - apply rtc_once. unfold demo4. apply (step_call demo3 5 (Close 3)). reflexivity. }
  destruct (fd_refs_always_ok tt demo_mem demo4 FD_EVENTFD 0 1 Hrun) as (H & _ & _).
  - exists EDGE_MAX_EVENTFDS. split; [reflexivity | vm_compute; split; [discriminate | reflexivity]].
  - vm_compute. split; reflexivity.
  - split; [exact Hrun|]. assert (refs_of demo4 FD_EVENTFD 0 = 3) as E by (vm_compute; reflexivity).
    split; [exact E | rewrite <- H; exact E].
Defined.

(** The three console references of a new slot are lost when fork clears it:
    after one fork the child holds only the parent's. *)
Example fork_leaks_three_refs :
  let w := fst (do_fd_call 5 (Dup 0) (fd_init tt demo_mem)) in
  let w' := fd_proc_release 6 None (fd_clone_after_fork 5 6 w) in
  map (fun i => r_refs (file_refs w i)) [1; 2; 3; 4; 5; 6] = [2; 1; 1; 0; 0; 0] /\
  map (fun i => r_refs (file_refs w' i)) [1; 2; 3; 4; 5; 6] = [2; 1; 1; 1; 1; 1].
Proof. vm_compute. split; reflexivity. Qed.

(** The lowest free descriptor is not reused when it is a standard one: the
    console is opened again in its place before the copy is made. *)
Example close_zero_reopened :
  let w := fst (do_fd_call 5 (Close 0) (fst (do_fd_call 5 (Eventfd2 7 0) (fd_init tt demo_mem)))) in
  let '(w', r) := do_fd_call 5 (Dup 3) w in
  r = 4 /\ f_kind (fd_of w' 0 0) = FD_CONSOLE.
Proof. vm_compute. split; reflexivity. Qed.
