(* ===== verification/Signals.v ===== *)
(** * Signals of a process

    The signal state of a task ([signals] of [Process.v]) as the calls of
    [syscall.c] change it: handlers, the alarm timer, the signal stack, what a
    blocking call looks at, what a signal descriptor reads, and the delivery of a
    signal on the way back to user code. Times are the microseconds of
    [boottime_monotonic_us]. *)

From S2P Require Import Prelude CString Path Process Uaccess Vfs Fd FdOps.

Definition i64 (z : Z) : Z := (z + 2 ^ 63) mod 2 ^ 64 - 2 ^ 63.

Definition LINUX_SIGALRM : Z := 14.
Definition LINUX_SIGCHLD : Z := 17.
Definition LINUX_SS_ONSTACK : Z := 1.
Definition LINUX_SS_DISABLE : Z := 2.
Definition LINUX_MINSIGSTKSZ : Z := 2048.
Definition LINUX_ITIMER_REAL : Z := 0.
Definition EDGE_SIGTRAMP_ADDR : Z := 0x7FF000.

(** ** Fields *)

Definition with_pending (i a t c : bool) (s : signals) : signals :=
  {| sigint_handler := sigint_handler s; sigalrm_handler := sigalrm_handler s;
     sigterm_handler := sigterm_handler s; sigchld_handler := sigchld_handler s; sigmask := sigmask s;
     itimer_real_next_us := itimer_real_next_us s; itimer_real_interval_us := itimer_real_interval_us s;
     itimer_real_active := itimer_real_active s;
     sigint_pending := i; sigalrm_pending := a; sigterm_pending := t; sigchld_pending := c;
     sig_stub_installed := sig_stub_installed s; sigaltstack_sp := sigaltstack_sp s;
     sigaltstack_size := sigaltstack_size s; sigaltstack_flags := sigaltstack_flags s |}.

Definition with_timer (next interval : Z) (active : bool) (s : signals) : signals :=
  {| sigint_handler := sigint_handler s; sigalrm_handler := sigalrm_handler s;
     sigterm_handler := sigterm_handler s; sigchld_handler := sigchld_handler s; sigmask := sigmask s;
     itimer_real_next_us := next; itimer_real_interval_us := interval; itimer_real_active := active;
     sigint_pending := sigint_pending s; sigalrm_pending := sigalrm_pending s;
     sigterm_pending := sigterm_pending s; sigchld_pending := sigchld_pending s;
     sig_stub_installed := sig_stub_installed s; sigaltstack_sp := sigaltstack_sp s;
     sigaltstack_size := sigaltstack_size s; sigaltstack_flags := sigaltstack_flags s |}.

Definition with_handler (sig h : Z) (s : signals) : signals :=
  {| sigint_handler := if sig =? LINUX_SIGINT then h else sigint_handler s;
     sigalrm_handler := if sig =? LINUX_SIGALRM then h else sigalrm_handler s;
     sigterm_handler := if sig =? LINUX_SIGTERM then h else sigterm_handler s;
     sigchld_handler := if sig =? LINUX_SIGCHLD then h else sigchld_handler s; sigmask := sigmask s;
     itimer_real_next_us := itimer_real_next_us s; itimer_real_interval_us := itimer_real_interval_us s;
     itimer_real_active := itimer_real_active s;
     sigint_pending := sigint_pending s; sigalrm_pending := sigalrm_pending s;
     sigterm_pending := sigterm_pending s; sigchld_pending := sigchld_pending s;
     sig_stub_installed := sig_stub_installed s; sigaltstack_sp := sigaltstack_sp s;
     sigaltstack_size := sigaltstack_size s; sigaltstack_flags := sigaltstack_flags s |}.

Definition with_altstack (stub : bool) (sp size flags : Z) (s : signals) : signals :=
  {| sigint_handler := sigint_handler s; sigalrm_handler := sigalrm_handler s;
     sigterm_handler := sigterm_handler s; sigchld_handler := sigchld_handler s; sigmask := sigmask s;
     itimer_real_next_us := itimer_real_next_us s; itimer_real_interval_us := itimer_real_interval_us s;
     itimer_real_active := itimer_real_active s;
     sigint_pending := sigint_pending s; sigalrm_pending := sigalrm_pending s;
     sigterm_pending := sigterm_pending s; sigchld_pending := sigchld_pending s;
     sig_stub_installed := stub; sigaltstack_sp := sp; sigaltstack_size := size; sigaltstack_flags := flags |}.

Definition set_alarm (b : bool) (s : signals) : signals :=
  with_pending (sigint_pending s) b (sigterm_pending s) (sigchld_pending s) s.

(** The pending flag and the handler of a signal. *)
Definition pending_of (sig : Z) (s : signals) : bool :=
  if sig =? LINUX_SIGINT then sigint_pending s
  else if sig =? LINUX_SIGTERM then sigterm_pending s
  else if sig =? LINUX_SIGALRM then sigalrm_pending s
  else sigchld_pending s.
Definition handler_of (sig : Z) (s : signals) : Z :=
  if sig =? LINUX_SIGINT then sigint_handler s
  else if sig =? LINUX_SIGTERM then sigterm_handler s
  else if sig =? LINUX_SIGALRM then sigalrm_handler s
  else sigchld_handler s.
(** [*pending = 0]. *)
Definition clear_pending (sig : Z) (s : signals) : signals :=
  with_pending (negb (sig =? LINUX_SIGINT) && sigint_pending s) (negb (sig =? LINUX_SIGALRM) && sigalrm_pending s)
    (negb (sig =? LINUX_SIGTERM) && sigterm_pending s) (negb (sig =? LINUX_SIGCHLD) && sigchld_pending s) s.

(** ** The alarm timer *)

(** [do next += interval; while (next <= now);], [None] when [fuel] rounds are
    not enough. *)
Fixpoint timer_advance (fuel : nat) (next interval now : Z) : option Z :=
  match fuel with
  | O => None
  | S f =>
      let next := u64 (next + interval) in
      if next <=? now then timer_advance f next interval now else Some next
  end.

Definition timer_rounds (next interval now : Z) : nat := S (Z.to_nat ((now - next) / interval)).

Definition task_timer_poll (now : Z) (s : signals) : option signals :=
  if negb (itimer_real_active s) then Some s
  else if now <? itimer_real_next_us s then Some s
  else
    let s := set_alarm true s in
    let interval := itimer_real_interval_us s in
    if 0 <? interval then
      match timer_advance (timer_rounds (itimer_real_next_us s) interval now) (itimer_real_next_us s) interval now with
      | Some next => Some (with_timer next interval true s)
      | None => None
      end
    else Some (with_timer 0 interval false s).

Definition us_to_timeval (us : Z) : list Z := le_bytes 8 (us / 1000000) ++ le_bytes 8 (us mod 1000000).

(** A [struct edge_itimerval]: the interval before the value. *)
Definition itimer_bytes (now : Z) (s : signals) : list Z :=
  us_to_timeval (itimer_real_interval_us s) ++
  us_to_timeval (if itimer_real_active s && (now <? itimer_real_next_us s) then itimer_real_next_us s - now else 0).

(** The [struct edge_timeval] at offset [o] of the bytes read. *)
Definition timeval_at (o : nat) (bs : list Z) : Z * Z :=
  (i64 (le_val (take 8 (drop o bs))), i64 (le_val (take 8 (drop (o + 8) bs)))).

(** [if (p && copy_to_user(p, bytes) < 0) return -EFAULT;] *)
Definition put_user (p : Z) (bs : list Z) (m : CString.mem) : option CString.mem :=
  if p =? 0 then Some m else copy_to_user m p bs.

Definition do_sys_setitimer (now which_u new_u old_u : Z) (s : signals) (m : CString.mem) : signals * CString.mem * Z :=
  if negb (which_u =? LINUX_ITIMER_REAL) then (s, m, - EINVAL)
  else if (new_u =? 0) && (old_u =? 0) then (s, m, - EINVAL)
  else
    match put_user old_u (itimer_bytes now s) m with
    | None => (s, m, - EFAULT)
    | Some m =>
        if new_u =? 0 then (s, m, 0)
        else
          match copy_from_user m new_u 32 with
          | None => (s, m, - EFAULT)
          | Some bs =>
              let val_us := timeval_to_us (Some (timeval_at 16 bs)) in
              let int_us := timeval_to_us (Some (timeval_at 0 bs)) in
              let s := set_alarm false s in
              (if val_us =? 0 then with_timer 0 int_us false s
               else with_timer (u64 (now + val_us)) int_us true s, m, 0)
          end
    end.

Definition do_sys_getitimer (now which_u old_u : Z) (s : signals) (m : CString.mem) : CString.mem * Z :=
  if old_u =? 0 then (m, - EINVAL)
  else if negb (which_u =? 0) then (m, - EINVAL)
  else match copy_to_user m old_u (itimer_bytes now s) with None => (m, - EFAULT) | Some m => (m, 0) end.

Definition do_sys_alarm (now seconds_u : Z) (s : signals) : signals * Z :=
  let old_secs :=
    if itimer_real_active s && (now <? itimer_real_next_us s)
    then u64 (itimer_real_next_us s - now + 999999) / 1000000 else 0 in
  let s := set_alarm false s in
  (if seconds_u =? 0 then with_timer 0 0 false s
   else with_timer (u64 (now + u64 (seconds_u * 1000000))) 0 true s, old_secs).

(** ** Handlers, the mask and the signal stack *)

Definition do_sys_rt_sigaction (sig_u act_u old_u sigsetsize_u : Z) (s : signals) (m : CString.mem) : signals * CString.mem * Z :=
  if negb (sigsetsize_u =? 8) then (s, m, - EINVAL)
  else if negb ((sig_u =? LINUX_SIGALRM) || (sig_u =? LINUX_SIGINT) || (sig_u =? LINUX_SIGTERM) || (sig_u =? LINUX_SIGCHLD))
  then (s, m, 0)
  else
    match put_user old_u (le_bytes 8 (handler_of sig_u s) ++ replicate 24 0) m with
    | None => (s, m, - EFAULT)
    | Some m =>
        if act_u =? 0 then (s, m, 0)
        else
          match copy_from_user m act_u 32 with
          | None => (s, m, - EFAULT)
          | Some bs => (with_handler sig_u (le_val (take 8 bs)) s, m, 0)
          end
    end.

Definition do_sys_rt_sigprocmask (oldset_u sigsetsize_u : Z) (s : signals) (m : CString.mem) : CString.mem * Z :=
  if negb (sigsetsize_u =? 8) then (m, - EINVAL)
  else match put_user oldset_u (le_bytes 8 (sigmask s)) m with None => (m, - EFAULT) | Some m => (m, 0) end.

Definition do_sys_sigaltstack (new_u old_u : Z) (s : signals) (m : CString.mem) : signals * CString.mem * Z :=
  match put_user old_u (le_bytes 8 (sigaltstack_sp s) ++ le_bytes 4 (sigaltstack_flags s) ++ replicate 4 0 ++
                        le_bytes 8 (sigaltstack_size s)) m with
  | None => (s, m, - EFAULT)
  | Some m =>
      if new_u =? 0 then (s, m, 0)
      else
        match copy_from_user m new_u 24 with
        | None => (s, m, - EFAULT)
        | Some bs =>
            let ss_sp := le_val (take 8 bs) in
            let ss_flags := i32 (le_val (take 4 (drop 8 bs))) in
            let ss_size := le_val (take 8 (drop 16 bs)) in
            if negb (clear_bits ss_flags (Z.lor LINUX_SS_ONSTACK LINUX_SS_DISABLE) =? 0) then (s, m, - EINVAL)
            else if flag ss_flags LINUX_SS_ONSTACK then (s, m, - EINVAL)
            else if flag ss_flags LINUX_SS_DISABLE
            then (with_altstack (sig_stub_installed s) 0 0 LINUX_SS_DISABLE s, m, 0)
            else if (ss_sp =? 0) || (ss_size <? LINUX_MINSIGSTKSZ) then (s, m, - ENOMEM)
            else if negb (user_range_ok ss_sp ss_size) then (s, m, - EFAULT)
            else (with_altstack (sig_stub_installed s) ss_sp ss_size 0 s, m, 0)
        end
  end.

(** ** What interrupts a blocking call *)

Definition signal_pending_interrupt (now : Z) (s : signals) : option (signals * bool) :=
  match task_timer_poll now s with
  | None => None
  | Some s =>
      Some
        (if sigint_pending s && negb (sigint_handler s =? LINUX_SIG_IGN) then (s, true)
         else
           let s := clear_pending LINUX_SIGINT s in
           if sigterm_pending s && negb (sigterm_handler s =? LINUX_SIG_IGN) then (s, true)
           else
             let s := clear_pending LINUX_SIGTERM s in
             if sigchld_pending s && negb ((sigchld_handler s =? LINUX_SIG_IGN) || (sigchld_handler s =? LINUX_SIG_DFL))
             then (s, true)
             else
               let s := clear_pending LINUX_SIGCHLD s in
               if sigalrm_pending s then
                 if sigalrm_handler s =? LINUX_SIG_IGN then (clear_pending LINUX_SIGALRM s, false)
                 else (s, negb (sigalrm_handler s =? LINUX_SIG_DFL))
               else (s, false))
  end.

Definition sig_bit (sig : Z) : Z := Z.shiftl 1 (sig - 1).

(** The signal that a signal descriptor with this mask reads. *)
Definition signalfd_sig (mask : Z) (s : signals) : Z :=
  if flag mask (sig_bit LINUX_SIGINT) && sigint_pending s then LINUX_SIGINT
  else if flag mask (sig_bit LINUX_SIGTERM) && sigterm_pending s then LINUX_SIGTERM
  else if flag mask (sig_bit LINUX_SIGALRM) && sigalrm_pending s then LINUX_SIGALRM
  else if flag mask (sig_bit LINUX_SIGCHLD) && sigchld_pending s then LINUX_SIGCHLD
  else 0.

Definition signalfd_siginfo (sig pid uid : Z) : list Z :=
  le_bytes 4 sig ++ replicate 8 0 ++ le_bytes 4 pid ++ le_bytes 4 uid ++ replicate 108 0.

(** [pid] and [uid] are those of the reader. *)
Definition signalfd_peek_current (mask : Z) (consume : bool) (pid uid : Z) (s : signals) : signals * option (list Z) :=
  let sig := signalfd_sig mask s in
  if sig =? 0 then (s, None)
  else (if consume then clear_pending sig s else s, Some (signalfd_siginfo sig pid uid)).

(** ** Delivery *)

(** [pop rax; ret] *)
Definition sig_stub : list Z := [0x58; 0xC3].

Definition install_user_sig_stub (s : signals) (m : CString.mem) : option (signals * CString.mem) :=
  if sig_stub_installed s then Some (s, m)
  else
    match copy_to_user m EDGE_SIGTRAMP_ADDR sig_stub with
    | None => None
    | Some m => Some (with_altstack true (sigaltstack_sp s) (sigaltstack_size s) (sigaltstack_flags s) s, m)
    end.

(** The signal to deliver: the first that is pending and not blocked. *)
Definition pick_signal (s : signals) : Z :=
  let ready sig := pending_of sig s && negb (flag (sigmask s) (sig_bit sig)) in
  if ready LINUX_SIGINT then LINUX_SIGINT
  else if ready LINUX_SIGTERM then LINUX_SIGTERM
  else if ready LINUX_SIGALRM then LINUX_SIGALRM
  else if ready LINUX_SIGCHLD then LINUX_SIGCHLD
  else 0.

Definition enter_handler (rsp rip rdi : Z) (r : trap_frame) : trap_frame :=
  {| tf_rax := tf_rax r; tf_rbx := tf_rbx r; tf_rcx := tf_rcx r; tf_rdx := tf_rdx r; tf_rbp := tf_rbp r;
     tf_rdi := rdi; tf_rsi := tf_rsi r; tf_r8 := tf_r8 r; tf_r9 := tf_r9 r; tf_r10 := tf_r10 r;
     tf_r11 := tf_r11 r; tf_r12 := tf_r12 r; tf_r13 := tf_r13 r; tf_r14 := tf_r14 r; tf_r15 := tf_r15 r;
     tf_int_no := tf_int_no r; tf_err_code := tf_err_code r; tf_rip := rip; tf_cs := tf_cs r;
     tf_rflags := tf_rflags r; tf_rsp := rsp; tf_ss := tf_ss r |}.

Inductive delivery :=
  | Back (s : signals) (m : CString.mem) (r : trap_frame)
  | Terminated (code : Z) (s : signals).

(** The handler of [sig] is entered, or nothing happens. *)
Definition deliver (sig : Z) (s : signals) (m : CString.mem) (r : trap_frame) : delivery :=
  let handler := handler_of sig s in
  if negb (user_range_ok handler 1) then Back s m r
  else
    match install_user_sig_stub s m with
    | None => Back s m r
    | Some (s, m) =>
        let new_rsp := tf_rsp r - 24 in
        if (tf_rsp r <? USER_MIN_ADDR + 24) || (USER_MAX_ADDR <? tf_rsp r) then Back s m r
        else if negb (user_range_ok new_rsp 24) then Back s m r
        else
          match copy_to_user m new_rsp (le_bytes 8 EDGE_SIGTRAMP_ADDR ++ le_bytes 8 (tf_rax r) ++ le_bytes 8 (tf_rip r)) with
          | None => Back s m r
          | Some m => Back (clear_pending sig s) m (enter_handler new_rsp handler sig r)
          end
    end.

(** [None]: the timer loop did not end. *)
Definition maybe_deliver_signal_on_sysret (now : Z) (s : signals) (m : CString.mem) (r : trap_frame) : option delivery :=
  match task_timer_poll now s with
  | None => None
  | Some s =>
      let sig := pick_signal s in
      Some
        (if sig =? 0 then Back s m r
         else if handler_of sig s =? LINUX_SIG_IGN then Back (clear_pending sig s) m r
         else if handler_of sig s =? LINUX_SIG_DFL then
           let s := clear_pending sig s in
           if (sig =? LINUX_SIGINT) || (sig =? LINUX_SIGTERM) then Terminated (128 + sig) s else Back s m r
         else deliver sig s m r)
  end.

(** ** The alarm timer catches up *)

Lemma timer_advance_spec n next interval now :
  0 < interval -> 0 <= next <= now -> now + interval < 2 ^ 64 -> (Z.to_nat ((now - next) / interval) < n)%nat ->
  timer_advance n next interval now = Some (next + ((now - next) / interval + 1) * interval).
Proof.
  revert next. induction n as [|n IH]; intros next Hi Hn Ho Hf; [lia|]. cbn [timer_advance].
  rewrite u64_small by lia. pose proof (Z.div_mod (now - next) interval ltac:(lia)) as Hd.
  pose proof (Z.mod_pos_bound (now - next) interval Hi) as Hm.
  destruct (Z.leb_spec (next + interval) now) as [Hle|Hlt].
  - assert ((now - next) / interval = (now - (next + interval)) / interval + 1) as Hq.
    { replace (now - next) with (now - (next + interval) + 1 * interval) by lia. by rewrite Z.div_add by lia. }
    assert (0 <= (now - (next + interval)) / interval) by (apply Z.div_pos; lia).
    rewrite IH by lia. rewrite Hq. f_equal. lia.
  - rewrite Z.div_small by lia. f_equal. lia.
Qed.

(** The loop of [task_timer_poll] ends for a running periodic timer that is
    due: the alarm becomes pending, and the next expiry is the first of the
    multiples of the interval after the old one that lies in the future. *)
Theorem timer_poll_catches_up (now : Z) (s : signals)
    (Hact : itimer_real_active s = true) (Hint : 0 < itimer_real_interval_us s)
    (Hdue : 0 <= itimer_real_next_us s <= now) (Hrange : now + itimer_real_interval_us s < 2 ^ 64) :
  exists s' k, task_timer_poll now s = Some s' /\ sigalrm_pending s' = true /\ itimer_real_active s' = true /\ 1 <= k /\
    itimer_real_next_us s' = itimer_real_next_us s + k * itimer_real_interval_us s /\
    now < itimer_real_next_us s' <= now + itimer_real_interval_us s.
Proof.
  unfold task_timer_poll. rewrite Hact. cbn [negb]. destruct (Z.ltb_spec now (itimer_real_next_us s)); [lia|].
  cbn [set_alarm with_pending itimer_real_interval_us itimer_real_next_us]. rewrite (proj2 (Z.ltb_lt _ _) Hint).
  set (i := itimer_real_interval_us s) in *. set (x := itimer_real_next_us s) in *.
  rewrite timer_advance_spec by (unfold timer_rounds; lia).
  pose proof (Z.div_mod (now - x) i ltac:(lia)) as Hd. pose proof (Z.mod_pos_bound (now - x) i Hint) as Hm.
  assert (0 <= (now - x) / i) by (apply Z.div_pos; lia).
  eexists _, ((now - x) / i + 1). split; [reflexivity|]. cbn. split; [done|]. split; [done|]. split; [lia|].
  split; [done|]. lia.
Qed.

(** ** The way back from a handler *)

(** The two instructions of the stub, on the registers and the memory of user
    code: [pop rax] (0x58) and [ret] (0xC3). *)
Definition pop_rax (m : CString.mem) (r : trap_frame) : trap_frame :=
  {| tf_rax := load64 m (tf_rsp r); tf_rbx := tf_rbx r; tf_rcx := tf_rcx r; tf_rdx := tf_rdx r; tf_rbp := tf_rbp r;
     tf_rdi := tf_rdi r; tf_rsi := tf_rsi r; tf_r8 := tf_r8 r; tf_r9 := tf_r9 r; tf_r10 := tf_r10 r;
     tf_r11 := tf_r11 r; tf_r12 := tf_r12 r; tf_r13 := tf_r13 r; tf_r14 := tf_r14 r; tf_r15 := tf_r15 r;
     tf_int_no := tf_int_no r; tf_err_code := tf_err_code r; tf_rip := tf_rip r + 1; tf_cs := tf_cs r;
     tf_rflags := tf_rflags r; tf_rsp := tf_rsp r + 8; tf_ss := tf_ss r |}.
Definition ret (m : CString.mem) (r : trap_frame) : trap_frame :=
  enter_handler (tf_rsp r + 8) (load64 m (tf_rsp r)) (tf_rdi r) r.
Definition user_step (m : CString.mem) (r : trap_frame) : option trap_frame :=
  if m (tf_rip r) =? 0x58 then Some (pop_rax m r)
  else if m (tf_rip r) =? 0xC3 then Some (ret m r) else None.
Fixpoint user_steps (n : nat) (m : CString.mem) (r : trap_frame) : option trap_frame :=
  match n with
  | O => Some r
  | S n => match user_step m r with Some r => user_steps n m r | None => None end
  end.

(** The stub is where its flag says. *)
Definition stub_ok (s : signals) (m : CString.mem) : Prop :=
  sig_stub_installed s = true -> load_bytes m EDGE_SIGTRAMP_ADDR 2 = sig_stub.

Lemma install_stub_ok s m s' m' :
  stub_ok s m -> install_user_sig_stub s m = Some (s', m') -> load_bytes m' EDGE_SIGTRAMP_ADDR 2 = sig_stub.
Proof.
  intros Hs. unfold install_user_sig_stub. destruct (sig_stub_installed s) eqn:E; [intros [= <- <-]; auto|].
  destruct (copy_to_user m EDGE_SIGTRAMP_ADDR sig_stub) as [m1|] eqn:Ec; [|done]. intros [= <- <-].
  apply copy_to_user_some in Ec as [_ ->]. apply (load_store_bytes m EDGE_SIGTRAMP_ADDR sig_stub).
Qed.

Lemma poll_stub now s s1 : task_timer_poll now s = Some s1 -> sig_stub_installed s1 = sig_stub_installed s.
Proof. unfold task_timer_poll. intros H. repeat case_match; simplify_eq; reflexivity. Qed.

(** The frame that [deliver] pushes. *)
Definition sig_frame (r : trap_frame) : list Z :=
  le_bytes 8 EDGE_SIGTRAMP_ADDR ++ le_bytes 8 (tf_rax r) ++ le_bytes 8 (tf_rip r).

Lemma deliver_cases sig s m r s' m' r' :
  deliver sig s m r = Back s' m' r' ->
  tf_rsp r' = tf_rsp r \/
  exists s1 m1, install_user_sig_stub s m = Some (s1, m1) /\ m' = store_bytes m1 (tf_rsp r - 24) (sig_frame r) /\
    s' = clear_pending sig s1 /\ r' = enter_handler (tf_rsp r - 24) (handler_of sig s) sig r.
Proof.
  unfold deliver. destruct (negb _); [by intros [= <- <- <-]; left|].
  destruct (install_user_sig_stub s m) as [[s1 m1]|]; [|by intros [= <- <- <-]; left].
  destruct (_ || _); [by intros [= <- <- <-]; left|]. destruct (negb _); [by intros [= <- <- <-]; left|].
  destruct (copy_to_user m1 _ _) as [m2|] eqn:E; [|by intros [= <- <- <-]; left].
  intros [= <- <- <-]. right. exists s1, m1. apply copy_to_user_some in E as [_ ->]. done.
Qed.

Lemma clear_pending_of sig s : pending_of sig (clear_pending sig s) = false \/
  sig <> LINUX_SIGINT /\ sig <> LINUX_SIGTERM /\ sig <> LINUX_SIGALRM /\ sig <> LINUX_SIGCHLD.
Proof.
  unfold pending_of, clear_pending. cbn.
  destruct (Z.eqb_spec sig LINUX_SIGINT); [by left|]. destruct (Z.eqb_spec sig LINUX_SIGTERM); [by left|].
  destruct (Z.eqb_spec sig LINUX_SIGALRM); [by left|]. destruct (Z.eqb_spec sig LINUX_SIGCHLD); [by left | by right].
Qed.

Lemma pick_cases s : pick_signal s = 0 \/ pending_of (pick_signal s) s = true /\ 
  pending_of (pick_signal s) (clear_pending (pick_signal s) s) = false.
Proof.
  unfold pick_signal. repeat match goal with |- context [if ?b then _ else _] => destruct b eqn:?Hb end;
    first [by left | right; apply andb_true_iff in Hb as [Hb _]; by split |
           right; apply andb_true_iff in Hb0 as [Hb0 _]; by split |
           right; apply andb_true_iff in Hb1 as [Hb1 _]; by split |
           right; apply andb_true_iff in Hb2 as [Hb2 _]; by split].
Qed.

(** The frame brings the code before the signal back. *)
Lemma frame_returns m r rh :
  0 <= tf_rax r < 2 ^ 64 -> 0 <= tf_rip r < 2 ^ 64 ->
  load_bytes m (tf_rsp r - 24) 24 = sig_frame r -> load_bytes m EDGE_SIGTRAMP_ADDR 2 = sig_stub ->
  tf_rsp rh = tf_rsp r - 24 -> m (tf_rip rh) = 0xC3 ->
  exists rb, user_steps 3 m rh = Some rb /\ tf_rip rb = tf_rip r /\ tf_rsp rb = tf_rsp r /\ tf_rax rb = tf_rax r.
Proof.
  intros Ha Hi Hf Hs Hsp Hret. unfold sig_frame in Hf.
  rewrite (load_bytes_app m _ 8 16), (load_bytes_app m _ 8 8) in Hf.
  apply app_inj_1 in Hf as [F1 Hf]; [|by rewrite length_load_bytes, length_le_bytes].
  apply app_inj_1 in Hf as [F2 F3]; [|by rewrite length_load_bytes, length_le_bytes].
  assert (m EDGE_SIGTRAMP_ADDR = 0x58 /\ m (EDGE_SIGTRAMP_ADDR + 1) = 0xC3) as [S1 S2] by (cbn [load_bytes] in Hs; by injection Hs).
  cbn [user_steps]. unfold user_step at 1. rewrite Hret. cbn [Z.eqb Pos.eqb].
  set (r1 := ret m rh). assert (tf_rip r1 = EDGE_SIGTRAMP_ADDR /\ tf_rsp r1 = tf_rsp r - 16) as [R1 P1].
  { subst r1. unfold ret, enter_handler, load64. cbn [tf_rip tf_rsp]. rewrite Hsp, F1. split; [reflexivity | lia]. }
  clearbody r1. unfold user_step at 1. rewrite R1, S1. cbn [Z.eqb Pos.eqb].
  set (r2 := pop_rax m r1).
  assert (tf_rip r2 = EDGE_SIGTRAMP_ADDR + 1 /\ tf_rsp r2 = tf_rsp r - 8 /\ tf_rax r2 = tf_rax r) as (R2 & P2 & A2).
  { subst r2. unfold pop_rax, load64. cbn [tf_rip tf_rsp tf_rax]. rewrite R1, P1. split; [done|]. split; [lia|].
    replace (tf_rsp r - 16) with (tf_rsp r - 24 + Z.of_nat 8) by lia. rewrite F2. by apply le_val_bytes. }
  clearbody r2. unfold user_step. rewrite R2, S2. cbn [Z.eqb Pos.eqb].
  eexists. split; [reflexivity|]. unfold ret, enter_handler, load64. cbn [tf_rip tf_rsp tf_rax].
  rewrite P2. split_all; [|lia | exact A2].
  replace (tf_rsp r - 8) with (tf_rsp r - 24 + Z.of_nat 8 + Z.of_nat 8) by lia. rewrite F3. by apply le_val_bytes.
Qed.

(** C32: when the return to user code enters a handler, the signal was pending
    and no longer is, nothing but the 24 bytes below the stack pointer and the
    stub has been written, and a handler that leaves those bytes alone and ends
    in [ret] with the stack pointer it got comes back, through the stub, to the
    interrupted instruction with its stack pointer and its [rax]. *)
Theorem signal_returns (now : Z) (s s' : signals) (m m' m2 : CString.mem) (r r' rh : trap_frame)
    (Hdel : maybe_deliver_signal_on_sysret now s m r = Some (Back s' m' r'))
    (Hentered : tf_rsp r' <> tf_rsp r) (Hstub : stub_ok s m)
    (Hregs : 0 <= tf_rax r < 2 ^ 64 /\ 0 <= tf_rip r < 2 ^ 64)
    (Happart : tf_rsp r <= EDGE_SIGTRAMP_ADDR \/ EDGE_SIGTRAMP_ADDR + 2 <= tf_rsp r - 24)
    (Hsame : forall a, tf_rsp r - 24 <= a < tf_rsp r \/ EDGE_SIGTRAMP_ADDR <= a < EDGE_SIGTRAMP_ADDR + 2 -> m2 a = m' a)
    (Hret : tf_rsp rh = tf_rsp r' /\ m2 (tf_rip rh) = 0xC3) :
  (exists s1, task_timer_poll now s = Some s1 /\ pending_of (tf_rdi r') s1 = true /\
     tf_rip r' = handler_of (tf_rdi r') s1 /\ pending_of (tf_rdi r') s' = false) /\
  (forall a, ~ (tf_rsp r - 24 <= a < tf_rsp r) -> ~ (EDGE_SIGTRAMP_ADDR <= a < EDGE_SIGTRAMP_ADDR + 2) -> m' a = m a) /\
  exists rb, user_steps 3 m2 rh = Some rb /\ tf_rip rb = tf_rip r /\ tf_rsp rb = tf_rsp r /\ tf_rax rb = tf_rax r.
Proof.
  unfold maybe_deliver_signal_on_sysret in Hdel. destruct (task_timer_poll now s) as [s1|] eqn:Ep; [|done].
  destruct (Z.eqb_spec (pick_signal s1) 0) as [|Hsig]; [by injection Hdel as <- <- <-|].
  destruct (pick_cases s1) as [|[Hpend Hclear]]; [done|]. set (sig := pick_signal s1) in *. clearbody sig.
  destruct (handler_of sig s1 =? LINUX_SIG_IGN); [by injection Hdel as <- <- <-|].
  destruct (handler_of sig s1 =? LINUX_SIG_DFL).
  { destruct (_ || _); [done|]. by injection Hdel as <- <- <-. }
  injection Hdel as Hdel. apply deliver_cases in Hdel as [|(s2 & m1 & Hi & -> & -> & ->)]; [done|].
  assert (stub_ok s1 m) as Hst1 by (unfold stub_ok; by rewrite (poll_stub _ _ _ Ep)).
  pose proof (install_stub_ok _ _ _ _ Hst1 Hi) as Hst2. cbn [enter_handler tf_rdi tf_rip tf_rsp] in *.
  assert (length (sig_frame r) = 24%nat) as Hlen by (unfold sig_frame; rewrite !length_app, !length_le_bytes; done).
  split; [|split].
  - exists s1. split; [done|]. split; [done|]. split; [done|].
    unfold install_user_sig_stub in Hi. repeat case_match; simplify_eq; exact Hclear.
  - intros a H1 H2. rewrite store_bytes_out by lia. unfold install_user_sig_stub in Hi.
    destruct (sig_stub_installed s1); [by injection Hi as _ ->|].
    destruct (copy_to_user m _ _) as [m3|] eqn:E; [|done]. injection Hi as _ <-.
    apply copy_to_user_some in E as [_ ->]. apply store_bytes_out. cbn [sig_stub length Z.of_nat]. lia.
  - destruct Hret as [Hsp Hret]. apply frame_returns; try tauto.
    + rewrite (load_bytes_ext m2 (store_bytes m1 (tf_rsp r - 24) (sig_frame r))) by (intros a Ha; apply Hsame; lia).
      rewrite <- Hlen. apply load_store_bytes.
    + rewrite (load_bytes_ext m2 (store_bytes m1 (tf_rsp r - 24) (sig_frame r))) by (intros a Ha; apply Hsame; lia).
      rewrite (load_bytes_ext _ m1); [exact Hst2|]. intros a Ha. apply store_bytes_out. lia.
Qed.

(** ** Runs *)

(** A task that handles SIGALRM at 0x401000, with an alarm every 100 us that is
    due since 250 us. *)
Definition demo_signals : signals :=
  with_handler LINUX_SIGALRM 0x401000 (with_timer 1000 100 true zero_sigs).

Lemma timer_poll_catches_up_witness :
  exists s', task_timer_poll 1250 demo_signals = Some s' /\ itimer_real_next_us s' = 1300.
Proof.
  destruct (timer_poll_catches_up 1250 demo_signals) as (s' & k & H1 & _ & _ & Hk & H2 & H3);
    [reflexivity | reflexivity | split; discriminate | reflexivity |].
  exists s'. split; [exact H1|]. rewrite H2 in H3 |- *.
  change (itimer_real_next_us demo_signals) with 1000 in *. change (itimer_real_interval_us demo_signals) with 100 in *. lia.
Defined.

(** The code at 0x402000 is interrupted with the stack pointer 0x7000; the
    handler is a single [ret]. *)
Definition demo_regs (rip rsp rax : Z) : trap_frame :=
  {| tf_rax := rax; tf_rbx := 0; tf_rcx := 0; tf_rdx := 0; tf_rbp := 0; tf_rdi := 5; tf_rsi := 0;
     tf_r8 := 0; tf_r9 := 0; tf_r10 := 0; tf_r11 := 0; tf_r12 := 0; tf_r13 := 0; tf_r14 := 0; tf_r15 := 0;
     tf_int_no := 0; tf_err_code := 0; tf_rip := rip; tf_cs := 0; tf_rflags := 0; tf_rsp := rsp; tf_ss := 0 |}.
Definition demo_code : CString.mem := <[0x401000 := 0xC3]> (fun _ => 0).
Definition demo_delivery : option delivery :=
  maybe_deliver_signal_on_sysret 1250 demo_signals demo_code (demo_regs 0x402000 0x7000 7).
Definition demo_handler : signals * CString.mem * trap_frame :=
  match demo_delivery with Some (Back s m r) => (s, m, r) | _ => (zero_sigs, demo_code, demo_regs 0 0 0) end.

Lemma signal_returns_witness :
  tf_rip demo_handler.2 = 0x401000 /\
  exists rb, user_steps 3 demo_handler.1.2 demo_handler.2 = Some rb /\
    tf_rip rb = 0x402000 /\ tf_rsp rb = 0x7000 /\ tf_rax rb = 7.
Proof.
  destruct (signal_returns 1250 demo_signals demo_handler.1.1 demo_code demo_handler.1.2 demo_handler.1.2
    (demo_regs 0x402000 0x7000 7) demo_handler.2 demo_handler.2) as (_ & _ & H).
  - reflexivity.
  - vm_compute. discriminate.
  - intros H. vm_compute in H. discriminate.
  - vm_compute. split; (split; [discriminate | reflexivity]).
  - left. vm_compute. discriminate.
  - intros a _. reflexivity.
  - split; vm_compute; reflexivity.
  - split; [vm_compute; reflexivity | exact H].
Defined.

(** The handler finds the signal number in [rdi], and the interrupted code keeps
    it there: only [rax] is brought back. *)
Example signal_clobbers_rdi :
  (tf_rdi <$> user_steps 3 demo_handler.1.2 demo_handler.2) = Some 14.
Proof. vm_compute. reflexivity. Qed.

(** An alarm with the default action ends no process: it is dropped. *)
Example default_alarm_ignored :
  match maybe_deliver_signal_on_sysret 1250 (with_handler LINUX_SIGALRM LINUX_SIG_DFL demo_signals) demo_code
          (demo_regs 0x402000 0x7000 7) with
  | Some (Back s m r) => sigalrm_pending s = false /\ tf_rip r = 0x402000
  | _ => False
  end.
Proof. vm_compute. split; reflexivity. Qed.
