(* ===== verification/FdIo.v ===== *)
(** * Reading and writing descriptors

    The branches of [do_sys_fd_read] and [do_sys_fd_write] for pipes, event,
    timer and signal descriptors and pseudo-terminals, the timer calls and
    [do_sys_epoll_ctl]. A call that has to wait gives [Wait]: the code then lets
    other tasks run and looks at the condition of its loop again. *)

From S2P Require Import Prelude CString Path Process Uaccess Vfs Ring Fd FdOps Signals.

Definition EINTR : Z := 4.
Definition EPIPE : Z := 32.
Definition EEXIST : Z := 17.
Definition ENOENT : Z := 2.
Definition LINUX_VERASE : nat := 2.
Definition LINUX_VEOF : nat := 4.
Definition LINUX_EPOLL_CTL_ADD : Z := 1.
Definition LINUX_EPOLL_CTL_DEL : Z := 2.
Definition LINUX_EPOLL_CTL_MOD : Z := 3.
Definition LINUX_TFD_TIMER_ABSTIME : Z := 1.
Definition UINT64_MAX : Z := 2 ^ 64 - 1.
(** [sizeof(chunk)]. *)
Definition CHUNK : Z := 4096.

(** The value returned, a wait, or a timer loop that does not end. *)
Inductive io := Done (r : Z) | Wait | Spin.

(** [boottime_monotonic_us] and [boottime_realtime_us]. *)
Record times := { mono : Z; real : Z }.

(** What a blocking loop does when its condition holds. *)
Definition waits (flags now : Z) (sg : signals) : signals * io :=
  if flag flags LINUX_O_NONBLOCK then (sg, Done (- EAGAIN))
  else
    match signal_pending_interrupt now sg with
    | None => (sg, Spin)
    | Some (sg, true) => (sg, Done (- EINTR))
    | Some (sg, false) => (sg, Wait)
    end.

(** ** The byte loops *)

(** The loop that takes [n] bytes out of a ring, from the byte [i] of [total]
    on; [chunk] are the bytes not yet copied to the user. *)
Fixpoint ring_read_loop (size : Z) (n : nat) (i total buf_u : Z) (chunk : list Z) (m : CString.mem) (r : ring) :
    CString.mem * ring * bool :=
  match n with
  | O => (m, r, true)
  | S n =>
      let '(c, r) := pop size r in
      if (i mod CHUNK =? CHUNK - 1) || (i + 1 =? total) then
        match copy_to_user m (u64 (buf_u + (i - i mod CHUNK))) (chunk ++ [c]) with
        | None => (m, r, false)
        | Some m => ring_read_loop size n (i + 1) total buf_u [] m r
        end
      else ring_read_loop size n (i + 1) total buf_u (chunk ++ [c]) m r
  end.

(** The loop that puts [n] bytes of the user into a pipe. *)
Fixpoint ring_write_loop (size : Z) (n : nat) (i buf_u : Z) (m : CString.mem) (r : ring) : ring * bool :=
  match n with
  | O => (r, true)
  | S n =>
      match copy_from_user m (u64 (buf_u + i)) 1 with
      | Some (c :: _) => ring_write_loop size n (i + 1) buf_u m (push size c r)
      | _ => (r, false)
      end
  end.

(** ** Pipes *)

Definition pipe_ring (p : edge_pipe) : ring := {| rpos := p_rpos p; wpos := p_wpos p; cnt := p_count p; rbuf := p_buf p |}.
Definition pipe_with_ring (r : ring) (p : edge_pipe) : edge_pipe :=
  {| p_used := p_used p; p_readers := p_readers p; p_writers := p_writers p;
     p_rpos := rpos r; p_wpos := wpos r; p_count := cnt r; p_buf := rbuf r |}.

Section fd.
Context {SK : Type} `{!sock_layer SK}.
Implicit Types (w : fdw SK) (sg : signals).

Definition set_pipe_ring (id : Z) (r : ring) w : fdw SK :=
  set_pipes (<[id := pipe_with_ring r (pipes w id)]> (pipes w)) w.

Definition pipe_read (now : Z) (e : edge_fd) (buf_u len : Z) w sg : fdw SK * signals * io :=
  if negb (in_range (f_obj e) EDGE_MAX_PIPES) then (w, sg, Done (- EBADF))
  else
    let pp := pipes w (f_obj e) in
    if negb (p_used pp) then (w, sg, Done (- EBADF))
    else if p_count pp =? 0 then
      if p_writers pp =? 0 then (w, sg, Done 0)
      else let '(sg, o) := waits (f_flags e) now sg in (w, sg, o)
    else
      let n := if p_count pp <? len then p_count pp else len in
      match ring_read_loop EDGE_PIPE_SIZE (Z.to_nat n) 0 n buf_u [] (umem w) (pipe_ring pp) with
      | (m, r, ok) => (set_umem m (set_pipe_ring (f_obj e) r w), sg, Done (if ok then n else - EFAULT))
      end.

Definition pipe_write (now : Z) (e : edge_fd) (buf_u len : Z) w sg : fdw SK * signals * io :=
  if negb (in_range (f_obj e) EDGE_MAX_PIPES) then (w, sg, Done (- EBADF))
  else
    let pp := pipes w (f_obj e) in
    if negb (p_used pp) || (p_readers pp =? 0) then (w, sg, Done (- EPIPE))
    else if EDGE_PIPE_SIZE <=? p_count pp then let '(sg, o) := waits (f_flags e) now sg in (w, sg, o)
    else
      let room := u32 (EDGE_PIPE_SIZE - p_count pp) in
      let n := if room <? len then room else len in
      let '(r, ok) := ring_write_loop EDGE_PIPE_SIZE (Z.to_nat n) 0 buf_u (umem w) (pipe_ring pp) in
      (set_pipe_ring (f_obj e) r w, sg, Done (if ok then n else - EFAULT)).

(** ** Event descriptors *)

Definition eventfd_with_counter (c : Z) (v : edge_eventfd) : edge_eventfd :=
  {| ev_used := ev_used v; ev_refs := ev_refs v; ev_counter := c; ev_semaphore := ev_semaphore v |}.
Definition set_counter (id c : Z) w : fdw SK :=
  set_eventfds (<[id := eventfd_with_counter c (eventfds w id)]> (eventfds w)) w.

(** [if (copy_to_user(buf_u, bytes) < 0) return -EFAULT; return sizeof(bytes);] *)
Definition put_result (buf_u : Z) (bs : list Z) w sg : fdw SK * signals * io :=
  match copy_to_user (umem w) buf_u bs with
  | None => (w, sg, Done (- EFAULT))
  | Some m => (set_umem m w, sg, Done (zlength bs))
  end.

Definition eventfd_read (now : Z) (e : edge_fd) (buf_u len : Z) w sg : fdw SK * signals * io :=
  if len <? 8 then (w, sg, Done (- EINVAL))
  else if negb (in_range (f_obj e) EDGE_MAX_EVENTFDS) then (w, sg, Done (- EBADF))
  else
    let ev := eventfds w (f_obj e) in
    if negb (ev_used ev) then (w, sg, Done (- EBADF))
    else if ev_counter ev =? 0 then let '(sg, o) := waits (f_flags e) now sg in (w, sg, o)
    else
      let v := if ev_semaphore ev then 1 else ev_counter ev in
      let c := if ev_semaphore ev then ev_counter ev - 1 else 0 in
      put_result buf_u (le_bytes 8 v) (set_counter (f_obj e) c w) sg.

Definition eventfd_write (now : Z) (e : edge_fd) (buf_u len : Z) w sg : fdw SK * signals * io :=
  if len <? 8 then (w, sg, Done (- EINVAL))
  else if negb (in_range (f_obj e) EDGE_MAX_EVENTFDS) then (w, sg, Done (- EBADF))
  else
    let ev := eventfds w (f_obj e) in
    if negb (ev_used ev) then (w, sg, Done (- EBADF))
    else
      match copy_from_user (umem w) buf_u 8 with
      | None => (w, sg, Done (- EFAULT))
      | Some bs =>
          let v := le_val bs in
          if v =? UINT64_MAX then (w, sg, Done (- EINVAL))
          else if u64 (UINT64_MAX - 1 - ev_counter ev) <? v then let '(sg, o) := waits (f_flags e) now sg in (w, sg, o)
          else (set_counter (f_obj e) (u64 (ev_counter ev + v)) w, sg, Done 8)
      end.

(** ** Timer descriptors *)

Definition timerfd_now_us (t : times) (clockid : Z) : Z := if clockid =? CLOCK_REALTIME then real t else mono t.

Definition timerfd_with (active : bool) (next interval : Z) (t : edge_timerfd) : edge_timerfd :=
  {| tf_used := tf_used t; tf_refs := tf_refs t; tf_clockid := tf_clockid t; tf_active := active;
     tf_next_us := next; tf_interval_us := interval |}.
Definition set_timer (id : Z) (t : edge_timerfd) w : fdw SK := set_timerfds (<[id := t]> (timerfds w)) w.

Definition timerfd_expire_count (clock : times) (t : edge_timerfd) (consume : bool) : edge_timerfd * Z :=
  if negb (tf_used t) || negb (tf_active t) then (t, 0)
  else
    let now := timerfd_now_us clock (tf_clockid t) in
    if now <? tf_next_us t then (t, 0)
    else if 0 <? tf_interval_us t then
      let n := if tf_next_us t <? now then u64 (1 + (now - tf_next_us t) / tf_interval_us t) else 1 in
      (if consume then timerfd_with (tf_active t) (u64 (tf_next_us t + u64 (n * tf_interval_us t))) (tf_interval_us t) t
       else t, n)
    else (if consume then timerfd_with false (tf_next_us t) (tf_interval_us t) t else t, 1).

Definition timerfd_read (clock : times) (e : edge_fd) (buf_u len : Z) w sg : fdw SK * signals * io :=
  if len <? 8 then (w, sg, Done (- EINVAL))
  else if negb (in_range (f_obj e) EDGE_MAX_TIMERFDS) then (w, sg, Done (- EBADF))
  else
    let tf := timerfds w (f_obj e) in
    if negb (tf_used tf) then (w, sg, Done (- EBADF))
    else
      let '(tf, n) := timerfd_expire_count clock tf true in
      if n =? 0 then let '(sg, o) := waits (f_flags e) (mono clock) sg in (set_timer (f_obj e) tf w, sg, o)
      else put_result buf_u (le_bytes 8 n) (set_timer (f_obj e) tf w) sg.

(** A [struct edge_timespec], and the [struct edge_itimerspec] of a timer. *)
Definition timespec_bytes (us : Z) : list Z := le_bytes 8 (us / 1000000) ++ le_bytes 8 (us mod 1000000 * 1000).
Definition itimerspec_bytes (interval : Z) (value : list Z) : list Z := timespec_bytes interval ++ value.

(** A [timespec] has the layout of a [timeval]. *)
Definition timespec_at : nat -> list Z -> Z * Z := timeval_at.

Definition do_sys_timerfd_settime (clock : times) (me fd_u flags_u new_u old_u : Z) w : fdw SK * Z :=
  let '(w, p) := fd_proc_with_stdio me w in
  match fd_get p (i32 fd_u) w with
  | None => (w, - EBADF)
  | Some (_, e) =>
      if negb (test (f_kind e = FD_TIMERFD)) then (w, - EBADF)
      else if negb (in_range (f_obj e) EDGE_MAX_TIMERFDS) then (w, - EBADF)
      else
        let tf := timerfds w (f_obj e) in
        if negb (tf_used tf) || (new_u =? 0) then (w, - EINVAL)
        else
          let now := timerfd_now_us clock (tf_clockid tf) in
          let rem := if tf_active tf && (now <? tf_next_us tf) then tf_next_us tf - now else 0 in
          match put_user old_u (itimerspec_bytes (tf_interval_us tf) (timespec_bytes rem)) (umem w) with
          | None => (w, - EFAULT)
          | Some m =>
              let w := set_umem m w in
              match copy_from_user m new_u 32 with
              | None => (w, - EFAULT)
              | Some bs =>
                  match timespec_to_us_checked (Some (timespec_at 16 bs)), timespec_to_us_checked (Some (timespec_at 0 bs)) with
                  | Some val_us, Some int_us =>
                      (set_timer (f_obj e)
                         (if val_us =? 0 then timerfd_with false 0 int_us tf
                          else timerfd_with true (if flag flags_u LINUX_TFD_TIMER_ABSTIME then val_us else u64 (now + val_us))
                                 int_us tf) w, 0)
                  | _, _ => (w, - EINVAL)
                  end
              end
          end
  end.

Definition do_sys_timerfd_gettime (clock : times) (me fd_u cur_u : Z) w : fdw SK * Z :=
  let '(w, p) := fd_proc_with_stdio me w in
  match fd_get p (i32 fd_u) w with
  | None => (w, - EINVAL)
  | Some (_, e) =>
      if negb (test (f_kind e = FD_TIMERFD)) || (cur_u =? 0) then (w, - EINVAL)
      else if negb (in_range (f_obj e) EDGE_MAX_TIMERFDS) then (w, - EBADF)
      else
        let tf := timerfds w (f_obj e) in
        if negb (tf_used tf) then (w, - EBADF)
        else
          let now := timerfd_now_us clock (tf_clockid tf) in
          let value := if tf_active tf && (now <? tf_next_us tf) then timespec_bytes (tf_next_us tf - now)
                       else if tf_active tf && (tf_next_us tf <=? now) then le_bytes 8 0 ++ le_bytes 8 1
                       else timespec_bytes 0 in
          match copy_to_user (umem w) cur_u (itimerspec_bytes (tf_interval_us tf) value) with
          | None => (w, - EFAULT)
          | Some m => (set_umem m w, 0)
          end
  end.

(** ** Signal descriptors *)

(** A waiting reader is not interrupted by signals. *)
Definition signalfd_read (pid uid : Z) (e : edge_fd) (buf_u len : Z) w sg : fdw SK * signals * io :=
  if len <? 128 then (w, sg, Done (- EINVAL))
  else if negb (in_range (f_obj e) EDGE_MAX_SIGNALFDS) then (w, sg, Done (- EBADF))
  else
    let sf := signalfds w (f_obj e) in
    if negb (sf_used sf) then (w, sg, Done (- EBADF))
    else
      match signalfd_peek_current (sf_mask sf) true pid uid sg with
      | (sg, None) => (w, sg, if flag (f_flags e) LINUX_O_NONBLOCK then Done (- EAGAIN) else Wait)
      | (sg, Some si) => put_result buf_u si w sg
      end.

(** ** Event polls *)

Definition watch_index (l : list epoll_watch) (fd : Z) : Z :=
  scan (fun i => match l !! Z.to_nat i with Some x => w_fd x =? fd | None => false end) 0 (length l).

Definition epoll_with_watch (l : list epoll_watch) (p : edge_epoll) : edge_epoll :=
  {| ep_used := ep_used p; ep_refs := ep_refs p; ep_watch := l |}.

(** The set of watches after an operation with the event [ev] read from the
    user. *)
Definition epoll_change (op fd : Z) (ev : Z * Z) (l : list epoll_watch) : list epoll_watch * Z :=
  let idx := watch_index l fd in
  let x := {| w_fd := fd; w_events := ev.1; w_data := ev.2 |} in
  if op =? LINUX_EPOLL_CTL_ADD then
    if 0 <=? idx then (l, - EEXIST)
    else if EDGE_EPOLL_MAX_WATCH <=? zlength l then (l, - ENOMEM)
    else (l ++ [x], 0)
  else if op =? LINUX_EPOLL_CTL_MOD then
    if idx <? 0 then (l, - ENOENT) else (<[Z.to_nat idx := x]> l, 0)
  else if op =? LINUX_EPOLL_CTL_DEL then
    if idx <? 0 then (l, - ENOENT)
    else (match last l with Some y => removelast (<[Z.to_nat idx := y]> l) | None => l end, 0)
  else (l, - EINVAL).

Definition do_sys_epoll_ctl (me epfd_u op_u fd_u ev_u : Z) w : fdw SK * Z :=
  let '(w, p) := fd_proc_with_stdio me w in
  match fd_get p (i32 epfd_u) w with
  | None => (w, - EBADF)
  | Some (_, e) =>
      if negb (test (f_kind e = FD_EPOLL)) then (w, - EBADF)
      else if negb (in_range (f_obj e) EDGE_MAX_EPOLLS) then (w, - EBADF)
      else
        let ep := epolls w (f_obj e) in
        if negb (ep_used ep) then (w, - EBADF)
        else
          let op := i32 op_u in
          let fd := i32 fd_u in
          if (fd <? 0) || (fd =? i32 epfd_u) then (w, - EINVAL)
          else
            let change ev :=
              let '(l, r) := epoll_change op fd ev (ep_watch ep) in
              (set_epolls (<[f_obj e := epoll_with_watch l ep]> (epolls w)) w, r) in
            if op =? LINUX_EPOLL_CTL_DEL then change (0, 0)
            else if ev_u =? 0 then (w, - EINVAL)
            else
              match copy_from_user (umem w) ev_u 16 with
              | None => (w, - EFAULT)
              | Some bs => change (le_val (take 4 bs), le_val (take 8 (drop 8 bs)))
              end
  end.
End fd.
