(* ===== verification/Pty.v ===== *)
(** * Pseudo-terminals

    The line discipline of [syscall.c]: what a write of the master puts into the
    rings of a pseudo-terminal (echo, erase, interrupt), what a write of the
    slave does (newline translation), how much a read of the slave takes in
    canonical mode, and the branches of [do_sys_fd_read] and [do_sys_fd_write]
    that use them. *)

From S2P Require Import Prelude CString Path Process Uaccess Vfs Ring Fd FdOps Signals FdIo.

Definition NL : Z := 10.
Definition CR : Z := 13.

(** ** The rings *)

Definition pty_ring_push (c : Z) (r : ring) : ring * Z :=
  if EDGE_PTY_BUF_SIZE <=? cnt r then (r, -1) else (push EDGE_PTY_BUF_SIZE c r, 0).

Definition with_m2s (r : ring) (y : edge_pty) : edge_pty :=
  {| y_used := y_used y; y_refs_master := y_refs_master y; y_refs_slave := y_refs_slave y;
     y_unlocked := y_unlocked y; y_fg_pgid := y_fg_pgid y; y_termios := y_termios y; y_winsz := y_winsz y;
     m2s := r; s2m := s2m y |}.
Definition with_s2m (r : ring) (y : edge_pty) : edge_pty :=
  {| y_used := y_used y; y_refs_master := y_refs_master y; y_refs_slave := y_refs_slave y;
     y_unlocked := y_unlocked y; y_fg_pgid := y_fg_pgid y; y_termios := y_termios y; y_winsz := y_winsz y;
     m2s := m2s y; s2m := r |}.

Definition pty_echo_to_master (c : Z) (y : edge_pty) : edge_pty := with_s2m (fst (pty_ring_push c (s2m y))) y.

(** Stops at the first byte that does not fit. *)
Fixpoint echo_loop (s : list Z) (r : ring) : ring :=
  match s with
  | [] => r
  | c :: s => match pty_ring_push c r with (r, rc) => if rc <? 0 then r else echo_loop s r end
  end.

Definition pty_echo_seq_to_master (s : list Z) (y : edge_pty) : edge_pty := with_s2m (echo_loop s (s2m y)) y.

Definition c_cc_at (y : edge_pty) (i : nat) : Z := nth i (c_cc (y_termios y)) 0.
Definition lflag (y : edge_pty) (f : Z) : bool := flag (c_lflag (y_termios y)) f.
(** [OPOST] and [ONLCR]. *)
Definition onlcr (y : edge_pty) : bool :=
  flag (c_oflag (y_termios y)) LINUX_OPOST && flag (c_oflag (y_termios y)) LINUX_ONLCR.

(** A newline or the EOF character. *)
Definition line_end (y : edge_pty) (c : Z) : bool := (c =? NL) || (c =? c_cc_at y LINUX_VEOF).

Fixpoint have_line (n : nat) (pos : Z) (y : edge_pty) : bool :=
  match n with
  | O => false
  | S n => if line_end y (rbuf (m2s y) pos) then true else have_line n ((pos + 1) mod EDGE_PTY_BUF_SIZE) y
  end.

Definition pty_slave_input_have_canonical_line (y : edge_pty) : bool := have_line (Z.to_nat (cnt (m2s y))) (rpos (m2s y)) y.

Fixpoint line_limit (n : nat) (pos k req : Z) (y : edge_pty) : Z :=
  match n with
  | O => k
  | S n =>
      if req <=? k then k
      else if line_end y (rbuf (m2s y) pos) then k + 1
      else line_limit n ((pos + 1) mod EDGE_PTY_BUF_SIZE) (k + 1) req y
  end.

Definition pty_slave_read_limit (y : edge_pty) (req avail : Z) : Z :=
  let req := if avail <? req then avail else req in
  if negb (lflag y LINUX_ICANON) then req else line_limit (Z.to_nat (cnt (m2s y))) (rpos (m2s y)) 0 req y.

(** ** One byte of a write *)

(** The erase character removes the last byte of the unfinished line. *)
Definition pty_erase (y : edge_pty) : edge_pty :=
  if (0 <? cnt (m2s y)) && negb (rbuf (m2s y) (prev EDGE_PTY_BUF_SIZE (m2s y)) =? NL) then
    let y := with_m2s (unpush EDGE_PTY_BUF_SIZE (m2s y)) y in
    if lflag y LINUX_ECHO then pty_echo_seq_to_master [8; 32; 8] y else y
  else y.

(** Ctrl-C: the group that gets SIGINT, and the echo. *)
Definition pty_interrupt (my_pgid : Z) (y : edge_pty) : edge_pty * list Z :=
  let fg := if y_fg_pgid y <=? 0 then my_pgid else y_fg_pgid y in
  (if lflag y LINUX_ECHO then pty_echo_seq_to_master [94; 67; 10] y else y, if 0 <? fg then [fg] else []).

Definition pty_echo (c : Z) (y : edge_pty) : edge_pty :=
  if lflag y LINUX_ECHO then
    if (c =? CR) || (c =? NL) then
      if onlcr y then pty_echo_seq_to_master [CR; NL] y else pty_echo_to_master c y
    else pty_echo_to_master c y
  else y.

(** The bytes that [c] needs in the ring of the slave's output. *)
Definition need_slots (master : bool) (c : Z) (y : edge_pty) : Z := if negb master && (c =? NL) && onlcr y then 2 else 1.

(** A byte for which there is room: the groups signalled are returned. *)
Definition pty_put (master : bool) (my_pgid c : Z) (y : edge_pty) : edge_pty * list Z :=
  if master then
    if lflag y LINUX_ISIG && (c =? 3) then pty_interrupt my_pgid y
    else if lflag y LINUX_ICANON && (c =? c_cc_at y LINUX_VERASE) then (pty_erase y, [])
    else
      let y := pty_echo c y in
      (with_m2s (push EDGE_PTY_BUF_SIZE c (m2s y)) y, [])
  else
    let y := if (c =? NL) && onlcr y then with_s2m (push EDGE_PTY_BUF_SIZE CR (s2m y)) y else y in
    (with_s2m (push EDGE_PTY_BUF_SIZE c (s2m y)) y, []).

Definition dst_ring (master : bool) (y : edge_pty) : ring := if master then m2s y else s2m y.
Definition src_ring (master : bool) (y : edge_pty) : ring := if master then s2m y else m2s y.
Definition with_src (master : bool) (r : ring) (y : edge_pty) : edge_pty := if master then with_s2m r y else with_m2s r y.
Definition peer_refs (master : bool) (y : edge_pty) : Z := if master then y_refs_slave y else y_refs_master y.

(** The loop of the write: [n] bytes from the byte [i] on; the result is the
    number of bytes consumed, [None] after a fault. *)
Fixpoint pty_write_loop (n : nat) (i : Z) (master : bool) (my_pgid buf_u : Z) (m : CString.mem) (y : edge_pty)
    (sigs : list Z) : edge_pty * list Z * option Z :=
  match n with
  | O => (y, sigs, Some i)
  | S n =>
      match copy_from_user m (u64 (buf_u + i)) 1 with
      | Some (c :: _) =>
          if u32 (EDGE_PTY_BUF_SIZE - cnt (dst_ring master y)) <? need_slots master c y then (y, sigs, Some i)
          else
            let '(y, s) := pty_put master my_pgid c y in
            pty_write_loop n (i + 1) master my_pgid buf_u m y (sigs ++ s)
      | _ => (y, sigs, None)
      end
  end.

Section fd.
Context {SK : Type} `{!sock_layer SK}.
Implicit Types (w : fdw SK) (sg : signals).

Definition set_pty (id : Z) (y : edge_pty) w : fdw SK := set_ptys (<[id := y]> (ptys w)) w.

(** The groups to interrupt are returned with the result. *)
Definition pty_write (now : Z) (master : bool) (my_pgid : Z) (e : edge_fd) (buf_u len : Z) w sg :
    fdw SK * signals * list Z * io :=
  if negb (in_range (f_obj e) EDGE_MAX_PTYS) then (w, sg, [], Done (- EBADF))
  else
    let y := ptys w (f_obj e) in
    if negb (y_used y) then (w, sg, [], Done (- EBADF))
    else if EDGE_PTY_BUF_SIZE <=? cnt (dst_ring master y) then
      if peer_refs master y <=? 0 then (w, sg, [], Done (- EPIPE))
      else let '(sg, o) := waits (f_flags e) now sg in (w, sg, [], o)
    else
      let room := u32 (EDGE_PTY_BUF_SIZE - cnt (dst_ring master y)) in
      let n := if room <? len then room else len in
      match pty_write_loop (Z.to_nat n) 0 master my_pgid buf_u (umem w) y [] with
      | (y, sigs, r) => (set_pty (f_obj e) y w, sg, sigs, Done (match r with Some k => k | None => - EFAULT end))
      end.

Definition pty_read (now : Z) (master : bool) (e : edge_fd) (buf_u len : Z) w sg : fdw SK * signals * io :=
  if negb (in_range (f_obj e) EDGE_MAX_PTYS) then (w, sg, Done (- EBADF))
  else
    let y := ptys w (f_obj e) in
    if negb (y_used y) then (w, sg, Done (- EBADF))
    else if (cnt (src_ring master y) =? 0) ||
            (negb master && lflag y LINUX_ICANON && negb (pty_slave_input_have_canonical_line y)) then
      if peer_refs master y <=? 0 then (w, sg, Done 0)
      else let '(sg, o) := waits (f_flags e) now sg in (w, sg, o)
    else
      let avail := cnt (src_ring master y) in
      let n := if master then (if avail <? len then avail else len) else pty_slave_read_limit y len avail in
      match ring_read_loop EDGE_PTY_BUF_SIZE (Z.to_nat n) 0 n buf_u [] (umem w) (src_ring master y) with
      | (m, r, ok) => (set_umem m (set_pty (f_obj e) (with_src master r y) w), sg, Done (if ok then n else - EFAULT))
      end.

(** ** The two calls

    [other] does the console, socket and file branches. *)

Definition do_sys_fd_read (other : edge_fd -> fdw SK -> signals -> fdw SK * signals * io)
    (clock : times) (me uid fd_u buf_u len : Z) w sg : fdw SK * signals * io :=
  if buf_u =? 0 then (w, sg, Done (- EINVAL))
  else if len =? 0 then (w, sg, Done 0)
  else
    let '(w, p) := fd_proc_with_stdio me w in
    match fd_get p (i32 fd_u) w with
    | None => (w, sg, Done (- EBADF))
    | Some (_, e) =>
        match f_kind e with
        | FD_PTY_MASTER => pty_read (mono clock) true e buf_u len w sg
        | FD_PTY_SLAVE => pty_read (mono clock) false e buf_u len w sg
        | FD_EVENTFD => eventfd_read (mono clock) e buf_u len w sg
        | FD_TIMERFD => timerfd_read clock e buf_u len w sg
        | FD_SIGNALFD => signalfd_read me uid e buf_u len w sg
        | FD_PIDFD | FD_EPOLL => (w, sg, Done (- EINVAL))
        | FD_PIPE_R => pipe_read (mono clock) e buf_u len w sg
        | FD_CONSOLE | FD_SOCKET | FD_VFS => other e w sg
        | FD_NONE | FD_PIPE_W => (w, sg, Done (- EBADF))
        end
    end.

Definition do_sys_fd_write (other : edge_fd -> fdw SK -> signals -> fdw SK * signals * list Z * io)
    (clock : times) (me my_pgid fd_u buf_u len : Z) w sg : fdw SK * signals * list Z * io :=
  if buf_u =? 0 then (w, sg, [], Done (- EINVAL))
  else if len =? 0 then (w, sg, [], Done 0)
  else
    let '(w, p) := fd_proc_with_stdio me w in
    match fd_get p (i32 fd_u) w with
    | None => (w, sg, [], Done (- EBADF))
    | Some (_, e) =>
        let plain r := match r with (w, sg, o) => (w, sg, [], o) end in
        match f_kind e with
        | FD_PTY_MASTER => pty_write (mono clock) true my_pgid e buf_u len w sg
        | FD_PTY_SLAVE => pty_write (mono clock) false my_pgid e buf_u len w sg
        | FD_EVENTFD => plain (eventfd_write (mono clock) e buf_u len w sg)
        | FD_TIMERFD | FD_SIGNALFD | FD_EPOLL | FD_PIDFD => (w, sg, [], Done (- EINVAL))
        | FD_PIPE_W => plain (pipe_write (mono clock) e buf_u len w sg)
        | FD_CONSOLE | FD_SOCKET | FD_VFS => other e w sg
        | FD_NONE | FD_PIPE_R => (w, sg, [], Done (- EBADF))
        end
    end.
End fd.
