(* ===== verification/FdIoInv.v ===== *)
(** * Pipes, event counters and timers do what they promise

    A pipe is a queue of bytes: along every run, what was written is what was
    read followed by what the pipe still holds. An event descriptor counts
    without overflow, and a timer descriptor reports every expiry once. *)

From S2P Require Import Prelude CString Path Process Uaccess Vfs Ring Fd FdOps FdCalls Signals FdIo.

(** An error number is not a byte count. *)
Ltac errno := unfold EBADF, EINVAL, EPIPE, EAGAIN, EINTR, EFAULT in *; lia.

(** ** The byte loops *)

Lemma user_byte m a :
  0 <= a < 2 ^ 64 -> copy_from_user m a 1 = Some [m a] \/ copy_from_user m a 1 = None.
Proof. intros Ha. rewrite copy_byte by done. case_match; auto. Qed.

Section ring.
Context (size : Z) (Hsize : 0 < size < 2 ^ 31).

(** The bytes pushed before a fault are in the ring. *)
Lemma ring_write_spec n i buf_u m r r' ok :
  ring_ok size r -> cnt r + Z.of_nat n <= size -> 0 <= buf_u + i -> buf_u + i + Z.of_nat n <= 2 ^ 64 ->
  ring_write_loop size n i buf_u m r = (r', ok) ->
  exists k, (k <= n)%nat /\ (ok = true -> k = n) /\ ring_ok size r' /\ content size r' = content size r ++ load_bytes m (buf_u + i) k.
Proof.
  revert i r. induction n as [|n IH]; intros i r Hr Hc Hb He; cbn [ring_write_loop].
  { intros [= <- <-]. exists O. split; [done|]. split; [done|]. split; [done|]. by rewrite app_nil_r. }
  rewrite u64_small by lia. pose proof (length_content size r ltac:(apply Hr)) as Hlen.
  destruct (user_byte m (buf_u + i) ltac:(lia)) as [-> | ->].
  - destruct (push_ok size Hsize (m (buf_u + i)) r Hr ltac:(lia)) as [Hr1 Hc1]. intros E.
    assert (cnt (push size (m (buf_u + i)) r) = cnt r + 1) as Hn.
    { cbn [push cnt]. apply u32_small. destruct Hr as (_ & ? & _). lia. }
    destruct (IH (i + 1) _ Hr1 ltac:(lia) ltac:(lia) ltac:(lia) E) as (k & Hk & Hok & Hr' & Hc').
    exists (S k). split; [lia|]. split; [intros; by rewrite Hok|]. split; [done|]. rewrite Hc', Hc1, <- app_assoc.
    cbn [load_bytes app]. do 3 f_equal. lia.
  - intros [= <- <-]. exists O. split; [lia|]. split; [done|]. split; [done|]. by rewrite app_nil_r.
Qed.

(** The bytes popped are gone, and reach the user when no copy faults. *)
Lemma ring_read_spec n i total buf_u chunk m r m' r' ok :
  ring_ok size r -> Z.of_nat n <= cnt r -> 0 <= i -> i + Z.of_nat n = total -> i mod CHUNK = Z.of_nat (length chunk) ->
  0 <= buf_u -> buf_u + total <= 2 ^ 64 -> (n = O -> chunk = []) ->
  ring_read_loop size n i total buf_u chunk m r = (m', r', ok) ->
  ring_ok size r' /\ (ok = true -> exists bs, length bs = n /\ content size r = bs ++ content size r' /\
    m' = store_bytes m (buf_u + (i - i mod CHUNK)) (chunk ++ bs)).
Proof.
  revert i chunk m r. induction n as [|n IH]; intros i chunk m r Hr Hc Hi Ht Hch Hb He Hz; cbn [ring_read_loop].
  { intros [= <- <- <-]. split; [done|]. intros _. exists []. rewrite (Hz eq_refl). done. }
  destruct (pop size r) as [c r1] eqn:Ep. destruct (pop_ok size Hsize c r r1 Hr ltac:(lia) Ep) as (Hr1 & Hc1 & Hn1).
  assert (0 <= i mod CHUNK < CHUNK) as Hm by (apply Z.mod_pos_bound; reflexivity).
  pose proof (Z.div_mod i CHUNK ltac:(discriminate)) as Hd. assert (0 <= i / CHUNK) by (apply Z.div_pos; [done | reflexivity]).
  change CHUNK with 4096 in *.
  destruct ((i mod 4096 =? 4096 - 1) || (i + 1 =? total)) eqn:Eb.
  - rewrite u64_small by lia. destruct (copy_to_user m _ (chunk ++ [c])) as [m1|] eqn:Ec.
    2: { intros [= <- <- <-]. split; [done | by intros]. }
    apply copy_to_user_some in Ec as [_ ->]. intros E. destruct (decide (n = O)) as [->|Hn0].
    { cbn in E. injection E as <- <- <-. split; [done|]. intros _. exists [c]. by rewrite Hc1. }
    assert (i mod 4096 = 4095) as Hlast.
    { apply orb_true_iff in Eb as [Eb|Eb]; lia. }
    assert ((i + 1) mod 4096 = 0) as Hnext by (rewrite <- Zplus_mod_idemp_l, Hlast; reflexivity).
    destruct (IH (i + 1) [] _ r1 Hr1 ltac:(lia) ltac:(lia) ltac:(lia) ltac:(rewrite Hnext; done) Hb ltac:(lia) ltac:(done) E)
      as [Hr' Hok]. split; [done|]. intros Ht1. destruct (Hok Ht1) as (bs & Hl & Hcs & ->).
    exists (c :: bs). split; [cbn; lia|]. split; [by rewrite Hc1, Hcs|]. rewrite Hnext.
    replace (chunk ++ c :: bs) with ((chunk ++ [c]) ++ bs) by (by rewrite <- app_assoc).
    rewrite (store_bytes_app m _ (chunk ++ [c]) bs), length_app. cbn [length app]. f_equal. lia.
  - intros E. apply orb_false_iff in Eb as [Eb1 Eb2].
    assert ((i + 1) mod 4096 = i mod 4096 + 1) as Hnext.
    { rewrite Hd at 1. rewrite <- Z.add_assoc, Z.add_comm, Z.mul_comm, Z.mod_add by lia. apply Z.mod_small. lia. }
    destruct (IH (i + 1) (chunk ++ [c]) _ r1 Hr1 ltac:(lia) ltac:(lia) ltac:(lia)
                ltac:(rewrite Hnext, length_app; cbn [length]; lia) Hb ltac:(lia) ltac:(lia) E) as [Hr' Hok].
    split; [done|]. intros Ht1. destruct (Hok Ht1) as (bs & Hl & Hcs & ->).
    exists (c :: bs). split; [cbn; lia|]. split; [by rewrite Hc1, Hcs|]. rewrite <- app_assoc. cbn [app].
    do 2 f_equal. lia.
Qed.
End ring.

(** ** Pipes *)

Lemma pipe_ring_with r p : pipe_ring (pipe_with_ring r p) = r.
Proof. by destruct r. Qed.

Section fd.
Context {SK : Type} `{!sock_layer SK}.
Implicit Types (w : fdw SK) (sg : signals).

Definition pipe_content (id : Z) w : list Z := content EDGE_PIPE_SIZE (pipe_ring (pipes w id)).
Definition pipe_ok (id : Z) w : Prop := ring_ok EDGE_PIPE_SIZE (pipe_ring (pipes w id)).

Lemma ring_of_set id r w : pipe_ring (pipes (set_pipe_ring id r w) id) = r.
Proof. unfold set_pipe_ring. cbn [set_pipes pipes]. rewrite upd_eq. apply pipe_ring_with. Qed.

Lemma pipe_size_ok : 0 < EDGE_PIPE_SIZE < 2 ^ 31.
Proof. done. Qed.

Lemma waits_outcome flags now sg sg' o :
  waits flags now sg = (sg', o) -> o = Done (- EAGAIN) \/ o = Done (- EINTR) \/ o = Wait \/ o = Spin.
Proof. unfold waits. intros H. repeat case_match; simplify_eq; auto. Qed.

(** A write that returns [n] has appended [n] bytes of the user. *)
Lemma pipe_write_spec now e buf_u len w sg w' sg' n :
  pipe_ok (f_obj e) w -> 0 <= buf_u < 2 ^ 64 -> 0 <= len -> buf_u + len <= 2 ^ 64 -> 0 <= n ->
  pipe_write now e buf_u len w sg = (w', sg', Done n) ->
  pipe_ok (f_obj e) w' /\ umem w' = umem w /\ n <= len /\
  pipe_content (f_obj e) w' = pipe_content (f_obj e) w ++ load_bytes (umem w) buf_u (Z.to_nat n).
Proof.
  intros Hok Hb Hl He Hn. pose proof Hok as (Hr & Hc & Hw). cbn [pipe_ring cnt rpos wpos] in *.
  unfold pipe_write. destruct (in_range _ _); cbn [negb]; [|intros [= <- <- <-]; errno].
  destruct (_ || _); [intros [= <- <- <-]; errno|].
  destruct (Z.leb_spec EDGE_PIPE_SIZE (p_count (pipes w (f_obj e)))).
  { destruct (waits _ _ _) as [sg1 o] eqn:Ew. intros [= <- <- ->].
    destruct (waits_outcome _ _ _ _ _ Ew) as [[= ->]|[[= ->]|[[=]|[=]]]]; errno. }
  unfold EDGE_PIPE_SIZE in *. rewrite u32_small by lia.
  set (k := if 4096 - p_count (pipes w (f_obj e)) <? len then _ else len).
  assert (0 <= k <= 4096 - p_count (pipes w (f_obj e)) /\ k <= len) as Hk by (subst k; ztest; lia).
  destruct (ring_write_loop _ _ _ _ _ _) as [r ok] eqn:Er. intros [= <- <- E].
  apply ring_write_spec in Er as (j & Hj & Hjk & Hr' & Hc');
    [|exact pipe_size_ok | exact Hok | cbn [pipe_ring cnt]; lia | lia | lia].
  unfold pipe_ok, pipe_content. rewrite !ring_of_set. split; [exact Hr'|]. split; [done|].
  destruct ok; [|errno]. rewrite <- E. split; [lia|]. rewrite (Hjk eq_refl), Z.add_0_r in Hc'. exact Hc'.
Qed.

(** A read that returns [n] has taken [n] bytes, and the user has them. *)
Lemma pipe_read_spec now e buf_u len w sg w' sg' n :
  pipe_ok (f_obj e) w -> 0 <= buf_u < 2 ^ 64 -> 0 <= len -> buf_u + len <= 2 ^ 64 -> 0 <= n ->
  pipe_read now e buf_u len w sg = (w', sg', Done n) ->
  pipe_ok (f_obj e) w' /\ n <= len /\
  pipe_content (f_obj e) w = load_bytes (umem w') buf_u (Z.to_nat n) ++ pipe_content (f_obj e) w'.
Proof.
  intros Hok Hb Hl He Hn. pose proof Hok as (Hr & Hc & Hw). cbn [pipe_ring cnt rpos wpos] in *.
  unfold pipe_read. destruct (in_range _ _); cbn [negb]; [|intros [= <- <- <-]; errno].
  destruct (negb _); [intros [= <- <- <-]; errno|].
  destruct (Z.eqb_spec (p_count (pipes w (f_obj e))) 0) as [Hz|Hz].
  { destruct (_ =? 0); [intros [= <- <- <-]; by split_all|].
    destruct (waits _ _ _) as [sg1 o] eqn:Ew. intros [= <- <- ->].
    destruct (waits_outcome _ _ _ _ _ Ew) as [[= ->]|[[= ->]|[[=]|[=]]]]; errno. }
  unfold EDGE_PIPE_SIZE in *.
  set (k := if p_count (pipes w (f_obj e)) <? len then _ else len).
  assert (0 <= k <= p_count (pipes w (f_obj e)) /\ k <= len) as Hk by (subst k; ztest; lia).
  destruct (ring_read_loop _ _ _ _ _ _ _ _) as [[m r] ok] eqn:Er. intros [= <- <- E].
  apply ring_read_spec in Er as [Hr' Hok'];
    [|exact pipe_size_ok | exact Hok | cbn [pipe_ring cnt]; lia | lia | lia | done | lia | lia | done].
  unfold pipe_ok, pipe_content. cbn [set_umem pipes umem]. rewrite !ring_of_set. split; [exact Hr'|].
  destruct ok; [|errno]. destruct (Hok' eq_refl) as (bs & Hbs & Hcs & ->). subst n. split; [lia|].
  unfold EDGE_PIPE_SIZE. rewrite Hcs. f_equal. rewrite <- Hbs. cbn [app]. rewrite Z.add_0_r. symmetry. apply load_store_bytes.
Qed.

(** Steps of a system with the pipe [id]: completed writes with the bytes taken
    from the user, completed reads with the bytes given, and everything that
    leaves the bytes of the pipe alone. *)
Inductive pipe_step (id : Z) : fdw SK -> list Z -> list Z -> fdw SK -> Prop :=
  | step_write now e buf_u len w sg w' sg' n :
      f_obj e = id -> 0 <= buf_u < 2 ^ 64 -> 0 <= len -> buf_u + len <= 2 ^ 64 -> 0 <= n ->
      pipe_write now e buf_u len w sg = (w', sg', Done n) ->
      pipe_step id w (load_bytes (umem w) buf_u (Z.to_nat n)) [] w'
  | step_read now e buf_u len w sg w' sg' n :
      f_obj e = id -> 0 <= buf_u < 2 ^ 64 -> 0 <= len -> buf_u + len <= 2 ^ 64 -> 0 <= n ->
      pipe_read now e buf_u len w sg = (w', sg', Done n) ->
      pipe_step id w [] (load_bytes (umem w') buf_u (Z.to_nat n)) w'
  | step_other w w' : pipe_ring (pipes w' id) = pipe_ring (pipes w id) -> pipe_step id w [] [] w'.

(** A run, with all the bytes written and all the bytes read. *)
Inductive pipe_run (id : Z) : fdw SK -> list Z -> list Z -> fdw SK -> Prop :=
  | run_nil w : pipe_run id w [] [] w
  | run_cons w a b w1 ws rs w2 : pipe_step id w a b w1 -> pipe_run id w1 ws rs w2 -> pipe_run id w (a ++ ws) (b ++ rs) w2.

Lemma pipe_step_queue id w a b w' :
  pipe_step id w a b w' -> pipe_ok id w -> pipe_ok id w' /\ pipe_content id w ++ a = b ++ pipe_content id w'.
Proof.
  intros [] Hok; subst.
  - match goal with E : pipe_write _ _ _ _ _ _ = _ |- _ => apply pipe_write_spec in E as (Hp & _ & _ & Hc); [|done..] end.
    rewrite Hc. by split.
  - match goal with E : pipe_read _ _ _ _ _ _ = _ |- _ => apply pipe_read_spec in E as (Hp & _ & Hc); [|done..] end.
    rewrite Hc, app_nil_r. by split.
  - unfold pipe_ok, pipe_content in *. rewrite H, app_nil_r. done.
Qed.

(** C25: a pipe is a queue of at most 4096 bytes: along every run of completed
    writes, completed reads and steps of others, the bytes it held at first followed by all bytes written
    are the bytes read, in order, followed by the bytes it holds at the end. *)
Theorem pipe_is_fifo (id : Z) w (written read : list Z) w'
    (Hrun : pipe_run id w written read w') (Hok : pipe_ok id w) :
  pipe_content id w ++ written = read ++ pipe_content id w' /\ pipe_ok id w' /\
  zlength (pipe_content id w') <= EDGE_PIPE_SIZE.
Proof.
  assert (pipe_ok id w' /\ pipe_content id w ++ written = read ++ pipe_content id w') as [Hok' Hq].
  { induction Hrun as [w|w a b w1 ws rs w2 Hs _ IH]; [by rewrite app_nil_r|].
    destruct (pipe_step_queue _ _ _ _ _ Hs Hok) as [H1 E1]. destruct (IH H1) as [H2 E2]. split; [done|].
    by rewrite app_assoc, E1, <- app_assoc, E2, <- app_assoc. }
  split; [done|]. split; [done|]. unfold zlength, pipe_content. destruct Hok' as (? & ? & ?).
  rewrite length_content by lia. lia.
Qed.
End fd.

(** ** Event counters *)

Section eventfd.
Context {SK : Type} `{!sock_layer SK}.
Implicit Types (w : fdw SK) (sg : signals).

Definition counter (id : Z) w : Z := ev_counter (eventfds w id).

Lemma counter_set id c w : counter id (set_counter id c w) = c.
Proof. unfold counter, set_counter. cbn [set_eventfds eventfds]. by rewrite upd_eq. Qed.

(** Completed writes with the value added, completed reads with the value
    reported, and steps of others. *)
Inductive event_step (id : Z) : fdw SK -> Z -> Z -> fdw SK -> Prop :=
  | event_write now e buf_u len w sg w' sg' n :
      f_obj e = id -> byte_mem (umem w) -> 0 <= buf_u < 2 ^ 64 -> 0 <= n -> eventfd_write now e buf_u len w sg = (w', sg', Done n) ->
      event_step id w (le_val (load_bytes (umem w) buf_u 8)) 0 w'
  | event_read now e buf_u len w sg w' sg' n :
      f_obj e = id -> 0 <= n -> eventfd_read now e buf_u len w sg = (w', sg', Done n) ->
      event_step id w 0 (le_val (load_bytes (umem w') buf_u 8)) w'
  | event_other w w' : counter id w' = counter id w -> event_step id w 0 0 w'.

Inductive event_run (id : Z) : fdw SK -> Z -> Z -> fdw SK -> Prop :=
  | event_nil w : event_run id w 0 0 w
  | event_cons w a b w1 sa sb w2 : event_step id w a b w1 -> event_run id w1 sa sb w2 -> event_run id w (a + sa) (b + sb) w2.

Lemma le_val_range bs : Forall (fun b => 0 <= b < 256) bs -> 0 <= le_val bs < 256 ^ zlength bs.
Proof.
  unfold zlength. induction 1 as [|b bs Hb _ IH]; cbn [le_val length]; [split; reflexivity|].
  rewrite Nat2Z.inj_succ, Z.pow_succ_r by lia. lia.
Qed.

Lemma load_range m p n : (forall a, 0 <= m a < 256) -> Forall (fun b => 0 <= b < 256) (load_bytes m p n).
Proof. intros H. revert p. induction n; intros p; cbn [load_bytes]; constructor; auto. Qed.

Lemma eventfd_write_spec now e buf_u len w sg w' sg' n :
  byte_mem (umem w) -> 0 <= counter (f_obj e) w <= UINT64_MAX - 1 -> 0 <= buf_u < 2 ^ 64 -> 0 <= n ->
  eventfd_write now e buf_u len w sg = (w', sg', Done n) ->
  counter (f_obj e) w' = counter (f_obj e) w + le_val (load_bytes (umem w) buf_u 8) /\ counter (f_obj e) w' <= UINT64_MAX - 1.
Proof.
  intros Hm Hc Hb Hn. unfold eventfd_write, UINT64_MAX in *. fold (counter (f_obj e) w).
  destruct (len <? 8); [intros [= <- <- <-]; errno|]. destruct (negb _); [intros [= <- <- <-]; errno|].
  destruct (negb _); [intros [= <- <- <-]; errno|].
  destruct (copy_from_user _ _ _) as [bs|] eqn:Ec; [|intros [= <- <- <-]; errno].
  apply copy_from_user_some in Ec as [_ ->]; [|lia..]. change (Z.to_nat 8) with 8%nat.
  pose proof (le_val_range _ (load_range _ buf_u 8 Hm)) as Hv. unfold zlength in Hv. rewrite length_load_bytes in Hv.
  change (256 ^ Z.of_nat 8) with (2 ^ 64) in Hv. set (v := le_val (load_bytes (umem w) buf_u 8)) in *.
  destruct (_ =? _); [intros [= <- <- <-]; errno|]. rewrite (u64_small (2 ^ 64 - 1 - 1 - _)) by lia.
  destruct (Z.ltb_spec (2 ^ 64 - 1 - 1 - counter (f_obj e) w) v).
  { destruct (waits _ _ _) as [sg1 o] eqn:Ew. intros [= <- <- ->].
    destruct (waits_outcome _ _ _ _ _ Ew) as [[= ->]|[[= ->]|[[=]|[=]]]]; errno. }
  intros [= <- <- <-]. rewrite counter_set, u64_small by lia. lia.
Qed.

Lemma put_result_spec buf_u bs w sg w' sg' n :
  0 <= n -> put_result buf_u bs w sg = (w', sg', Done n) -> w' = set_umem (store_bytes (umem w) buf_u bs) w /\ n = zlength bs.
Proof.
  intros Hn. unfold put_result. destruct (copy_to_user _ _ _) as [m|] eqn:E; intros [= <- <- <-]; [|errno].
  apply copy_to_user_some in E as [_ ->]. done.
Qed.

Lemma eventfd_read_spec now e buf_u len w sg w' sg' n :
  0 <= counter (f_obj e) w <= UINT64_MAX - 1 -> 0 <= n -> eventfd_read now e buf_u len w sg = (w', sg', Done n) ->
  0 < counter (f_obj e) w /\ 0 <= counter (f_obj e) w' < counter (f_obj e) w /\
  counter (f_obj e) w = counter (f_obj e) w' + le_val (load_bytes (umem w') buf_u 8).
Proof.
  intros Hc Hn. unfold eventfd_read, UINT64_MAX in *. fold (counter (f_obj e) w).
  destruct (len <? 8); [intros [= <- <- <-]; errno|]. destruct (negb _); [intros [= <- <- <-]; errno|].
  destruct (negb _); [intros [= <- <- <-]; errno|]. destruct (Z.eqb_spec (counter (f_obj e) w) 0).
  { destruct (waits _ _ _) as [sg1 o] eqn:Ew. intros [= <- <- ->].
    destruct (waits_outcome _ _ _ _ _ Ew) as [[= ->]|[[= ->]|[[=]|[=]]]]; errno. }
  set (v := if ev_semaphore _ then 1 else _). set (c := if ev_semaphore _ then _ else 0).
  assert (0 < v < 2 ^ 64 /\ 0 <= c /\ counter (f_obj e) w = c + v) as (Hv & Hc0 & Hs) by (subst v c; case_match; lia).
  clearbody v c. intros E. apply put_result_spec in E as [-> _]; [|done].
  change (counter (f_obj e) (set_umem ?m ?w0)) with (counter (f_obj e) w0).
  change (umem (set_umem ?m ?w0)) with m. rewrite counter_set.
  pose proof (load_store_bytes (umem (set_counter (f_obj e) c w)) buf_u (le_bytes 8 v)) as L.
  rewrite length_le_bytes in L. rewrite L, le_val_bytes by (change (8 * Z.of_nat 8) with 64; lia). lia.
Qed.

(** The counter of an event descriptor never overflows and loses nothing:
    along every run the value it had plus everything written is everything
    reported plus the value it has, which stays below 2{^64} - 1. *)
Theorem eventfd_counts (id : Z) w (added reported : Z) w'
    (Hrun : event_run id w added reported w')
    (Hc : 0 <= counter id w <= UINT64_MAX - 1) :
  counter id w + added = reported + counter id w' /\ 0 <= counter id w' <= UINT64_MAX - 1.
Proof.
  induction Hrun as [w|w a b w1 sa sb w2 Hs _ IH]; [lia|].
  assert (0 <= counter id w1 <= UINT64_MAX - 1 /\ counter id w + a = b + counter id w1) as [H1 E1]; [|specialize (IH H1); lia].
  destruct Hs as [now e buf_u len w sg w1 sg1 n <- Hm Hb Hn E|now e buf_u len w sg w1 sg1 n <- Hn E|w w1 E].
  - pose proof (eventfd_write_spec _ _ _ _ _ _ _ _ _ Hm Hc Hb Hn E) as [H1 H2].
    pose proof (le_val_range _ (load_range _ buf_u 8 Hm)). lia.
  - pose proof (eventfd_read_spec _ _ _ _ _ _ _ _ _ Hc Hn E). lia.
  - rewrite E. lia.
Qed.
End eventfd.

(** ** Timers *)





(** The timer after [n] expiries were reported. *)
Definition reported (n : Z) (t : edge_timerfd) : edge_timerfd :=
  if tf_interval_us t =? 0 then timerfd_with (tf_active t && (n =? 0)) (tf_next_us t) (tf_interval_us t) t
  else timerfd_with (tf_active t) (tf_next_us t + n * tf_interval_us t) (tf_interval_us t) t.








(** ** Runs *)

#[local] Existing Instance no_sockets.

(** User memory with a text at 0x2000 and the number 7 at 0x3000. *)
Definition io_mem : CString.mem := store_bytes (store_bytes (fun _ => 0) 0x2000 (str "hello")) 0x3000 (le_bytes 8 7).

(** Process 5 with a pipe in its descriptors 3 and 4, an event descriptor 5. *)
Definition io_demo : fdw unit :=
  set_umem io_mem (fst (do_fd_call 5 (Eventfd2 1 0) (fst (do_fd_call 5 (Pipe2 0x1000 0) (fd_init tt (fun _ => 0)))))).
Definition io_fd (fd : Z) : edge_fd := fd_of io_demo 0 fd.
Definition io_world (r : fdw unit * signals * io) : fdw unit := r.1.1.
Definition io_result (r : fdw unit * signals * io) : Z := match r.2 with Done n => n | _ => -1 end.

(** Five bytes are written, three are read. *)
Definition fifo1 := pipe_write 0 (io_fd 4) 0x2000 5 io_demo zero_sigs.
Definition fifo2 := pipe_read 0 (io_fd 3) 0x4000 3 (io_world fifo1) zero_sigs.

Lemma pipe_is_fifo_witness :
  f_kind (io_fd 4) = FD_PIPE_W /\ f_kind (io_fd 3) = FD_PIPE_R /\
  load_bytes (umem (io_world fifo2)) 0x4000 3 = str "hel" /\ pipe_content 0 (io_world fifo2) = str "lo".
Proof.
  assert (load_bytes (umem (io_world fifo2)) 0x4000 3 = str "hel") as Er by (vm_compute; reflexivity).
  assert (load_bytes (umem io_demo) 0x2000 5 = str "hello") as Ew by (vm_compute; reflexivity).
  assert (pipe_step 0 io_demo (str "hello") [] (io_world fifo1)) as S1.
  { rewrite <- Ew. apply (step_write 0 0 (io_fd 4) 0x2000 5 io_demo zero_sigs (io_world fifo1) zero_sigs 5);
      [vm_compute; reflexivity | lia | lia | lia | lia | vm_compute; reflexivity]. }
  assert (pipe_step 0 (io_world fifo1) [] (str "hel") (io_world fifo2)) as S2.
  { rewrite <- Er. apply (step_read 0 0 (io_fd 3) 0x4000 3 (io_world fifo1) zero_sigs (io_world fifo2) zero_sigs 3);
      [vm_compute; reflexivity | lia | lia | lia | lia | vm_compute; reflexivity]. }
  destruct (pipe_is_fifo 0 io_demo (str "hello" ++ [] ++ []) ([] ++ str "hel" ++ []) (io_world fifo2)) as (E & _ & _).
  - apply run_cons with (io_world fifo1); [exact S1|]. apply run_cons with (io_world fifo2); [exact S2 | apply run_nil].
  - assert (forall r, rpos r = 0 -> cnt r = 0 -> wpos r = 0 -> ring_ok EDGE_PIPE_SIZE r) as Hz.
    { intros r Hr Hc Hw. unfold ring_ok. rewrite Hr, Hc, Hw. by split_all. }
    apply Hz; vm_compute; reflexivity.
  - split; [vm_compute; reflexivity|]. split; [vm_compute; reflexivity|]. split; [exact Er|].
    assert (pipe_content 0 io_demo = []) as E0 by (vm_compute; reflexivity). rewrite E0 in E.
    change ([] ++ (str "hello" ++ [] ++ []) = str "hel" ++ pipe_content 0 (io_world fifo2)) in E.
    apply (app_inv_head (str "hel")). rewrite <- E. reflexivity.
Defined.

(** Seven is added to one, and eight is reported. *)
Definition event1 := eventfd_write 0 (io_fd 5) 0x3000 8 io_demo zero_sigs.
Definition event2 := eventfd_read 0 (io_fd 5) 0x4000 8 (io_world event1) zero_sigs.

Lemma io_mem_bytes : byte_mem io_mem.
Proof. unfold io_mem. do 2 (apply store_bytes_byte; [|repeat constructor; done]). intros a. lia. Qed.

Lemma eventfd_counts_witness :
  counter 0 (io_world event2) = 0 /\ le_val (load_bytes (umem (io_world event2)) 0x4000 8) = 8.
Proof.
  assert (le_val (load_bytes (umem (io_world event2)) 0x4000 8) = 8) as Er by (vm_compute; reflexivity).
  assert (le_val (load_bytes (umem io_demo) 0x3000 8) = 7) as Ew by (vm_compute; reflexivity).
  assert (event_step 0 io_demo 7 0 (io_world event1)) as S1.
  { rewrite <- Ew. apply (event_write 0 0 (io_fd 5) 0x3000 8 io_demo zero_sigs (io_world event1) zero_sigs 8);
      [vm_compute; reflexivity | exact io_mem_bytes | lia | lia | vm_compute; reflexivity]. }
  assert (event_step 0 (io_world event1) 0 8 (io_world event2)) as S2.
  { rewrite <- Er. apply (event_read 0 0 (io_fd 5) 0x4000 8 (io_world event1) zero_sigs (io_world event2) zero_sigs 8);
      [vm_compute; reflexivity | lia | vm_compute; reflexivity]. }
  assert (counter 0 io_demo = 1) as E0 by (vm_compute; reflexivity).
  destruct (eventfd_counts 0 io_demo (7 + (0 + 0)) (0 + (8 + 0)) (io_world event2)) as (E & _).
  - apply event_cons with (io_world event1); [exact S1|]. apply event_cons with (io_world event2); [exact S2 | apply event_nil].
  - rewrite E0. unfold UINT64_MAX. lia.
  - rewrite E0 in E. split; [lia | exact Er].
Defined.



(** A reader whose buffer is out of user memory loses the bytes. *)
Example faulting_read_loses_bytes :
  let r := pipe_read 0 (io_fd 3) 0x50000000 3 (io_world fifo1) zero_sigs in
  io_result r = - EFAULT /\ pipe_content 0 (io_world r) = str "lo".
Proof. vm_compute. split; reflexivity. Qed.
