(* ===== verification/Tty.v ===== *)
(** * The console terminal ([src/src/sys/syscall.c], over [src/src/keyboard.c])

    [do_sys_read] and [do_sys_write]: the line discipline of the console. The
    characters come from the keyboard and go to the console of the [machine]; the
    read is a loop that handles one key or one character of the line per turn, with
    fuel, and stops with [Waiting] where the code lets other tasks run: it goes on
    with [do_sys_read_resume]. The process groups to interrupt are returned. *)

From S2P Require Import Prelude CString Path Process Uaccess Rng Vfs Ring Fd FdOps Signals FdIo Keyboard.

(** [sizeof(g_tty_linebuf)] and [sizeof(chunk)]. *)
Definition TTY_LINE : Z := 512.
Definition TTY_CHUNK : Z := 128.

(** [keyboard_take_sigint_pending] of the world below the virtual file system. *)
Class sigint_source (W : Type) := { take_sigint : W -> W }.

(** The value of the call, a wait after so many bytes, or the end of the fuel. *)
Inductive tty_out := Line (r : Z) | Waiting (copied : Z) | More.

Definition with_line (l : list Z) (pos : Z) (t : console_tty) : console_tty :=
  {| t_termios := t_termios t; t_linebuf := l; t_line_pos := pos; t_foreground_pgid := t_foreground_pgid t |}.
Definition with_foreground (pg : Z) (t : console_tty) : console_tty :=
  {| t_termios := t_termios t; t_linebuf := t_linebuf t; t_line_pos := t_line_pos t; t_foreground_pgid := pg |}.

Definition tty_lflag (t : console_tty) (m : Z) : bool := flag (c_lflag (t_termios t)) m.

(** The reader becomes the foreground group; a system without a current task has the
    group -1. *)
Definition tty_claim (tk : option task_tty) (t : console_tty) : console_tty :=
  let pg := match tk with Some k => k_pgid k | None => -1 end in
  let t := if (t_foreground_pgid t =? 0) && (0 <? pg) then with_foreground pg t else t in
  if test (is_Some tk) && (0 <? pg) && negb (t_foreground_pgid t =? pg) then with_foreground pg t else t.

Section tty.
Context {W : Type} `{!machine W, !sigint_source W}.

Definition console_putstr (s : list Z) (wd : W) : W := fold_left (fun wd c => console_putchar c wd) s wd.

(** The loop over the characters of a chunk. *)
Fixpoint tty_put (t : edge_termios) (l : list Z) (wd : W) : W :=
  match l with
  | [] => wd
  | c :: l =>
      let wd := if (c =? 10) && flag (c_oflag t) LINUX_OPOST && flag (c_oflag t) LINUX_ONLCR then console_putchar 13 wd else wd in
      tty_put t l (console_putchar c wd)
  end.

Fixpoint tty_write_loop (n : nat) (t : edge_termios) (m : CString.mem) (buf done len : Z) (wd : W) : W * Z :=
  match n with
  | O => (wd, len)
  | S n =>
      if len <=? done then (wd, len)
      else
        let k := if TTY_CHUNK <? len - done then TTY_CHUNK else len - done in
        match copy_from_user m (u64 (buf + done)) k with
        | None => (wd, - EFAULT)
        | Some l => tty_write_loop n t m buf (done + k) len (tty_put t l wd)
        end
  end.

(** [keyboard_pollchar] is [keyboard_getchar]. *)
Definition next_key (wd : W) : W * Z :=
  let '(wd, ch) := Vfs.keyboard_getchar wd in if ch =? -1 then Vfs.keyboard_getchar wd else (wd, ch).

Definition tty_echo (t : console_tty) (s : list Z) (wd : W) : W := if tty_lflag t LINUX_ECHO then console_putstr s wd else wd.

(** A key that does not interrupt; whether it ends the line. *)
Definition tty_key (ch : Z) (t : console_tty) (wd : W) : console_tty * W * bool :=
  if (ch =? 8) || (ch =? 127) then
    if 0 <? zlength (t_linebuf t) then (with_line (removelast (t_linebuf t)) (t_line_pos t) t, tty_echo t [8; 32; 8] wd, false)
    else (t, wd, false)
  else if zlength (t_linebuf t) <? TTY_LINE - 1 then
    (with_line (t_linebuf t ++ [ch]) (t_line_pos t) t, tty_echo t [ch] wd, ch =? 10)
  else (t, wd, ch =? 10).

Section fd.
Context {SK : Type} `{!sock_layer SK}.
Implicit Types w : fdw SK.

Definition do_sys_write (buf len : Z) w (wd : W) : W * Z :=
  if buf =? 0 then (wd, - EINVAL)
  else if len =? 0 then (wd, 0)
  else tty_write_loop (Z.to_nat len) (t_termios (tty w)) (umem w) buf 0 len wd.

(** The groups of [do_sys_kill] after an interrupt character. *)
Definition interrupted_groups w : list Z :=
  if 0 <? t_foreground_pgid (tty w) then [t_foreground_pgid (tty w)] else [].

(** Lines: [filling] is the inner loop, which collects a line. *)
Fixpoint canon (n : nat) (filling : bool) (copied buf len : Z) w (wd : W) : fdw SK * W * list Z * tty_out :=
  match n with
  | O => (w, wd, [], More)
  | S n =>
      let t := tty w in
      if filling then
        let '(wd, ch) := next_key wd in
        if (ch =? -1) || (ch =? 0) then (w, wd, [], Waiting copied)
        else
          let ch := if ch =? 13 then 10 else ch in
          if tty_lflag t LINUX_ISIG && (ch =? 3) then
            (w, tty_echo t (str "^C" ++ [10]) (take_sigint wd), interrupted_groups w, Line (- EINTR))
          else
            let '(t, wd, ended) := tty_key ch t wd in
            canon n (negb ended) copied buf len (set_tty t w) wd
      else if len <=? copied then (w, wd, [], Line copied)
      else if t_line_pos t <? zlength (t_linebuf t) then
        let c := nth (Z.to_nat (t_line_pos t)) (t_linebuf t) 0 in
        let w := set_tty (with_line (t_linebuf t) (t_line_pos t + 1) t) w in
        match copy_to_user (umem w) (u64 (buf + copied)) [c] with
        | None => (w, wd, [], Line (- EFAULT))
        | Some m =>
            let w := set_umem m w in
            if c =? 10 then (w, wd, [], Line (copied + 1)) else canon n false (copied + 1) buf len w wd
        end
      else canon n true copied buf len (set_tty (with_line [] 0 t) w) wd
  end.

(** Single keys; the fuel is the number of bytes that fit. *)
Fixpoint raw (n : nat) (count buf len : Z) w (wd : W) : fdw SK * W * list Z * tty_out :=
  match n with
  | O => (w, wd, [], Line count)
  | S n =>
      let t := tty w in
      let '(wd, ch) := next_key wd in
      if (ch =? -1) || (ch =? 0) then (w, wd, [], if 0 <? count then Line count else Waiting count)
      else
        let ch := if ch =? 13 then 10 else ch in
        if tty_lflag t LINUX_ISIG && (ch =? 3) then
          (w, take_sigint wd, interrupted_groups w, Line (if count =? 0 then - EINTR else count))
        else
          let wd := tty_echo t [ch] wd in
          match copy_to_user (umem w) (u64 (buf + count)) [u8 ch] with
          | None => (w, wd, [], Line (- EFAULT))
          | Some m =>
              let w := set_umem m w in
              if len =? 1 then (w, wd, [], Line (count + 1)) else raw n (count + 1) buf len w wd
          end
  end.

Definition do_sys_read (n : nat) (tk : option task_tty) (buf len : Z) w (wd : W) : fdw SK * W * list Z * tty_out :=
  if buf =? 0 then (w, wd, [], Line (- EINVAL))
  else if len =? 0 then (w, wd, [], Line 0)
  else if negb (user_range_ok buf len) then (w, wd, [], Line (- EFAULT))
  else
    let w := set_tty (tty_claim tk (tty w)) w in
    if tty_lflag (tty w) LINUX_ICANON then canon n false 0 buf len w wd else raw (Z.to_nat len) 0 buf len w wd.

(** The call goes on after a wait, in the loop it was in. *)
Definition do_sys_read_resume (n : nat) (canonical : bool) (copied buf len : Z) w (wd : W) : fdw SK * W * list Z * tty_out :=
  if canonical then canon n true copied buf len w wd else raw (Z.to_nat len) 0 buf len w wd.
End fd.
End tty.

(** ** The keyboard of [Keyboard.v] below the console

    The world is the keyboard and what the console was given, newest last. *)

Definition deskw : Type := keyboard * list Z.

#[export] Instance desk_machine : machine deskw := {|
  Vfs.keyboard_getchar d := let '(k, c) := Keyboard.keyboard_getchar d.1 in ((k, d.2), c);
  Vfs.keyboard_mouse_read n d :=
    match Keyboard.keyboard_mouse_read n false d.1 with Some (k, l) => ((k, d.2), zlength l, l) | None => (d, 0, []) end;
  Vfs.keyboard_mouse_event_read n d :=
    match Keyboard.keyboard_mouse_event_read n false d.1 with Some (k, l) => ((k, d.2), zlength l, l) | None => (d, 0, []) end;
  console_putchar c d := (d.1, d.2 ++ [c]);
  fb_bytes _ := None;
  fb_store _ _ d := d;
  fb_get_2m_phys_window _ := None;
  fb_addr _ := 0;
  entropy_source d := ([], d)
|}.

#[export] Instance desk_sigint : sigint_source deskw := {|
  take_sigint d := (fst (keyboard_take_sigint_pending d.1), d.2)
|}.
