(* ===== verification/TtyInv.v ===== *)
(** * Properties of the console terminal

    A line that is typed is the line that a program reads: the keys come through the
    decoder and the queue of the keyboard, the erase keys edit the line, the newline
    ends it, and the bytes arrive in the buffer of the program. *)

From S2P Require Import Prelude CString Path Process Uaccess Rng Vfs Ring Fd FdOps FdCalls Signals FdIo Keyboard KeyboardInv Tty.

(** What an erase key and another key do to a line. *)
Definition edit_key (l : list Z) (c : Z) : list Z :=
  if (c =? 8) || (c =? 127) then removelast l else if zlength l <? TTY_LINE - 1 then l ++ [c] else l.
Definition edit (ks : list Z) : list Z := fold_left edit_key ks [].

(** A key that neither ends the line nor interrupts nor looks like no key. *)
Definition plain (c : Z) : Prop := c <> 10 /\ c <> 13 /\ c <> 3 /\ c <> 0 /\ c <> -1.

Definition desk_ok (d : deskw) : Prop := cb_ok KBD_BUF_SIZE (kbd_buf d.1).
Definition desk_keys (d : deskw) : list Z := cb_content KBD_BUF_SIZE (kbd_buf d.1).

(** The desks that have the same keyboard: they differ in what the console shows. *)
Definition shows (d d' : deskw) : Prop := d'.1 = d.1.

Lemma putstr_shows s (d : deskw) : shows d (console_putstr s d).
Proof. revert d. induction s as [|c s IH]; intros d; [done|]. exact (IH (d.1, d.2 ++ [c])). Qed.

Lemma echo_shows t s (d : deskw) : shows d (tty_echo t s d).
Proof. unfold tty_echo. destruct (tty_lflag _ _); [apply putstr_shows | done]. Qed.

Lemma next_key_desk c l (d : deskw) :
  desk_ok d -> desk_keys d = c :: l -> c <> -1 ->
  exists d', next_key d = (d', c) /\ desk_ok d' /\ desk_keys d' = l.
Proof.
  intros Hok Hk Hc. unfold next_key. destruct d as [k out]. cbn [Vfs.keyboard_getchar desk_machine fst]. unfold Keyboard.keyboard_getchar.
  pose proof (cb_pop_ok KBD_BUF_SIZE ltac:(unfold KBD_BUF_SIZE; lia) _ Hok) as Hp.
  unfold desk_keys in Hk. destruct (cb_pop KBD_BUF_SIZE _) as [[c' r]|] eqn:Ep; cbn [fst] in *; [|congruence].
  destruct Hp as [E Hr]. rewrite Hk in E. injection E as -> ->. rewrite (proj2 (Z.eqb_neq c' (-1)) Hc).
  eexists. split; [done|]. by split.
Qed.

(** A key that is not the end of the line. *)
Lemma tty_key_plain c t (d : deskw) :
  plain c -> exists d', tty_key c t d = (with_line (edit_key (t_linebuf t) c) (t_line_pos t) t, d', false) /\ shows d d'.
Proof.
  intros (Hc & _). unfold tty_key, edit_key. rewrite (proj2 (Z.eqb_neq c 10) Hc). destruct t as [tm lb pos fg]. cbn [t_linebuf t_line_pos].
  destruct (_ || _).
  - destruct (Z.ltb_spec 0 (zlength lb)) as [H|H]; [eexists; split; [done | apply echo_shows]|].
    exists d. destruct lb; [done | unfold zlength in H; cbn in H; lia].
  - destruct (_ <? _); eexists; (split; [done|]); [apply echo_shows | done].
Qed.

Lemma desk_shows d d' : shows d d' -> desk_ok d -> desk_ok d' /\ desk_keys d' = desk_keys d.
Proof. unfold shows, desk_ok, desk_keys. by intros ->. Qed.

Section tty.
Context {SK : Type} `{!sock_layer SK}.
Implicit Types w : fdw SK.

(** The inner loop collects the keys up to the newline. *)
Lemma canon_fill ks rest n copied buf len w (d : deskw) :
  desk_ok d -> desk_keys d = ks ++ 10 :: rest -> Forall plain ks ->
  zlength (fold_left edit_key ks (t_linebuf (tty w))) < TTY_LINE - 1 ->
  exists d', desk_ok d' /\ desk_keys d' = rest /\
    canon (length ks + 1 + n) true copied buf len w d =
    canon n false copied buf len
      (set_tty (with_line (fold_left edit_key ks (t_linebuf (tty w)) ++ [10]) (t_line_pos (tty w)) (tty w)) w) d'.
Proof.
  revert w d. induction ks as [|c ks IH]; intros w d Hok Hk Hp Hlen; cbn [length Nat.add fold_left app] in *; cbn [canon].
  - destruct (next_key_desk 10 rest d Hok Hk ltac:(lia)) as (d1 & -> & Hok1 & Hk1). cbn [Z.eqb orb Pos.eqb].
    rewrite andb_false_r. unfold tty_key. cbn [Z.eqb orb Pos.eqb]. rewrite (proj2 (Z.ltb_lt _ _) Hlen). cbn [negb].
    destruct (desk_shows _ _ (echo_shows (tty w) [10] d1) Hok1) as [Hok2 Hk2].
    eexists. split; [exact Hok2|]. split; [congruence | done].
  - apply Forall_cons in Hp as [Hc Hp]. pose proof Hc as (H10 & H13 & H3 & H0 & Hm1).
    destruct (next_key_desk c _ d Hok Hk Hm1) as (d1 & -> & Hok1 & Hk1).
    rewrite (proj2 (Z.eqb_neq c (-1)) Hm1), (proj2 (Z.eqb_neq c 0) H0), (proj2 (Z.eqb_neq c 13) H13), (proj2 (Z.eqb_neq c 3) H3).
    cbn [orb]. rewrite andb_false_r. destruct (tty_key_plain c (tty w) d1 Hc) as (d2 & -> & Hs). cbn [negb].
    destruct (desk_shows _ _ Hs Hok1) as [Hok2 Hk2].
    destruct (IH (set_tty (with_line (edit_key (t_linebuf (tty w)) c) (t_line_pos (tty w)) (tty w)) w) d2 Hok2) as (d3 & Hok3 & Hk3 & E);
      [congruence | done | done |].
    exists d3. split; [done|]. split; [done|]. exact E.
Qed.

Lemma user_byte_ok buf len i :
  user_range_ok buf len = true -> 0 <= i < len -> 0 <= buf < 2 ^ 64 -> len < 2 ^ 64 ->
  u64 (buf + i) = buf + i /\ user_range_ok (buf + i) 1 = true.
Proof.
  intros H Hi Hb Hl. apply user_range_ok_spec in H; [|lia|lia]. unfold USER_MAX_ADDR, USER_MIN_ADDR in *.
  split; [apply u64_small; lia|]. apply user_range_ok_spec; unfold USER_MAX_ADDR, USER_MIN_ADDR; lia.
Qed.

(** The state after [r] bytes of the line have gone to the program. *)
Definition line_taken (buf copied r : Z) w : fdw SK :=
  let t := tty w in
  set_umem (store_bytes (umem w) (buf + copied) (take (Z.to_nat r) (drop (Z.to_nat (t_line_pos t)) (t_linebuf t))))
    (set_tty (with_line (t_linebuf t) (t_line_pos t + r) t) w).

Lemma line_taken_0 buf copied w : line_taken buf copied 0 w = w.
Proof. unfold line_taken. rewrite Z.add_0_r. cbn [Z.to_nat take store_bytes]. by destruct w as [? ? ? ? ? ? ? ? ? [] ? ? ?]. Qed.

(** The outer loop copies what is left of a line, up to its newline. *)
Lemma canon_copy body n copied buf len w (d : deskw) :
  user_range_ok buf len = true -> 0 <= buf < 2 ^ 64 -> len < 2 ^ 64 -> 0 <= copied <= len -> 0 <= t_line_pos (tty w) ->
  drop (Z.to_nat (t_line_pos (tty w))) (t_linebuf (tty w)) = body ++ [10] -> Forall (fun c => c <> 10) body ->
  (length body + 1 < n)%nat ->
  let r := Z.min (len - copied) (zlength body + 1) in
  canon n false copied buf len w d = (line_taken buf copied r w, d, [], Line (copied + r)).
Proof.
  revert n copied w. induction body as [|c body IH]; intros n copied w Hu Hb Hl Hc Hp Hd Hf Hn r; (destruct n as [|n]; [simpl in Hn; lia|]);
    cbn [canon].
  all: assert (t_line_pos (tty w) < zlength (t_linebuf (tty w))) as Hlen
    by (apply (f_equal length) in Hd; rewrite length_drop in Hd; cbn [length app] in Hd; rewrite ?length_app in Hd; unfold zlength; simpl in Hd; lia).
  all: destruct (Z.leb_spec len copied) as [Hfull|Hmore];
    [replace r with 0 by (unfold r, zlength; cbn [length]; lia); by rewrite line_taken_0, Z.add_0_r|].
  all: rewrite (proj2 (Z.ltb_lt (t_line_pos (tty w)) _)) by lia.
  all: destruct (user_byte_ok buf len copied Hu ltac:(lia) Hb Hl) as [-> Hbyte]; unfold copy_to_user; cbn [length Z.of_nat Pos.of_succ_nat];
    change (Z.of_nat 1) with 1; rewrite ?Hbyte; cbn [negb].
  - assert (nth (Z.to_nat (t_line_pos (tty w))) (t_linebuf (tty w)) 0 = 10) as ->.
    { rewrite nth_lookup. rewrite <- (Nat.add_0_r (Z.to_nat _)), <- lookup_drop, Hd. done. }
    cbn [Z.eqb Pos.eqb]. replace r with 1 by (unfold r, zlength; cbn [length]; lia). unfold line_taken. by rewrite Hd.
  - assert (nth (Z.to_nat (t_line_pos (tty w))) (t_linebuf (tty w)) 0 = c) as ->.
    { rewrite nth_lookup. rewrite <- (Nat.add_0_r (Z.to_nat _)), <- lookup_drop, Hd. done. }
    apply Forall_cons in Hf as [Hc10 Hf]. rewrite (proj2 (Z.eqb_neq c 10) Hc10).
    rewrite IH; try done; cbn [set_umem set_tty tty with_line t_line_pos t_linebuf umem]; try lia.
    + set (r1 := Z.min (len - (copied + 1)) (zlength body + 1)).
      assert (r = r1 + 1 /\ 0 <= r1) as [-> Hr1] by (unfold r, r1, zlength in *; cbn [length]; lia).
      unfold line_taken. cbn [set_umem set_tty tty with_line t_line_pos t_linebuf umem].
      rewrite Z2Nat.inj_add, (Z2Nat.inj_add r1 1) by lia. change (Z.to_nat 1) with 1%nat. rewrite <- drop_drop, Hd.
      cbn [app]. change (drop 1 (c :: body ++ [10])) with (body ++ [10]).
      rewrite (Nat.add_1_r (Z.to_nat r1)). cbn [take store_bytes].
      replace (buf + (copied + 1)) with (buf + copied + 1) by lia. replace (copied + 1 + r1) with (copied + (r1 + 1)) by lia.
      by rewrite <- (Z.add_assoc (t_line_pos _) 1 r1), (Z.add_comm 1 r1).
    + rewrite Z2Nat.inj_add by lia. change (Z.to_nat 1) with 1%nat. by rewrite <- drop_drop, Hd.
    + simpl in Hn. lia.
Qed.

Lemma edit_no_newline ks l : Forall plain ks -> Forall (fun c => c <> 10) l -> Forall (fun c => c <> 10) (fold_left edit_key ks l).
Proof.
  intros Hp. revert l. induction Hp as [|c ks (Hc & _) _ IH]; intros l Hl; [done|]. apply IH. unfold edit_key.
  destruct (_ || _).
  - destruct l as [|x l] using rev_ind; [done|]. rewrite removelast_last. by apply Forall_app in Hl as [? _].
  - destruct (_ <? _); [apply Forall_app; auto | done].
Qed.

(** A read in line mode, when the line before it is used up and the keyboard holds a
    whole line: the program gets the edited line, or as much of it as it asked for;
    the keys after the newline stay with the keyboard. *)
Lemma read_line tk ks rest n buf len w (d : deskw) :
  desk_ok d -> desk_keys d = ks ++ 10 :: rest -> Forall plain ks -> zlength (edit ks) < TTY_LINE - 1 ->
  tty_lflag (tty w) LINUX_ICANON = true -> zlength (t_linebuf (tty w)) <= t_line_pos (tty w) ->
  user_range_ok buf len = true -> 0 < buf < 2 ^ 64 -> 0 < len < 2 ^ 64 ->
  zlength ks + zlength (edit ks) + 4 < n ->
  let full := edit ks ++ [10] in
  let r := Z.min len (zlength full) in
  exists w' d', do_sys_read (Z.to_nat n) tk buf len w d = (w', d', [], Line r) /\
    umem w' = store_bytes (umem w) buf (take (Z.to_nat r) full) /\
    t_linebuf (tty w') = full /\ t_line_pos (tty w') = r /\ desk_ok d' /\ desk_keys d' = rest.
Proof.
  intros Hok Hk Hp Hlen Hcan Hpos Hu Hb Hl Hn full r. unfold do_sys_read.
  rewrite (proj2 (Z.eqb_neq buf 0)), (proj2 (Z.eqb_neq len 0)), Hu by lia. cbn [negb].
  set (w1 := set_tty (tty_claim tk (tty w)) w).
  assert (tty_lflag (tty w1) LINUX_ICANON = true /\ t_linebuf (tty w1) = t_linebuf (tty w) /\
          t_line_pos (tty w1) = t_line_pos (tty w)) as (-> & E1 & E2).
  { unfold w1, tty_claim. cbn [set_tty tty]. repeat case_match; done. }
  assert (umem w1 = umem w) as Em by done. clearbody w1.
  assert (0 <= zlength (edit ks)) as Hz by (unfold zlength; lia).
  replace (Z.to_nat n) with (S (length ks + 1 + Z.to_nat (n - Z.of_nat (length ks) - 2))) by (unfold zlength in *; lia). cbn [canon].
  rewrite (proj2 (Z.leb_gt len 0)) by lia. rewrite E1, E2, (proj2 (Z.ltb_ge _ _)) by lia.
  set (w2 := set_tty (with_line [] 0 (tty w1)) w1).
  destruct (canon_fill ks rest (Z.to_nat (n - Z.of_nat (length ks) - 2)) 0 buf len w2 d Hok Hk Hp Hlen) as (d' & Hok' & Hk' & ->).
  change (fold_left edit_key ks (t_linebuf (tty w2))) with (edit ks). rewrite (canon_copy (edit ks)); try done; try lia.
  - eexists _, d'. split; [do 2 f_equal; unfold r, full, zlength; rewrite length_app; cbn [length]; lia|].
    unfold line_taken. cbn [set_umem set_tty tty with_line t_line_pos t_linebuf umem]. change (drop (Z.to_nat 0) ?l) with l. rewrite !Z.add_0_l, !Z.add_0_r, Z.sub_0_r.
    assert (Z.min len (zlength (edit ks) + 1) = r) as -> by (unfold r, full, zlength; rewrite length_app; cbn [length]; lia).
    split_and!; try done. change (umem w2) with (umem w1). by rewrite Em.
  - by apply edit_no_newline.
  - unfold zlength in *. lia.
Qed.

(** What is left of a line goes to the next reads, without a key. *)
Lemma read_rest tk body n buf len w (d : deskw) :
  tty_lflag (tty w) LINUX_ICANON = true -> 0 <= t_line_pos (tty w) ->
  drop (Z.to_nat (t_line_pos (tty w))) (t_linebuf (tty w)) = body ++ [10] -> Forall (fun c => c <> 10) body ->
  user_range_ok buf len = true -> 0 < buf < 2 ^ 64 -> 0 < len < 2 ^ 64 -> (length body + 1 < n)%nat ->
  exists w', do_sys_read n tk buf len w d = (w', d, [], Line (Z.min len (zlength body + 1))) /\
    umem w' = store_bytes (umem w) buf (take (Z.to_nat (Z.min len (zlength body + 1))) (body ++ [10])).
Proof.
  intros Hcan Hpos Hd Hf Hu Hb Hl Hn. unfold do_sys_read.
  rewrite (proj2 (Z.eqb_neq buf 0)), (proj2 (Z.eqb_neq len 0)), Hu by lia. cbn [negb].
  set (w1 := set_tty (tty_claim tk (tty w)) w).
  assert (tty_lflag (tty w1) LINUX_ICANON = true /\ t_linebuf (tty w1) = t_linebuf (tty w) /\
          t_line_pos (tty w1) = t_line_pos (tty w)) as (-> & E1 & E2).
  { unfold w1, tty_claim. cbn [set_tty tty]. repeat case_match; done. }
  assert (umem w1 = umem w) as Em by done. clearbody w1.
  rewrite (canon_copy body) by (rewrite ?E1, ?E2; solve [done | lia]).
  eexists. split; [by rewrite Z.add_0_l, Z.sub_0_r|]. unfold line_taken. cbn [set_umem umem].
  by rewrite E1, E2, Hd, Em, Z.add_0_r.
Qed.
End tty.

(** ** From the keys to the program *)

Lemma length_edit ks l : zlength (fold_left edit_key ks l) <= zlength l + zlength ks.
Proof.
  revert l. induction ks as [|c ks IH]; intros l; cbn [fold_left]; [unfold zlength; simpl; lia|].
  specialize (IH (edit_key l c)). assert (zlength (edit_key l c) <= zlength l + 1).
  { unfold edit_key. destruct (_ || _); [|destruct (_ <? _); [unfold zlength; rewrite length_app; simpl; lia | unfold zlength; lia]].
    destruct l as [|x l] using rev_ind; [done|]. rewrite removelast_last. unfold zlength. rewrite length_app. lia. }
  unfold zlength in *. cbn [length]. lia.
Qed.

Lemma typable_plain c : c ∈ typable -> c <> 10 -> plain c.
Proof.
  intros H Hc. assert (forallb (fun c => (c =? 10) || (negb (c =? 13) && negb (c =? 3) && negb (c =? 0) && negb (c =? -1))) typable = true) as E
    by (vm_compute; reflexivity).
  rewrite forallb_forall in E. specialize (E c (proj1 (list_elem_of_In _ _) H)). rewrite (proj2 (Z.eqb_neq c 10) Hc) in E. cbn [orb] in E.
  repeat (apply andb_true_iff in E as [E ?%negb_true_iff%Z.eqb_neq]). apply negb_true_iff, Z.eqb_neq in E. by unfold plain.
Qed.

(** The keyboard after a text is typed holds the text. *)
Lemma typed_keys tsc text :
  Forall (fun c => c ∈ typable) text -> zlength text <= 255 ->
  let k := fst (krun (type_text text) (keyboard_init tsc zero_keyboard)) in
  cb_ok KBD_BUF_SIZE (kbd_buf k) /\ cb_content KBD_BUF_SIZE (kbd_buf k) = text.
Proof.
  intros Ht Hl k. destruct (krun_spec (type_text text) _ _ (boot_rel tsc)) as [(_ & Ec & _ & Hok & _) _]. split; [done|]. unfold k. rewrite <- Ec.
  destruct (decode_text text Ht) as [E Eu]. unfold type_text, boot_spec. fold up.
  destruct (srun_scans (concat (map type_char text)) up [] 0) as [n' ->]; [rewrite E; unfold zlength, KBD_BUF_SIZE in *; cbn; lia|].
  rewrite E. exact Eu.
Qed.

(** C28: a line typed on a keyboard at rest and ended with the newline key is what a
    program reads from a console in line mode: the call returns the line as the erase
    keys leave it, with its newline, cut to the length asked for; the bytes are in
    the program's buffer and nothing else of its memory changes, the whole line is
    kept for the next read, and no key is left. *)
Theorem typed_line_is_read {SK} `{!sock_layer SK} tsc out tk text n buf len (w : fdw SK)
    (Htext : Forall (fun c => c ∈ typable /\ c <> 10) text) (Hlen : zlength text < 255)
    (Hcan : tty_lflag (tty w) LINUX_ICANON = true) (Hpos : zlength (t_linebuf (tty w)) <= t_line_pos (tty w))
    (Hu : user_range_ok buf len = true) (Hb : 0 < buf < 2 ^ 64) (Hl : 0 < len < 2 ^ 64) (Hn : 515 <= n) :
  let kb := fst (krun (type_text (text ++ [10])) (keyboard_init tsc zero_keyboard)) in
  let full := edit text ++ [10] in
  let r := Z.min len (zlength full) in
  exists w' d', do_sys_read (Z.to_nat n) tk buf len w (kb, out) = (w', d', [], Line r) /\
    umem w' = store_bytes (umem w) buf (take (Z.to_nat r) full) /\
    t_linebuf (tty w') = full /\ t_line_pos (tty w') = r /\ desk_keys d' = [].
Proof.
  intros kb full r. apply Forall_and in Htext as [Ht Hnl].
  assert (Forall plain text) as Hp by (rewrite Forall_forall in *; intros c Hc; apply typable_plain; auto).
  destruct (typed_keys tsc (text ++ [10])) as [Hok Hk].
  { apply Forall_app. split; [done|]. apply Forall_singleton. apply (bool_decide_unpack _). vm_compute. exact I. }
  { unfold zlength in *. rewrite length_app. simpl. lia. }
  pose proof (length_edit text []) as Hed. change (zlength (@nil Z)) with 0 in Hed.
  destruct (read_line tk text [] n buf len w (kb, out) Hok Hk Hp) as (w' & d' & E & Em & Hb1 & Hb2 & _ & Hk');
    [unfold edit, TTY_LINE; lia | done | done | done | done | done | unfold edit; lia |].
  by exists w', d'.
Qed.

#[local] Existing Instance no_sockets.

(** A console in line mode; the keys are [lz], backspace, [s -l]. *)
Definition desk_demo : fdw unit := set_tty tty_reset_defaults (fd_init tt (fun _ => 0)).
Definition demo_keys : list Z := str "lz" ++ [8] ++ str "s -l".

Lemma typed_line_is_read_witness :
  exists w' d', do_sys_read 600 None 0x2000 4 desk_demo (fst (krun (type_text (demo_keys ++ [10])) (keyboard_init 0 zero_keyboard)), []) =
    (w', d', [], Line 4) /\ load_bytes (umem w') 0x2000 4 = str "ls -".
Proof.
  destruct (typed_line_is_read 0 [] None demo_keys 600 0x2000 4 desk_demo) as (w' & d' & E & Em & _).
  - apply (bool_decide_unpack _). vm_compute. exact I.
  - vm_compute. reflexivity.
  - reflexivity.
  - vm_compute. discriminate.
  - reflexivity.
  - lia.
  - lia.
  - lia.
  - exists w', d'. split; [exact E|]. rewrite Em. vm_compute. reflexivity.
Defined.

(** A line of more than 511 characters loses its newline: it is handed out, and the
    call waits for another line. *)
Definition full_line : console_tty := with_line (replicate 511 97) 0 tty_reset_defaults.

Lemma long_line_without_newline :
  let d := (keyboard_handler 0 0 0x1C (keyboard_init 0 zero_keyboard), []) in
  match canon 600 true 0 0x2000 600 (set_tty full_line desk_demo) d with
  | (w', _, _, o) => o = Waiting 511 /\ load_bytes (umem w') 0x2000 511 = replicate 511 97
  end.
Proof. vm_compute. split; reflexivity. Qed.
