(* ===== verification/PathCalls.v ===== *)
(** * Calls on paths ([src/src/sys/syscall.c])

    The calls that name a file by a path: they copy the path from the program, put it
    after the directory of a descriptor, and ask the virtual file system. The state
    is the descriptor tables with the program's memory and the virtual file system;
    [me] is the process. A call runs to its value or to an early return, [inr];
    [None] is a fault of the kernel ([Vfs.v]) or a directory that does not end.
    A directory is listed through the class [readdirs]. *)

From S2P Require Import Prelude CString Block Path Process Rng Uaccess Vfs Ring Fd FdOps FdIo.

Definition EIO : Z := 5.
Definition ENXIO : Z := 6.
Definition EBUSY : Z := 16.
Definition EXDEV : Z := 18.
Definition ENOTDIR : Z := 20.
Definition EISDIR : Z := 21.
Definition EFBIG : Z := 27.
Definition ERANGE : Z := 34.
Definition ENOTEMPTY : Z := 39.
Definition EOVERFLOW : Z := 75.
Definition EOPNOTSUPP : Z := 95.
Definition LINUX_AT_FDCWD : Z := -100.
Definition LINUX_AT_SYMLINK_NOFOLLOW : Z := 0x100.
Definition LINUX_AT_EACCESS : Z := 0x200.
Definition LINUX_AT_EMPTY_PATH : Z := 0x1000.
(** [sizeof(path)], and the sizes of the static buffers. *)
Definition PATH_BUF : Z := 256.
Definition TMP_BUF : Z := 131072.
Definition COPY_BUF : Z := 65536.

(** The function [readdir] of a superblock: the name and the inode of the entry of
    an index. *)
Class readdirs (W : Type) := {
  has_readdir : superblock -> bool;
  op_readdir : superblock -> vfs_inode -> Z -> W -> W * option (path * vfs_inode)
}.

(** [fill_kstat] and [fill_kstat_mode_size]: the bytes of [struct edge_linux_stat]. *)
Definition stat_bytes (ino mode uid gid size : Z) : list Z :=
  le_bytes 8 1 ++ le_bytes 8 ino ++ le_bytes 8 1 ++ le_bytes 4 mode ++ le_bytes 4 uid ++ le_bytes 4 gid ++ le_bytes 4 0 ++
  le_bytes 8 0 ++ le_bytes 8 size ++ le_bytes 8 4096 ++ le_bytes 8 ((size + 511) / 512) ++ replicate 72 0.

Definition fill_kstat (i : vfs_inode) : list Z := stat_bytes (i_ino i) (i_mode i) (i_uid i) (i_gid i) (i_size i).
Definition fill_kstat_mode_size (mode size : Z) : list Z := stat_bytes 0 mode 0 0 size.

(** [struct edge_linux_statx] *)
Definition statx_bytes (i : vfs_inode) : list Z :=
  le_bytes 4 0x17ff ++ le_bytes 4 4096 ++ le_bytes 8 0 ++ le_bytes 4 1 ++ le_bytes 4 (i_uid i) ++ le_bytes 4 (i_gid i) ++
  le_bytes 2 (i_mode i) ++ le_bytes 2 0 ++ le_bytes 8 (i_ino i) ++ le_bytes 8 (i_size i) ++
  le_bytes 8 (u32 (i_size i + 511) / 512) ++ le_bytes 8 0 ++ replicate 64 0 ++ replicate 16 0 ++ replicate 24 0 ++ replicate 96 0.

Definition statfs_type_from_sb (sb : option superblock) : Z :=
  match sb with
  | None => 0
  | Some sb =>
      if test (fs_name sb = str "ext4") || test (fs_name sb = str "ext2") then 0xEF53
      else if test (fs_name sb = str "proc") then 0x9FA0
      else if test (fs_name sb = str "fat32") then 0x4d44
      else 0
  end.

(** [struct edge_linux_statfs] *)
Definition statfs_bytes (type total used ino : Z) : list Z :=
  let free := if used <=? total then total - used else 0 in
  le_bytes 8 type ++ le_bytes 8 1024 ++ le_bytes 8 total ++ le_bytes 8 free ++ le_bytes 8 free ++ le_bytes 8 0 ++ le_bytes 8 0 ++
  le_bytes 4 (Z.land ino 0x7fffffff) ++ le_bytes 4 (Z.land (Z.shiftr ino 16) 0x7fffffff) ++
  le_bytes 8 (VFS_NAME_MAX - 1) ++ le_bytes 8 1024 ++ le_bytes 8 0 ++ replicate 32 0.

(** The digits of a number, as the loops over [rev] write them. *)
Definition decimal (x : Z) : path := if x =? 0 then [chr "0"] else itoa_digits 16 x 10 [].
Definition signed_decimal (x : Z) : path := if x <? 0 then chr "-" :: decimal (- x) else decimal x.

Section calls.
Context {SK W D : Type} `{!sock_layer SK, !filesystems W, !machine W, !driver D, !readdirs W}.

Record sys := { fdt : fdw SK; vf : vfs W D }.

Definition call (A : Type) : Type := sys -> option (sys * (A + Z)).

#[export] Instance call_ret : MRet call := fun A x s => Some (s, inl x).
#[export] Instance call_bind : MBind call := fun A B f m s =>
  match m s with
  | None => None
  | Some (s, inr e) => Some (s, inr e)
  | Some (s, inl x) => f x s
  end.

(** [return (uint64_t)-e;] *)
Definition err {A} (e : Z) : call A := fun s => Some (s, inr (- e)).
Definition value {A} (r : Z) : call A := fun s => Some (s, inr r).
Definition reject (b : bool) (e : Z) : call unit := if b then err e else mret tt.

Definition set_fdt (w : fdw SK) (s : sys) : sys := {| fdt := w; vf := vf s |}.
Definition set_vf (v : vfs W D) (s : sys) : sys := {| fdt := fdt s; vf := v |}.
Definition ask {A} (f : sys -> A) : call A := fun s => Some (s, inl (f s)).
Definition on_fd {A} (f : fdw SK -> fdw SK * A) : call A := fun s => let '(w, a) := f (fdt s) in Some (set_fdt w s, inl a).
Definition on_vfs {A} (f : vfs W D -> option (vfs W D * A)) : call A := fun s =>
  match f (vf s) with Some (v, a) => Some (set_vf v s, inl a) | None => None end.

(** The value of a call, and the result of one that is called by the kernel. *)
Definition returns (c : call Z) (s : sys) : option (sys * Z) :=
  match c s with Some (s, inl r) | Some (s, inr r) => Some (s, r) | None => None end.
Definition result (c : call Z) : call Z := fun s => match returns c s with Some (s, r) => Some (s, inl r) | None => None end.

(** ** Memory of the program *)

Definition get_path (a : Z) : call path := fun s =>
  match copy_user_cstr (umem (fdt s)) PATH_BUF a with Some p => Some (s, inl p) | None => Some (s, inr (- EFAULT)) end.
Definition get_bytes (a n : Z) : call (list Z) := fun s =>
  match copy_from_user (umem (fdt s)) a n with Some l => Some (s, inl l) | None => Some (s, inr (- EFAULT)) end.
Definition put_bytes (a : Z) (l : list Z) : call unit := fun s =>
  match copy_to_user (umem (fdt s)) a l with
  | Some m => Some (set_fdt (set_umem m (fdt s)) s, inl tt)
  | None => Some (s, inr (- EFAULT))
  end.
(** [if (a && copy_to_user(a, ...) < 0)] *)
Definition put_opt (a : Z) (l : list Z) : call unit := if a =? 0 then mret tt else put_bytes a l.

(** ** Paths *)

Definition user_task : call (option caller) := ask (fun s => current (vf s)).
Definition not_root (t : option caller) : bool := match t with Some t => negb (euid (c_cred t) =? 0) | None => false end.

Definition is_dir (i : vfs_inode) : bool := is_kind i VFS_INODE_DIR.

(** The directory a relative path starts from; [None] is a descriptor of no directory. *)
Definition dir_base (me dirfd : Z) : call (option path) :=
  if dirfd =? LINUX_AT_FDCWD then ask (fun s => Some (or_default (vfs_getcwd (vf s)) [slash]))
  else
    p ← on_fd (fd_proc_with_stdio me);
    ask (fun s =>
      match fd_get p dirfd (fdt s) with
      | Some (_, e) =>
          if test (f_kind e = FD_VFS) && is_dir (f_inode e) && test (head (f_path e) = Some slash) then Some (f_path e) else None
      | None => None
      end).

(** [copy_user_cstr] and [build_at_path] with their errors. *)
Definition at_path (me dirfd : Z) (path_in : path) : call path :=
  base ← (if test (head path_in = Some slash) then mret None else dir_base me dirfd);
  match build_at_path base path_in PATH_BUF with Some p => mret p | None => err EINVAL end.

Definition resolve (p : path) : call resolution := on_vfs (vfs_resolve (Some p)).
Definition resolve_or (e : Z) (p : path) : call (vfs_inode * option superblock) :=
  r ← resolve p;
  match r with Resolved i sb => mret (i, sb) | Unresolved => err e end.

Definition resolve_user_path (path_u : Z) : call (path * vfs_inode) :=
  _ ← reject (path_u =? 0) EINVAL;
  p ← get_path path_u;
  x ← resolve_or ENOENT p;
  mret (p, x.1).

(** The path argument of most calls. *)
Definition path_arg (path_u : Z) : call path := _ ← reject (path_u =? 0) EINVAL; get_path path_u.

(** [return r == 0 ? 0 : -e;] and [return r < 0 ? -e : 0;] *)
Definition zero_or (e r : Z) : call Z := if r =? 0 then mret 0 else err e.
Definition nonneg_or (e r : Z) : call Z := if r <? 0 then err e else mret 0.

Definition read_all (p : path) (max : Z) : call (Z * list Z) :=
  on_vfs (fun v => match vfs_read_file p max v with Some (v, r, l) => Some (v, (r, l)) | None => None end).
Definition write_all (p : path) (l : list Z) : call Z := on_vfs (vfs_write_file p l).

Definition do_sys_getcwd (buf size : Z) : call Z :=
  cwd ← ask (fun s => vfs_getcwd (vf s));
  let n := zlength cwd + 1 in
  _ ← reject ((buf =? 0) || (size =? 0)) EINVAL;
  _ ← reject (size <? n) ERANGE;
  _ ← put_bytes buf (cwd ++ [0]);
  mret n.

Definition do_sys_chdir (path_u : Z) : call Z :=
  x ← resolve_user_path path_u;
  _ ← reject (negb (is_dir x.2)) ENOTDIR;
  r ← on_vfs (vfs_chdir (Some x.1));
  zero_or EINVAL r.

Definition do_sys_chroot (path_u : Z) : call Z :=
  t ← user_task;
  _ ← reject (not_root t || negb (test (is_Some t))) EPERM;
  _ ← reject (path_u =? 0) EINVAL;
  x ← resolve_user_path path_u;
  _ ← reject (negb (is_dir x.2)) ENOTDIR;
  r ← on_vfs (vfs_chroot (Some x.1));
  zero_or EINVAL r.

Definition do_sys_mkdir (path_u : Z) : call Z :=
  p ← path_arg path_u;
  r ← resolve p;
  match r with
  | Resolved _ _ => err EEXIST
  | Unresolved => r ← on_vfs (vfs_mkdir p); zero_or ENOENT r
  end.

(** The loop of [do_sys_rmdir]: no entry but ["."] and [".."]. *)
Fixpoint only_dots (n : nat) (i : Z) (sb : superblock) (dir : vfs_inode) : call unit :=
  match n with
  | O => fun _ => None
  | S n =>
      e ← on_vfs (fun v => let '(w, e) := op_readdir sb dir i (world v) in Some (with_world v w, e));
      match e with
      | None => mret tt
      | Some (nm, _) => if test (nm = dot) || test (nm = dotdot) then only_dots n (u32 (i + 1)) sb dir else err ENOTEMPTY
      end
  end.

(** [stack] is the inode on the stack of [vfs_unlink]. *)
Definition do_sys_rmdir (n : nat) (stack : vfs_inode) (path_u : Z) : call Z :=
  p ← path_arg path_u;
  _ ← reject (test (p = [slash])) EBUSY;
  x ← resolve_or ENOENT p;
  _ ← reject (negb (is_dir x.1)) ENOTDIR;
  _ ← match x.2 with Some sb => if has_readdir sb then only_dots n 0 sb x.1 else mret tt | None => mret tt end;
  r ← on_vfs (vfs_unlink stack p);
  zero_or EIO r.

Definition do_sys_touch (path_u : Z) : call Z :=
  p ← path_arg path_u;
  r ← on_vfs (vfs_touch p);
  zero_or EINVAL r.

Definition do_sys_unlink (stack : vfs_inode) (path_u : Z) : call Z :=
  p ← path_arg path_u;
  x ← resolve_or ENOENT p;
  _ ← reject (is_dir x.1) EISDIR;
  r ← on_vfs (vfs_unlink stack p);
  zero_or EIO r.

Definition do_sys_cat (path_u : Z) : call Z :=
  p ← path_arg path_u;
  x ← read_all p COPY_BUF;
  _ ← reject (x.1 <? 0) EINVAL;
  let out := if (x.1 =? 0) || negb (test (last x.2 = Some 10)) then x.2 ++ [10] else x.2 in
  on_vfs (fun v => Some (put_chars out v, 0)).

(** ** Attributes *)

Definition do_sys_statfs (path_u total_u used_u : Z) : call Z :=
  p ← (if path_u =? 0 then mret [] else get_path path_u);
  k ← ask (fun s => vfs_statfs_path p (vf s));
  match k with
  | None => err EINVAL
  | Some (total, used) => _ ← put_opt total_u (le_bytes 4 total); _ ← put_opt used_u (le_bytes 4 used); mret 0
  end.

Definition fill_linux_statfs_from_path (p : path) : call (list Z) :=
  x ← resolve_or ENOSYS p;
  k ← ask (fun s => vfs_statfs_path p (vf s));
  match k with
  | None => err ENOSYS
  | Some (total, used) => mret (statfs_bytes (statfs_type_from_sb x.2) total used (i_ino x.1))
  end.

Definition do_sys_statfs_linux (path_u buf_u : Z) : call Z :=
  _ ← reject ((path_u =? 0) || (buf_u =? 0)) EINVAL;
  p ← get_path path_u;
  l ← fill_linux_statfs_from_path p;
  _ ← put_bytes buf_u l;
  mret 0.

Definition do_sys_stat_path (path_u st_u : Z) : call Z :=
  x ← resolve_user_path path_u;
  _ ← reject (st_u =? 0) EINVAL;
  _ ← put_bytes st_u (fill_kstat x.2);
  mret 0.

Definition do_sys_lstat_path : Z -> Z -> call Z := do_sys_stat_path.

Definition do_sys_newfstatat (me dirfd_u path_u st_u : Z) : call Z :=
  _ ← reject ((st_u =? 0) || (path_u =? 0)) EINVAL;
  p ← get_path path_u;
  p ← at_path me (i32 dirfd_u) p;
  x ← resolve_or ENOENT p;
  _ ← put_bytes st_u (fill_kstat x.1);
  mret 0.

Definition do_sys_statx (me dirfd_u path_u flags_u statx_u : Z) : call Z :=
  _ ← reject ((path_u =? 0) || (statx_u =? 0)) EINVAL;
  p ← get_path path_u;
  _ ← reject (flag flags_u (Z.lnot (Z.lor LINUX_AT_SYMLINK_NOFOLLOW LINUX_AT_EMPTY_PATH))) EINVAL;
  _ ← reject (flag flags_u LINUX_AT_EMPTY_PATH && test (p = [])) ENOSYS;
  p ← at_path me (i32 dirfd_u) p;
  x ← resolve_or ENOENT p;
  _ ← put_bytes statx_u (statx_bytes x.1);
  mret 0.

(** The mode 0 asks for existence only. *)
Definition access_to (i : vfs_inode) (mode : Z) : call Z :=
  t ← user_task;
  if mode =? 0 then mret 0 else zero_or EACCES (vfs_permission_check i (Z.land mode 7) t).

Definition do_sys_access (path_u mode : Z) : call Z :=
  p ← path_arg path_u;
  x ← resolve_or ENOENT p;
  access_to x.1 mode.

Definition do_sys_faccessat2 (me dirfd_u path_u mode_u flags_u : Z) : call Z :=
  _ ← reject (flag (i32 flags_u) (Z.lnot (Z.lor LINUX_AT_EACCESS LINUX_AT_SYMLINK_NOFOLLOW))) EINVAL;
  p ← path_arg path_u;
  p ← at_path me (i32 dirfd_u) p;
  x ← resolve_or ENOENT p;
  access_to x.1 mode_u.

Definition do_sys_chmod (path_u mode_u : Z) : call Z :=
  p ← path_arg path_u;
  x ← resolve_or ENOENT p;
  t ← user_task;
  _ ← reject (not_root t && match t with Some t => negb (euid (c_cred t) =? i_uid x.1) | None => false end) EPERM;
  r ← on_vfs (vfs_chmod p (u16 mode_u));
  zero_or EINVAL r.

Definition do_sys_chown (path_u uid_u gid_u : Z) : call Z :=
  p ← path_arg path_u;
  t ← user_task;
  _ ← reject (not_root t) EPERM;
  r ← on_vfs (vfs_chown p (u16 uid_u) (u16 gid_u));
  zero_or EINVAL r.

Definition do_sys_utimensat (me dirfd_u path_u : Z) : call Z :=
  if negb (path_u =? 0) then
    p ← get_path path_u;
    p ← at_path me (i32 dirfd_u) p;
    _ ← resolve_or ENOENT p;
    mret 0
  else if i32 dirfd_u =? LINUX_AT_FDCWD then err EINVAL
  else
    p ← on_fd (fd_proc_with_stdio me);
    e ← ask (fun s => fd_get p (i32 dirfd_u) (fdt s));
    match e with Some _ => mret 0 | None => err EBADF end.

(** ** Whole files *)

Definition do_sys_writefile (path_u buf_u len : Z) : call Z :=
  _ ← reject (path_u =? 0) EINVAL;
  _ ← reject (TMP_BUF <? len) EINVAL;
  p ← get_path path_u;
  l ← (if len =? 0 then mret [] else if buf_u =? 0 then err EFAULT else get_bytes buf_u len);
  r ← write_all p l;
  nonneg_or EINVAL r.

Definition do_sys_readfile (path_u buf_u max_len : Z) : call Z :=
  _ ← reject ((path_u =? 0) || (buf_u =? 0)) EINVAL;
  if max_len =? 0 then mret 0
  else
    p ← get_path path_u;
    x ← read_all p (if TMP_BUF <? max_len then TMP_BUF else max_len);
    _ ← reject (x.1 <? 0) EINVAL;
    _ ← put_bytes buf_u x.2;
    mret x.1.

(** A file is moved by copying what fits into [tmp]. *)
Definition do_sys_mv (stack : vfs_inode) (src_u dst_u : Z) : call Z :=
  _ ← reject ((src_u =? 0) || (dst_u =? 0)) EINVAL;
  src ← get_path src_u;
  dst ← get_path dst_u;
  x ← read_all src TMP_BUF;
  _ ← reject (x.1 <? 0) EINVAL;
  r ← write_all dst x.2;
  _ ← reject (r <? 0) EINVAL;
  r ← on_vfs (vfs_unlink stack src);
  nonneg_or EINVAL r.

Definition move_file (stack : vfs_inode) (oldp newp : path) : call Z :=
  x ← resolve_or ENOENT oldp;
  _ ← reject (is_dir x.1) EISDIR;
  y ← resolve newp;
  _ ← reject (match y with Resolved i _ => is_dir i | Unresolved => false end) EISDIR;
  x ← read_all oldp TMP_BUF;
  _ ← reject (x.1 <? 0) EIO;
  r ← write_all newp x.2;
  _ ← reject (r <? 0) EXDEV;
  r ← on_vfs (vfs_unlink stack oldp);
  nonneg_or EIO r.

Definition do_sys_rename (stack : vfs_inode) (old_u new_u : Z) : call Z :=
  _ ← reject ((old_u =? 0) || (new_u =? 0)) EINVAL;
  oldp ← get_path old_u;
  newp ← get_path new_u;
  move_file stack oldp newp.

Definition do_sys_renameat (me : Z) (stack : vfs_inode) (olddirfd_u old_u newdirfd_u new_u : Z) : call Z :=
  _ ← reject ((old_u =? 0) || (new_u =? 0)) EINVAL;
  old_in ← get_path old_u;
  new_in ← get_path new_u;
  oldp ← at_path me (i32 olddirfd_u) old_in;
  newp ← at_path me (i32 newdirfd_u) new_in;
  move_file stack oldp newp.

Definition do_sys_renameat2 (me : Z) (stack : vfs_inode) (olddirfd_u old_u newdirfd_u new_u flags_u : Z) : call Z :=
  if negb (flags_u =? 0) then err EOPNOTSUPP else do_sys_renameat me stack olddirfd_u old_u newdirfd_u new_u.

(** A link is a copy of the file, if it fits. *)
Definition do_sys_linkat (me olddirfd_u oldpath_u newdirfd_u newpath_u : Z) : call Z :=
  _ ← reject ((oldpath_u =? 0) || (newpath_u =? 0)) EINVAL;
  old_in ← get_path oldpath_u;
  new_in ← get_path newpath_u;
  oldp ← at_path me (i32 olddirfd_u) old_in;
  newp ← at_path me (i32 newdirfd_u) new_in;
  x ← resolve_or ENOENT oldp;
  _ ← reject (is_dir x.1) EPERM;
  y ← resolve newp;
  _ ← reject (match y with Resolved _ _ => true | Unresolved => false end) EEXIST;
  x ← read_all oldp COPY_BUF;
  _ ← reject (x.1 <? 0) EIO;
  _ ← reject (COPY_BUF <=? x.1) EIO;
  r ← write_all newp x.2;
  nonneg_or EIO r.

Definition do_sys_link (me oldpath_u newpath_u : Z) : call Z :=
  do_sys_linkat me LINUX_AT_FDCWD oldpath_u LINUX_AT_FDCWD newpath_u.

Definition truncate_vfs_path_to_len (p : path) (new_len : Z) : call Z :=
  _ ← reject (test (p = [])) EINVAL;
  _ ← reject (TMP_BUF <? new_len) EFBIG;
  x ← read_all p TMP_BUF;
  _ ← reject (x.1 <? 0) EIO;
  r ← write_all p (take (Z.to_nat new_len) (x.2 ++ replicate (Z.to_nat (new_len - x.1)) 0));
  nonneg_or EIO r.

Definition do_sys_truncate (path_u len_u : Z) : call Z :=
  _ ← reject (path_u =? 0) EINVAL;
  _ ← reject (2 ^ 63 <=? len_u) EINVAL;
  p ← get_path path_u;
  x ← resolve_or ENOENT p;
  _ ← reject (is_dir x.1) EISDIR;
  truncate_vfs_path_to_len p len_u.

(** ** Mounts *)

(** What a registered file system does to mount itself. *)
Variable mount_fn : path -> path -> path -> vfs W D -> vfs W D * Z.
Variable mount_block : path -> Z -> path -> vfs W D -> vfs W D * Z.

(** [(void)vfs_mkdir(target);] and the mount of a device. *)
Definition mount_at (dev : Z) (target fsname : path) : call Z :=
  _ ← on_vfs (vfs_mkdir target);
  r ← on_vfs (fun v => Some (vfs_mount_blockdev mount_block dev target fsname v));
  zero_or EINVAL r.

Definition block_device_at (e : Z) (src : path) : call Z :=
  x ← resolve_or e src;
  match vfs_inode_get_block_device x.1 with Some a => mret a | None => err EINVAL end.

(** A path of at most 31 characters. *)
Definition get_name (a : Z) : call path := fun s =>
  match copy_user_cstr (umem (fdt s)) 32 a with Some p => Some (s, inl p) | None => Some (s, inr (- EFAULT)) end.

Definition do_sys_mount (src_u target_u fs_u : Z) : call Z :=
  _ ← reject ((src_u =? 0) || (target_u =? 0)) EINVAL;
  src ← get_path src_u;
  target ← get_path target_u;
  fsname ← (if fs_u =? 0 then mret (str "ext4") else get_name fs_u);
  dev ← block_device_at EINVAL src;
  mount_at dev target fsname.

Definition do_sys_linux_mount (src_u target_u fstype_u : Z) : call Z :=
  src ← (if src_u =? 0 then mret [] else get_path src_u);
  target ← path_arg target_u;
  fsname ← (if fstype_u =? 0 then mret [] else get_name fstype_u);
  if (if fstype_u =? 0 then test (src = str "proc") else test (fsname = str "proc")) then
    _ ← on_vfs (vfs_mkdir target);
    r ← on_vfs (fun v => Some (vfs_mount mount_fn (str "proc") target (str "proc") v));
    zero_or EINVAL r
  else
    _ ← reject (test (src = [])) EINVAL;
    dev ← block_device_at ENOENT src;
    mount_at dev target (or_default fsname (str "ext4")).
End calls.

Arguments sys : clear implicits.
Arguments call : clear implicits.
