(* ===== verification/Files.v ===== *)
(** * Open files ([src/src/sys/syscall.c])

    Opening a path, reading and writing the descriptor, its position, its attributes
    and the entries of a directory. The calls on descriptors of the other kinds are
    those of [FdIo.v] and [Pty.v], the console is that of [Tty.v], sockets are
    [other]; [do_sys_fd_read] and [do_sys_fd_write] put them together. *)

From S2P Require Import Prelude CString Block Path Process Rng Uaccess Vfs Ring Fd FdOps Signals FdIo Pty Tty PathCalls.

Definition LINUX_SEEK_SET : Z := 0.
Definition LINUX_SEEK_CUR : Z := 1.
Definition LINUX_SEEK_END : Z := 2.
Definition LINUX_DT_UNKNOWN : Z := 0.
Definition LINUX_DT_CHR : Z := 2.
Definition LINUX_DT_DIR : Z := 4.
Definition LINUX_DT_BLK : Z := 6.
Definition LINUX_DT_REG : Z := 8.
Definition LINUX_S_IFIFO : Z := 0x1000.
Definition LINUX_S_IFCHR : Z := 0x2000.
(** The largest chunk of a write. *)
Definition WRITE_CHUNK : Z := 2 ^ 20.

Definition mode_to_dtype (mode : Z) : Z :=
  let mt := Z.land mode 0xF000 in
  if mt =? VFS_INODE_DIR then LINUX_DT_DIR
  else if mt =? VFS_INODE_FILE then LINUX_DT_REG
  else if mt =? VFS_INODE_CHR then LINUX_DT_CHR
  else if mt =? VFS_INODE_BLK then LINUX_DT_BLK
  else LINUX_DT_UNKNOWN.

(** The number of a kind in the enumeration. *)
Definition kind_num (k : edge_fd_kind) : Z :=
  match k with
  | FD_NONE => 0 | FD_CONSOLE => 1 | FD_VFS => 2 | FD_PIPE_R => 3 | FD_PIPE_W => 4 | FD_SOCKET => 5
  | FD_PTY_MASTER => 6 | FD_PTY_SLAVE => 7 | FD_EVENTFD => 8 | FD_TIMERFD => 9 | FD_SIGNALFD => 10
  | FD_EPOLL => 11 | FD_PIDFD => 12
  end.

(** A descriptor just opened; the path is cut to its buffer. *)
Definition opened (kind : edge_fd_kind) (ref flags obj : Z) (p : path) : edge_fd :=
  {| f_used := true; f_kind := kind; f_ref := ref; f_flags := flags;
     f_fdflags := if flag flags LINUX_O_CLOEXEC then LINUX_FD_CLOEXEC else 0; f_pos := 0;
     f_inode := no_inode; f_sb := None; f_path := take 255 p; f_obj := obj |}.

Definition with_pos (n : Z) (e : edge_fd) : edge_fd :=
  {| f_used := f_used e; f_kind := f_kind e; f_ref := f_ref e; f_flags := f_flags e; f_fdflags := f_fdflags e;
     f_pos := n; f_inode := f_inode e; f_sb := f_sb e; f_path := f_path e; f_obj := f_obj e |}.
Definition with_inode (i : vfs_inode) (sb : option superblock) (e : edge_fd) : edge_fd :=
  {| f_used := f_used e; f_kind := f_kind e; f_ref := f_ref e; f_flags := f_flags e; f_fdflags := f_fdflags e;
     f_pos := f_pos e; f_inode := i; f_sb := sb; f_path := f_path e; f_obj := f_obj e |}.
Definition with_size (n : Z) (i : vfs_inode) : vfs_inode :=
  {| i_ino := i_ino i; i_mode := i_mode i; i_uid := i_uid i; i_gid := i_gid i; i_size := n; i_private := i_private i |}.

Definition pty_with_fg (pg : Z) (y : edge_pty) : edge_pty :=
  {| y_used := y_used y; y_refs_master := y_refs_master y; y_refs_slave := y_refs_slave y; y_unlocked := y_unlocked y;
     y_fg_pgid := pg; y_termios := y_termios y; y_winsz := y_winsz y; m2s := m2s y; s2m := s2m y |}.

(** The access that [open] asks for. *)
Definition open_request (flags : Z) : Z :=
  let acc := Z.land flags LINUX_O_ACCMODE in
  if acc =? LINUX_O_WRONLY then 2 else if acc =? LINUX_O_RDWR then 6 else 4.

(** The number of a terminal below [/dev/pts]. *)
Fixpoint pts_number (p : path) (n : Z) : option Z :=
  match p with
  | [] => Some n
  | c :: p =>
      if (c <? chr "0") || (chr "9" <? c) then None
      else let n := n * 10 + (c - chr "0") in if EDGE_MAX_PTYS <=? n then None else pts_number p n
  end.

(** The bytes of [struct edge_linux_dirent64], padded to eight. *)
Definition D64_BASE : Z := 19.
Definition dirent_len (nm : path) : Z := u16 (Z.land (u32 (D64_BASE + zlength nm + 1 + 7)) (Z.lnot 7)).
Definition dirent_bytes (ino off type : Z) (nm : path) : list Z :=
  resize (Z.to_nat (dirent_len nm)) 0 (le_bytes 8 ino ++ le_bytes 8 off ++ le_bytes 2 (dirent_len nm) ++ le_bytes 1 type ++ nm ++ [0]).

(** The character devices that [/dev] shows. *)
Definition k_chr : list path :=
  [str "console"; str "tty"; str "tty0"; str "tty1"; str "tty2"; str "tty3"; str "tty4";
   str "null"; str "zero"; str "fb0"; str "random"; str "urandom"; str "ptmx"; str "pts"].

(** What a loop over generated entries finds at an index: the end, a hole, an entry. *)
Inductive dev_entry := NoMore | Hole | Entry (nm : path) (ino type : Z).

Section files.
Context {SK W D : Type} `{!sock_layer SK, !filesystems W, !machine W, !sigint_source W, !driver D, !readdirs W}.
Implicit Types (w : fdw SK).

(** The open descriptor [fd] of the caller and the slot of its table. *)
Definition entry (me fd_u : Z) : call SK W D (Z * edge_fd) :=
  p ← on_fd (fd_proc_with_stdio me);
  e ← ask (fun s => fd_get p (i32 fd_u) (fdt s));
  match e with Some x => mret x | None => err EBADF end.

(** ** Opening *)

(** A free descriptor with a reference, or the error. *)
Definition new_file (p : Z) : call SK W D (Z * Z) :=
  fd ← on_fd (fd_alloc p 0);
  _ ← reject (fd <? 0) ENOMEM;
  ref ← on_fd file_ref_alloc;
  if ref =? 0 then _ ← on_fd (fun w => (set_fd p fd zero_fd w, tt)); err ENOMEM else mret (fd, ref).

(** [memset(e, 0, sizeof( *e)); return -e;] *)
Definition abandon (p fd e : Z) : call SK W D Z := _ ← on_fd (fun w => (set_fd p fd zero_fd w, tt)); err e.
Definition install (p fd : Z) (e : edge_fd) : call SK W D Z := on_fd (fun w => (set_fd p fd e w, fd)).

(** [/dev/tty]: the controlling terminal of the task. *)
Definition open_tty (tk : option task_tty) (p flags : Z) (pa : path) : call SK W D Z :=
  x ← new_file p;
  let '(fd, ref) := x in
  match tk with
  | None => abandon p fd ENXIO
  | Some k =>
      if k_ctty_kind k =? PROCESS_CTTY_NONE then abandon p fd ENXIO
      else if k_ctty_kind k =? PROCESS_CTTY_CONSOLE then install p fd (opened FD_CONSOLE ref flags (-1) pa)
      else if k_ctty_kind k =? PROCESS_CTTY_PTY then
        let id := k_ctty_id k in
        ok ← ask (fun s => in_range id EDGE_MAX_PTYS && y_used (ptys (fdt s) id));
        if negb (ok : bool) then abandon p fd ENXIO
        else
          _ ← on_fd (fun w => (pty_add_ref id false w, tt));
          install p fd (opened FD_PTY_SLAVE ref flags id pa)
      else abandon p fd ENXIO
  end.

(** [/dev/ptmx]: a new terminal. *)
Definition open_ptmx (p flags : Z) (pa : path) : call SK W D Z :=
  fd ← on_fd (fd_alloc p 0);
  _ ← reject (fd <? 0) ENOMEM;
  id ← on_fd pty_alloc;
  if id <? 0 then abandon p fd ENOMEM
  else
    ref ← on_fd file_ref_alloc;
    if ref =? 0 then _ ← on_fd (fun w => (pty_drop_ref id true w, tt)); abandon p fd ENOMEM
    else install p fd (opened FD_PTY_MASTER ref flags id pa).

(** [/dev/pts/n]: the other end of a terminal that is unlocked. *)
Definition open_pts (tk : option task_tty) (p flags : Z) (pa : path) : call SK W D Z :=
  _ ← reject (test (drop 9 pa = [])) ENOENT;
  match pts_number (drop 9 pa) 0 with
  | None => err ENOENT
  | Some id =>
      y ← ask (fun s => ptys (fdt s) id);
      _ ← reject (negb (y_used y) || (y_unlocked y =? 0)) ENOENT;
      x ← new_file p;
      let '(fd, ref) := x in
      _ ← on_fd (fun w => (pty_add_ref id false w, tt));
      _ ← on_fd (fun w =>
            let pg := match tk with Some k => k_pgid k | None => -1 end in
            ((if (y_fg_pgid (ptys w id) <=? 0) && (0 <? pg) then set_ptys (<[id := pty_with_fg pg (ptys w id)]> (ptys w)) w else w), tt));
      install p fd (opened FD_PTY_SLAVE ref flags id pa)
  end.

(** The inode of the path, after [/proc] is mounted and a file is created if need be. *)
Definition open_inode (mount_fn : path -> path -> path -> vfs W D -> vfs W D * Z) (flags : Z) (pa : path) :
    call SK W D (vfs_inode * option superblock) :=
  r ← resolve pa;
  _ ← (if match r with Unresolved => test (pa = str "/proc") || test (take 6 pa = str "/proc/") | Resolved _ _ => false end then
         _ ← on_vfs (vfs_mkdir (str "/proc"));
         _ ← on_vfs (fun v => Some (vfs_mount mount_fn (str "proc") (str "/proc") (str "proc") v));
         mret tt
       else mret tt);
  r ← resolve pa;
  match r with
  | Resolved i sb => mret (i, sb)
  | Unresolved =>
      _ ← reject (negb (flag flags LINUX_O_CREAT)) ENOENT;
      n ← write_all pa [];
      _ ← reject (n <? 0) ENOENT;
      resolve_or ENOENT pa
  end.

Definition open_file (mount_fn : path -> path -> path -> vfs W D -> vfs W D * Z) (p flags : Z) (pa : path) : call SK W D Z :=
  x ← open_inode mount_fn flags pa;
  let '(i, sb) := x in
  t ← user_task;
  _ ← reject (vfs_permission_check i (open_request flags) t <? 0) EACCES;
  x ← new_file p;
  let '(fd, ref) := x in
  let trunc := flag flags LINUX_O_TRUNC && flag flags (Z.lor LINUX_O_WRONLY LINUX_O_RDWR) in
  let i' := if trunc then with_size 0 i else i in
  let e := with_inode i' sb (opened FD_VFS ref flags (-1) pa) in
  let e := if flag flags LINUX_O_APPEND then with_pos (i_size i') e else e in
  _ ← (if trunc then write_all pa [] else mret 0);
  _ ← install p fd e;
  _ ← on_fd (fun w => ((if test (pa = str "/dev/fb0") then set_fb (fb_hold w + 1) (if fb_hold w =? 0 then false else fb_present w) w else w), tt));
  mret fd.

Definition do_sys_openat (mount_fn : path -> path -> path -> vfs W D -> vfs W D * Z) (me : Z) (tk : option task_tty)
    (dirfd_u path_u flags_u : Z) : call SK W D Z :=
  let flags := i32 flags_u in
  p ← on_fd (fd_proc_with_stdio me);
  match p with
  | None => err ENOMEM
  | Some p =>
      _ ← reject (path_u =? 0) EFAULT;
      path_in ← get_path path_u;
      pa ← at_path me (i32 dirfd_u) path_in;
      if test (pa = str "/dev/tty") then open_tty tk p flags pa
      else if test (pa = str "/dev/ptmx") then open_ptmx p flags pa
      else if test (take 9 pa = str "/dev/pts/") then open_pts tk p flags pa
      else open_file mount_fn p flags pa
  end.

(** [struct edge_linux_open_how]: flags, mode, resolve; what is not given is zero. *)
Definition do_sys_openat2 (mount_fn : path -> path -> path -> vfs W D -> vfs W D * Z) (me : Z) (tk : option task_tty)
    (dirfd_u path_u how_u size_u : Z) : call SK W D Z :=
  _ ← reject (how_u =? 0) EINVAL;
  _ ← reject (size_u =? 0) EINVAL;
  l ← get_bytes how_u (if 24 <? size_u then 24 else size_u);
  let how := l ++ replicate 24 0 in
  _ ← reject (negb (field 16 8 how =? 0)) EOPNOTSUPP;
  do_sys_openat mount_fn me tk dirfd_u path_u (field 0 8 how).

(** ** Position and attributes *)

Definition set_entry (p fd : Z) (e : edge_fd) : call SK W D unit := on_fd (fun w => (set_fd p fd e w, tt)).

Definition do_sys_lseek (me fd_u off_u whence_u : Z) : call SK W D Z :=
  x ← entry me fd_u;
  let '(p, e) := x in
  let whence := i32 whence_u in
  base ← (if whence =? LINUX_SEEK_SET then mret 0
          else if whence =? LINUX_SEEK_CUR then mret (i64 (f_pos e))
          else if whence =? LINUX_SEEK_END then mret (i_size (f_inode e))
          else err EINVAL);
  let np := i64 (base + i64 off_u) in
  _ ← reject (np <? 0) EINVAL;
  _ ← set_entry p (i32 fd_u) (with_pos np e);
  mret np.

Definition fstat_bytes (e : edge_fd) : list Z :=
  match f_kind e with
  | FD_PIPE_R | FD_PIPE_W => fill_kstat_mode_size (Z.lor LINUX_S_IFIFO (oct 600)) 0
  | FD_CONSOLE => fill_kstat_mode_size (Z.lor LINUX_S_IFCHR (oct 666)) 0
  | FD_PTY_MASTER => stat_bytes (0xD0000000 + 12) (Z.lor LINUX_S_IFCHR (oct 666)) 0 0 0
  | FD_PTY_SLAVE => stat_bytes (0xD0FFF100 + u32 (f_obj e)) (Z.lor LINUX_S_IFCHR (oct 620)) 0 0 0
  | FD_EVENTFD | FD_TIMERFD | FD_SIGNALFD | FD_EPOLL | FD_PIDFD =>
      stat_bytes (0xE0000000 + Z.shiftl (kind_num (f_kind e)) 16 + Z.land (f_obj e) 0xFFFF) (Z.lor LINUX_S_IFCHR (oct 600)) 0 0 0
  | _ => fill_kstat (f_inode e)
  end.

Definition do_sys_fstat (me fd_u st_u : Z) : call SK W D Z :=
  _ ← reject (st_u =? 0) EINVAL;
  x ← entry me fd_u;
  _ ← put_bytes st_u (fstat_bytes x.2);
  mret 0.

Definition do_sys_fstatfs_linux (me fd_u buf_u : Z) : call SK W D Z :=
  p ← on_fd (fd_proc_with_stdio me);
  _ ← reject (buf_u =? 0) EINVAL;
  e ← ask (fun s => fd_get p (i32 fd_u) (fdt s));
  match e with
  | None => err EBADF
  | Some (_, e) =>
      _ ← reject (negb (test (f_kind e = FD_VFS)) || test (f_path e = [])) ENOSYS;
      l ← fill_linux_statfs_from_path (f_path e);
      _ ← put_bytes buf_u l;
      mret 0
  end.

Definition do_sys_fsync (me fd_u : Z) : call SK W D Z := _ ← entry me fd_u; mret 0.

Definition do_sys_fchdir (me fd_u : Z) : call SK W D Z :=
  x ← entry me fd_u;
  _ ← reject (negb (test (f_kind x.2 = FD_VFS)) || negb (is_dir (f_inode x.2))) ENOTDIR;
  r ← on_vfs (vfs_chdir (Some (f_path x.2)));
  zero_or ENOENT r.

Definition do_sys_fchmod (me fd_u mode_u : Z) : call SK W D Z :=
  x ← entry me fd_u;
  _ ← reject (negb (test (f_kind x.2 = FD_VFS))) EINVAL;
  t ← user_task;
  match t with
  | None => mret 0
  | Some t =>
      _ ← reject (negb (euid (c_cred t) =? 0) && negb (euid (c_cred t) =? i_uid (f_inode x.2))) EPERM;
      r ← on_vfs (vfs_chmod (f_path x.2) (u16 mode_u));
      nonneg_or EINVAL r
  end.

Definition do_sys_fchown (me fd_u owner_u group_u : Z) : call SK W D Z :=
  x ← entry me fd_u;
  _ ← reject (negb (test (f_kind x.2 = FD_VFS))) EINVAL;
  t ← user_task;
  _ ← reject (not_root t) EPERM;
  r ← on_vfs (vfs_chown (f_path x.2) (u16 owner_u) (u16 group_u));
  nonneg_or EINVAL r.

Definition do_sys_ftruncate (me fd_u len_u : Z) : call SK W D Z :=
  x ← entry me fd_u;
  let '(p, e) := x in
  _ ← reject (negb (test (f_kind e = FD_VFS)) || test (f_path e = [])) EINVAL;
  _ ← reject (2 ^ 63 <=? len_u) EINVAL;
  r ← truncate_vfs_path_to_len (f_path e) len_u;
  _ ← (if len_u <? f_pos e then set_entry p (i32 fd_u) (with_pos len_u e) else mret tt);
  mret r.

Definition do_sys_fallocate (me fd_u off_u len_u : Z) : call SK W D Z :=
  x ← entry me fd_u;
  _ ← reject (negb (test (f_kind x.2 = FD_VFS))) EINVAL;
  _ ← reject ((2 ^ 63 <=? off_u) || (2 ^ 63 <=? len_u)) EINVAL;
  let stop := u64 (off_u + len_u) in
  _ ← reject (stop <? off_u) EOVERFLOW;
  if i_size (f_inode x.2) <? stop then do_sys_ftruncate me fd_u stop else mret 0.

(** The target of [/proc/self/fd/n]. *)
Fixpoint fd_number (p : path) (n : Z) : option Z :=
  match p with
  | [] => Some n
  | c :: p =>
      if (c <? chr "0") || (chr "9" <? c) then None
      else let n := n * 10 + (c - chr "0") in if 1000000 <? n then None else fd_number p n
  end.

Definition link_target (e : edge_fd) w : option path :=
  match f_kind e with
  | FD_PTY_SLAVE =>
      if negb (in_range (f_obj e) EDGE_MAX_PTYS) || negb (y_used (ptys w (f_obj e))) then None
      else Some (str "/dev/pts/" ++ decimal (f_obj e))
  | FD_PTY_MASTER => Some (str "/dev/ptmx")
  | FD_CONSOLE => Some (str "/dev/console")
  | FD_VFS => if test (f_path e = []) then None else Some (take 255 (f_path e))
  | FD_PIPE_R | FD_PIPE_W => Some (str "pipe:[" ++ signed_decimal (f_obj e) ++ str "]")
  | FD_SOCKET => Some (str "socket:[" ++ signed_decimal (f_obj e) ++ str "]")
  | _ => None
  end.

Definition do_sys_readlinkat (me dirfd_u path_u buf_u bufsz_u : Z) : call SK W D Z :=
  _ ← reject ((path_u =? 0) || (buf_u =? 0)) EINVAL;
  _ ← reject (bufsz_u =? 0) EINVAL;
  path_in ← get_path path_u;
  pa ← at_path me (i32 dirfd_u) path_in;
  if negb (test (take 14 pa = str "/proc/self/fd/")) then err EINVAL
  else
    p ← on_fd (fd_proc_with_stdio me);
    _ ← reject (test (drop 14 pa = [])) ENOENT;
    match fd_number (drop 14 pa) 0 with
    | None => err ENOENT
    | Some fd =>
        t ← ask (fun s => match fd_get p fd (fdt s) with Some (_, e) => link_target e (fdt s) | None => None end);
        match t with
        | None => err ENOENT
        | Some t =>
            let n := if bufsz_u <? zlength t then bufsz_u else zlength t in
            _ ← (if 0 <? n then put_bytes buf_u (take (Z.to_nat n) t) else mret tt);
            mret n
        end
    end.

Definition do_sys_readlink (me path_u buf_u bufsz_u : Z) : call SK W D Z := do_sys_readlinkat me LINUX_AT_FDCWD path_u buf_u bufsz_u.

(** ** Directories *)

(** The loops over entries that are not on a disk: the index and the bytes written
    when it stops. *)
Fixpoint emit (n : nat) (ent : Z -> dev_entry) (idx written dirp count : Z) : call SK W D (Z * Z) :=
  match n with
  | O => mret (idx, written)
  | S n =>
      match ent idx with
      | NoMore => mret (idx, written)
      | Hole => emit n ent (idx + 1) written dirp count
      | Entry nm ino type =>
          let len := dirent_len nm in
          if count <? written + len then mret (idx, written)
          else
            _ ← reject (320 <? len) EINVAL;
            _ ← put_bytes (u64 (dirp + written)) (dirent_bytes ino (idx + 1) type nm);
            emit n ent (idx + 1) (written + len) dirp count
      end
  end.

(** The terminals in use, in order. *)
Definition used_ptys w : list Z := filter (fun i => y_used (ptys w i) = true) (seqZ 0 EDGE_MAX_PTYS).

Definition pts_entry w (idx : Z) : dev_entry :=
  if 2 + zlength (used_ptys w) <=? idx then NoMore
  else if idx =? 0 then Entry dot 2 LINUX_DT_DIR
  else if idx =? 1 then Entry dotdot 2 LINUX_DT_DIR
  else
    match used_ptys w !! Z.to_nat (idx - 2) with
    | None => NoMore
    | Some id => Entry (decimal id) (0xD0FFF100 + (idx - 2)) LINUX_DT_CHR
    end.

Definition dev_entry_at (t : block_table) (idx : Z) : dev_entry :=
  let nb := block_count t in
  if 2 + nb + zlength k_chr <=? idx then NoMore
  else if idx =? 0 then Entry dot 2 LINUX_DT_DIR
  else if idx =? 1 then Entry dotdot 2 LINUX_DT_DIR
  else if idx <? 2 + nb then
    match block_get t (idx - 2) with
    | Some b => if present (devices t b) =? 0 then Hole else Entry (bname (devices t b)) (0xD0000000 + idx) LINUX_DT_BLK
    | None => Hole
    end
  else match k_chr !! Z.to_nat (idx - (2 + nb)) with Some nm => Entry nm (0xD0000000 + idx) LINUX_DT_CHR | None => NoMore end.

(** The loop over the entries of a directory of a file system: every record takes
    24 bytes at least. *)
Fixpoint list_dir (n : nat) (p fd : Z) (sb : superblock) (written dirp count : Z) : call SK W D Z :=
  match n with
  | O => mret written
  | S n =>
      e ← ask (fun s => fd_of (fdt s) p fd);
      x ← on_vfs (fun v => let '(wd, x) := op_readdir sb (f_inode e) (u32 (f_pos e)) (world v) in Some (with_world v wd, x));
      match x with
      | None => mret written
      | Some (nm, i) =>
          let len := dirent_len nm in
          if count <? written + len then mret written
          else
            _ ← reject (320 <? len) EINVAL;
            _ ← put_bytes (u64 (dirp + written)) (dirent_bytes (i_ino i) (u32 (u32 (f_pos e) + 1)) (mode_to_dtype (i_mode i)) nm);
            _ ← set_entry p fd (with_pos (u64 (f_pos e + 1)) e);
            list_dir n p fd sb (written + len) dirp count
      end
  end.

(** The descriptor is the directory of devices, by its path or by its inode number. *)
Definition is_dev_dir (e : edge_fd) : call SK W D bool :=
  if test (f_path e = str "/dev") then mret true
  else
    r ← resolve (str "/dev");
    mret (match r with Resolved i _ => (i_ino i =? i_ino (f_inode e)) && is_dir i | Unresolved => false end).

Definition do_sys_getdents64 (me fd_u dirp_u count_u : Z) : call SK W D Z :=
  x ← entry me fd_u;
  let '(p, e) := x in
  let fd := i32 fd_u in
  let finish (y : Z * Z) := _ ← set_entry p fd (with_pos y.1 e); mret y.2 in
  _ ← reject (negb (is_dir (f_inode e))) ENOTDIR;
  _ ← reject (count_u <? D64_BASE + 2) EINVAL;
  if test (f_path e = str "/dev/pts") then
    w ← ask (fun s : sys SK W D => fdt s);
    y ← emit 18 (pts_entry w) (f_pos e) 0 dirp_u count_u;
    finish y
  else
    dev ← is_dev_dir e;
    if (dev : bool) then
      t ← ask (fun s : sys SK W D => g_block (vf s));
      y ← emit (Z.to_nat (2 + block_count t + zlength k_chr)) (dev_entry_at t) (f_pos e) 0 dirp_u count_u;
      finish y
    else
      match f_sb e with
      | Some sb => if has_readdir sb then list_dir (S (Z.to_nat (count_u / 24))) p fd sb 0 dirp_u count_u else err ENOSYS
      | None => err ENOSYS
      end.

(** ** Reading and writing *)

Definition is_device (i : vfs_inode) : bool := is_kind i VFS_INODE_CHR || is_kind i VFS_INODE_BLK.

(** One read of a file or a device into the chunk. *)
Definition read_chunk (p fd n : Z) : call SK W D (Z * list Z) :=
  e ← ask (fun s => fd_of (fdt s) p fd);
  if is_device (f_inode e) then read_all (f_path e) n
  else
    match f_sb e with
    | Some sb =>
        if sb_has sb OP_READ then
          x ← on_vfs (fun v => let '(wd, r, l) := op_read sb (f_inode e) (u32 (f_pos e)) n (world v) in Some (with_world v wd, (r, l)));
          _ ← (if 0 <? x.1 then set_entry p fd (with_pos (u64 (f_pos e + x.1)) e) else mret tt);
          mret x
        else mret (-1, [])
    | None => mret (-1, [])
    end.

(** Every turn but the last moves a whole chunk. *)
Fixpoint read_loop (n : nat) (p fd buf done len : Z) : call SK W D Z :=
  match n with
  | O => mret done
  | S n =>
      if len <=? done then mret done
      else
        let k := if CHUNK <? len - done then CHUNK else len - done in
        x ← read_chunk p fd k;
        _ ← reject (x.1 <? 0) EINVAL;
        if x.1 =? 0 then mret done
        else
          _ ← put_bytes (u64 (buf + done)) x.2;
          if x.1 <? k then mret (done + x.1) else read_loop n p fd buf (done + x.1) len
  end.

Definition file_read (p fd buf len : Z) : call SK W D Z :=
  e ← ask (fun s => fd_of (fdt s) p fd);
  _ ← reject (is_dir (f_inode e)) EISDIR;
  read_loop (S (Z.to_nat (len / CHUNK))) p fd buf 0 len.

(** Writes go from the program's memory to the file system. *)
Fixpoint write_loop (n : nat) (p fd : Z) (sb : superblock) (buf done len : Z) : call SK W D Z :=
  match n with
  | O => mret done
  | S n =>
      if len <=? done then mret done
      else
        let k := if WRITE_CHUNK <? len - done then WRITE_CHUNK else len - done in
        if negb (user_range_ok (u64 (buf + done)) k) then (if done =? 0 then err EFAULT else mret done)
        else
          e ← ask (fun s => fd_of (fdt s) p fd);
          let e := if flag (f_flags e) LINUX_O_APPEND then with_pos (i_size (f_inode e)) e else e in
          m ← ask (fun s => umem (fdt s));
          x ← on_vfs (fun v =>
                let '(wd, i, r) := op_write sb (f_inode e) (u32 (f_pos e)) (load_bytes m (u64 (buf + done)) (Z.to_nat k)) (world v) in
                Some (with_world v wd, (i, r)));
          let '(i, r) := x in
          let e := with_inode i (f_sb e) e in
          _ ← set_entry p fd (if 0 <? r then with_pos (u64 (f_pos e + r)) e else e);
          if r <? 0 then (if done =? 0 then err EINVAL else mret done)
          else if r =? 0 then mret done
          else if r <? k then mret (done + r) else write_loop n p fd sb buf (done + r) len
  end.

(** Devices are written by chunks, character devices at the position. *)
Fixpoint device_write_loop (n : nat) (p fd buf done len : Z) : call SK W D Z :=
  match n with
  | O => mret done
  | S n =>
      if len <=? done then mret done
      else
        let k := if CHUNK <? len - done then CHUNK else len - done in
        l ← get_bytes (u64 (buf + done)) k;
        e ← ask (fun s => fd_of (fdt s) p fd);
        r ← (if is_kind (f_inode e) VFS_INODE_CHR then
               r ← on_vfs (vfs_dev_pwrite (f_path e) l (f_pos e));
               _ ← (if 0 <? r then set_entry p fd (with_pos (u64 (f_pos e + r)) e) else mret tt);
               mret r
             else if is_kind (f_inode e) VFS_INODE_BLK then write_all (f_path e) l
             else mret (-1));
        _ ← reject (r <? 0) EINVAL;
        if r <? k then mret (done + r) else device_write_loop n p fd buf (done + r) len
  end.

Definition file_write (p fd buf len : Z) : call SK W D Z :=
  e ← ask (fun s => fd_of (fdt s) p fd);
  _ ← reject (is_dir (f_inode e)) EISDIR;
  match f_sb e with
  | Some sb =>
      if negb (is_device (f_inode e)) && sb_has sb OP_WRITE
      then write_loop (S (Z.to_nat (len / WRITE_CHUNK))) p fd sb buf 0 len
      else device_write_loop (S (Z.to_nat (len / CHUNK))) p fd buf 0 len
  | None => device_write_loop (S (Z.to_nat (len / CHUNK))) p fd buf 0 len
  end.

(** A read of the mouse takes at most 256 bytes and waits for the first. *)
Definition mouse_read (now : Z) (e : edge_fd) (buf len : Z) (s : sys SK W D) (sg : signals) : sys SK W D * signals * io :=
  let '(wd, r, l) := keyboard_mouse_read (if 256 <? len then 256 else len) (world (vf s)) in
  let s := set_vf (with_world (vf s) wd) s in
  if 0 <? r then
    match copy_to_user (umem (fdt s)) buf l with
    | None => (s, sg, Done (- EFAULT))
    | Some m => (set_fdt (set_umem m (fdt s)) s, sg, Done r)
    end
  else let '(sg, o) := waits (f_flags e) now sg in (s, sg, o).

(** What the rest of the kernel gives a read or a write: the clocks, the process, its
    user and its terminal. *)
Record io_env := { e_clock : times; e_me : Z; e_uid : Z; e_task : option task_tty }.
Definition e_pgid (x : io_env) : Z := match e_task x with Some k => k_pgid k | None => -1 end.

Definition tty_io (o : tty_out) : io := match o with Line r => Done r | Waiting _ => Wait | More => Spin end.

(** The console: [n] is the fuel of [Tty.do_sys_read], whose wait goes on with
    [do_sys_read_resume]. *)
Definition console_read (n : nat) (x : io_env) (buf len : Z) (s : sys SK W D) (sg : signals) : sys SK W D * signals * list Z * io :=
  let '(w, wd, groups, o) := do_sys_read n (e_task x) buf len (fdt s) (world (vf s)) in
  ({| fdt := w; vf := with_world (vf s) wd |}, sg, groups, tty_io o).
Definition console_write (buf len : Z) (s : sys SK W D) (sg : signals) : sys SK W D * signals * list Z * io :=
  let '(wd, r) := do_sys_write buf len (fdt s) (world (vf s)) in
  (set_vf (with_world (vf s) wd) s, sg, [], Done r).

Definition finish (c : call SK W D Z) (s : sys SK W D) (sg : signals) : option (sys SK W D * signals * list Z * io) :=
  match returns c s with Some (s, r) => Some (s, sg, [], Done r) | None => None end.

(** The two calls; [other] is the socket. The process groups to interrupt are
    returned. *)
Definition do_sys_fd_read (other : edge_fd -> fdw SK -> signals -> fdw SK * signals * io) (n : nat) (x : io_env)
    (fd_u buf len : Z) (s : sys SK W D) (sg : signals) : option (sys SK W D * signals * list Z * io) :=
  let '(w, p) := fd_proc_with_stdio (e_me x) (fdt s) in
  match (if (buf =? 0) || (len =? 0) then None else fd_get p (i32 fd_u) w) with
  | Some (p, e) =>
      let console := match f_kind e with FD_CONSOLE => true | FD_VFS => path_is_console_tty (f_path e) | _ => false end in
      if console then Some (console_read n x buf len (set_fdt w s) sg)
      else if test (f_kind e = FD_VFS) then
        if path_is_mouse_input (f_path e)
        then let '(s, sg, o) := mouse_read (mono (e_clock x)) e buf len (set_fdt w s) sg in Some (s, sg, [], o)
        else finish (file_read p (i32 fd_u) buf len) (set_fdt w s) sg
      else
        let '(w, sg, o) := Pty.do_sys_fd_read other (e_clock x) (e_me x) (e_uid x) fd_u buf len (fdt s) sg in
        Some (set_fdt w s, sg, [], o)
  | None =>
      let '(w, sg, o) := Pty.do_sys_fd_read other (e_clock x) (e_me x) (e_uid x) fd_u buf len (fdt s) sg in
      Some (set_fdt w s, sg, [], o)
  end.

Definition do_sys_fd_write (other : edge_fd -> fdw SK -> signals -> fdw SK * signals * list Z * io) (x : io_env)
    (fd_u buf len : Z) (s : sys SK W D) (sg : signals) : option (sys SK W D * signals * list Z * io) :=
  let '(w, p) := fd_proc_with_stdio (e_me x) (fdt s) in
  match (if (buf =? 0) || (len =? 0) then None else fd_get p (i32 fd_u) w) with
  | Some (p, e) =>
      let console := match f_kind e with FD_CONSOLE => true | FD_VFS => path_is_console_tty (f_path e) | _ => false end in
      if console then Some (console_write buf len (set_fdt w s) sg)
      else if test (f_kind e = FD_VFS) then finish (file_write p (i32 fd_u) buf len) (set_fdt w s) sg
      else
        let '(w, sg, groups, o) := Pty.do_sys_fd_write other (e_clock x) (e_me x) (e_pgid x) fd_u buf len (fdt s) sg in
        Some (set_fdt w s, sg, groups, o)
  | None =>
      let '(w, sg, groups, o) := Pty.do_sys_fd_write other (e_clock x) (e_me x) (e_pgid x) fd_u buf len (fdt s) sg in
      Some (set_fdt w s, sg, groups, o)
  end.

(** ** Vectors *)

(** The value, or a wait with the buffers that are left and the bytes so far. *)
Inductive vec_out := VDone (r : Z) | VWait (rest : list (Z * Z)) (total : Z) | VSpin.

(** The loop over the buffers, with the read or the write of one. *)
Fixpoint vec_loop (step : Z -> Z -> sys SK W D -> signals -> option (sys SK W D * signals * list Z * io)) (iov : list (Z * Z)) (total : Z)
    (s : sys SK W D) (sg : signals) (groups : list Z) : option (sys SK W D * signals * list Z * vec_out) :=
  match iov with
  | [] => Some (s, sg, groups, VDone total)
  | (base, len) :: rest =>
      if len =? 0 then vec_loop step rest total s sg groups
      else
        match step base len s sg with
        | None => None
        | Some (s, sg, g, Wait) => Some (s, sg, groups ++ g, VWait iov total)
        | Some (s, sg, g, Spin) => Some (s, sg, groups ++ g, VSpin)
        | Some (s, sg, g, Done r) =>
            if r <? 0 then Some (s, sg, groups ++ g, VDone (if total =? 0 then r else total))
            else if r <? len then Some (s, sg, groups ++ g, VDone (u64 (total + r)))
            else vec_loop step rest (u64 (total + r)) s sg (groups ++ g)
        end
  end.

(** [struct edge_iovec], 64 of them at most. *)
Definition iovecs (n : nat) (l : list Z) : list (Z * Z) := map (fun k => (field (16 * k) 8 l, field (16 * k + 8) 8 l)) (seq 0 n).

Definition vec_call (step : Z -> Z -> sys SK W D -> signals -> option (sys SK W D * signals * list Z * io)) (iov_u iovcnt_u : Z) (s : sys SK W D) (sg : signals) :
    option (sys SK W D * signals * list Z * vec_out) :=
  let cnt := i32 iovcnt_u in
  if (iov_u =? 0) || (cnt <=? 0) || (64 <? cnt) then Some (s, sg, [], VDone (- EINVAL))
  else
    match copy_from_user (umem (fdt s)) iov_u (cnt * 16) with
    | None => Some (s, sg, [], VDone (- EFAULT))
    | Some l => vec_loop step (iovecs (Z.to_nat cnt) l) 0 s sg []
    end.

Definition do_sys_readv (other : edge_fd -> fdw SK -> signals -> fdw SK * signals * io) (n : nat) (x : io_env) (fd_u : Z) :
    Z -> Z -> sys SK W D -> signals -> option (sys SK W D * signals * list Z * vec_out) :=
  vec_call (do_sys_fd_read other n x fd_u).
Definition do_sys_writev (other : edge_fd -> fdw SK -> signals -> fdw SK * signals * list Z * io) (x : io_env) (fd_u : Z) :
    Z -> Z -> sys SK W D -> signals -> option (sys SK W D * signals * list Z * vec_out) :=
  vec_call (do_sys_fd_write other x fd_u).
End files.
