(* ===== verification/FilesInv.v ===== *)
(** * What open files do

    What a file system promises about the bytes of a file is the class [file_store];
    over it, a write through a descriptor, a seek and a read give the bytes back.
    Opening keeps the reference counts of [FdInv.v], and the records that
    [getdents64] writes are the entries of the directory. *)

From S2P Require Import Prelude CString Block Path Process Rng Uaccess Vfs Ring Fd FdOps FdInv Signals FdIo Pty Tty PathCalls Files.

(** ** Bytes of a file *)

Lemma zlength_nonneg {A} (l : list A) : 0 <= zlength l.
Proof. unfold zlength. lia. Qed.

Lemma zlength_app {A} (l r : list A) : zlength (l ++ r) = zlength l + zlength r.
Proof. unfold zlength. rewrite length_app. lia. Qed.

(** [l] after [c] is written at [off]. *)
Definition written (off : Z) (c l : list Z) : list Z := take (Z.to_nat off) l ++ c ++ drop (Z.to_nat off + length c) l.

Lemma zlength_written off c l : 0 <= off <= zlength l -> zlength (written off c l) = Z.max (zlength l) (off + zlength c).
Proof. unfold zlength, written. intros H. rewrite !length_app, length_take, length_drop. lia. Qed.

Lemma written_nil off l : written off [] l = l.
Proof. unfold written. cbn. by rewrite Nat.add_0_r, take_drop. Qed.

Lemma written_app off a b l : 0 <= off <= zlength l -> written (off + zlength a) b (written off a l) = written off (a ++ b) l.
Proof.
  unfold written, zlength. intros H. replace (Z.to_nat (off + Z.of_nat (length a))) with (Z.to_nat off + length a)%nat by lia.
  assert (length (take (Z.to_nat off) l) = Z.to_nat off) as El by (rewrite length_take; lia). set (o := Z.to_nat off) in *.
  assert (forall z, take (o + length a) (take o l ++ a ++ z) = take o l ++ a) as E1.
  { intros z. rewrite app_assoc. apply take_app_length'. rewrite length_app, El. done. }
  assert (forall z k, drop (o + length a + k) (take o l ++ a ++ z) = drop k z) as E2.
  { intros z k. rewrite app_assoc, drop_app_ge by (rewrite length_app, El; lia). f_equal. rewrite length_app, El. lia. }
  rewrite E1, E2, drop_drop, length_app, <- !app_assoc, Nat.add_assoc. done.
Qed.

Lemma read_written off c l : 0 <= off <= zlength l -> take (length c) (drop (Z.to_nat off) (written off c l)) = c.
Proof.
  unfold written, zlength. intros H. rewrite drop_app_ge by (rewrite length_take; lia).
  rewrite length_take, Nat.min_l, Nat.sub_diag by lia. by rewrite drop_0, take_app_length.
Qed.

(** The bytes from a position on. *)
Definition bytes_at (off n : Z) (l : list Z) : list Z := take (Z.to_nat n) (drop (Z.to_nat off) l).

Lemma zlength_bytes_at off n l : 0 <= off -> 0 <= n -> zlength (bytes_at off n l) = Z.max 0 (Z.min n (zlength l - off)).
Proof. unfold bytes_at, zlength. intros. rewrite length_take, length_drop. lia. Qed.

Lemma bytes_at_split off k n l :
  0 <= off -> 0 <= k <= n -> zlength (bytes_at off k l) = k -> bytes_at off n l = bytes_at off k l ++ bytes_at (off + k) (n - k) l.
Proof.
  unfold bytes_at. intros Ho Hk _. replace (Z.to_nat n) with (Z.to_nat k + Z.to_nat (n - k))%nat by lia.
  replace (Z.to_nat (off + k)) with (Z.to_nat off + Z.to_nat k)%nat by lia. by rewrite <- drop_drop, take_take_drop.
Qed.

Lemma bytes_at_short off k n l : 0 <= off -> 0 <= k <= n -> zlength (bytes_at off k l) < k -> bytes_at off n l = bytes_at off k l.
Proof.
  intros Ho Hk Hs. rewrite zlength_bytes_at in Hs by lia. unfold bytes_at, zlength in *. rewrite !take_ge by (rewrite length_drop; lia). done.
Qed.

(** A part of a range of user memory. *)
Lemma user_part buf len d k :
  0 <= buf < 2 ^ 64 -> 0 <= len < 2 ^ 64 -> user_range_ok buf len = true -> 0 <= d < len -> 0 <= k -> d + k <= len ->
  u64 (buf + d) = buf + d /\ user_range_ok (buf + d) k = true.
Proof.
  intros Hb Hl H Hd Hk Hdk. apply user_range_ok_spec in H; [|done..]. unfold USER_MIN_ADDR, USER_MAX_ADDR in *.
  split; [apply u64_small; lia|]. apply user_range_ok_spec; unfold USER_MIN_ADDR, USER_MAX_ADDR; lia.
Qed.

(** ** What a file system promises *)

(** [contains i l wd]: the file of inode [i] holds [l]. A read gives the bytes that
    are there; a write of at most [cap] bytes may stop short, and then the volume is
    [full]. *)
Class file_store {W} `{!filesystems W} (sb : superblock) (cap : Z) := {
  contains : vfs_inode -> list Z -> W -> Prop;
  full : W -> Prop;
  store_has : sb_has sb OP_READ = true /\ sb_has sb OP_WRITE = true;
  store_cap : cap < 2 ^ 31;
  store_size i l wd : contains i l wd -> i_size i = zlength l /\ zlength l <= cap;
  store_read i l wd off n : contains i l wd -> 0 <= off < 2 ^ 31 -> 0 <= n < 2 ^ 31 ->
    exists wd', op_read sb i off n wd = (wd', zlength (bytes_at off n l), bytes_at off n l) /\ contains i l wd';
  store_write i l wd off src : contains i l wd -> 0 <= off <= zlength l -> off + zlength src <= cap ->
    exists wd' i' r, op_write sb i off src wd = (wd', i', r) /\ 0 <= r <= zlength src /\ i_mode i' = i_mode i /\
      contains i' (written off (take (Z.to_nat r) src) l) wd' /\ (r < zlength src -> full wd')
}.

Section files.
Context {SK W D : Type} `{!sock_layer SK, !filesystems W, !machine W, !sigint_source W, !driver D, !readdirs W}.
Context (sb : superblock) (cap : Z) `{!file_store sb cap}.
Implicit Types (s : sys SK W D) (w : fdw SK).

(** Descriptor [fd] in table [p] is an open file that holds [l], at position [pos]. *)
Record file_open (p fd : Z) (l : list Z) (pos : Z) s : Prop := {
  o_used : f_used (fd_of (fdt s) p fd) = true;
  o_kind : f_kind (fd_of (fdt s) p fd) = FD_VFS;
  o_sb : f_sb (fd_of (fdt s) p fd) = Some sb;
  o_dir : is_dir (f_inode (fd_of (fdt s) p fd)) = false;
  o_dev : is_device (f_inode (fd_of (fdt s) p fd)) = false;
  o_pos : f_pos (fd_of (fdt s) p fd) = pos;
  o_content : contains (f_inode (fd_of (fdt s) p fd)) l (world (vf s))
}.

(** Only this descriptor changes: its position, the inode of the same file. *)
Record same_but (p fd : Z) w w' : Prop := {
  s_pids : same_pids w w';
  s_fds : forall q n, ~ (q = p /\ n = fd) -> fd_of w' q n = fd_of w q n;
  s_path : f_path (fd_of w' p fd) = f_path (fd_of w p fd);
  s_flags : f_flags (fd_of w' p fd) = f_flags (fd_of w p fd);
  s_in_use : f_used (fd_of w' p fd) = f_used (fd_of w p fd)
}.

#[export] Instance same_but_refl p fd : Reflexive (same_but p fd).
Proof. by split. Qed.

#[export] Instance same_but_trans p fd : Transitive (same_but p fd).
Proof.
  intros w1 w2 w3 [A1 B1 C1 D1 E1] [A2 B2 C2 D2 E2]. split; [| |congruence..].
  - intros q. by rewrite (A2 q), (A1 q).
  - intros q n H. by rewrite B2, B1.
Qed.

Lemma fd_of_umem m w q n : fd_of (set_umem m w) q n = fd_of w q n.
Proof. done. Qed.

Lemma same_but_set p fd e w :
  f_path e = f_path (fd_of w p fd) -> f_flags e = f_flags (fd_of w p fd) -> f_used e = f_used (fd_of w p fd) -> same_but p fd w (set_fd p fd e w).
Proof.
  intros H1 H2 H3. split.
  - intros q. apply pid_set_fd.
  - intros q n H. rewrite fd_of_set, decide_False; [done|]. intros [-> ->]. by apply H.
  - by rewrite fd_of_set, decide_True.
  - by rewrite fd_of_set, decide_True.
  - by rewrite fd_of_set, decide_True.
Qed.

(** ** Reading *)

(** The position moves, and nothing else of the descriptor. *)
Lemma file_open_pos p fd l pos pos' wd s :
  file_open p fd l pos s -> contains (f_inode (fd_of (fdt s) p fd)) l wd ->
  let s' := set_fdt (set_fd p fd (with_pos pos' (fd_of (fdt s) p fd)) (fdt s)) (set_vf (with_world (vf s) wd) s) in
  file_open p fd l pos' s' /\ same_but p fd (fdt s) (fdt s').
Proof.
  intros [H1 H2 H3 H4 H5 H6 H7] Hc s'. assert (fd_of (fdt s') p fd = with_pos pos' (fd_of (fdt s) p fd)) as E.
  { unfold s'. cbn [fdt set_fdt]. by rewrite fd_of_set, decide_True. }
  split; [split; rewrite E; done|]. by apply same_but_set.
Qed.

Lemma file_open_world p fd l pos wd s :
  file_open p fd l pos s -> contains (f_inode (fd_of (fdt s) p fd)) l wd -> file_open p fd l pos (set_vf (with_world (vf s) wd) s).
Proof. by intros [H1 H2 H3 H4 H5 H6 H7]. Qed.

Lemma read_chunk_spec p fd n l pos s :
  file_open p fd l pos s -> 0 <= pos < 2 ^ 31 -> 0 <= n < 2 ^ 31 ->
  let c := bytes_at pos n l in
  exists s', read_chunk p fd n s = Some (s', inl (zlength c, c)) /\ file_open p fd l (pos + zlength c) s' /\
    same_but p fd (fdt s) (fdt s') /\ umem (fdt s') = umem (fdt s).
Proof.
  intros Ho Hp Hn c. destruct (store_read _ l _ pos n (o_content _ _ _ _ _ Ho) Hp Hn) as (wd & E & Hc). fold c in E.
  pose proof (zlength_nonneg c) as Hz. pose proof (zlength_bytes_at pos n l ltac:(lia) ltac:(lia)) as Hl. fold c in Hl.
  pose proof (store_size _ _ _ (o_content _ _ _ _ _ Ho)) as [_ Hcap]. pose proof store_cap as Hcap'.
  unfold read_chunk. unfold mbind, call_bind, ask, on_vfs, mret, call_ret, set_entry, on_fd. rewrite (o_dev _ _ _ _ _ Ho).
  rewrite (o_sb _ _ _ _ _ Ho), (proj1 store_has), (o_pos _ _ _ _ _ Ho), u32_small by lia. rewrite E. cbn [fst snd].
  destruct (Z.ltb_spec 0 (zlength c)) as [|Hz0].
  - rewrite u64_small by lia. destruct (file_open_pos p fd l pos (pos + zlength c) wd s Ho Hc) as [Ho' Hs]. eexists.
    split; [done|]. split; [exact Ho'|]. by split.
  - replace (zlength c) with 0 by lia. rewrite Z.add_0_r. eexists. split; [done|]. split; [by apply file_open_world|]. by split.
Qed.

Lemma umem_only p fd l pos m s : file_open p fd l pos s -> file_open p fd l pos (set_fdt (set_umem m (fdt s)) s).
Proof. by intros [H1 H2 H3 H4 H5 H6 H7]. Qed.

Lemma file_read_loop_spec p fd buf len l w0 n done pos s :
  user_range_ok buf len = true -> 0 <= buf < 2 ^ 64 -> 0 <= len < 2 ^ 31 ->
  file_open p fd l pos s -> 0 <= pos -> pos + (len - done) < 2 ^ 31 -> 0 <= done <= len -> len - done <= Z.of_nat n * CHUNK ->
  same_but p fd w0 (fdt s) ->
  let c := bytes_at pos (len - done) l in
  exists s', read_loop n p fd buf done len s = Some (s', inl (done + zlength c)) /\ file_open p fd l (pos + zlength c) s' /\
    same_but p fd w0 (fdt s') /\ umem (fdt s') = store_bytes (umem (fdt s)) (buf + done) c.
Proof.
  intros Hr Hb Hlen. revert done pos s. induction n as [|n IH]; intros done pos s Ho Hp Hpl Hd Hn Hsb c; cbn [read_loop].
  { assert (c = []) as -> by (unfold c, bytes_at; by replace (len - done) with 0 by lia). exists s. cbn. by rewrite !Z.add_0_r. }
  destruct (Z.leb_spec len done) as [Hle|Hlt].
  { assert (c = []) as -> by (unfold c, bytes_at; by replace (len - done) with 0 by lia). exists s. cbn. by rewrite !Z.add_0_r. }
  set (k := if CHUNK <? len - done then CHUNK else len - done). assert (CHUNK = 4096) as EC by done. rewrite EC in Hn.
  assert (0 < k <= len - done /\ (k = CHUNK \/ k = len - done)) as [Hk Hk'] by (unfold k; destruct (Z.ltb_spec CHUNK (len - done)); lia).
  clearbody k. destruct (read_chunk_spec p fd k l pos s Ho ltac:(lia) ltac:(lia)) as (s1 & E & Ho1 & Hs1 & Hm1).
  set (c1 := bytes_at pos k l) in *. pose proof (zlength_bytes_at pos k l ltac:(lia) ltac:(lia)) as Hz. fold c1 in Hz.
  assert (same_but p fd w0 (fdt s1)) as Hsb1 by (by etrans).
  unfold mbind at 1, call_bind at 1. rewrite E. cbn [fst snd]. unfold mbind at 1, call_bind at 1, reject at 1.
  destruct (Z.ltb_spec (zlength c1) 0); [lia|]. unfold mret at 1, call_ret at 1.
  assert (zlength c1 < k -> c = c1) as Hshort by (intros; apply bytes_at_short; [lia | lia | done]).
  destruct (Z.eqb_spec (zlength c1) 0) as [E0|E0].
  { rewrite Hshort by lia. exists s1. rewrite E0, !Z.add_0_r in *. destruct c1; [|unfold zlength in E0; cbn in E0; lia].
    split; [done|]. split; [done|]. split; [done | by rewrite Hm1]. }
  destruct (user_part buf len done (zlength c1) Hb ltac:(lia) Hr ltac:(lia) ltac:(lia) ltac:(lia)) as [Eu Hru].
  unfold mbind at 1, call_bind at 1, put_bytes, copy_to_user. rewrite Eu. unfold zlength in Hru. rewrite Hru. cbn [negb].
  rewrite Hm1. set (s2 := set_fdt _ s1). assert (file_open p fd l (pos + zlength c1) s2) as Ho2 by (by apply umem_only).
  assert (same_but p fd w0 (fdt s2)) as Hsb2 by (destruct Hsb1; by split).
  destruct (Z.ltb_spec (zlength c1) k) as [Hs|Hs].
  { rewrite Hshort by lia. exists s2. done. }
  assert (c = c1 ++ bytes_at (pos + k) (len - done - k) l) as Hc by (apply bytes_at_split; [lia | lia | fold c1; lia]).
  assert (zlength c1 = k) as Ek by lia. rewrite Ek in *.
  destruct (IH (done + k) (pos + k) s2 Ho2) as (s' & E' & Ho' & Hsb' & Hm'); [lia | lia | lia | rewrite EC; lia | done |].
  replace (len - (done + k)) with (len - done - k) in * by lia. exists s'. rewrite E', Hc.
  rewrite zlength_app, Ek, Z.add_assoc. split; [done|]. split; [by rewrite Z.add_assoc|]. split; [done|].
  rewrite Hm', store_bytes_app. unfold s2. cbn [umem set_fdt fdt set_umem]. f_equal. unfold zlength in Ek. lia.
Qed.

(** ** Writing *)

(** Where the next write goes. *)
Definition write_pos (p fd : Z) (l : list Z) (pos : Z) s : Z :=
  if flag (f_flags (fd_of (fdt s) p fd)) LINUX_O_APPEND then zlength l else pos.

(** One turn of the loop: the inode and the position after it. *)
Lemma file_open_wrote p fd l l' pos pos' i wd s :
  file_open p fd l pos s -> contains i l' wd -> i_mode i = i_mode (f_inode (fd_of (fdt s) p fd)) -> forall e,
  e = with_inode i (f_sb (fd_of (fdt s) p fd)) (with_pos pos' (fd_of (fdt s) p fd)) ->
  let s' := set_fdt (set_fd p fd e (fdt s)) (set_vf (with_world (vf s) wd) s) in
  file_open p fd l' pos' s' /\ same_but p fd (fdt s) (fdt s') /\ umem (fdt s') = umem (fdt s).
Proof.
  intros [H1 H2 H3 H4 H5 H6 H7] Hc Hm e -> s'.
  assert (fd_of (fdt s') p fd = with_inode i (f_sb (fd_of (fdt s) p fd)) (with_pos pos' (fd_of (fdt s) p fd))) as E.
  { unfold s'. cbn [fdt set_fdt]. by rewrite fd_of_set, decide_True. }
  split; [|split; [by apply same_but_set | done]].
  split; rewrite E; cbn; try done; [revert H4 | revert H5]; unfold is_dir, is_device, is_kind; by rewrite Hm.
Qed.

(** What the file system does in a turn, and the descriptor after it. *)
Lemma write_turn p fd l pos s src :
  file_open p fd l pos s -> let start := write_pos p fd l pos s in
  0 <= start <= zlength l -> start + zlength src <= cap ->
  let e := fd_of (fdt s) p fd in
  let e' := if flag (f_flags e) LINUX_O_APPEND then with_pos (i_size (f_inode e)) e else e in
  exists wd i r, op_write sb (f_inode e') (u32 (f_pos e')) src (world (vf s)) = (wd, i, r) /\ 0 <= r <= zlength src /\
    let e1 := with_inode i (f_sb e') e' in
    let s1 := set_fdt (set_fd p fd (if 0 <? r then with_pos (u64 (f_pos e1 + r)) e1 else e1) (fdt s)) (set_vf (with_world (vf s) wd) s) in
    file_open p fd (written start (take (Z.to_nat r) src) l) (start + r) s1 /\ same_but p fd (fdt s) (fdt s1) /\
    umem (fdt s1) = umem (fdt s) /\ (r < zlength src -> full wd).
Proof.
  intros Ho start Hst Hfit e e'. pose proof store_cap as Hcap. pose proof (zlength_nonneg src).
  destruct (store_size _ _ _ (o_content _ _ _ _ _ Ho)) as [Esz Hsz]. fold e in Esz.
  assert (e' = with_pos start e) as Ee.
  { unfold e', start, write_pos. fold e. destruct (flag _ _); [by rewrite Esz|]. rewrite <- (o_pos _ _ _ _ _ Ho). fold e. by destruct e. }
  clearbody e'. subst e'. cbn [f_inode f_pos f_sb with_pos with_inode]. rewrite u32_small by lia.
  destruct (store_write _ l _ start src (o_content _ _ _ _ _ Ho) Hst Hfit) as (wd & i & r & E & Hrr & Hm & Hc & Hfull).
  exists wd, i, r. split; [exact E|]. split; [done|]. cbn zeta.
  destruct (file_open_wrote p fd l _ pos (start + r) i wd s Ho Hc Hm
    (if 0 <? r then with_pos (u64 (start + r)) (with_inode i (f_sb e) (with_pos start e)) else with_inode i (f_sb e) (with_pos start e))) as (? & ? & ?).
  - destruct (Z.ltb_spec 0 r); [cbn; by rewrite u64_small by lia | by replace (start + r) with start by lia].
  - by split_and!.
Qed.

Lemma file_write_loop_spec p fd buf len w0 n done l pos s :
  user_range_ok buf len = true -> 0 <= buf < 2 ^ 64 -> 0 <= len < 2 ^ 31 ->
  file_open p fd l pos s -> let start := write_pos p fd l pos s in
  0 <= start <= zlength l -> start + (len - done) <= cap -> 0 <= done <= len -> done < len \/ pos = start ->
  len - done <= Z.of_nat n * WRITE_CHUNK -> same_but p fd w0 (fdt s) ->
  let data := load_bytes (umem (fdt s)) (buf + done) (Z.to_nat (len - done)) in
  exists s' r, write_loop n p fd sb buf done len s = Some (s', inl (done + r)) /\ 0 <= r <= len - done /\
    file_open p fd (written start (take (Z.to_nat r) data) l) (start + r) s' /\
    same_but p fd w0 (fdt s') /\ umem (fdt s') = umem (fdt s) /\ (r < len - done -> full (world (vf s'))).
Proof.
  intros Hr Hb Hlen. pose proof store_cap as Hcap.
  revert done l pos s. induction n as [|n IH]; intros done l pos s Ho start Hst Hfit Hd Hp Hn Hsb data; cbn [write_loop].
  { exists s, 0. rewrite written_nil, !Z.add_0_r. destruct Hp as [|Hp]; [lia|]. rewrite <- Hp. split_and!; (done || lia). }
  destruct (Z.leb_spec len done) as [Hle|Hlt].
  { exists s, 0. rewrite written_nil, !Z.add_0_r. destruct Hp as [|Hp]; [lia|]. rewrite <- Hp. split_and!; (done || lia). }
  assert (WRITE_CHUNK = 1048576) as EC by done. rewrite EC in *.
  set (k := if 1048576 <? len - done then 1048576 else len - done).
  assert (0 < k <= len - done /\ (k = 1048576 \/ k = len - done)) as [Hk Hk'] by (unfold k; destruct (Z.ltb_spec 1048576 (len - done)); lia).
  clearbody k. destruct (user_part buf len done k Hb ltac:(lia) Hr ltac:(lia) ltac:(lia) ltac:(lia)) as [Eu Hru]. rewrite Eu, Hru. cbn [negb].
  set (src := load_bytes (umem (fdt s)) (buf + done) (Z.to_nat k)). assert (zlength src = k) as Esrc by (unfold zlength, src; rewrite length_load_bytes; lia).
  unfold mbind, call_bind, ask, on_vfs, set_entry, on_fd. fold src.
  destruct (write_turn p fd l pos s src Ho Hst ltac:(rewrite Esrc; fold start; lia)) as (wd & i & r & E & Hrr & Hs1). rewrite E. fold start in Hs1.
  cbv zeta in Hs1. match type of Hs1 with file_open _ _ _ _ ?x /\ _ => set (s1 := x) in * end.
  cbv beta iota zeta. match goal with |- context [set_fdt ?a ?b] => change (set_fdt a b) with s1 end. destruct Hs1 as (Ho1 & Hs1 & Hm1 & Hfull).
  change wd with (world (vf s1)) in Hfull. clearbody s1.
  assert (same_but p fd w0 (fdt s1)) as Hsb1 by (by etrans).
  assert (data = src ++ load_bytes (umem (fdt s)) (buf + (done + k)) (Z.to_nat (len - (done + k)))) as Ed.
  { unfold data, src. replace (Z.to_nat (len - done)) with (Z.to_nat k + Z.to_nat (len - (done + k)))%nat by lia.
    rewrite load_bytes_app. do 2 f_equal. lia. }
  destruct (Z.ltb_spec r 0); [lia|].
  assert (r < k -> exists s' r0, Some (s1, @inl Z Z (done + r)) = Some (s', inl (done + r0)) /\ 0 <= r0 <= len - done /\
    file_open p fd (written start (take (Z.to_nat r0) data) l) (start + r0) s' /\
    same_but p fd w0 (fdt s') /\ umem (fdt s') = umem (fdt s) /\ (r0 < len - done -> full (world (vf s')))) as Hstop.
  { intros Hrk. exists s1, r. split; [done|]. split; [lia|]. split; [|split; [done|split; [done|intros _; apply Hfull; lia]]].
    rewrite Ed, take_app_le by (unfold zlength in Esrc; lia). done. }
  destruct (Z.eqb_spec r 0) as [->|Hr0]; [rewrite Z.add_0_r in Hstop; by apply Hstop; lia|].
  destruct (Z.ltb_spec r k) as [Hrk|Hrk]; [by apply Hstop|]. clear Hstop. assert (r = k) as -> by lia.
  rewrite take_ge in Ho1 by (unfold zlength in Esrc; lia).
  assert (write_pos p fd (written start src l) (start + k) s1 = start + k) as Ew.
  { unfold write_pos. rewrite (s_flags _ _ _ _ Hs1). destruct (flag _ LINUX_O_APPEND) eqn:Ef; [|done].
    rewrite zlength_written by done. assert (start = zlength l) as -> by (unfold start, write_pos; by rewrite Ef). lia. }
  pose proof (zlength_nonneg l). destruct (IH (done + k) _ _ s1 Ho1) as (s' & r & E' & Hr' & Ho' & Hsb' & Hm' & Hfull').
  - rewrite Ew, zlength_written by done. lia.
  - rewrite Ew. lia.
  - lia.
  - right. by rewrite Ew.
  - lia.
  - done.
  - rewrite Ew, Hm1 in *. exists s', (k + r). rewrite E', !Z.add_assoc. split; [done|]. split; [lia|]. split; [|split; [done|split; [done|intros; apply Hfull'; lia]]].
    rewrite Ed, take_app_ge by (unfold zlength in Esrc; lia). replace (Z.to_nat (k + r) - length src)%nat with (Z.to_nat r) by (unfold zlength in Esrc; lia).
    rewrite <- written_app by done. by rewrite Esrc.
Qed.

(** ** Calls *)

(** The process [me] has the table [p] with its three first descriptors open. *)
Definition at_home (me p : Z) w : Prop := home w me p /\ forall n, 0 <= n < 3 -> f_used (fd_of w p n) = true.

Lemma stdio_home me p w : at_home me p w -> fd_proc_with_stdio me w = (w, Some p).
Proof.
  intros [Hh Hu]. unfold fd_proc_with_stdio. rewrite (for_pid_home w me p true Hh).
  unfold fd_ensure_stdio, ensure_console. by rewrite !Hu by lia.
Qed.

Lemma same_but_home me p fd w w' : same_but p fd w w' -> at_home me p w -> at_home me p w'.
Proof.
  intros H [Hh Hu]. split; [by apply (home_pids w); [apply (s_pids _ _ _ _ H)|]|].
  intros n Hn. destruct (decide (n = fd)) as [->|Hne].
  - rewrite (s_in_use _ _ _ _ H). by apply Hu.
  - rewrite (s_fds _ _ _ _ H) by naive_solver. by apply Hu.
Qed.

(** An open file that is neither a terminal nor the mouse. *)
Record plain_file (me p fd_u : Z) (l : list Z) (pos : Z) s : Prop := {
  pl_home : at_home me p (fdt s);
  pl_fd : 0 <= i32 fd_u < EDGE_MAX_FD;
  pl_open : file_open p (i32 fd_u) l pos s;
  pl_tty : path_is_console_tty (f_path (fd_of (fdt s) p (i32 fd_u))) = false;
  pl_mouse : path_is_mouse_input (f_path (fd_of (fdt s) p (i32 fd_u))) = false
}.

Lemma plain_same me p fd_u l l' pos pos' s s' :
  plain_file me p fd_u l pos s -> file_open p (i32 fd_u) l' pos' s' -> same_but p (i32 fd_u) (fdt s) (fdt s') -> plain_file me p fd_u l' pos' s'.
Proof.
  intros [H1 H2 H3 H4 H5] Ho Hs. split; [by apply (same_but_home _ _ _ _ _ Hs) | done | done | |]; by rewrite (s_path _ _ _ _ Hs).
Qed.

Lemma plain_get me p fd_u l pos s :
  plain_file me p fd_u l pos s -> fd_get (Some p) (i32 fd_u) (fdt s) = Some (p, fd_of (fdt s) p (i32 fd_u)).
Proof.
  intros [_ H2 H3 _ _]. unfold fd_get. destruct (Z.ltb_spec (i32 fd_u) 0), (Z.leb_spec EDGE_MAX_FD (i32 fd_u)); try lia.
  cbn [orb]. by rewrite (o_used _ _ _ _ _ H3).
Qed.

Lemma fd_write_spec other x me p fd_u l pos buf len s sg :
  e_me x = me -> plain_file me p fd_u l pos s -> let start := write_pos p (i32 fd_u) l pos s in
  0 <= start <= zlength l -> start + len <= cap -> 0 < len -> buf <> 0 -> 0 <= buf < 2 ^ 64 -> user_range_ok buf len = true ->
  let data := load_bytes (umem (fdt s)) buf (Z.to_nat len) in
  exists s' r, do_sys_fd_write other x fd_u buf len s sg = Some (s', sg, [], Done r) /\ 0 <= r <= len /\
    plain_file me p fd_u (written start (take (Z.to_nat r) data) l) (start + r) s' /\ same_but p (i32 fd_u) (fdt s) (fdt s') /\
    umem (fdt s') = umem (fdt s) /\ (r < len -> full (world (vf s'))).
Proof.
  intros Hme Hp start Hst Hfit Hlen Hbuf Hb Hr data. pose proof (pl_open _ _ _ _ _ _ Hp) as Ho. pose proof store_cap as Hcap.
  assert (WRITE_CHUNK = 1048576) as EC by done. pose proof (Z.div_mod len 1048576). pose proof (Z.mod_pos_bound len 1048576).
  destruct (file_write_loop_spec p (i32 fd_u) buf len (fdt s) (S (Z.to_nat (len / WRITE_CHUNK))) 0 l pos s Hr Hb ltac:(lia) Ho) as (s' & r & E & Hrr & Ho' & Hsb & Hm & Hfull);
    [done | lia | lia | lia | rewrite EC; lia | done |].
  rewrite Z.sub_0_r, Z.add_0_r in *. fold start data in Ho'. exists s', r. split; [|split; [done|split; [by apply (plain_same _ _ _ l _ pos _ s)|done]]].
  unfold do_sys_fd_write. rewrite Hme, (stdio_home _ _ _ (pl_home _ _ _ _ _ _ Hp)).
  destruct (Z.eqb_spec buf 0), (Z.eqb_spec len 0); try lia. cbn [orb]. rewrite (plain_get _ _ _ _ _ _ Hp), (o_kind _ _ _ _ _ Ho), (pl_tty _ _ _ _ _ _ Hp).
  change (test (FD_VFS = FD_VFS)) with true. cbv iota. unfold finish, returns, file_write, mbind, call_bind, ask, reject. cbn [fdt set_fdt].
  rewrite (o_dir _ _ _ _ _ Ho), (o_sb _ _ _ _ _ Ho), (o_dev _ _ _ _ _ Ho), (proj2 store_has). cbn [negb andb mret call_ret].
  assert (set_fdt (fdt s) s = s) as -> by (by destruct s). by rewrite E.
Qed.

Lemma fd_read_spec other n x me p fd_u l pos buf len s sg :
  e_me x = me -> plain_file me p fd_u l pos s -> 0 <= pos -> pos + len < 2 ^ 31 ->
  0 < len -> buf <> 0 -> 0 <= buf < 2 ^ 64 -> user_range_ok buf len = true ->
  let c := bytes_at pos len l in
  exists s', do_sys_fd_read other n x fd_u buf len s sg = Some (s', sg, [], Done (zlength c)) /\
    plain_file me p fd_u l (pos + zlength c) s' /\ same_but p (i32 fd_u) (fdt s) (fdt s') /\ umem (fdt s') = store_bytes (umem (fdt s)) buf c.
Proof.
  intros Hme Hp Hpos Hfit Hlen Hbuf Hb Hr c. pose proof (pl_open _ _ _ _ _ _ Hp) as Ho.
  assert (CHUNK = 4096) as EC by done. pose proof (Z.div_mod len 4096). pose proof (Z.mod_pos_bound len 4096).
  destruct (file_read_loop_spec p (i32 fd_u) buf len l (fdt s) (S (Z.to_nat (len / CHUNK))) 0 pos s Hr Hb ltac:(lia) Ho) as (s' & E & Ho' & Hsb & Hm);
    [lia | lia | lia | rewrite EC; lia | done |].
  rewrite Z.sub_0_r, Z.add_0_r, Z.add_0_l in *. fold c in E, Ho', Hm. exists s'. split; [|split; [by apply (plain_same _ _ _ l _ pos _ s)|done]].
  unfold do_sys_fd_read. rewrite Hme, (stdio_home _ _ _ (pl_home _ _ _ _ _ _ Hp)).
  destruct (Z.eqb_spec buf 0), (Z.eqb_spec len 0); try lia. cbn [orb]. rewrite (plain_get _ _ _ _ _ _ Hp), (o_kind _ _ _ _ _ Ho), (pl_tty _ _ _ _ _ _ Hp).
  change (test (FD_VFS = FD_VFS)) with true. cbv iota. rewrite (pl_mouse _ _ _ _ _ _ Hp).
  unfold finish, returns, file_read, mbind, call_bind, ask, reject. cbn [fdt set_fdt].
  rewrite (o_dir _ _ _ _ _ Ho). cbn [mret call_ret]. assert (set_fdt (fdt s) s = s) as -> by (by destruct s). by rewrite E.
Qed.

Lemma lseek_set_spec me p fd_u l pos off s :
  plain_file me p fd_u l pos s -> 0 <= off < 2 ^ 31 ->
  exists s', returns (do_sys_lseek me fd_u off LINUX_SEEK_SET) s = Some (s', off) /\
    plain_file me p fd_u l off s' /\ same_but p (i32 fd_u) (fdt s) (fdt s') /\ umem (fdt s') = umem (fdt s) /\ world (vf s') = world (vf s).
Proof.
  intros Hp Hoff. pose proof (pl_open _ _ _ _ _ _ Hp) as Ho.
  destruct (file_open_pos p (i32 fd_u) l pos off (world (vf s)) s Ho (o_content _ _ _ _ _ Ho)) as [Ho' Hs].
  assert (with_world (vf s) (world (vf s)) = vf s) as Ew by (by destruct (vf s)).
  assert (set_vf (with_world (vf s) (world (vf s))) s = s) as Es by (rewrite Ew; by destruct s). rewrite Es in *.
  eexists. split; [|split; [by apply (plain_same _ _ _ l _ pos _ s)|done]].
  unfold returns, do_sys_lseek, entry, mbind, call_bind, on_fd, ask. rewrite (stdio_home _ _ _ (pl_home _ _ _ _ _ _ Hp)).
  assert (set_fdt (fdt s) s = s) as -> by (by destruct s). rewrite (plain_get _ _ _ _ _ _ Hp). cbn [mret call_ret].
  change (i32 LINUX_SEEK_SET =? LINUX_SEEK_SET) with true. unfold mret, call_ret, reject, set_entry, on_fd. cbv beta iota.
  assert (i64 (0 + i64 off) = off) as -> by (unfold i64; rewrite (Z.mod_small (off + 2 ^ 63)) by lia; rewrite Z.mod_small by lia; lia).
  destruct (Z.ltb_spec off 0); [lia | done].
Qed.

(** A write to an open file stores the first [r] bytes of the buffer at the
    position, or at the end if the file is open for appending; it stops short only
    if the file system is full. The position is then after them, and no other
    descriptor and no byte of the program changes. A seek back and a read of [r] bytes
    put the same bytes in another buffer and nothing elsewhere. *)
Lemma write_seek_read other other' n x me p fd_u l pos buf len buf2 s sg
    (Hme : e_me x = me) (Hp : plain_file me p fd_u l pos s)
    (Hst : 0 <= write_pos p (i32 fd_u) l pos s <= zlength l) (Hfit : write_pos p (i32 fd_u) l pos s + len <= cap) (Hlen : 0 < len)
    (Hbuf : buf <> 0) (Hb : 0 <= buf < 2 ^ 64) (Hr : user_range_ok buf len = true)
    (Hbuf2 : buf2 <> 0) (Hb2 : 0 <= buf2 < 2 ^ 64) (Hr2 : user_range_ok buf2 len = true) :
  let start := write_pos p (i32 fd_u) l pos s in
  exists s1 r, do_sys_fd_write other x fd_u buf len s sg = Some (s1, sg, [], Done r) /\ 0 <= r <= len /\
    (r < len -> full (world (vf s1))) /\ umem (fdt s1) = umem (fdt s) /\ same_but p (i32 fd_u) (fdt s) (fdt s1) /\
    let data := load_bytes (umem (fdt s)) buf (Z.to_nat r) in
    plain_file me p fd_u (written start data l) (start + r) s1 /\
    exists s2, returns (do_sys_lseek me fd_u start LINUX_SEEK_SET) s1 = Some (s2, start) /\
      (0 < r -> exists s3, do_sys_fd_read other' n x fd_u buf2 r s2 sg = Some (s3, sg, [], Done r) /\
        load_bytes (umem (fdt s3)) buf2 (Z.to_nat r) = data /\
        (forall a, a < buf2 \/ buf2 + r <= a -> umem (fdt s3) a = umem (fdt s) a)).
Proof.
  intros start. destruct (fd_write_spec other x me p fd_u l pos buf len s sg Hme Hp Hst Hfit Hlen Hbuf Hb Hr) as (s1 & r & E & Hrr & Hp1 & Hs1 & Hm1 & Hf).
  fold start in Hp1. assert (take (Z.to_nat r) (load_bytes (umem (fdt s)) buf (Z.to_nat len)) = load_bytes (umem (fdt s)) buf (Z.to_nat r)) as Ed.
  { replace (Z.to_nat len) with (Z.to_nat r + Z.to_nat (len - r))%nat by lia. rewrite load_bytes_app. apply take_app_length'. by rewrite length_load_bytes. }
  rewrite Ed in Hp1. exists s1, r. do 5 (split; [done|]). intros data. split; [done|]. fold start in Hst, Hfit. pose proof store_cap as Hcap.
  destruct (lseek_set_spec me p fd_u _ _ start s1 Hp1 ltac:(lia)) as (s2 & E2 & Hp2 & _ & Hm2 & _).
  exists s2. split; [done|]. intros Hr0. assert (user_range_ok buf2 r = true) as Hr2'.
  { destruct (user_part buf2 len 0 r Hb2 ltac:(lia) Hr2 ltac:(lia) ltac:(lia) ltac:(lia)) as [_ H]. by rewrite Z.add_0_r in H. }
  destruct (fd_read_spec other' n x me p fd_u _ start buf2 r s2 sg Hme Hp2 ltac:(lia) ltac:(lia) Hr0 Hbuf2 Hb2 Hr2') as (s3 & E3 & _ & _ & Hm3).
  assert (bytes_at start r (written start data l) = data) as Eb.
  { unfold bytes_at. replace (Z.to_nat r) with (length data) by (unfold data; by rewrite length_load_bytes). by apply read_written. }
  fold data in E3, Hm3. rewrite Eb in *. assert (zlength data = r) as Ez by (unfold zlength, data; rewrite length_load_bytes; lia). rewrite Ez in E3.
  assert (length data = Z.to_nat r) as El by (unfold zlength in Ez; lia).
  exists s3. split; [done|]. rewrite Hm3. split.
  - rewrite <- El. apply load_store_bytes.
  - intros a Ha. rewrite store_bytes_out by (rewrite El; lia). by rewrite Hm2, Hm1.
Qed.
End files.

(** ** Directories *)

(** What a program makes of the bytes of [getdents64]: inode, next index, type, name. *)
Definition parse_dirent (l : list Z) : Z * Z * Z * path :=
  (field 0 8 l, field 8 8 l, field 18 1 l, c_string (drop 19 (take (Z.to_nat (field 16 2 l)) l))).
Fixpoint parse_dirents (n : nat) (l : list Z) : list (Z * Z * Z * path) :=
  match n with
  | O => []
  | S n => parse_dirent l :: parse_dirents n (drop (Z.to_nat (field 16 2 l)) l)
  end.

(** The entries from index [pos] on as they are to be read, and their bytes. *)
Fixpoint records (pos : Z) (l : list (path * vfs_inode)) : list (Z * Z * Z * path) :=
  match l with
  | [] => []
  | (nm, i) :: l => (i_ino i, u32 (pos + 1), mode_to_dtype (i_mode i), nm) :: records (pos + 1) l
  end.
Fixpoint record_bytes (pos : Z) (l : list (path * vfs_inode)) : list Z :=
  match l with
  | [] => []
  | (nm, i) :: l => dirent_bytes (i_ino i) (u32 (pos + 1)) (mode_to_dtype (i_mode i)) nm ++ record_bytes (pos + 1) l
  end.

(** A name of at most 255 bytes, none of them zero, and an inode number of 64 bits. *)
Definition entry_ok (x : path * vfs_inode) : Prop :=
  Forall (fun c => c <> 0) x.1 /\ zlength x.1 < 256 /\ 0 <= i_ino x.2 < 2 ^ 64.

Lemma align8 x : Z.land x (Z.lnot 7) = x - x mod 8.
Proof.
  rewrite <- Z.ldiff_land. change 7 with (Z.ones 3). rewrite Z.ldiff_ones_r by lia.
  rewrite Z.shiftr_div_pow2, Z.shiftl_mul_pow2 by lia. change (2 ^ 3) with 8. pose proof (Z.div_mod x 8). lia.
Qed.

Lemma dirent_len_eq nm : zlength nm < 256 ->
  dirent_len nm = (27 + zlength nm) / 8 * 8 /\ 20 + zlength nm <= dirent_len nm <= 280 /\ 24 <= dirent_len nm.
Proof.
  intros H. pose proof (zlength_nonneg nm). unfold dirent_len, D64_BASE. rewrite u32_small by lia. rewrite align8.
  pose proof (Z.mod_pos_bound (19 + zlength nm + 1 + 7) 8). pose proof (Z.div_mod (19 + zlength nm + 1 + 7) 8).
  rewrite u16_small by lia. replace (27 + zlength nm) with (19 + zlength nm + 1 + 7) by lia. lia.
Qed.

Lemma length_dirent ino off type nm : zlength nm < 256 -> zlength (dirent_bytes ino off type nm) = dirent_len nm.
Proof. intros H. destruct (dirent_len_eq nm H). unfold zlength, dirent_bytes. rewrite length_resize. lia. Qed.

Lemma c_string_front nm r : Forall (fun c => c <> 0) nm -> c_string (nm ++ 0 :: r) = nm.
Proof. induction 1 as [|c nm Hc _ IH]; [done|]. cbn [app c_string]. destruct (Z.eqb_spec c 0); [done|]. by rewrite IH. Qed.

(** A record starts with its fields, then comes the name. *)
Lemma dirent_front ino off type nm :
  zlength nm < 256 ->
  exists r, dirent_bytes ino off type nm = le_bytes 8 ino ++ le_bytes 8 off ++ le_bytes 2 (dirent_len nm) ++ le_bytes 1 type ++ nm ++ 0 :: r.
Proof.
  intros H. destruct (dirent_len_eq nm H) as (_ & Hl & _). unfold zlength in Hl. unfold dirent_bytes.
  set (l := le_bytes 8 ino ++ _). assert (length l = (20 + length nm)%nat) as El.
  { unfold l. rewrite !length_app, !length_le_bytes. cbn. lia. }
  exists (replicate (Z.to_nat (dirent_len nm) - length l) 0). rewrite resize_ge by lia. unfold l. by rewrite <- !app_assoc.
Qed.

Lemma parse_record ino off type nm r :
  Forall (fun c => c <> 0) nm -> zlength nm < 256 -> 0 <= ino < 2 ^ 64 -> 0 <= off < 2 ^ 64 -> 0 <= type < 256 ->
  parse_dirent (dirent_bytes ino off type nm ++ r) = (ino, off, type, nm) /\
  Z.to_nat (field 16 2 (dirent_bytes ino off type nm ++ r)) = length (dirent_bytes ino off type nm).
Proof.
  intros Hnm Hlen Hi Ho Ht. destruct (dirent_len_eq nm Hlen) as (_ & Hl & _). pose proof (zlength_nonneg nm).
  pose proof (length_dirent ino off type nm Hlen) as Hd. destruct (dirent_front ino off type nm Hlen) as [z E].
  set (b := dirent_bytes ino off type nm) in *. unfold zlength in Hd.
  assert (forall o n, (o + n <= 20)%nat -> field o n (b ++ r) = field o n b) as Hf.
  { intros o n Hon. apply field_app. lia. }
  assert (field 16 2 b = dirent_len nm) as E2.
  { rewrite E, app_assoc. apply field_value; [by rewrite length_app, !length_le_bytes | lia]. }
  unfold parse_dirent. rewrite !Hf by lia. rewrite E2. split; [|lia]. f_equal; [f_equal; [f_equal|]|].
  - rewrite E. by apply (field_value 8 ino []).
  - rewrite E. apply field_value; [by rewrite length_le_bytes | done].
  - rewrite E, 2!app_assoc. apply field_value; [by rewrite !length_app, !length_le_bytes | done].
  - rewrite take_app_length' by lia. rewrite E, 3!app_assoc. rewrite drop_app_length' by (by rewrite !length_app, !length_le_bytes).
    by apply c_string_front.
Qed.

Lemma dtype_range m : 0 <= mode_to_dtype m < 256.
Proof. unfold mode_to_dtype, LINUX_DT_DIR, LINUX_DT_REG, LINUX_DT_CHR, LINUX_DT_BLK, LINUX_DT_UNKNOWN. repeat case_match; lia. Qed.

Lemma parse_all pos l r : Forall entry_ok l -> parse_dirents (length l) (record_bytes pos l ++ r) = records pos l.
Proof.
  intros H. revert pos. induction H as [|[nm i] l (H1 & H2 & H3) _ IH]; intros pos; [done|]. cbn [fst snd] in *. cbn [length records record_bytes parse_dirents].
  rewrite <- app_assoc. pose proof (u32_range (pos + 1)). pose proof (dtype_range (i_mode i)).
  destruct (parse_record (i_ino i) (u32 (pos + 1)) (mode_to_dtype (i_mode i)) nm (record_bytes (pos + 1) l ++ r)) as [-> ->]; try done; try lia.
  rewrite drop_app_length. by rewrite IH.
Qed.

Section dirs.
Context {SK W D : Type} `{!sock_layer SK, !filesystems W, !machine W, !sigint_source W, !driver D, !readdirs W}.
Implicit Types (s : sys SK W D) (w : fdw SK).
(** A directory of a file system that lists [entries], whatever else is done. *)
Context (sb : superblock) (dir : vfs_inode) (entries : list (path * vfs_inode)) (P : W -> Prop).
Context (Hread : forall i wd, P wd -> 0 <= i < 2 ^ 32 -> exists wd', op_readdir sb dir i wd = (wd', entries !! Z.to_nat i) /\ P wd').
Context (Hentries : Forall entry_ok entries) (Hcount : zlength entries < 2 ^ 31).

(** The directory is open at an index. *)
Record dir_open (p fd pos : Z) s : Prop := {
  dr_used : f_used (fd_of (fdt s) p fd) = true;
  dr_inode : f_inode (fd_of (fdt s) p fd) = dir;
  dr_sb : f_sb (fd_of (fdt s) p fd) = Some sb;
  dr_pos : f_pos (fd_of (fdt s) p fd) = pos;
  dr_world : P (world (vf s))
}.

Lemma dir_moved p fd pos pos' m wd s :
  dir_open p fd pos s -> P wd ->
  let w1 := set_umem m (fdt s) in
  let s' := set_fdt (set_fd p fd (with_pos pos' (fd_of (fdt s) p fd)) w1) (set_vf (with_world (vf s) wd) s) in
  dir_open p fd pos' s' /\ same_but p fd (fdt s) (fdt s') /\ umem (fdt s') = m.
Proof.
  intros [H1 H2 H3 H4 H5] Hw w1 s'. assert (fd_of (fdt s') p fd = with_pos pos' (fd_of (fdt s) p fd)) as E.
  { unfold s'. cbn [fdt set_fdt]. by rewrite fd_of_set, decide_True. }
  split; [by split; rewrite ?E|]. split; [|done].
  destruct (same_but_set p fd (with_pos pos' (fd_of (fdt s) p fd)) w1) as [G1 G2 G3 G4 G5]; [done..|]. by split.
Qed.

(** What fits: the entries from [pos] on, up to the first that does not fit. *)
Definition listed (pos room : Z) (k : nat) : Prop :=
  let l := drop (Z.to_nat pos) entries in
  (k <= length l)%nat /\ zlength (record_bytes pos (take k l)) <= room /\
  (forall x, l !! k = Some x -> room < zlength (record_bytes pos (take k l)) + dirent_len x.1).

Lemma entry_at pos x : entries !! Z.to_nat pos = Some x -> drop (Z.to_nat pos) entries = x :: drop (S (Z.to_nat pos)) entries /\ entry_ok x.
Proof. intros H. split; [by apply drop_S|]. by apply (proj1 (Forall_lookup _ _) Hentries _ _ H). Qed.

Lemma list_dir_spec p fd w0 n pos done dirp count s :
  dir_open p fd pos s -> 0 <= pos < 2 ^ 31 -> user_range_ok dirp count = true -> 0 <= dirp < 2 ^ 64 -> 0 <= count < 2 ^ 31 ->
  0 <= done <= count -> count - done < 24 * Z.of_nat n -> same_but p fd w0 (fdt s) ->
  exists s' k, let b := record_bytes pos (take k (drop (Z.to_nat pos) entries)) in
    list_dir n p fd sb done dirp count s = Some (s', inl (done + zlength b)) /\ listed pos (count - done) k /\
    dir_open p fd (pos + Z.of_nat k) s' /\ same_but p fd w0 (fdt s') /\ umem (fdt s') = store_bytes (umem (fdt s)) (dirp + done) b.
Proof.
  intros Ho Hp Hr Hd Hc. revert pos done s Ho Hp. induction n as [|n IH]; intros pos done s Ho Hp Hdn Hn Hsb; [lia|].
  cbn [list_dir]. unfold mbind, call_bind, ask, on_vfs. pose proof (zlength_nonneg entries).
  rewrite (dr_inode _ _ _ _ Ho), (dr_pos _ _ _ _ Ho), u32_small by lia.
  destruct (Hread pos _ (dr_world _ _ _ _ Ho) ltac:(lia)) as (wd & -> & Hw). set (s1 := set_vf _ s).
  assert (dir_open p fd pos s1) as Ho1 by (by destruct Ho).
  destruct (entries !! Z.to_nat pos) as [[nm i]|] eqn:Ee.
  2: { exists s1, 0%nat. rewrite take_0. cbn. rewrite !Z.add_0_r. split_and!; try done.
       unfold listed. rewrite drop_ge by (by apply lookup_ge_None). split_and!; [done | unfold zlength; cbn; lia | done]. }
  destruct (entry_at pos _ Ee) as [Edrop (Hnm1 & Hnm2 & Hnm3)]. cbn [fst snd] in *.
  destruct (dirent_len_eq nm Hnm2) as (_ & Hl & Hl24).
  destruct (Z.ltb_spec count (done + dirent_len nm)) as [Hfull|Hfit].
  { exists s1, 0%nat. rewrite take_0. cbn. rewrite !Z.add_0_r. split_and!; try done.
    unfold listed. rewrite Edrop. unfold zlength. split_and!; [cbn; lia | cbn; lia | intros x [= <-]; cbn; lia]. }
  unfold reject. destruct (Z.ltb_spec 320 (dirent_len nm)); [lia|]. unfold mret at 1, call_ret at 1.
  destruct (user_part dirp count done (dirent_len nm) Hd ltac:(lia) Hr ltac:(lia) ltac:(lia) ltac:(lia)) as [Eu Hru].
  unfold put_bytes at 1, copy_to_user at 1. set (rec := dirent_bytes (i_ino i) _ _ nm).
  assert (zlength rec = dirent_len nm) as Erec by (by apply length_dirent). unfold zlength in Erec.
  rewrite Eu, Erec, Hru. cbn [negb]. unfold set_entry, on_fd. rewrite u64_small by lia.
  destruct (dir_moved p fd pos (pos + 1) (store_bytes (umem (fdt s)) (dirp + done) rec) wd s Ho Hw) as (Ho2 & Hs2 & Hm2).
  match type of Ho2 with dir_open _ _ _ ?x => set (s2 := x) in * end.
  match goal with |- context [list_dir n p fd sb (done + dirent_len nm) dirp count ?x] => change x with s2 end. clearbody s2.
  assert (same_but p fd w0 (fdt s2)) as Hsb2 by (by etrans).
  apply lookup_lt_Some in Ee as Hlt. unfold zlength in Hcount.
  destruct (IH (pos + 1) (done + dirent_len nm) s2 Ho2) as (s' & k & E' & Hl' & Ho' & Hsb' & Hm'); [lia | lia | lia | done |].
  replace (Z.to_nat (pos + 1)) with (S (Z.to_nat pos)) in * by lia.
  exists s', (S k). rewrite Edrop. cbn [take record_bytes]. fold rec. rewrite E', zlength_app. unfold zlength at 2. rewrite Erec.
  replace (Z.of_nat (Z.to_nat (dirent_len nm))) with (dirent_len nm) by lia. split_and!; [by rewrite Z.add_assoc| | | done |].
  - destruct Hl' as (L1 & L2 & L3). replace (Z.to_nat (pos + 1)) with (S (Z.to_nat pos)) in * by lia.
    unfold listed. rewrite Edrop. cbn [take record_bytes length lookup list_lookup]. fold rec. rewrite zlength_app. unfold zlength at 1 3.
    split_and!; [lia | lia | intros x Hx; specialize (L3 x Hx); lia].
  - by replace (pos + Z.of_nat (S k)) with (pos + 1 + Z.of_nat k) by lia.
  - rewrite Hm', Hm2, store_bytes_app. f_equal. lia.
Qed.

Lemma is_dev_dir_fdt e b s s' : is_dev_dir e s = Some (s', inl b) -> fdt s' = fdt s.
Proof.
  unfold is_dev_dir. destruct (test _); [by intros [= <- _]|]. unfold mbind, call_bind, resolve, on_vfs.
  destruct (vfs_resolve _ _) as [[v r]|]; [|done]. by intros [= <- _].
Qed.

Lemma dir_open_world p fd pos s s' : dir_open p fd pos s -> fdt s' = fdt s -> P (world (vf s')) -> dir_open p fd pos s'.
Proof. intros [H1 H2 H3 H4 H5] E Hw. split; by rewrite ?E. Qed.

(** [getdents64] on a directory of a file system gives the next entries, as many
    as the buffer has room for: a program that walks the records of the buffer finds
    their names, inode numbers and types in order, and no other byte of its memory
    changes. The position is then the index of the first entry that is not given, so
    the calls that follow give each of the others once. With room for the longest record,
    a call that gives nothing is at the end of the directory. *)
Lemma getdents_lists me p fd_u pos dirp count s s0
    (Hh : at_home me p (fdt s)) (Hfd : 0 <= i32 fd_u < EDGE_MAX_FD) (Ho : dir_open p (i32 fd_u) pos s) (Hdir : is_dir dir = true)
    (Hrd : has_readdir sb = true) (Hpts : f_path (fd_of (fdt s) p (i32 fd_u)) <> str "/dev/pts")
    (Hdev : is_dev_dir (fd_of (fdt s) p (i32 fd_u)) s = Some (s0, inl false)) (Hw : P (world (vf s0)))
    (Hpos : 0 <= pos < 2 ^ 31) (Hb : 0 <= dirp < 2 ^ 64) (Hc : 21 <= count < 2 ^ 31) (Hr : user_range_ok dirp count = true) :
  exists s' r k, returns (do_sys_getdents64 me fd_u dirp count) s = Some (s', r) /\ 0 <= r <= count /\
    listed pos count k /\ dir_open p (i32 fd_u) (pos + Z.of_nat k) s' /\ same_but p (i32 fd_u) (fdt s) (fdt s') /\
    parse_dirents k (load_bytes (umem (fdt s')) dirp (Z.to_nat r)) = records pos (take k (drop (Z.to_nat pos) entries)) /\
    (forall a, a < dirp \/ dirp + r <= a -> umem (fdt s') a = umem (fdt s) a) /\
    (280 <= count -> r = 0 -> zlength entries <= pos).
Proof.
  pose proof (is_dev_dir_fdt _ _ _ _ Hdev) as Ef. assert (dir_open p (i32 fd_u) pos s0) as Ho0 by (by apply (dir_open_world _ _ _ s)).
  destruct (list_dir_spec p (i32 fd_u) (fdt s) (S (Z.to_nat (count / 24))) pos 0 dirp count s0) as (s' & k & E & Hl & Ho' & Hsb & Hm); try done; try lia.
  { pose proof (Z.div_mod count 24). pose proof (Z.mod_pos_bound count 24). lia. }
  { by rewrite Ef. }
  cbv zeta in *. rewrite Z.sub_0_r, Z.add_0_r, Ef in *. set (l := take k _) in *. set (b := record_bytes pos l) in *.
  pose proof Hl as (L1 & L2 & L3). fold l b in L2, L3. pose proof (zlength_nonneg b).
  exists s', (zlength b), k. split_and!; try done.
  - unfold returns, do_sys_getdents64, entry, mbind, call_bind, on_fd, ask. rewrite (stdio_home _ _ _ Hh).
    assert (set_fdt (fdt s) s = s) as -> by (by destruct s). unfold fd_get.
    destruct (Z.ltb_spec (i32 fd_u) 0), (Z.leb_spec EDGE_MAX_FD (i32 fd_u)); try lia. cbn [orb]. rewrite (dr_used _ _ _ _ Ho). cbn [negb].
    unfold mret, call_ret. cbv beta iota. rewrite (dr_inode _ _ _ _ Ho), Hdir. cbn [negb reject]. unfold D64_BASE.
    destruct (Z.ltb_spec count (19 + 2)); [lia|]. cbn [mret call_ret reject]. unfold mret, call_ret. cbv beta iota.
    rewrite bool_decide_false by done. rewrite Hdev, (dr_sb _ _ _ _ Ho), Hrd. by rewrite E.
  - pose proof (parse_all pos l [] ltac:(by apply Forall_take, Forall_drop)) as Hall. rewrite app_nil_r in Hall.
    assert (length l = k) as El by (unfold l; rewrite length_take; lia). rewrite El in Hall.
    unfold zlength. by rewrite Nat2Z.id, Hm, load_store_bytes.
  - intros a Ha. rewrite Hm. apply store_bytes_out. unfold zlength in Ha. lia.
  - intros H280 Hz. apply Z.nlt_ge. intros Hlt. unfold zlength in Hlt.
    destruct (lookup_lt_is_Some_2 entries (Z.to_nat pos)) as [[nm i] Ee]; [lia|]. destruct (entry_at pos _ Ee) as [Ed (_ & Hnm & _)].
    destruct (dirent_len_eq nm Hnm) as (_ & Hn & Hn24). cbn [fst] in *. destruct k as [|k].
    + specialize (L3 (nm, i)). rewrite Ed in L3. specialize (L3 eq_refl). cbn [fst] in L3. lia.
    + revert Hz. unfold b, l. rewrite Ed. cbn [take record_bytes]. rewrite zlength_app, length_dirent by done.
      pose proof (zlength_nonneg (record_bytes (pos + 1) (take k (drop (S (Z.to_nat pos)) entries)))). lia.
Qed.
End dirs.
