(* ===== verification/FileRefs.v ===== *)
(** * Calls on files keep the descriptor tables in order

    A Hoare logic for the calls of [PathCalls.v] and [Files.v], over the descriptor
    tables: from it, every call keeps the reference counts of [FdInv.v], whatever
    the file system and the devices do and wherever the call returns. *)

From S2P Require Import Prelude CString Block Path Process Rng Uaccess Vfs MemFs FatVfs Ring Fd FdOps FdInv FdCalls Signals FdIo Pty Tty TtyInv PathCalls Files.

Section logic.
Context {SK W D : Type} `{!sock_layer SK, !filesystems W, !machine W, !sigint_source W, !driver D, !readdirs W}.
Implicit Types (s : sys SK W D) (w : fdw SK).

(** From [P] a call that goes on ends in [Q], one that returns early keeps the
    invariant of the tables. *)
Definition triple {A} (P : fdw SK -> Prop) (c : call SK W D A) (Q : A -> fdw SK -> Prop) : Prop :=
  forall s s' x, P (fdt s) -> c s = Some (s', x) -> match x with inl a => Q a (fdt s') | inr _ => fds_ok (fdt s') end.

Lemma t_ret {A} (P : fdw SK -> Prop) (a : A) : triple P (mret a) (fun _ => P).
Proof. intros s s' x HP [= <- <-]. done. Qed.

Lemma t_value {A} (a : A) (P : fdw SK -> Prop) (Q : A -> fdw SK -> Prop) : (forall w, P w -> Q a w) -> triple P (mret a) Q.
Proof. intros H s s' x HP [= <- <-]. by apply H. Qed.

Lemma t_bind {A B} P R Q (m : call SK W D A) (f : A -> call SK W D B) : triple P m R -> (forall a, triple (R a) (f a) Q) -> triple P (m ≫= f) Q.
Proof.
  intros Hm Hf s s' x HP. unfold mbind, call_bind. destruct (m s) as [[s1 [a|e]]|] eqn:E; [| |done].
  - apply (Hf a s1 s' x). apply (Hm _ _ _ HP E).
  - intros [= <- <-]. apply (Hm _ _ _ HP E).
Qed.

Lemma t_err {A} P Q e : (forall w, P w -> fds_ok w) -> triple P (err e : call SK W D A) Q.
Proof. intros H s s' x HP [= <- <-]. by apply H. Qed.

Lemma t_reject P b e : (forall w, P w -> fds_ok w) -> triple P (reject b e) (fun _ w => P w /\ b = false).
Proof. intros H. unfold reject. destruct b; [by apply t_err | by apply t_value]. Qed.

Lemma t_ask {A} P (f : sys SK W D -> A) : triple P (ask f) (fun a w => P w /\ exists s, fdt s = w /\ a = f s).
Proof. intros s s' x HP [= <- <-]. split; [done|]. by exists s. Qed.

Lemma t_vfs {A} P (f : vfs W D -> option (vfs W D * A)) : triple P (on_vfs f) (fun _ => P).
Proof. intros s s' x HP. unfold on_vfs. destruct (f (vf s)) as [[v a]|]; [|done]. by intros [= <- <-]. Qed.

Lemma t_fd {A} P Q (f : fdw SK -> fdw SK * A) : (forall w, P w -> Q (f w).2 (f w).1) -> triple P (on_fd f) Q.
Proof. intros H s s' x HP. unfold on_fd. specialize (H _ HP). destruct (f (fdt s)) as [w a]. by intros [= <- <-]. Qed.

Lemma t_pre {A} P P' Q (c : call SK W D A) : (forall w, P' w -> P w) -> triple P c Q -> triple P' c Q.
Proof. intros H Hc s s' x HP. apply Hc. by apply H. Qed.

Lemma t_post {A} P Q Q' (c : call SK W D A) : (forall a w, Q a w -> Q' a w) -> triple P c Q -> triple P c Q'.
Proof. intros H Hc s s' x HP E. specialize (Hc _ _ _ HP E). destruct x; [by apply H | done]. Qed.

Lemma t_if {A} (b : bool) P Q (c c' : call SK W D A) : triple P c Q -> triple P c' Q -> triple P (if b then c else c') Q.
Proof. by destruct b. Qed.

(** What a call that only copies to or from the program leaves alone: a property of
    the tables that implies the invariant. *)
Class steady (P : fdw SK -> Prop) : Prop := {
  steady_ok w : P w -> fds_ok w;
  steady_umem m w : P w -> P (set_umem m w)
}.

Lemma t_get P `{!steady P} {A} (f : CString.mem -> option A) :
  triple P (fun s => match f (umem (fdt s)) with Some a => Some (s, inl a) | None => Some (s, inr (- EFAULT)) end) (fun _ => P).
Proof. intros s s' x HP. destruct (f _); intros [= <- <-]; [done | by apply steady_ok]. Qed.

Lemma t_get_path P `{!steady P} a : triple P (get_path a) (fun _ => P).
Proof. apply (t_get P (fun m => copy_user_cstr m PATH_BUF a)). Qed.

Lemma t_get_name P `{!steady P} a : triple P (get_name a) (fun _ => P).
Proof. apply (t_get P (fun m => copy_user_cstr m 32 a)). Qed.

Lemma t_get_bytes P `{!steady P} a n : triple P (get_bytes a n) (fun _ => P).
Proof. apply (t_get P (fun m => copy_from_user m a n)). Qed.

Lemma t_put P `{!steady P} a l : triple P (put_bytes a l) (fun _ => P).
Proof.
  intros s s' x HP. unfold put_bytes. destruct (copy_to_user _ _ _) as [m|]; intros [= <- <-]; [by apply steady_umem | by apply steady_ok].
Qed.

Lemma t_put_opt P `{!steady P} a l : triple P (put_opt a l) (fun _ => P).
Proof. unfold put_opt. destruct (_ =? _); [apply t_ret | by apply t_put]. Qed.

Lemma t_guard P `{!steady P} b e : triple P (reject b e) (fun _ => P).
Proof. apply (t_post _ _ _ _ (fun _ w H => proj1 H) (t_reject P b e (steady_ok (P := P)))). Qed.

Lemma t_error P `{!steady P} {A} e Q : triple P (err e : call SK W D A) Q.
Proof. apply t_err, steady_ok. Qed.

Lemma t_look {A} P (f : sys SK W D -> A) : triple P (ask f) (fun _ => P).
Proof. apply (t_post _ _ _ _ (fun _ w H => proj1 H) (t_ask P f)). Qed.

#[export] Instance fds_ok_steady : steady fds_ok.
Proof. split; [done | intros; by apply set_umem_ok]. Qed.

(** ** Descriptors of a process *)

Context (me : Z) (Hme : me <> 0).

(** The table [p] is that of the process. *)
Definition ready (p : Z) w : Prop := fds_ok w /\ home w me p.

#[export] Instance ready_steady p : steady (ready p).
Proof. split; [by intros w [] | intros m w [H Hh]; split; [by apply set_umem_ok | done]]. Qed.

Lemma ready_place p fd w : ready p w -> 0 <= fd < 64 -> place w p fd.
Proof. intros [_ (Hp & Hpid & _)] Hfd. split; [done|]. split; [done|]. by rewrite Hpid. Qed.

Lemma ready_keeps p w w' : ready p w -> keeps w w' -> ready p w'.
Proof. intros [_ Hh] [H S]. split; [done | by apply (home_pids w)]. Qed.

Lemma t_stdio : triple fds_ok (on_fd (fd_proc_with_stdio me)) (fun o w => match o with Some p => ready p w | None => fds_ok w end).
Proof.
  apply t_fd. intros w H. destruct (fd_proc_with_stdio me w) as [w' o] eqn:E. destruct (with_stdio_ok _ _ _ _ H Hme E) as [H' Hh].
  cbn [fst snd]. destruct o as [p|]; [|done]. split; [done | by apply Hh].
Qed.

Lemma stdio_eq p w : home w me p -> fd_proc_with_stdio me w = (fd_ensure_stdio p w, Some p).
Proof. intros Hh. unfold fd_proc_with_stdio. by rewrite (for_pid_home w me p true Hh). Qed.

Lemma stdio_ready p w : ready p w -> ready p (fd_ensure_stdio p w).
Proof.
  intros [H Hh]. pose proof Hh as (Hp & Hpid & Hj). destruct (ensure_stdio_ok w p H Hp ltac:(by rewrite Hpid)) as [H' S].
  split; [done | by apply (home_pids w)].
Qed.

Lemma t_stdio_ready p : triple (ready p) (on_fd (fd_proc_with_stdio me)) (fun o w => ready p w /\ o = Some p).
Proof. apply t_fd. intros w Hr. rewrite (stdio_eq p w (proj2 Hr)). split; [by apply stdio_ready | done]. Qed.

(** What is looked up by a path keeps. *)
Class homely (P : fdw SK -> Prop) : Prop := { homely_steady :: steady P; homely_stdio w : P w -> P (fd_proc_with_stdio me w).1 }.

#[export] Instance fds_ok_homely : homely fds_ok.
Proof.
  split; [apply _|]. intros w H. destruct (fd_proc_with_stdio me w) as [w' o] eqn:E. by destruct (with_stdio_ok _ _ _ _ H Hme E).
Qed.

#[export] Instance ready_homely p : homely (ready p).
Proof. split; [apply _|]. intros w Hr. rewrite (stdio_eq p w (proj2 Hr)). by apply stdio_ready. Qed.

Lemma t_stdio_any P `{!homely P} : triple P (on_fd (fd_proc_with_stdio me)) (fun _ => P).
Proof. apply t_fd. intros w HP. by apply homely_stdio. Qed.

(** The descriptor is open. *)
Definition in_use (p fd : Z) w : Prop := ready p w /\ 0 <= fd < 64 /\ f_used (fd_of w p fd) = true.

(** It holds what [e] holds. *)
Definition same_hold (e e' : edge_fd) : Prop := f_used e = f_used e' /\ f_kind e = f_kind e' /\ f_obj e = f_obj e' /\ f_ref e = f_ref e'.
Definition like (p fd : Z) (e : edge_fd) w : Prop := in_use p fd w /\ same_hold e (fd_of w p fd).

#[export] Instance in_use_steady p fd : steady (in_use p fd).
Proof. split; [by intros w [[] _] | intros m w (H & Hfd & Hu); split; [by apply steady_umem | done]]. Qed.

#[export] Instance like_steady p fd e : steady (like p fd e).
Proof. split; [by intros w [[[] _] _] | intros m w (H & Hs); split; [by apply steady_umem | done]]. Qed.

Lemma t_entry fd_u : triple fds_ok (entry me fd_u) (fun x w => like x.1 (i32 fd_u) x.2 w).
Proof.
  unfold entry. eapply t_bind; [apply t_stdio|]. intros o. eapply t_bind; [apply t_ask|]. intros r.
  intros s s' x [HP (s0 & E0 & ->)]. destruct (fd_get o (i32 fd_u) (fdt s0)) as [[p e]|] eqn:G.
  - apply fd_get_some in G as (-> & Hfd & -> & Hu). intros [= <- <-]. rewrite E0 in *. by split.
  - intros [= <- <-]. destruct o; [by destruct HP | done].
Qed.

Lemma t_set_entry p fd e e' : same_hold e' e -> triple (like p fd e) (set_entry p fd e') (fun _ => like p fd e).
Proof.
  intros (A & B & C & E). apply t_fd. intros w ((Hr & Hfd & Hu) & (A' & B' & C' & E')). cbn [fst snd].
  assert (keeps w (set_fd p fd e' w)) as Hk.
  { apply reflag_ok; try congruence; [by destruct Hr | by apply ready_place]. }
  split; [|by rewrite fd_of_set, decide_True].
  split; [by apply (ready_keeps p w)|]. split; [done|]. rewrite fd_of_set, decide_True by done. congruence.
Qed.

(** Reading the descriptor again. *)
Lemma t_again p fd : triple (in_use p fd) (ask (fun s => fd_of (fdt s) p fd)) (fun e => like p fd e).
Proof. eapply t_post; [|apply t_ask]. intros e w [Hu (s & <- & ->)]. by split. Qed.

(** ** Opening *)

(** A descriptor and a reference have been taken. *)
Record opening (p fd ref : Z) w : Prop := {
  op_place : place w p fd; op_home : home w me p; op_used : fd_of w p fd = used_fd; op_ref : 0 < ref < EDGE_MAX_FILE_REFS;
  op_ok : fd_ok none2 (one ref) None w
}.

(** And the object of [e] counts it. *)
Record owing (p fd : Z) (e : edge_fd) w : Prop := {
  ow_place : place w p fd; ow_home : home w me p; ow_used : fd_of w p fd = used_fd; ow_good : f_used e = true /\ good_fd e;
  ow_ok : fd_ok (fun k j => holds k j e) (one (f_ref e)) None w
}.

(** A place that [fd_alloc] has just taken. *)
Definition reserved (p fd : Z) w : Prop := place w p fd /\ fd_of w p fd = used_fd.

Lemma reserved_procs p fd w w' : procs w' = procs w -> home w me p /\ reserved p fd w -> home w' me p /\ reserved p fd w'.
Proof.
  intros E (Hh & Hpl & Hu). assert (same_pids w w') as S by (intros q; by rewrite E).
  split; [by apply (home_pids w)|]. split; [by apply (place_pids w)|]. unfold fd_of in *. by rewrite E.
Qed.

Lemma t_fd_alloc p e : triple (ready p) (fd ← on_fd (fd_alloc p 0); _ ← reject (fd <? 0) e; mret fd) (fun fd w => ready p w /\ reserved p fd w).
Proof.
  apply (t_bind _ (fun fd w => ready p w /\ (fd < 0 \/ reserved p fd w))).
  - apply t_fd. intros w [H Hh]. destruct (fd_alloc p 0 w) as [w1 i] eqn:E. pose proof Hh as (Hp & Hpid & _). cbn [fst snd].
    destruct (alloc_ok w p 0 w1 i H Hp ltac:(by rewrite Hpid) E) as [[-> ->]|(Hpl & _ & -> & [H1 S1])]; [split; [done | by left]|].
    split; [split; [done | by apply (home_pids w)]|]. right. split; [by apply (place_pids w)|]. by rewrite fd_of_set, decide_True.
  - intros fd. eapply t_bind; [apply t_reject; by intros w [[] _]|]. intros ?. apply t_value.
    intros w ((Hr & [Hn|Ht]) & Hf); [apply Z.ltb_ge in Hf; lia | done].
Qed.

(** The same, with what follows. *)
Lemma t_fd_alloc_bind {A} p e Q (f : Z -> call SK W D A) :
  (forall fd, triple (fun w => ready p w /\ reserved p fd w) (f fd) Q) -> triple (ready p) (fd ← on_fd (fd_alloc p 0); _ ← reject (fd <? 0) e; f fd) Q.
Proof.
  intros H s s' x HP. pose proof (t_bind _ _ _ _ f (t_fd_alloc p e) H s s' x HP) as Ht. revert Ht.
  unfold mbind, call_bind, on_fd. destruct (fd_alloc p 0 (fdt s)) as [w fd]. unfold reject. by destruct (fd <? 0).
Qed.

(** The place is given back. *)
Lemma t_give_back {A} (P : fdw SK -> Prop) p fd e (Q : A -> fdw SK -> Prop) :
  (forall w, P w -> fds_ok w /\ reserved p fd w) -> triple P (_ ← on_fd (fun w => (set_fd p fd zero_fd w, tt)); err e) Q.
Proof.
  intros H. apply (t_bind _ (fun _ => fds_ok)); [|intros ?; by apply (t_err fds_ok)]. apply t_fd. intros w HP. destruct (H w HP) as (Hok & Hpl & Hu).
  cbn [fst snd]. apply (keeps_ok w), set_empty_ok; [done | done | rewrite Hu; apply empty_used_fd | by apply empty_unused | apply good_zero].
Qed.

Lemma t_new_file p : triple (ready p) (new_file p) (fun x w => opening p x.1 x.2 w).
Proof.
  unfold new_file. apply t_fd_alloc_bind. intros fd.
  apply (t_bind _ (fun ref w => if ref =? 0 then fds_ok w /\ reserved p fd w else opening p fd ref w)).
  - apply t_fd. intros w ([H Hh] & Ht). destruct (file_ref_alloc w) as [w1 r] eqn:E. cbn [fst snd].
    destruct (file_ref_alloc_ok _ _ _ _ _ _ H E) as (Hpr & [[-> ->]|[Hr H1]]); [done|]. destruct (Z.eqb_spec r 0); [lia|].
    destruct (reserved_procs p fd w w1 Hpr (conj Hh Ht)) as (Hh1 & Hpl1 & Hu1). split; try done.
    eapply fd_ok_ext; [exact H1 | done | intros; unfold none1; lia].
  - intros ref. cbv beta. destruct (ref =? 0); [by apply t_give_back | by apply t_value].
Qed.

Lemma t_abandon p fd ref e : triple (opening p fd ref) (abandon p fd e) (fun _ => ready p).
Proof.
  apply t_give_back. intros w [Hpl Hh Hu Hr H]. split; [|done].
  eapply fd_ok_ext; [exact H | done | intros j _; unfold none1, one; destruct (_ =? _); lia].
Qed.

Lemma t_install p fd e : triple (owing p fd e) (install p fd e) (fun _ w => ready p w /\ fd_of w p fd = e /\ 0 <= fd < 64).
Proof.
  apply t_fd. intros w [(Hp & Hfd & Hpid) Hh Hu [Hue Hg] H]. cbn [fst snd]. split; [|by rewrite fd_of_set, decide_True].
  split; [|apply (home_pids w); [intros q; by rewrite pid_set_fd | done]]. destruct empty_used_fd as [U1 U2].
  eapply fd_ok_ext; [apply (set_fd_ok _ _ _ _ p fd e H Hp Hfd Hg)| |]; [by intros| |].
  - intros k j Ho. cbv beta. rewrite Hu, U1 by done. unfold none2. lia.
  - intros j Hj. cbv beta. rewrite Hu, U2 by done. unfold none1, one, holds_ref. rewrite Hue. cbn [andb]. lia.
Qed.

(** A kind without a table of objects. *)
Lemma owing_plain p fd e w : opening p fd (f_ref e) w -> f_used e = true -> limit (f_kind e) = None -> owing p fd e w.
Proof.
  intros [Hpl Hh Hu Hr H] He Hl. split; [done | done | done | |].
  - split; [done|]. intros _. split; [by intros []|lia].
  - eapply fd_ok_ext; [exact H | | done]. intros k id Ho. by rewrite holds_uncounted.
Qed.

(** The other end of a terminal. *)
Lemma owing_slave p fd e w :
  opening p fd (f_ref e) w -> f_used e = true -> f_kind e = FD_PTY_SLAVE -> in_range (f_obj e) EDGE_MAX_PTYS = true -> y_used (ptys w (f_obj e)) = true ->
  owing p fd e (pty_add_ref (f_obj e) false w).
Proof.
  intros [Hpl Hh Hu Hr H] He Hk Hin Hy. assert (object (f_kind e) (f_obj e)) as Ho.
  { rewrite Hk. exists EDGE_MAX_PTYS. unfold in_range in Hin. apply andb_true_iff in Hin as [?%Z.leb_le ?%Z.ltb_lt]. done. }
  assert (add_obj e w = pty_add_ref (f_obj e) false w) as Ea by (unfold add_obj; by rewrite Hk, Hin). rewrite <- Ea.
  assert (good_fd e) as Hg by (intros _; split; [done | lia]). destruct (add_obj_frame e w) as [Hpr _].
  assert (same_pids w (add_obj e w)) as S by (intros q; by rewrite Hpr).
  split; [by apply (place_pids w) | by apply (home_pids w) | unfold fd_of in *; by rewrite Hpr | done |].
  eapply fd_ok_ext; [apply (add_any_ok _ _ _ e H He Hg); by rewrite Hk | | done]. intros k id _. unfold none2. lia.
Qed.

Lemma t_installed p fd e (P : fdw SK -> Prop) : (forall w, P w -> owing p fd e w) -> triple P (install p fd e) (fun _ => ready p).
Proof. intros H. apply (t_pre (owing p fd e)); [done|]. eapply t_post; [|apply t_install]. by intros a w []. Qed.

Lemma t_slave p fd ref flags id pa :
  triple (fun w => opening p fd ref w /\ in_range id EDGE_MAX_PTYS = true /\ y_used (ptys w id) = true)
    (_ ← on_fd (fun w => (pty_add_ref id false w, tt)); install p fd (opened FD_PTY_SLAVE ref flags id pa)) (fun _ => ready p).
Proof.
  apply (t_bind _ (fun _ => owing p fd (opened FD_PTY_SLAVE ref flags id pa))).
  - apply t_fd. intros w (Ho & Hi & Hy). cbn [fst snd]. by apply (owing_slave p fd (opened FD_PTY_SLAVE ref flags id pa)).
  - intros []. by apply t_installed.
Qed.

Lemma t_open_tty tk p flags pa : triple (ready p) (open_tty tk p flags pa) (fun _ => ready p).
Proof.
  unfold open_tty. eapply t_bind; [apply t_new_file|]. intros [fd ref]. cbn [fst snd].
  destruct tk as [k|]; [|apply t_abandon]. destruct (_ =? PROCESS_CTTY_NONE); [apply t_abandon|].
  destruct (_ =? PROCESS_CTTY_CONSOLE).
  { apply t_installed. intros w Ho. by apply owing_plain. }
  destruct (_ =? PROCESS_CTTY_PTY); [|apply t_abandon]. eapply t_bind; [apply t_ask|]. intros ok. cbv beta.
  destruct ok eqn:Eok; cbn [negb].
  - eapply t_pre; [|apply t_slave]. intros w (Ho & s & <- & E). symmetry in E. by apply andb_true_iff in E as [? ?].
  - eapply t_pre; [|apply t_abandon]. by intros w [].
Qed.

(** A new terminal, its master counted. *)
Lemma pty_alloc_ok w w' id :
  fds_ok w -> pty_alloc w = (w', id) -> procs w' = procs w /\
  (id = -1 /\ w' = w \/ object FD_PTY_MASTER id /\ live w' FD_PTY_MASTER id = true /\ fd_ok (owed FD_PTY_MASTER id) none1 None w').
Proof.
  intros H. unfold pty_alloc. match goal with |- context [scan ?p 0 ?n] => generalize (scan64 p n _ eq_refl); generalize (scan p 0 n) end.
  intros i Hi. destruct (decide (i = -1)) as [->|E]; [intros [= <- <-]; split; [done | by left]|].
  destruct (Hi E) as [Hr Hu]. apply negb_true_iff in Hu. destruct (Z.ltb_spec i 0); [lia|]. intros [= <- <-]. split; [done|]. right.
  assert (object FD_PTY_MASTER i) as Ho by (eexists; split; [reflexivity | done]). split; [done|].
  split; [by cbn; rewrite upd_eq|]. set (y := {| y_used := true |}).
  pose proof (ok_dead _ _ _ _ H FD_PTY_MASTER i Ho Hu) as D1. pose proof (ok_dead _ _ _ _ H FD_PTY_SLAVE i Ho Hu) as D2. cbn [refs_of] in D1, D2.
  eapply fd_ok_ext; [apply (set_pty_ok _ _ _ _ i y H) | | done].
  - unfold pty_cell, y. cbn. split_all; intros; (done || lia).
  - intros k j Hk. rewrite D1, D2. unfold bump2, owed, none2, y. cbn [y_refs_master y_refs_slave].
    by destruct (j =? i), k.
Qed.

Lemma t_open_ptmx p flags pa : triple (ready p) (open_ptmx p flags pa) (fun _ => ready p).
Proof.
  unfold open_ptmx. apply t_fd_alloc_bind. intros fd.
  apply (t_bind _ (fun id w => (home w me p /\ reserved p fd w) /\
    (id = -1 /\ fds_ok w \/ object FD_PTY_MASTER id /\ fd_ok (owed FD_PTY_MASTER id) none1 None w))).
  { apply t_fd. intros w ([H Hh] & Ht). destruct (pty_alloc w) as [w1 id] eqn:E. cbn [fst snd].
    destruct (pty_alloc_ok _ _ _ H E) as [Hpr Hc]. split; [by apply (reserved_procs p fd w)|].
    destruct Hc as [[-> ->]|(Ho & _ & H1)]; [by left | by right]. }
  intros id. cbv beta. destruct (Z.ltb_spec id 0) as [Hneg|Hpos].
  { apply t_give_back. intros w ([_ Ht] & [[_ H]|[Ho _]]); [done | destruct Ho as (? & _ & ?); lia]. }
  apply (t_bind _ (fun ref w => if ref =? 0 then reserved p fd w /\ object FD_PTY_MASTER id /\ fd_ok (owed FD_PTY_MASTER id) none1 None w
                                else owing p fd (opened FD_PTY_MASTER ref flags id pa) w)).
  { apply t_fd. intros w (Ht & [[-> _]|[Ho H]]); [lia|]. destruct (file_ref_alloc w) as [w1 r] eqn:E. cbn [fst snd].
    destruct (file_ref_alloc_ok _ _ _ _ _ _ H E) as (Hpr & [[-> ->]|[Hr H1]]); [by destruct Ht|]. destruct (Z.eqb_spec r 0); [lia|].
    destruct (reserved_procs p fd w w1 Hpr Ht) as (Hh1 & Hpl1 & Hu1). split; try done.
    - split; [done|]. intros _. split; [by intros _ | cbn; lia].
    - eapply fd_ok_ext; [exact H1 | | intros; unfold none1; cbn; lia]. intros k j _. by apply owed_holds. }
  intros ref. cbv beta. destruct (ref =? 0); [|by apply t_installed].
  apply (t_bind _ (fun _ w => fds_ok w /\ reserved p fd w)); [|intros ?; by apply t_give_back].
  apply t_fd. intros w ((Hpl & Hu) & Ho & H). cbn [fst snd].
  change (pty_drop_ref id true w) with (drop_obj (end_fd FD_PTY_MASTER 0 id 0 0) w). destruct (drop_obj_frame (end_fd FD_PTY_MASTER 0 id 0 0) w) as [Hpr _].
  split; [by apply (drop_owed_ok w FD_PTY_MASTER id)|]. split; [apply (place_pids w); [intros q; by rewrite Hpr | done]|]. unfold fd_of in *. by rewrite Hpr.
Qed.

(** A terminal whose counts are as they were. *)
Lemma same_pty w id y :
  y_used y = y_used (ptys w id) -> y_refs_master y = y_refs_master (ptys w id) -> y_refs_slave y = y_refs_slave (ptys w id) ->
  same_objs w (set_ptys (<[id := y]> (ptys w)) w).
Proof. intros H1 H2 H3 k j. destruct k; cbn; try done; rewrite upd_case; case_decide; subst; by rewrite ?H1, ?H2, ?H3. Qed.

Lemma new_file_ptys p s s' x : new_file p s = Some (s', x) -> ptys (fdt s') = ptys (fdt s).
Proof.
  assert (forall w, ptys (fd_alloc p 0 w).1 = ptys w) as H1 by (intros w; unfold fd_alloc; by destruct (_ <? 0)).
  assert (forall w, ptys (file_ref_alloc w).1 = ptys w) as H2 by (intros w; unfold file_ref_alloc; by destruct (_ <? 0)).
  unfold new_file, mbind, call_bind, on_fd. specialize (H1 (fdt s)). destruct (fd_alloc p 0 (fdt s)) as [w1 fd]. cbn [fst] in H1.
  unfold reject. destruct (fd <? 0); [by intros [= <- _]|]. unfold mret, call_ret. cbn [set_fdt fdt].
  specialize (H2 w1). destruct (file_ref_alloc w1) as [w2 r]. cbn [fst] in H2. rewrite <- H1, <- H2. destruct (r =? 0); by intros [= <- _].
Qed.

Lemma pts_number_range p n id : 0 <= n < EDGE_MAX_PTYS -> pts_number p n = Some id -> 0 <= id < EDGE_MAX_PTYS.
Proof.
  revert n. induction p as [|c p IH]; intros n Hn; cbn [pts_number]; [by intros [= <-]|].
  destruct (Z.ltb_spec c (chr "0")), (Z.ltb_spec (chr "9") c); cbn [orb]; try done.
  destruct (Z.leb_spec EDGE_MAX_PTYS (n * 10 + (c - chr "0"))); [done|]. apply IH. lia.
Qed.

Lemma t_open_pts tk p flags pa : triple (ready p) (open_pts tk p flags pa) (fun _ => ready p).
Proof.
  unfold open_pts. eapply t_bind; [apply (t_guard _)|]. intros ?. destruct (pts_number _ 0) as [id|] eqn:En; [|by apply (t_error _)].
  pose proof (pts_number_range _ 0 id ltac:(done) En) as Hid.
  eapply t_bind; [apply t_ask|]. intros y. cbv beta. eapply t_bind; [apply t_reject; by intros w [[] _]|]. intros ?.
  apply (t_pre (fun w => ready p w /\ y_used (ptys w id) = true)).
  { intros w ((Hr & s & <- & ->) & Hb). apply orb_false_iff in Hb as [Hb _]. by apply negb_false_iff in Hb. }
  apply (t_bind _ (fun x w => opening p x.1 x.2 w /\ y_used (ptys w id) = true)).
  { intros s s' x [Hr Hy] E. pose proof (t_new_file p s s' x Hr E). pose proof (new_file_ptys p s s' x E) as Ep. destruct x; [by rewrite Ep | done]. }
  intros [fd ref]. cbn [fst snd].
  apply (t_bind _ (fun _ => owing p fd (opened FD_PTY_SLAVE ref flags id pa))).
  { apply t_fd. intros w (Ho & Hy). cbn [fst snd]. apply (owing_slave p fd (opened FD_PTY_SLAVE ref flags id pa)); try done.
    apply andb_true_iff. rewrite Z.leb_le, Z.ltb_lt. done. }
  intros ?. apply (t_bind _ (fun _ => owing p fd (opened FD_PTY_SLAVE ref flags id pa))); [|intros ?; by apply t_installed].
  apply t_fd. intros w Ho. cbn [fst snd]. destruct (_ && _); [|done]. destruct Ho as [H1 H2 H3 H4 H5]. split; try done.
  by apply (same_objs_ok _ _ _ w); [| | | apply same_pty].
Qed.

(** ** Files *)

Lemma t_resolve P pa : triple P (resolve pa) (fun _ => P).
Proof. apply t_vfs. Qed.

Lemma t_resolve_or P `{!steady P} e pa : triple P (resolve_or e pa) (fun _ => P).
Proof. unfold resolve_or. eapply t_bind; [apply t_resolve|]. intros [i sb|]; [apply t_ret | by apply t_error]. Qed.

Lemma t_read_all P pa n : triple P (read_all pa n) (fun _ => P).
Proof. apply t_vfs. Qed.

Lemma t_write_all P pa l : triple P (write_all pa l) (fun _ => P).
Proof. apply t_vfs. Qed.
End logic.

(** The steps of a call one after the other, as far as the rules of the database go;
    the names of the calls are not unfolded. *)
Create HintDb calls discriminated.
#[export] Hint Constants Opaque : calls.
#[export] Hint Resolve t_ret t_look t_vfs t_get_path t_get_name t_get_bytes t_put t_put_opt t_guard t_error t_resolve t_resolve_or
  t_read_all t_write_all t_stdio_any : calls.
#[export] Hint Extern 0 (steady _) => typeclasses eauto : calls.
#[export] Hint Extern 0 (homely _ _) => typeclasses eauto : calls.
Ltac calls :=
  repeat (cbv beta zeta; match goal with
  | |- triple ?P (_ ≫= _) _ =>
      first [eapply t_bind; [solve [eauto 3 with calls] | intros ?] | apply (t_bind P (fun _ => P)); [|intros ?]]
  | |- triple _ (if ?b then _ else _) _ => destruct b
  | |- triple _ (match ?x with _ => _ end) _ => destruct x
  | |- triple _ _ _ => solve [eauto 3 with calls]
  end).

Section files.
Context {SK W D : Type} `{!sock_layer SK, !filesystems W, !machine W, !sigint_source W, !driver D, !readdirs W}.
Context (me : Z) (Hme : me <> 0).

#[local] Instance tables_homely : homely (SK := SK) me fds_ok := fds_ok_homely me Hme.
#[local] Instance table_homely p : homely (SK := SK) me (ready me p) := ready_homely me Hme p.

Lemma t_open_inode P `{!steady P} mount_fn flags pa : triple P (open_inode (SK := SK) (D := D) mount_fn flags pa) (fun _ => P).
Proof. unfold open_inode. calls. Qed.

Lemma t_open_file mount_fn p flags pa : triple (ready me p) (open_file (SK := SK) (D := D) mount_fn p flags pa) (fun _ => ready me p).
Proof.
  unfold open_file. eapply t_bind; [apply (t_open_inode _)|]. intros [i sb]. eapply t_bind; [apply t_look|]. intros t.
  eapply t_bind; [apply (t_guard _)|]. intros ?. eapply t_bind; [apply (t_new_file me Hme)|]. intros [fd ref]. cbn [fst snd].
  match goal with |- context [install p fd ?x] => set (e := x) end.
  assert (f_ref e = ref /\ f_used e = true /\ f_kind e = FD_VFS) as (E1 & E2 & E3) by (unfold e; by destruct (flag flags LINUX_O_APPEND)).
  clearbody e. apply (t_bind _ (fun _ => opening me p fd ref)); [destruct (_ && _); [apply t_write_all | apply t_ret]|]. intros ?.
  apply (t_bind _ (fun _ => ready me p)).
  { apply t_installed. intros w Ho. apply owing_plain; [by rewrite E1 | done | by rewrite E3]. }
  intros ?. apply (t_bind _ (fun _ => ready me p)); [|intros ?; apply t_ret]. apply t_fd. intros w [H Hh]. cbn [fst snd].
  destruct (test _); [|done]. split; [|done]. by apply (other_ok w).
Qed.

Lemma t_dir_base P `{!homely me P} dirfd : triple P (dir_base me dirfd : call SK W D _) (fun _ => P).
Proof. unfold dir_base. calls. Qed.

Lemma t_at_path P `{!homely me P} dirfd pa : triple P (at_path me dirfd pa : call SK W D _) (fun _ => P).
Proof. unfold at_path. eapply t_bind; [|intros b; destruct (build_at_path _ _ _); [apply t_ret | apply (t_error _)]]. destruct (test _); [apply t_ret | apply (t_dir_base _)]. Qed.

#[local] Hint Resolve t_dir_base t_at_path t_open_file : calls.

(** A call on a path, with its own copies and checks: the tables are as they were,
    but for the console descriptors of the caller. *)
Lemma t_openat mount_fn tk dirfd_u path_u flags_u :
  triple fds_ok (do_sys_openat (SK := SK) (D := D) mount_fn me tk dirfd_u path_u flags_u) (fun _ => fds_ok).
Proof.
  unfold do_sys_openat. eapply t_bind; [apply (t_stdio me Hme)|]. intros [p|]; [|by apply t_err].
  eapply (t_post _ (fun _ => ready me p)); [by intros _ w []|]. calls.
  - by apply t_open_tty.
  - by apply t_open_ptmx.
  - by apply t_open_pts.
Qed.

#[local] Hint Resolve t_openat : calls.

Lemma t_openat2 mount_fn tk dirfd_u path_u how_u size_u :
  triple fds_ok (do_sys_openat2 (SK := SK) (D := D) mount_fn me tk dirfd_u path_u how_u size_u) (fun _ => fds_ok).
Proof. unfold do_sys_openat2. calls. Qed.

(** ** Calls on a descriptor *)

(** What an open descriptor and the memory of the program are changed by. *)
Lemma t_on_entry fd_u (f : Z * edge_fd -> call SK W D Z) :
  (forall p e, triple (like me p (i32 fd_u) e) (f (p, e)) (fun _ => fds_ok)) -> triple fds_ok (x ← entry me fd_u; f x) (fun _ => fds_ok).
Proof. intros H. eapply t_bind; [apply (t_entry me Hme)|]. intros [p e]. apply H. Qed.

Lemma t_done {A} P `{!steady P} (c : call SK W D A) : triple P c (fun _ => P) -> triple P c (fun _ => fds_ok).
Proof. apply t_post. intros _ w. apply steady_ok. Qed.

Lemma hold_pos n e : same_hold (with_pos n e) e.
Proof. done. Qed.

Lemma t_move p fd e n : triple (like me p fd e) (set_entry (SK := SK) (W := W) (D := D) p fd (with_pos n e)) (fun _ => like me p fd e).
Proof. by apply (t_set_entry me Hme). Qed.

Lemma t_truncate_to P `{!steady P} pa n : triple P (truncate_vfs_path_to_len pa n : call SK W D Z) (fun _ => P).
Proof. unfold truncate_vfs_path_to_len, nonneg_or. calls. Qed.

Lemma t_zero_or P `{!steady P} e r : triple P (zero_or e r : call SK W D Z) (fun _ => P).
Proof. unfold zero_or. calls. Qed.

Lemma t_nonneg_or P `{!steady P} e r : triple P (nonneg_or e r : call SK W D Z) (fun _ => P).
Proof. unfold nonneg_or. calls. Qed.

Lemma t_path_arg P `{!steady P} a : triple P (path_arg a : call SK W D path) (fun _ => P).
Proof. unfold path_arg. calls. Qed.

Lemma t_fill P `{!steady P} pa : triple P (fill_linux_statfs_from_path pa : call SK W D _) (fun _ => P).
Proof. unfold fill_linux_statfs_from_path. calls. Qed.

Lemma t_user P : triple P (user_task : call SK W D _) (fun _ => P).
Proof. apply t_look. Qed.

Lemma t_access P `{!steady P} i m : triple P (access_to i m : call SK W D Z) (fun _ => P).
Proof. unfold access_to, zero_or. eapply t_bind; [apply t_user|]. intros ?. calls. Qed.

#[local] Hint Resolve t_move t_truncate_to t_zero_or t_nonneg_or t_path_arg t_fill t_user t_access : calls.

Lemma t_lseek fd_u off_u wh_u : triple fds_ok (do_sys_lseek me fd_u off_u wh_u : call SK W D Z) (fun _ => fds_ok).
Proof. apply t_on_entry. intros p e. apply (t_done _). calls. Qed.

Lemma t_fstat fd_u st_u : triple fds_ok (do_sys_fstat me fd_u st_u : call SK W D Z) (fun _ => fds_ok).
Proof. eapply t_bind; [apply (t_guard _)|]. intros ?. apply t_on_entry. intros p e. apply (t_done _). calls. Qed.

Lemma t_fstatfs fd_u st_u : triple fds_ok (do_sys_fstatfs_linux me fd_u st_u : call SK W D Z) (fun _ => fds_ok).
Proof. unfold do_sys_fstatfs_linux. calls. Qed.

Lemma t_fchdir fd_u : triple fds_ok (do_sys_fchdir me fd_u : call SK W D Z) (fun _ => fds_ok).
Proof. apply t_on_entry. intros p e. apply (t_done _). calls. Qed.

Lemma t_fchmod fd_u m : triple fds_ok (do_sys_fchmod me fd_u m : call SK W D Z) (fun _ => fds_ok).
Proof. apply t_on_entry. intros p e. apply (t_done _). calls. Qed.

Lemma t_fchown fd_u o g : triple fds_ok (do_sys_fchown me fd_u o g : call SK W D Z) (fun _ => fds_ok).
Proof. apply t_on_entry. intros p e. apply (t_done _). calls. Qed.

Lemma t_ftruncate fd_u len_u : triple fds_ok (do_sys_ftruncate me fd_u len_u : call SK W D Z) (fun _ => fds_ok).
Proof. apply t_on_entry. intros p e. apply (t_done _). calls. Qed.
#[local] Hint Resolve t_ftruncate : calls.

Lemma t_fallocate fd_u off_u len_u : triple fds_ok (do_sys_fallocate me fd_u off_u len_u : call SK W D Z) (fun _ => fds_ok).
Proof.
  apply t_on_entry. intros p e. eapply t_bind; [apply (t_guard _)|]. intros ?. eapply t_bind; [apply (t_guard _)|]. intros ?.
  eapply t_bind; [apply (t_guard _)|]. intros ?. apply (t_pre fds_ok); [intros w; apply steady_ok|]. calls.
Qed.

Lemma t_readlinkat dirfd_u path_u buf_u n : triple fds_ok (do_sys_readlinkat me dirfd_u path_u buf_u n : call SK W D Z) (fun _ => fds_ok).
Proof. unfold do_sys_readlinkat. calls. Qed.

(** ** Directories, reading and writing *)

Lemma t_emit P `{!steady P} n ent idx wr dirp cnt : triple P (emit n ent idx wr dirp cnt : call SK W D _) (fun _ => P).
Proof. revert idx wr. induction n as [|n IH]; intros idx wr; cbn [emit]; calls; apply IH. Qed.

(** The loops look the descriptor up again in every turn. *)
Lemma t_again_in {A} p fd Q (f : edge_fd -> call SK W D A) :
  (forall e, triple (like me p fd e) (f e) Q) -> triple (in_use me p fd) (e ← ask (fun s => fd_of (fdt s) p fd); f e) Q.
Proof. intros H. eapply t_bind; [apply (t_again me)|]. exact H. Qed.

Lemma t_from {A} p fd e Q (c : call SK W D A) : triple (in_use me p fd) c Q -> triple (like me p fd e) c Q.
Proof. apply t_pre. by intros w []. Qed.

Lemma t_list_dir p fd sb n wr dirp cnt : triple (in_use me p fd) (list_dir n p fd sb wr dirp cnt : call SK W D Z) (fun _ => in_use me p fd).
Proof.
  revert wr. induction n as [|n IH]; intros wr; cbn [list_dir]; [apply t_ret|]. apply t_again_in. intros e.
  eapply t_bind; [apply t_vfs|]. intros [[nm i]|]; [|apply t_from, t_ret]. cbv beta zeta. destruct (_ <? _); [apply t_from, t_ret|].
  eapply t_bind; [apply (t_guard _)|]. intros ?. eapply t_bind; [apply (t_put _)|]. intros ?. eapply t_bind; [apply t_move|]. intros ?. apply t_from, IH.
Qed.

Lemma t_dev_dir P e : triple P (is_dev_dir e : call SK W D bool) (fun _ => P).
Proof. unfold is_dev_dir. calls. Qed.
#[local] Hint Resolve t_emit t_dev_dir : calls.

Lemma t_getdents64 fd_u dirp_u n : triple fds_ok (do_sys_getdents64 me fd_u dirp_u n : call SK W D Z) (fun _ => fds_ok).
Proof.
  apply t_on_entry. intros p e. apply (t_post _ (fun _ => in_use me p (i32 fd_u))); [intros _ w; apply steady_ok|].
  assert (forall (c : call SK W D Z), triple (like me p (i32 fd_u) e) c (fun _ => like me p (i32 fd_u) e) ->
    triple (like me p (i32 fd_u) e) c (fun _ => in_use me p (i32 fd_u))) as Hl by (intros c; apply t_post; by intros _ w []).
  eapply t_bind; [apply (t_guard _)|]. intros ?. eapply t_bind; [apply (t_guard _)|]. intros ?. destruct (test _); [apply Hl; calls|].
  eapply t_bind; [apply t_dev_dir|]. intros [|]; [apply Hl; calls|]. destruct (f_sb e) as [sb|]; [|apply Hl; calls]. destruct (has_readdir sb); [|apply Hl; calls].
  apply (t_pre (in_use me p (i32 fd_u))); [by intros w []|]. apply t_list_dir.
Qed.

Lemma t_read_chunk p fd n : triple (in_use me p fd) (read_chunk p fd n : call SK W D _) (fun _ => in_use me p fd).
Proof. apply t_again_in. intros e. apply (t_post _ (fun _ => like me p fd e)); [by intros _ w []|]. calls. Qed.

Lemma t_read_loop p fd n buf done len : triple (in_use me p fd) (read_loop n p fd buf done len : call SK W D Z) (fun _ => in_use me p fd).
Proof. revert done. induction n as [|n IH]; intros done; cbn [read_loop]; [apply t_ret|]. pose proof t_read_chunk. calls; apply IH. Qed.

Lemma t_write_loop p fd sb n buf done len : triple (in_use me p fd) (write_loop n p fd sb buf done len : call SK W D Z) (fun _ => in_use me p fd).
Proof.
  revert done. induction n as [|n IH]; intros done; cbn [write_loop]; [apply t_ret|]. destruct (_ <=? _); [apply t_ret|]. cbv zeta. destruct (negb _); [calls|].
  apply t_again_in. intros e. apply (t_bind _ (fun _ => like me p fd e)); [apply t_look|]. intros m. eapply t_bind; [apply t_vfs|]. intros [i r].
  eapply t_bind; [apply (t_set_entry me Hme)|].
  { by destruct (flag _ _), (0 <? r). }
  intros ?. apply t_from. calls; apply IH.
Qed.

Lemma t_device_write_loop p fd n buf done len : triple (in_use me p fd) (device_write_loop n p fd buf done len : call SK W D Z) (fun _ => in_use me p fd).
Proof.
  revert done. induction n as [|n IH]; intros done; cbn [device_write_loop]; [apply t_ret|]. destruct (_ <=? _); [apply t_ret|]. cbv zeta.
  eapply t_bind; [apply (t_get_bytes _)|]. intros l. apply t_again_in. intros e.
  apply (t_bind _ (fun _ => like me p fd e)); [calls|]. intros r. apply t_from. calls; apply IH.
Qed.

Lemma t_file_read fd_u buf len : triple fds_ok (x ← entry me fd_u; file_read x.1 (i32 fd_u) buf len : call SK W D Z) (fun _ => fds_ok).
Proof.
  apply t_on_entry. intros p e. apply t_from, (t_done _). cbn [fst]. apply (t_bind _ (fun _ => in_use me p (i32 fd_u))); [apply t_look|]. intros e'.
  eapply t_bind; [apply (t_guard _)|]. intros ?. apply t_read_loop.
Qed.

Lemma t_file_write fd_u buf len : triple fds_ok (x ← entry me fd_u; file_write x.1 (i32 fd_u) buf len : call SK W D Z) (fun _ => fds_ok).
Proof.
  apply t_on_entry. intros p e. apply t_from, (t_done _). cbn [fst]. apply (t_bind _ (fun _ => in_use me p (i32 fd_u))); [apply t_look|]. intros e'.
  eapply t_bind; [apply (t_guard _)|]. intros ?. destruct (f_sb e') as [sb|]; [destruct (_ && _)|]; auto using t_write_loop, t_device_write_loop.
Qed.

(** ** Calls on paths *)

Lemma t_newfstatat d pa st : triple fds_ok (do_sys_newfstatat me d pa st : call SK W D Z) (fun _ => fds_ok).
Proof. unfold do_sys_newfstatat. calls. Qed.

Lemma t_statx d pa fl st : triple fds_ok (do_sys_statx me d pa fl st : call SK W D Z) (fun _ => fds_ok).
Proof. unfold do_sys_statx. calls. Qed.

Lemma t_faccessat2 d pa m fl : triple fds_ok (do_sys_faccessat2 me d pa m fl : call SK W D Z) (fun _ => fds_ok).
Proof. unfold do_sys_faccessat2. calls. Qed.

Lemma t_utimensat d pa : triple fds_ok (do_sys_utimensat me d pa : call SK W D Z) (fun _ => fds_ok).
Proof. unfold do_sys_utimensat. calls. Qed.

Lemma t_move_file P `{!steady P} stack a b : triple P (move_file stack a b : call SK W D Z) (fun _ => P).
Proof. unfold move_file. calls. Qed.
#[local] Hint Resolve t_move_file : calls.

Lemma t_renameat2 st d1 a d2 b fl : triple fds_ok (do_sys_renameat2 me st d1 a d2 b fl : call SK W D Z) (fun _ => fds_ok).
Proof. unfold do_sys_renameat2, do_sys_renameat. calls. Qed.

Lemma t_linkat d1 a d2 b : triple fds_ok (do_sys_linkat me d1 a d2 b : call SK W D Z) (fun _ => fds_ok).
Proof. unfold do_sys_linkat. calls. Qed.

(** ** All of them *)

(** The calls of a program on its files, with the arguments as it gives them. *)
Inductive file_call :=
| Openat (dirfd path flags : Z) | Openat2 (dirfd path how size : Z) | Lseek (fd off whence : Z)
| Fstat (fd st : Z) | Fstatfs (fd buf : Z) | Fchdir (fd : Z) | Fchmod (fd mode : Z) | Fchown (fd owner group : Z)
| Ftruncate (fd len : Z) | Fallocate (fd off len : Z) | Getdents64 (fd dirp count : Z)
| FileRead (fd buf len : Z) | FileWrite (fd buf len : Z) | Readlinkat (dirfd path buf size : Z)
| Newfstatat (dirfd path st : Z) | Statx (dirfd path flags st : Z) | Faccessat2 (dirfd path mode flags : Z) | Utimensat (dirfd path : Z)
| Renameat2 (stack : vfs_inode) (olddirfd old newdirfd new flags : Z) | Linkat (olddirfd old newdirfd new : Z).

Definition do_file_call (mount_fn : path -> path -> path -> vfs W D -> vfs W D * Z) (tk : option task_tty) (c : file_call) : call SK W D Z :=
  match c with
  | Openat d p fl => do_sys_openat mount_fn me tk d p fl
  | Openat2 d p how n => do_sys_openat2 mount_fn me tk d p how n
  | Lseek fd off wh => do_sys_lseek me fd off wh
  | Fstat fd st => do_sys_fstat me fd st
  | Fstatfs fd b => do_sys_fstatfs_linux me fd b
  | Fchdir fd => do_sys_fchdir me fd
  | Fchmod fd m => do_sys_fchmod me fd m
  | Fchown fd o g => do_sys_fchown me fd o g
  | Ftruncate fd n => do_sys_ftruncate me fd n
  | Fallocate fd off n => do_sys_fallocate me fd off n
  | Getdents64 fd b n => do_sys_getdents64 me fd b n
  | FileRead fd b n => x ← entry me fd; file_read x.1 (i32 fd) b n
  | FileWrite fd b n => x ← entry me fd; file_write x.1 (i32 fd) b n
  | Readlinkat d p b n => do_sys_readlinkat me d p b n
  | Newfstatat d p st => do_sys_newfstatat me d p st
  | Statx d p fl st => do_sys_statx me d p fl st
  | Faccessat2 d p m fl => do_sys_faccessat2 me d p m fl
  | Utimensat d p => do_sys_utimensat me d p
  | Renameat2 st d p d' p' fl => do_sys_renameat2 me st d p d' p' fl
  | Linkat d p d' p' => do_sys_linkat me d p d' p'
  end.

Lemma t_file_call mount_fn tk c : triple fds_ok (do_file_call mount_fn tk c) (fun _ => fds_ok).
Proof.
  destruct c; cbn [do_file_call];
    auto using t_openat, t_openat2, t_lseek, t_fstat, t_fstatfs, t_fchdir, t_fchmod, t_fchown, t_ftruncate, t_fallocate, t_getdents64, t_file_read,
      t_file_write, t_readlinkat, t_newfstatat, t_statx, t_faccessat2, t_utimensat, t_renameat2, t_linkat.
Qed.
End files.

(** Runs of these calls and of those of [FdCalls.v], by any processes. *)
Section runs.
Context {SK W D : Type} `{!sock_layer SK, !filesystems W, !machine W, !sigint_source W, !driver D, !readdirs W}.

Inductive sys_step (s s' : sys SK W D) : Prop :=
| step_file mount_fn me tk c r : 0 < me -> returns (do_file_call me mount_fn tk c) s = Some (s', r) -> sys_step s s'
| step_tables : fd_step (fdt s) (fdt s') -> sys_step s s'.

Lemma sys_run_ok s s' : rtc sys_step s s' -> fds_ok (fdt s) -> fds_ok (fdt s').
Proof.
  induction 1 as [|s s1 s2 Hs _ IH]; [done|]. intros H. apply IH. destruct Hs as [mount_fn me tk c r Hme E|Hf]; [|by apply (fd_step_ok (fdt s))].
  unfold returns in E. destruct (do_file_call me mount_fn tk c s) as [[s3 x]|] eqn:Ec; [|done].
  pose proof (t_file_call me ltac:(lia) mount_fn tk c s s3 x H Ec) as Hx. destruct x; by injection E as <- <-.
Qed.

(** C24: In every state that a run of calls reaches, on files and directories (open,
    read, write, seek, truncate, getdents64, rename, link and the others) and on
    descriptors (close, dup, fcntl, pipe, eventfd, timerfd, signalfd, epoll), with
    forks and exits, on whatever file systems and wherever a call returns early, each count of
    an object is the number of open descriptors that name it over all processes, an
    object is in use exactly while a descriptor names it, and the references of an open file are
    at least the descriptors that hold it. *)
Theorem files_keep_fd_refs sk m v s k id i
    (Hrun : rtc sys_step {| fdt := fd_init sk m; vf := v |} s) (Ho : object k id) (Hi : 0 < i < EDGE_MAX_FILE_REFS) :
  refs_of (fdt s) k id = holders k id (fdt s) /\ (live (fdt s) k id = true <-> 0 < all_refs (fdt s) k id) /\
  total (holds_ref i) (fdt s) <= r_refs (file_refs (fdt s) i).
Proof. apply counts_of_ok; [|done..]. by apply (sys_run_ok _ _ Hrun), fd_init_ok. Qed.
End runs.

(** ** Runs *)

#[local] Existing Instance no_sockets.
#[local] Instance no_sigint : sigint_source (fatworld unit) := {| take_sigint w := w |}.
#[local] Instance no_listing : readdirs (fatworld unit) := {| has_readdir _ := false; op_readdir _ _ _ w := (w, None) |}.

Definition desk_vfs : vfs (fatworld unit) (ramdisk 512) :=
  {| g_mounts := [fat32_superblock [slash]]; g_fsreg := [str "fat32"]; g_cwd := [slash]; g_devnodes := chr_nodes;
     g_rng := rng_init; g_block := block_init; g_disk := {| rd_sector := fun _ => [] |}; world := (fat32_init, ()); current := None |}.
Definition desk_start : sys unit (fatworld unit) (ramdisk 512) :=
  {| fdt := fd_init tt (store_bytes (store_bytes (fun _ => 0) 0x2000 (str "/dev/ptmx" ++ [0])) 0x3000 (str "/new" ++ [0])); vf := desk_vfs |}.

(** Process 5 opens a new terminal and creates a file. *)
Definition no_mount (dev target fs : path) (v : vfs (fatworld unit) (ramdisk 512)) : vfs (fatworld unit) (ramdisk 512) * Z := (v, -1).
Definition file_run (c : file_call) (s : sys unit (fatworld unit) (ramdisk 512)) : sys unit (fatworld unit) (ramdisk 512) :=
  match returns (do_file_call 5 no_mount None c) s with Some (s, _) => s | None => s end.
Definition file_value (c : file_call) (s : sys unit (fatworld unit) (ramdisk 512)) : option Z :=
  match returns (do_file_call 5 no_mount None c) s with Some (_, r) => Some r | None => None end.
Definition desk1 : sys unit (fatworld unit) (ramdisk 512) := file_run (Openat (-100) 0x2000 2) desk_start.
Definition desk2 : sys unit (fatworld unit) (ramdisk 512) := file_run (Openat (-100) 0x3000 (Z.lor 2 LINUX_O_CREAT)) desk1.

Lemma file_run_step c s r : file_value c s = Some r -> sys_step s (file_run c s).
Proof.
  unfold file_value, file_run. destruct (returns _ s) as [[s' r']|] eqn:E; [|done]. intros _. by apply (step_file s s' no_mount 5 None c r').
Qed.

Lemma files_keep_fd_refs_witness :
  rtc sys_step desk_start desk2 /\ file_value (Openat (-100) 0x2000 2) desk_start = Some 3 /\
  file_value (Openat (-100) 0x3000 (Z.lor 2 LINUX_O_CREAT)) desk1 = Some 4 /\
  refs_of (fdt desk2) FD_PTY_MASTER 0 = 1 /\ holders FD_PTY_MASTER 0 (fdt desk2) = 1.
Proof.
  assert (file_value (Openat (-100) 0x2000 2) desk_start = Some 3) as E1 by (vm_compute; reflexivity).
  assert (file_value (Openat (-100) 0x3000 (Z.lor 2 LINUX_O_CREAT)) desk1 = Some 4) as E2 by (vm_compute; reflexivity).
  assert (rtc sys_step desk_start desk2) as Hrun.
  { apply rtc_l with desk1; [exact (file_run_step _ _ _ E1)|]. apply rtc_once. exact (file_run_step _ _ _ E2). }
  assert (refs_of (fdt desk2) FD_PTY_MASTER 0 = 1) as E3 by (vm_compute; reflexivity).
  destruct (files_keep_fd_refs tt (umem (fdt desk_start)) desk_vfs desk2 FD_PTY_MASTER 0 1 Hrun) as (H & _ & _).
  - exists EDGE_MAX_PTYS. split; [reflexivity|]. unfold EDGE_MAX_PTYS. lia.
  - unfold EDGE_MAX_FILE_REFS. lia.
  - split; [exact Hrun|]. split; [exact E1|]. split; [exact E2|]. split; [exact E3 | by rewrite <- H].
Defined.

(** A file renamed to its own name is copied over itself and then removed. *)
Lemma renamed_to_itself_is_gone :
  let rename := Renameat2 no_inode (-100) 0x3000 (-100) 0x3000 0 in
  file_value (Newfstatat (-100) 0x3000 0x4000) desk2 = Some 0 /\ file_value rename desk2 = Some 0 /\
  file_value (Newfstatat (-100) 0x3000 0x4000) (file_run rename desk2) = Some (- ENOENT).
Proof. vm_compute. auto. Qed.

(** The record of [statx] is eight bytes longer than that of the programs. *)
Lemma statx_overruns i : length (statx_bytes i) = 264%nat.
Proof. unfold statx_bytes. by rewrite !length_app, !length_le_bytes, !length_replicate. Qed.
