(* ===== verification/PtyInv.v ===== *)
(** * The line discipline edits lines

    The input ring of a pseudo-terminal is a queue of bytes that a write of the
    master edits as a line editor does, and a read of the slave in canonical mode
    takes one line of it. *)

From S2P Require Import Prelude CString Path Process Uaccess Vfs Ring Fd FdOps FdCalls Signals FdIo Pty FdIoInv.

(** ** The specification: queues of bytes *)

Definition ctrl_c : Z := 3.
Definition erases (y : edge_pty) (c : Z) : bool := lflag y LINUX_ICANON && (c =? c_cc_at y LINUX_VERASE).
Definition interrupts (y : edge_pty) (c : Z) : bool := lflag y LINUX_ISIG && (c =? ctrl_c).

(** One byte typed: an interrupt leaves the line, the erase character takes back
    the last byte of an unfinished line, any other byte is added. *)
Definition edit (y : edge_pty) (l : list Z) (c : Z) : list Z :=
  if interrupts y c then l
  else if erases y c then match last l with Some x => if x =? NL then l else removelast l | None => l end
  else l ++ [c].

(** The first line of a queue, with its end, or all of it. *)
Fixpoint first_line (y : edge_pty) (l : list Z) : list Z :=
  match l with
  | [] => []
  | c :: l => if line_end y c then [c] else c :: first_line y l
  end.

Definition input (y : edge_pty) : list Z := content EDGE_PTY_BUF_SIZE (m2s y).
Definition output (y : edge_pty) : list Z := content EDGE_PTY_BUF_SIZE (s2m y).

Definition pty_ok (y : edge_pty) : Prop := ring_ok EDGE_PTY_BUF_SIZE (m2s y) /\ ring_ok EDGE_PTY_BUF_SIZE (s2m y).

Lemma pty_size_ok : 0 < EDGE_PTY_BUF_SIZE < 2 ^ 31.
Proof. done. Qed.

(** ** Lines of a ring *)

(** The bytes from a position on, as the loops see them. *)
Fixpoint window (n : nat) (pos : Z) (r : ring) : list Z :=
  match n with
  | O => []
  | S n => rbuf r pos :: window n ((pos + 1) mod EDGE_PTY_BUF_SIZE) r
  end.

Lemma window_ext n pos r r' : rbuf r = rbuf r' -> window n pos r = window n pos r'.
Proof. intros H. revert pos. induction n as [|n IH]; intros pos; [done|]. cbn [window]. by rewrite H, IH. Qed.

Lemma window_content r : ring_ok EDGE_PTY_BUF_SIZE r -> window (Z.to_nat (cnt r)) (rpos r) r = content EDGE_PTY_BUF_SIZE r.
Proof.
  remember (Z.to_nat (cnt r)) as n eqn:Hn. revert r Hn. induction n as [|n IH]; intros r Hn Hr.
  - pose proof (length_content EDGE_PTY_BUF_SIZE r ltac:(apply Hr)). destruct Hr as (_ & ? & _).
    destruct (content EDGE_PTY_BUF_SIZE r); [done | cbn [length] in *; lia].
  - destruct (pop EDGE_PTY_BUF_SIZE r) as [c r1] eqn:Ep.
    destruct (pop_ok EDGE_PTY_BUF_SIZE pty_size_ok c r r1 Hr ltac:(lia) Ep) as (Hr1 & Hc & Hn1).
    rewrite Hc. unfold pop in Ep. injection Ep as <- <-. cbn [window]. f_equal. rewrite <- IH; [|cbn [cnt] in *; lia | done].
    cbn [rpos]. destruct Hr as (Hp & _). rewrite (u32_small (rpos r + 1)) by (unfold EDGE_PTY_BUF_SIZE in *; lia).
    by apply window_ext.
Qed.

Lemma have_line_window n pos y : have_line n pos y = existsb (line_end y) (window n pos (m2s y)).
Proof. revert pos. induction n as [|n IH]; intros pos; [done|]. cbn [have_line window existsb]. rewrite IH. by case_match. Qed.

Lemma line_limit_window n pos k req y :
  k <= req -> line_limit n pos k req y = k + zlength (first_line y (take (Z.to_nat (req - k)) (window n pos (m2s y)))).
Proof.
  unfold zlength. revert pos k. induction n as [|n IH]; intros pos k Hk; cbn [line_limit window].
  - rewrite take_nil. cbn. lia.
  - destruct (Z.leb_spec req k); [replace (Z.to_nat (req - k)) with O by lia; cbn; lia|].
    replace (Z.to_nat (req - k)) with (S (Z.to_nat (req - (k + 1)))) by lia. cbn [take firstn first_line].
    destruct (line_end y _); [cbn; lia|]. rewrite IH by lia. cbn [length]. unfold take. lia.
Qed.

Lemma have_canonical_line y : ring_ok EDGE_PTY_BUF_SIZE (m2s y) -> pty_slave_input_have_canonical_line y = existsb (line_end y) (input y).
Proof. intros H. unfold pty_slave_input_have_canonical_line. by rewrite have_line_window, window_content by done. Qed.

(** The limit of a read in canonical mode. *)
Lemma canonical_limit y req :
  ring_ok EDGE_PTY_BUF_SIZE (m2s y) -> lflag y LINUX_ICANON = true -> 0 <= req ->
  pty_slave_read_limit y req (cnt (m2s y)) = zlength (first_line y (take (Z.to_nat req) (input y))).
Proof.
  intros H Hl Hr. pose proof (length_content EDGE_PTY_BUF_SIZE (m2s y) ltac:(apply H)) as Hlen.
  unfold pty_slave_read_limit. rewrite Hl. cbn [negb]. destruct H as (Hp & Hc & Hw) eqn:E.
  rewrite line_limit_window by (ztest; lia). rewrite window_content by done. rewrite Z.sub_0_r, Z.add_0_l.
  destruct (Z.ltb_spec (cnt (m2s y)) req); [|done]. fold (input y).
  rewrite !take_ge; [done | unfold input; lia..].
Qed.

(** ** One byte *)

Lemma push_cnt c r : ring_ok EDGE_PTY_BUF_SIZE r -> cnt r < EDGE_PTY_BUF_SIZE -> cnt (push EDGE_PTY_BUF_SIZE c r) = cnt r + 1.
Proof. intros (_ & H & _) Hl. cbn [push cnt]. unfold EDGE_PTY_BUF_SIZE in *. apply u32_small. lia. Qed.

Lemma echo_loop_ok s r : ring_ok EDGE_PTY_BUF_SIZE r -> ring_ok EDGE_PTY_BUF_SIZE (echo_loop s r).
Proof.
  revert r. induction s as [|c s IH]; intros r Hr; [done|]. cbn [echo_loop]. unfold pty_ring_push.
  destruct (Z.leb_spec EDGE_PTY_BUF_SIZE (cnt r)); [done|]. cbn. apply IH.
  by apply (push_ok EDGE_PTY_BUF_SIZE pty_size_ok c r Hr).
Qed.

Lemma ring_push_ok c r : ring_ok EDGE_PTY_BUF_SIZE r -> ring_ok EDGE_PTY_BUF_SIZE (fst (pty_ring_push c r)).
Proof.
  intros Hr. unfold pty_ring_push. destruct (Z.leb_spec EDGE_PTY_BUF_SIZE (cnt r)); [done|].
  by apply (push_ok EDGE_PTY_BUF_SIZE pty_size_ok c r Hr).
Qed.

(** Same settings, same input ring, a well-formed output ring. *)
Definition echoed (y y' : edge_pty) : Prop :=
  m2s y' = m2s y /\ y_termios y' = y_termios y /\ (pty_ok y -> pty_ok y').

Lemma echoed_refl y : echoed y y.
Proof. by split_all. Qed.

Lemma echoed_seq s y : echoed y (pty_echo_seq_to_master s y).
Proof. split; [done|]. split; [done|]. intros [H1 H2]. split; [done | by apply echo_loop_ok]. Qed.

Lemma echoed_one c y : echoed y (pty_echo_to_master c y).
Proof. split; [done|]. split; [done|]. intros [H1 H2]. split; [done | by apply ring_push_ok]. Qed.

#[local] Hint Resolve echoed_refl echoed_seq echoed_one : core.

Lemma pty_echo_echoed c y : echoed y (pty_echo c y).
Proof. unfold pty_echo. repeat case_match; auto. Qed.

(** A typed byte edits the input as the specification says. *)
Lemma pty_put_edit my_pgid c y y' s :
  pty_ok y -> cnt (m2s y) < EDGE_PTY_BUF_SIZE -> pty_put true my_pgid c y = (y', s) ->
  pty_ok y' /\ y_termios y' = y_termios y /\ input y' = edit y (input y) c /\ cnt (m2s y') <= cnt (m2s y) + 1.
Proof.
  intros Hok Hlt. unfold pty_put, edit, interrupts, erases, ctrl_c.
  destruct (lflag y LINUX_ISIG && (c =? 3)).
  { unfold pty_interrupt. intros [= <- _].
    assert (forall z, echoed y z -> pty_ok z /\ y_termios z = y_termios y /\ input z = input y /\ cnt (m2s z) <= cnt (m2s y) + 1) as K.
    { intros z (E1 & E2 & E3). unfold input. rewrite E1. split; [auto|]. split; [done|]. split; [done | lia]. }
    apply K. case_match; auto. }
  destruct (lflag y LINUX_ICANON && (c =? c_cc_at y LINUX_VERASE)).
  - intros [= <- _]. unfold pty_erase. pose proof Hok as [Hm Hs]. pose proof Hm as (_ & Hc & _).
    pose proof (length_content EDGE_PTY_BUF_SIZE (m2s y) ltac:(lia)) as Hlen. fold (input y) in Hlen.
    destruct (Z.ltb_spec 0 (cnt (m2s y))) as [Hp|Hp]; cbn [andb].
    2: { destruct (input y); [cbn; split_all; [done..| lia] | cbn [length] in Hlen; lia]. }
    destruct (unpush_ok EDGE_PTY_BUF_SIZE pty_size_ok (m2s y) Hm Hp) as [Hu Hcont].
    fold (input y) in Hcont. rewrite Hcont, last_snoc, removelast_last.
    destruct (_ =? NL); cbn [negb]; [split_all; [done..| lia]|].
    set (z := with_m2s _ y). assert (pty_ok z) as Hz by done.
    assert (forall v, echoed z v -> pty_ok v /\ y_termios v = y_termios y /\
      input v = content EDGE_PTY_BUF_SIZE (unpush EDGE_PTY_BUF_SIZE (m2s y)) /\ cnt (m2s v) <= cnt (m2s y) + 1) as K.
    { intros v (E1 & E2 & E3). unfold input. rewrite E1. split; [auto|]. split; [done|]. split; [done|].
      cbn [z with_m2s m2s unpush cnt]. unfold EDGE_PTY_BUF_SIZE in *. rewrite u32_small by lia. lia. }
    apply K. case_match; auto.
  - destruct (pty_echo_echoed c y) as (E1 & E2 & E3). rewrite E1. intros [= <- _].
    pose proof Hok as [Hm Hs]. destruct (push_ok EDGE_PTY_BUF_SIZE pty_size_ok c (m2s y) Hm Hlt) as [Hp Hcont].
    destruct (E3 Hok) as [_ Hs']. split; [by split|]. split; [exact E2|]. split; [exact Hcont|].
    change (cnt (push EDGE_PTY_BUF_SIZE c (m2s y)) <= cnt (m2s y) + 1). rewrite push_cnt by done. lia.
Qed.

(** ** Writes of the master and reads of the slave *)

Lemma edit_ext y y' l c : y_termios y' = y_termios y -> edit y' l c = edit y l c.
Proof. intros H. unfold edit, interrupts, erases, lflag, c_cc_at. by rewrite H. Qed.

Lemma edits_ext y y' cs l : y_termios y' = y_termios y -> fold_left (edit y') cs l = fold_left (edit y) cs l.
Proof. intros H. revert l. induction cs as [|c cs IH]; intros l; [done|]. cbn [fold_left]. by rewrite IH, (edit_ext y). Qed.

Lemma master_write_loop n i pg buf_u m y sigs y' sigs' r :
  pty_ok y -> cnt (m2s y) + Z.of_nat n <= EDGE_PTY_BUF_SIZE -> 0 <= buf_u + i -> buf_u + i + Z.of_nat n <= 2 ^ 64 ->
  pty_write_loop n i true pg buf_u m y sigs = (y', sigs', r) ->
  pty_ok y' /\ y_termios y' = y_termios y /\
  (forall k, r = Some k -> k = i + Z.of_nat n /\ input y' = fold_left (edit y) (load_bytes m (buf_u + i) n) (input y)).
Proof.
  revert i y sigs. induction n as [|n IH]; intros i y sigs Hok Hc Hb He; cbn [pty_write_loop].
  { intros [= <- <- <-]. split; [done|]. split; [done|]. intros k [= <-]. split; [lia | done]. }
  rewrite u64_small by lia. destruct (user_byte m (buf_u + i) ltac:(lia)) as [-> | ->]; [|intros [= <- <- <-]; by split_all].
  pose proof Hok as [(Hp & Hcn & Hw) _]. cbn [dst_ring need_slots negb andb].
  replace (u32 (EDGE_PTY_BUF_SIZE - cnt (m2s y)) <? 1) with false
    by (unfold EDGE_PTY_BUF_SIZE in *; rewrite u32_small by lia; ztest; lia).
  destruct (pty_put true pg (m (buf_u + i)) y) as [y1 s] eqn:Ey.
  apply pty_put_edit in Ey as (Hok1 & Ht1 & Hin1 & Hc1); [|done | lia]. intros E.
  apply IH in E as (Hok' & Ht' & Hr); [|done | lia..]. split; [done|]. split; [congruence|].
  intros k Hk. destruct (Hr k Hk) as [-> Hin]. split; [lia|]. rewrite Hin, Hin1, (edits_ext y) by done.
  cbn [load_bytes fold_left]. do 2 f_equal. lia.
Qed.

Lemma first_line_prefix y l : exists rest, l = first_line y l ++ rest.
Proof.
  induction l as [|c l [rest IH]]; [by exists []|]. cbn [first_line]. case_match; [by exists l|].
  exists rest. cbn [app]. by rewrite <- IH.
Qed.

Lemma first_line_ends y l : existsb (line_end y) l = true -> exists b, last (first_line y l) = Some b /\ line_end y b = true.
Proof.
  induction l as [|c l IH]; [done|]. cbn [existsb first_line]. destruct (line_end y c) eqn:Ec; [by exists c|].
  intros H. destruct (IH H) as (b & Hb & Hl). exists b. split; [|done]. by destruct (first_line y l).
Qed.

Lemma existsb_take y n l : existsb (line_end y) l = true ->
  existsb (line_end y) (take n l) = true \/ (n <= length l)%nat /\ first_line y (take n l) = take n l.
Proof.
  revert l. induction n as [|n IH]; intros [|c l]; cbn; [done | right; split; [lia | done] | done|].
  destruct (line_end y c); [by left|]. intros H. destruct (IH l H) as [? | [? E]]; [by left|]. right. split; [lia|]. f_equal. exact E.
Qed.

Section fd.
Context {SK : Type} `{!sock_layer SK}.
Implicit Types (w : fdw SK) (sg : signals).

(** C26: a completed write to the master of a pseudo-terminal takes as many bytes
    as the input has room for and edits the input with each, in order: the
    interrupt character adds nothing, the erase character takes back the last
    byte of an unfinished line only, every other byte is added. *)
Theorem pty_master_write_edits now pg e buf_u len w sg w' sg' sigs n
    (Hok : pty_ok (ptys w (f_obj e))) (Hbuf : 0 <= buf_u /\ 0 <= len /\ buf_u + len <= 2 ^ 64) (Hn : 0 <= n)
    (Hrun : pty_write now true pg e buf_u len w sg = (w', sg', sigs, Done n)) :
  let y := ptys w (f_obj e) in let y' := ptys w' (f_obj e) in
  pty_ok y' /\ y_termios y' = y_termios y /\ n = Z.min len (EDGE_PTY_BUF_SIZE - cnt (m2s y)) /\
  input y' = fold_left (edit y) (load_bytes (umem w) buf_u (Z.to_nat n)) (input y).
Proof.
  intros y y'. subst y y'. revert Hrun. unfold pty_write. set (y := ptys w (f_obj e)) in *. cbn [dst_ring peer_refs].
  pose proof Hok as [(_ & Hc & _) _].
  destruct (negb _); [intros [= <- <- <- <-]; errno|]. destruct (negb _); [intros [= <- <- <- <-]; errno|].
  destruct (Z.leb_spec EDGE_PTY_BUF_SIZE (cnt (m2s y))).
  { destruct (_ <=? 0); [intros [= <- <- <- <-]; errno|].
    destruct (waits _ _ _) as [sg1 o] eqn:Ew. intros [= <- <- <- ->].
    destruct (waits_outcome _ _ _ _ _ Ew) as [[= ->]|[[= ->]|[[=]|[=]]]]; errno. }
  replace (u32 (EDGE_PTY_BUF_SIZE - cnt (m2s y))) with (EDGE_PTY_BUF_SIZE - cnt (m2s y))
    by (unfold EDGE_PTY_BUF_SIZE in *; rewrite u32_small; lia).
  set (k := if _ <? len then _ else len).
  assert (k = Z.min len (EDGE_PTY_BUF_SIZE - cnt (m2s y))) as Hk by (subst k; ztest; lia). clearbody k.
  destruct (pty_write_loop _ _ _ _ _ _ _ _) as [[y' s] r] eqn:El. intros [= <- <- <- E].
  apply master_write_loop in El as (Hok' & Ht & Hr); [|done | lia..].
  cbn [set_pty set_ptys ptys]. rewrite upd_eq. split; [done|]. split; [done|].
  destruct r as [j|]; [|errno]. subst j. destruct (Hr n eq_refl) as [-> Hin]. split; [lia|].
  rewrite Hin. rewrite Z.add_0_r, Z.add_0_l, Z2Nat.id by lia. done.
Qed.

(** C27: a read of the slave in canonical mode that returns a byte gives the first
    line of the input, or as much of it as was asked for, and takes it from the
    input; when it gives less than was asked for, its last byte ends a line. *)
Theorem pty_slave_reads_line now e buf_u len w sg w' sg' n
    (Hok : pty_ok (ptys w (f_obj e))) (Hcanon : lflag (ptys w (f_obj e)) LINUX_ICANON = true)
    (Hbuf : 0 <= buf_u /\ 0 <= len /\ buf_u + len <= 2 ^ 64) (Hn : 0 < n)
    (Hrun : pty_read now false e buf_u len w sg = (w', sg', Done n)) :
  let y := ptys w (f_obj e) in let y' := ptys w' (f_obj e) in
  let line := first_line y (take (Z.to_nat len) (input y)) in
  pty_ok y' /\ load_bytes (umem w') buf_u (Z.to_nat n) = line /\ input y = line ++ input y' /\
  (n = len \/ exists b, last line = Some b /\ line_end y b = true).
Proof.
  intros y y' line. subst y y'. revert Hrun. unfold pty_read. set (y := ptys w (f_obj e)) in *. cbn [src_ring peer_refs].
  pose proof Hok as [Hm Hs]. pose proof Hm as (_ & Hc & _). rewrite Hcanon, have_canonical_line by done.
  destruct (negb _); [intros [= <- <- <-]; errno|]. destruct (negb _); [intros [= <- <- <-]; errno|].
  destruct (_ || _) eqn:Ew1.
  { destruct (_ <=? 0); [intros [= <- <- <-]; lia|].
    destruct (waits _ _ _) as [sg1 o] eqn:Ew. intros [= <- <- ->].
    destruct (waits_outcome _ _ _ _ _ Ew) as [[= ->]|[[= ->]|[[=]|[=]]]]; errno. }
  apply orb_false_iff in Ew1 as [_ Hline]. cbn [negb andb] in Hline. apply negb_false_iff in Hline.
  rewrite canonical_limit by (done || lia). fold line.
  destruct (first_line_prefix y (take (Z.to_nat len) (input y))) as [rest Hrest]. fold line in Hrest.
  pose proof (length_content EDGE_PTY_BUF_SIZE (m2s y) ltac:(lia)) as Hlen. fold (input y) in Hlen.
  assert ((length line <= length (take (Z.to_nat len) (input y)))%nat) as Hle by (rewrite Hrest, length_app; lia).
  rewrite length_take in Hle. unfold zlength.
  destruct (ring_read_loop _ _ _ _ _ _ _ _) as [[m r] ok] eqn:Er. intros [= <- <- E].
  apply (ring_read_spec EDGE_PTY_BUF_SIZE pty_size_ok) in Er as [Hr' Hok'];
    [|exact Hm | rewrite Nat2Z.id; lia | lia | lia | done | lia | lia | done].
  cbn [set_umem set_pty set_ptys ptys umem with_src]. rewrite upd_eq. split; [by split|].
  destruct ok; [|errno]. destruct (Hok' eq_refl) as (bs & Hbs & Hcs & ->). fold (input y) in Hcs. rewrite Nat2Z.id in Hbs.
  assert (bs = line) as ->.
  { rewrite <- (take_drop (Z.to_nat len) (input y)), Hrest, <- app_assoc in Hcs.
    apply app_inj_1 in Hcs as [? _]; [done | lia]. }
  rewrite <- E, Nat2Z.id. split; [|split; [exact Hcs|]].
  - cbn [app]. rewrite Z.add_0_r. apply load_store_bytes.
  - destruct (existsb_take y (Z.to_nat len) (input y) Hline) as [Hex | [Hl El]].
    + right. by apply first_line_ends.
    + left. fold line in El. rewrite El, length_take. lia.
Qed.
End fd.

(** ** Runs *)

#[local] Existing Instance no_sockets.

(** The text typed: a letter is erased before the end of the line. *)
Definition typed : list Z := str "lx" ++ [127] ++ str "s" ++ [NL] ++ str "pw".
Definition tty_demo : fdw unit :=
  set_umem (store_bytes (fun _ => 0) 0x2000 typed) (fst (pty_alloc (fd_init tt (fun _ => 0)))).
(** The descriptors of both sides: blocking, of pseudo-terminal 0. *)
Definition tty_fd : edge_fd := zero_fd.
Definition tty1 := pty_write 0 true 7 tty_fd 0x2000 7 tty_demo zero_sigs.
Definition tty2 := pty_read 0 false tty_fd 0x4000 10 tty1.1.1.1 zero_sigs.

Lemma demo_ring_ok n r : rpos r = 0 -> cnt r = n -> wpos r = n -> 0 <= n < EDGE_PTY_BUF_SIZE -> ring_ok EDGE_PTY_BUF_SIZE r.
Proof.
  intros Hr Hc Hw Hn. unfold ring_ok, EDGE_PTY_BUF_SIZE in *. rewrite Hr, Hc, Hw, Z.add_0_l, Z.mod_small by lia. lia.
Qed.

Lemma tty_demo_ok : pty_ok (ptys tty_demo 0).
Proof. split; apply (demo_ring_ok 0); vm_compute; try reflexivity; split; discriminate || reflexivity. Qed.

Lemma tty1_ok : pty_ok (ptys tty1.1.1.1 0).
Proof.
  split; [apply (demo_ring_ok 5) | apply (demo_ring_ok 10)]; vm_compute; try reflexivity; split; discriminate || reflexivity.
Qed.

Lemma pty_master_write_edits_witness : tty1.2 = Done 7 /\ input (ptys tty1.1.1.1 0) = str "ls" ++ [NL] ++ str "pw".
Proof.
  destruct (pty_master_write_edits 0 7 tty_fd 0x2000 7 tty_demo zero_sigs tty1.1.1.1 tty1.1.1.2 tty1.1.2 7)
    as (_ & _ & _ & H).
  - exact tty_demo_ok.
  - lia.
  - lia.
  - vm_compute. reflexivity.
  - split; [vm_compute; reflexivity|]. change (f_obj tty_fd) with 0 in H. rewrite H. vm_compute. reflexivity.
Defined.

Lemma pty_slave_reads_line_witness :
  load_bytes (umem tty2.1.1) 0x4000 3 = str "ls" ++ [NL] /\ input (ptys tty1.1.1.1 0) = (str "ls" ++ [NL]) ++ input (ptys tty2.1.1 0).
Proof.
  destruct (pty_slave_reads_line 0 tty_fd 0x4000 10 tty1.1.1.1 zero_sigs tty2.1.1 tty2.1.2 3) as (_ & H1 & H2 & _).
  - exact tty1_ok.
  - vm_compute. reflexivity.
  - lia.
  - lia.
  - vm_compute. reflexivity.
  - change (f_obj tty_fd) with 0 in *.
    assert (first_line (ptys tty1.1.1.1 0) (take (Z.to_nat 10) (input (ptys tty1.1.1.1 0))) = str "ls" ++ [NL]) as E
      by (vm_compute; reflexivity).
    rewrite E in H1, H2. split; [exact H1 | exact H2].
Defined.

(** A newline of the slave needs two bytes of room: with one left, the write
    takes nothing and says so with 0, as if the line had been hung up. *)
Example newline_without_room_writes_nothing :
  let full := {| rpos := 0; wpos := 4095; cnt := 4095; rbuf := fun _ => 0 |} in
  let w := set_umem (store_bytes (fun _ => 0) 0x2000 [NL]) (set_pty 0 (with_s2m full (ptys tty_demo 0)) tty_demo) in
  (pty_write 0 false 7 tty_fd 0x2000 1 w zero_sigs).2 = Done 0.
Proof. vm_compute. reflexivity. Qed.
