(* ===== verification/Poll.v ===== *)
(** * Waiting for descriptors and for time ([src/src/sys/syscall.c])

    The readiness of a descriptor and the calls that wait for it: [poll], [ppoll],
    [select], [pselect6] and [epoll_wait], and the calls that sleep. Each is split
    at its loop: what is done before it, and one turn, whose result is the value of
    the call or [Wait], another turn after other tasks have run. The readiness of an
    event poll asks for that of its watches without a bound of its own: [n] bounds
    the levels, [None] is a search that goes below them. Sockets are behind
    [sock_poll]; what the keyboard and the process table say is [poll_env]. *)

From S2P Require Import Prelude CString Path Sched Process Uaccess Vfs Ring Fd FdOps Signals FdIo Pty.

Definition LINUX_POLLIN : Z := 0x0001.
Definition LINUX_POLLPRI : Z := 0x0002.
Definition LINUX_POLLOUT : Z := 0x0004.
Definition LINUX_POLLERR : Z := 0x0008.
Definition LINUX_POLLHUP : Z := 0x0010.
Definition LINUX_POLLNVAL : Z := 0x0020.
Definition LINUX_EPOLLIN : Z := 0x001.
Definition LINUX_EPOLLOUT : Z := 0x004.
Definition LINUX_EPOLLERR : Z := 0x008.
Definition LINUX_EPOLLHUP : Z := 0x010.
Definition EDGE_SELECT_FD_MAX : Z := 1024.
Definition EDGE_SELECT_FD_BYTES : nat := 128.
Definition TIMER_ABSTIME : Z := 1.

(** The caller, the clocks, [keyboard_haschar], [keyboard_mouse_pending() > 0] and
    the state of the task that [process_get_task] finds. *)
Record poll_env := {
  x_me : Z; x_uid : Z; x_clock : times; keyboard_haschar : bool; mouse_pending : bool; x_task : Z -> option task_state
}.

(** The socket branches of the two halves of [poll_fd_revents], and [lwip_stack_poll]. *)
Class sock_poll (SK : Type) := {
  socket_in : Z -> SK -> SK * Z;
  socket_out : Z -> SK -> Z;
  lwip_stack_poll : SK -> SK
}.

(** [struct edge_pollfd] *)
Record pollfd := { pf_fd : Z; pf_events : Z; pf_revents : Z }.

Definition pollfd_at (bs : list Z) (k : nat) : pollfd :=
  {| pf_fd := i32 (field (8 * k) 4 bs); pf_events := field (8 * k + 4) 2 bs; pf_revents := field (8 * k + 6) 2 bs |}.
Definition pollfd_bytes (x : pollfd) : list Z := le_bytes 4 (pf_fd x) ++ le_bytes 2 (pf_events x) ++ le_bytes 2 (pf_revents x).

(** ** Sets of descriptors *)

Definition fdset_test (set : list Z) (fd : Z) : bool :=
  if (fd <? 0) || (EDGE_SELECT_FD_MAX <=? fd) then false
  else flag (nth (Z.to_nat (Z.shiftr fd 3)) set 0) (u8 (Z.shiftl 1 (Z.land fd 7))).

Definition fdset_set (set : list Z) (fd : Z) : list Z :=
  if (fd <? 0) || (EDGE_SELECT_FD_MAX <=? fd) then set
  else
    let k := Z.to_nat (Z.shiftr fd 3) in
    <[k := Z.lor (nth k set 0) (u8 (Z.shiftl 1 (Z.land fd 7)))]> set.

(** ** Time *)

(** Milliseconds from seconds and a fraction below [limit], [unit] of which are
    one. *)
Definition wait_ms (limit unit : Z) (t : Z * Z) : option Z :=
  if (t.1 <? 0) || (t.2 <? 0) || (limit <=? t.2) then None
  else Some (if 0x7FFFFFFF / 1000 <? t.1 then 0x7FFFFFFF else t.1 * 1000 + t.2 / unit).

(** The loop ends without a descriptor that is ready. *)
Definition timed_out (timeout start now : Z) : bool :=
  (timeout =? 0) || ((0 <? timeout) && (u64 (timeout * 1000) <=? u64 (now - start))).

Definition zombie (x : poll_env) : bool :=
  match x_task x (x_me x) with Some TASK_ZOMBIE => true | _ => false end.

Section poll.
Context {SK : Type} `{!sock_layer SK, !sock_poll SK}.
Implicit Types (w : fdw SK) (sg : signals).

(** ** Readiness *)

(** The loop over the watches of an event poll: one of them is ready. *)
Fixpoint watch_ready (rec : edge_fd -> Z -> fdw SK -> option (fdw SK * Z)) (p : option Z) (l : list epoll_watch) w :
    option (fdw SK * bool) :=
  match l with
  | [] => Some (w, false)
  | x :: l =>
      match fd_get p (w_fd x) w with
      | None => watch_ready rec p l w
      | Some (_, we) =>
          match rec we (Z.land (w_events x) 0x7fff) w with
          | None => None
          | Some (w, rev) =>
              if flag rev (Z.lor (Z.lor (Z.lor (Z.lor LINUX_POLLIN LINUX_POLLPRI) LINUX_POLLOUT) LINUX_POLLERR) LINUX_POLLHUP)
              then Some (w, true)
              else watch_ready rec p l w
          end
      end
  end.

Definition bits (b : bool) (v : Z) : Z := if b then v else 0.

(** The first half of [poll_fd_revents]. *)
Definition poll_in (rec : edge_fd -> Z -> fdw SK -> option (fdw SK * Z)) (x : poll_env) (e : edge_fd) w sg :
    option (fdw SK * Z) :=
  let id := f_obj e in
  match f_kind e with
  | FD_CONSOLE => Some (w, bits (keyboard_haschar x) LINUX_POLLIN)
  | FD_PTY_MASTER | FD_PTY_SLAVE =>
      let master := test (f_kind e = FD_PTY_MASTER) in
      let y := ptys w id in
      Some (w, if negb (in_range id EDGE_MAX_PTYS) || negb (y_used y) then LINUX_POLLNVAL
               else Z.lor (bits (0 <? cnt (src_ring master y)) LINUX_POLLIN) (bits (peer_refs master y <=? 0) LINUX_POLLHUP))
  | FD_PIPE_R =>
      Some (w, if in_range id EDGE_MAX_PIPES then
                 let pp := pipes w id in
                 if negb (p_used pp) then LINUX_POLLNVAL
                 else Z.lor (bits (0 <? p_count pp) LINUX_POLLIN) (bits (p_writers pp =? 0) LINUX_POLLHUP)
               else LINUX_POLLNVAL)
  | FD_SOCKET =>
      if in_range id EDGE_MAX_SOCKETS then
        let '(sk, rev) := socket_in id (sockets w) in Some (set_sockets sk w, rev)
      else Some (w, LINUX_POLLNVAL)
  | FD_EVENTFD =>
      Some (w, if negb (in_range id EDGE_MAX_EVENTFDS) || negb (ev_used (eventfds w id)) then LINUX_POLLNVAL
               else bits (0 <? ev_counter (eventfds w id)) LINUX_POLLIN)
  | FD_TIMERFD =>
      Some (w, if negb (in_range id EDGE_MAX_TIMERFDS) || negb (tf_used (timerfds w id)) then LINUX_POLLNVAL
               else bits (0 <? snd (timerfd_expire_count (x_clock x) (timerfds w id) false)) LINUX_POLLIN)
  | FD_SIGNALFD =>
      Some (w, if negb (in_range id EDGE_MAX_SIGNALFDS) || negb (sf_used (signalfds w id)) then LINUX_POLLNVAL
               else bits (test (is_Some (snd (signalfd_peek_current (sf_mask (signalfds w id)) false (x_me x) (x_uid x) sg)))) LINUX_POLLIN)
  | FD_EPOLL =>
      if negb (in_range id EDGE_MAX_EPOLLS) || negb (ep_used (epolls w id)) then Some (w, LINUX_POLLNVAL)
      else
        let '(w, p) := fd_proc_with_stdio (x_me x) w in
        match watch_ready rec p (ep_watch (epolls w id)) w with
        | None => None
        | Some (w, r) => Some (w, bits r LINUX_POLLIN)
        end
  | FD_PIDFD => Some (w, bits (match x_task x id with None | Some TASK_ZOMBIE => true | _ => false end) LINUX_POLLIN)
  | FD_VFS =>
      Some (w, if path_is_console_tty (f_path e) then bits (keyboard_haschar x) LINUX_POLLIN
               else if path_is_mouse_input (f_path e) then bits (mouse_pending x) LINUX_POLLIN
               else LINUX_POLLIN)
  | FD_NONE | FD_PIPE_W => Some (w, LINUX_POLLIN)
  end.

(** The second half. *)
Definition poll_out (e : edge_fd) w : Z :=
  let id := f_obj e in
  match f_kind e with
  | FD_PIPE_W =>
      if in_range id EDGE_MAX_PIPES then
        let pp := pipes w id in
        if negb (p_used pp) then LINUX_POLLNVAL
        else if p_readers pp =? 0 then LINUX_POLLERR
        else bits (p_count pp <? EDGE_PIPE_SIZE) LINUX_POLLOUT
      else LINUX_POLLNVAL
  | FD_PTY_MASTER | FD_PTY_SLAVE =>
      let master := test (f_kind e = FD_PTY_MASTER) in
      let y := ptys w id in
      if negb (in_range id EDGE_MAX_PTYS) || negb (y_used y) then LINUX_POLLNVAL
      else if peer_refs master y <=? 0 then LINUX_POLLERR
      else bits (cnt (dst_ring master y) <? EDGE_PTY_BUF_SIZE) LINUX_POLLOUT
  | FD_EVENTFD =>
      if negb (in_range id EDGE_MAX_EVENTFDS) || negb (ev_used (eventfds w id)) then LINUX_POLLNVAL
      else bits (ev_counter (eventfds w id) <? UINT64_MAX - 1) LINUX_POLLOUT
  | FD_SOCKET => if in_range id EDGE_MAX_SOCKETS then socket_out id (sockets w) else LINUX_POLLOUT
  | _ => LINUX_POLLOUT
  end.

Fixpoint poll_fd_revents (n : nat) (x : poll_env) (oe : option edge_fd) (events : Z) w sg : option (fdw SK * Z) :=
  match n with
  | O => None
  | S n =>
      match oe with
      | None => Some (w, LINUX_POLLNVAL)
      | Some e =>
          match (if flag events (Z.lor LINUX_POLLIN LINUX_POLLPRI)
                 then poll_in (fun we ev w => poll_fd_revents n x (Some we) ev w sg) x e w sg
                 else Some (w, 0)) with
          | None => None
          | Some (w, rev) => Some (w, Z.lor rev (bits (flag events LINUX_POLLOUT) (poll_out e w)))
          end
      end
  end.

(** ** poll *)

(** What a call does before its loop. *)
Inductive start (A : Type) := Finish (r : Z) | Sleep (ms : Z) | Loop (a : A).
#[global] Arguments Finish {A} _.
#[global] Arguments Sleep {A} _.
#[global] Arguments Loop {A} _.

(** The descriptors and the timeout. After [Sleep] the result is 0. *)
Definition poll_start (fds_u nfds_u timeout_u : Z) (m : CString.mem) : start (list pollfd * Z) :=
  let nfds := i32 nfds_u in
  let timeout := i32 timeout_u in
  if fds_u =? 0 then Finish (- EINVAL)
  else if (nfds <? 0) || (64 <? nfds) then Finish (- EINVAL)
  else if nfds =? 0 then (if 0 <? timeout then Sleep timeout else Finish 0)
  else
    match copy_from_user m fds_u (nfds * 8) with
    | None => Finish (- EFAULT)
    | Some bs => Loop (map (pollfd_at bs) (seq 0 (Z.to_nat nfds)), timeout)
    end.

Definition ppoll_start (fds_u nfds_u timeout_u : Z) (m : CString.mem) : start (list pollfd * Z) :=
  if timeout_u =? 0 then poll_start fds_u nfds_u (-1) m
  else
    match copy_from_user m timeout_u 16 with
    | None => Finish (- EFAULT)
    | Some bs =>
        match wait_ms 1000000000 1000000 (timespec_at 0 bs) with
        | None => Finish (- EINVAL)
        | Some ms => poll_start fds_u nfds_u ms m
        end
    end.

(** The descriptors with their results, and how many are ready. *)
Fixpoint poll_loop (n : nat) (x : poll_env) (p : option Z) (l : list pollfd) w sg : option (fdw SK * list pollfd * Z) :=
  match l with
  | [] => Some (w, [], 0)
  | a :: l =>
      match (if 0 <=? pf_fd a then poll_fd_revents n x (snd <$> fd_get p (pf_fd a) w) (pf_events a) w sg else Some (w, 0)) with
      | None => None
      | Some (w, rev) =>
          match poll_loop n x p l w sg with
          | None => None
          | Some (w, l, ready) =>
              Some (w, {| pf_fd := pf_fd a; pf_events := pf_events a; pf_revents := rev |} :: l,
                    if negb (rev =? 0) then 1 + ready else ready)
          end
      end
  end.

Definition poll_turn (n : nat) (x : poll_env) (start_us fds_u : Z) (l : list pollfd) (timeout : Z) w sg :
    option (fdw SK * signals * io) :=
  let '(w, p) := fd_proc_with_stdio (x_me x) w in
  match signal_pending_interrupt (mono (x_clock x)) sg with
  | None => Some (w, sg, Spin)
  | Some (sg, true) => Some (w, sg, Done (- EINTR))
  | Some (sg, false) =>
      let w := set_sockets (lwip_stack_poll (sockets w)) w in
      match poll_loop n x p l w sg with
      | None => None
      | Some (w, l, ready) =>
          if (0 <? ready) || timed_out timeout start_us (mono (x_clock x)) then
            Some match copy_to_user (umem w) fds_u (concat (map pollfd_bytes l)) with
                 | None => (w, sg, Done (- EFAULT))
                 | Some m => (set_umem m w, sg, Done ready)
                 end
          else Some (w, sg, Wait)
      end
  end.

(** ** select *)

Record fdsets := { s_r : list Z; s_w : list Z; s_e : list Z }.
Definition no_fds : fdsets := {| s_r := replicate 128 0; s_w := replicate 128 0; s_e := replicate 128 0 |}.

(** A set of the caller, empty when there is none. *)
Definition get_set (u nbytes : Z) (m : CString.mem) : option (list Z) :=
  let zeros := replicate EDGE_SELECT_FD_BYTES 0 in
  if negb (u =? 0) && negb (nbytes =? 0) then
    match copy_from_user m u nbytes with Some bs => Some (list_inserts 0 bs zeros) | None => None end
  else Some zeros.
Definition put_set (u nbytes : Z) (l : list Z) (m : CString.mem) : option CString.mem :=
  if negb (u =? 0) && negb (nbytes =? 0) then copy_to_user m u (take (Z.to_nat nbytes) l) else Some m.

Definition set_bytes (n : Z) : Z := (n + 7) / 8.

(** [timeout] reads the timeout. *)
Definition select_start (timeout : CString.mem -> start Z) (n_u rfds_u wfds_u efds_u : Z) (m : CString.mem) : start (Z * fdsets * Z) :=
  let n := i32 n_u in
  if (n <? 0) || (EDGE_SELECT_FD_MAX <? n) then Finish (- EINVAL)
  else
    match get_set rfds_u (set_bytes n) m, get_set wfds_u (set_bytes n) m, get_set efds_u (set_bytes n) m with
    | Some r, Some w, Some e =>
        match timeout m with
        | Finish v => Finish v
        | Sleep ms => Sleep ms
        | Loop ms => Loop (n, {| s_r := r; s_w := w; s_e := e |}, ms)
        end
    | _, _, _ => Finish (- EFAULT)
    end.

Definition timeout_at (limit unit timeout_u : Z) (m : CString.mem) : start Z :=
  if timeout_u =? 0 then Loop (-1)
  else
    match copy_from_user m timeout_u 16 with
    | None => Finish (- EFAULT)
    | Some bs => match wait_ms limit unit (timeval_at 0 bs) with None => Finish (- EINVAL) | Some ms => Loop ms end
    end.

Definition do_sys_select_start (n_u rfds_u wfds_u efds_u timeout_u : Z) : CString.mem -> start (Z * fdsets * Z) :=
  select_start (timeout_at 1000000 1000 timeout_u) n_u rfds_u wfds_u efds_u.

(** The signal mask is read and not used. *)
Definition do_sys_pselect6_start (n_u rfds_u wfds_u efds_u timeout_u sig_u : Z) : CString.mem -> start (Z * fdsets * Z) :=
  select_start
    (fun m =>
       match timeout_at 1000000000 1000000 timeout_u m with
       | Loop ms =>
           if negb (sig_u =? 0) && negb (test (is_Some (copy_from_user m sig_u 16))) then Finish (- EFAULT) else Loop ms
       | r => r
       end) n_u rfds_u wfds_u efds_u.

(** What a descriptor adds to the sets of results. *)
Definition select_fd (s : fdsets) (fd rev : Z) (out : fdsets) : fdsets * bool :=
  let r := flag rev (Z.lor (Z.lor LINUX_POLLIN LINUX_POLLHUP) LINUX_POLLERR) && fdset_test (s_r s) fd in
  let w := flag rev (Z.lor LINUX_POLLOUT LINUX_POLLERR) && fdset_test (s_w s) fd in
  let e := flag rev LINUX_POLLPRI && fdset_test (s_e s) fd in
  ({| s_r := if r then fdset_set (s_r out) fd else s_r out;
      s_w := if w then fdset_set (s_w out) fd else s_w out;
      s_e := if e then fdset_set (s_e out) fd else s_e out |}, r || w || e).

Definition select_events (s : fdsets) (fd : Z) : Z :=
  Z.lor (Z.lor (bits (fdset_test (s_r s) fd) (Z.lor LINUX_POLLIN LINUX_POLLPRI)) (bits (fdset_test (s_w s) fd) LINUX_POLLOUT))
        (bits (fdset_test (s_e s) fd) LINUX_POLLPRI).

Definition watched (s : fdsets) (fd : Z) : bool := fdset_test (s_r s) fd || fdset_test (s_w s) fd || fdset_test (s_e s) fd.

(** [k] more descriptors from [fd] on; the inner [None] is a descriptor that is
    not open. *)
Fixpoint select_loop (n : nat) (x : poll_env) (p : option Z) (s : fdsets) (k : nat) (fd : Z) (out : fdsets) (ready : Z) w sg :
    option (fdw SK * option (fdsets * Z)) :=
  match k with
  | O => Some (w, Some (out, ready))
  | S k =>
      if negb (watched s fd) then select_loop n x p s k (fd + 1) out ready w sg
      else
        match fd_get p fd w with
        | None => Some (w, None)
        | Some (_, e) =>
            match poll_fd_revents n x (Some e) (select_events s fd) w sg with
            | None => None
            | Some (w, rev) =>
                let '(out, r) := select_fd s fd rev out in
                select_loop n x p s k (fd + 1) out (if r then ready + 1 else ready) w sg
            end
        end
  end.

Definition select_turn (n : nat) (x : poll_env) (start_us rfds_u wfds_u efds_u : Z) (nfds : Z) (s : fdsets) (timeout : Z) w sg :
    option (fdw SK * signals * io) :=
  let '(w, p) := fd_proc_with_stdio (x_me x) w in
  match signal_pending_interrupt (mono (x_clock x)) sg with
  | None => Some (w, sg, Spin)
  | Some (sg, true) => Some (w, sg, Done (- EINTR))
  | Some (sg, false) =>
      let w := set_sockets (lwip_stack_poll (sockets w)) w in
      match select_loop n x p s (Z.to_nat nfds) 0 no_fds 0 w sg with
      | None => None
      | Some (w, None) => Some (w, sg, Done (- EBADF))
      | Some (w, Some (out, ready)) =>
          if (0 <? ready) || timed_out timeout start_us (mono (x_clock x)) then
            let k := set_bytes nfds in
            Some match put_set rfds_u k (s_r out) (umem w) with
                 | None => (w, sg, Done (- EFAULT))
                 | Some m =>
                     match put_set wfds_u k (s_w out) m with
                     | None => (set_umem m w, sg, Done (- EFAULT))
                     | Some m =>
                         match put_set efds_u k (s_e out) m with
                         | None => (set_umem m w, sg, Done (- EFAULT))
                         | Some m => (set_umem m w, sg, Done ready)
                         end
                     end
                 end
          else Some (w, sg, Wait)
      end
  end.

(** The loop of [pselect6] is the same. *)
Definition pselect6_turn := select_turn.

(** ** epoll_wait *)

(** The process slot, the event poll and the bound on the results. *)
Definition epoll_wait_start (me epfd_u events_u maxevents_u : Z) w : fdw SK * start (option Z * Z * Z) :=
  let '(w, p) := fd_proc_with_stdio me w in
  let maxevents := i32 maxevents_u in
  (w, match fd_get p (i32 epfd_u) w with
      | None => Finish (- EBADF)
      | Some (_, e) =>
          if negb (test (f_kind e = FD_EPOLL)) then Finish (- EBADF)
          else if (events_u =? 0) || (maxevents <=? 0) then Finish (- EINVAL)
          else if negb (in_range (f_obj e) EDGE_MAX_EPOLLS) then Finish (- EBADF)
          else if negb (ep_used (epolls w (f_obj e))) then Finish (- EBADF)
          else Loop (p, f_obj e, if 64 <? maxevents then 64 else maxevents)
      end).

Definition epoll_request (events : Z) : Z :=
  let req := Z.lor (bits (flag events LINUX_EPOLLIN) (Z.lor LINUX_POLLIN LINUX_POLLPRI)) (bits (flag events LINUX_EPOLLOUT) LINUX_POLLOUT) in
  if req =? 0 then Z.lor LINUX_POLLIN LINUX_POLLOUT else req.

Definition epoll_events (rev : Z) : Z :=
  Z.lor (Z.lor (Z.lor (bits (flag rev (Z.lor LINUX_POLLIN LINUX_POLLPRI)) LINUX_EPOLLIN) (bits (flag rev LINUX_POLLOUT) LINUX_EPOLLOUT))
               (bits (flag rev LINUX_POLLERR) LINUX_EPOLLERR))
        (bits (flag rev LINUX_POLLHUP) LINUX_EPOLLHUP).

(** The events and the data of the watches that are ready, [out] so far. *)
Fixpoint epoll_loop (n : nat) (x : poll_env) (p : option Z) (maxevents : Z) (l : list epoll_watch) (out : list (Z * Z)) w sg :
    option (fdw SK * list (Z * Z)) :=
  match l with
  | [] => Some (w, out)
  | a :: l =>
      if maxevents <=? zlength out then Some (w, out)
      else
        match fd_get p (w_fd a) w with
        | None => epoll_loop n x p maxevents l out w sg
        | Some (_, we) =>
            match poll_fd_revents n x (Some we) (epoll_request (w_events a)) w sg with
            | None => None
            | Some (w, rev) =>
                let eev := epoll_events rev in
                epoll_loop n x p maxevents l
                  (if flag eev (Z.lor (Z.lor (w_events a) LINUX_EPOLLERR) LINUX_EPOLLHUP) then out ++ [(eev, w_data a)] else out) w sg
            end
        end
  end.

(** [_pad] is not set: [pad k] is what the stack held there. *)
Definition epoll_event_bytes (pad : Z -> Z) (k : Z) (ev : Z * Z) : list Z := le_bytes 4 ev.1 ++ le_bytes 4 (pad k) ++ le_bytes 8 ev.2.

Definition epoll_turn (n : nat) (x : poll_env) (pad : Z -> Z) (start_us events_u : Z) (p : option Z) (id maxevents timeout : Z) w sg :
    option (fdw SK * signals * io) :=
  match epoll_loop n x p maxevents (ep_watch (epolls w id)) [] w sg with
  | None => None
  | Some (w, out) =>
      if 0 <? zlength out then
        Some match copy_to_user (umem w) events_u (concat (imap (fun k => epoll_event_bytes pad (Z.of_nat k)) out)) with
             | None => (w, sg, Done (- EFAULT))
             | Some m => (set_umem m w, sg, Done (zlength out))
             end
      else if timed_out timeout start_us (mono (x_clock x)) then Some (w, sg, Done 0)
      else
        Some match signal_pending_interrupt (mono (x_clock x)) sg with
             | None => (w, sg, Spin)
             | Some (sg, true) => (w, sg, Done (- EINTR))
             | Some (sg, false) => (set_sockets (lwip_stack_poll (sockets w)) w, sg, Wait)
             end
  end.

(** ** Sleeping *)

Definition sleep_turn (x : poll_env) (start_us ms : Z) w sg : fdw SK * signals * io :=
  let now := mono (x_clock x) in
  if u64 (ms * 1000) <=? u64 (now - start_us) then (w, sg, Done 0)
  else
    match signal_pending_interrupt now sg with
    | None => (w, sg, Spin)
    | Some (sg, true) => (w, sg, Done (- EINTR))
    | Some (sg, false) =>
        let w := set_sockets (lwip_stack_poll (sockets w)) w in
        (w, sg, if zombie x then Done (- EINTR) else Wait)
    end.

Definition do_sys_sleep (ms : Z) : start unit := if ms =? 0 then Finish 0 else Sleep ms.

Definition do_sys_nanosleep (req_u : Z) (m : CString.mem) : start unit :=
  if req_u =? 0 then Finish (- EINVAL)
  else
    match copy_from_user m req_u 16 with
    | None => Finish (- EFAULT)
    | Some bs =>
        let req := timespec_at 0 bs in
        if (req.1 <? 0) || (req.2 <? 0) then Finish (- EINVAL)
        else do_sys_sleep (u64 (u64 (req.1 * 1000) + req.2 / 1000000))
    end.

(** The time on the monotonic clock at which the sleep ends. *)
Definition clock_nanosleep_start (clock : times) (clk_id flags_u req_u : Z) (m : CString.mem) : start Z :=
  if negb (Z.land flags_u (u64 (Z.lnot TIMER_ABSTIME)) =? 0) then Finish (- EINVAL)
  else if negb (clk_id =? CLOCK_REALTIME) && negb (clk_id =? CLOCK_MONOTONIC) then Finish (- EINVAL)
  else if req_u =? 0 then Finish (- EINVAL)
  else
    match copy_from_user m req_u 16 with
    | None => Finish (- EFAULT)
    | Some bs =>
        match timespec_to_us_checked (Some (timespec_at 0 bs)) with
        | None => Finish (- EINVAL)
        | Some us =>
            if flag flags_u TIMER_ABSTIME then
              let base := if clk_id =? CLOCK_REALTIME then real clock else mono clock in
              if us <=? base then Finish 0 else Loop (u64 (mono clock + (us - base)))
            else Loop (u64 (mono clock + us))
        end
    end.

Definition clock_nanosleep_turn (clock : times) (flags_u rem_u target : Z) w sg : fdw SK * signals * io :=
  let now := mono clock in
  if target <=? now then (w, sg, Done 0)
  else
    match signal_pending_interrupt now sg with
    | None => (w, sg, Spin)
    | Some (sg, true) =>
        if negb (rem_u =? 0) && negb (flag flags_u TIMER_ABSTIME) then
          match copy_to_user (umem w) rem_u (timespec_bytes (target - now)) with
          | None => (w, sg, Done (- EFAULT))
          | Some m => (set_umem m w, sg, Done (- EINTR))
          end
        else (w, sg, Done (- EINTR))
    | Some (sg, false) => (set_sockets (lwip_stack_poll (sockets w)) w, sg, Wait)
    end.

Definition do_sys_clock_gettime (clock : times) (clk_id ts_u : Z) w : fdw SK * Z :=
  if negb (clk_id =? CLOCK_REALTIME) && negb (clk_id =? CLOCK_MONOTONIC) then (w, - EINVAL)
  else if ts_u =? 0 then (w, - EINVAL)
  else
    match copy_to_user (umem w) ts_u (timespec_bytes (if clk_id =? CLOCK_REALTIME then real clock else mono clock)) with
    | None => (w, - EFAULT)
    | Some m => (set_umem m w, 0)
    end.

Definition do_sys_gettimeofday (clock : times) (tv_u : Z) w : fdw SK * Z :=
  if tv_u =? 0 then (w, - EINVAL)
  else
    match copy_to_user (umem w) tv_u (le_bytes 8 (real clock / 1000000) ++ le_bytes 8 (real clock mod 1000000)) with
    | None => (w, - EFAULT)
    | Some m => (set_umem m w, 0)
    end.
End poll.
