(* ===== verification/PollInv.v ===== *)
(** * What the readiness of a descriptor means

    A descriptor that [poll] reports as not ready is one on which a read or a write
    would wait, and the other way round; nested event polls; how long the calls
    that sleep do. *)

From S2P Require Import Prelude CString Path Sched Process Uaccess Vfs Ring Fd FdOps FdCalls Signals FdIo Pty FdIoInv Poll.

Section poll.
Context {SK : Type} `{!sock_layer SK, !sock_poll SK}.
Implicit Types (w : fdw SK) (sg : signals).

(** ** Readiness and waiting *)

(** The call does not finish, or gives up because it would wait. *)
Definition blocked (o : io) : Prop := o = Wait \/ o = Spin \/ o = Done (- EAGAIN) \/ o = Done (- EINTR).

Lemma waits_blocked flags now sg sg' o : waits flags now sg = (sg', o) -> blocked o.
Proof. intros H. destruct (waits_outcome _ _ _ _ _ H) as [->|[->|[->| ->]]]; unfold blocked; auto. Qed.

Lemma done_unblocked r : 0 <= r \/ r = - EFAULT \/ r = - EBADF \/ r = - EPIPE \/ r = - EINVAL -> ~ blocked (Done r).
Proof. unfold blocked, EAGAIN, EINTR, EFAULT, EBADF, EPIPE, EINVAL. intros H [[=]|[[=]|[[= ->]|[= ->]]]]; lia. Qed.

(** The counts are those of unsigned variables. *)
Definition counts_ok (id : Z) w : Prop :=
  0 <= p_count (pipes w id) /\ 0 <= cnt (m2s (ptys w id)) /\ 0 <= cnt (s2m (ptys w id)) /\ 0 <= ev_counter (eventfds w id) <= UINT64_MAX - 1.

(** The terminal has input but not a line of it yet, and its program reads lines. *)
Definition half_line (e : edge_fd) w : Prop :=
  f_kind e = FD_PTY_SLAVE /\ lflag (ptys w (f_obj e)) LINUX_ICANON = true /\ pty_slave_input_have_canonical_line (ptys w (f_obj e)) = false.

Definition readable_kind (k : edge_fd_kind) : bool :=
  match k with FD_PIPE_R | FD_EVENTFD | FD_TIMERFD | FD_SIGNALFD | FD_PTY_MASTER | FD_PTY_SLAVE => true | _ => false end.
Definition writable_kind (k : edge_fd_kind) : bool :=
  match k with FD_PIPE_W | FD_EVENTFD | FD_PTY_MASTER | FD_PTY_SLAVE => true | _ => false end.

(** The bytes that a read or a write of a kind asks for at least. *)
Definition record_len (k : edge_fd_kind) : Z := match k with FD_EVENTFD | FD_TIMERFD => 8 | FD_SIGNALFD => 128 | _ => 0 end.

(** The value that a write would add to an event descriptor, if it is not refused. *)
Definition added buf_u w : option Z :=
  match copy_from_user (umem w) buf_u 8 with Some bs => if le_val bs =? UINT64_MAX then None else Some (le_val bs) | None => None end.

(** The counter of the event descriptor has no room for [v]. *)
Definition no_room (e : edge_fd) (v : Z) w : Prop :=
  in_range (f_obj e) EDGE_MAX_EVENTFDS = true /\ ev_used (eventfds w (f_obj e)) = true /\ UINT64_MAX - 1 < ev_counter (eventfds w (f_obj e)) + v.

Lemma bits_zero b v : v <> 0 -> (bits b v =? 0) = negb b.
Proof. intros Hv. destruct b; cbn [bits negb]; [by apply Z.eqb_neq | done]. Qed.

Lemma lor_bits_zero a b u v : u <> 0 -> v <> 0 -> (Z.lor (bits a u) (bits b v) =? 0) = negb a && negb b.
Proof.
  intros Hu Hv. destruct a, b; cbn [bits negb andb]; rewrite ?Z.lor_0_l, ?Z.lor_0_r; try done; apply Z.eqb_neq; try done.
  intros [? _]%Z.lor_eq_0_iff. done.
Qed.

(** The readiness of an object that a read takes from. *)
Definition revents_in (x : poll_env) (e : edge_fd) w sg : Z :=
  match poll_in (fun _ _ w => Some (w, 0)) x e w sg with Some (_, r) => r | None => 0 end.

Lemma poll_readable n x e w sg :
  readable_kind (f_kind e) = true -> poll_fd_revents (S n) x (Some e) LINUX_POLLIN w sg = Some (w, revents_in x e w sg).
Proof.
  intros Hk. cbn [poll_fd_revents]. change (flag LINUX_POLLIN (Z.lor LINUX_POLLIN LINUX_POLLPRI)) with true.
  change (flag LINUX_POLLIN LINUX_POLLOUT) with false. cbn [bits].
  unfold revents_in, poll_in. destruct (f_kind e); try done; by rewrite Z.lor_0_r.
Qed.

Lemma poll_writable n x e w sg : poll_fd_revents (S n) x (Some e) LINUX_POLLOUT w sg = Some (w, poll_out e w).
Proof. done. Qed.

(** The two outcomes of a call, against the test that the result is zero. *)
Lemma call_done r : 0 <= r \/ r = - EFAULT \/ r = - EBADF \/ r = - EPIPE \/ r = - EINVAL -> blocked (Done r) <-> false = true.
Proof. intros H. split; [|done]. intros Hb. by apply done_unblocked in Hb. Qed.

Lemma call_waits flags now sg sg' o : waits flags now sg = (sg', o) -> blocked o <-> true = true.
Proof. intros H. split; [done|]. intros _. by apply waits_blocked in H. Qed.

Ltac finished := intros [= <- <- <-]; apply call_done; auto.
Ltac waiting := destruct (waits _ _ _) as [? ?] eqn:Ew; intros [= <- <- <-]; exact (call_waits _ _ _ _ _ Ew).

(** *** Reads *)

Lemma pipe_read_ready x e buf_u len w sg w' sg' o :
  f_kind e = FD_PIPE_R -> counts_ok (f_obj e) w -> 0 < len -> pipe_read (mono (x_clock x)) e buf_u len w sg = (w', sg', o) ->
  blocked o <-> revents_in x e w sg = 0.
Proof.
  intros Hk (Hc & _) Hl. unfold revents_in, poll_in, pipe_read. rewrite Hk, <- Z.eqb_eq.
  destruct (in_range (f_obj e) EDGE_MAX_PIPES); cbn [negb]; [|finished].
  destruct (p_used (pipes w (f_obj e))); cbn [negb]; [|finished].
  rewrite lor_bits_zero by done. destruct (Z.eqb_spec (p_count (pipes w (f_obj e))) 0) as [E|E].
  - rewrite E. cbn [Z.ltb Z.compare negb andb]. destruct (p_writers (pipes w (f_obj e)) =? 0); cbn [negb]; [finished; lia | waiting].
  - destruct (Z.ltb_spec 0 (p_count (pipes w (f_obj e)))); [|lia]. cbn [negb andb].
    destruct (ring_read_loop _ _ _ _ _ _ _ _) as [[m r] ok]. intros [= <- <- <-]. apply call_done.
    destruct ok; [|auto]. left. destruct (p_count (pipes w (f_obj e)) <? len); lia.
Qed.

Lemma put_result_done buf_u bs w sg w' sg' o : put_result buf_u bs w sg = (w', sg', o) -> blocked o <-> false = true.
Proof. unfold put_result. destruct (copy_to_user _ _ _); finished. left. unfold zlength. lia. Qed.

Lemma eventfd_read_ready x e buf_u len w sg w' sg' o :
  f_kind e = FD_EVENTFD -> counts_ok (f_obj e) w -> 8 <= len -> eventfd_read (mono (x_clock x)) e buf_u len w sg = (w', sg', o) ->
  blocked o <-> revents_in x e w sg = 0.
Proof.
  intros Hk (_ & _ & _ & Hc) Hl. unfold revents_in, poll_in, eventfd_read. rewrite Hk, <- Z.eqb_eq. destruct (Z.ltb_spec len 8); [lia|].
  destruct (in_range (f_obj e) EDGE_MAX_EVENTFDS); cbn [negb orb]; [|finished].
  destruct (ev_used (eventfds w (f_obj e))); cbn [negb]; [|finished].
  rewrite bits_zero by done. destruct (Z.eqb_spec (ev_counter (eventfds w (f_obj e))) 0) as [E|E].
  - rewrite E. waiting.
  - destruct (Z.ltb_spec 0 (ev_counter (eventfds w (f_obj e)))); [|lia]. apply put_result_done.
Qed.

(** A look at a timer and a read of it see the same count. *)
Lemma expire_count_peek clock t : snd (timerfd_expire_count clock t false) = snd (timerfd_expire_count clock t true) /\ 0 <= snd (timerfd_expire_count clock t true).
Proof.
  unfold timerfd_expire_count. repeat case_match; split; try done. cbn [snd]. apply Z.mod_pos_bound. lia.
Qed.

Lemma timerfd_read_ready x e buf_u len w sg w' sg' o :
  f_kind e = FD_TIMERFD -> 8 <= len -> timerfd_read (x_clock x) e buf_u len w sg = (w', sg', o) -> blocked o <-> revents_in x e w sg = 0.
Proof.
  intros Hk Hl. unfold revents_in, poll_in, timerfd_read. rewrite Hk, <- Z.eqb_eq. destruct (Z.ltb_spec len 8); [lia|].
  destruct (in_range (f_obj e) EDGE_MAX_TIMERFDS); cbn [negb orb]; [|finished].
  destruct (tf_used (timerfds w (f_obj e))); cbn [negb]; [|finished].
  destruct (expire_count_peek (x_clock x) (timerfds w (f_obj e))) as [E Hn]. rewrite bits_zero, E by done.
  destruct (timerfd_expire_count _ _ true) as [tf k]. cbn [snd] in *. destruct (Z.eqb_spec k 0) as [->|].
  - waiting.
  - destruct (Z.ltb_spec 0 k); [|lia]. apply put_result_done.
Qed.

Lemma signalfd_read_ready x e buf_u len w sg w' sg' o :
  f_kind e = FD_SIGNALFD -> 128 <= len -> signalfd_read (x_me x) (x_uid x) e buf_u len w sg = (w', sg', o) -> blocked o <-> revents_in x e w sg = 0.
Proof.
  intros Hk Hl. unfold revents_in, poll_in, signalfd_read. rewrite Hk, <- Z.eqb_eq. destruct (Z.ltb_spec len 128); [lia|].
  destruct (in_range (f_obj e) EDGE_MAX_SIGNALFDS); cbn [negb orb]; [|finished].
  destruct (sf_used (signalfds w (f_obj e))); cbn [negb]; [|finished].
  rewrite bits_zero by done. unfold signalfd_peek_current. destruct (signalfd_sig _ _ =? 0); cbn [snd].
  - rewrite bool_decide_eq_false_2 by (intros [? ?]; done). intros [= <- <- <-]. split; [done|]. intros _. unfold blocked. destruct (flag _ _); auto.
  - rewrite bool_decide_eq_true_2 by (by eexists). apply put_result_done.
Qed.

Lemma line_limit_range n pos k req y : 0 <= k -> 0 <= line_limit n pos k req y.
Proof. revert pos k. induction n as [|n IH]; intros pos k Hk; cbn [line_limit]; [done|]. repeat case_match; try lia. apply IH. lia. Qed.

Lemma pty_revents_in x (master : bool) e w sg :
  f_kind e = (if master then FD_PTY_MASTER else FD_PTY_SLAVE) ->
  revents_in x e w sg =
    let y := ptys w (f_obj e) in
    if negb (in_range (f_obj e) EDGE_MAX_PTYS) || negb (y_used y) then LINUX_POLLNVAL
    else Z.lor (bits (0 <? cnt (src_ring master y)) LINUX_POLLIN) (bits (peer_refs master y <=? 0) LINUX_POLLHUP).
Proof. intros Hk. unfold revents_in, poll_in. rewrite Hk. by destruct master. Qed.

Lemma pty_read_ready x (master : bool) e buf_u len w sg w' sg' o :
  f_kind e = (if master then FD_PTY_MASTER else FD_PTY_SLAVE) -> counts_ok (f_obj e) w -> 0 < len ->
  pty_read (mono (x_clock x)) master e buf_u len w sg = (w', sg', o) ->
  blocked o <-> revents_in x e w sg = 0 \/ half_line e w /\ revents_in x e w sg = LINUX_POLLIN.
Proof.
  intros Hk (_ & Hm & Hs & _) Hl. rewrite (pty_revents_in x master) by done. unfold pty_read. cbv zeta. set (y := ptys w (f_obj e)) in *.
  assert (half_line e w <-> negb master && lflag y LINUX_ICANON && negb (pty_slave_input_have_canonical_line y) = true) as ->.
  { unfold half_line. fold y. rewrite Hk, !andb_true_iff, !negb_true_iff. destruct master; naive_solver. }
  destruct (in_range (f_obj e) EDGE_MAX_PTYS); cbn [negb orb].
  2: { intros [= <- <- <-]. rewrite call_done by auto. split; [done | intros [|[_ ?]]; done]. }
  destruct (y_used y); cbn [negb].
  2: { intros [= <- <- <-]. rewrite call_done by auto. split; [done | intros [|[_ ?]]; done]. }
  assert (0 <= cnt (src_ring master y)) as Hc by (by destruct master).
  destruct (Z.eqb_spec (cnt (src_ring master y)) 0) as [E|E]; cbn [orb].
  - rewrite E. cbn [Z.ltb Z.compare bits]. rewrite Z.lor_0_l. destruct (peer_refs master y <=? 0); cbn [bits].
    + intros [= <- <- <-]. rewrite call_done by lia. split; [done | intros [|[_ ?]]; done].
    + destruct (waits _ _ _) as [sg1 o1] eqn:Ew. intros [= <- <- <-]. rewrite (call_waits _ _ _ _ _ Ew). split; [by left | done].
  - destruct (Z.ltb_spec 0 (cnt (src_ring master y))); [|lia]. cbn [bits]. destruct (negb master && _ && _).
    + destruct (peer_refs master y <=? 0); cbn [bits].
      * intros [= <- <- <-]. rewrite call_done by lia. split; [done | intros [|[_ ?]]; done].
      * destruct (waits _ _ _) as [sg1 o1] eqn:Ew. intros [= <- <- <-]. rewrite (call_waits _ _ _ _ _ Ew). split; [|done]. intros _. by right.
    + destruct (ring_read_loop _ _ _ _ _ _ _ _) as [[m r] ok]. intros [= <- <- <-]. rewrite call_done.
      * split; [done|]. intros [H0|[? _]]; [|done]. by destruct (peer_refs master y <=? 0).
      * destruct ok; [|auto]. left. destruct master; [destruct (_ <? len); lia|]. unfold pty_slave_read_limit. repeat case_match; first [lia | apply line_limit_range; lia].
Qed.

(** *** Writes *)

Lemma pipe_write_ready e now buf_u len w sg w' sg' o :
  f_kind e = FD_PIPE_W -> 0 < len -> pipe_write now e buf_u len w sg = (w', sg', o) -> blocked o <-> poll_out e w = 0.
Proof.
  intros Hk Hl. unfold poll_out, pipe_write. rewrite Hk, <- Z.eqb_eq. destruct (in_range (f_obj e) EDGE_MAX_PIPES); cbn [negb]; [|finished].
  destruct (p_used (pipes w (f_obj e))); cbn [negb orb]; [|finished]. destruct (p_readers (pipes w (f_obj e)) =? 0); [finished|].
  rewrite bits_zero by done. destruct (Z.leb_spec EDGE_PIPE_SIZE (p_count (pipes w (f_obj e)))), (Z.ltb_spec (p_count (pipes w (f_obj e))) EDGE_PIPE_SIZE); try lia; cbn [negb].
  - waiting.
  - destruct (ring_write_loop _ _ _ _ _ _) as [r ok]. intros [= <- <- <-]. apply call_done. destruct ok; [|auto]. left.
    pose proof (u32_range (EDGE_PIPE_SIZE - p_count (pipes w (f_obj e)))). destruct (_ <? len); lia.
Qed.

Lemma pty_write_loop_range n i master my_pgid buf_u m y sigs y' sigs' r :
  pty_write_loop n i master my_pgid buf_u m y sigs = (y', sigs', Some r) -> i <= r.
Proof.
  revert i y sigs. induction n as [|n IH]; intros i y sigs; cbn [pty_write_loop]; [intros [= _ _ <-]; lia|].
  destruct (copy_from_user _ _ _) as [[|c l]|]; [done | | done]. destruct (_ <? _); [intros [= _ _ <-]; lia|].
  destruct (pty_put _ _ _ _) as [y1 s1]. intros H%IH. lia.
Qed.

Lemma pty_write_ready (master : bool) my_pgid e now buf_u len w sg w' sg' sigs o :
  f_kind e = (if master then FD_PTY_MASTER else FD_PTY_SLAVE) -> pty_write now master my_pgid e buf_u len w sg = (w', sg', sigs, o) ->
  blocked o <-> poll_out e w = 0.
Proof.
  intros Hk. assert (poll_out e w = let y := ptys w (f_obj e) in
    if negb (in_range (f_obj e) EDGE_MAX_PTYS) || negb (y_used y) then LINUX_POLLNVAL
    else if peer_refs master y <=? 0 then LINUX_POLLERR else bits (cnt (dst_ring master y) <? EDGE_PTY_BUF_SIZE) LINUX_POLLOUT) as ->
    by (unfold poll_out; rewrite Hk; by destruct master).
  unfold pty_write. cbv zeta. rewrite <- Z.eqb_eq. set (y := ptys w (f_obj e)).
  destruct (in_range (f_obj e) EDGE_MAX_PTYS); cbn [negb orb]; [|intros [= <- <- <- <-]; apply call_done; auto].
  destruct (y_used y); cbn [negb]; [|intros [= <- <- <- <-]; apply call_done; auto].
  destruct (Z.leb_spec EDGE_PTY_BUF_SIZE (cnt (dst_ring master y))) as [Hf|Hf].
  - destruct (peer_refs master y <=? 0); [intros [= <- <- <- <-]; apply call_done; auto|].
    destruct (Z.ltb_spec (cnt (dst_ring master y)) EDGE_PTY_BUF_SIZE); [lia|].
    destruct (waits _ _ _) as [sg1 o1] eqn:Ew. intros [= <- <- <- <-]. exact (call_waits _ _ _ _ _ Ew).
  - destruct (pty_write_loop _ _ _ _ _ _ _ _) as [[y1 s1] r] eqn:El. intros [= <- <- <- <-].
    destruct (Z.ltb_spec (cnt (dst_ring master y)) EDGE_PTY_BUF_SIZE); [|lia].
    assert (((if peer_refs master y <=? 0 then LINUX_POLLERR else bits true LINUX_POLLOUT) =? 0) = false) as -> by (by destruct (_ <=? 0)).
    apply call_done. destruct r as [r|]; [|auto]. left. by apply pty_write_loop_range in El.
Qed.

Lemma eventfd_write_blocks e now buf_u len w sg w' sg' o :
  counts_ok (f_obj e) w -> eventfd_write now e buf_u len w sg = (w', sg', o) ->
  blocked o <-> 8 <= len /\ exists v, added buf_u w = Some v /\ no_room e v w.
Proof.
  intros (_ & _ & _ & Hc) H. unfold no_room. assert (forall P : Prop, blocked o <-> False -> ~ P -> blocked o <-> P) as Hno by tauto.
  revert H. unfold eventfd_write, added. destruct (Z.ltb_spec len 8); [intros [= <- <- <-]; rewrite call_done by auto; split; [done | lia]|].
  destruct (in_range (f_obj e) EDGE_MAX_EVENTFDS); cbn [negb orb]; [|intros [= <- <- <-]; rewrite call_done by auto; split; [done | by intros (_ & v & _ & ? & _)]].
  destruct (ev_used (eventfds w (f_obj e))); cbn [negb]; [|intros [= <- <- <-]; rewrite call_done by auto; split; [done | by intros (_ & v & _ & _ & ? & _)]].
  destruct (copy_from_user _ _ _) as [bs|]; [|intros [= <- <- <-]; rewrite call_done by auto; split; [done | by intros (_ & v & ? & _)]].
  destruct (Z.eqb_spec (le_val bs) UINT64_MAX); [intros [= <- <- <-]; rewrite call_done by auto; split; [done | by intros (_ & v & ? & _)]|].
  rewrite u64_small by (unfold UINT64_MAX in *; lia).
  destruct (Z.ltb_spec (UINT64_MAX - 1 - ev_counter (eventfds w (f_obj e))) (le_val bs)).
  - destruct (waits _ _ _) as [sg1 o1] eqn:Ew. intros [= <- <- <-]. rewrite (call_waits _ _ _ _ _ Ew). split; [|done]. intros _. split; [lia|].
    eexists. split; [done|]. split; [done|]. split; [done | lia].
  - intros [= <- <- <-]. rewrite call_done by lia. split; [done|]. intros (_ & v & [= <-] & _ & _ & ?). lia.
Qed.

Lemma eventfd_writable e w : f_kind e = FD_EVENTFD -> counts_ok (f_obj e) w -> poll_out e w = 0 <-> no_room e 1 w.
Proof.
  intros Hk (_ & _ & _ & Hc). unfold poll_out, no_room. rewrite Hk. destruct (in_range (f_obj e) EDGE_MAX_EVENTFDS); cbn [negb orb]; [|split; [done | by intros [? _]]].
  destruct (ev_used (eventfds w (f_obj e))); cbn [negb]; [|split; [done | by intros (_ & ? & _)]].
  rewrite <- Z.eqb_eq, bits_zero by done. destruct (Z.ltb_spec (ev_counter (eventfds w (f_obj e))) (UINT64_MAX - 1)); cbn [negb]; split; try done; lia.
Qed.

Lemma not_half e w (A B C : Prop) : f_kind e <> FD_PTY_SLAVE -> (A <-> B) -> A <-> B \/ half_line e w /\ C.
Proof. unfold half_line. intros Hk [H1 H2]. split; [intros HA; left; auto|]. by intros [?|[[? _] _]]; [auto|]. Qed.

(** A buffer too small for a record is refused. *)
Lemma short_read_done other clock me uid fd buf_u len w w1 p q e sg w2 sg2 o :
  fd_proc_with_stdio me w = (w1, p) -> fd_get p (i32 fd) w1 = Some (q, e) -> buf_u <> 0 -> 0 < len < record_len (f_kind e) ->
  do_sys_fd_read other clock me uid fd buf_u len w sg = (w2, sg2, o) -> o = Done (- EINVAL).
Proof.
  intros Hstd Hfd Hb Hl. unfold do_sys_fd_read. destruct (Z.eqb_spec buf_u 0), (Z.eqb_spec len 0); [lia..|]. rewrite Hstd, Hfd.
  destruct (f_kind e); cbn [record_len] in Hl; try lia; unfold eventfd_read, timerfd_read, signalfd_read;
    match goal with |- context [len <? ?n] => destruct (Z.ltb_spec len n); [by intros [=] | lia] end.
Qed.

(** C30: poll tells which calls would wait, for buffers of any length. On a pipe, an event,
    timer or signal descriptor or a pseudo-terminal, a read of at least one record waits
    exactly when poll does not report the descriptor, apart from the program of a
    terminal that reads lines, to which it reports a line that is not finished; a shorter
    read never waits. A write to a pipe or a pseudo-terminal waits exactly when poll
    does not report it. Poll reports an event descriptor exactly when there is room to
    add 1; a write waits exactly when there is no room for its own value. *)
Theorem poll_tells_who_waits n x w w1 sg fd p q e
    (Hstd : fd_proc_with_stdio (x_me x) w = (w1, p)) (Hfd : fd_get p (i32 fd) w1 = Some (q, e)) (Hc : counts_ok (f_obj e) w1) :
  (forall other buf_u len w2 sg2 o,
    readable_kind (f_kind e) = true -> buf_u <> 0 -> 0 < len ->
    do_sys_fd_read other (x_clock x) (x_me x) (x_uid x) fd buf_u len w sg = (w2, sg2, o) ->
    exists rev, poll_fd_revents (S n) x (Some e) LINUX_POLLIN w1 sg = Some (w1, rev) /\
      (blocked o <-> record_len (f_kind e) <= len /\ (rev = 0 \/ half_line e w1 /\ rev = LINUX_POLLIN))) /\
  (forall other my_pgid buf_u len w2 sg2 sigs o,
    writable_kind (f_kind e) = true -> buf_u <> 0 -> 0 < len ->
    do_sys_fd_write other (x_clock x) (x_me x) my_pgid fd buf_u len w sg = (w2, sg2, sigs, o) ->
    exists rev, poll_fd_revents (S n) x (Some e) LINUX_POLLOUT w1 sg = Some (w1, rev) /\
      if test (f_kind e = FD_EVENTFD)
      then (rev = 0 <-> no_room e 1 w1) /\ (blocked o <-> 8 <= len /\ exists v, added buf_u w1 = Some v /\ no_room e v w1)
      else blocked o <-> rev = 0).
Proof.
  split.
  - intros other buf_u len w2 sg2 o Hk Hb Hl Hr. exists (revents_in x e w1 sg). split; [by apply poll_readable|].
    destruct (Z.ltb_spec len (record_len (f_kind e))) as [Hs|Hs].
    { rewrite (short_read_done _ _ _ _ _ _ _ _ _ _ _ _ _ _ _ _ Hstd Hfd Hb (conj Hl Hs) Hr), call_done by auto. split; [done | lia]. }
    assert (forall P : Prop, (blocked o <-> P) -> blocked o <-> record_len (f_kind e) <= len /\ P) as Hand by tauto. apply Hand. clear Hand.
    revert Hr. unfold do_sys_fd_read. destruct (Z.eqb_spec buf_u 0), (Z.eqb_spec len 0); [lia..|]. rewrite Hstd, Hfd. intros Hr.
    destruct (f_kind e) eqn:E; try done; cbn [record_len] in Hs.
    + apply not_half; [congruence|]. by eapply pipe_read_ready.
    + by eapply (pty_read_ready x true).
    + by eapply (pty_read_ready x false).
    + apply not_half; [congruence|]. by eapply eventfd_read_ready.
    + apply not_half; [congruence|]. by eapply timerfd_read_ready.
    + apply not_half; [congruence|]. by eapply signalfd_read_ready.
  - intros other my_pgid buf_u len w2 sg2 sigs o Hk Hb Hl. unfold do_sys_fd_write. destruct (Z.eqb_spec buf_u 0), (Z.eqb_spec len 0); [lia..|].
    rewrite Hstd, Hfd. intros Hr. exists (poll_out e w1). split; [done|]. destruct (f_kind e) eqn:E; try done; case_bool_decide; try done.
    + destruct (pipe_write _ _ _ _ _ _) as [[w3 sg3] o3] eqn:Ew. injection Hr as <- <- <- <-. by eapply pipe_write_ready.
    + by eapply (pty_write_ready true).
    + by eapply (pty_write_ready false).
    + destruct (eventfd_write _ _ _ _ _ _) as [[w3 sg3] o3] eqn:Ew. injection Hr as <- <- <- <-.
      split; [by apply eventfd_writable | by eapply eventfd_write_blocks].
Qed.

(** ** Nested event polls *)

(** The caller has its standard descriptors: [p] is its slot. *)
Definition settled (me : Z) (p : option Z) w : Prop := fd_proc_with_stdio me w = (w, p).

Lemma find_proc_sockets n i pid create w sk slot :
  find_proc n i pid create (set_sockets sk w) slot = find_proc n i pid create w slot.
Proof. revert i slot. induction n as [|n IH]; intros i slot; cbn [find_proc]; [done|]. change (procs (set_sockets sk w)) with (procs w). by rewrite IH. Qed.

Lemma ensure_console_sockets pi fd flags w sk :
  ensure_console pi fd flags (set_sockets sk w) = (let '(w, ok) := ensure_console pi fd flags w in (set_sockets sk w, ok)).
Proof.
  unfold ensure_console. change (fd_of (set_sockets sk w)) with (fd_of w). destruct (f_used _); [done|].
  unfold file_ref_alloc. change (file_refs (set_sockets sk w)) with (file_refs w). destruct (_ <? 0); cbn [fst snd]; [done|]. by destruct (_ =? 0).
Qed.

Lemma ensure_stdio_sockets pi w sk : fd_ensure_stdio pi (set_sockets sk w) = set_sockets sk (fd_ensure_stdio pi w).
Proof.
  unfold fd_ensure_stdio. rewrite ensure_console_sockets. destruct (ensure_console pi 0 0 w) as [w1 [|]]; cbn [negb]; [|done].
  rewrite ensure_console_sockets. destruct (ensure_console pi 1 _ w1) as [w2 [|]]; cbn [negb]; [|done].
  rewrite ensure_console_sockets. by destruct (ensure_console pi 2 _ w2).
Qed.

Lemma settled_sockets me p w sk : settled me p w -> settled me p (set_sockets sk w).
Proof.
  unfold settled, fd_proc_with_stdio, fd_proc_for_pid. rewrite find_proc_sockets. destruct (find_proc 64 0 me true w None) as [[i|] [j|]].
  1, 2: rewrite ensure_stdio_sockets; intros [= E <-]; by rewrite E.
  - change (procs (set_sockets sk w)) with (procs w). change (set_procs ?f (set_sockets sk w)) with (set_sockets sk (set_procs f w)).
    rewrite !ensure_stdio_sockets. intros [= E <-]. by rewrite E.
  - by intros [= <-].
Qed.

(** What polling does not change. *)
Definition only_sockets w w' : Prop := exists sk, w' = set_sockets sk w.

#[export] Instance only_sockets_refl : Reflexive only_sockets.
Proof. intros w. exists (sockets w). by destruct w. Qed.

#[export] Instance only_sockets_trans : Transitive only_sockets.
Proof. intros w1 w2 w3 [sk1 ->] [sk2 ->]. by exists sk2. Qed.

(** [level] falls from an event poll to those that it watches. *)
Definition levelled (p : option Z) (level : Z -> nat) w : Prop :=
  forall id x q we, in_range id EDGE_MAX_EPOLLS = true -> ep_used (epolls w id) = true -> x ∈ ep_watch (epolls w id) ->
    fd_get p (w_fd x) w = Some (q, we) -> f_kind we = FD_EPOLL -> (level (f_obj we) < level id)%nat.

Lemma watch_ready_returns rec p l w w0 :
  (forall x q we w', x ∈ l -> only_sockets w0 w' -> fd_get p (w_fd x) w0 = Some (q, we) ->
     exists w'' rev, rec we (Z.land (w_events x) 0x7fff) w' = Some (w'', rev) /\ only_sockets w0 w'') ->
  only_sockets w0 w -> exists w' r, watch_ready rec p l w = Some (w', r) /\ only_sockets w0 w'.
Proof.
  revert w. induction l as [|x l IH]; intros w Hrec Hw; cbn [watch_ready]; [by exists w, false|].
  assert (forall w1, only_sockets w0 w1 -> exists w' r, watch_ready rec p l w1 = Some (w', r) /\ only_sockets w0 w') as Hrest.
  { intros w1 Hw1. apply IH; [|done]. intros y q we w2 Hy. apply Hrec, elem_of_cons. by right. }
  assert (fd_get p (w_fd x) w = fd_get p (w_fd x) w0) as -> by (by destruct Hw as [sk ->]).
  destruct (fd_get p (w_fd x) w0) as [[q we]|] eqn:Eg; [|by apply Hrest].
  destruct (Hrec x q we w ltac:(apply elem_of_cons; by left) Hw Eg) as (w1 & rev & -> & Hw1). destruct (flag rev _); [by exists w1, true | by apply Hrest].
Qed.

Lemma poll_S n x e events w sg :
  poll_fd_revents (S n) x (Some e) events w sg =
    match (if flag events (Z.lor LINUX_POLLIN LINUX_POLLPRI) then poll_in (fun we ev w => poll_fd_revents n x (Some we) ev w sg) x e w sg else Some (w, 0)) with
    | None => None
    | Some (w, rev) => Some (w, Z.lor rev (bits (flag events LINUX_POLLOUT) (poll_out e w)))
    end.
Proof. done. Qed.

(** A descriptor that is not that of an event poll. *)
Lemma poll_in_flat rec x e w sg : f_kind e <> FD_EPOLL -> exists w' rev, poll_in rec x e w sg = Some (w', rev) /\ only_sockets w w'.
Proof.
  intros Hk. unfold poll_in. destruct (f_kind e); try done; try by eexists _, _. destruct (in_range _ _); [|by eexists _, _].
  destruct (socket_in _ _) as [sk rev]. eexists _, _. split; [done|]. by exists sk.
Qed.

Lemma poll_levelled n x p level w0 sg : settled (x_me x) p w0 -> levelled p level w0 -> forall e events w,
  only_sockets w0 w -> (f_kind e = FD_EPOLL -> level (f_obj e) < n)%nat ->
  exists w' rev, poll_fd_revents (S n) x (Some e) events w sg = Some (w', rev) /\ only_sockets w0 w'.
Proof.
  intros Hs Hlv. induction n as [|n IH]; intros e events w Hw Hn; rewrite poll_S; (destruct (flag events _); [|by eexists _, _]);
    (destruct (decide (f_kind e = FD_EPOLL)) as [Hk|Hk];
     [|match goal with |- context [poll_in ?rec x e w sg] => destruct (poll_in_flat rec x e w sg Hk) as (w' & rev & -> & Hw') end;
       eexists _, _; split; [done | by etrans]]).
  - specialize (Hn Hk). lia.
  - unfold poll_in. rewrite Hk. destruct (negb (in_range _ _) || negb (ep_used _)) eqn:Eu; [by eexists _, _|].
    apply orb_false_iff in Eu as [E1%negb_false_iff E2%negb_false_iff]. assert (settled (x_me x) p w) as Hsw by (destruct Hw as [sk ->]; by apply settled_sockets).
    rewrite Hsw. assert (epolls w = epolls w0) as Eep by (by destruct Hw as [sk ->]). rewrite Eep in *.
    destruct (watch_ready_returns (fun we ev w => poll_fd_revents (S n) x (Some we) ev w sg) p (ep_watch (epolls w0 (f_obj e))) w w0) as (w' & r & E & Hw'); [|done|].
    + intros a q we w' Ha Hw' Hg. apply IH; [done|]. intros Hke. specialize (Hlv (f_obj e) a q we E1 E2 Ha Hg Hke). specialize (Hn Hk). lia.
    + rewrite E. by eexists _, _.
Qed.

(** The watch does not end the search: its descriptor is closed, or is not ready however
    deep one looks. *)
Definition quiet (x : poll_env) (p : option Z) (sg : signals) w (y : epoll_watch) : Prop :=
  forall q ye, fd_get p (w_fd y) w = Some (q, ye) -> forall n w', only_sockets w w' ->
    match poll_fd_revents n x (Some ye) (Z.land (w_events y) 0x7fff) w' sg with
    | None => True
    | Some (w'', rev) =>
        flag rev (Z.lor (Z.lor (Z.lor (Z.lor LINUX_POLLIN LINUX_POLLPRI) LINUX_POLLOUT) LINUX_POLLERR) LINUX_POLLHUP) = false /\ only_sockets w w''
    end.

(** Every event poll of [C] asks for one of [C], after watches that are quiet. *)
Definition cyclic (x : poll_env) (p : option Z) (sg : signals) (C : Z -> Prop) w : Prop :=
  forall id, C id -> in_range id EDGE_MAX_EPOLLS = true /\ ep_used (epolls w id) = true /\
    exists pre y l q we, ep_watch (epolls w id) = pre ++ y :: l /\ Forall (quiet x p sg w) pre /\
      fd_get p (w_fd y) w = Some (q, we) /\ f_kind we = FD_EPOLL /\ C (f_obj we) /\
      flag (Z.land (w_events y) 0x7fff) (Z.lor LINUX_POLLIN LINUX_POLLPRI) = true.

Lemma watch_ready_passes n x p sg w0 y q we l pre w : only_sockets w0 w -> Forall (quiet x p sg w0) pre ->
  fd_get p (w_fd y) w0 = Some (q, we) -> (forall w, only_sockets w0 w -> poll_fd_revents n x (Some we) (Z.land (w_events y) 0x7fff) w sg = None) ->
  watch_ready (fun we ev w => poll_fd_revents n x (Some we) ev w sg) p (pre ++ y :: l) w = None.
Proof.
  intros Hw Hq Hg Hn. revert w Hw. induction Hq as [|z pre Hz _ IH]; intros w Hw; cbn [watch_ready app].
  - assert (fd_get p (w_fd y) w = fd_get p (w_fd y) w0) as -> by (by destruct Hw as [sk ->]). by rewrite Hg, Hn.
  - assert (fd_get p (w_fd z) w = fd_get p (w_fd z) w0) as -> by (by destruct Hw as [sk ->]).
    destruct (fd_get p (w_fd z) w0) as [[q' ze]|] eqn:Eg; [|by apply IH]. specialize (Hz q' ze Eg n w Hw).
    destruct (poll_fd_revents n x (Some ze) _ w sg) as [[w'' rev]|]; [|done]. destruct Hz as [-> Hw'']. by apply IH.
Qed.

Lemma poll_cyclic n x p C w0 sg : settled (x_me x) p w0 -> cyclic x p sg C w0 -> forall e events w, only_sockets w0 w ->
  f_kind e = FD_EPOLL -> C (f_obj e) -> flag events (Z.lor LINUX_POLLIN LINUX_POLLPRI) = true -> poll_fd_revents n x (Some e) events w sg = None.
Proof.
  intros Hs Hcy. induction n as [|n IH]; intros e events w Hw Hk Hin Hev; [done|]. rewrite poll_S, Hev. unfold poll_in. rewrite Hk.
  destruct (Hcy _ Hin) as (Hr & Hu & pre & y & l & q & we & E & Hq & Hg & Hkw & Hcw & Hew).
  assert (settled (x_me x) p w) as Hsw by (destruct Hw as [sk ->]; by apply settled_sockets).
  assert (epolls w = epolls w0) as Eep by (by destruct Hw as [sk ->]). rewrite Eep, Hr, Hu. cbn [negb orb]. rewrite Hsw, Eep, E.
  rewrite (watch_ready_passes n x p sg w0 y q we l pre w Hw Hq Hg); [done|]. intros w1 Hw1. by apply IH.
Qed.

(** C31: an event poll can watch another; the search for one that is ready has a
    result when there is no cycle of them, whatever their number, within as many
    levels as they have. From event polls each of which asks for the readiness of one of
    them, with no watch before it that is ready, there is none, however deep the
    search goes. *)
Theorem nested_polls_end_without_cycle x p w sg (Hs : settled (x_me x) p w) :
  (forall level n e events, levelled p level w -> (f_kind e = FD_EPOLL -> level (f_obj e) < n)%nat ->
    exists w' rev, poll_fd_revents (S n) x (Some e) events w sg = Some (w', rev) /\ only_sockets w w') /\
  (forall C n e events, cyclic x p sg C w -> f_kind e = FD_EPOLL -> C (f_obj e) -> flag events (Z.lor LINUX_POLLIN LINUX_POLLPRI) = true ->
    poll_fd_revents n x (Some e) events w sg = None).
Proof.
  split.
  - intros level n e events Hl Hn. by apply (poll_levelled n x p level w sg Hs Hl e events w).
  - intros C n e events Hc Hk He Hev. by apply (poll_cyclic n x p C w sg Hs Hc e events w).
Qed.

(** ** Sleeping *)

(** A sleep that ends without an error has taken its time. *)
Lemma sleep_takes_time x start_us ms w sg w' sg' :
  0 <= ms -> ms * 1000 < 2 ^ 64 -> 0 <= start_us <= mono (x_clock x) -> mono (x_clock x) < 2 ^ 64 ->
  sleep_turn x start_us ms w sg = (w', sg', Done 0) -> ms * 1000 <= mono (x_clock x) - start_us.
Proof.
  intros Hms Hov Hst Hnow. unfold sleep_turn. rewrite !u64_small by lia. destruct (Z.leb_spec (ms * 1000) (mono (x_clock x) - start_us)); [done|].
  destruct (signal_pending_interrupt _ _) as [[sg1 [|]]|]; [by intros [=] | | by intros [=]]. by destruct (zombie x).
Qed.

Lemma clock_nanosleep_takes_time clock flags_u rem_u target w sg w' sg' :
  clock_nanosleep_turn clock flags_u rem_u target w sg = (w', sg', Done 0) -> target <= mono clock.
Proof.
  unfold clock_nanosleep_turn. destruct (Z.leb_spec target (mono clock)); [done|].
  destruct (signal_pending_interrupt _ _) as [[sg1 [|]]|]; [|by intros [=] | by intros [=]]. destruct (negb _ && _); [|by intros [=]].
  by destruct (copy_to_user _ _ _).
Qed.

(** [nanosleep] drops the part below a millisecond: up to that it does not sleep
    at all, which [clock_nanosleep] does. *)
Lemma nanosleep_drops_fraction req_u m nsec :
  req_u <> 0 -> copy_from_user m req_u 16 = Some (le_bytes 8 0 ++ le_bytes 8 nsec) -> 0 <= nsec < 1000000 -> do_sys_nanosleep req_u m = Finish 0.
Proof.
  intros Hr Hc Hn. unfold do_sys_nanosleep. destruct (Z.eqb_spec req_u 0); [done|]. rewrite Hc.
  assert (timespec_at 0 (le_bytes 8 0 ++ le_bytes 8 nsec) = (0, nsec)) as ->.
  { unfold timespec_at, timeval_at. change (take 8 (drop 0 (le_bytes 8 0 ++ le_bytes 8 nsec))) with (le_bytes 8 0).
    change (take 8 (drop (0 + 8) (le_bytes 8 0 ++ le_bytes 8 nsec))) with (take 8 (le_bytes 8 nsec)).
    rewrite firstn_all2 by (by rewrite length_le_bytes). rewrite (le_val_bytes 8 nsec) by (change (8 * Z.of_nat 8) with 64; lia).
    unfold i64. rewrite (Z.mod_small (nsec + 2 ^ 63)) by lia. change (le_val (le_bytes 8 0)) with 0. f_equal; lia. }
  cbn [fst snd]. destruct (Z.ltb_spec nsec 0); [lia|]. rewrite (Z.div_small nsec) by lia. done.
Qed.
End poll.

(** ** Runs *)

#[local] Existing Instance no_sockets.
#[local] Instance no_socket_poll : sock_poll unit := {| socket_in := fun _ s => (s, 0); socket_out := fun _ _ => 0; lwip_stack_poll := fun s => s |}.

Definition demo_env : poll_env :=
  {| x_me := 5; x_uid := 0; x_clock := {| mono := 0; real := 0 |}; keyboard_haschar := false; mouse_pending := false; x_task := fun _ => None |}.

(** Process 5 reads an empty pipe, which poll does not report. *)
Lemma poll_tells_who_waits_witness :
  exists w1 rev, poll_fd_revents 1 demo_env (Some (io_fd 3)) LINUX_POLLIN w1 zero_sigs = Some (w1, rev) /\
    (blocked Wait <-> record_len (f_kind (io_fd 3)) <= 1 /\ (rev = 0 \/ half_line (io_fd 3) w1 /\ rev = LINUX_POLLIN)).
Proof.
  destruct (poll_tells_who_waits 0 demo_env io_demo (fd_proc_with_stdio 5 io_demo).1 zero_sigs 3 (fd_proc_with_stdio 5 io_demo).2 0 (io_fd 3)) as [Hr _].
  - apply surjective_pairing.
  - vm_compute. reflexivity.
  - vm_compute. repeat split; discriminate.
  - destruct (Hr (fun _ w sg => (w, sg, Done 0)) 0x4000 1 (fd_proc_with_stdio 5 io_demo).1 zero_sigs Wait) as (rev & E & H).
    + vm_compute. reflexivity.
    + discriminate.
    + lia.
    + vm_compute. reflexivity.
    + exists (fd_proc_with_stdio 5 io_demo).1, rev. split; [exact E | exact H].
Defined.

(** Two event polls in the descriptors 3 and 4; the first watches the second, then
    also the second the first. *)
Definition event_mem : CString.mem := store_bytes (fun _ => 0) 0x2000 (le_bytes 4 LINUX_EPOLLIN).
Definition two_polls : fdw unit :=
  fst (do_fd_call 5 (Epoll_create1 0) (fst (do_fd_call 5 (Epoll_create1 0) (fd_init tt event_mem)))).
Definition chained : fdw unit := fst (do_sys_epoll_ctl 5 3 LINUX_EPOLL_CTL_ADD 4 0x2000 two_polls).
Definition crossed : fdw unit := fst (do_sys_epoll_ctl 5 4 LINUX_EPOLL_CTL_ADD 3 0x2000 chained).

Definition watch_of (fd : Z) : epoll_watch := {| w_fd := fd; w_events := LINUX_EPOLLIN; w_data := 0 |}.

Lemma chained_watches id : ep_watch (epolls chained id) = if id =? 0 then [watch_of 4] else [].
Proof.
  destruct (Z.eqb_spec id 0) as [->|Hne]; [vm_compute; reflexivity|]. vm_compute. destruct id as [|p|p]; [done| |done]. by destruct p.
Qed.

Lemma chained_fds :
  settled 5 (Some 0) chained /\ fd_get (Some 0) 4 chained = Some (0, fd_of chained 0 4) /\ f_obj (fd_of chained 0 4) = 1 /\ f_obj (fd_of chained 0 3) = 0.
Proof. split; [vm_compute; reflexivity|]. split; [vm_compute; reflexivity|]. split; vm_compute; reflexivity. Qed.

Lemma crossed_cyclic : cyclic demo_env (Some 0) zero_sigs (fun id => id = 0 \/ id = 1) crossed.
Proof.
  intros id [-> | ->]; (split; [vm_compute; reflexivity|]); (split; [vm_compute; reflexivity|]).
  - exists [], (watch_of 4), [], 0, (fd_of crossed 0 4). split; [vm_compute; reflexivity|]. split; [constructor|]. split; [vm_compute; reflexivity|]. split; [vm_compute; reflexivity|].
    split; [right; vm_compute; reflexivity | reflexivity].
  - exists [], (watch_of 3), [], 0, (fd_of crossed 0 3). split; [vm_compute; reflexivity|]. split; [constructor|]. split; [vm_compute; reflexivity|]. split; [vm_compute; reflexivity|].
    split; [left; vm_compute; reflexivity | reflexivity].
Qed.

Lemma levelled_pair p (w : fdw unit) a q we :
  (forall id, ep_watch (epolls w id) = if id =? 0 then [a] else []) -> fd_get p (w_fd a) w = Some (q, we) -> f_obj we = 1 ->
  levelled p (fun id => if id =? 0 then 1%nat else 0%nat) w.
Proof.
  intros Hw Hg Ho id x q' we' _ _ Hx Hg' _. rewrite Hw in Hx. destruct (Z.eqb_spec id 0); [|by apply elem_of_nil in Hx].
  apply elem_of_cons in Hx as [->|Hx]; [|by apply elem_of_nil in Hx]. rewrite Hg in Hg'. injection Hg' as <- <-. rewrite Ho. cbn. lia.
Qed.

Lemma chained_levelled : levelled (Some 0) (fun id => if id =? 0 then 1%nat else 0%nat) chained.
Proof. destruct chained_fds as (_ & Eg & E4 & _). exact (levelled_pair _ chained (watch_of 4) 0 _ chained_watches Eg E4). Qed.

Lemma nested_polls_end_without_cycle_witness :
  (exists w' rev, poll_fd_revents 3 demo_env (Some (fd_of chained 0 3)) LINUX_POLLIN chained zero_sigs = Some (w', rev)) /\
  forall n, poll_fd_revents n demo_env (Some (fd_of crossed 0 3)) LINUX_POLLIN crossed zero_sigs = None.
Proof.
  destruct chained_fds as (Hs & _ & _ & E3). split.
  - destruct (nested_polls_end_without_cycle demo_env (Some 0) chained zero_sigs Hs) as [H _].
    destruct (H _ 2%nat (fd_of chained 0 3) LINUX_POLLIN chained_levelled) as (w' & rev & E & _); [|exists w', rev; exact E].
    intros _. rewrite E3. cbn. lia.
  - intros n. assert (settled 5 (Some 0) crossed) as Hs' by (vm_compute; reflexivity).
    destruct (nested_polls_end_without_cycle demo_env (Some 0) crossed zero_sigs Hs') as [_ H].
    apply (H _ n _ LINUX_POLLIN crossed_cyclic).
    + vm_compute. reflexivity.
    + left. vm_compute. reflexivity.
    + vm_compute. reflexivity.
Defined.
