(* ===== verification/Vma.v ===== *)
(** * User address spaces ([src/src/sys/syscall.c])

    The program break, the table of mapped ranges of a process and the calls that
    change them: [do_sys_brk], [do_sys_mmap], [do_sys_munmap], [do_sys_mprotect].
    The page tables are read through [rd64] and [cr3] ([Uaccess.v]); an error is
    the negated error number. *)

From S2P Require Import Prelude CString Block Path Rng Process Uaccess Vfs Ring Fd FdOps.

Definition PROCESS_USER_VMA_MAX : Z := 256.
Definition USER_HEAP_BASE_ADDR : Z := 0x20400000.
Definition LINUX_MAP_ANON : Z := 0x20.
Definition LINUX_MAP_FIXED : Z := 0x10.
Definition LINUX_PROT_WRITE : Z := 0x2.
Definition EIO : Z := 5.

Implicit Types (t : memory) (v : user_vma) (l : list user_vma).

Definition with_brk (b : Z) t : memory :=
  {| user_stack_top := user_stack_top t; user_heap_base := user_heap_base t; user_brk := b;
     user_heap_limit := user_heap_limit t; user_mmap_next := user_mmap_next t;
     user_vma_count := user_vma_count t; user_vmas := user_vmas t; fs_base := fs_base t |}.
Definition with_vmas (l : list user_vma) t : memory :=
  {| user_stack_top := user_stack_top t; user_heap_base := user_heap_base t; user_brk := user_brk t;
     user_heap_limit := user_heap_limit t; user_mmap_next := user_mmap_next t;
     user_vma_count := user_vma_count t; user_vmas := l; fs_base := fs_base t |}.
Definition with_summary (count next : Z) t : memory :=
  {| user_stack_top := user_stack_top t; user_heap_base := user_heap_base t; user_brk := user_brk t;
     user_heap_limit := user_heap_limit t; user_mmap_next := next;
     user_vma_count := count; user_vmas := user_vmas t; fs_base := fs_base t |}.

(** [v->end > v->start] *)
Definition vma_used v : bool := vma_start v <? vma_end v.

(** ** The table of ranges *)

Definition user_vma_find_free_slot l : Z :=
  scan (fun i => match l !! Z.to_nat i with Some v => negb (vma_used v) | None => false end) 0 256.

Definition user_vma_recount t : Z := u16 (zlength (filter (fun v => vma_used v = true) (user_vmas t))).

Definition hint_step (limit hint : Z) v : Z :=
  if negb (vma_used v) then hint
  else if (vma_start v <? USER_HEAP_BASE_ADDR) || (limit <=? vma_start v) then hint
  else if vma_start v <? hint then vma_start v else hint.

Definition user_vma_refresh_mmap_hint t : Z :=
  fold_left (hint_step (user_heap_limit t)) (user_vmas t) (user_heap_limit t).

(** Both summaries of a changed table. *)
Definition refreshed t : memory := with_summary (user_vma_recount t) (user_vma_refresh_mmap_hint t) t.

Definition user_vma_record (start stop prot flags : Z) t : memory * Z :=
  if stop <=? start then (t, -1)
  else
    let slot := user_vma_find_free_slot (user_vmas t) in
    if slot <? 0 then (t, -1)
    else
      let v := {| vma_start := start; vma_end := stop; vma_prot := prot; vma_flags := flags |} in
      (refreshed (with_vmas (<[Z.to_nat slot := v]> (user_vmas t)) t), 0).

(** One look at the table: whether a range overlaps the window, and the lowest
    start of those that do. *)
Definition gap_step (floor top base stop : Z) (acc : bool * Z) v : bool * Z :=
  if negb (vma_used v) then acc
  else if (vma_end v <=? floor) || (top <=? vma_start v) then acc
  else if (stop <=? vma_start v) || (vma_end v <=? base) then acc
  else (true, if vma_start v <? acc.2 then vma_start v else acc.2).

Fixpoint gap_loop (n : nat) (cursor floor top need : Z) l : Z :=
  match n with
  | O => 0
  | S n =>
      if (cursor <=? floor) || (cursor - floor <? need) then 0
      else
        let base := Z.land (cursor - need) (Z.lnot (PAGE_SIZE - 1)) in
        let base := if base <? floor then floor else base in
        let stop := u64 (base + need) in
        if (top <? stop) || (stop <? base) then 0
        else
          match fold_left (gap_step floor top base stop) l (false, cursor) with
          | (false, _) => base
          | (true, next) => if cursor <=? next then 0 else gap_loop n next floor top need l
          end
  end.

Definition user_vma_find_topdown_gap (floor top need : Z) l : Z :=
  if need =? 0 then 0
  else if (top <=? floor) || (top - floor <? need) then 0
  else gap_loop (Z.to_nat (PROCESS_USER_VMA_MAX + 4)) top floor top need l.

Definition vma_range (start stop : Z) v : user_vma :=
  {| vma_start := start; vma_end := stop; vma_prot := vma_prot v; vma_flags := vma_flags v |}.

(** Whether a range is cut by the range to remove. *)
Definition vma_hit (start stop : Z) v : bool := vma_used v && negb ((stop <=? vma_start v) || (vma_end v <=? start)).

(** What is left of the range at index [i], which is cut. *)
Definition cut (start stop : Z) (i : nat) v l : list user_vma :=
  if (start <=? vma_start v) && (vma_end v <=? stop) then <[i := zero_vma]> l
  else if start <=? vma_start v then <[i := vma_range stop (vma_end v) v]> l
  else if vma_end v <=? stop then <[i := vma_range (vma_start v) start v]> l
  else
    let slot := user_vma_find_free_slot l in
    let l := if 0 <=? slot then <[Z.to_nat slot := vma_range stop (vma_end v) v]> l else l in
    <[i := vma_range (vma_start v) start v]> l.

(** The loop over the table, from the index [i] on. *)
Fixpoint remove_loop (n i : nat) (start stop : Z) l (changed : bool) : list user_vma * bool :=
  match n with
  | O => (l, changed)
  | S n =>
      match l !! i with
      | Some v =>
          if vma_hit start stop v then remove_loop n (S i) start stop (cut start stop i v l) true
          else remove_loop n (S i) start stop l changed
      | None => (l, changed)
      end
  end.

Definition user_vma_remove_range (start stop : Z) t : memory * bool :=
  if stop <=? start then (t, false)
  else
    let '(l, changed) := remove_loop (Z.to_nat PROCESS_USER_VMA_MAX) 0 start stop (user_vmas t) false in
    (if changed then refreshed (with_vmas l t) else t, changed).

(** ** The calls *)

Section calls.
Context (rd64 : Z -> Z) (cr3 : Z).

Definition pte (va : Z) : Z := user_pte_flags rd64 cr3 va.

(** A page of the user; writable when [prot] asks for it. *)
Definition page_ok (prot va : Z) : bool :=
  flag (pte va) PTE_PRESENT && flag (pte va) PTE_USER && (negb (flag prot LINUX_PROT_WRITE) || flag (pte va) PTE_WRITE).

Definition do_sys_brk (addr : Z) t : memory * Z :=
  if addr =? 0 then (t, user_brk t)
  else
    let req := page_align_up addr in
    if (req <? user_heap_base t) || (user_heap_limit t <? req) then (t, user_brk t)
    else if (user_brk t <? req) &&
            existsb (fun v => vma_used v && negb ((vma_end v <=? user_brk t) || (req <=? vma_start v))) (user_vmas t)
    then (t, user_brk t)
    else if (user_heap_base t <? req) && negb (page_ok LINUX_PROT_WRITE (req - 1)) then (t, user_brk t)
    else (with_brk req t, req).

(** The [n] pages from [v] on. *)
Fixpoint pages_ok (n : nat) (v prot : Z) : bool :=
  match n with
  | O => true
  | S n => if page_ok prot v then pages_ok n (u64 (v + PAGE_SIZE)) prot else false
  end.

(** How many pages [for (v = base; v < end; v += PAGE_SIZE)] looks at. *)
Definition page_count (base stop : Z) : nat := Z.to_nat ((stop - base + PAGE_SIZE - 1) / PAGE_SIZE).

(** The loop that zeroes [need] bytes, a page at a time. *)
Fixpoint zero_loop (n : nat) (z base need : Z) (m : CString.mem) : CString.mem * bool :=
  match n with
  | O => (m, true)
  | S n =>
      let zn := if PAGE_SIZE <? need - z then PAGE_SIZE else need - z in
      match copy_to_user m (u64 (base + z)) (replicate (Z.to_nat zn) 0) with
      | None => (m, false)
      | Some m => zero_loop n (z + zn) base need m
      end
  end.

Section file.
Context {SK W D : Type} `{!sock_layer SK} `{!filesystems W} `{!machine W} `{!driver D}.
Implicit Types (w : fdw SK) (s : vfs W D).

(** The loop that fills the range with the bytes of a file; 0, or an error. *)
Fixpoint file_loop (n : nat) (done len base off : Z) (e : edge_fd) (m : CString.mem) s : CString.mem * vfs W D * Z :=
  match n with
  | O => (m, s, 0)
  | S n =>
      if len <=? done then (m, s, 0)
      else
        let k := if 4096 <? len - done then 4096 else len - done in
        match f_sb e with
        | Some sb =>
            if negb (sb_has sb OP_READ) then (m, s, 0)
            else
              let '(wd, r, bs) := op_read sb (f_inode e) (u32 (off + done)) (u32 k) (world s) in
              let s := with_world s wd in
              if r <? 0 then (m, s, - EIO)
              else if r =? 0 then (m, s, 0)
              else
                match copy_to_user m (u64 (base + done)) (take (Z.to_nat r) bs) with
                | None => (m, s, - EFAULT)
                | Some m => if r <? k then (m, s, 0) else file_loop n (done + r) len base off e m s
                end
        | None => (m, s, 0)
        end
  end.

(** The contents of the new range; [inl] is the value returned at once, [None] a
    fault of [vfs_dev_mmap]. *)
Definition fill (me base need len flags fd off : Z) w s : option (fdw SK * vfs W D * (Z + unit)) :=
  let zero w := let '(m, ok) := zero_loop (page_count 0 need) 0 base need (umem w) in (set_umem m w, ok) in
  if flag flags LINUX_MAP_ANON then
    let '(w, ok) := zero w in Some (w, s, if ok then inr tt else inl (- EFAULT))
  else
    let '(w, p) := fd_proc_for_pid me false w in
    match fd_get p (i32 fd) w with
    | None => Some (w, s, inl (- EBADF))
    | Some (_, e) =>
        if negb (test (f_kind e = FD_VFS)) then Some (w, s, inl (- EBADF))
        else if is_kind (f_inode e) VFS_INODE_CHR || is_kind (f_inode e) VFS_INODE_BLK then
          match vfs_dev_mmap (f_path e) s with
          | None => None
          | Some (s, (r, maddr, _)) => Some (w, s, inl (if r =? 0 then maddr else - ENOSYS))
          end
        else
          let '(w, ok) := zero w in
          if negb ok then Some (w, s, inl (- EFAULT))
          else
            let '(m, s, r) := file_loop (page_count 0 len) 0 len base off e (umem w) s in
            Some (set_umem m w, s, if r <? 0 then inl r else inr tt)
    end.

(** The address of a mapping: [inr] an error. *)
Definition mmap_base (addr need flags : Z) t : Z + Z :=
  if flag flags LINUX_MAP_FIXED then
    if flag addr (PAGE_SIZE - 1) then inr (- EINVAL) else inl addr
  else
    let floor := page_align_up (user_brk t) in
    let floor := if floor <? user_heap_base t then user_heap_base t else floor in
    let floor := if floor <? USER_HEAP_BASE_ADDR then USER_HEAP_BASE_ADDR else floor in
    let base := user_vma_find_topdown_gap floor (user_heap_limit t) need (user_vmas t) in
    if base =? 0 then inr (- ENOMEM) else inl base.

Definition do_sys_mmap (me addr len prot flags fd off : Z) t w s : option (memory * fdw SK * vfs W D * Z) :=
  if len =? 0 then Some (t, w, s, - EINVAL)
  else if (2 ^ 63 <=? fd) && negb (flag flags LINUX_MAP_ANON) then Some (t, w, s, - EINVAL)
  else if negb (flag flags LINUX_MAP_ANON) && flag off (PAGE_SIZE - 1) then Some (t, w, s, - EINVAL)
  else
    let need := page_align_up len in
    if need =? 0 then Some (t, w, s, - EINVAL)
    else
      match mmap_base addr need flags t with
      | inr r => Some (t, w, s, r)
      | inl base =>
          let stop := u64 (base + need) in
          if (base <? USER_MIN_ADDR) || (stop <? base) || (USER_MAX_ADDR <? stop) then Some (t, w, s, - ENOMEM)
          else
            let '(t, _) := user_vma_remove_range base stop t in
            if negb (pages_ok (page_count base stop) base prot) then Some (t, w, s, - ENOMEM)
            else
              match fill me base need len flags fd off w s with
              | None => None
              | Some (w, s, inl r) => Some (t, w, s, r)
              | Some (w, s, inr _) =>
                  if (USER_HEAP_BASE_ADDR <=? base) && (base <? user_heap_limit t) then
                    let '(t, r) := user_vma_record base stop (u32 prot) (u32 flags) t in
                    Some (t, w, s, if r <? 0 then - ENOMEM else base)
                  else Some (t, w, s, base)
              end
      end.
End file.

Definition do_sys_munmap (addr len : Z) t : memory * Z :=
  if len =? 0 then (t, 0)
  else if flag addr (PAGE_SIZE - 1) then (t, - EINVAL)
  else
    let need := page_align_up len in
    if need =? 0 then (t, - EINVAL)
    else if (USER_HEAP_BASE_ADDR <=? addr) && (addr <? user_heap_limit t) then
      (fst (user_vma_remove_range addr (u64 (addr + need)) t), 0)
    else (t, 0).

Definition do_sys_mprotect (addr len prot : Z) : Z :=
  if flag addr (PAGE_SIZE - 1) then - EINVAL
  else if len =? 0 then 0
  else
    let stop := page_align_up (u64 (addr + len)) in
    if stop <? addr then - EINVAL
    else if pages_ok (page_count addr stop) addr prot then 0 else - ENOMEM.
End calls.
