(* ===== verification/VmaInv.v ===== *)
(** * Mapped ranges stay disjoint and free ranges are found

    What the table of ranges of a process means: the addresses it maps, with
    their protection. Removing a range takes away exactly its addresses, the
    search for room finds the highest room there is, and an anonymous mapping
    adds exactly its addresses. *)

From S2P Require Import Prelude CString Block Path Rng Process Uaccess Vfs FatVfs VfsInv Ring Fd FdOps FdCalls Vma.

Implicit Types (t : memory) (v : user_vma) (l : list user_vma).

Definition vma_covers v (a : Z) : Prop := vma_start v <= a < vma_end v.
Definition vma_attr v : Z * Z := (vma_prot v, vma_flags v).

(** The address [a] is mapped, with this protection and these flags. *)
Definition mapped l (a : Z) (x : Z * Z) : Prop := exists v, v ∈ l /\ vma_covers v a /\ vma_attr v = x.

(** No address is in two ranges. *)
Definition vmas_disjoint l : Prop :=
  forall i j v w a, i <> j -> l !! i = Some v -> l !! j = Some w -> vma_covers v a -> ~ vma_covers w a.

Definition has_free l : Prop := exists i v, l !! i = Some v /\ vma_used v = false.

(** The range to remove lies inside a range, with something left on both sides. *)
Definition splits (start stop : Z) v : Prop := vma_start v < start /\ stop < vma_end v.

Lemma covers_used v a : vma_covers v a -> vma_used v = true.
Proof. unfold vma_covers, vma_used. intros H. ztest; lia. Qed.

Lemma mapped_lookup l a x : mapped l a x <-> exists i v, l !! i = Some v /\ vma_covers v a /\ vma_attr v = x.
Proof.
  unfold mapped. split.
  - intros (v & Hv & H). apply list_elem_of_lookup in Hv as [i Hi]. eauto.
  - intros (i & v & Hi & H). exists v. split; [by eapply list_elem_of_lookup_2 | done].
Qed.

Lemma hit_iff start stop v :
  start < stop -> vma_hit start stop v = true <-> exists a, vma_covers v a /\ start <= a < stop.
Proof.
  intros Hs. unfold vma_hit, vma_used, vma_covers. split.
  - intros H. apply andb_true_iff in H as [H1 H2]. apply negb_true_iff, orb_false_iff in H2 as [H2 H3].
    exists (Z.max start (vma_start v)). lia.
  - intros (a & Ha & Hr). repeat (ztest; cbn [andb orb negb]); done || lia.
Qed.

(** ** Free places of the table *)

Lemma find_free_spec l :
  length l = 256%nat ->
  let r := user_vma_find_free_slot l in
  (r < 0 /\ ~ has_free l) \/ (exists i v, r = Z.of_nat i /\ l !! i = Some v /\ vma_used v = false).
Proof.
  intros Hl r. subst r. unfold user_vma_find_free_slot. set (p := fun i : Z => _).
  destruct (decide (scan p 0 256 = -1)) as [E|E].
  - left. rewrite E. split; [lia|]. intros (i & v & Hi & Hu). apply lookup_lt_Some in Hi as Hlt.
    pose proof (scan_miss p 0 256 (Z.of_nat i) ltac:(lia) E ltac:(lia)) as Hm. unfold p in Hm.
    by rewrite Nat2Z.id, Hi, Hu in Hm.
  - right. destruct (scan_hit p 0 256 _ ltac:(lia) eq_refl E) as (H1 & H2 & _). unfold p in H2 at 1.
    set (r := scan p 0 256) in *. destruct (l !! Z.to_nat r) as [v|] eqn:Ev; [|done].
    exists (Z.to_nat r), v. split; [lia|]. split; [done|]. by apply negb_true_iff.
Qed.

(** ** Cutting one range *)

Section cut.
Context (start stop : Z) (Hrange : start < stop).

(** A list whose entries come from [l], or are parts of [v] outside of the range
    to remove. *)
Lemma cut_lookup i v l j w :
  length l = 256%nat -> l !! i = Some v -> vma_hit start stop v = true -> cut start stop i v l !! j = Some w ->
  (j <> i /\ l !! j = Some w) \/
  (forall a, vma_covers w a -> vma_covers v a /\ ~ start <= a < stop /\ vma_attr w = vma_attr v /\
     (j <> i -> stop <= a /\ splits start stop v /\ j = Z.to_nat (user_vma_find_free_slot l) /\
                exists u, l !! j = Some u /\ vma_used u = false) /\
     (j = i -> splits start stop v -> a < start)).
Proof.
  intros Hlen Hv Hhit. pose proof (proj1 (hit_iff start stop v Hrange) Hhit) as (b & Hb & Hbr). unfold vma_covers in Hb.
  unfold cut, splits. pose proof (find_free_spec l Hlen) as Hf. cbv zeta in Hf.
  destruct (Z.leb_spec start (vma_start v)) as [L1|L1], (Z.leb_spec (vma_end v) stop) as [L2|L2]; cbn [andb];
    intros Hj; apply list_lookup_insert_Some in Hj as [(<- & <- & _) | [Hne Hj]].
  all: try (right; intros a Ha; clear Hf; unfold vma_covers, vma_attr, zero_vma, vma_range in *; cbn [vma_start vma_end vma_prot vma_flags] in *; split_all; (done || lia)).
  all: try (left; by split).
  destruct (Z.leb_spec 0 (user_vma_find_free_slot l)) as [L|L]; [|by left].
  apply list_lookup_insert_Some in Hj as [(Hj & <- & _) | [_ Hj]]; [|by left].
  destruct Hf as [[? _]|(k & u & Hk & Hu & Huu)]; [lia|]. right. intros a Ha.
  unfold vma_covers, vma_attr, vma_range in *; cbn [vma_start vma_end vma_prot vma_flags] in *. split; [lia|]. split; [lia|]. split; [done|].
  split; [|intros ->; done]. intros _. split; [lia|]. split; [lia|]. split; [done|]. exists u. split; [|done]. rewrite <- Hj, Hk, Nat2Z.id. exact Hu.
Qed.

Lemma cut_length i v l : length (cut start stop i v l) = length l.
Proof. unfold cut. repeat case_match; by rewrite ?length_insert. Qed.

Section hit.
Context (i : nat) (v : user_vma) (l : list user_vma).
Context (Hlen : length l = 256%nat) (Hdis : vmas_disjoint l) (Hv : l !! i = Some v) (Hhit : vma_hit start stop v = true).

Lemma cut_disjoint : vmas_disjoint (cut start stop i v l).
Proof.
  intros j k w u a Hjk Hj Hk Hw Hu.
  destruct (cut_lookup i v l j w Hlen Hv Hhit Hj) as [[Hji Hj']|Hj'], (cut_lookup i v l k u Hlen Hv Hhit Hk) as [[Hki Hk']|Hk'].
  - by destruct (Hdis j k w u a Hjk Hj' Hk' Hw).
  - destruct (Hk' a Hu) as (Hva & _). by destruct (Hdis j i w v a Hji Hj' Hv Hw).
  - destruct (Hj' a Hw) as (Hva & _). by destruct (Hdis k i u v a Hki Hk' Hv Hu).
  - destruct (Hj' a Hw) as (_ & _ & _ & Hj1 & Hj2), (Hk' a Hu) as (_ & _ & _ & Hk1 & Hk2).
    destruct (decide (j = i)) as [->|Hji], (decide (k = i)) as [->|Hki]; [done|..].
    + destruct (Hk1 Hki) as (? & Hsp & _). specialize (Hj2 eq_refl Hsp). lia.
    + destruct (Hj1 Hji) as (? & Hsp & _). specialize (Hk2 eq_refl Hsp). lia.
    + destruct (Hj1 Hji) as (_ & _ & -> & _), (Hk1 Hki) as (_ & _ & -> & _). done.
Qed.

Lemma cut_sound a x : mapped (cut start stop i v l) a x -> mapped l a x /\ ~ (vma_covers v a /\ start <= a < stop).
Proof.
  rewrite !mapped_lookup. intros (j & w & Hj & Hw & <-).
  destruct (cut_lookup i v l j w Hlen Hv Hhit Hj) as [[Hji Hj']|Hj'].
  - split; [by eauto|]. intros [Hva _]. by destruct (Hdis j i w v a Hji Hj' Hv Hw).
  - destruct (Hj' a Hw) as (Hva & Hr & -> & _). split; [by eauto | tauto].
Qed.

Lemma cut_other k u : k <> i -> l !! k = Some u -> vma_used u = true -> cut start stop i v l !! k = Some u.
Proof.
  intros Hki Hk Hu. unfold cut. repeat case_match; rewrite list_lookup_insert_ne by done; try done.
  destruct (find_free_spec l Hlen) as [[Hn _]|(j & w & Hj & Hw & Hwu)]; [lia|]. rewrite Hj, Nat2Z.id.
  rewrite list_lookup_insert_ne; [done | congruence].
Qed.

Lemma cut_complete a x :
  has_free l \/ ~ splits start stop v -> mapped l a x -> ~ (vma_covers v a /\ start <= a < stop) ->
  mapped (cut start stop i v l) a x.
Proof.
  rewrite !mapped_lookup. intros Hroom (k & u & Hk & Hu & <-) Hout.
  destruct (decide (k = i)) as [->|Hki].
  2: { exists k, u. split; [|done]. apply cut_other; [done..|]. by eapply covers_used. }
  rewrite Hv in Hk. injection Hk as <-. assert (i < length l)%nat as Hi by (by eapply lookup_lt_Some).
  unfold splits, vma_covers in *. unfold cut.
  destruct (Z.leb_spec start (vma_start v)), (Z.leb_spec (vma_end v) stop); cbn [andb]; [lia|..].
  - exists i. eexists. rewrite list_lookup_insert_eq by done. split; [done|]. unfold vma_range; cbn. split; [lia | done].
  - exists i. eexists. rewrite list_lookup_insert_eq by done. split; [done|]. unfold vma_range; cbn. split; [lia | done].
  - destruct (find_free_spec l Hlen) as [[Hn Hno]|(j & w & Hj & Hw & Hwu)]; [tauto|]. rewrite Hj, Nat2Z.id.
    destruct (Z.leb_spec 0 (Z.of_nat j)); [|lia].
    assert (j <> i) as Hji by (intros ->; rewrite Hv in Hw; injection Hw as <-; apply (covers_used _ a) in Hu; congruence).
    destruct (Z_lt_ge_dec a start) as [La|La].
    + exists i. eexists. rewrite list_lookup_insert_eq by (by rewrite length_insert). split; [done|]. unfold vma_range; cbn. split; [lia | done].
    + exists j. eexists. rewrite list_lookup_insert_ne by done. rewrite list_lookup_insert_eq by (by eapply lookup_lt_Some).
      split; [done|]. unfold vma_range; cbn. split; [lia | done].
Qed.

(** After a cut nothing is left to split, or as many places are free. *)
Lemma cut_room :
  ~ splits start stop v -> has_free l -> has_free (cut start stop i v l).
Proof.
  intros Hns (k & u & Hk & Hu). assert (k <> i) as Hki.
  { intros ->. rewrite Hv in Hk. injection Hk as <-. unfold vma_hit in Hhit. by rewrite Hu in Hhit. }
  exists k, u. split; [|done]. unfold cut, splits in *.
  destruct (Z.leb_spec start (vma_start v)), (Z.leb_spec (vma_end v) stop); cbn [andb]; try lia;
    by rewrite list_lookup_insert_ne.
Qed.
End hit.
End cut.

(** ** Removing a range *)

(** There is a place for the second part of a range that is split. *)
Definition room (start stop : Z) (i : nat) l : Prop :=
  has_free l \/ forall j w, (i <= j)%nat -> l !! j = Some w -> vma_hit start stop w = true -> ~ splits start stop w.

Section remove.
Context (start stop : Z) (Hrange : start < stop).

Lemma hit_apart l i j v w :
  vmas_disjoint l -> l !! i = Some v -> l !! j = Some w -> j <> i -> splits start stop v -> vma_hit start stop w = false.
Proof.
  intros Hdis Hv Hw Hji [H1 H2]. destruct (vma_hit start stop w) eqn:Eh; [|done].
  apply hit_iff in Eh as (a & Ha & Hr); [|done]. destruct (Hdis j i w v a Hji Hw Hv Ha). unfold vma_covers. lia.
Qed.

Lemma cut_entries l i v j w :
  length l = 256%nat -> l !! i = Some v -> vma_hit start stop v = true -> cut start stop i v l !! j = Some w ->
  (j <> i /\ l !! j = Some w) \/ vma_hit start stop w = false.
Proof.
  intros Hlen Hv Hh Hj. destruct (cut_lookup start stop Hrange i v l j w Hlen Hv Hh Hj) as [?|H]; [by left|]. right.
  destruct (vma_hit start stop w) eqn:Eh; [|done]. apply hit_iff in Eh as (a & Ha & Hr); [|done].
  destruct (H a Ha) as (_ & ? & _). tauto.
Qed.

Lemma room_cut l i v :
  length l = 256%nat -> vmas_disjoint l -> l !! i = Some v -> vma_hit start stop v = true ->
  room start stop i l -> room start stop (S i) (cut start stop i v l).
Proof.
  intros Hlen Hdis Hv Hh Hroom. destruct (decide (vma_start v < start /\ stop < vma_end v)) as [Hs|Hs].
  - right. intros j w Hj Hw Hhw. destruct (cut_entries l i v j w Hlen Hv Hh Hw) as [[Hji Hw']|]; [|congruence].
    rewrite (hit_apart l i j v w) in Hhw by done. done.
  - destruct Hroom as [Hf|Hn]; [left; by apply (cut_room start stop i v l)|]. right. intros j w Hj Hw Hhw.
    destruct (cut_entries l i v j w Hlen Hv Hh Hw) as [[Hji Hw']|]; [|congruence]. apply (Hn j); [lia | done..].
Qed.

Lemma remove_loop_spec n i l c l' c' :
  length l = 256%nat -> vmas_disjoint l -> (i + n = 256)%nat ->
  (forall j w, (j < i)%nat -> l !! j = Some w -> vma_hit start stop w = false) ->
  remove_loop n i start stop l c = (l', c') ->
  length l' = 256%nat /\ vmas_disjoint l' /\ (forall j w, l' !! j = Some w -> vma_hit start stop w = false) /\
  (forall a x, mapped l' a x -> mapped l a x) /\
  (room start stop i l -> forall a x, mapped l a x -> ~ start <= a < stop -> mapped l' a x) /\
  (c' = false -> l' = l).
Proof.
  revert i l c. induction n as [|n IH]; intros i l c Hlen Hdis Hn Hpre; cbn [remove_loop].
  { intros [= <- <-]. split; [done|]. split; [done|]. split; [|by split_all].
    intros j w Hj. apply (Hpre j); [|done]. apply lookup_lt_Some in Hj. lia. }
  destruct (l !! i) as [v|] eqn:Hv; [|apply lookup_ge_None in Hv; lia].
  destruct (vma_hit start stop v) eqn:Hh.
  - intros E. assert (c' = true) as Ec.
    { clear -E. revert E. generalize (cut start stop i v l) (S i). induction n as [|n IHn]; intros l0 k; cbn [remove_loop]; [congruence|].
      repeat case_match; intros ?; [by eapply IHn | by eapply IHn | congruence]. }
    apply IH in E as (H1 & H2 & H3 & H4 & H5 & _); [|by rewrite cut_length | by apply (cut_disjoint start stop Hrange) | lia|].
    2: { intros j w Hj Hw. destruct (cut_entries l i v j w Hlen Hv Hh Hw) as [[Hji Hw']|]; [|done]. apply (Hpre j); [lia | done]. }
    split; [done|]. split; [done|]. split; [done|]. split; [|split; [|congruence]].
    + intros a x Hm. by apply H4, (cut_sound start stop Hrange i v l Hlen Hdis Hv Hh) in Hm as [? _].
    + intros Hroom a x Hm Hout. apply H5; [by apply room_cut | | done].
      apply cut_complete; [done..| | done | tauto].
      destruct Hroom as [?|Hns]; [by left | right; by apply (Hns i)].
  - intros E. apply IH in E as (H1 & H2 & H3 & H4 & H5 & H6); [|done|done|lia|].
    2: { intros j w Hj Hw. destruct (decide (j = i)) as [->|]; [congruence|]. apply (Hpre j); [lia | done]. }
    split; [done|]. split; [done|]. split; [done|]. split; [done|]. split; [|done].
    intros Hroom. apply H5. destruct Hroom as [?|Hns]; [by left|]. right. intros j w Hj. apply Hns. lia.
Qed.
End remove.

(** ** The state of an address space *)

(** The table has its size and its ranges are disjoint, its length is counted,
    and the break is between the heap's ends. *)
Definition space_ok t : Prop :=
  length (user_vmas t) = 256%nat /\ vmas_disjoint (user_vmas t) /\ user_vma_count t = user_vma_recount t /\
  user_heap_base t <= user_brk t <= user_heap_limit t.

Lemma refreshed_vmas t : user_vmas (refreshed t) = user_vmas t.
Proof. done. Qed.

Lemma remove_range_spec start stop t t' c :
  space_ok t -> start < stop -> user_vma_remove_range start stop t = (t', c) ->
  space_ok t' /\ (forall a x, mapped (user_vmas t') a x -> mapped (user_vmas t) a x /\ ~ start <= a < stop) /\
  (room start stop 0 (user_vmas t) -> forall a x, mapped (user_vmas t) a x -> ~ start <= a < stop -> mapped (user_vmas t') a x) /\
  user_brk t' = user_brk t /\ user_heap_base t' = user_heap_base t /\ user_heap_limit t' = user_heap_limit t /\
  (c = false -> t' = t).
Proof.
  intros (Hlen & Hdis & Hc & Hb) Hs. unfold user_vma_remove_range. destruct (Z.leb_spec stop start); [lia|].
  destruct (remove_loop _ _ _ _ _ _) as [l c'] eqn:El. intros [= <- <-].
  apply (remove_loop_spec start stop Hs) in El as (H1 & H2 & H3 & H4 & H5 & H6); [|done|done|done|lia].
  assert (user_vmas (if c' then refreshed (with_vmas l t) else t) = l) as El.
  { destruct c'; [done|]. cbn. by rewrite H6. }
  split.
  { split; [by rewrite El|]. split; [by rewrite El|]. by destruct c'. }
  rewrite El. split.
  - intros a x Hm. split; [auto|]. intros Ha. apply mapped_lookup in Hm as (j & w & Hw & Hca & _).
    pose proof (H3 j w Hw) as Hh. assert (vma_hit start stop w = true) as Ht; [apply hit_iff; [done | by exists a] | congruence].
  - split; [done|]. destruct c'; by split_all.
Qed.

Lemma record_spec start stop p f t t' r :
  space_ok t -> start < stop -> (forall a x, start <= a < stop -> ~ mapped (user_vmas t) a x) ->
  user_vma_record start stop p f t = (t', r) ->
  (t' = t /\ r = -1 /\ ~ has_free (user_vmas t)) \/
  (r = 0 /\ space_ok t' /\ user_brk t' = user_brk t /\
   forall a x, mapped (user_vmas t') a x <-> mapped (user_vmas t) a x \/ start <= a < stop /\ x = (p, f)).
Proof.
  intros (Hlen & Hdis & Hc & Hb) Hs Hout. unfold user_vma_record. destruct (Z.leb_spec stop start); [lia|].
  destruct (find_free_spec (user_vmas t) Hlen) as [[Hn Hno]|(i & u & Hi & Hu & Huu)].
  { destruct (Z.ltb_spec (user_vma_find_free_slot (user_vmas t)) 0); [|lia]. intros [= <- <-]. by left. }
  rewrite Hi, Nat2Z.id. destruct (Z.ltb_spec (Z.of_nat i) 0); [lia|]. intros [= <- <-]. right. split; [done|].
  set (v := {| vma_start := start; vma_end := stop; vma_prot := p; vma_flags := f |}).
  assert (i < length (user_vmas t))%nat as Hilt by (by eapply lookup_lt_Some).
  assert (forall j w a, j <> i -> user_vmas t !! j = Some w -> vma_covers w a -> ~ vma_covers v a) as Hv.
  { intros j w a Hj Hw Ha Hva. apply (Hout a (vma_attr w)); [exact Hva|]. apply mapped_lookup. eauto. }
  split; [|split; [done|]].
  - split; [cbn; by rewrite length_insert|]. split; [|by split]. cbn [refreshed with_summary with_vmas user_vmas].
    intros j k w w' a Hjk Hj Hk Hw Hw'. apply list_lookup_insert_Some in Hj, Hk.
    destruct Hj as [(<- & <- & _)|[Hj1 Hj]], Hk as [(<- & <- & _)|[Hk1 Hk]]; [done|..].
    + by destruct (Hv k w' a (not_eq_sym Hk1) Hk Hw').
    + by destruct (Hv j w a (not_eq_sym Hj1) Hj Hw).
    + by destruct (Hdis j k w w' a Hjk Hj Hk Hw).
  - intros a x. cbn [refreshed with_summary with_vmas user_vmas]. rewrite !mapped_lookup. split.
    + intros (j & w & Hj & Hw & <-). apply list_lookup_insert_Some in Hj as [(<- & <- & _)|[Hj1 Hj]]; [by right | left; eauto].
    + intros [(j & w & Hj & Hw & <-)|[Ha ->]].
      * exists j, w. split; [|done]. rewrite list_lookup_insert_ne; [done|]. intros <-. rewrite Hu in Hj. injection Hj as <-.
        apply covers_used in Hw. congruence.
      * exists i, v. split; [by apply list_lookup_insert_eq | done].
Qed.

Lemma record_bounds start stop p f t t' r :
  user_vma_record start stop p f t = (t', r) -> user_heap_base t' = user_heap_base t /\ user_heap_limit t' = user_heap_limit t.
Proof. unfold user_vma_record. repeat case_match; intros [= <- <-]; by split. Qed.

(** ** The search for room *)

(** The window of [need] bytes at [b] overlaps no range. *)
Definition window_free l (b need : Z) : Prop :=
  forall v, v ∈ l -> vma_used v = true -> b + need <= vma_start v \/ vma_end v <= b.

(** A free place for [need] bytes between [floor] and [top]. *)
Definition gap l (floor top need b : Z) : Prop :=
  b mod PAGE_SIZE = 0 /\ floor <= b /\ b + need <= top /\ window_free l b need.

Section gap.
Context (floor top need : Z).
Context (Hfloor : 0 < floor) (Halign : floor mod PAGE_SIZE = 0) (Hneed : 0 < need) (Htop : top < 2 ^ 63).

(** A range in the way of the window. *)
Definition in_way (b : Z) v : Prop := vma_used v = true /\ vma_start v < b + need /\ b < vma_end v.

Lemma scan_ranges l b acc :
  floor <= b -> b + need <= top ->
  let r := fold_left (gap_step floor top b (b + need)) l acc in
  (r = acc /\ window_free l b need) \/
  (r.1 = true /\ r.2 <= acc.2 /\ (r.2 = acc.2 \/ exists v, v ∈ l /\ in_way b v /\ vma_start v = r.2) /\
   exists v, v ∈ l /\ in_way b v /\ r.2 <= vma_start v).
Proof.
  intros Hb Ht r. subst r. revert acc. induction l as [|v l IH]; intros acc; cbn [fold_left].
  { left. split; [done|]. intros v Hv. by apply elem_of_nil in Hv. }
  assert (gap_step floor top b (b + need) acc v = acc /\ ~ in_way b v \/
          gap_step floor top b (b + need) acc v = (true, if vma_start v <? acc.2 then vma_start v else acc.2) /\ in_way b v)
    as [[-> Hv]|[-> Hv]].
  { unfold gap_step, in_way. destruct (vma_used v) eqn:Eu; cbn [negb]; [|left; split; [done | intros [[=] _]]].
    unfold vma_used in Eu. repeat (ztest; cbn [orb]);
      try (left; split; [done | intros (_ & ? & ?); lia]); (right; split; [done | split; [done | lia]]). }
  - destruct (IH acc) as [[-> Hf]|(H1 & H2 & H3 & (u & Hu & Hw & Hs))].
    + left. split; [done|]. intros w Hw Hu. apply elem_of_cons in Hw as [->|Hw]; [|by apply Hf].
      destruct (decide (b + need <= vma_start v)); [by left|]. destruct (decide (vma_end v <= b)); [by right|].
      destruct Hv. unfold in_way. split; [done | lia].
    + right. split; [done|]. split; [done|]. split.
      * destruct H3 as [?|(x & ? & ?)]; [by left | right; exists x; rewrite elem_of_cons; auto].
      * exists u. rewrite elem_of_cons. auto.
  - set (acc' := (true, if vma_start v <? acc.2 then vma_start v else acc.2)).
    assert (acc'.2 <= acc.2 /\ acc'.2 <= vma_start v /\ (acc'.2 = acc.2 \/ acc'.2 = vma_start v)) as (A1 & A2 & A3)
      by (cbn; ztest; lia).
    right. destruct (IH acc') as [[-> Hf]|(H1 & H2 & H3 & (u & Hu & Hw & Hs))].
    + split; [done|]. split; [done|]. split; [|exists v; rewrite elem_of_cons; auto].
      destruct A3 as [?|A3]; [by left | right; exists v; rewrite elem_of_cons; auto].
    + split; [done|]. split; [lia|]. split; [|exists u; rewrite elem_of_cons; auto].
      destruct H3 as [->|(x & ? & ?)]; [|right; exists x; rewrite elem_of_cons; auto].
      destruct A3 as [?|A3]; [by left | right; exists v; rewrite elem_of_cons; auto].
Qed.

(** How many ranges start below the cursor. *)
Definition below_cursor (cursor : Z) l : nat := length (filter (fun v => vma_start v < cursor) l).

Lemma below_decreases l c c' v : v ∈ l -> vma_start v < c -> c' <= vma_start v -> (below_cursor c' l < below_cursor c l)%nat.
Proof.
  intros Hv Hc Hc'. induction l as [|u l IH]; [by apply elem_of_nil in Hv|].
  assert (forall k, (below_cursor c' k <= below_cursor c k)%nat) as Hmono.
  { clear -Hc Hc'. intros k. unfold below_cursor. induction k as [|u k IH]; [done|]. rewrite !filter_cons. repeat case_decide; cbn [length]; lia. }
  unfold below_cursor in *. rewrite !filter_cons. apply elem_of_cons in Hv as [<-|Hv].
  - destruct (decide (vma_start v < c')); [lia|]. destruct (decide (vma_start v < c)); [|lia]. cbn [length]. specialize (Hmono l). lia.
  - specialize (IH Hv). repeat case_decide; cbn [length]; lia.
Qed.

(** The highest aligned window that ends at the cursor or before. *)
Lemma align_down_window c b : b mod PAGE_SIZE = 0 -> b + need <= c -> b <= Z.land (c - need) (Z.lnot (PAGE_SIZE - 1)).
Proof.
  intros Hb Hc. change (PAGE_SIZE - 1) with 4095. rewrite align_down_eq. unfold PAGE_SIZE in *.
  pose proof (Z.div_mod (c - need) 4096 ltac:(lia)). pose proof (Z.div_mod b 4096 ltac:(lia)).
  assert (b / 4096 <= (c - need) / 4096) by (apply Z.div_le_mono; lia). lia.
Qed.

Lemma gap_loop_spec n cursor l :
  (below_cursor cursor l < n)%nat -> cursor <= top -> (forall b, gap l floor top need b -> b + need <= cursor) ->
  let r := gap_loop n cursor floor top need l in
  (r = 0 /\ forall b, ~ gap l floor top need b) \/ (gap l floor top need r /\ forall b, gap l floor top need b -> b <= r).
Proof.
  revert cursor. induction n as [|n IH]; intros cursor Hn Hc Hall; [lia|]. cbn [gap_loop].
  destruct (Z.leb_spec cursor floor); cbn [orb].
  { left. split; [done|]. intros b Hg. pose proof (Hall b Hg). destruct Hg as (_ & ? & _). lia. }
  destruct (Z.ltb_spec (cursor - floor) need).
  { left. split; [done|]. intros b Hg. pose proof (Hall b Hg). destruct Hg as (_ & ? & _). lia. }
  pose proof (align_down_window cursor floor Halign ltac:(lia)) as Hbf.
  set (base := Z.land _ _) in *. assert (base mod PAGE_SIZE = 0 /\ base + need <= cursor) as [Hba Hbc].
  { subst base. change (PAGE_SIZE - 1) with 4095. rewrite align_down_eq. unfold PAGE_SIZE.
    pose proof (Z.mod_pos_bound (cursor - need) 4096 ltac:(lia)). split; [|lia].
    rewrite Zminus_mod, Zmod_mod, Z.sub_diag. done. }
  destruct (Z.ltb_spec base floor); [lia|]. rewrite u64_small by lia.
  destruct (Z.ltb_spec top (base + need)); [lia|]. destruct (Z.ltb_spec (base + need) base); [lia|]. cbn [orb].
  assert (forall b, gap l floor top need b -> b <= base) as Hmax.
  { intros b Hg. apply align_down_window; [apply Hg | by apply Hall]. }
  pose proof (scan_ranges l base (false, cursor) ltac:(lia) ltac:(lia)) as Hscan. cbv zeta in Hscan.
  destruct (fold_left _ _ _) as [over next]. cbn [fst snd] in Hscan.
  destruct Hscan as [[[= -> ->] Hfree]|(-> & Hle & Hnext & (v & Hv & Hway & Hvs))].
  { right. split; [|exact Hmax]. split; [done|]. split; [done|]. by split. }
  destruct Hway as (Hu & Hw1 & Hw2). destruct (Z.leb_spec cursor next); [lia|].
  destruct Hnext as [->|(u & Huin & (Huu & Hu1 & Hu2) & Hus)]; [lia|].
  apply IH; [|lia|].
  - pose proof (below_decreases l cursor next v Hv ltac:(lia) Hvs). lia.
  - intros b Hg. pose proof (Hmax b Hg). destruct Hg as (_ & _ & _ & Hf). destruct (Hf u Huin Huu); lia.
Qed.
End gap.

Lemma find_gap_spec floor top need l :
  0 < floor -> floor mod PAGE_SIZE = 0 -> 0 < need -> top < 2 ^ 63 -> (length l <= 256)%nat ->
  let r := user_vma_find_topdown_gap floor top need l in
  (r = 0 /\ forall b, ~ gap l floor top need b) \/ (gap l floor top need r /\ forall b, gap l floor top need b -> b <= r).
Proof.
  intros Hf Ha Hn Ht Hl. cbv zeta. unfold user_vma_find_topdown_gap. destruct (Z.eqb_spec need 0); [lia|].
  destruct (Z.leb_spec top floor); cbn [orb].
  { left. split; [done|]. intros b (_ & ? & ? & _). lia. }
  destruct (Z.ltb_spec (top - floor) need).
  { left. split; [done|]. intros b (_ & ? & ? & _). lia. }
  apply gap_loop_spec; [done..| | lia | by intros b (_ & _ & ? & _)].
  change (Z.to_nat (PROCESS_USER_VMA_MAX + 4)) with 260%nat. unfold below_cursor.
  pose proof (length_filter (fun v => vma_start v < top) l). lia.
Qed.

(** ** The calls *)

(** The ranges of a process stay off its heap. *)
Definition heap_apart t : Prop := forall a x, user_heap_base t <= a < user_brk t -> ~ mapped (user_vmas t) a x.






(** The lowest address of a mapping that is not at a fixed address. *)
Definition mmap_floor t : Z := Z.max USER_HEAP_BASE_ADDR (Z.max (user_heap_base t) (page_align_up (user_brk t))).

Lemma mmap_base_spec addr need flags t :
  flag flags LINUX_MAP_FIXED = false -> length (user_vmas t) = 256%nat -> user_heap_base t mod PAGE_SIZE = 0 ->
  user_heap_limit t <= USER_MAX_ADDR -> 0 < need ->
  (mmap_base addr need flags t = inr (- ENOMEM) /\ forall b, ~ gap (user_vmas t) (mmap_floor t) (user_heap_limit t) need b) \/
  exists b, mmap_base addr need flags t = inl b /\ gap (user_vmas t) (mmap_floor t) (user_heap_limit t) need b /\
    forall b', gap (user_vmas t) (mmap_floor t) (user_heap_limit t) need b' -> b' <= b.
Proof.
  intros Hf Hlen Ha Hl Hn. unfold mmap_base. rewrite Hf.
  set (floor := if _ <? USER_HEAP_BASE_ADDR then _ else _).
  assert (floor = mmap_floor t) as -> by (subst floor; unfold mmap_floor; destruct (Z.ltb_spec (page_align_up (user_brk t)) (user_heap_base t)); ztest; lia).
  assert (0 < mmap_floor t) as Hpos by (unfold mmap_floor, USER_HEAP_BASE_ADDR; lia).
  assert (mmap_floor t mod PAGE_SIZE = 0) as Hal.
  { unfold mmap_floor. pose proof (page_align_up_range (user_brk t)) as [_ Hp].
    destruct (Z.max_spec (user_heap_base t) (page_align_up (user_brk t))) as [[_ ->]|[_ ->]];
      [destruct (Z.max_spec USER_HEAP_BASE_ADDR (page_align_up (user_brk t))) as [[_ ->]|[_ ->]]
      |destruct (Z.max_spec USER_HEAP_BASE_ADDR (user_heap_base t)) as [[_ ->]|[_ ->]]]; done. }
  destruct (find_gap_spec (mmap_floor t) (user_heap_limit t) need (user_vmas t)) as [[-> Hno]|[Hg Hmax]];
    [done..|unfold USER_MAX_ADDR in Hl; lia|lia|by left|].
  right. exists (user_vma_find_topdown_gap (mmap_floor t) (user_heap_limit t) need (user_vmas t)).
  destruct (Z.eqb_spec (user_vma_find_topdown_gap (mmap_floor t) (user_heap_limit t) need (user_vmas t)) 0) as [E|]; [|done].
  rewrite E in Hg. destruct Hg as (_ & ? & _). lia.
Qed.



Section calls.
Context (rd64 : Z -> Z) (cr3 : Z).


Section file.
Context {SK W D : Type} `{!sock_layer SK} `{!filesystems W} `{!machine W} `{!driver D}.
Implicit Types (w : fdw SK) (s : vfs W D).

End file.
End calls.

(** C33: [munmap] takes away exactly the addresses of its range: what was mapped
    elsewhere stays, with its protection. Only when the range lies inside one
    mapping and the table is full, something more is lost. *)
Theorem munmap_exact addr len t t' r
    (Hok : space_ok t) (Hlen : 0 < len < 2 ^ 63) (Haddr : USER_HEAP_BASE_ADDR <= addr < user_heap_limit t)
    (Hlim : user_heap_limit t <= USER_MAX_ADDR) (Halign : flag addr (PAGE_SIZE - 1) = false)
    (Hrun : do_sys_munmap addr len t = (t', r)) :
  let stop := addr + page_align_up len in
  r = 0 /\ space_ok t' /\ user_brk t' = user_brk t /\
  (forall a x, mapped (user_vmas t') a x -> mapped (user_vmas t) a x /\ ~ addr <= a < stop) /\
  (has_free (user_vmas t) \/ (forall v, v ∈ user_vmas t -> ~ splits addr stop v) ->
   forall a x, mapped (user_vmas t) a x -> ~ addr <= a < stop -> mapped (user_vmas t') a x).
Proof.
  intros stop. revert Hrun. unfold do_sys_munmap. destruct (Z.eqb_spec len 0); [lia|]. rewrite Halign.
  pose proof (page_align_up_bounds len ltac:(lia) ltac:(lia)) as [Hp _].
  destruct (Z.eqb_spec (page_align_up len) 0); [lia|].
  replace ((USER_HEAP_BASE_ADDR <=? addr) && (addr <? user_heap_limit t)) with true by (repeat (ztest; cbn [andb]); done || lia).
  unfold USER_MAX_ADDR, USER_HEAP_BASE_ADDR in *. rewrite u64_small by lia. fold stop.
  destruct (user_vma_remove_range addr stop t) as [t1 c] eqn:Er. intros [= <- <-].
  apply remove_range_spec in Er as (H1 & H2 & H3 & H4 & _); [|done | subst stop; lia].
  split; [done|]. split; [done|]. split; [done|]. split; [done|]. intros Hroom. apply H3.
  destruct Hroom as [?|Hns]; [by left|]. right. intros j v _ Hv _. apply Hns. by eapply list_elem_of_lookup_2.
Qed.

(** ** Runs of the calls *)

Section run.
Context (rd64 : Z -> Z) (cr3 : Z).
Context {SK W D : Type} `{!sock_layer SK} `{!filesystems W} `{!machine W} `{!driver D}.

(** One call of the process; [fixed] allows mappings at fixed addresses. *)
Inductive space_step (fixed : bool) t : memory -> Prop :=
  | step_brk addr t' r : do_sys_brk rd64 cr3 addr t = (t', r) -> 0 <= addr < 2 ^ 64 -> space_step fixed t t'
  | step_mmap me addr len prot flags fd off (w w' : fdw SK) (s s' : vfs W D) t' r :
      do_sys_mmap rd64 cr3 me addr len prot flags fd off t w s = Some (t', w', s', r) ->
      0 <= addr < 2 ^ 64 -> (flag flags LINUX_MAP_FIXED = true -> fixed = true) -> space_step fixed t t'
  | step_munmap addr len t' r : do_sys_munmap addr len t = (t', r) -> 0 <= addr < 2 ^ 64 -> space_step fixed t t'.

(** The bounds that the calls leave alone. *)
Definition arena_ok t : Prop := user_heap_base t mod PAGE_SIZE = 0 /\ 0 <= user_heap_base t /\ user_heap_limit t <= USER_MAX_ADDR.

Lemma remove_range_any start stop t t' c :
  space_ok t -> user_vma_remove_range start stop t = (t', c) ->
  space_ok t' /\ user_heap_base t' = user_heap_base t /\ user_heap_limit t' = user_heap_limit t /\ user_brk t' = user_brk t /\
  (forall a x, mapped (user_vmas t') a x -> mapped (user_vmas t) a x).
Proof.
  intros Hok E. destruct (Z_lt_ge_dec start stop) as [Hs|Hs].
  - apply remove_range_spec in E as (H1 & H2 & _ & H4 & H5 & H6 & _); [|done..]. split_all; try done. intros a x Hm. by apply H2.
  - revert E. unfold user_vma_remove_range. destruct (Z.leb_spec stop start); [|lia]. intros [= <- <-]. by split_all.
Qed.

Lemma brk_step_ok addr t t' r :
  0 <= addr < 2 ^ 64 -> space_ok t -> arena_ok t -> do_sys_brk rd64 cr3 addr t = (t', r) ->
  space_ok t' /\ arena_ok t' /\ (heap_apart t -> heap_apart t').
Proof.
  intros Ha Hok Har. unfold do_sys_brk. destruct (addr =? 0); [intros [= <- <-]; by split_all|].
  set (req := page_align_up addr). destruct (_ || _) eqn:E1; [intros [= <- <-]; by split_all|].
  destruct (_ && existsb _ _) eqn:E2; [intros [= <- <-]; by split_all|].
  destruct (_ && negb _); [intros [= <- <-]; by split_all|]. intros [= <- <-].
  apply orb_false_iff in E1 as [E1 E1']. pose proof Hok as (Hlen & Hdis & Hc & Hb).
  split; [split; [done|]; split; [done|]; split; [done|]; cbn; lia|]. split; [done|]. intros Hap a x Hr (v & Hv & Hcov & Hx).
  cbn [with_brk user_heap_base user_brk user_vmas] in *. destruct (Z_lt_ge_dec a (user_brk t)) as [Hl|Hl].
  { apply (Hap a x); [lia|]. exists v. done. }
  destruct (Z.ltb_spec (user_brk t) req); [|lia]. cbn [andb] in E2.
  rewrite <- not_true_iff_false, existsb_exists in E2. apply E2. exists v. split; [by apply list_elem_of_In|].
  rewrite (covers_used v a) by done. unfold vma_covers in Hcov. cbn [andb]. apply negb_true_iff, orb_false_iff. lia.
Qed.

Lemma mmap_base_bounds addr need flags t b :
  space_ok t -> arena_ok t -> 0 < need -> mmap_base addr need flags t = inl b ->
  flag flags LINUX_MAP_FIXED = false -> user_brk t <= b /\ user_heap_base t <= b.
Proof.
  intros Hok (Ha & H0 & Hl) Hn E Hf. pose proof Hok as (Hlen & _ & _ & Hb).
  destruct (mmap_base_spec addr need flags t Hf Hlen Ha Hl Hn) as [[E' _]|(b' & E' & (_ & Hg & _) & _)]; [congruence|].
  assert (b' = b) as -> by congruence. unfold mmap_floor in Hg.
  pose proof (page_align_up_bounds (user_brk t) ltac:(lia) ltac:(unfold USER_MAX_ADDR in *; lia)). lia.
Qed.

Lemma mmap_step_ok fixed me addr len prot flags fd off t (w : fdw SK) (s : vfs W D) t' w' s' r :
  space_ok t -> arena_ok t -> (flag flags LINUX_MAP_FIXED = true -> fixed = true) ->
  do_sys_mmap rd64 cr3 me addr len prot flags fd off t w s = Some (t', w', s', r) ->
  space_ok t' /\ arena_ok t' /\ (fixed = false -> heap_apart t -> heap_apart t').
Proof.
  intros Hok Har Hfx. unfold do_sys_mmap.
  assert (forall t1, t1 = t -> space_ok t1 /\ arena_ok t1 /\ (fixed = false -> heap_apart t -> heap_apart t1)) as Same by (by intros t1 ->).
  destruct (len =? 0); [intros [= <- _ _ _]; by apply Same|]. destruct (_ && _); [intros [= <- _ _ _]; by apply Same|].
  destruct (_ && _); [intros [= <- _ _ _]; by apply Same|]. set (need := page_align_up len).
  destruct (Z.eqb_spec need 0); [intros [= <- _ _ _]; by apply Same|].
  assert (0 < need < 2 ^ 64) as Hneed by (pose proof (page_align_up_range len) as [? _]; lia).
  destruct (mmap_base addr need flags t) as [b|e] eqn:Eb; [|intros [= <- _ _ _]; by apply Same].
  destruct (_ || _) eqn:Erng; [intros [= <- _ _ _]; by apply Same|].
  apply orb_false_iff in Erng as [Er1 Er3]. apply orb_false_iff in Er1 as [Er1 Er2].
  assert (b < u64 (b + need)) as Hlt.
  { destruct (decide (u64 (b + need) = b)) as [E|]; [|lia]. exfalso. unfold u64 in E.
    pose proof (Z.div_mod (b + need) (2 ^ 64) ltac:(lia)) as Hd. rewrite E in Hd.
    assert (0 < (b + need) / 2 ^ 64 < 1) by nia. lia. }
  set (stop := u64 (b + need)) in *.
  destruct (user_vma_remove_range b stop t) as [t1 c] eqn:Er.
  pose proof (remove_range_any _ _ _ _ _ Hok Er) as (Hok1 & Hb1 & Hl1 & Hk1 & Hm1).
  apply remove_range_spec in Er as (_ & Hm & _); [|done..].
  assert (arena_ok t1) as Har1 by (unfold arena_ok; by rewrite Hb1, Hl1).
  assert (fixed = false -> heap_apart t -> heap_apart t1) as Hap1.
  { intros _ Hap a x. rewrite Hb1, Hk1. intros Ha Hx. by apply (Hap a x Ha), Hm1. }
  destruct (negb _); [intros [= <- _ _ _]; by split_all|].
  destruct (fill _ _ _ _ _ _ _ _ _) as [[[w1 s1] [v|u]]|]; [intros [= <- _ _ _]; by split_all | | done].
  destruct (_ && _); [|intros [= <- _ _ _]; by split_all].
  destruct (user_vma_record _ _ _ _ _) as [t2 rr] eqn:Erec. intros [= <- _ _ _].
  destruct (record_bounds _ _ _ _ _ _ _ Erec) as [Hb2 Hl2].
  apply record_spec in Erec as [(-> & _)|(_ & Hok2 & Hk2 & Hm2)]; [by split_all| |done|done|].
  2: { intros a x Ha Hx. by destruct (Hm a x Hx). }
  split; [done|]. split; [unfold arena_ok; by rewrite Hb2, Hl2|]. intros Hff Hap a x. rewrite Hb2, Hk2, Hb1, Hk1.
  intros Ha Hx. apply Hm2 in Hx as [Hx|[Hx _]]; [apply Hm in Hx as [Hx _]; by apply (Hap a x)|].
  assert (flag flags LINUX_MAP_FIXED = false) as Hff' by (destruct (flag flags LINUX_MAP_FIXED); [by rewrite Hfx in Hff|done]).
  pose proof (mmap_base_bounds addr need flags t b Hok Har ltac:(lia) Eb Hff'). lia.
Qed.

(** C12: whatever calls a process makes, its ranges stay disjoint and counted and
    its break inside the heap; and as long as it maps nothing at a fixed address,
    no range ever overlaps the heap. *)
Theorem address_space_always_ok fixed t t'
    (Hrun : rtc (space_step fixed) t t') (Hok : space_ok t) (Har : arena_ok t) (Hap : heap_apart t) :
  space_ok t' /\ (fixed = false -> heap_apart t').
Proof.
  assert (space_ok t' /\ arena_ok t' /\ (fixed = false -> heap_apart t')) as (? & _ & ?); [|done].
  assert (fixed = false -> heap_apart t) as Hap' by done. clear Hap.
  induction Hrun as [t|t t1 t' Hs _ IH]; [by split_all|].
  assert (space_ok t1 /\ arena_ok t1 /\ (fixed = false -> heap_apart t1)) as (H1 & H2 & H3); [|by apply IH].
  destruct Hs as [addr t1 r E Ha|me addr len prot flags fd off w w' s s' t1 r E Ha Hf|addr len t1 r E Ha].
  - apply brk_step_ok in E as (? & ? & ?); [|done..]. split_all; auto.
  - apply (mmap_step_ok fixed) in E as (? & ? & ?); [|done..]. split_all; auto.
  - revert E. unfold do_sys_munmap. destruct (len =? 0); [intros [= <- _]; by split_all|].
    destruct (flag _ _); [intros [= <- _]; by split_all|]. destruct (_ =? 0); [intros [= <- _]; by split_all|].
    destruct (_ && _); [|intros [= <- _]; by split_all]. intros [= <- _].
    destruct (user_vma_remove_range _ _ _) as [t2 c] eqn:Er. apply remove_range_any in Er as (Ho & Hb & Hl & Hk & Hm); [|done].
    cbn [fst]. split; [done|]. split; [unfold arena_ok; by rewrite Hb, Hl|]. intros Hff a x. rewrite Hb, Hk. intros Ha' Hx.
    apply (Hap' Hff a x Ha'), (Hm a x Hx).
Qed.
End run.

(** ** The loop that reads a file *)

(** One turn per page is enough: a turn that is not the last reads a page. *)
Lemma file_loop_enough {W D : Type} `{!filesystems W} n k done len base off e m (s : vfs W D) :
  len - done <= 4096 * Z.of_nat n ->
  file_loop (n + k) done len base off e m s = file_loop n done len base off e m s.
Proof.
  revert done m s. induction n as [|n IH]; intros d m s Hn; cbn [file_loop Nat.add].
  { destruct k; cbn [file_loop]; [done|]. by destruct (Z.leb_spec len d); [|lia]. }
  destruct (Z.leb_spec len d); [done|]. destruct (f_sb e) as [sb|]; [|done]. destruct (negb _); [done|].
  destruct (op_read _ _ _ _ _) as [[wd r] bs]. destruct (r <? 0); [done|]. destruct (r =? 0); [done|].
  destruct (copy_to_user _ _ _) as [m1|]; [|done]. destruct (Z.ltb_spec r (if 4096 <? len - d then 4096 else len - d)) as [|Hr]; [done|].
  apply IH. destruct (Z.ltb_spec 4096 (len - d)); lia.
Qed.

(** ** Runs *)

#[local] Existing Instance no_sockets.
#[local] Existing Instance no_disk.

(** Page tables with one entry everywhere: a page of the user, writable. *)
Definition open_pages : Z -> Z := fun _ => 0x87.

Lemma no_vmas_lookup i v : no_vmas !! i = Some v -> v = zero_vma.
Proof. intros H. by apply lookup_replicate in H as [-> _]. Qed.

Lemma no_vmas_unmapped a x : ~ mapped no_vmas a x.
Proof. intros (v & Hv & Hc & _). apply list_elem_of_lookup in Hv as [i ->%no_vmas_lookup]. unfold vma_covers in Hc. cbn in Hc. lia. Qed.

Lemma fresh_space_ok : space_ok fresh_mem /\ arena_ok fresh_mem /\ heap_apart fresh_mem.
Proof.
  split; [|split].
  - split; [reflexivity|]. split; [|split; [reflexivity | vm_compute; split; discriminate]].
    intros i j v w a _ ->%no_vmas_lookup _ Hc. unfold vma_covers in Hc. cbn in Hc. lia.
  - split; [reflexivity | vm_compute; split; discriminate].
  - intros a x _. apply no_vmas_unmapped.
Qed.

Definition space_run (t : memory) : memory * Z :=
  match do_sys_mmap open_pages 0 5 0 8000 3 0x22 (2 ^ 64 - 1) 0 t (fd_init tt (fun _ => 1)) (demo_vfs (task_of 0)) with
  | Some (t, _, _, r) => (t, r)
  | None => (t, 0)
  end.
Definition space1 : memory := fst (space_run fresh_mem).
Definition space2 : memory := fst (do_sys_munmap 0x223FF000 4096 space1).


(** The upper page is given back. *)
Lemma munmap_exact_witness :
  mapped (user_vmas space2) 0x223FE123 (3, 0x22) /\ ~ mapped (user_vmas space2) 0x223FF123 (3, 0x22).
Proof.
  destruct (do_sys_munmap 0x223FF000 4096 space1) as [t' r] eqn:E.
  assert (space_ok space1) as Hok.
  { unfold space1, space_run. destruct (do_sys_mmap _ _ _ _ _ _ _ _ _ _ _ _) as [[[[t1 w1] s1] r1]|] eqn:Em.
    - pose proof fresh_space_ok as (H1 & H2 & _).
      eapply (mmap_step_ok open_pages 0 false) in Em as (? & _); [done|done|done|discriminate].
    - apply fresh_space_ok. }
  destruct (munmap_exact 0x223FF000 4096 space1 t' r Hok) as (_ & _ & _ & H1 & H2).
  - lia.
  - vm_compute. split; [discriminate | reflexivity].
  - vm_compute. discriminate.
  - reflexivity.
  - exact E.
  - unfold space2. rewrite E. cbn [fst]. split.
    + apply H2; [left; exists 255%nat, zero_vma; split; vm_compute; reflexivity | |].
      * exists (default zero_vma (user_vmas space1 !! 0%nat)). split; [|vm_compute; repeat split; discriminate].
        apply (list_elem_of_lookup_2 _ 0). vm_compute. reflexivity.
      * change (page_align_up 4096) with 4096. lia.
    + intros Hm. apply H1 in Hm as [_ Hm]. apply Hm. change (page_align_up 4096) with 4096. lia.
Defined.

Definition demo_step : memory -> memory -> Prop := space_step open_pages 0 (SK := unit) (W := fatworld unit) (D := unit) false.

Lemma address_space_always_ok_witness : rtc demo_step fresh_mem space2 /\ space_ok space2 /\ heap_apart space2.
Proof.
  assert (rtc demo_step fresh_mem space2) as Hrun.
  { apply rtc_l with space1; [|apply rtc_once].
    - assert (snd (space_run fresh_mem) = 0x223FE000) as Hr by (vm_compute; reflexivity). unfold space1, space_run in *.
      destruct (do_sys_mmap _ _ _ _ _ _ _ _ _ _ _ _) as [[[[t1 w1] s1] r1]|] eqn:Em; [|discriminate].
      eapply step_mmap; [exact Em | lia | discriminate].
    - unfold space2. destruct (do_sys_munmap 0x223FF000 4096 space1) as [t' r] eqn:E. cbn [fst].
      eapply step_munmap; [exact E | lia]. }
  pose proof fresh_space_ok as (H1 & H2 & H3).
  destruct (address_space_always_ok open_pages 0 false fresh_mem space2 Hrun H1 H2 H3) as [H4 H5].
  split; [exact Hrun|]. split; [exact H4 | apply H5; reflexivity].
Defined.

(** With a full table the part above a hole is lost with the hole. *)
Example full_table_loses_upper_part :
  let vma i := {| vma_start := USER_HEAP_BASE_ADDR + 0x4000 * i; vma_end := USER_HEAP_BASE_ADDR + 0x4000 * i + 0x3000;
                  vma_prot := 3; vma_flags := 0x22 |} in
  let t := with_vmas (map vma (seqZ 0 256)) fresh_mem in
  let t' := fst (do_sys_munmap (USER_HEAP_BASE_ADDR + 0x1000) 0x1000 t) in
  existsb (fun v => (vma_start v <=? USER_HEAP_BASE_ADDR + 0x2000) && (USER_HEAP_BASE_ADDR + 0x2000 <? vma_end v)) (user_vmas t) = true /\
  existsb (fun v => (vma_start v <=? USER_HEAP_BASE_ADDR + 0x2000) && (USER_HEAP_BASE_ADDR + 0x2000 <? vma_end v)) (user_vmas t') = false.
Proof. vm_compute. split; reflexivity. Qed.

(** A length that runs past the end of the address space removes nothing, and
    the call succeeds. *)
Example munmap_wraps : do_sys_munmap 0x223FE000 (2 ^ 64 - 4096) space1 = (space1, 0).
Proof.
  unfold do_sys_munmap. change (user_heap_limit space1) with 0x22400000. reflexivity.
Qed.
