(* ===== verification/Boottime.v ===== *)
(** * Time since boot and time of day ([src/src/sys/boottime.c])

    The real-time clock read at boot, the calibration of the time stamp counter
    against the interval timer and the monotonic clock. A reading of the hardware
    is an argument: [rtc] gives the registers of the real-time clock, [pit n] the
    [n]-th value read from the timer, [tsc] the time stamp counter. *)

From Stdlib Require Import Sorted.
From S2P Require Import Prelude.

Definition PIT_HZ_NUM : Z := 1193182.

Record boottime := {
  g_boot_realtime_us : Z; g_last_monotonic_us : Z; g_last_pit_counter : Z; g_fallback_pit_counts : Z;
  g_boot_tsc : Z; g_tsc_hz : Z; g_tsc_ready : bool
}.

(** ** The real-time clock *)

Definition bcd_to_bin (v : Z) : Z := u8 (Z.land v 0x0F + Z.shiftr v 4 * 10).

(** [%] of non-negative years. *)
Definition is_leap (y : Z) : bool := (y mod 4 =? 0) && negb (y mod 100 =? 0) || (y mod 400 =? 0).

Definition mdays : list Z := [31; 28; 31; 30; 31; 30; 31; 31; 30; 31; 30; 31].

Fixpoint year_loop (n : nat) (yy days : Z) : Z :=
  match n with
  | O => days
  | S n => year_loop n (yy + 1) (u64 (days + if is_leap yy then 366 else 365))
  end.

(** [None] is a month past the table. *)
Fixpoint month_loop (n : nat) (mm y days : Z) : option Z :=
  match n with
  | O => Some days
  | S n =>
      match mdays !! Z.to_nat (mm - 1) with
      | None => None
      | Some k =>
          let days := u64 (days + k) in
          month_loop n (mm + 1) y (if (mm =? 2) && is_leap y then u64 (days + 1) else days)
      end
  end.

Definition ymd_hms_to_unix (y mon day h m s : Z) : option Z :=
  match month_loop (Z.to_nat (mon - 1)) 1 y (year_loop (Z.to_nat (y - 1970)) 1970 0) with
  | None => None
  | Some days => Some (u64 (u64 (days + u64 (day - 1)) * 86400 + h * 3600 + m * 60 + s))
  end.

Definition rtc_unix_seconds (rtc : Z -> Z) : option Z :=
  let bcd := Z.land (rtc 0x0B) 0x04 =? 0 in
  let conv v := if bcd then bcd_to_bin v else v in
  let sec := conv (rtc 0x00) in
  let min := conv (rtc 0x02) in
  let hour := conv (Z.land (rtc 0x04) 0x7F) in
  let day := conv (rtc 0x07) in
  let mon := conv (rtc 0x08) in
  let full_year := 2000 + conv (rtc 0x09) in
  let full_year := if full_year <? 1970 then 1970 else full_year in
  ymd_hms_to_unix full_year (if mon =? 0 then 1 else mon) (if day =? 0 then 1 else day) hour min sec.

(** ** The counters *)

(** The wait of the calibration: the counts that have passed, [None] after ten
    million turns. [n] is the number of turns left. *)
Fixpoint calibrate_loop (n : nat) (i start_pit : Z) (pit : Z -> Z) : option Z :=
  let elapsed := u16 (start_pit - pit i) in
  if 40000 <=? elapsed then Some elapsed
  else
    match n with
    | O => None
    | S n => calibrate_loop n (i + 1) start_pit pit
    end.

(** The frequency, [None] is [-1]; [pit 0] is the first reading. *)
Definition boottime_calibrate_tsc (pit : Z -> Z) (start_tsc end_tsc : Z) : option Z :=
  match calibrate_loop (Z.to_nat 10000000) 1 (pit 0) pit with
  | None => None
  | Some elapsed =>
      if (end_tsc <=? start_tsc) || (elapsed =? 0) then None
      else
        let hz := u64 ((end_tsc - start_tsc) * PIT_HZ_NUM) / elapsed in
        if hz <? 1000000 then None else Some hz
  end.

(** [unix] is the value of [rtc_unix_seconds], [pit0] the first reading of the
    timer. *)
Definition boottime_init (unix pit0 : Z) (pit : Z -> Z) (start_tsc end_tsc boot_tsc : Z) (b : boottime) : boottime :=
  let ready := boottime_calibrate_tsc pit start_tsc end_tsc in
  {| g_boot_realtime_us := u64 (unix * 1000000); g_last_monotonic_us := 0; g_last_pit_counter := pit0;
     g_fallback_pit_counts := 0; g_boot_tsc := match ready with Some _ => boot_tsc | None => g_boot_tsc b end;
     g_tsc_hz := match ready with Some hz => hz | None => 0 end;
     g_tsc_ready := match ready with Some _ => true | None => false end |}.

Definition boottime_monotonic_us (tsc pit : Z) (b : boottime) : boottime * Z :=
  let tsc_clock := g_tsc_ready b && (0 <? g_tsc_hz b) in
  let counts := if tsc_clock then g_fallback_pit_counts b
                else u64 (g_fallback_pit_counts b + u16 (g_last_pit_counter b - pit)) in
  let now_us := if tsc_clock then u64 (u64 (tsc - g_boot_tsc b) * 1000000) / g_tsc_hz b
                else u64 (counts * 1000000) / PIT_HZ_NUM in
  let now_us := if now_us <? g_last_monotonic_us b then g_last_monotonic_us b else now_us in
  ({| g_boot_realtime_us := g_boot_realtime_us b; g_last_monotonic_us := now_us;
      g_last_pit_counter := if tsc_clock then g_last_pit_counter b else pit; g_fallback_pit_counts := counts;
      g_boot_tsc := g_boot_tsc b; g_tsc_hz := g_tsc_hz b; g_tsc_ready := g_tsc_ready b |}, now_us).

Definition boottime_realtime_us (tsc pit : Z) (b : boottime) : boottime * Z :=
  let '(b, now) := boottime_monotonic_us tsc pit b in (b, u64 (g_boot_realtime_us b + now)).

Definition boottime_now_us (tsc pit : Z) (b : boottime) : boottime * Z :=
  let '(b, now) := boottime_monotonic_us tsc pit b in (b, u32 now).

(** ** The calendar *)

(** The leap years from year 1 to year [n]. *)
Definition leaps (n : Z) : Z := n / 4 - n / 100 + n / 400.

(** Reference: the number of the day in the proleptic Gregorian calendar, with
    years that start in March and eras of 400 years. *)
Definition days_from_civil (y m d : Z) : Z :=
  let y := if m <=? 2 then y - 1 else y in
  let era := y / 400 in
  let yoe := y - era * 400 in
  let doy := (153 * (if m <=? 2 then m + 9 else m - 3) + 2) / 5 + d - 1 in
  let doe := yoe * 365 + yoe / 4 - yoe / 100 + doy in
  era * 146097 + doe - 719468.

Lemma leaps_step y : 0 < y -> leaps y = leaps (y - 1) + if is_leap y then 1 else 0.
Proof.
  intros Hy. unfold leaps, is_leap.
  destruct (Z.eqb_spec (y mod 4) 0), (Z.eqb_spec (y mod 100) 0), (Z.eqb_spec (y mod 400) 0); cbn [andb orb negb];
    Z.to_euclidean_division_equations; lia.
Qed.

Lemma year_loop_spec n yy days :
  1970 <= yy -> 0 <= days -> days + 366 * Z.of_nat n < 2 ^ 64 ->
  year_loop n yy days = days + 365 * Z.of_nat n + leaps (yy + Z.of_nat n - 1) - leaps (yy - 1).
Proof.
  revert yy days. induction n as [|n IH]; intros yy days Hy Hd Hb; cbn [year_loop].
  { replace (yy + Z.of_nat 0 - 1) with (yy - 1) by lia. lia. }
  pose proof (leaps_step yy ltac:(lia)) as Hl.
  rewrite u64_small by (destruct (is_leap yy); lia). rewrite IH by (destruct (is_leap yy); lia).
  replace (yy + 1 + Z.of_nat n - 1) with (yy + Z.of_nat (S n) - 1) by lia. replace (yy + 1 - 1) with yy by lia.
  destruct (is_leap yy); lia.
Qed.

(** The days of the year before the first of the month. *)
Definition month_start (y mon : Z) : Z :=
  (153 * (if mon <=? 2 then mon + 9 else mon - 3) + 2) / 5 + (if mon <=? 2 then -306 else if is_leap y then 60 else 59).

(** The length of a month. *)
Lemma month_length y mm :
  1 <= mm <= 12 ->
  mdays !! Z.to_nat (mm - 1) = Some (month_start y (mm + 1) - month_start y mm - if (mm =? 2) && is_leap y then 1 else 0) /\
  28 <= month_start y (mm + 1) - month_start y mm <= 31.
Proof.
  intros Hm. unfold month_start. generalize (is_leap y). intros leap.
  assert (mm ∈ seqZ 1 12) as Hin by (apply elem_of_seqZ; lia). revert mm Hm Hin.
  assert (forallb (fun mm =>
    let k := (153 * (if mm + 1 <=? 2 then mm + 1 + 9 else mm + 1 - 3) + 2) / 5 + (if mm + 1 <=? 2 then -306 else if leap then 60 else 59) -
      ((153 * (if mm <=? 2 then mm + 9 else mm - 3) + 2) / 5 + (if mm <=? 2 then -306 else if leap then 60 else 59)) in
    bool_decide (mdays !! Z.to_nat (mm - 1) = Some (k - if (mm =? 2) && leap then 1 else 0)) && (28 <=? k) && (k <=? 31))
    (seqZ 1 12) = true) as Hall by (destruct leap; vm_compute; reflexivity).
  intros mm _ Hin. rewrite forallb_forall in Hall. specialize (Hall mm (proj1 (list_elem_of_In _ _) Hin)). cbv zeta in Hall.
  apply andb_true_iff in Hall as [Hall H3]. apply andb_true_iff in Hall as [H1 H2].
  apply bool_decide_eq_true in H1. split; [exact H1 | lia].
Qed.

Lemma month_loop_sum n mm y days :
  1 <= mm -> mm + Z.of_nat n <= 13 -> 0 <= days < 2 ^ 63 ->
  month_loop n mm y days = Some (days + month_start y (mm + Z.of_nat n) - month_start y mm).
Proof.
  intros Hm Hn Hd. assert (days + 32 * Z.of_nat n < 2 ^ 64) as Hb by lia. assert (0 <= days) as Hd0 by lia. clear Hd.
  revert mm days Hm Hn Hd0 Hb. induction n as [|n IH]; intros mm days Hm Hn Hd Hb; cbn [month_loop].
  { rewrite Z.add_0_r. f_equal. lia. }
  destruct (month_length y mm ltac:(lia)) as [-> Hlen].
  replace (mm + Z.of_nat (S n)) with (mm + 1 + Z.of_nat n) by lia.
  destruct ((mm =? 2) && is_leap y); rewrite !u64_small by (rewrite ?u64_small; lia); rewrite IH by lia; f_equal; lia.
Qed.

Lemma month_loop_spec y mon days :
  1 <= mon <= 12 -> 0 <= days < 2 ^ 63 -> month_loop (Z.to_nat (mon - 1)) 1 y days = Some (days + month_start y mon).
Proof.
  intros Hm Hd. rewrite month_loop_sum by lia. replace (1 + Z.of_nat (Z.to_nat (mon - 1))) with mon by lia.
  change (month_start y 1) with 0. f_equal. lia.
Qed.

(** The seconds that the kernel computes from a date and a time of day are
    those of the Gregorian calendar: the day number of the reference, counted
    from the first of January 1970, and the seconds of the day. *)
Theorem unix_time_exact y mon day h m s
    (Hy : 1970 <= y <= 2 ^ 31) (Hmon : 1 <= mon <= 12) (Hday : 1 <= day <= 31)
    (Htime : 0 <= h < 24 /\ 0 <= m < 60 /\ 0 <= s < 60) :
  ymd_hms_to_unix y mon day h m s = Some (days_from_civil y mon day * 86400 + h * 3600 + m * 60 + s).
Proof.
  unfold ymd_hms_to_unix. rewrite year_loop_spec by lia.
  replace (1970 + Z.of_nat (Z.to_nat (y - 1970)) - 1) with (y - 1) by lia. rewrite Z2Nat.id by lia.
  assert (0 <= leaps (y - 1) - leaps (1970 - 1) <= y) as Hl by (unfold leaps; Z.to_euclidean_division_equations; lia).
  rewrite month_loop_spec by lia.
  assert (0 <= month_start y mon <= 340) as Hms.
  { unfold month_start. destruct (Z.leb_spec mon 2), (is_leap y); Z.to_euclidean_division_equations; lia. }
  assert (0 + 365 * (y - 1970) + leaps (y - 1) - leaps (1970 - 1) + month_start y mon + (day - 1) = days_from_civil y mon day) as E.
  { pose proof (leaps_step y ltac:(lia)) as Hs. unfold month_start, days_from_civil in *.
    change (leaps (1970 - 1)) with 477. destruct (Z.leb_spec mon 2).
    - unfold leaps. Z.to_euclidean_division_equations; lia.
    - assert (leaps (y - 1) = leaps y - if is_leap y then 1 else 0) as -> by lia.
      unfold leaps. destruct (is_leap y); Z.to_euclidean_division_equations; lia. }
  rewrite (u64_small (day - 1)), (u64_small (_ + (day - 1))), E by lia. rewrite u64_small by lia. done.
Qed.

(** ** The monotonic clock *)

(** The values that a series of calls returns, with the counters they read. *)
Fixpoint clock_run (l : list (Z * Z)) (b : boottime) : list Z :=
  match l with
  | [] => []
  | (tsc, pit) :: l => let '(b, now) := boottime_monotonic_us tsc pit b in now :: clock_run l b
  end.

(** The clock counts the time stamp counter. *)
Definition tsc_clock (b : boottime) : Prop := g_tsc_ready b = true /\ 0 < g_tsc_hz b.

Lemma clock_step tsc pit b :
  tsc_clock b -> exists b', boottime_monotonic_us tsc pit b =
    (b', Z.max (g_last_monotonic_us b) (u64 (u64 (tsc - g_boot_tsc b) * 1000000) / g_tsc_hz b)) /\
    g_last_monotonic_us b' = Z.max (g_last_monotonic_us b) (u64 (u64 (tsc - g_boot_tsc b) * 1000000) / g_tsc_hz b) /\
    tsc_clock b' /\ g_boot_tsc b' = g_boot_tsc b /\ g_tsc_hz b' = g_tsc_hz b.
Proof.
  intros [Hr Hh]. unfold boottime_monotonic_us. rewrite Hr. destruct (Z.ltb_spec 0 (g_tsc_hz b)); [|lia]. cbn [andb].
  eexists. split; [f_equal; ztest; lia|]. cbn. split; [ztest; lia|]. done.
Qed.

(** The monotonic clock never goes back, and counts the microseconds since
    boot as long as the counter times a million fits in 64 bits; but it never
    passes 2{^64} divided by the frequency, so it stops there. *)
Theorem monotonic_clock_stops (l : list (Z * Z)) b (Hclock : tsc_clock b) :
  Sorted.Sorted Z.le (g_last_monotonic_us b :: clock_run l b) /\
  Forall (fun now => now <= Z.max (g_last_monotonic_us b) ((2 ^ 64 - 1) / g_tsc_hz b)) (clock_run l b) /\
  (Sorted.StronglySorted Z.le (map fst l) ->
   Forall (fun x => g_boot_tsc b <= x.1 /\ (x.1 - g_boot_tsc b) * 1000000 < 2 ^ 64 /\
                    g_last_monotonic_us b <= (x.1 - g_boot_tsc b) * 1000000 / g_tsc_hz b) l ->
   clock_run l b = map (fun x => (x.1 - g_boot_tsc b) * 1000000 / g_tsc_hz b) l).
Proof.
  revert b Hclock. induction l as [|[tsc pit] l IH]; intros b Hclock; cbn [clock_run].
  { split; [by repeat constructor|]. split; [constructor | done]. }
  destruct (clock_step tsc pit b Hclock) as (b' & -> & Hl & Hc' & Hb & Hh). destruct (IH b' Hc') as (H1 & H2 & H3).
  pose proof Hclock as [_ Hhz]. rewrite Hl, ?Hb, Hh in *.
  set (v := u64 (u64 (tsc - g_boot_tsc b) * 1000000) / g_tsc_hz b) in *.
  assert (v <= (2 ^ 64 - 1) / g_tsc_hz b) as Hv.
  { apply Z.div_le_mono; [lia|]. pose proof (u64_range (u64 (tsc - g_boot_tsc b) * 1000000)). lia. }
  split; [|split].
  - constructor; [exact H1 | constructor; lia].
  - constructor; [lia|]. eapply Forall_impl; [exact H2|]. cbn. intros x Hx. lia.
  - intros Hs Hf. inversion Hs as [|? ? Hs' Hle]; subst. inversion Hf as [|? ? (F1 & F2 & F3) Hf']; subst. cbn [fst map] in *.
    assert (v = (tsc - g_boot_tsc b) * 1000000 / g_tsc_hz b) as Ev.
    { subst v. rewrite (u64_small (tsc - _)) by lia. by rewrite u64_small by lia. }
    rewrite Z.max_r by lia. rewrite Ev. f_equal. apply H3; [done|].
    rewrite Forall_forall in Hf' |- *. intros x Hx. destruct (Hf' x Hx) as (G1 & G2 & G3). split; [done|]. split; [done|].
    rewrite Z.max_r, Ev by lia. apply Z.div_le_mono; [lia|]. rewrite Forall_forall in Hle.
    specialize (Hle x.1 (list_elem_of_fmap_2 fst l x Hx)). lia.
Qed.

(** ** Concrete readings *)

Definition boot_3ghz : boottime :=
  {| g_boot_realtime_us := 0; g_last_monotonic_us := 0; g_last_pit_counter := 0; g_fallback_pit_counts := 0;
     g_boot_tsc := 0; g_tsc_hz := 3000000000; g_tsc_ready := true |}.

(** At 3 GHz the clock is right after an hour and a half, and stands still from
    one hour and 42 minutes on: after two hours and after a day. *)
Lemma monotonic_clock_stops_witness :
  clock_run [(3000000000 * 5400, 0); (3000000000 * 7200, 0); (3000000000 * 86400, 0)] boot_3ghz = [5400000000; 5400000000; 5400000000] /\
  Forall (fun now => now <= 6148914691) (clock_run [(3000000000 * 5400, 0); (3000000000 * 7200, 0); (3000000000 * 86400, 0)] boot_3ghz).
Proof.
  split; [vm_compute; reflexivity|].
  destruct (monotonic_clock_stops [(3000000000 * 5400, 0); (3000000000 * 7200, 0); (3000000000 * 86400, 0)] boot_3ghz) as (_ & H & _).
  - split; [reflexivity | vm_compute; reflexivity].
  - exact H.
Defined.

Lemma unix_time_exact_witness : ymd_hms_to_unix 2024 2 29 12 30 15 = Some 1709209815 /\ days_from_civil 2024 2 29 = 19782.
Proof.
  split; [|vm_compute; reflexivity]. rewrite (unix_time_exact 2024 2 29 12 30 15); [vm_compute; reflexivity | lia | lia | lia | lia].
Defined.

(** In the twelve-hour format the afternoon bit is dropped: half past one in the
    afternoon is read as half past one in the morning. *)
Example afternoon_read_as_morning :
  let rtc hour := fun r => if r =? 0x04 then hour else if r =? 0x02 then 0x30 else if r =? 0x0B then 0x00 else 1 in
  rtc_unix_seconds (rtc 0x81) = rtc_unix_seconds (rtc 0x01).
Proof. vm_compute. reflexivity. Qed.
