(* ===== verification/PageTables.v ===== *)
(** * Page tables ([src/src/sys/process.c])

    [task_build_address_space]: the tables of a task as 64-bit words of physical
    memory, at the addresses that the linker gives to [g_pml4], [g_pdpt] and
    [g_pd]. The rest of the layout, where the image of the kernel and the memory
    of the user regions lie, is a record too. *)

From S2P Require Import Prelude Dll Sched Process Uaccess.

Definition PAGE_PRESENT : Z := 0x001.
Definition PAGE_WRITE : Z := 0x002.
Definition PAGE_USER : Z := 0x004.
Definition PAGE_PS : Z := 0x080.
Definition USER_TEXT_BASE : Z := 0x20000000.
Definition USER_LOW_BASE : Z := 0x00400000.
Definition USER_HEAP_EXT_BASE : Z := USER_HEAP_BASE + USER_HEAP_MAX_DELTA.
Definition USER_BIGPIE_BASE : Z := 0x30000000.
Definition USER_FBDEV_BASE : Z := 0x38000000.
Definition USER_FBDEV_MAX_PAGES : Z := 32.

(** Where the linker puts things. *)
Record layout := {
  g_pml4 : Z; g_pdpt : Z; g_pd : Z;
  g_user : region -> Z;
  kernel_start : Z; kernel_end : Z
}.

(** Words of physical memory. *)
Abbreviation words := (Z -> Z).

Section tables.
Context (lay : layout).

Definition pml4_word (idx i : Z) : Z := g_pml4 lay + (idx * 512 + i) * 8.
Definition pdpt_word (idx i : Z) : Z := g_pdpt lay + (idx * 512 + i) * 8.
Definition pd_word (idx pdi i : Z) : Z := g_pd lay + ((idx * 4 + pdi) * 512 + i) * 8.

(** [&g_user_...[idx][off]] *)
Definition frame (r : region) (idx off : Z) : Z := g_user lay r + idx * region_size r + off.

(** [memset] of [n] words. *)
Definition zero_words (base n : Z) (rd : words) : words := fun a => if (base <=? a) && (a <? base + 8 * n) then 0 else rd a.

(** The entry of the identity map for the 2 MiB page at [base]. *)
Definition identity_entry (user_mode : bool) (base : Z) : Z :=
  let flags := Z.lor (Z.lor PAGE_PRESENT PAGE_WRITE) PAGE_PS in
  let flags :=
    if user_mode then
      if (base + 2 * MiB <=? kernel_start lay) || (kernel_end lay <=? base) then Z.lor flags PAGE_USER else flags
    else flags in
  Z.lor base flags.

Definition identity_pd (idx pdi : Z) (user_mode : bool) (rd : words) : words :=
  fold_left (fun rd i => <[pd_word idx pdi i := identity_entry user_mode (Z.shiftl pdi 30 + Z.shiftl i 21)]> rd) (seqZ 0 512) rd.

Definition identity_map (idx upper_flags : Z) (user_mode : bool) (rd : words) : words :=
  fold_left (fun rd pdi => identity_pd idx pdi user_mode (<[pdpt_word idx pdi := Z.lor (pd_word idx pdi 0) upper_flags]> rd))
    (seqZ 0 4) rd.

(** A loop that maps the pages [p], [p + 1], ... of a window from the entry
    [pde] of a directory on; [limit] is whether it stops at the last entry. *)
Fixpoint window_loop (n : nat) (p pde : Z) (idx pdi : Z) (limit : bool) (entry : Z -> Z) (rd : words) : words :=
  match n with
  | O => rd
  | S n =>
      if limit && (512 <=? pde + p) then rd
      else window_loop n (p + 1) pde idx pdi limit entry (<[pd_word idx pdi (pde + p) := entry p]> rd)
  end.

Definition pde_of (va : Z) : Z := Z.land (Z.shiftr va 21) 0x1FF.
Definition uflags : Z := Z.lor (Z.lor (Z.lor PAGE_PRESENT PAGE_WRITE) PAGE_USER) PAGE_PS.

(** The pages of one user region. *)
Definition map_region (r : region) (base : Z) (idx : Z) (limit : bool) (rd : words) : words :=
  window_loop (Z.to_nat (region_size r / USER_REGION_SIZE)) 0 (pde_of base) idx 0 limit
    (fun p => Z.lor (frame r idx (Z.shiftl p 21)) uflags) rd.

(** [fb] is what [fb_get_2m_phys_window] gives: address and number of pages. *)
Definition map_fb (fb : option (Z * Z)) (idx : Z) (rd : words) : words :=
  match fb with
  | None => rd
  | Some (phys, pages) =>
      let pages := if USER_FBDEV_MAX_PAGES <? pages then USER_FBDEV_MAX_PAGES else pages in
      window_loop (Z.to_nat pages) 0 (pde_of USER_FBDEV_BASE) idx 0 true (fun p => Z.lor (phys + Z.shiftl p 21) uflags) rd
  end.

(** [fb] as above, and what [fb_get_2m_remap] gives. *)
Definition map_remap (remap : option (Z * Z * Z)) (idx : Z) (rd : words) : words :=
  match remap with
  | None => rd
  | Some (phys, pages, virt) =>
      window_loop (Z.to_nat pages) 0 (u32 (Z.shiftr (virt - 0xC0000000) 21)) idx 3 true
        (fun p => Z.lor (phys + Z.shiftl p 21) (Z.lor (Z.lor PAGE_PRESENT PAGE_WRITE) PAGE_PS)) rd
  end.

(** The new tables, and [cr3]. *)
Definition task_build_address_space (fb : option (Z * Z)) (remap : option (Z * Z * Z)) (idx : Z) (user_mode : bool)
    (rd : words) : words * Z :=
  let rd := zero_words (pml4_word idx 0) 512 rd in
  let rd := zero_words (pdpt_word idx 0) 512 rd in
  let rd := zero_words (pd_word idx 0 0) 2048 rd in
  let upper_flags := Z.lor PAGE_PRESENT PAGE_WRITE in
  let upper_flags := if user_mode then Z.lor upper_flags PAGE_USER else upper_flags in
  let rd := <[pml4_word idx 0 := Z.lor (pdpt_word idx 0) upper_flags]> rd in
  let rd := identity_map idx upper_flags user_mode rd in
  let rd :=
    if user_mode && (idx <? USER_AS_MAX_TASKS) then
      let rd := map_region LOW USER_LOW_BASE idx false rd in
      let rd := map_region TEXT USER_TEXT_BASE idx false rd in
      let rd := map_region STACK USER_STACK_BASE idx false rd in
      let rd := map_region HEAP USER_HEAP_BASE idx true rd in
      let rd := map_region HEAP_EXT USER_HEAP_EXT_BASE idx true rd in
      let rd := map_region BIGPIE USER_BIGPIE_BASE idx true rd in
      map_fb fb idx rd
    else rd in
  (map_remap remap idx rd, pml4_word idx 0).
End tables.

(** ** Bits *)

Lemma lor_low b f n : 0 <= n -> b mod 2 ^ n = 0 -> 0 <= f < 2 ^ n -> Z.lor b f = b + f.
Proof.
  intros Hn Hb Hf. rewrite <- Z.add_lor_land. enough (Z.land b f = 0) as -> by lia.
  apply Z.bits_inj'. intros i Hi. rewrite Z.land_spec, Z.bits_0. destruct (Z_lt_ge_dec i n) as [Hl|Hl].
  - replace (Z.testbit b i) with false; [done|]. rewrite <- (Z.mod_pow2_bits_low b n i) by lia. by rewrite Hb, Z.bits_0.
  - replace (Z.testbit f i) with false; [apply andb_false_r|]. rewrite <- (Z.mod_small f (2 ^ n)) by done.
    symmetry. apply Z.mod_pow2_bits_high. lia.
Qed.

(** The table that an entry points to, and the flags of an entry. *)
Lemma entry_table b f : b mod 4096 = 0 -> 0 <= f < 4096 -> Z.land (Z.lor b f) (Z.lnot 0xFFF) = b.
Proof.
  intros Hb Hf. rewrite (lor_low b f 12 ltac:(done) Hb Hf). rewrite align_down_eq.
  rewrite <- Zplus_mod_idemp_l, Hb, Z.add_0_l, (Z.mod_small f) by done. lia.
Qed.

Lemma entry_flags b f : b mod 4096 = 0 -> 0 <= f < 4096 -> Z.land (Z.lor b f) 0xFFF = f.
Proof.
  intros Hb Hf. rewrite (lor_low b f 12 ltac:(done) Hb Hf). change 0xFFF with (Z.ones 12). rewrite Z.land_ones by done.
  change (2 ^ 12) with 4096. rewrite <- Zplus_mod_idemp_l, Hb, Z.add_0_l. by apply Z.mod_small.
Qed.

Lemma entry_flag b f m : b mod 4096 = 0 -> 0 <= f < 4096 -> 0 <= m < 4096 -> flag (Z.lor b f) m = flag f m.
Proof.
  intros Hb Hf Hm. unfold flag. rewrite <- (Z.mod_small m 4096 Hm). change 4096 with (2 ^ 12).
  rewrite <- Z.land_ones, (Z.land_comm m), Z.land_assoc by done. change (Z.ones 12) with 0xFFF. rewrite entry_flags by done.
  do 2 f_equal. rewrite Z.land_assoc. f_equal. change 0xFFF with (Z.ones 12). rewrite Z.land_ones by done. symmetry. by apply Z.mod_small.
Qed.

(** The page that an entry for 2 MiB points to. *)
Lemma entry_page b f : b mod 0x200000 = 0 -> 0 <= f < 4096 -> Z.land (Z.lor b f) (Z.lnot 0x1FFFFF) = b.
Proof.
  intros Hb Hf. rewrite (lor_low b f 21 ltac:(done) Hb) by lia. rewrite <- Z.ldiff_land. change 0x1FFFFF with (Z.ones 21).
  rewrite Z.ldiff_ones_r by lia. rewrite Z.shiftr_div_pow2, Z.shiftl_mul_pow2 by lia. change (2 ^ 21) with 0x200000.
  pose proof (Z.div_mod b 0x200000 ltac:(done)) as Hd. rewrite Hb in Hd.
  replace (b + f) with (f + b / 0x200000 * 0x200000) by lia. rewrite Z.div_add by done. rewrite (Z.div_small f) by lia. lia.
Qed.

Lemma index_bits va n : 0 <= n -> Z.land (Z.shiftr va n) 0x1FF = va / 2 ^ n mod 512.
Proof. intros Hn. change 0x1FF with (Z.ones 9). rewrite Z.land_ones by done. by rewrite Z.shiftr_div_pow2. Qed.

(** ** The words written *)

Lemma fold_writes_out (f v : Z -> Z) l (rd : words) a :
  (forall i, i ∈ l -> f i <> a) -> fold_left (fun rd i => <[f i := v i]> rd) l rd a = rd a.
Proof.
  revert rd. induction l as [|i l IH]; intros rd H; [done|]. cbn [fold_left].
  rewrite IH by (intros j Hj; apply H, elem_of_cons; by right). apply upd_ne, H, elem_of_cons. by left.
Qed.

Lemma fold_writes_in (f v : Z -> Z) l (rd : words) j :
  j ∈ l -> (forall i, i ∈ l -> f i = f j -> i = j) -> fold_left (fun rd i => <[f i := v i]> rd) l rd (f j) = v j.
Proof.
  revert rd. induction l as [|i l IH]; intros rd Hj Hinj; [by apply elem_of_nil in Hj|]. cbn [fold_left].
  destruct (decide (j ∈ l)) as [Hin|Hout].
  - apply IH; [done|]. intros k Hk. apply Hinj, elem_of_cons. by right.
  - apply elem_of_cons in Hj as [<-|Hj]; [|done]. rewrite fold_writes_out; [apply upd_eq|].
    intros k Hk E. apply Hout. rewrite <- (Hinj k); [done | apply elem_of_cons; by right | done].
Qed.

Section words.
Context (lay : layout) (idx : Z).

Lemma pd_word_inj pdi i pdj j :
  0 <= i < 512 -> 0 <= j < 512 -> pd_word lay idx pdi i = pd_word lay idx pdj j -> pdi = pdj /\ i = j.
Proof. unfold pd_word. lia. Qed.

Lemma window_loop_out n p pde pdi lim e (rd : words) a :
  (lim = true \/ pde + p + Z.of_nat n <= 512) -> 0 <= pde + p -> (forall k, 0 <= k < 512 -> pd_word lay idx pdi k <> a) ->
  window_loop lay n p pde idx pdi lim e rd a = rd a.
Proof.
  revert p rd. induction n as [|n IH]; intros p rd Hl Hp Ha; cbn [window_loop]; [done|].
  destruct (lim && (512 <=? pde + p)) eqn:E; [done|]. rewrite IH; [|destruct Hl; [by left | right; lia]|lia|done].
  apply upd_ne, Ha. destruct lim; [lia|]. destruct Hl; [done | lia].
Qed.

Lemma window_loop_in n p pde pdi lim e (rd : words) j :
  (lim = true \/ pde + p + Z.of_nat n <= 512) -> 0 <= pde + p -> 0 <= j < 512 ->
  window_loop lay n p pde idx pdi lim e rd (pd_word lay idx pdi j) =
  if (pde + p <=? j) && (j <? pde + p + Z.of_nat n) then e (j - pde) else rd (pd_word lay idx pdi j).
Proof.
  revert p rd. induction n as [|n IH]; intros p rd Hl Hp Hj; cbn [window_loop].
  { replace ((pde + p <=? j) && (j <? pde + p + Z.of_nat 0)) with false by (repeat (ztest; cbn [andb]); done || lia). done. }
  destruct (lim && (512 <=? pde + p)) eqn:E.
  { destruct lim; [|done]. replace (pde + p <=? j) with false by (ztest; lia). done. }
  rewrite IH; [|destruct Hl; [by left | right; lia]|lia|done]. unfold pd_word. rewrite upd_case.
  destruct (decide (pde + p = j)) as [Hpj|Hpj].
  - rewrite decide_True by lia. repeat (ztest; cbn [andb]); try lia. f_equal. lia.
  - rewrite decide_False by lia. repeat (ztest; cbn [andb]); done || lia.
Qed.

(** The identity map, entry by entry. *)
Lemma identity_pd_in pdi um (rd : words) j :
  0 <= j < 512 -> identity_pd lay idx pdi um rd (pd_word lay idx pdi j) = identity_entry lay um (Z.shiftl pdi 30 + Z.shiftl j 21).
Proof.
  intros Hj. unfold identity_pd.
  apply (fold_writes_in (fun i => pd_word lay idx pdi i) (fun i => identity_entry lay um (Z.shiftl pdi 30 + Z.shiftl i 21))).
  - apply elem_of_seqZ. lia.
  - intros i Hi E. apply elem_of_seqZ in Hi. apply pd_word_inj in E as [_ ?]; [done | lia..].
Qed.

Lemma identity_pd_out pdi um (rd : words) a :
  (forall k, 0 <= k < 512 -> pd_word lay idx pdi k <> a) -> identity_pd lay idx pdi um rd a = rd a.
Proof.
  intros Ha. unfold identity_pd. apply fold_writes_out. intros i Hi. apply elem_of_seqZ in Hi. apply Ha. lia.
Qed.
End words.

(** ** What the processor finds *)

(** The entry of the directory that translates [va], with the tables at [cr3]. *)
Definition leaf (rd : words) (cr3 va : Z) : Z :=
  let table e := Z.land e (Z.lnot 0xFFF) in
  let entry t shift := rd (t + 8 * Z.land (Z.shiftr va shift) 0x1FF) in
  entry (table (entry (table (entry (table cr3) 39)) 30)) 21.

(** The physical address behind [va], in its 2 MiB page. *)
Definition translate (rd : words) (cr3 va : Z) : Z := Z.land (leaf rd cr3 va) (Z.lnot 0x1FFFFF) + va mod 0x200000.

Definition region_base (r : region) : Z :=
  match r with
  | LOW => USER_LOW_BASE | TEXT => USER_TEXT_BASE | STACK => USER_STACK_BASE
  | HEAP => USER_HEAP_BASE | HEAP_EXT => USER_HEAP_EXT_BASE | BIGPIE => USER_BIGPIE_BASE
  end.

(** The pages of a region, by number. *)
Definition first_page (r : region) : Z :=
  match r with LOW => 2 | TEXT => 256 | STACK => 257 | HEAP => 258 | HEAP_EXT => 274 | BIGPIE => 384 end.
Definition last_page (r : region) : Z :=
  match r with LOW => 4 | TEXT => 257 | STACK => 258 | HEAP => 274 | HEAP_EXT => 278 | BIGPIE => 392 end.

Lemma region_pages r : region_base r = first_page r * 0x200000 /\ region_base r + region_size r = last_page r * 0x200000.
Proof. by destruct r. Qed.

(** The tables are aligned and apart, the regions aligned and apart. *)
Record layout_ok (lay : layout) : Prop := {
  ok_pml4 : 0 <= g_pml4 lay < 2 ^ 48 /\ g_pml4 lay mod 4096 = 0;
  ok_pdpt : 0 <= g_pdpt lay < 2 ^ 48 /\ g_pdpt lay mod 4096 = 0;
  ok_pd : 0 <= g_pd lay < 2 ^ 48 /\ g_pd lay mod 4096 = 0;
  ok_apart1 : g_pml4 lay + PROC_MAX_TASKS * 4096 <= g_pdpt lay \/ g_pdpt lay + PROC_MAX_TASKS * 4096 <= g_pml4 lay;
  ok_apart2 : g_pml4 lay + PROC_MAX_TASKS * 4096 <= g_pd lay \/ g_pd lay + PROC_MAX_TASKS * 16384 <= g_pml4 lay;
  ok_apart3 : g_pdpt lay + PROC_MAX_TASKS * 4096 <= g_pd lay \/ g_pd lay + PROC_MAX_TASKS * 16384 <= g_pdpt lay;
  ok_user : forall r, 0 <= g_user lay r /\ g_user lay r mod 0x200000 = 0;
  ok_user_apart : forall r r', r <> r' ->
    g_user lay r + USER_AS_MAX_TASKS * region_size r <= g_user lay r' \/
    g_user lay r' + USER_AS_MAX_TASKS * region_size r' <= g_user lay r
}.

Section exact.
Context (lay : layout) (Hlay : layout_ok lay) (fb : option (Z * Z)) (remap : option (Z * Z * Z)) (idx : Z).
Context (Hidx : 0 <= idx < USER_AS_MAX_TASKS) (rd0 : words).

Definition built : words := fst (task_build_address_space lay fb remap idx true rd0).
Definition the_cr3 : Z := snd (task_build_address_space lay fb remap idx true rd0).

(** The pages of the frame buffer. *)
Definition fb_pages : Z :=
  match fb with Some (_, pages) => Z.max 0 (Z.min USER_FBDEV_MAX_PAGES pages) | None => 0 end.

(** A word of the tables above the directories. *)
Definition upper_word (a : Z) : Prop := a = pml4_word lay idx 0 \/ exists i, 0 <= i < 4 /\ a = pdpt_word lay idx i.

Lemma upper_not_pd a pdi k : upper_word a -> 0 <= pdi < 4 -> 0 <= k < 512 -> pd_word lay idx pdi k <> a.
Proof.
  destruct Hlay as [_ _ _ _ H2 H3 _ _]. unfold upper_word, pml4_word, pdpt_word, pd_word, PROC_MAX_TASKS, USER_AS_MAX_TASKS in *.
  intros [->|(i & Hi & ->)]; lia.
Qed.

Lemma map_region_out r lim a rd :
  (forall k, 0 <= k < 512 -> pd_word lay idx 0 k <> a) -> (lim = true \/ r = LOW \/ r = TEXT \/ r = STACK) ->
  map_region lay r (region_base r) idx lim rd a = rd a.
Proof.
  intros Ha Hl. apply window_loop_out; [|by destruct r|done].
  destruct Hl as [-> | [-> | [-> | ->]]]; [by left | right; vm_compute; discriminate..].
Qed.

Lemma map_region_in r lim j rd :
  0 <= j < 512 -> (lim = true \/ r = LOW \/ r = TEXT \/ r = STACK) ->
  map_region lay r (region_base r) idx lim rd (pd_word lay idx 0 j) =
  if (first_page r <=? j) && (j <? last_page r)
  then Z.lor (frame lay r idx (Z.shiftl (j - first_page r) 21)) uflags else rd (pd_word lay idx 0 j).
Proof.
  intros Hj Hl. unfold map_region. rewrite window_loop_in; [|destruct Hl as [-> | [-> | [-> | ->]]]; [by left | right; vm_compute; discriminate..]|by destruct r|done].
  by destruct r.
Qed.

Lemma map_fb_out a rd : (forall k, 0 <= k < 512 -> pd_word lay idx 0 k <> a) -> map_fb lay fb idx rd a = rd a.
Proof. intros Ha. unfold map_fb. destruct fb as [[phys pages]|]; [|done]. apply window_loop_out; [by left | done | done]. Qed.

Lemma map_fb_none j rd :
  0 <= j < 512 -> ~ 448 <= j < 448 + fb_pages -> map_fb lay fb idx rd (pd_word lay idx 0 j) = rd (pd_word lay idx 0 j).
Proof.
  intros Hj Hfb. unfold map_fb, fb_pages in *. destruct fb as [[phys pages]|]; [|done].
  rewrite window_loop_in by (done || by left). change (pde_of USER_FBDEV_BASE + 0) with 448.
  destruct (Z.ltb_spec USER_FBDEV_MAX_PAGES pages); repeat (ztest; cbn [andb]); done || lia.
Qed.

Lemma map_remap_out a rd : (forall k, 0 <= k < 512 -> pd_word lay idx 3 k <> a) -> map_remap lay remap idx rd a = rd a.
Proof.
  intros Ha. unfold map_remap. destruct remap as [[[phys pages] virt]|]; [|done].
  apply window_loop_out; [by left | rewrite Z.add_0_r; apply u32_range | done].
Qed.

Lemma remap_pd pdi j rd : pdi <> 3 -> 0 <= j < 512 -> map_remap lay remap idx rd (pd_word lay idx pdi j) = rd (pd_word lay idx pdi j).
Proof. intros Hp Hj. apply map_remap_out. intros k Hk E. apply pd_word_inj in E as [? _]; [done | lia..]. Qed.

Lemma four_cases k (P : Z -> Prop) : 0 <= k < 4 -> P 0 -> P 1 -> P 2 -> P 3 -> P k.
Proof. intros Hk H0 H1 H2 H3. assert (k = 0 \/ k = 1 \/ k = 2 \/ k = 3) as [-> | [-> | [-> | ->]]] by lia; done. Qed.

Lemma pd_not_pdpt k j i : 0 <= k < 4 -> 0 <= j < 512 -> 0 <= i < 4 -> pdpt_word lay idx i <> pd_word lay idx k j.
Proof. intros Hk Hj Hi. apply not_eq_sym, upper_not_pd; [right; by exists i | done..]. Qed.

Lemma pdpt_not_pml4 i : 0 <= i < 4 -> pdpt_word lay idx i <> pml4_word lay idx 0.
Proof. destruct Hlay as [_ _ _ H1 _ _ _ _]. unfold pml4_word, pdpt_word, PROC_MAX_TASKS, USER_AS_MAX_TASKS in *. lia. Qed.

Lemma identity_map_pml4 uf um rd : identity_map lay idx uf um rd (pml4_word lay idx 0) = rd (pml4_word lay idx 0).
Proof.
  unfold identity_map. change (seqZ 0 4) with [0; 1; 2; 3]. cbn [fold_left].
  do 4 (rewrite identity_pd_out by (intros; apply upper_not_pd; [by left | lia | done]); rewrite upd_ne by (apply pdpt_not_pml4; lia)).
  done.
Qed.

Lemma identity_map_pdpt uf um rd k :
  0 <= k < 4 -> identity_map lay idx uf um rd (pdpt_word lay idx k) = Z.lor (pd_word lay idx k 0) uf.
Proof.
  intros Hk. assert (forall pdi i, 0 <= pdi < 4 -> 0 <= i < 512 -> pd_word lay idx pdi i <> pdpt_word lay idx k) as Hpd.
  { intros pdi i H1 H2. apply upper_not_pd; [right; by exists k | done | done]. }
  unfold identity_map. change (seqZ 0 4) with [0; 1; 2; 3]. cbn [fold_left].
  do 4 (rewrite identity_pd_out by (intros; apply Hpd; lia); rewrite upd_case). clear Hpd. revert Hk. 
  assert (forall i j, pdpt_word lay idx i = pdpt_word lay idx j -> i = j) as Hinj by (unfold pdpt_word; lia).
  intros Hk. repeat case_decide; repeat match goal with H : pdpt_word lay idx _ = _ |- _ => apply Hinj in H as <- end; try done.
  exfalso. revert Hk H H0 H1 H2. clear. intros Hk H H0 H1 H2.
  assert (k = 0 \/ k = 1 \/ k = 2 \/ k = 3) as [-> | [-> | [-> | ->]]] by lia; done.
Qed.

Lemma identity_map_pd uf um rd k j :
  0 <= k < 4 -> 0 <= j < 512 ->
  identity_map lay idx uf um rd (pd_word lay idx k j) = identity_entry lay um (Z.shiftl k 30 + Z.shiftl j 21).
Proof.
  intros Hk Hj. unfold identity_map. change (seqZ 0 4) with [0; 1; 2; 3]. cbn [fold_left]. revert Hk.
  assert (forall pdi rd', pdi <> k -> identity_pd lay idx pdi um rd' (pd_word lay idx k j) = rd' (pd_word lay idx k j)) as Hout.
  { intros pdi rd' Hne. apply identity_pd_out. intros i Hi E. apply pd_word_inj in E as [? _]; [done | lia..]. }
  assert (forall pdi (v : Z) (rd' : words), 0 <= k < 4 -> 0 <= pdi < 4 -> (<[pdpt_word lay idx pdi := v]> rd') (pd_word lay idx k j) = rd' (pd_word lay idx k j)) as Hup.
  { intros pdi v rd' Hk Hp. apply upd_ne, pd_not_pdpt; lia. }
  intros Hk. revert Hout Hup. apply (four_cases k); [done|..]; intros Hout Hup;
    repeat first [rewrite identity_pd_in by done | rewrite Hout by done | rewrite Hup by lia]; done.
Qed.

(** ** The walk *)

(** The words of the directories survive the maps of the windows. *)
Lemma built_upper a v :
  upper_word a -> (forall rd, identity_map lay idx 7 true (<[pml4_word lay idx 0 := Z.lor (pdpt_word lay idx 0) 7]> rd) a = v) ->
  built a = v.
Proof.
  intros Ha Hv. assert (forall pdi k, 0 <= pdi < 4 -> 0 <= k < 512 -> pd_word lay idx pdi k <> a) as Hpd by (intros; by apply upper_not_pd).
  unfold built, task_build_address_space. cbn [fst andb]. destruct (Z.ltb_spec idx USER_AS_MAX_TASKS); [|lia].
  rewrite map_remap_out by (intros; apply Hpd; lia). rewrite map_fb_out by (intros; apply Hpd; lia).
  rewrite (map_region_out BIGPIE true), (map_region_out HEAP_EXT true), (map_region_out HEAP true), (map_region_out STACK false),
    (map_region_out TEXT false), (map_region_out LOW false) by (auto || (intros; apply Hpd; lia)). apply Hv.
Qed.

Lemma built_pml4 : built (pml4_word lay idx 0) = Z.lor (pdpt_word lay idx 0) 7.
Proof. apply built_upper; [by left|]. intros rd. rewrite identity_map_pml4. apply upd_eq. Qed.

Lemma built_pdpt k : 0 <= k < 4 -> built (pdpt_word lay idx k) = Z.lor (pd_word lay idx k 0) 7.
Proof. intros Hk. apply built_upper; [right; by exists k|]. intros rd. by apply identity_map_pdpt. Qed.

Lemma the_cr3_eq : the_cr3 = pml4_word lay idx 0.
Proof. reflexivity. Qed.

Lemma walk_pml4 va :
  0 <= va < 2 ^ 32 -> built (Z.land the_cr3 (Z.lnot 0xFFF) + 8 * Z.land (Z.shiftr va 39) 0x1FF) = Z.lor (pdpt_word lay idx 0) 7.
Proof.
  intros Hva. destruct Hlay as [[H1 H1'] _ _ _ _ _ _ _]. rewrite index_bits, the_cr3_eq by done.
  assert (va / 2 ^ 39 = 0) as -> by (apply Z.div_small; lia). change (0 mod 512) with 0. rewrite Z.mul_0_r, Z.add_0_r.
  rewrite align_down_eq. unfold pml4_word at 2. replace (g_pml4 lay + (idx * 512 + 0) * 8) with (g_pml4 lay + idx * 4096) by lia.
  rewrite Z.mod_add, H1', Z.sub_0_r by done. apply built_pml4.
Qed.

Lemma index_pdpt va : 0 <= va < 2 ^ 32 -> 0 <= va / 2 ^ 30 < 4.
Proof. intros Hva. split; [apply Z.div_pos; lia | apply Z.div_lt_upper_bound; lia]. Qed.

Lemma pdpt_aligned : pdpt_word lay idx 0 mod 4096 = 0.
Proof.
  destruct Hlay as [_ [_ H] _ _ _ _ _ _]. unfold pdpt_word.
  replace (g_pdpt lay + (idx * 512 + 0) * 8) with (g_pdpt lay + idx * 4096) by lia. by rewrite Z.mod_add.
Qed.

Lemma pd_aligned k : pd_word lay idx k 0 mod 4096 = 0.
Proof.
  destruct Hlay as [_ _ [_ H] _ _ _ _ _]. unfold pd_word.
  replace (g_pd lay + ((idx * 4 + k) * 512 + 0) * 8) with (g_pd lay + (idx * 4 + k) * 4096) by lia. by rewrite Z.mod_add.
Qed.

Lemma walk_pdpt va :
  0 <= va < 2 ^ 32 ->
  built (Z.land (Z.lor (pdpt_word lay idx 0) 7) (Z.lnot 0xFFF) + 8 * Z.land (Z.shiftr va 30) 0x1FF) =
  Z.lor (pd_word lay idx (va / 2 ^ 30) 0) 7.
Proof.
  intros Hva. pose proof (index_pdpt va Hva) as Hk. rewrite entry_table by (done || apply pdpt_aligned).
  rewrite index_bits, Z.mod_small by lia.
  replace (pdpt_word lay idx 0 + 8 * (va / 2 ^ 30)) with (pdpt_word lay idx (va / 2 ^ 30)) by (unfold pdpt_word; lia).
  by apply built_pdpt.
Qed.

Lemma walk_pd va k :
  Z.land (Z.lor (pd_word lay idx k 0) 7) (Z.lnot 0xFFF) + 8 * Z.land (Z.shiftr va 21) 0x1FF = pd_word lay idx k (va / 2 ^ 21 mod 512).
Proof. rewrite entry_table by (done || apply pd_aligned). rewrite index_bits by done. unfold pd_word. lia. Qed.

(** The entry that translates an address below 4 GiB. *)
Lemma leaf_built va : 0 <= va < 2 ^ 32 -> leaf built the_cr3 va = built (pd_word lay idx (va / 2 ^ 30) (va / 2 ^ 21 mod 512)).
Proof. intros Hva. unfold leaf. by rewrite walk_pml4, walk_pdpt, walk_pd by done. Qed.

(** The flags that the kernel reads are those of that entry. *)
Lemma flags_built va b f :
  0 <= va < 2 ^ 32 -> leaf built the_cr3 va = Z.lor b f -> b mod 4096 = 0 -> 0 <= f < 4096 ->
  flag f PTE_PRESENT = true -> flag f PTE_PS = true -> user_pte_flags built the_cr3 va = f.
Proof.
  intros Hva Hleaf Hb Hf H0 H7. rewrite leaf_built in Hleaf by done. unfold user_pte_flags.
  rewrite walk_pml4 by done. rewrite entry_flag by (done || apply pdpt_aligned). change (flag 7 PTE_PRESENT) with true. cbn [negb].
  rewrite walk_pdpt by done. rewrite !entry_flag by (done || apply pd_aligned). change (flag 7 PTE_PRESENT) with true.
  change (flag 7 PTE_PS) with false. cbn [negb].
  rewrite walk_pd, Hleaf, !entry_flag, H0, H7 by done. cbn [negb]. by apply entry_flags.
Qed.

(** ** What an address is mapped to *)

(** The entry of the page [j] of the first directory after the maps of the
    regions. *)
Definition user_entry (j id : Z) : Z :=
  let win e r := if (first_page r <=? j) && (j <? last_page r)
                 then Z.lor (frame lay r idx (Z.shiftl (j - first_page r) 21)) uflags else e in
  win (win (win (win (win (win id LOW) TEXT) STACK) HEAP) HEAP_EXT) BIGPIE.

Lemma user_entry_in r j id :
  first_page r <= j < last_page r -> user_entry j id = Z.lor (frame lay r idx (Z.shiftl (j - first_page r) 21)) uflags.
Proof.
  intros Hj. assert (forall r', (first_page r' <=? j) && (j <? last_page r') = bool_decide (r' = r)) as H.
  { intros r'. destruct (decide (r' = r)) as [->|Hne].
    - rewrite bool_decide_true by done. apply andb_true_iff. lia.
    - rewrite bool_decide_false by done. apply andb_false_iff.
      assert (j < first_page r' \/ last_page r' <= j) by (destruct r, r'; cbn [first_page last_page] in *; done || lia). lia. }
  unfold user_entry. rewrite !H. by destruct r.
Qed.

Lemma user_entry_out j id : (forall r, ~ first_page r <= j < last_page r) -> user_entry j id = id.
Proof.
  intros Hj. assert (forall r', (first_page r' <=? j) && (j <? last_page r') = false) as H.
  { intros r'. specialize (Hj r'). apply andb_false_iff. lia. }
  unfold user_entry. by rewrite !H.
Qed.

Lemma built_pd k j :
  0 <= k < 4 -> k <> 3 -> 0 <= j < 512 -> (k = 0 -> ~ 448 <= j < 448 + fb_pages) ->
  built (pd_word lay idx k j) =
  let id := identity_entry lay true (Z.shiftl k 30 + Z.shiftl j 21) in if k =? 0 then user_entry j id else id.
Proof.
  intros Hk Hk3 Hj Hfb. unfold built, task_build_address_space. cbn [fst andb]. destruct (Z.ltb_spec idx USER_AS_MAX_TASKS); [|lia].
  rewrite remap_pd by done. destruct (Z.eqb_spec k 0) as [->|Hk0].
  - specialize (Hfb eq_refl). rewrite map_fb_none by done.
    rewrite (map_region_in BIGPIE true), (map_region_in HEAP_EXT true), (map_region_in HEAP true), (map_region_in STACK false),
      (map_region_in TEXT false), (map_region_in LOW false), identity_map_pd by auto; reflexivity.
  - assert (forall i, 0 <= i < 512 -> pd_word lay idx 0 i <> pd_word lay idx k j) as Hne.
    { intros i Hi E. apply pd_word_inj in E as [? _]; [done | lia..]. }
    by rewrite map_fb_out, (map_region_out BIGPIE true), (map_region_out HEAP_EXT true), (map_region_out HEAP true), (map_region_out STACK false),
      (map_region_out TEXT false), (map_region_out LOW false), identity_map_pd by auto.
Qed.

Lemma frame_aligned r k : frame lay r idx (k * 0x200000) mod 0x200000 = 0.
Proof.
  destruct Hlay as [_ _ _ _ _ _ Hu _]. destruct (Hu r) as [_ Hr]. unfold frame.
  assert (exists s, region_size r = s * 0x200000) as [s ->].
  { exists (last_page r - first_page r). destruct (region_pages r). lia. }
  replace (g_user lay r + idx * (s * 0x200000) + k * 0x200000) with (g_user lay r + (idx * s + k) * 0x200000) by lia.
  by rewrite Z.mod_add.
Qed.

Lemma leaf_region r o :
  0 <= o < region_size r -> leaf built the_cr3 (region_base r + o) = Z.lor (frame lay r idx (o / 0x200000 * 0x200000)) uflags.
Proof.
  intros Ho. destruct (region_pages r) as [Hb Hs]. set (k := o / 0x200000).
  assert (0 <= k /\ first_page r + k < last_page r) as [Hk1 Hk2].
  { split; [apply Z.div_pos; lia|]. assert (k < last_page r - first_page r); [|lia]. apply Z.div_lt_upper_bound; lia. }
  assert (0 <= first_page r /\ last_page r <= 448) as Hp by (destruct r; split; discriminate).
  rewrite leaf_built by lia.
  assert ((region_base r + o) / 2 ^ 30 = 0) as -> by (apply Z.div_small; lia).
  assert ((region_base r + o) / 2 ^ 21 = first_page r + k) as ->.
  { rewrite Hb. change (2 ^ 21) with 0x200000. rewrite Z.add_comm, Z.div_add by done. subst k. lia. }
  rewrite Z.mod_small, built_pd by lia. cbn [Z.eqb]. rewrite (user_entry_in r) by lia.
  rewrite Z.shiftl_mul_pow2 by done. do 3 f_equal. change (2 ^ 21) with 0x200000. lia.
Qed.

Lemma leaf_identity va :
  0 <= va < 3 * 2 ^ 30 -> (forall r, ~ region_base r <= va < region_base r + region_size r) ->
  ~ USER_FBDEV_BASE <= va < USER_FBDEV_BASE + fb_pages * 0x200000 ->
  leaf built the_cr3 va = identity_entry lay true (va / 0x200000 * 0x200000).
Proof.
  intros Hva Hr Hfb. rewrite leaf_built by lia. change 0x200000 with (2 ^ 21) in *.
  pose proof (Z.div_mod va (2 ^ 21) ltac:(done)) as Hd. pose proof (Z.mod_pos_bound va (2 ^ 21) ltac:(done)) as Hm.
  assert (va / 2 ^ 30 = va / 2 ^ 21 / 512) as Hk by (rewrite Z.div_div by done; reflexivity).
  pose proof (Z.div_mod (va / 2 ^ 21) 512 ltac:(done)) as Hd'. pose proof (Z.mod_pos_bound (va / 2 ^ 21) 512 ltac:(done)) as Hm'.
  assert (0 <= va / 2 ^ 30 < 3) as Hk3 by (split; [apply Z.div_pos; lia | apply Z.div_lt_upper_bound; lia]).
  rewrite built_pd; [|lia|lia|done|].
  - cbv zeta. rewrite !Z.shiftl_mul_pow2 by done. replace (va / 2 ^ 30 * 2 ^ 30 + (va / 2 ^ 21) mod 512 * 2 ^ 21) with (va / 2 ^ 21 * 2 ^ 21) by lia.
    destruct (Z.eqb_spec (va / 2 ^ 30) 0) as [E|E]; [|done]. apply user_entry_out. intros r Hj. apply (Hr r).
    destruct (region_pages r) as [H1 H2]. lia.
  - intros E Hj. apply Hfb. unfold USER_FBDEV_BASE. lia.
Qed.
End exact.

(** ** Isolation *)

Section claims.
Context (lay : layout) (Hlay : layout_ok lay) (fb : option (Z * Z)) (remap : option (Z * Z * Z)).

Lemma uflags_eq : uflags = 0x87.
Proof. reflexivity. Qed.

Lemma translate_region idx rd0 r o :
  0 <= idx < USER_AS_MAX_TASKS -> 0 <= o < region_size r ->
  let rd := built lay fb remap idx rd0 in let cr3 := the_cr3 lay fb remap idx rd0 in
  translate rd cr3 (region_base r + o) = frame lay r idx o /\ user_pte_flags rd cr3 (region_base r + o) = uflags.
Proof.
  intros Hidx Ho rd cr3. subst rd cr3. pose proof (leaf_region lay Hlay fb remap idx Hidx rd0 r o Ho) as Hl.
  pose proof (frame_aligned lay Hlay idx r (o / 0x200000)) as Ha.
  destruct (region_pages r) as [Hb Hs]. split.
  - unfold translate. rewrite Hl, entry_page by done. unfold frame. rewrite Hb, Z.add_comm, (Z.add_comm _ o), Z.mod_add by done.
    pose proof (Z.div_mod o 0x200000 ltac:(done)). lia.
  - assert (0 <= first_page r /\ last_page r <= 448) as Hp by (destruct r; split; discriminate).
    eapply flags_built; [done | done | lia | exact Hl | | done | done | done].
    revert Ha. generalize (frame lay r idx (o / 0x200000 * 0x200000)). intros x Hx.
    pose proof (Z.div_mod x 0x200000 ltac:(done)) as Hd. rewrite Hx in Hd. rewrite Hd. replace (0x200000 * (x / 0x200000) + 0)
      with (512 * (x / 0x200000) * 4096) by lia. by apply Z.mod_mul.
Qed.

(** C10: the memory that a task sees at the addresses of its regions is its own:
    every byte of a region is behind its address, accessible to user code, and
    two addresses of regions lead to the same byte of memory only when they are
    the same byte of the same region of the same task. *)
Theorem user_regions_private idx idx' rd0 rd0' r r' o o'
    (Hidx : 0 <= idx < USER_AS_MAX_TASKS) (Hidx' : 0 <= idx' < USER_AS_MAX_TASKS)
    (Ho : 0 <= o < region_size r) (Ho' : 0 <= o' < region_size r') :
  let rd := built lay fb remap idx rd0 in let cr3 := the_cr3 lay fb remap idx rd0 in
  let rd' := built lay fb remap idx' rd0' in let cr3' := the_cr3 lay fb remap idx' rd0' in
  translate rd cr3 (region_base r + o) = frame lay r idx o /\
  user_pte_flags rd cr3 (region_base r + o) = uflags /\
  (translate rd cr3 (region_base r + o) = translate rd' cr3' (region_base r' + o') -> idx = idx' /\ r = r' /\ o = o').
Proof.
  intros rd cr3 rd' cr3'. destruct (translate_region idx rd0 r o Hidx Ho) as [E1 E2].
  destruct (translate_region idx' rd0' r' o' Hidx' Ho') as [E1' _]. split; [exact E1|]. split; [exact E2|].
  subst rd cr3 rd' cr3'. rewrite E1, E1'. unfold frame. intros E. destruct (decide (r = r')) as [<-|Hne].
  - assert (0 < region_size r) by (by destruct r). assert (idx = idx') as <- by nia. split; [done|]. split; [done | lia].
  - exfalso. destruct Hlay as [_ _ _ _ _ _ _ Hap].
    assert (idx * region_size r + o < USER_AS_MAX_TASKS * region_size r) by (unfold USER_AS_MAX_TASKS in *; nia).
    assert (idx' * region_size r' + o' < USER_AS_MAX_TASKS * region_size r') by (unfold USER_AS_MAX_TASKS in *; nia).
    assert (0 <= idx * region_size r /\ 0 <= idx' * region_size r') by (split; apply Z.mul_nonneg_nonneg; lia).
    destruct (Hap r r' Hne); lia.
Qed.

(** The page of 2 MiB around an address overlaps the image of the kernel. *)
Definition kernel_page (va : Z) : bool :=
  (kernel_start lay <? va / 0x200000 * 0x200000 + 0x200000) && (va / 0x200000 * 0x200000 <? kernel_end lay).

(** Outside of the windows of a user task an address below 3 GiB is the
    physical address, and user code may use it exactly when its page holds
    nothing of the kernel: the image of the kernel is protected, all other
    memory is open to every task, for reading and for writing. *)
Theorem identity_map_exact idx rd0 va
    (Hidx : 0 <= idx < USER_AS_MAX_TASKS) (Hva : 0 <= va < 3 * 2 ^ 30)
    (Hr : forall r, ~ region_base r <= va < region_base r + region_size r)
    (Hfb : ~ USER_FBDEV_BASE <= va < USER_FBDEV_BASE + fb_pages fb * 0x200000) :
  let rd := built lay fb remap idx rd0 in let cr3 := the_cr3 lay fb remap idx rd0 in
  translate rd cr3 va = va /\ flag (user_pte_flags rd cr3 va) PTE_WRITE = true /\
  flag (user_pte_flags rd cr3 va) PTE_USER = negb (kernel_page va).
Proof.
  intros rd cr3. subst rd cr3. pose proof (leaf_identity lay Hlay fb remap idx Hidx rd0 va Hva Hr Hfb) as Hl.
  set (base := va / 0x200000 * 0x200000) in *. assert (base mod 0x200000 = 0) as Hb by (by apply Z.mod_mul).
  assert (base mod 4096 = 0) as Hb'.
  { subst base. replace (va / 0x200000 * 0x200000) with (512 * (va / 0x200000) * 4096) by lia. by apply Z.mod_mul. }
  assert (exists f, leaf (built lay fb remap idx rd0) (the_cr3 lay fb remap idx rd0) va = Z.lor base f /\
                    f = if kernel_page va then 0x83 else 0x87) as (f & Hf & ->).
  { eexists. split; [rewrite Hl; unfold identity_entry; reflexivity|]. unfold kernel_page. fold base. change (2 * MiB) with 0x200000.
    repeat (ztest; cbn [andb orb]); try lia; reflexivity. }
  split.
  - unfold translate. rewrite Hf, entry_page by (destruct (kernel_page va); done). pose proof (Z.div_mod va 0x200000 ltac:(done)). lia.
  - destruct (kernel_page va); [rewrite (flags_built lay Hlay fb remap idx Hidx rd0 va base 0x83) by (done || lia)
                               |rewrite (flags_built lay Hlay fb remap idx Hidx rd0 va base 0x87) by (done || lia)]; done.
Qed.

(** The image of the kernel starts at 128 MiB ([config/linker.ld]), well inside
    the range of addresses that [user_range_ok] takes for user memory. *)
Lemma copy_reaches_kernel (m : CString.mem) idx rd0 bs :
  kernel_start lay = 0x08000000 -> 0x08200000 <= kernel_end lay -> 0 <= idx < USER_AS_MAX_TASKS -> Z.of_nat (length bs) <= 0x200000 ->
  flag (user_pte_flags (built lay fb remap idx rd0) (the_cr3 lay fb remap idx rd0) 0x08000000) PTE_USER = false /\
  copy_to_user m 0x08000000 bs = Some (CString.store_bytes m 0x08000000 bs).
Proof.
  intros Hks Hke Hidx Hbs. split.
  - destruct (identity_map_exact idx rd0 0x08000000 Hidx) as (_ & _ & H).
    + done.
    + intros r. destruct r; vm_compute; intros [? ?]; congruence.
    + unfold USER_FBDEV_BASE. lia.
    + rewrite H. unfold kernel_page. rewrite Hks. change (0x08000000 / 0x200000 * 0x200000) with 0x08000000.
      repeat (ztest; cbn [andb]); done || lia.
  - apply copy_to_user_some. split; [|done]. apply user_range_ok_spec; unfold USER_MIN_ADDR, USER_MAX_ADDR; lia.
Qed.

(** The regions of the tasks are part of the image of the kernel, so the image
    spans the addresses of the windows: there the kernel does not see its own
    memory while it runs on the tables of a task, but a region of the task. *)
Lemma windows_hide_kernel va r :
  kernel_start lay = 0x08000000 ->
  (forall q, kernel_start lay <= g_user lay q /\ g_user lay q + USER_AS_MAX_TASKS * region_size q <= kernel_end lay) ->
  r <> LOW -> region_base r <= va < region_base r + region_size r -> kernel_start lay <= va < kernel_end lay.
Proof.
  intros Hks Himg Hr Hva. destruct Hlay as [_ _ _ _ _ _ _ Hap]. destruct (Himg HEAP) as [A1 A2], (Himg BIGPIE) as [B1 B2].
  specialize (Hap HEAP BIGPIE ltac:(done)). rewrite Hks in *.
  assert (region_base r + region_size r <= 0x31000000 /\ 0x08000000 <= region_base r) as [? ?] by (destruct r; done || (split; discriminate)).
  change (USER_AS_MAX_TASKS * region_size HEAP) with 0x20000000 in *. change (USER_AS_MAX_TASKS * region_size BIGPIE) with 0x10000000 in *. lia.
Qed.
End claims.

(** ** A layout *)

(** The tables at the start of the image, the regions one after the other. *)
Definition demo_layout : layout :=
  {| g_pml4 := 0x08100000; g_pdpt := 0x08200000; g_pd := 0x08300000;
     g_user := fun r => match r with
                        | LOW => 0x0A000000 | TEXT => 0x0E000000 | STACK => 0x10000000
                        | HEAP => 0x12000000 | HEAP_EXT => 0x32000000 | BIGPIE => 0x3A000000
                        end;
     kernel_start := 0x08000000; kernel_end := 0x4A000000 |}.

Lemma demo_layout_ok : layout_ok demo_layout.
Proof.
  split; [split; [cbn; lia | reflexivity]..|left; vm_compute; discriminate|left; vm_compute; discriminate|left; vm_compute; discriminate| |].
  - intros r. destruct r; split; discriminate || reflexivity.
  - intros r r' Hne. destruct r, r'; try done; first [left; vm_compute; discriminate | right; vm_compute; discriminate].
Qed.

Definition demo_tables (idx : Z) : words := built demo_layout None None idx (fun _ => 0).
Definition demo_cr3 (idx : Z) : Z := the_cr3 demo_layout None None idx (fun _ => 0).

Lemma user_regions_private_witness :
  translate (demo_tables 3) (demo_cr3 3) 0x20401234 = 0x18001234 /\ user_pte_flags (demo_tables 3) (demo_cr3 3) 0x20401234 = 0x87 /\
  translate (demo_tables 3) (demo_cr3 3) 0x20401234 <> translate (demo_tables 5) (demo_cr3 5) 0x20401234.
Proof.
  destruct (user_regions_private demo_layout demo_layout_ok None None 3 5 (fun _ => 0) (fun _ => 0) HEAP HEAP 0x1234 0x1234) as (E1 & E2 & E3).
  - vm_compute. split; [discriminate | reflexivity].
  - vm_compute. split; [discriminate | reflexivity].
  - vm_compute. split; [discriminate | reflexivity].
  - vm_compute. split; [discriminate | reflexivity].
  - split; [exact E1|]. split; [exact E2|]. intros E. destruct (E3 E) as [? _]. discriminate.
Defined.

(** User code may not use the first page of the kernel, and may use the memory
    above the kernel. *)
Lemma identity_map_exact_witness :
  flag (user_pte_flags (demo_tables 3) (demo_cr3 3) 0x08000000) PTE_USER = false /\
  flag (user_pte_flags (demo_tables 3) (demo_cr3 3) 0x50000000) PTE_USER = true.
Proof.
  split.
  - destruct (identity_map_exact demo_layout demo_layout_ok None None 3 (fun _ => 0) 0x08000000) as (_ & _ & H).
    + vm_compute. split; [discriminate | reflexivity].
    + lia.
    + intros r. destruct r; vm_compute; intros [? ?]; congruence.
    + vm_compute. intros [? ?]; congruence.
    + exact H.
  - destruct (identity_map_exact demo_layout demo_layout_ok None None 3 (fun _ => 0) 0x50000000) as (_ & _ & H).
    + vm_compute. split; [discriminate | reflexivity].
    + lia.
    + intros r. destruct r; vm_compute; intros [? ?]; congruence.
    + vm_compute. intros [? ?]; congruence.
    + exact H.
Defined.
