(* ===== verification/UserExec.v ===== *)
(** * The first stack of a program ([src/src/sys/user_exec.c])

    [user_exec_run]: the strings of the arguments and of the environment, and
    below them the vector that the System V ABI prescribes: the number of
    arguments, their addresses, the addresses of the environment and the
    auxiliary vector. The jump to user code is the result [Enter]. *)

From S2P Require Import Prelude CString Path Process Uaccess.

(** [user_exec_image_t] *)
Record user_exec_image := {
  entry : Z; img_stack_top : Z; img_heap_base : Z; at_phdr : Z; at_phnum : Z; at_entry : Z; at_base : Z
}.

(** What [user_iretq_enter] is called with, and the memory. *)
Inductive user_start := Enter (rip rsp argc argv : Z) (m : CString.mem) | Failed (r : Z).

(** The value of [*sp] and the memory after a push, [None] is [-1]. *)
Definition user_push_u64 (sp v : Z) (m : CString.mem) : option (Z * CString.mem) :=
  if sp <? 8 then None else Some (sp - 8, store_bytes m (sp - 8) (le_bytes 8 v)).

(** The pushes of a list, in order. *)
Fixpoint push_all (l : list Z) (sp : Z) (m : CString.mem) : option (Z * CString.mem) :=
  match l with
  | [] => Some (sp, m)
  | v :: l => match user_push_u64 sp v m with Some (sp, m) => push_all l sp m | None => None end
  end.

(** The strings, the last one first, and their addresses. *)
Fixpoint push_strings (l : list (list Z)) (sp : Z) (m : CString.mem) : Z * CString.mem * list Z :=
  match l with
  | [] => (sp, m, [])
  | s :: l =>
      let '(sp, m, ptrs) := push_strings l sp m in
      let n := zlength s + 1 in
      let sp := u64 (sp - n) in
      (sp, store_bytes m sp (s ++ [0]), sp :: ptrs)
  end.

(** The strings that the loops count: at most 32, and up to the null pointer
    that ends the array. *)
Definition counted (n : Z) (l : list (list Z)) : list (list Z) :=
  let n := if n <? 0 then 0 else n in
  let n := if 32 <? n then 32 else n in
  take (Z.to_nat n) l.

(** The auxiliary vector, in the order in which it is pushed. *)
Definition auxv (img : user_exec_image) (c : credentials) : list Z :=
  [0; 0; egid c; 14; gid c; 13; euid c; 12; uid c; 11; 4096; 6; at_base img; 7; at_entry img; 9;
   at_phnum img; 5; 56; 4; at_phdr img; 3].

Definition user_exec_run (img : user_exec_image) (cur : option credentials) (argc : Z) (argv : list (list Z)) (envc : Z)
    (envp : list (list Z)) (m : CString.mem) : user_start :=
  match cur with
  | None => Failed (-1)
  | Some c =>
      let args := counted argc argv in
      let envs := counted envc envp in
      let '(sp, m, argv_ptrs) := push_strings args (img_stack_top img) m in
      let '(sp, m, envp_ptrs) := push_strings envs sp m in
      let qwords := 25 + zlength args + zlength envs in
      let sp := Z.land sp (Z.lnot 0xF) in
      if Z.odd qwords && (sp <? 8) then Failed (-1)
      else
        let sp := if Z.odd qwords then sp - 8 else sp in
        match push_all (auxv img c ++ [0] ++ rev envp_ptrs ++ rev (argv_ptrs ++ [0]) ++ [zlength args]) sp m with
        | None => Failed (-1)
        | Some (sp, m) => Enter (entry img) sp (zlength args) (u64 (sp + 8)) m
        end
  end.

(** ** What is pushed stays *)

(** Bytes outside of the range are as they were. *)
Definition same_outside (m m' : CString.mem) (lo hi : Z) : Prop := forall a, ~ lo <= a < hi -> m' a = m a.

Lemma load_outside m m' lo hi p n :
  same_outside m m' lo hi -> (p + Z.of_nat n <= lo \/ hi <= p) -> load_bytes m' p n = load_bytes m p n.
Proof. intros H Hp. apply load_bytes_ext. intros x Hx. apply H. lia. Qed.

(** The words of memory from an address on. *)
Fixpoint word_list (l : list Z) : list Z := match l with [] => [] | v :: l => le_bytes 8 v ++ word_list l end.

Lemma length_word_list l : length (word_list l) = (8 * length l)%nat.
Proof. induction l as [|v l IH]; [done|]. cbn [word_list length]. rewrite length_app, length_le_bytes, IH. lia. Qed.

Lemma word_list_app l k : word_list (l ++ k) = word_list l ++ word_list k.
Proof. induction l as [|v l IH]; [done|]. cbn [word_list app]. by rewrite IH, app_assoc. Qed.

Lemma push_all_spec l sp m sp' m' :
  push_all l sp m = Some (sp', m') ->
  sp' = sp - 8 * zlength l /\ (l <> [] -> 0 <= sp') /\ same_outside m m' sp' sp /\ load_bytes m' sp' (8 * length l) = word_list (rev l).
Proof.
  revert sp m. induction l as [|v l IH]; intros sp m; cbn [push_all].
  { intros [= <- <-]. unfold zlength. cbn. split; [lia|]. split; [done|]. by split. }
  unfold user_push_u64. destruct (Z.ltb_spec sp 8) as [|Hsp]; [done|]. intros E.
  apply IH in E as (-> & Hpos & Hout & Hl). unfold zlength in *. cbn [length].
  assert (same_outside m (store_bytes m (sp - 8) (le_bytes 8 v)) (sp - 8) sp) as Hv.
  { intros a Ha. apply store_bytes_out. rewrite length_le_bytes. lia. }
  split; [lia|]. split; [intros _; destruct l; [cbn; lia | apply Hpos; done]|]. split.
  - intros a Ha. rewrite (Hout a) by lia. apply Hv. lia.
  - replace (8 * S (length l))%nat with (8 * length l + 8)%nat by lia. rewrite load_bytes_app, Hl. cbn [rev].
    rewrite word_list_app. cbn [word_list]. rewrite app_nil_r. f_equal.
    replace (sp - 8 - 8 * Z.of_nat (length l) + Z.of_nat (8 * length l)) with (sp - 8) by lia.
    rewrite (load_outside _ m' _ _ (sp - 8) 8 Hout) by lia. rewrite <- (length_le_bytes 8 v) at 1. apply load_store_bytes.
Qed.

(** The bytes that the strings take. *)
Definition strings_size (l : list (list Z)) : Z := fold_right (fun s n => n + (zlength s + 1)) 0 l.

Lemma strings_size_nonneg l : 0 <= strings_size l.
Proof.
  induction l as [|s l IH]; [done|]. change (strings_size (s :: l)) with (strings_size l + (zlength s + 1)). unfold zlength. lia.
Qed.

(** The string [s] is at [p]. *)
Definition string_at (m : CString.mem) (p : Z) (s : list Z) : Prop := load_bytes m p (S (length s)) = s ++ [0].

Lemma push_strings_spec l sp m sp' m' ptrs :
  strings_size l <= sp < 2 ^ 64 -> push_strings l sp m = (sp', m', ptrs) ->
  sp' = sp - strings_size l /\ same_outside m m' sp' sp /\
  Forall2 (fun p s => string_at m' p s /\ sp' <= p /\ p + zlength s < sp) ptrs l.
Proof.
  revert sp' m' ptrs. induction l as [|s l IH]; intros sp' m' ptrs Hsp; cbn [push_strings strings_size fold_right] in *.
  { intros [= <- <- <-]. split; [lia|]. by split. }
  fold (strings_size l) in *. pose proof (strings_size_nonneg l) as Hl.
  destruct (push_strings l sp m) as [[sp1 m1] ptrs1] eqn:E. assert (0 <= zlength s) as Hs by (unfold zlength; lia).
  destruct (IH sp1 m1 ptrs1 ltac:(lia) eq_refl) as (-> & Hout & Hall). rewrite u64_small by lia. intros [= <- <- <-].
  set (p := sp - strings_size l - (zlength s + 1)). assert (Z.of_nat (length (s ++ [0])) = zlength s + 1) as Hn.
  { rewrite length_app. unfold zlength. cbn. lia. }
  assert (same_outside m1 (store_bytes m1 p (s ++ [0])) p (sp - strings_size l)) as Hp.
  { intros a Ha. apply store_bytes_out. lia. }
  split; [lia|]. split.
  - intros a Ha. rewrite (Hp a) by lia. apply Hout. lia.
  - constructor.
    + split; [|lia]. unfold string_at. replace (S (length s)) with (length (s ++ [0])) by (rewrite length_app; cbn; lia). apply load_store_bytes.
    + eapply Forall2_impl; [exact Hall|]. cbn. intros q t (Hq & Hlo & Hhi). split; [|lia]. unfold string_at in *.
      rewrite <- Hq. apply (load_outside m1 _ p (sp - strings_size l)); [done | right; lia].
Qed.

Lemma strings_apart m m' lo hi ptrs l :
  same_outside m m' lo hi -> Forall2 (fun p s => string_at m p s /\ hi <= p) ptrs l -> Forall2 (string_at m') ptrs l.
Proof.
  intros Hout Hall. eapply Forall2_impl; [exact Hall|]. cbn. intros p s [Hs Hp]. unfold string_at in *. rewrite <- Hs.
  apply (load_outside m m' lo hi); [done | by right].
Qed.

(** The alignment that makes the final stack pointer a multiple of 16. *)
Lemma stack_aligned sp q :
  0 <= sp -> 0 <= q ->
  let a := Z.land sp (Z.lnot 0xF) in
  let a := if Z.odd q then a - 8 else a in
  (a - 8 * q) mod 16 = 0 /\ a <= sp /\ sp - 24 < a.
Proof.
  intros Hsp Hq. cbv zeta. rewrite <- Z.ldiff_land. change 0xF with (Z.ones 4). rewrite Z.ldiff_ones_r by done.
  rewrite Z.shiftr_div_pow2, Z.shiftl_mul_pow2 by done. change (2 ^ 4) with 16.
  pose proof (Z.div_mod sp 16 ltac:(done)). pose proof (Z.mod_pos_bound sp 16 ltac:(done)).
  destruct (Z.odd q) eqn:Eo.
  - apply Z.odd_spec in Eo as [k Hk]. split; [|lia]. replace (sp / 16 * 16 - 8 - 8 * q) with ((sp / 16 - 1 - k) * 16) by lia. by apply Z.mod_mul.
  - assert (Z.Even q) as [k Hk] by (apply Z.even_spec; rewrite <- Z.negb_odd, Eo; done).
    split; [|lia]. replace (sp / 16 * 16 - 8 * q) with ((sp / 16 - k) * 16) by lia. by apply Z.mod_mul.
Qed.

(** Room for the strings and the vector. *)
Definition stack_need (args envs : list (list Z)) : Z :=
  strings_size args + strings_size envs + 24 + 8 * (25 + zlength args + zlength envs).

(** C16: a program starts with the stack of the System V ABI: the stack pointer is
    a multiple of 16 and points to the number of arguments, the addresses of the
    arguments, a null, the addresses of the environment, a null and the auxiliary
    vector; every address leads to its string, and nothing outside of the stack
    is written. *)
Theorem initial_stack (img : user_exec_image) c argc argv envc envp m
    (Hroom : stack_need (counted argc argv) (counted envc envp) <= img_stack_top img < 2 ^ 64) :
  let args := counted argc argv in let envs := counted envc envp in
  exists sp m' aptrs eptrs,
    user_exec_run img (Some c) argc argv envc envp m = Enter (entry img) sp (zlength args) (sp + 8) m' /\
    sp mod 16 = 0 /\ img_stack_top img - stack_need args envs <= sp /\ same_outside m m' sp (img_stack_top img) /\
    load_bytes m' sp (8 * (25 + length args + length envs)) =
      word_list ([zlength args] ++ aptrs ++ [0] ++ eptrs ++ [0] ++ rev (auxv img c)) /\
    Forall2 (string_at m') aptrs args /\ Forall2 (string_at m') eptrs envs.
Proof.
  intros args envs. unfold stack_need in Hroom. fold args envs in Hroom.
  pose proof (strings_size_nonneg args) as Ha. pose proof (strings_size_nonneg envs) as He.
  assert (0 <= zlength args /\ 0 <= zlength envs) as [Hla Hle] by (unfold zlength; lia).
  unfold user_exec_run. fold args envs. set (top := img_stack_top img) in *.
  destruct (push_strings args top m) as [[sp1 m1] aptrs] eqn:E1. apply push_strings_spec in E1 as (-> & Ho1 & Hs1); [|lia].
  destruct (push_strings envs (top - strings_size args) m1) as [[sp2 m2] eptrs] eqn:E2.
  apply push_strings_spec in E2 as (-> & Ho2 & Hs2); [|lia].
  set (q := 25 + zlength args + zlength envs). set (sp2 := top - strings_size args - strings_size envs) in *.
  pose proof (stack_aligned sp2 q ltac:(lia) ltac:(lia)) as Hal. cbv zeta in Hal.
  assert (Z.odd q && (Z.land sp2 (Z.lnot 0xF) <? 8) = false) as ->.
  { destruct (Z.odd q); [|done]. cbn [andb]. ztest; lia. }
  set (a := if Z.odd q then _ else _) in *. destruct Hal as (Hal & Hle2 & Hlo). clearbody a.
  set (l := auxv img c ++ _). pose proof (Forall2_length _ _ _ Hs1) as Hn1. pose proof (Forall2_length _ _ _ Hs2) as Hn2.
  assert (length l = (25 + length args + length envs)%nat) as Hll.
  { subst l. rewrite !length_app, !length_rev, length_app. cbn [length auxv]. lia. }
  assert (zlength l = q) as Hzl by (unfold zlength, q, zlength in *; lia).
  destruct (push_all l a m2) as [[sp m']|] eqn:E3.
  2: { exfalso. revert E3. assert (8 * zlength l <= a) as Hfit by lia. clear -Hfit. revert a m2 Hfit.
       induction l as [|v l IH]; intros a m2 Hfit; cbn [push_all]; [done|]. unfold user_push_u64, zlength in *. cbn [length] in Hfit.
       destruct (Z.ltb_spec a 8); [lia|]. apply IH. lia. }
  apply push_all_spec in E3 as (-> & _ & Ho3 & Hw). rewrite Hzl in *. rewrite Hll in Hw.
  exists (a - 8 * q), m', aptrs, eptrs. split; [rewrite u64_small by lia; done|].
  split; [exact Hal|]. split; [unfold stack_need; fold q; lia|]. split; [|split; [|split]].
  - intros x Hx. rewrite (Ho3 x), (Ho2 x), (Ho1 x) by lia. done.
  - rewrite Hw. f_equal. subst l. rewrite !rev_app_distr, !rev_involutive. cbn [rev app]. rewrite <- !app_assoc. done.
  - apply (strings_apart m1 m' (a - 8 * q) (top - strings_size args)).
    + intros x Hx. rewrite (Ho3 x), (Ho2 x) by lia. done.
    + eapply Forall2_impl; [exact Hs1|]. cbn. intros p s (Hp & ? & ?). split; [done | lia].
  - apply (strings_apart m2 m' (a - 8 * q) sp2).
    + intros x Hx. rewrite (Ho3 x) by lia. done.
    + eapply Forall2_impl; [exact Hs2|]. cbn. intros p s (Hp & ? & ?). split; [done | lia].
Qed.

(** ** A program with two arguments *)

Definition demo_img : user_exec_image :=
  {| entry := 0x401000; img_stack_top := USER_STACK_TOP; img_heap_base := USER_HEAP_BASE; at_phdr := 0x400040; at_phnum := 3;
     at_entry := 0x401000; at_base := 0 |}.

Lemma initial_stack_witness :
  exists sp m', user_exec_run demo_img (Some zero_cred) 2 [str "ls"; str "-l"] 1 [str "HOME=/"] (fun _ => 0) =
    Enter 0x401000 sp 2 (sp + 8) m' /\ sp mod 16 = 0.
Proof.
  destruct (initial_stack demo_img zero_cred 2 [str "ls"; str "-l"] 1 [str "HOME=/"] (fun _ => 0)) as (sp & m' & _ & _ & E & Ha & _).
  - vm_compute. split; [discriminate | reflexivity].
  - exists sp, m'. split; [exact E | exact Ha].
Defined.
