(* ===== verification/Elf.v ===== *)
(** * Loading programs ([src/src/elf/elf_loader.c])

    The loader of 64-bit ELF files: the headers, the segments, the relocations
    and the interpreter. A file is read through the functions of its superblock
    ([Vfs.v]); [m] is the memory that the program and the kernel share. A result
    [None] is a fault of [vfs_resolve] or a dynamic section without an end.
    Messages are left out. *)

From S2P Require Import Prelude CString Block Path Process Rng Uaccess Vfs.

Definition ELF64_EHDR_SIZE : Z := 64.
Definition ELF64_PHDR_SIZE : Z := 56.
Definition ELF64_RELA_SIZE : Z := 24.
Definition ELF_IO_CHUNK : Z := 4096.
Definition ELF_MAX_PHNUM : Z := 128.
Definition PT_LOAD : Z := 1.
Definition PT_DYNAMIC : Z := 2.
Definition PT_INTERP : Z := 3.
Definition PT_PHDR : Z := 6.
Definition ET_EXEC : Z := 2.
Definition ET_DYN : Z := 3.
Definition DT_NULL : Z := 0.
Definition DT_RELA : Z := 7.
Definition DT_RELASZ : Z := 8.
Definition DT_RELAENT : Z := 9.
Definition R_X86_64_RELATIVE : Z := 8.
Definition USER_ADDR_MIN : Z := 0x1000.
Definition USER_ADDR_MAX : Z := 0x40000000.
Definition EDGE_MAIN_ET_DYN_BASE : Z := 0x400000.
Definition EDGE_MAIN_ET_DYN_BASE_LARGE : Z := 0x30000000.
Definition EDGE_INTERP_ET_DYN_BASE : Z := 0x20000000.
Definition USER_LOW_LIMIT_ADDR : Z := 0x400000 + 4 * 1024 * 1024.

Record elf64_ehdr := { e_ident : list Z; e_type : Z; e_machine : Z; e_entry : Z; e_phoff : Z; e_phentsize : Z; e_phnum : Z }.
Definition ehdr_of (bs : list Z) : elf64_ehdr :=
  {| e_ident := take 16 bs; e_type := field 16 2 bs; e_machine := field 18 2 bs; e_entry := field 24 8 bs;
     e_phoff := field 32 8 bs; e_phentsize := field 54 2 bs; e_phnum := field 56 2 bs |}.

Record elf64_phdr := { p_type : Z; p_offset : Z; p_vaddr : Z; p_filesz : Z; p_memsz : Z }.
Definition phdr_of (bs : list Z) : elf64_phdr :=
  {| p_type := field 0 4 bs; p_offset := field 8 8 bs; p_vaddr := field 16 8 bs; p_filesz := field 32 8 bs;
     p_memsz := field 40 8 bs |}.

(** The array of [n] program headers. *)
Fixpoint phdrs_of (n : nat) (bs : list Z) : list elf64_phdr :=
  match n with O => [] | S n => phdr_of (take 56 bs) :: phdrs_of n (drop 56 bs) end.

Record edge_elf_loaded := {
  load_bias : Z; l_entry : Z; l_phdr : Z; l_phnum : Z; load_hi : Z; interp_off : Z; interp_sz : Z; has_interp : bool;
  interp_path : path
}.
Record edge_elf_image := {
  entry_rip : Z; im_phdr : Z; im_phnum : Z; im_entry : Z; im_base : Z; main_load_hi : Z
}.

Definition elf_valid (eh : elf64_ehdr) : bool :=
  test (take 4 (e_ident eh) = [0x7F; 69; 76; 70]) && (nth 4 (e_ident eh) 0 =? 2) && (e_machine eh =? 62) &&
  ((e_type eh =? ET_EXEC) || (e_type eh =? ET_DYN)).

Definition user_addr_range_ok (addr len : Z) : bool :=
  if addr <? USER_ADDR_MIN then false
  else if USER_ADDR_MAX <=? addr then false
  else if len =? 0 then true
  else if u64 (addr + len) <? addr then false
  else if USER_ADDR_MAX <? u64 (addr + len) then false
  else true.

(** ** Relocations *)

(** The entries of the dynamic section from [p] on; [x] are the address, the
    size and the entry size of the table found so far, [n] bounds the entries
    looked at. *)
Fixpoint dyn_loop (n : nat) (p : Z) (m : CString.mem) (x : Z * Z * Z) : option (Z * Z * Z) :=
  match n with
  | O => None
  | S n =>
      let tag := load64 m p in
      let val := load64 m (u64 (p + 8)) in
      let '(addr, sz, ent) := x in
      if tag =? DT_NULL then Some x
      else
        dyn_loop n (u64 (p + 16)) m
          (if tag =? DT_RELA then (val, sz, ent) else if tag =? DT_RELASZ then (addr, val, ent)
           else if tag =? DT_RELAENT then (addr, sz, val) else x)
  end.

(** The relocations from the [i]-th on. *)
Fixpoint rela_loop (n : nat) (i ent rela bias : Z) (m : CString.mem) : CString.mem * bool :=
  match n with
  | O => (m, true)
  | S n =>
      let r := u64 (rela + i * ent) in
      let rtype := u32 (load64 m (u64 (r + 8))) in
      let where_ := u64 (bias + load64 m r) in
      let value := u64 (bias + load64 m (u64 (r + 16))) in
      if negb (rtype =? R_X86_64_RELATIVE) then rela_loop n (i + 1) ent rela bias m
      else if negb (user_addr_range_ok where_ 8) then (m, false)
      else rela_loop n (i + 1) ent rela bias (store_bytes m where_ (le_bytes 8 value))
  end.

Fixpoint find_type (ty : Z) (phs : list elf64_phdr) : option elf64_phdr :=
  match phs with
  | [] => None
  | ph :: phs => if p_type ph =? ty then Some ph else find_type ty phs
  end.

Section load.
Context (dyn_max : nat).

Definition edge_load_relative_relocs (phs : list elf64_phdr) (bias : Z) (m : CString.mem) : option (CString.mem * bool) :=
  match find_type PT_DYNAMIC phs with
  | None => Some (m, true)
  | Some ph =>
      let dyn := u64 (bias + p_vaddr ph) in
      if dyn =? 0 then Some (m, true)
      else
        match dyn_loop dyn_max dyn m (0, 0, ELF64_RELA_SIZE) with
        | None => None
        | Some (addr, sz, ent) =>
            if (addr =? 0) || (sz =? 0) || (ent <? ELF64_RELA_SIZE) then Some (m, true)
            else Some (rela_loop (Z.to_nat (sz / ent)) 0 ent (u64 (bias + addr)) bias m)
        end
  end.

Context {W D : Type} `{!filesystems W} `{!machine W} `{!driver D}.
Implicit Types (s : vfs W D).

(** ** Reading *)

(** The loop that fills the buffer, [buf] so far; [n] bounds the turns. *)
Fixpoint pread_loop (n : nat) (sb : superblock) (ino : vfs_inode) (off done len : Z) (buf : list Z) s : vfs W D * option (list Z) :=
  if len <=? done then (s, Some buf)
  else
    match n with
    | O => (s, None)
    | S n =>
        let '(w, r, bs) := op_read sb ino (u32 (off + done)) (u32 (len - done)) (world s) in
        let s := with_world s w in
        if r <? 0 then (s, None)
        else if r =? 0 then
          (s, if u32 (off + done) <? i_size ino then Some (buf ++ replicate (Z.to_nat (len - done)) 0) else None)
        else pread_loop n sb ino off (u32 (done + r)) len (buf ++ take (Z.to_nat r) bs) s
    end.

Definition vfs_pread_exact (sb : option superblock) (ino : vfs_inode) (off len : Z) s : vfs W D * option (list Z) :=
  match sb with
  | None => (s, None)
  | Some sb =>
      if len =? 0 then (s, Some [])
      else if negb (sb_has sb OP_READ) then (s, None)
      else pread_loop (Z.to_nat len) sb ino off 0 len [] s
  end.

(** ** Segments *)

(** The bytes of the next piece of a segment: up to a page of the file. *)
Definition piece (foff left : Z) : Z :=
  let n := u32 left in
  let mis := u32 (Z.land foff (ELF_IO_CHUNK - 1)) in
  if negb (mis =? 0) then (if u32 (ELF_IO_CHUNK - mis) <? n then u32 (ELF_IO_CHUNK - mis) else n)
  else if ELF_IO_CHUNK <? n then ELF_IO_CHUNK else n.

(** The loop that copies the bytes of the file. *)
Fixpoint copy_loop (n : nat) (sb : option superblock) (ino : vfs_inode) (ph : elf64_phdr) (dst done : Z) (m : CString.mem) s :
    CString.mem * vfs W D * bool :=
  if p_filesz ph <=? done then (m, s, true)
  else
    match n with
    | O => (m, s, false)
    | S n =>
        let foff := u64 (p_offset ph + done) in
        let k := piece foff (p_filesz ph - done) in
        match vfs_pread_exact sb ino (u32 foff) k s with
        | (s, None) => (m, s, false)
        | (s, Some bs) => copy_loop n sb ino ph dst (done + k) (store_bytes m (u64 (dst + done)) (take (Z.to_nat k) bs)) s
        end
    end.

(** One segment, with the highest address so far. *)
Definition load_segment (sb : option superblock) (ino : vfs_inode) (ph : elf64_phdr) (bias hi : Z) (m : CString.mem) s :
    CString.mem * vfs W D * option Z :=
  if i_size ino <? u64 (p_offset ph + p_filesz ph) then (m, s, None)
  else if p_memsz ph <? p_filesz ph then (m, s, None)
  else
    let dst := u64 (bias + p_vaddr ph) in
    if negb (user_addr_range_ok dst (p_memsz ph)) then (m, s, None)
    else
      let stop := u64 (dst + p_memsz ph) in
      if stop <? dst then (m, s, None)
      else
        match copy_loop (Z.to_nat (p_filesz ph)) sb ino ph dst 0 m s with
        | (m, s, false) => (m, s, None)
        | (m, s, true) =>
            (store_bytes m (u64 (dst + p_filesz ph)) (replicate (Z.to_nat (u32 (p_memsz ph - p_filesz ph))) 0), s,
             Some (if hi <? stop then stop else hi))
        end.

Fixpoint load_segments (sb : option superblock) (ino : vfs_inode) (phs : list elf64_phdr) (bias hi : Z) (m : CString.mem) s :
    CString.mem * vfs W D * option Z :=
  match phs with
  | [] => (m, s, Some hi)
  | ph :: phs =>
      if negb (p_type ph =? PT_LOAD) then load_segments sb ino phs bias hi m s
      else
        match load_segment sb ino ph bias hi m s with
        | (m, s, None) => (m, s, None)
        | (m, s, Some hi) => load_segments sb ino phs bias hi m s
        end
  end.

(** The end of the image of a program that may be placed anywhere, [None] when
    it overflows. *)
Fixpoint relative_hi (phs : list elf64_phdr) (hi : Z) : option Z :=
  match phs with
  | [] => Some hi
  | ph :: phs =>
      if negb (p_type ph =? PT_LOAD) then relative_hi phs hi
      else
        let stop := u64 (p_vaddr ph + p_memsz ph) in
        if stop <? p_vaddr ph then None else relative_hi phs (if hi <? stop then stop else hi)
  end.

Definition choose_bias (eh : elf64_ehdr) (phs : list elf64_phdr) (et_dyn_base : Z) : option Z :=
  let bias := if e_type eh =? ET_DYN then et_dyn_base else 0 in
  if (e_type eh =? ET_DYN) && (et_dyn_base =? EDGE_MAIN_ET_DYN_BASE) then
    match relative_hi phs 0 with
    | None => None
    | Some hi => Some (if USER_LOW_LIMIT_ADDR <? u64 (EDGE_MAIN_ET_DYN_BASE + hi) then EDGE_MAIN_ET_DYN_BASE_LARGE else bias)
    end
  else Some bias.

(** ** The rest of the headers *)

(** The address of the headers and the interpreter, as far as they are found. *)
Fixpoint header_loop (sb : option superblock) (ino : vfs_inode) (phs : list elf64_phdr) (out : edge_elf_loaded) s :
    vfs W D * option edge_elf_loaded :=
  match phs with
  | [] => (s, Some out)
  | ph :: phs =>
      let out := if p_type ph =? PT_PHDR
                 then {| load_bias := load_bias out; l_entry := l_entry out; l_phdr := u64 (load_bias out + p_vaddr ph);
                         l_phnum := l_phnum out; load_hi := load_hi out; interp_off := interp_off out;
                         interp_sz := interp_sz out; has_interp := has_interp out; interp_path := interp_path out |}
                 else out in
      if negb (p_type ph =? PT_INTERP) then header_loop sb ino phs out s
      else if (p_filesz ph <? 2) || (256 <=? p_filesz ph) then (s, None)
      else if i_size ino <? u64 (p_offset ph + p_filesz ph) then (s, None)
      else
        match vfs_pread_exact sb ino (u32 (p_offset ph)) (u32 (p_filesz ph)) s with
        | (s, None) => (s, None)
        | (s, Some bs) =>
            header_loop sb ino phs
              {| load_bias := load_bias out; l_entry := l_entry out; l_phdr := l_phdr out; l_phnum := l_phnum out;
                 load_hi := load_hi out; interp_off := p_offset ph; interp_sz := p_filesz ph; has_interp := true;
                 interp_path := c_string (take (Z.to_nat (p_filesz ph - 1)) bs) |} s
        end
  end.

(** The address of the headers in the first segment that holds them, or 0. *)
Fixpoint phdr_in_segment (phoff bytes bias : Z) (phs : list elf64_phdr) : Z :=
  match phs with
  | [] => 0
  | ph :: phs =>
      if negb (p_type ph =? PT_LOAD) || (phoff <? p_offset ph) || (u64 (p_offset ph + p_filesz ph) <? u64 (phoff + bytes))
      then phdr_in_segment phoff bytes bias phs
      else u64 (u64 (bias + p_vaddr ph) + (phoff - p_offset ph))
  end.

Definition with_phdr (a : Z) (out : edge_elf_loaded) : edge_elf_loaded :=
  {| load_bias := load_bias out; l_entry := l_entry out; l_phdr := a; l_phnum := l_phnum out; load_hi := load_hi out;
     interp_off := interp_off out; interp_sz := interp_sz out; has_interp := has_interp out; interp_path := interp_path out |}.

(** What follows the segments. *)
Definition finish_load (sb : option superblock) (ino : vfs_inode) (eh : elf64_ehdr) (phs : list elf64_phdr) (bias hi : Z) s :
    vfs W D * option edge_elf_loaded :=
  let out := {| load_bias := bias; l_entry := u64 (bias + e_entry eh); l_phdr := 0; l_phnum := e_phnum eh; load_hi := hi;
                interp_off := 0; interp_sz := 0; has_interp := false; interp_path := [] |} in
  match header_loop sb ino phs out s with
  | (s, None) => (s, None)
  | (s, Some out) =>
      let out := if l_phdr out =? 0
                 then with_phdr (phdr_in_segment (e_phoff eh) (e_phnum eh * ELF64_PHDR_SIZE) bias phs) out else out in
      (s, if l_phdr out =? 0 then None else Some out)
  end.

Definition edge_load_elf_from_vfs (p : path) (et_dyn_base : Z) (m : CString.mem) s :
    option (CString.mem * vfs W D * option edge_elf_loaded) :=
  match vfs_resolve (Some p) s with
  | None => None
  | Some (s, Unresolved) => Some (m, s, None)
  | Some (s, Resolved ino sb) =>
      if is_kind ino VFS_INODE_DIR || (i_size ino <? ELF64_EHDR_SIZE) then Some (m, s, None)
      else
        match vfs_pread_exact sb ino 0 ELF64_EHDR_SIZE s with
        | (s, None) => Some (m, s, None)
        | (s, Some bs) =>
            let eh := ehdr_of bs in
            let ph_bytes := e_phnum eh * ELF64_PHDR_SIZE in
            if negb (elf_valid eh) || negb (e_phentsize eh =? ELF64_PHDR_SIZE) || (e_phnum eh =? 0) ||
               (ELF_MAX_PHNUM <? e_phnum eh) || (i_size ino <? u64 (e_phoff eh + ph_bytes))
            then Some (m, s, None)
            else
              match vfs_pread_exact sb ino (u32 (e_phoff eh)) ph_bytes s with
              | (s, None) => Some (m, s, None)
              | (s, Some bs) =>
                  let phs := phdrs_of (Z.to_nat (e_phnum eh)) bs in
                  match choose_bias eh phs et_dyn_base with
                  | None => Some (m, s, None)
                  | Some bias =>
                      match load_segments sb ino phs bias 0 m s with
                      | (m, s, None) => Some (m, s, None)
                      | (m, s, Some hi) =>
                          match edge_load_relative_relocs phs bias m with
                          | None => None
                          | Some (m, false) => Some (m, s, None)
                          | Some (m, true) => let '(s, out) := finish_load sb ino eh phs bias hi s in Some (m, s, out)
                          end
                      end
                  end
              end
        end
  end.

Definition elf_loader_probe (p : path) s : option (vfs W D * Z) :=
  match vfs_read_file p ELF64_EHDR_SIZE s with
  | None => None
  | Some (s, n, bs) => Some (s, if n <? ELF64_EHDR_SIZE then -1 else if elf_valid (ehdr_of bs) then 0 else -1)
  end.

Definition elf_loader_exec (p : path) (m : CString.mem) s : option (CString.mem * vfs W D * option edge_elf_image) :=
  match edge_load_elf_from_vfs p EDGE_MAIN_ET_DYN_BASE m s with
  | None => None
  | Some (m, s, None) => Some (m, s, None)
  | Some (m, s, Some main) =>
      let image entry base :=
        {| entry_rip := entry; im_phdr := l_phdr main; im_phnum := l_phnum main; im_entry := l_entry main;
           im_base := base; main_load_hi := load_hi main |} in
      if negb (has_interp main) then Some (m, s, Some (image (l_entry main) 0))
      else if negb (test (head (interp_path main) = Some slash)) then Some (m, s, None)
      else
        match edge_load_elf_from_vfs (interp_path main) EDGE_INTERP_ET_DYN_BASE m s with
        | None => None
        | Some (m, s, None) => Some (m, s, None)
        | Some (m, s, Some interp) => Some (m, s, Some (image (l_entry interp) (load_bias interp)))
        end
  end.
End load.
