(* ===== verification/ElfInv.v ===== *)
(** * The loader keeps to user memory and loads what the file says

    Whatever the file holds, loading changes no byte outside of the addresses of
    user code; and when the file is read faithfully, the segments are in memory
    as its headers describe them, with the relocations of its dynamic section
    applied. *)

From S2P Require Import Prelude CString Block Path Process Rng Uaccess Vfs FatVfs VfsInv Elf.

(** Only addresses of user code change. *)
Definition confined (m m' : CString.mem) : Prop := forall a, ~ USER_ADDR_MIN <= a < USER_ADDR_MAX -> m' a = m a.

Lemma confined_refl m : confined m m.
Proof. done. Qed.

Lemma confined_trans m1 m2 m3 : confined m1 m2 -> confined m2 m3 -> confined m1 m3.
Proof. intros H1 H2 a Ha. by rewrite H2, H1. Qed.

#[local] Hint Resolve confined_refl : core.

Lemma addr_range_ok addr len :
  0 <= addr < 2 ^ 64 -> 0 <= len < 2 ^ 64 ->
  user_addr_range_ok addr len = true -> USER_ADDR_MIN <= addr < USER_ADDR_MAX /\ addr + len <= USER_ADDR_MAX.
Proof. intros H1 H2 H3. by apply user_range_ok_spec in H3. Qed.

Lemma confined_store m p bs : USER_ADDR_MIN <= p -> p + zlength bs <= USER_ADDR_MAX -> confined m (store_bytes m p bs).
Proof. intros H1 H2 a Ha. apply store_bytes_out. unfold zlength in H2. lia. Qed.

(** The fields of a program header are 64 bits wide. *)
Definition phdr_ok (ph : elf64_phdr) : Prop :=
  0 <= p_offset ph < 2 ^ 64 /\ 0 <= p_vaddr ph < 2 ^ 64 /\ 0 <= p_filesz ph < 2 ^ 64 /\ 0 <= p_memsz ph < 2 ^ 64.

Lemma phdrs_ok n bs : Forall phdr_ok (phdrs_of n bs).
Proof.
  revert bs. induction n as [|n IH]; intros bs; cbn [phdrs_of]; constructor; [|apply IH].
  unfold phdr_ok, phdr_of. cbn [p_offset p_vaddr p_filesz p_memsz]. change (2 ^ 64) with (256 ^ Z.of_nat 8).
  repeat split; apply field_range.
Qed.

(** ** Confinement *)

Lemma piece_bounds foff left : 0 < left < 2 ^ 32 -> 0 < piece foff left <= left.
Proof.
  intros Hl. unfold piece, ELF_IO_CHUNK. rewrite (u32_small left) by lia. change (4096 - 1) with (Z.ones 12).
  rewrite Z.land_ones by done. pose proof (Z.mod_pos_bound foff (2 ^ 12) ltac:(done)). change (2 ^ 12) with 4096 in *.
  rewrite (u32_small (foff mod 4096)), (u32_small (4096 - _)) by lia.
  destruct (Z.eqb_spec (foff mod 4096) 0); cbn [negb]; ztest; lia.
Qed.

Lemma rela_loop_confined n i ent rela bias m m' b : rela_loop n i ent rela bias m = (m', b) -> confined m m'.
Proof.
  revert i m. induction n as [|n IH]; intros i m; cbn [rela_loop]; [by intros [= <- _]|].
  destruct (negb (_ =? _)); [apply IH|]. destruct (user_addr_range_ok _ 8) eqn:Er; cbn [negb]; [|by intros [= <- _]].
  apply addr_range_ok in Er; [|apply u64_range | done]. intros E. apply IH in E. eapply confined_trans; [|exact E].
  apply confined_store; [lia|]. unfold zlength. rewrite length_le_bytes. lia.
Qed.

Lemma relocs_confined dyn_max phs bias m m' b : edge_load_relative_relocs dyn_max phs bias m = Some (m', b) -> confined m m'.
Proof.
  unfold edge_load_relative_relocs. destruct (find_type _ _) as [ph|]; [|by intros [= <- _]].
  destruct (_ =? 0); [by intros [= <- _]|]. destruct (dyn_loop _ _ _ _) as [[[addr sz] ent]|]; [|done].
  destruct (_ || _); [by intros [= <- _]|]. intros [= E]. by eapply rela_loop_confined.
Qed.

Section load.
Context (dyn_max : nat).
Context {W D : Type} `{!filesystems W} `{!machine W} `{!driver D}.
Implicit Types (s : vfs W D).

Lemma copy_loop_confined n sb ino ph dst done m s m' s' b :
  USER_ADDR_MIN <= dst -> dst + p_filesz ph <= USER_ADDR_MAX -> 0 <= done ->
  copy_loop n sb ino ph dst done m s = (m', s', b) -> confined m m'.
Proof.
  revert done m s. induction n as [|n IH]; intros d m s H1 H2 Hd; cbn [copy_loop].
  { destruct (_ <=? _); by intros [= <- _ _]. }
  destruct (Z.leb_spec (p_filesz ph) d) as [|Hlt]; [by intros [= <- _ _]|].
  destruct (vfs_pread_exact _ _ _ _ _) as [s1 [bs|]]; [|by intros [= <- _ _]].
  unfold USER_ADDR_MIN, USER_ADDR_MAX in *.
  pose proof (piece_bounds (u64 (p_offset ph + d)) (p_filesz ph - d) ltac:(lia)) as Hp.
  intros E. apply IH in E; [|done|done|lia]. eapply confined_trans; [|exact E]. rewrite u64_small by lia.
  unfold USER_ADDR_MIN, USER_ADDR_MAX in *.
  apply confined_store; unfold USER_ADDR_MIN, USER_ADDR_MAX; [lia|]. unfold zlength. rewrite length_take. lia.
Qed.

Lemma load_segment_confined sb ino ph bias hi m s m' s' o :
  phdr_ok ph -> load_segment sb ino ph bias hi m s = (m', s', o) -> confined m m'.
Proof.
  intros (_ & _ & Hf & Hm). unfold load_segment. destruct (_ <? _); [by intros [= <- _ _]|].
  destruct (Z.ltb_spec (p_memsz ph) (p_filesz ph)); [by intros [= <- _ _]|].
  destruct (user_addr_range_ok _ _) eqn:Er; cbn [negb]; [|by intros [= <- _ _]].
  apply addr_range_ok in Er as [Hlo Hhi]; [|apply u64_range | done]. set (dst := u64 (bias + p_vaddr ph)) in *.
  destruct (_ <? dst); [by intros [= <- _ _]|].
  destruct (copy_loop _ _ _ _ _ _ _ _) as [[m1 s1] [|]] eqn:Ec; (apply copy_loop_confined in Ec; [|lia..]); intros [= <- _ _]; [|done].
  eapply confined_trans; [exact Ec|]. unfold USER_ADDR_MIN, USER_ADDR_MAX in *. rewrite !(u64_small (dst + _)), u32_small by lia.
  apply confined_store; unfold USER_ADDR_MIN, USER_ADDR_MAX; [lia|]. unfold zlength. rewrite length_replicate. lia.
Qed.

Lemma load_segments_confined sb ino phs bias hi m s m' s' o :
  Forall phdr_ok phs -> load_segments sb ino phs bias hi m s = (m', s', o) -> confined m m'.
Proof.
  intros Hok. revert hi m s. induction Hok as [|ph phs Hph _ IH]; intros hi m s; cbn [load_segments]; [by intros [= <- _ _]|].
  destruct (negb _); [apply IH|]. destruct (load_segment _ _ _ _ _ _ _) as [[m1 s1] [hi1|]] eqn:Es;
    apply load_segment_confined in Es; try done.
  - intros E. apply IH in E. by eapply confined_trans.
  - by intros [= <- _ _].
Qed.

Lemma load_confined p base m s m' s' o :
  edge_load_elf_from_vfs dyn_max p base m s = Some (m', s', o) -> confined m m'.
Proof.
  unfold edge_load_elf_from_vfs. destruct (vfs_resolve _ _) as [[s1 [ino sb|]]|]; [|by intros [= <- _ _] | done].
  destruct (_ || _); [by intros [= <- _ _]|]. destruct (vfs_pread_exact _ _ _ _ _) as [s2 [bs|]]; [|by intros [= <- _ _]].
  destruct (_ || _); [by intros [= <- _ _]|]. destruct (vfs_pread_exact _ _ _ _ _) as [s3 [bs'|]]; [|by intros [= <- _ _]].
  destruct (choose_bias _ _ _) as [bias|]; [|by intros [= <- _ _]].
  destruct (load_segments _ _ _ _ _ _ _) as [[m4 s4] [hi|]] eqn:Es; apply load_segments_confined in Es; try apply phdrs_ok; [|by intros [= <- _ _]].
  destruct (edge_load_relative_relocs _ _ _ _) as [[m5 [|]]|] eqn:Er; [..|done]; apply relocs_confined in Er.
  - destruct (finish_load _ _ _ _ _ _ _) as [s5 out]. intros [= <- _ _]. by eapply confined_trans.
  - intros [= <- _ _]. by eapply confined_trans.
Qed.

(** C15: whatever the bytes of the program, of its interpreter and of the
    relocations found in memory, loading a program changes no byte outside of
    the addresses of user code, the lowest page excluded. *)
Theorem elf_exec_confined p m s m' s' o
    (Hrun : elf_loader_exec dyn_max p m s = Some (m', s', o)) :
  forall a, ~ USER_ADDR_MIN <= a < USER_ADDR_MAX -> m' a = m a.
Proof.
  change (confined m m'). revert Hrun. unfold elf_loader_exec.
  destruct (edge_load_elf_from_vfs _ _ _ _ _) as [[[m1 s1] [main|]]|] eqn:E1; [..|done]; apply load_confined in E1.
  2: by intros [= <- _ _].
  destruct (negb (has_interp main)); [by intros [= <- _ _]|]. destruct (negb _); [by intros [= <- _ _]|].
  destruct (edge_load_elf_from_vfs _ _ _ _ _) as [[[m2 s2] [interp|]]|] eqn:E2; [..|done]; apply load_confined in E2;
    intros [= <- _ _]; by eapply confined_trans.
Qed.
End load.

(** ** Relocations *)

(** The memory in the words of a table of relocations: where a relative one
    stores, and what. *)
Fixpoint relas (n : nat) (i ent rela bias : Z) (m : CString.mem) : list (Z * Z) :=
  match n with
  | O => []
  | S n =>
      let r := u64 (rela + i * ent) in
      (if u32 (load64 m (u64 (r + 8))) =? R_X86_64_RELATIVE then [(u64 (bias + load64 m r), u64 (bias + load64 m (u64 (r + 16))))] else []) ++
      relas n (i + 1) ent rela bias m
  end.

(** The table that the dynamic section of an image in memory names: its address,
    the size of an entry and the number of entries; none when there is none. *)
Definition rela_table (dyn_max : nat) (phs : list elf64_phdr) (bias : Z) (m : CString.mem) : Z * Z * nat :=
  match find_type PT_DYNAMIC phs with
  | None => (0, 0, O)
  | Some ph =>
      let dyn := u64 (bias + p_vaddr ph) in
      match (if dyn =? 0 then None else dyn_loop dyn_max dyn m (0, 0, ELF64_RELA_SIZE)) with
      | None => (0, 0, O)
      | Some (addr, sz, ent) =>
          if (addr =? 0) || (sz =? 0) || (ent <? ELF64_RELA_SIZE) then (0, 0, O) else (u64 (bias + addr), ent, Z.to_nat (sz / ent))
      end
  end.
Definition relocations dyn_max phs bias m : list (Z * Z) :=
  let '(rela, ent, n) := rela_table dyn_max phs bias m in relas n 0 ent rela bias m.

(** Two words of eight bytes. *)
Definition words_apart (a b : Z) : Prop := a + 8 <= b \/ b + 8 <= a.

(** The relocations store in words of their own, none of them in the table. *)
Definition relocs_ok dyn_max phs bias m : Prop :=
  let '(rela, ent, n) := rela_table dyn_max phs bias m in
  rela + Z.of_nat n * ent < 2 ^ 64 /\
  Forall (fun x => x.1 + 8 <= rela \/ rela + Z.of_nat n * ent <= x.1) (relocations dyn_max phs bias m) /\
  ForallOrdPairs (fun x y => words_apart x.1 y.1) (relocations dyn_max phs bias m).

(** The memory after the stores. *)
Definition store_words (l : list (Z * Z)) (m : CString.mem) : CString.mem := fold_left (fun m x => store_bytes m x.1 (le_bytes 8 x.2)) l m.

Lemma load64_ext (M m : CString.mem) p : (forall a, p <= a < p + 8 -> m a = M a) -> load64 m p = load64 M p.
Proof. intros H. unfold load64. f_equal. apply load_bytes_ext. intros a Ha. apply H. lia. Qed.

Lemma dyn_loop_ext n (M m : CString.mem) p x : (forall a, m a = M a) -> dyn_loop n p m x = dyn_loop n p M x.
Proof.
  intros H. revert p x. induction n as [|n IH]; intros p [[a b] c]; cbn [dyn_loop]; [done|].
  rewrite !(load64_ext M m) by (intros; apply H). by rewrite !IH.
Qed.

(** The table is read as it was before the stores. *)
Lemma rela_loop_spec M rela ent bias stop : 0 <= rela -> stop < 2 ^ 64 -> ELF64_RELA_SIZE <= ent -> forall n i m m',
  0 <= i -> rela + (i + Z.of_nat n) * ent <= stop -> (forall a, rela <= a < stop -> m a = M a) ->
  Forall (fun x => x.1 + 8 <= rela \/ stop <= x.1) (relas n i ent rela bias M) ->
  rela_loop n i ent rela bias m = (m', true) -> m' = store_words (relas n i ent rela bias M) m.
Proof.
  intros Hr Hs He. unfold ELF64_RELA_SIZE in He. induction n as [|n IH]; intros i m m' Hi Hend Hm Hap; cbn [rela_loop relas] in *; [by intros [= <-]|].
  assert (0 <= i * ent /\ rela + i * ent + 24 <= stop /\ rela + (i + 1 + Z.of_nat n) * ent <= stop) as (H1 & H2 & H3) by nia.
  rewrite (u64_small (rela + i * ent)) in * by lia. set (r := rela + i * ent) in *. assert (rela <= r) by (unfold r; lia). clearbody r.
  rewrite !(u64_small (r + _)) in * by lia. rewrite !(load64_ext M m) by (intros; apply Hm; lia).
  destruct (Z.eqb_spec (u32 (load64 M (r + 8))) R_X86_64_RELATIVE) as [_|_]; cbn [negb app] in *; [|by apply IH; first [lia | done]].
  destruct (user_addr_range_ok _ 8); cbn [negb]; [|done]. apply Forall_cons in Hap as [Hw Hap]. cbn [fst] in Hw.
  intros E. apply (IH (i + 1)) in E; [exact E | lia | lia | | done].
  intros a Ha. rewrite store_bytes_out by (rewrite length_le_bytes; lia). by apply Hm.
Qed.

(** Each word is stored, and nothing else. *)
Lemma store_words_out l m a : Forall (fun x => ~ x.1 <= a < x.1 + 8) l -> store_words l m a = m a.
Proof.
  intros H. revert m. induction H as [|x l Hx _ IH]; intros m; [done|]. unfold store_words in *. cbn [fold_left]. rewrite IH.
  apply store_bytes_out. rewrite length_le_bytes. lia.
Qed.

Lemma store_words_in l m x : ForallOrdPairs (fun x y => words_apart x.1 y.1) l -> x ∈ l -> 0 <= x.2 < 2 ^ 64 -> load64 (store_words l m) x.1 = x.2.
Proof.
  intros Hap Hx Hv. revert m Hx. induction Hap as [|y l Hy Hap IH]; intros m; [by intros ?%elem_of_nil|].
  intros [->|Hx]%elem_of_cons; unfold store_words in *; cbn [fold_left]; [|by apply IH].
  rewrite (load64_ext (store_bytes m y.1 (le_bytes 8 y.2))).
  - unfold load64. rewrite <- (length_le_bytes 8 y.2) at 2. rewrite load_store_bytes. by apply le_val_bytes.
  - intros a Ha. apply store_words_out. eapply Forall_impl; [exact Hy|]. intros z [?|?]; cbn beta; lia.
Qed.

Lemma relas_range n i ent rela bias m x : x ∈ relas n i ent rela bias m -> 0 <= x.2 < 2 ^ 64.
Proof.
  revert i. induction n as [|n IH]; intros i; cbn [relas]; [by intros ?%elem_of_nil|].
  intros [Hx|Hx]%elem_of_app; [|by eapply IH]. destruct (_ =? _); [|by apply elem_of_nil in Hx].
  apply list_elem_of_singleton in Hx as ->. apply u64_range.
Qed.

Lemma relas_ext n i ent rela bias (M m : CString.mem) : (forall a, m a = M a) -> relas n i ent rela bias m = relas n i ent rela bias M.
Proof. intros H. revert i. induction n as [|n IH]; intros i; cbn [relas]; [done|]. rewrite !(load64_ext M m) by (intros; apply H). by rewrite IH. Qed.

Lemma relocations_ext dyn_max phs bias (M m : CString.mem) : (forall a, m a = M a) ->
  rela_table dyn_max phs bias m = rela_table dyn_max phs bias M /\ relocations dyn_max phs bias m = relocations dyn_max phs bias M.
Proof.
  intros H. assert (rela_table dyn_max phs bias m = rela_table dyn_max phs bias M) as E.
  { unfold rela_table. destruct (find_type _ _); [|done]. by rewrite (dyn_loop_ext _ M m). }
  split; [done|]. unfold relocations. rewrite E. clear E. destruct (rela_table dyn_max phs bias M) as [[rela ent] n]. by apply relas_ext.
Qed.

(** A relocation that succeeds leaves its words in memory. *)
Lemma relocs_spec dyn_max phs bias m m' :
  relocs_ok dyn_max phs bias m -> edge_load_relative_relocs dyn_max phs bias m = Some (m', true) ->
  m' = store_words (relocations dyn_max phs bias m) m.
Proof.
  unfold relocs_ok, relocations, edge_load_relative_relocs, rela_table. destruct (find_type _ _) as [ph|]; [|by intros _ [= <-]].
  destruct (_ =? 0); [by intros _ [= <-]|]. destruct (dyn_loop _ _ _ _) as [[[addr sz] ent]|]; [|done].
  destruct ((addr =? 0) || (sz =? 0)); cbn [orb]; [by intros _ [= <-]|]. destruct (Z.ltb_spec ent ELF64_RELA_SIZE); [by intros _ [= <-]|].
  intros (H1 & H2 & _) [= E]. pose proof (u64_range (bias + addr)). eapply rela_loop_spec; [..|exact E]; try done; lia.
Qed.

(** ** What is loaded *)

Section contents.
Context {W D : Type} `{!filesystems W} `{!machine W} `{!driver D}.
Implicit Types (s : vfs W D).
Context (sb : superblock) (ino : vfs_inode) (file : list Z).

(** The file system reads the file: as many bytes as asked for and there are,
    and nothing changes. *)
Definition reads_file : Prop :=
  sb_has sb OP_READ = true /\ i_size ino = zlength file /\ zlength file < 2 ^ 32 /\
  forall off len (w : W), 0 <= off -> 0 < len ->
    op_read sb ino off len w = (w, Z.max 0 (Z.min len (zlength file - off)), take (Z.to_nat len) (drop (Z.to_nat off) file)).

Context (Hread : reads_file).

(** [n] bytes of the file from [off] on. *)
Definition slice (off n : Z) : list Z := take (Z.to_nat n) (drop (Z.to_nat off) file).

Lemma length_slice off n : 0 <= off -> 0 <= n -> off + n <= zlength file -> zlength (slice off n) = n.
Proof. intros H1 H2 H3. unfold slice, zlength in *. rewrite length_take, length_drop. lia. Qed.

Lemma with_world_same s : with_world s (world s) = s.
Proof. by destruct s. Qed.

Lemma pread_exact_spec off len s :
  0 <= off -> 0 <= len -> off + len <= zlength file -> vfs_pread_exact (Some sb) ino off len s = (s, Some (slice off len)).
Proof.
  destruct Hread as (Hhas & Hsize & Hsmall & Hop). intros Ho Hl Hle. unfold vfs_pread_exact.
  destruct (Z.eqb_spec len 0) as [->|Hne]; [done|]. rewrite Hhas. cbn [negb].
  destruct (Z.to_nat len) as [|n] eqn:En; [lia|]. cbn [pread_loop]. destruct (Z.leb_spec len 0); [lia|].
  rewrite Z.add_0_r, Z.sub_0_r, !u32_small, Hop, with_world_same by lia.
  replace (Z.max 0 (Z.min len (zlength file - off))) with len by lia.
  destruct (Z.ltb_spec len 0); [lia|]. destruct (Z.eqb_spec len 0); [lia|]. rewrite Z.add_0_l, u32_small by lia. cbn [app].
  assert (take (Z.to_nat len) (take (Z.to_nat len) (drop (Z.to_nat off) file)) = slice off len) as ->
    by (unfold slice; by rewrite take_take, Nat.min_id).
  destruct n; cbn [pread_loop]; by destruct (Z.leb_spec len len); [|lia].
Qed.

(** The bytes of a segment that come from the file are at [dst], from [done] on. *)
Lemma copy_loop_spec n ph dst done m s :
  0 <= p_offset ph -> 0 <= done -> p_offset ph + p_filesz ph <= zlength file ->
  0 <= dst -> dst + p_filesz ph < 2 ^ 64 -> p_filesz ph - done <= Z.of_nat n ->
  exists m', copy_loop n (Some sb) ino ph dst done m s = (m', s, true) /\
    (forall a, ~ dst + done <= a < dst + p_filesz ph -> m' a = m a) /\
    (forall i, done <= i < p_filesz ph -> m' (dst + i) = nth (Z.to_nat (p_offset ph + i)) file 0).
Proof.
  pose proof Hread as (_ & _ & Hsmall & _).
  revert done m. induction n as [|n IH]; intros d m Ho Hd Hf Hdst Hb Hn; cbn [copy_loop];
    (destruct (Z.leb_spec (p_filesz ph) d); [exists m; split; [done|]; split; [done | lia]|lia || idtac]).
  pose proof (piece_bounds (u64 (p_offset ph + d)) (p_filesz ph - d) ltac:(lia)) as Hp.
  set (k := piece _ _) in *. clearbody k. rewrite u64_small, u32_small by lia. rewrite pread_exact_spec by lia.
  rewrite (u64_small (dst + d)) by lia.
  assert (take (Z.to_nat k) (slice (p_offset ph + d) k) = slice (p_offset ph + d) k) as ->
    by (unfold slice; by rewrite take_take, Nat.min_id).
  pose proof (length_slice (p_offset ph + d) k ltac:(lia) ltac:(lia) ltac:(lia)) as Hlen. unfold zlength in Hlen.
  destruct (IH (d + k) (store_bytes m (dst + d) (slice (p_offset ph + d) k))) as (m' & E & H1 & H2); [lia..|].
  exists m'. split; [exact E|]. split.
  - intros a Ha. rewrite H1 by lia. apply store_bytes_out. lia.
  - intros i Hi. destruct (Z_lt_ge_dec i (d + k)) as [Hik|Hik]; [|apply H2; lia]. rewrite H1 by lia.
    replace (dst + i) with (dst + d + Z.of_nat (Z.to_nat (i - d))) by lia. apply store_bytes_in.
    unfold slice. rewrite lookup_take_lt by lia. rewrite lookup_drop.
    replace (Z.to_nat (p_offset ph + d) + Z.to_nat (i - d))%nat with (Z.to_nat (p_offset ph + i)) by lia.
    destruct (nth_lookup_or_length file (Z.to_nat (p_offset ph + i)) 0) as [->|Hl]; [done|]. unfold zlength in Hf. lia.
Qed.

(** The segment is in memory: the bytes of the file, then zeros. *)
Definition segment_loaded (bias : Z) (m : CString.mem) (ph : elf64_phdr) : Prop :=
  forall i, 0 <= i < p_memsz ph ->
    m (u64 (bias + p_vaddr ph) + i) = if i <? p_filesz ph then nth (Z.to_nat (p_offset ph + i)) file 0 else 0.

(** The end of the bytes of the file does not wrap around. *)
Definition segment_fits (ph : elf64_phdr) : Prop := p_offset ph + p_filesz ph < 2 ^ 64.

Definition segments_apart (bias : Z) (p q : elf64_phdr) : Prop :=
  u64 (bias + p_vaddr p) + p_memsz p <= u64 (bias + p_vaddr q) \/ u64 (bias + p_vaddr q) + p_memsz q <= u64 (bias + p_vaddr p).

Lemma load_segment_spec ph bias hi m s m' s' hi' :
  phdr_ok ph -> segment_fits ph -> load_segment (Some sb) ino ph bias hi m s = (m', s', Some hi') ->
  s' = s /\ segment_loaded bias m' ph /\
  (forall a, ~ u64 (bias + p_vaddr ph) <= a < u64 (bias + p_vaddr ph) + p_memsz ph -> m' a = m a).
Proof.
  intros (Ho & _ & Hf & Hm) Hfit. pose proof Hread as (_ & Hsize & Hsmall & _). unfold segment_fits, segment_loaded in *.
  unfold load_segment. rewrite u64_small by lia. destruct (Z.ltb_spec (i_size ino) (p_offset ph + p_filesz ph)); [done|].
  destruct (Z.ltb_spec (p_memsz ph) (p_filesz ph)); [done|].
  destruct (user_addr_range_ok _ _) eqn:Er; cbn [negb]; [|done].
  apply addr_range_ok in Er as [Hlo Hhi]; [|apply u64_range | done]. set (dst := u64 (bias + p_vaddr ph)) in *.
  unfold USER_ADDR_MIN, USER_ADDR_MAX in *. destruct (_ <? dst); [done|].
  destruct (copy_loop_spec (Z.to_nat (p_filesz ph)) ph dst 0 m s) as (m1 & -> & H1 & H2); [lia..|].
  rewrite (u64_small (dst + p_filesz ph)), u32_small by lia. intros [= <- <- _]. split; [done|]. split.
  - intros i Hi. destruct (Z.ltb_spec i (p_filesz ph)) as [Hlt|Hge].
    + rewrite store_bytes_out by lia. apply H2. lia.
    + replace (dst + i) with (dst + p_filesz ph + Z.of_nat (Z.to_nat (i - p_filesz ph))) by lia. apply store_bytes_in.
      apply lookup_replicate. split; [done | lia].
  - intros a Ha. rewrite store_bytes_out by (rewrite length_replicate; lia). apply H1. lia.
Qed.

Lemma load_segments_spec phs bias hi m s m' s' hi' :
  Forall phdr_ok phs -> Forall (fun ph => p_type ph = PT_LOAD -> segment_fits ph) phs ->
  ForallOrdPairs (fun p q => p_type p = PT_LOAD -> p_type q = PT_LOAD -> segments_apart bias p q) phs ->
  load_segments (Some sb) ino phs bias hi m s = (m', s', Some hi') ->
  s' = s /\ Forall (fun ph => p_type ph = PT_LOAD -> segment_loaded bias m' ph) phs /\
  (forall a, (forall ph, ph ∈ phs -> p_type ph = PT_LOAD -> ~ u64 (bias + p_vaddr ph) <= a < u64 (bias + p_vaddr ph) + p_memsz ph) -> m' a = m a).
Proof.
  intros Hok. revert hi m s. induction Hok as [|ph phs Hph _ IH]; intros hi m s Hfit Hap; cbn [load_segments].
  { intros [= <- <- _]. split; [done|]. by split. }
  inversion Hfit as [|? ? Hf1 Hf2]; subst. inversion Hap as [|? ? Ha1 Ha2]; subst.
  destruct (Z.eqb_spec (p_type ph) PT_LOAD) as [Ht|Ht]; cbn [negb].
  - destruct (load_segment _ _ _ _ _ _ _) as [[m1 s1] [hi1|]] eqn:Es; [|done]. apply load_segment_spec in Es as (-> & Hl & Hout); [|done|auto].
    intros E. apply IH in E as (-> & Hall & Hout'); [|done|done]. split; [done|]. split.
    + constructor; [|done]. intros _ i Hi. rewrite Hout'; [by apply Hl|]. intros q Hq Hqt. rewrite Forall_forall in Ha1.
      destruct (Ha1 q Hq Ht Hqt); lia.
    + intros a Ha. rewrite Hout' by (intros q Hq; apply Ha, elem_of_cons; by right). apply Hout, Ha; [apply elem_of_cons; by left | done].
  - intros E. apply IH in E as (-> & Hall & Hout'); [|done|done]. split; [done|]. split; [by constructor|].
    intros a Ha. apply Hout'. intros q Hq. apply Ha, elem_of_cons. by right.
Qed.

Definition file_ehdr : elf64_ehdr := ehdr_of (slice 0 ELF64_EHDR_SIZE).
Definition file_phdrs : list elf64_phdr :=
  phdrs_of (Z.to_nat (e_phnum file_ehdr)) (slice (e_phoff file_ehdr) (e_phnum file_ehdr * ELF64_PHDR_SIZE)).

(** Nothing in the file makes the additions of the loader wrap around. *)
Definition plain_file : Prop :=
  e_phoff file_ehdr + e_phnum file_ehdr * ELF64_PHDR_SIZE < 2 ^ 64 /\
  Forall (fun ph => p_type ph = PT_LOAD -> segment_fits ph) file_phdrs.

(** The memory that the segments of the headers describe, [m] where there is none. *)
Definition in_segment (bias a : Z) (ph : elf64_phdr) : bool :=
  (p_type ph =? PT_LOAD) && (u64 (bias + p_vaddr ph) <=? a) && (a <? u64 (bias + p_vaddr ph) + p_memsz ph).
Definition image (bias : Z) (m : CString.mem) : CString.mem := fun a =>
  match List.find (in_segment bias a) file_phdrs with
  | Some ph =>
      let i := a - u64 (bias + p_vaddr ph) in
      if i <? p_filesz ph then nth (Z.to_nat (p_offset ph + i)) file 0 else 0
  | None => m a
  end.

Lemma image_loaded bias m m' :
  Forall (fun ph => p_type ph = PT_LOAD -> segment_loaded bias m' ph) file_phdrs ->
  (forall a, (forall ph, ph ∈ file_phdrs -> p_type ph = PT_LOAD -> ~ u64 (bias + p_vaddr ph) <= a < u64 (bias + p_vaddr ph) + p_memsz ph) -> m' a = m a) ->
  forall a, m' a = image bias m a.
Proof.
  intros Hall Hout a. unfold image. destruct (List.find _ _) as [ph|] eqn:Ef.
  - apply find_some in Ef as [Hin Hseg]. unfold in_segment in Hseg. rewrite !andb_true_iff, Z.eqb_eq, Z.leb_le, Z.ltb_lt in Hseg.
    destruct Hseg as [[Ht H1] H2]. rewrite List.Forall_forall in Hall. rewrite <- (Hall ph Hin Ht) by lia. f_equal. lia.
  - apply Hout. intros ph Hin Ht Ha. apply list_elem_of_In in Hin. apply (find_none _ _ Ef) in Hin. unfold in_segment in Hin.
    rewrite Ht, Z.eqb_refl in Hin. destruct (Z.leb_spec (u64 (bias + p_vaddr ph)) a), (Z.ltb_spec a (u64 (bias + p_vaddr ph) + p_memsz ph)); cbn [andb] in Hin; done || lia.
Qed.

Lemma header_loop_keeps phs out s s' out' :
  header_loop (Some sb) ino phs out s = (s', Some out') -> load_bias out' = load_bias out /\ l_entry out' = l_entry out.
Proof.
  revert out s. induction phs as [|ph phs IH]; intros out s; cbn [header_loop]; [by intros [= _ <-]|].
  set (out1 := if p_type ph =? PT_PHDR then _ else out).
  assert (load_bias out1 = load_bias out /\ l_entry out1 = l_entry out) as [<- <-] by (unfold out1; by destruct (_ =? _)).
  clearbody out1. destruct (negb _); [apply IH|]. destruct (_ || _); [done|]. destruct (_ <? _); [done|].
  destruct (vfs_pread_exact _ _ _ _ _) as [s1 [bs|]]; [|done]. intros E. by apply IH in E.
Qed.

Lemma finish_load_keeps eh phs bias hi s s' out :
  finish_load (Some sb) ino eh phs bias hi s = (s', Some out) -> load_bias out = bias /\ l_entry out = u64 (bias + e_entry eh).
Proof.
  unfold finish_load. destruct (header_loop _ _ _ _ _) as [s1 [o|]] eqn:E; [|done]. apply header_loop_keeps in E as [E1 E2].
  cbn in E1, E2. destruct (l_phdr o =? 0); cbn [with_phdr l_phdr]; (destruct (_ =? 0); [done|]); intros [= _ <-]; by cbn.
Qed.

(** C14: of a file that is read as it is, whose segments do not overlap and whose
    relocations store in words of their own that are not in their table, a load
    that succeeds leaves in memory, for each loadable segment, the bytes of the file
    at the bias plus the address in the header, followed by zeros up to the size in
    memory, except that the word of each relative relocation of the dynamic section
    holds its addend plus the bias; no other byte of memory has changed; the entry
    point is that of the header plus the bias, and the bias of a program with fixed
    addresses is zero. *)
Theorem elf_load_exact dyn_max p base m s s1 m' s' out
    (Hres : vfs_resolve (Some p) s = Some (s1, Resolved ino (Some sb)))
    (Hplain : plain_file)
    (Hrun : edge_load_elf_from_vfs dyn_max p base m s = Some (m', s', Some out))
    (Hapart : ForallOrdPairs (fun p q => p_type p = PT_LOAD -> p_type q = PT_LOAD -> segments_apart (load_bias out) p q) file_phdrs)
    (Hrelocs : relocs_ok dyn_max file_phdrs (load_bias out) (image (load_bias out) m)) :
  let words := relocations dyn_max file_phdrs (load_bias out) (image (load_bias out) m) in
  elf_valid file_ehdr = true /\
  l_entry out = u64 (load_bias out + e_entry file_ehdr) /\
  (e_type file_ehdr = ET_EXEC -> load_bias out = 0) /\
  (forall x, x ∈ words -> load64 m' x.1 = x.2) /\
  (forall a, Forall (fun x => ~ x.1 <= a < x.1 + 8) words -> m' a = image (load_bias out) m a).
Proof.
  pose proof Hread as (_ & Hsize & _). destruct Hplain as (Hph & Hfit). revert Hrun. unfold edge_load_elf_from_vfs.
  rewrite Hres. destruct (is_kind _ _); [done|]. cbn [orb]. destruct (Z.ltb_spec (i_size ino) ELF64_EHDR_SIZE) as [|Hsz]; [done|].
  rewrite pread_exact_spec by (unfold ELF64_EHDR_SIZE in *; lia). fold file_ehdr.
  destruct (elf_valid file_ehdr) eqn:Hval; [|done]. destruct (e_phentsize _ =? _); [|done]. cbn [negb orb].
  destruct (Z.eqb_spec (e_phnum file_ehdr) 0); [done|].
  assert (0 <= e_phoff file_ehdr < 2 ^ 64) as Ho by apply (field_range 32 8).
  destruct (Z.ltb_spec ELF_MAX_PHNUM (e_phnum file_ehdr)); [done|]. cbn [orb]. unfold ELF_MAX_PHNUM in *.
  assert (0 <= e_phnum file_ehdr) as Hn by apply (field_range 56 2).
  assert (0 <= e_phnum file_ehdr * ELF64_PHDR_SIZE < 2 ^ 32) as Hb by (unfold ELF64_PHDR_SIZE; lia).
  pose proof Hread as (_ & _ & Hsmall & _). rewrite u64_small by lia.
  destruct (Z.ltb_spec (i_size ino) (e_phoff file_ehdr + e_phnum file_ehdr * ELF64_PHDR_SIZE)); [done|].
  rewrite u32_small, pread_exact_spec by lia. fold file_phdrs.
  destruct (choose_bias _ _ _) as [bias|] eqn:Ebias; [|done].
  destruct (load_segments _ _ _ _ _ _ _) as [[m4 s4] [hi|]] eqn:Es; [|done].
  destruct (edge_load_relative_relocs _ _ _ _) as [[m5 [|]]|] eqn:Er; [|done..].
  destruct (finish_load _ _ _ _ _ _ _) as [s5 o] eqn:Ef. intros [= <- _ ->].
  apply finish_load_keeps in Ef as [<- ->]. apply load_segments_spec in Es as (_ & Hall & Hout); [|apply phdrs_ok|done..].
  pose proof (image_loaded _ _ _ Hall Hout) as Him. destruct (relocations_ext dyn_max file_phdrs (load_bias out) _ _ Him) as [Et Ew].
  unfold relocs_ok in Hrelocs. rewrite <- Et, <- Ew in Hrelocs. apply relocs_spec in Er; [|exact Hrelocs]. rewrite Er, <- Ew.
  split; [done|]. split; [done|]. split; [intros Ht; revert Ebias; unfold choose_bias; rewrite Ht; cbn; by intros [= <-]|].
  destruct (rela_table _ _ _ _) as [[rela ent] cnt] eqn:En. destruct Hrelocs as (_ & _ & Hap). split.
  - intros x Hx. apply store_words_in; [done | done |]. unfold relocations in Hx. rewrite En in Hx. by apply relas_range in Hx.
  - intros a Ha. by rewrite store_words_out.
Qed.
End contents.


(** ** Concrete inputs *)

#[local] Existing Instance no_disk.

(** A program of four bytes: the header, one segment that holds the whole file
    and four more bytes. *)
Definition tiny_elf : list Z :=
  [0x7F; 69; 76; 70; 2; 1; 1; 0] ++ replicate 8 0 ++ le_bytes 2 2 ++ le_bytes 2 62 ++ le_bytes 4 1 ++
  le_bytes 8 0x400078 ++ le_bytes 8 64 ++ replicate 14 0 ++ le_bytes 2 56 ++ le_bytes 2 1 ++ replicate 6 0 ++
  le_bytes 4 1 ++ le_bytes 4 5 ++ le_bytes 8 0 ++ le_bytes 8 0x400000 ++ le_bytes 8 0x400000 ++
  le_bytes 8 124 ++ le_bytes 8 128 ++ le_bytes 8 4096 ++ [0x90; 0x90; 0xF3; 0xC3].

(** A read-only file system in which every name is one file. *)
Definition served (file : list Z) : filesystems unit := {|
  sb_has _ _ := true;
  op_lookup _ _ _ out w := (w, Some (fill_inode 2 (Z.lor VFS_INODE_FILE (oct 755)) (zlength file) out));
  op_read _ _ off len w :=
    (w, Z.max 0 (Z.min len (zlength file - off)), take (Z.to_nat len) (drop (Z.to_nat off) file));
  op_write _ i _ _ w := (w, i, -1); op_create _ _ _ _ w := (w, None); op_mkdir _ _ _ _ w := (w, None);
  op_unlink _ _ _ w := (w, -1); op_statfs _ _ := None; ext_setattr _ _ _ _ _ _ _ w := (w, -1)
|}.

#[local] Instance one_file : filesystems unit := served tiny_elf.

Definition tiny_sb : superblock :=
  {| fs_name := str "one"; dev_name := str "disk"; mountpoint := [slash];
     sb_root := fill_inode 1 (Z.lor VFS_INODE_DIR (oct 755)) 0 zero_inode; sb_ops := 0; sb_private := 0 |}.
Definition tiny_vfs : vfs unit unit :=
  {| g_mounts := [tiny_sb]; g_fsreg := [str "one"]; g_cwd := [slash]; g_devnodes := chr_nodes; g_rng := rng_init;
     g_block := block_init; g_disk := (); world := (); current := None |}.
Definition tiny_mem : CString.mem := fun _ => 7.
Definition tiny_exec := elf_loader_exec 8 (str "/init") tiny_mem tiny_vfs.
Definition tiny_memory : CString.mem := default tiny_mem (fmap (fun x => x.1.1) tiny_exec).

(** The four bytes after the file become zeros, the page of address 0 and the
    memory above the program are untouched. *)
Lemma elf_exec_confined_witness :
  exists m' s' o, tiny_exec = Some (m', s', Some o) /\ entry_rip o = 0x400078 /\
    m' 0x400078 = 0x90 /\ m' 0x40007c = 0 /\ m' 0xfff = 7 /\ m' USER_ADDR_MAX = 7.
Proof.
  assert (snd <$> tiny_exec = Some (Some {| entry_rip := 0x400078; im_phdr := 0x400040; im_phnum := 1; im_entry := 0x400078;
    im_base := 0; main_load_hi := 0x400080 |})) as Eo by (vm_compute; reflexivity).
  assert (tiny_memory 0x400078 = 0x90) as E1 by (vm_compute; reflexivity).
  assert (tiny_memory 0x40007c = 0) as E2 by (vm_compute; reflexivity). revert Eo E1 E2. unfold tiny_memory.
  destruct tiny_exec as [[[m' s'] o]|] eqn:E; [|discriminate]. cbn [default fmap option_fmap option_map fst snd].
  intros [= ->] E1 E2. pose proof (elf_exec_confined 8 (str "/init") tiny_mem tiny_vfs m' s' _ E) as H.
  exists m', s'. eexists. split; [reflexivity|]. split; [reflexivity|]. split; [exact E1|]. split; [exact E2|].
  unfold USER_ADDR_MIN, USER_ADDR_MAX in *. split; apply H; lia.
Defined.

(** A program that may be placed anywhere: the headers, a dynamic section of three
    entries, one relocation and the word that it is for. *)
Definition rel_elf : list Z :=
  [0x7F; 69; 76; 70; 2; 1; 1; 0] ++ replicate 8 0 ++ le_bytes 2 3 ++ le_bytes 2 62 ++ le_bytes 4 1 ++
  le_bytes 8 0xF8 ++ le_bytes 8 64 ++ replicate 14 0 ++ le_bytes 2 56 ++ le_bytes 2 2 ++ replicate 6 0 ++
  le_bytes 4 1 ++ le_bytes 4 5 ++ le_bytes 8 0 ++ le_bytes 8 0 ++ le_bytes 8 0 ++ le_bytes 8 256 ++ le_bytes 8 264 ++ le_bytes 8 4096 ++
  le_bytes 4 2 ++ le_bytes 4 6 ++ le_bytes 8 176 ++ le_bytes 8 176 ++ le_bytes 8 176 ++ le_bytes 8 48 ++ le_bytes 8 48 ++ le_bytes 8 8 ++
  le_bytes 8 7 ++ le_bytes 8 224 ++ le_bytes 8 8 ++ le_bytes 8 24 ++ le_bytes 8 0 ++ le_bytes 8 0 ++
  le_bytes 8 248 ++ le_bytes 8 8 ++ le_bytes 8 0x78 ++ replicate 8 0x90.

#[local] Instance rel_file : filesystems unit := served rel_elf.

Definition rel_inode : vfs_inode := fill_inode 2 (Z.lor VFS_INODE_FILE (oct 755)) (zlength rel_elf) zero_inode.
Definition rel_load := edge_load_elf_from_vfs 8 (str "/init") EDGE_MAIN_ET_DYN_BASE tiny_mem tiny_vfs.
Definition rel_result : edge_elf_loaded :=
  {| load_bias := 0x400000; l_entry := 0x4000F8; l_phdr := 0x400040; l_phnum := 2; load_hi := 0x400108; interp_off := 0;
     interp_sz := 0; has_interp := false; interp_path := [] |}.

Lemma rel_reads : reads_file tiny_sb rel_inode rel_elf.
Proof. split; [reflexivity|]. split; [reflexivity|]. split; [vm_compute; reflexivity|]. intros off len w _ _. reflexivity. Qed.

(** The word of the relocation holds its addend plus the bias, the bytes before it
    are those of the file, those after it zeros, and memory above is untouched. *)
Lemma elf_load_exact_witness :
  exists m' s', rel_load = Some (m', s', Some rel_result) /\
    load64 m' 0x4000F8 = 0x400078 /\ m' 0x400001 = 69 /\ m' 0x400100 = 0 /\ m' 0x400108 = 7.
Proof.
  assert (snd <$> rel_load = Some (Some rel_result)) as Eo by (vm_compute; reflexivity). revert Eo.
  destruct rel_load as [[[m' s'] o]|] eqn:E; [|discriminate]. cbn [fmap option_fmap option_map snd]. intros [= ->].
  assert (file_phdrs rel_elf = [{| p_type := 1; p_offset := 0; p_vaddr := 0; p_filesz := 256; p_memsz := 264 |};
    {| p_type := 2; p_offset := 176; p_vaddr := 176; p_filesz := 48; p_memsz := 48 |}]) as Ep by (vm_compute; reflexivity).
  assert (rela_table 8 (file_phdrs rel_elf) 0x400000 (image rel_elf 0x400000 tiny_mem) = (0x4000E0, 24, 1%nat)) as Et by (vm_compute; reflexivity).
  assert (relocations 8 (file_phdrs rel_elf) 0x400000 (image rel_elf 0x400000 tiny_mem) = [(0x4000F8, 0x400078)]) as Ew by (vm_compute; reflexivity).
  destruct (elf_load_exact tiny_sb rel_inode rel_elf rel_reads 8 (str "/init") EDGE_MAIN_ET_DYN_BASE tiny_mem tiny_vfs tiny_vfs
    m' s' rel_result) as (_ & _ & _ & Hin & Hout).
  - vm_compute. reflexivity.
  - split; [vm_compute; reflexivity|]. rewrite Ep. repeat constructor.
  - exact E.
  - rewrite Ep. repeat constructor; cbn; discriminate.
  - unfold relocs_ok. cbn [load_bias rel_result]. rewrite Et, Ew. split; [vm_compute; reflexivity|].
    split; [repeat constructor; cbn [fst]; lia | repeat constructor].
  - cbn [load_bias rel_result] in Hin, Hout. rewrite Ew in Hin, Hout. exists m', s'. split; [reflexivity|].
    split; [apply (Hin (0x4000F8, 0x400078)); by apply list_elem_of_singleton|].
    split; [|split]; (rewrite Hout; [vm_compute; reflexivity | repeat constructor; cbn [fst]; lia]).
Defined.
