(* ===== verification/BlockIo.v ===== *)
(** * Buffers and the block layer

    The calls of a file system to [block_read_sectors] and [block_write_sectors]
    with a buffer of its own, as functions on the bytes of the buffer, and what
    they do over a disk that serves single sectors. *)

From S2P Require Import Prelude CString Block.

Section io.
Context {D : Type} `{!driver D}.

(** The address of a buffer. *)
Definition G_IO : Z := 0x1000.

(** The disk, the buffer and whether the result is zero. *)
Definition read_sectors (b : block_device) (lba cnt : Z) (buf : list Z) (d : D) : D * list Z * bool :=
  match block_read_sectors (Some b) d (store_bytes (fun _ => 0) G_IO buf) lba cnt G_IO with
  | Some (r, d, m) => (d, load_bytes m G_IO (length buf), negb (r <? 0))
  | None => (d, buf, false)
  end.

Definition write_sectors (b : block_device) (lba cnt : Z) (buf : list Z) (d : D) : D * bool :=
  match block_write_sectors (Some b) d (store_bytes (fun _ => 0) G_IO buf) lba cnt G_IO with
  | Some (r, d) => (d, negb (r <? 0))
  | None => (d, false)
  end.
End io.

(** ** Buffers *)

Lemma load_over m p (buf l : list Z) :
  (length l <= length buf)%nat -> load_bytes (store_bytes (store_bytes m p buf) p l) p (length buf) = l ++ drop (length l) buf.
Proof.
  intros Hl. apply list_eq. intros i. destruct (decide (i < length buf)%nat) as [Hi|Hi].
  2: { rewrite !lookup_ge_None_2; [done | rewrite length_app, length_drop; lia | rewrite length_load_bytes; lia]. }
  rewrite load_bytes_lookup by done. destruct (decide (i < length l)%nat) as [Hil|Hil].
  - rewrite lookup_app_l by done. destruct (lookup_lt_is_Some_2 l i Hil) as [c Hc]. rewrite Hc. f_equal. by apply store_bytes_in.
  - rewrite lookup_app_r, lookup_drop by lia. replace (length l + (i - length l))%nat with i by lia.
    destruct (lookup_lt_is_Some_2 buf i Hi) as [c Hc]. rewrite Hc. f_equal. rewrite store_bytes_out by lia. by apply store_bytes_in.
Qed.

Lemma load_front m p (buf : list Z) n : (n <= length buf)%nat -> load_bytes (store_bytes m p buf) p n = take n buf.
Proof.
  intros Hn. apply list_eq. intros i. destruct (decide (i < n)%nat) as [Hi|Hi].
  - rewrite load_bytes_lookup, lookup_take_lt by done. destruct (lookup_lt_is_Some_2 buf i ltac:(lia)) as [c Hc].
    rewrite Hc. f_equal. by apply store_bytes_in.
  - rewrite lookup_take_ge by lia. apply lookup_ge_None_2. rewrite length_load_bytes. lia.
Qed.

(** The first bytes of a buffer after a list is put in it. *)
Lemma take_inserts n i (l buf : list Z) : (i + length l <= n)%nat -> take n (list_inserts i l buf) = list_inserts i l (take n buf).
Proof.
  intros H. apply list_eq. intros j. destruct (decide (j < n)%nat).
  - rewrite lookup_take_lt by done. destruct (decide (j < i)%nat).
    { rewrite !list_lookup_inserts_lt by done. by rewrite lookup_take_lt. }
    destruct (decide (i + length l <= j)%nat).
    { rewrite !list_lookup_inserts_ge by done. by rewrite lookup_take_lt. }
    destruct (decide (j < length buf)%nat).
    + rewrite !list_lookup_inserts by (rewrite ?length_take; lia). done.
    + rewrite !lookup_ge_None_2; [done | rewrite length_inserts, length_take; lia | rewrite length_inserts; lia].
  - rewrite lookup_take_ge by lia. symmetry. apply lookup_ge_None_2. rewrite length_inserts, length_take. lia.
Qed.

(** ** Sectors *)

Section sectors.
Context {D : Type} `{!driver D} (ss : Z) (sector : D -> Z -> list Z) `{!driver_ok D ss sector}.
Context (Hrs : reads_singles (D := D)) (Hws : writes_singles (D := D)) (Hss : 0 < ss).

Lemma length_sectors_nat d lba n : 0 <= n -> length (sectors (sector d) lba (Z.to_nat n)) = Z.to_nat (n * ss).
Proof. intros Hn. pose proof (length_sectors (sector d) ss lba (Z.to_nat n) (sector_length d)) as H. rewrite Z2Nat.id in H by done. lia. Qed.

Lemma read_sectors_spec b d buf lba n :
  sector_size b = ss -> has_read b = true -> 0 <= n -> n * ss < 2 ^ 32 -> n * ss <= Z.of_nat (length buf) -> 0 <= lba -> lba + n <= 2 ^ 32 ->
  exists d', read_sectors b lba n buf d = (d', sectors (sector d) lba (Z.to_nat n) ++ drop (Z.to_nat (n * ss)) buf, true) /\
    forall k, sector d' k = sector d k.
Proof.
  intros Es Hr Hn Hsz Hlen Hl Hend.
  destruct (block_read_spec ss sector b d (store_bytes (fun _ => 0) G_IO buf) lba n G_IO)
    as (ret & d' & k & E & Hsame & Hcase); try done.
  unfold read_sectors. rewrite E. destruct Hcase as [[-> ->] | (_ & _ & d0 & Hno)]; [|by apply Hrs in Hno].
  exists d'. split; [|exact Hsame]. pose proof (length_sectors_nat d lba n Hn) as Hls.
  rewrite load_over by lia. by rewrite Hls.
Qed.

Lemma write_sectors_spec b d buf lba n :
  sector_size b = ss -> has_write b = true -> 0 <= n -> n * ss < 2 ^ 32 -> n * ss <= Z.of_nat (length buf) -> 0 <= lba -> lba + n <= 2 ^ 32 ->
  exists d', write_sectors b lba n buf d = (d', true) /\ sectors (sector d') lba (Z.to_nat n) = take (Z.to_nat (n * ss)) buf /\
    forall k, ~ lba <= k < lba + n -> sector d' k = sector d k.
Proof.
  intros Es Hw Hn Hsz Hlen Hl Hend.
  destruct (block_write_spec ss sector b d (store_bytes (fun _ => 0) G_IO buf) lba n G_IO)
    as (d' & E & Hdata & Hframe); try done.
  unfold write_sectors. rewrite E. exists d'. split; [done|]. split; [|intros k Hk; apply Hframe; lia].
  rewrite Hdata. apply load_front. lia.
Qed.
End sectors.
