(* ===== verification/Ext2.v ===== *)
(** * The ext2 file system ([src/src/fs/ext2/ext2.c])

    A mounted volume over the block layer ([Block.v]): blocks, inodes, the
    bitmaps, directories and the contents of files. The structures of the disk are
    lists of bytes, as the code copies them, and a field is read where its offset
    is; [g_io] and [g_io2] are the two buffers of 4096 bytes that every operation
    goes through. A memory access past a buffer is not modelled: a volume whose
    block is larger than the buffer is not mounted. Messages are left out. *)

From S2P Require Import Prelude CString Block BlockIo Path Uaccess Rng Vfs.

(** ** Structures of the disk *)

Definition EXT2_SUPER_SIZE : nat := 104.
Definition EXT2_BGDESC_SIZE : nat := 32.
Definition EXT2_INODE_SIZE : nat := 128.

(** [ext2_super_t] *)
Definition inodes_count (sb : list Z) : Z := field 0 4 sb.
Definition blocks_count (sb : list Z) : Z := field 4 4 sb.
Definition sb_free_blocks_count (sb : list Z) : Z := field 12 4 sb.
Definition sb_free_inodes_count (sb : list Z) : Z := field 16 4 sb.
Definition first_data_block (sb : list Z) : Z := field 20 4 sb.
Definition log_block_size (sb : list Z) : Z := field 24 4 sb.
Definition blocks_per_group (sb : list Z) : Z := field 32 4 sb.
Definition inodes_per_group (sb : list Z) : Z := field 40 4 sb.
Definition magic (sb : list Z) : Z := field 56 2 sb.
Definition inode_size (sb : list Z) : Z := field 88 2 sb.
Definition feature_incompat (sb : list Z) : Z := field 96 4 sb.
Definition feature_ro_compat (sb : list Z) : Z := field 100 4 sb.

(** [ext2_bgdesc_t] *)
Definition block_bitmap (bg : list Z) : Z := field 0 4 bg.
Definition inode_bitmap (bg : list Z) : Z := field 4 4 bg.
Definition inode_table (bg : list Z) : Z := field 8 4 bg.
Definition bg_free_blocks_count (bg : list Z) : Z := field 12 2 bg.
Definition bg_free_inodes_count (bg : list Z) : Z := field 14 2 bg.

(** [ext2_inode_t] *)
Definition x_mode (i : list Z) : Z := field 0 2 i.
Definition x_uid (i : list Z) : Z := field 2 2 i.
Definition x_size (i : list Z) : Z := field 4 4 i.
Definition x_gid (i : list Z) : Z := field 24 2 i.
Definition x_links (i : list Z) : Z := field 26 2 i.
Definition x_block (k : nat) (i : list Z) : Z := field (40 + 4 * k) 4 i.
Definition set_x_mode (v : Z) : list Z -> list Z := set_field 0 2 v.
Definition set_x_uid (v : Z) : list Z -> list Z := set_field 2 2 v.
Definition set_x_size (v : Z) : list Z -> list Z := set_field 4 4 v.
Definition set_x_gid (v : Z) : list Z -> list Z := set_field 24 2 v.
Definition set_x_links (v : Z) : list Z -> list Z := set_field 26 2 v.
Definition set_x_blocks (v : Z) : list Z -> list Z := set_field 28 4 v.
Definition set_x_block (k : nat) (v : Z) : list Z -> list Z := set_field (40 + 4 * k) 4 v.
Definition zero_x_inode : list Z := replicate EXT2_INODE_SIZE 0.

(** The direct blocks. *)
Definition direct (i : list Z) : list Z := map (fun k => x_block k i) (seq 0 12).

Definition EXT4_INCOMPAT_FILETYPE : Z := 0x0002.
Definition EXT4_RO_COMPAT_SPARSE_SUPER : Z := 0x0001.
Definition EXT4_RO_COMPAT_LARGE_FILE : Z := 0x0002.
Definition EXT4_RO_COMPAT_BTREE_DIR : Z := 0x0004.

Definition ext4_feature_set_supported (sb : list Z) : bool :=
  negb (flag (feature_incompat sb) (u32 (Z.lnot EXT4_INCOMPAT_FILETYPE))) &&
  negb (flag (feature_ro_compat sb)
    (u32 (Z.lnot (Z.lor (Z.lor EXT4_RO_COMPAT_SPARSE_SUPER EXT4_RO_COMPAT_LARGE_FILE) EXT4_RO_COMPAT_BTREE_DIR)))).

Definition vfs_mode_from_ext2 (m : Z) : Z :=
  let kind := Z.land m 0xF000 in
  let perms := Z.land m (oct 7777) in
  if kind =? 0x4000 then u16 (Z.lor VFS_INODE_DIR perms)
  else if kind =? 0x8000 then u16 (Z.lor VFS_INODE_FILE perms)
  else 0.

(** ** Directory entries *)

(** [ext2_dirent_hdr_t] *)
Record dirent := { de_inode : Z; rec_len : Z; name_len : Z; de_type : Z }.

Definition rec_len_min (name_len : Z) : Z := u16 (Z.land (8 + name_len + 3) (Z.lnot 3)).

Definition ext2_dirent_read (blk : list Z) (block_size off : Z) : option dirent :=
  let o := Z.to_nat off in
  if block_size <? off + 8 then None
  else
    let de := {| de_inode := field o 4 blk; rec_len := field (o + 4) 2 blk; name_len := field (o + 6) 1 blk;
                 de_type := field (o + 7) 1 blk |} in
    if (rec_len de <? 8) || (block_size <? off + rec_len de) then None else Some de.

(** The entries that the loop over a block visits, with their offsets; a turn
    advances by eight bytes at least, [n] bounds the turns. *)
Fixpoint dirents (n : nat) (blk : list Z) (block_size off : Z) : list (Z * dirent) :=
  match n with
  | O => []
  | S n =>
      if negb (off + 8 <=? block_size) then []
      else
        match ext2_dirent_read blk block_size off with
        | None => []
        | Some de => (off, de) :: dirents n blk block_size (off + rec_len de)
        end
  end.

(** The condition on the entries that [ext2_unlink] and the others look at. *)
Definition named (x : Z * dirent) : bool :=
  negb (de_inode x.2 =? 0) && (0 <? name_len x.2) && (name_len x.2 <? VFS_NAME_MAX).
Definition usable (x : Z * dirent) : bool := named x && (rec_len_min (name_len x.2) <=? rec_len x.2).

Definition entry_name (blk : list Z) (x : Z * dirent) : path :=
  c_string (take (Z.to_nat (name_len x.2)) (drop (Z.to_nat (x.1 + 8)) blk)).

(** The bytes of an entry without what follows its name. *)
Definition entry_bytes (ino slot kind : Z) (nm : path) : list Z :=
  le_bytes 4 ino ++ le_bytes 2 slot ++ [u8 (zlength nm); kind] ++ nm.

(** ** The volume *)

(** [ext2_fs_t] *)
Record ext2_fs := { bdev : block_device; fs_sb : list Z; fs_bg : list Z; block_size : Z }.

Section ext2.
Context {D : Type} `{!driver D}.

(** A volume at work: the disk behind it and the two buffers. *)
Record e2 := { fs : ext2_fs; disk : D; g_io : list Z; g_io2 : list Z }.
Implicit Types (s : e2).

Definition set_fs (f : ext2_fs) s : e2 := {| fs := f; disk := disk s; g_io := g_io s; g_io2 := g_io2 s |}.
Definition set_disk (d : D) s : e2 := {| fs := fs s; disk := d; g_io := g_io s; g_io2 := g_io2 s |}.
Definition set_io (l : list Z) s : e2 := {| fs := fs s; disk := disk s; g_io := l; g_io2 := g_io2 s |}.
Definition set_io2 (l : list Z) s : e2 := {| fs := fs s; disk := disk s; g_io := g_io s; g_io2 := l |}.

(** [memcpy(g_io + off, ...)] *)
Definition io_put (off : Z) (l : list Z) s : e2 := set_io (list_inserts (Z.to_nat off) l (g_io s)) s.

(** [block_read_sectors] into a buffer, and from [g_io] to the disk. *)
Definition load_io (lba cnt : Z) s : e2 * bool :=
  let '(d, io, ok) := read_sectors (bdev (fs s)) lba cnt (g_io s) (disk s) in (set_disk d (set_io io s), ok).
Definition load_io2 (lba cnt : Z) s : e2 * bool :=
  let '(d, io, ok) := read_sectors (bdev (fs s)) lba cnt (g_io2 s) (disk s) in (set_disk d (set_io2 io s), ok).
Definition store_io (lba cnt : Z) s : e2 * bool :=
  let '(d, ok) := write_sectors (bdev (fs s)) lba cnt (g_io s) (disk s) in (set_disk d s, ok).

(** The sectors of a block, none when there is no whole sector in it. *)
Definition block_sectors s : Z :=
  if sector_size (bdev (fs s)) =? 0 then 0 else block_size (fs s) / sector_size (bdev (fs s)).

Definition on_block (io : Z -> Z -> e2 -> e2 * bool) (blk : Z) s : e2 * bool :=
  let cnt := block_sectors s in if cnt =? 0 then (s, false) else io (u32 (blk * cnt)) cnt s.
Definition read_block : Z -> e2 -> e2 * bool := on_block load_io.
Definition read_block2 : Z -> e2 -> e2 * bool := on_block load_io2.
Definition write_block : Z -> e2 -> e2 * bool := on_block store_io.

Definition sync_super_bg s : e2 * bool :=
  let '(s, ok) := load_io 2 2 s in
  if negb ok then (s, false)
  else
    let '(s, ok) := store_io 2 2 (io_put 0 (fs_sb (fs s)) s) in
    if negb ok then (s, false)
    else
      let b := u32 (first_data_block (fs_sb (fs s)) + 1) in
      let '(s, ok) := read_block b s in
      if negb ok then (s, false) else write_block b (io_put 0 (fs_bg (fs s)) s).

(** ** Inodes *)

(** The block and the offset of an inode, [None] is [-1]. *)
Definition inode_place (ino : Z) s : option (Z * Z) :=
  if (ino =? 0) || (inodes_count (fs_sb (fs s)) <? ino) then None
  else
    let off := u32 ((ino - 1) * inode_size (fs_sb (fs s))) in
    let boff := off mod block_size (fs s) in
    if block_size (fs s) <? boff + Z.of_nat EXT2_INODE_SIZE then None
    else Some (u32 (inode_table (fs_bg (fs s)) + off / block_size (fs s)), boff).

Definition read_inode (ino : Z) s : e2 * option (list Z) :=
  match inode_place ino s with
  | None => (s, None)
  | Some (blk, boff) =>
      let '(s, ok) := read_block blk s in
      (s, if ok then Some (take EXT2_INODE_SIZE (drop (Z.to_nat boff) (g_io s))) else None)
  end.

Definition write_inode (ino : Z) (i : list Z) s : e2 * bool :=
  match inode_place ino s with
  | None => (s, false)
  | Some (blk, boff) =>
      let '(s, ok) := read_block blk s in
      if negb ok then (s, false) else write_block blk (io_put boff i s)
  end.

(** ** The bitmaps *)

Definition dec_field (off n : nat) (l : list Z) : list Z := if field off n l =? 0 then l else set_field off n (field off n l - 1) l.

Definition count_taken (is_inode : bool) (f : ext2_fs) : ext2_fs :=
  {| bdev := bdev f; block_size := block_size f;
     fs_sb := if is_inode then dec_field 16 4 (fs_sb f) else dec_field 12 4 (fs_sb f);
     fs_bg := if is_inode then dec_field 14 2 (fs_bg f) else dec_field 12 2 (fs_bg f) |}.

Definition bit_of (l : list Z) (i : Z) : bool := Z.testbit (nth (Z.to_nat (i / 8)) l 0) (i mod 8).
Definition set_bit (i : Z) (l : list Z) : list Z :=
  <[Z.to_nat (i / 8) := Z.lor (nth (Z.to_nat (i / 8)) l 0) (Z.shiftl 1 (i mod 8))]> l.

Definition ext2_alloc_from_bitmap (bitmap max : Z) (is_inode : bool) s : e2 * Z :=
  let '(s, ok) := read_block bitmap s in
  if negb ok then (s, -1)
  else
    let i := scan (fun i => negb (bit_of (g_io s) i)) 0 (Z.to_nat max) in
    if i <? 0 then (s, -1)
    else
      let '(s, ok) := write_block bitmap (set_io (set_bit i (g_io s)) s) in
      if negb ok then (s, -1)
      else
        let '(s, ok) := sync_super_bg (set_fs (count_taken is_inode (fs s)) s) in
        (s, if ok then i32 (i + if is_inode then 1 else 0) else -1).

Definition alloc_block s : e2 * Z := ext2_alloc_from_bitmap (block_bitmap (fs_bg (fs s))) (blocks_per_group (fs_sb (fs s))) false s.
Definition alloc_inode s : e2 * Z := ext2_alloc_from_bitmap (inode_bitmap (fs_bg (fs s))) (inodes_per_group (fs_sb (fs s))) true s.

(** ** Contents of files *)

(** The word at an index of a block of addresses. *)
Definition word_at (idx : Z) (l : list Z) : Z := field (Z.to_nat (4 * idx)) 4 l.

(** The block that holds block [bi] of the file, [None] where the loop ends. *)
Definition data_block (i : list Z) (bi : Z) s : e2 * option Z :=
  if bi <? 12 then (s, Some (x_block (Z.to_nat bi) i))
  else
    let ind_idx := bi - 12 in
    let ents := block_size (fs s) / 4 in
    if ind_idx <? ents then
      if x_block 12 i =? 0 then (s, None)
      else
        let '(s, ok) := read_block (x_block 12 i) s in
        (s, if ok then Some (word_at ind_idx (g_io s)) else None)
    else
      let dind_idx := ind_idx - ents in
      let outer := dind_idx / ents in
      let inner := dind_idx mod ents in
      if (x_block 13 i =? 0) || (ents <=? outer) then (s, None)
      else
        let '(s, ok) := read_block (x_block 13 i) s in
        if negb ok then (s, None)
        else
          let ind_block := word_at outer (g_io s) in
          if ind_block =? 0 then (s, None)
          else
            let '(s, ok) := read_block2 ind_block s in
            (s, if ok then Some (word_at inner (g_io2 s)) else None).

(** The bytes read, [out] so far; a turn reads a byte at least, [n] bounds the
    turns. *)
Fixpoint file_read_loop (n : nat) (i : list Z) (off len : Z) (out : list Z) s : e2 * list Z :=
  let done := zlength out in
  if len <=? done then (s, out)
  else
    match n with
    | O => (s, out)
    | S n =>
        let pos := u32 (off + done) in
        let bi := pos / block_size (fs s) in
        let bo := pos mod block_size (fs s) in
        match data_block i bi s with
        | (s, None) => (s, out)
        | (s, Some b) =>
            if b =? 0 then (s, out)
            else
              let '(s, ok) := read_block b s in
              if negb ok then (s, out)
              else
                let k := block_size (fs s) - bo in
                let k := if len - done <? k then len - done else k in
                file_read_loop n i off len (out ++ take (Z.to_nat k) (drop (Z.to_nat bo) (g_io s))) s
        end
    end.

Definition ext2_read (inode : vfs_inode) (off len : Z) s : e2 * Z * list Z :=
  match read_inode (i_ino inode) s with
  | (s, None) => (s, -1, [])
  | (s, Some i) =>
      if x_size i <=? off then (s, 0, [])
      else
        let len := if x_size i <? u32 (off + len) then x_size i - off else len in
        let '(s, out) := file_read_loop (Z.to_nat len) i off len [] s in (s, i32 (zlength out), out)
  end.

(** A direct block of the file, taken from the bitmap and cleared when there is
    none; false is a [break]. *)
Definition ensure_block (bi : nat) (i : list Z) s : e2 * list Z * bool :=
  if negb (x_block bi i =? 0) then (s, i, true)
  else
    let '(s, nb) := alloc_block s in
    if nb <? 0 then (s, i, false)
    else
      let i := set_x_block bi nb i in
      let s := io_put 0 (replicate (Z.to_nat (block_size (fs s))) 0) s in
      let '(s, ok) := write_block (x_block bi i) s in (s, i, ok).

(** The inode and the number of bytes written. *)
Fixpoint file_write_loop (n : nat) (i : list Z) (off done : Z) (src : list Z) s : e2 * list Z * Z :=
  let len := zlength src in
  if len <=? done then (s, i, done)
  else
    match n with
    | O => (s, i, done)
    | S n =>
        let pos := u32 (off + done) in
        let bi := pos / block_size (fs s) in
        let bo := pos mod block_size (fs s) in
        if 12 <=? bi then (s, i, done)
        else
          let '(s, i, ok) := ensure_block (Z.to_nat bi) i s in
          if negb ok then (s, i, done)
          else
            let '(s, ok) := read_block (x_block (Z.to_nat bi) i) s in
            if negb ok then (s, i, done)
            else
              let k := block_size (fs s) - bo in
              let k := if len - done <? k then len - done else k in
              let '(s, ok) := write_block (x_block (Z.to_nat bi) i) (io_put bo (take (Z.to_nat k) (drop (Z.to_nat done) src)) s) in
              if negb ok then (s, i, done) else file_write_loop n i off (done + k) src s
    end.

Definition set_i_size (n : Z) (i : vfs_inode) : vfs_inode :=
  {| i_ino := i_ino i; i_mode := i_mode i; i_uid := i_uid i; i_gid := i_gid i; i_size := n; i_private := i_private i |}.

Definition sized (size : Z) (i : list Z) : list Z := set_x_blocks (u32 (size + 511) / 512) (set_x_size size i).

Definition ext2_write (inode : vfs_inode) (off : Z) (src : list Z) s : e2 * vfs_inode * Z :=
  match read_inode (i_ino inode) s with
  | (s, None) => (s, inode, -1)
  | (s, Some i) =>
      let '(s, i, done) := file_write_loop (length src) i off 0 src s in
      let size := if x_size i <? u32 (off + done) then u32 (off + done) else x_size i in
      match write_inode (i_ino inode) (sized size i) s with
      | (s, false) => (s, inode, -1)
      | (s, true) => (s, set_i_size size inode, i32 done)
      end
  end.

(** ** Directories *)

(** The first entry that satisfies [p] of the block in the buffer, over the
    blocks that can be read. *)
Fixpoint find_entry (p : list Z -> Z * dirent -> bool) (bs : list Z) s : e2 * option (Z * (Z * dirent)) :=
  match bs with
  | [] => (s, None)
  | b :: bs =>
      if b =? 0 then find_entry p bs s
      else
        let '(s, ok) := read_block b s in
        if negb ok then find_entry p bs s
        else
          match List.find (p (g_io s)) (dirents (Z.to_nat (block_size (fs s))) (g_io s) (block_size (fs s)) 0) with
          | Some x => (s, Some (b, x))
          | None => find_entry p bs s
          end
  end.

(** What [ext2_lookup] and [ext2_readdir] put in the inode of the caller. *)
Definition fill_found (ino : Z) (out : vfs_inode) s : e2 * option vfs_inode :=
  match read_inode ino s with
  | (s, None) => (s, None)
  | (s, Some t) =>
      let mode := vfs_mode_from_ext2 (x_mode t) in
      (s, if mode =? 0 then None
          else Some {| i_ino := ino; i_mode := mode; i_uid := x_uid t; i_gid := x_gid t; i_size := x_size t;
                       i_private := i_private out |})
  end.

Definition ext2_lookup (dir : vfs_inode) (nm : path) (out : vfs_inode) s : e2 * option vfs_inode :=
  match read_inode (i_ino dir) s with
  | (s, None) => (s, None)
  | (s, Some dino) =>
      match find_entry (fun io x => usable x && test (entry_name io x = nm)) (direct dino) s with
      | (s, None) => (s, None)
      | (s, Some (_, (_, de))) => fill_found (de_inode de) out s
      end
  end.

(** The usable entry with [idx] others before it. *)
Fixpoint nth_entry (idx : Z) (bs : list Z) s : e2 * option (Z * dirent) :=
  match bs with
  | [] => (s, None)
  | b :: bs =>
      if b =? 0 then nth_entry idx bs s
      else
        let '(s, ok) := read_block b s in
        if negb ok then nth_entry idx bs s
        else
          let l := filter usable (dirents (Z.to_nat (block_size (fs s))) (g_io s) (block_size (fs s)) 0) in
          if idx <? zlength l then (s, l !! Z.to_nat idx) else nth_entry (idx - zlength l) bs s
  end.

Definition ext2_readdir (dir : vfs_inode) (idx : Z) (out : vfs_inode) s : e2 * option (path * vfs_inode) :=
  match read_inode (i_ino dir) s with
  | (s, None) => (s, None)
  | (s, Some dino) =>
      match nth_entry idx (direct dino) s with
      | (s, None) => (s, None)
      | (s, Some x) =>
          let nm := entry_name (g_io s) x in
          match fill_found (de_inode x.2) out s with
          | (s, None) => (s, None)
          | (s, Some i) => (s, Some (nm, i))
          end
      end
  end.

(** No record is free: the entry takes a new block. *)
Definition insert_in_new_block (dino : list Z) (dir_ino child_ino : Z) (nm : path) (kind : Z) s : e2 * option (list Z) :=
  let bi := scan (fun k => x_block (Z.to_nat k) dino =? 0) 0 12 in
  if bi <? 0 then (s, None)
  else
    let '(s, nb) := alloc_block s in
    if nb <? 0 then (s, None)
    else
      let size := u32 (x_size dino + block_size (fs s)) in
      let dino := sized size (set_x_block (Z.to_nat bi) nb dino) in
      let s := io_put 0 (replicate (Z.to_nat (block_size (fs s))) 0) s in
      let s := io_put 0 (entry_bytes child_ino (u16 (block_size (fs s))) kind nm) s in
      let '(s, ok) := write_block (x_block (Z.to_nat bi) dino) s in
      if negb ok then (s, None)
      else let '(s, ok) := write_inode dir_ino dino s in (s, if ok then Some dino else None).

(** The new inode of the directory, [None] is [-1]. *)
Definition ext2_insert_dirent (dino : list Z) (dir_ino child_ino : Z) (nm : path) (is_dir : bool) s : e2 * option (list Z) :=
  if test (nm = []) || (VFS_NAME_MAX <=? u16 (zlength nm)) then (s, None)
  else
    let need := rec_len_min (u8 (u16 (zlength nm))) in
    let kind := if is_dir then 2 else 1 in
    match find_entry (fun _ x => (de_inode x.2 =? 0) && (need <=? rec_len x.2)) (direct dino) s with
    | (s, Some (b, (off, de))) =>
        let s := io_put off (replicate (Z.to_nat (rec_len de)) 0) s in
        let s := io_put off (entry_bytes child_ino (rec_len de) kind nm) s in
        let '(s, ok) := write_block b s in
        if negb ok then (s, None)
        else let '(s, ok) := write_inode dir_ino dino s in (s, if ok then Some dino else None)
    | (s, None) =>
        insert_in_new_block dino dir_ino child_ino nm kind s
    end.

(** The first block of a new directory, [None] is [-1]. *)
Definition make_dots (nino parent : Z) (ni : list Z) s : e2 * option (list Z) :=
  let '(s, nb) := alloc_block s in
  if nb <? 0 then (s, None)
  else
    let bs := block_size (fs s) in
    let ni := set_x_blocks (bs / 512) (set_x_size bs (set_x_block 0 nb ni)) in
    let s := io_put 0 (replicate (Z.to_nat bs) 0) s in
    let dot_rec_len := rec_len_min 1 in
    let s := io_put 0 (entry_bytes nino dot_rec_len 2 dot) s in
    let s := io_put dot_rec_len (entry_bytes parent (u16 (bs - dot_rec_len)) 2 dotdot) s in
    let '(s, ok) := write_block (x_block 0 ni) s in (s, if ok then Some ni else None).

(** [euid] and [egid] are those of the calling process. *)
Definition ext2_create_like (euid egid : Z) (dir : vfs_inode) (nm : path) (mode : Z) (is_dir : bool) s : e2 * option vfs_inode :=
  if test (nm = []) || (VFS_NAME_MAX <=? zlength nm) then (s, None)
  else
    match read_inode (i_ino dir) s with
    | (s, None) => (s, None)
    | (s, Some dino) =>
        match ext2_lookup dir nm zero_inode s with
        | (s, Some _) => (s, None)
        | (s, None) =>
            let '(s, nino) := alloc_inode s in
            if nino <? 0 then (s, None)
            else
              let ni := set_x_mode (u16 (Z.lor (if is_dir then 0x4000 else 0x8000) (Z.land mode (oct 777)))) zero_x_inode in
              let ni := set_x_links (if is_dir then 2 else 1) (set_x_gid (u16 egid) (set_x_uid (u16 euid) ni)) in
              match (if is_dir then make_dots nino (i_ino dir) ni s else (s, Some ni)) with
              | (s, None) => (s, None)
              | (s, Some ni) =>
                  let dino := if is_dir then set_x_links (u16 (x_links dino + 1)) dino else dino in
                  match write_inode nino ni s with
                  | (s, false) => (s, None)
                  | (s, true) =>
                      match ext2_insert_dirent dino (i_ino dir) nino nm is_dir s with
                      | (s, None) => (s, None)
                      | (s, Some dino) =>
                          let '(s, ok) := write_inode (i_ino dir) dino s in
                          (s, if ok then Some {| i_ino := nino; i_mode := mode; i_uid := x_uid ni; i_gid := x_gid ni;
                                                 i_size := x_size ni; i_private := i_private zero_inode |} else None)
                      end
                  end
              end
        end
    end.

Definition ext2_create (euid egid : Z) dir nm mode s := ext2_create_like euid egid dir nm mode false s.
Definition ext2_mkdir (euid egid : Z) dir nm mode s := ext2_create_like euid egid dir nm mode true s.

Definition ext2_unlink (dir : vfs_inode) (nm : path) s : e2 * Z :=
  match read_inode (i_ino dir) s with
  | (s, None) => (s, -1)
  | (s, Some dino) =>
      match find_entry (fun io x => named x && test (entry_name io x = nm)) (direct dino) s with
      | (s, None) => (s, -1)
      | (s, Some (b, (off, _))) =>
          let '(s, ok) := write_block b (io_put off (le_bytes 4 0) s) in (s, if ok then 0 else -1)
      end
  end.

(** ** The rest *)

Definition ext2_statfs s : Z * Z :=
  let total_bytes := u64 (blocks_count (fs_sb (fs s)) * block_size (fs s)) in
  let free_bytes := u64 (sb_free_blocks_count (fs_sb (fs s)) * block_size (fs s)) in
  let used_bytes := if free_bytes <? total_bytes then total_bytes - free_bytes else 0 in
  (u32 (total_bytes / 1024), u32 (used_bytes / 1024)).

Definition ext2_setattr (inode : vfs_inode) (mode uid gid mask : Z) s : e2 * Z :=
  match read_inode (i_ino inode) s with
  | (s, None) => (s, -1)
  | (s, Some i) =>
      let i := if flag mask 1 then set_x_mode (u16 (Z.lor (Z.land (x_mode i) 0xF000) (Z.land mode (oct 7777)))) i else i in
      let i := if flag mask 2 then set_x_uid uid i else i in
      let i := if flag mask 4 then set_x_gid gid i else i in
      let '(s, ok) := write_inode (i_ino inode) i s in (s, if ok then 0 else -1)
  end.

(** The volume of a device with its superblock and the root inode, [None] is
    [-1]. *)
Definition open_volume (b : block_device) (ext4_mode : bool) (d : D) (io io2 : list Z) : e2 * option (list Z * Z) :=
  let s := {| fs := {| bdev := b; fs_sb := replicate EXT2_SUPER_SIZE 0; fs_bg := replicate EXT2_BGDESC_SIZE 0; block_size := 0 |};
              disk := d; g_io := io; g_io2 := io2 |} in
  let '(s, ok) := load_io 2 2 s in
  if negb ok then (s, None)
  else
    let sb := take EXT2_SUPER_SIZE (g_io s) in
    let bs := u32 (Z.shiftl 1024 (log_block_size sb mod 32)) in
    let with_bg bg := {| bdev := b; fs_sb := sb; fs_bg := bg; block_size := bs |} in
    let s := set_fs (with_bg (fs_bg (fs s))) s in
    if negb (magic sb =? 0xEF53) then (s, None)
    else if ext4_mode && negb (ext4_feature_set_supported sb) then (s, None)
    else if (bs =? 0) || (4096 <? bs) then (s, None)
    else
      let '(s, ok) := read_block (u32 (first_data_block sb + 1)) s in
      if negb ok then (s, None)
      else
        let s := set_fs (with_bg (take EXT2_BGDESC_SIZE (g_io s))) s in
        match read_inode 2 s with
        | (s, None) => (s, None)
        | (s, Some root) =>
            let mode := vfs_mode_from_ext2 (x_mode root) in
            (s, if (mode =? 0) || negb (Z.land mode 0xF000 =? VFS_INODE_DIR) then None else Some (root, mode))
        end.
End ext2.

Arguments e2 : clear implicits.
