(* ===== verification/Ext2Inv.v ===== *)
(** * Files of an ext2 volume

    Over a disk that serves single sectors: what the operations on blocks, inodes
    and bitmaps do to the blocks of the volume, and from that what a file holds
    after a write. *)

From S2P Require Import Prelude CString Block BlockIo Path Uaccess Rng Vfs Ext2.

(** ** Blocks *)

Section volume.
Context {D : Type} `{!driver D} (ss cnt : Z) (sector : D -> Z -> list Z) `{!driver_ok D ss sector}.
Context (Hrs : reads_singles (D := D)) (Hws : writes_singles (D := D)).
Context (Hss : 0 < ss) (Hcnt : 0 < cnt) (Hbuf : 2 * ss <= 4096) (Hbs : cnt * ss <= 4096).
Implicit Types (s : e2 D) (i : list Z).

(** The size of a block. *)
Abbreviation BS := (cnt * ss).

Record volume_ok s : Prop := {
  v_ss : sector_size (bdev (fs s)) = ss; v_read : has_read (bdev (fs s)) = true; v_write : has_write (bdev (fs s)) = true;
  v_bs : block_size (fs s) = BS;
  v_io : length (g_io s) = 4096%nat; v_io2 : length (g_io2 s) = 4096%nat;
  v_sb : length (fs_sb (fs s)) = EXT2_SUPER_SIZE; v_bg : length (fs_bg (fs s)) = EXT2_BGDESC_SIZE
}.

(** The content of sectors and of blocks. *)
Definition sec s (n : Z) : list Z := sector (disk s) n.
Definition blk s (n : Z) : list Z := sectors (sec s) (n * cnt) (Z.to_nat cnt).

(** A number that addresses a block. *)
Definition valid (n : Z) : Prop := 0 <= n /\ (n + 1) * cnt <= 2 ^ 32.

Lemma length_sec s n : Z.of_nat (length (sec s n)) = ss.
Proof. apply (sector_length (disk s) n). Qed.

Lemma length_secs s lba n : 0 <= n -> length (sectors (sec s) lba (Z.to_nat n)) = Z.to_nat (n * ss).
Proof. by apply (length_sectors_nat ss sector). Qed.

Lemma length_blk s n : Z.of_nat (length (blk s n)) = BS.
Proof. unfold blk. rewrite length_secs by lia. lia. Qed.

Lemma length_blk_nat s n : length (blk s n) = Z.to_nat BS.
Proof. pose proof (length_blk s n). lia. Qed.

(** Only the buffers and the state of the driver differ. *)
Definition same_disk s s' : Prop := fs s' = fs s /\ forall n, sec s' n = sec s n.

#[export] Instance same_disk_refl : Reflexive same_disk.
Proof. by split. Qed.

#[export] Instance same_disk_trans : Transitive same_disk.
Proof. intros s1 s2 s3 [F1 H1] [F2 H2]. split; [congruence|]. intros n. by rewrite H2, H1. Qed.

Lemma same_blk s s' n : same_disk s s' -> blk s' n = blk s n.
Proof. intros [_ H]. unfold blk. apply sectors_ext. intros. apply H. Qed.

Lemma block_sectors_eq s : volume_ok s -> block_sectors s = cnt.
Proof.
  intros [Es _ _ Eb _ _ _ _]. unfold block_sectors. rewrite Es, Eb. destruct (Z.eqb_spec ss 0); [lia|]. apply Z.div_mul. lia.
Qed.

Lemma load_io_spec s lba n :
  volume_ok s -> 0 <= n -> n * ss <= 4096 -> 0 <= lba -> lba + n <= 2 ^ 32 ->
  exists s', load_io lba n s = (s', true) /\ same_disk s s' /\ volume_ok s' /\
    g_io s' = sectors (sec s) lba (Z.to_nat n) ++ drop (Z.to_nat (n * ss)) (g_io s).
Proof.
  intros Hv Hn Hsz Hl Hend. destruct (read_sectors_spec ss sector Hrs Hss (bdev (fs s)) (disk s) (g_io s) lba n) as (d & E & Hd); try done; try lia; [by destruct Hv | by destruct Hv | rewrite (v_io _ Hv); lia |].
  change (sector (disk s)) with (sec s) in E. unfold load_io. rewrite E. eexists. split; [reflexivity|]. split; [by split|]. split; [|done].
  destruct Hv as [? ? ? ? Hio ? ? ?]. split; try done. cbn [set_disk set_io g_io]. rewrite length_app, length_drop, Hio.
  rewrite length_secs by done. lia.
Qed.

Lemma load_io2_spec s lba n :
  volume_ok s -> 0 <= n -> n * ss <= 4096 -> 0 <= lba -> lba + n <= 2 ^ 32 ->
  exists s', load_io2 lba n s = (s', true) /\ same_disk s s' /\ volume_ok s' /\
    g_io2 s' = sectors (sec s) lba (Z.to_nat n) ++ drop (Z.to_nat (n * ss)) (g_io2 s).
Proof.
  intros Hv Hn Hsz Hl Hend. destruct (read_sectors_spec ss sector Hrs Hss (bdev (fs s)) (disk s) (g_io2 s) lba n) as (d & E & Hd); try done; try lia; [by destruct Hv | by destruct Hv | rewrite (v_io2 _ Hv); lia |].
  change (sector (disk s)) with (sec s) in E. unfold load_io2. rewrite E. eexists. split; [reflexivity|]. split; [by split|]. split; [|done].
  destruct Hv as [? ? ? ? ? Hio ? ?]. split; try done. cbn [set_disk set_io2 g_io2]. rewrite length_app, length_drop, Hio.
  rewrite length_secs by done. lia.
Qed.

(** Sectors are stored from the buffer, the others stay. *)
Lemma store_io_spec s lba n :
  volume_ok s -> 0 <= n -> n * ss <= 4096 -> 0 <= lba -> lba + n <= 2 ^ 32 ->
  exists s', store_io lba n s = (s', true) /\ fs s' = fs s /\ volume_ok s' /\ g_io s' = g_io s /\
    sectors (sec s') lba (Z.to_nat n) = take (Z.to_nat (n * ss)) (g_io s) /\
    forall k, ~ lba <= k < lba + n -> sec s' k = sec s k.
Proof.
  intros Hv Hn Hsz Hl Hend.
  destruct (write_sectors_spec ss sector Hws Hss (bdev (fs s)) (disk s) (g_io s) lba n) as (d & E & Hdata & Hframe); try done; try lia;
    [by destruct Hv | by destruct Hv | rewrite (v_io _ Hv); lia |].
  unfold store_io. rewrite E. eexists. split; [reflexivity|]. split; [done|]. split; [by destruct Hv|]. done.
Qed.

Lemma block_range n : valid n -> 0 <= n * cnt /\ n * cnt + cnt <= 2 ^ 32 /\ u32 (n * cnt) = n * cnt.
Proof. intros [H1 H2]. assert (0 <= n * cnt) by nia. split; [done|]. split; [lia|]. apply u32_small. nia. Qed.

Lemma read_block_spec s n :
  volume_ok s -> valid n ->
  exists s', read_block n s = (s', true) /\ same_disk s s' /\ volume_ok s' /\ g_io s' = blk s n ++ drop (Z.to_nat BS) (g_io s).
Proof.
  intros Hv Hn. destruct (block_range n Hn) as (H1 & H2 & H3). unfold read_block, on_block. rewrite block_sectors_eq by done.
  destruct (Z.eqb_spec cnt 0); [lia|]. rewrite H3. apply load_io_spec; done || lia.
Qed.

Lemma read_block2_spec s n :
  volume_ok s -> valid n ->
  exists s', read_block2 n s = (s', true) /\ same_disk s s' /\ volume_ok s' /\ g_io2 s' = blk s n ++ drop (Z.to_nat BS) (g_io2 s).
Proof.
  intros Hv Hn. destruct (block_range n Hn) as (H1 & H2 & H3). unfold read_block2, on_block. rewrite block_sectors_eq by done.
  destruct (Z.eqb_spec cnt 0); [lia|]. rewrite H3. apply load_io2_spec; done || lia.
Qed.

(** The content of one block changes. *)
Definition one_block (n : Z) (l : list Z) s s' : Prop :=
  fs s' = fs s /\ blk s' n = l /\ forall k, ~ n * cnt <= k < (n + 1) * cnt -> sec s' k = sec s k.

Lemma blk_off s s' m lo hi :
  (forall k, ~ lo <= k < hi -> sec s' k = sec s k) -> ((m + 1) * cnt <= lo \/ hi <= m * cnt) -> blk s' m = blk s m.
Proof. intros H Hm. unfold blk. apply sectors_ext. intros k Hk. apply H. lia. Qed.

Lemma one_block_other n l s s' m : one_block n l s s' -> m <> n -> blk s' m = blk s m.
Proof. intros (_ & _ & H) Hm. apply (blk_off s s' m _ _ H). nia. Qed.

Lemma write_block_spec s n :
  volume_ok s -> valid n ->
  exists s', write_block n s = (s', true) /\ volume_ok s' /\ g_io s' = g_io s /\ one_block n (take (Z.to_nat BS) (g_io s)) s s'.
Proof.
  intros Hv Hn. destruct (block_range n Hn) as (H1 & H2 & H3). unfold write_block, on_block. rewrite block_sectors_eq by done.
  destruct (Z.eqb_spec cnt 0); [lia|]. rewrite H3.
  destruct (store_io_spec s (n * cnt) cnt) as (s' & E & Hf & Hv' & Hg & Hd & Hfr); try done; try lia.
  exists s'. split; [exact E|]. split; [done|]. split; [done|]. split; [done|]. split; [exact Hd|]. intros k Hk. apply Hfr. lia.
Qed.

Lemma volume_ok_io s l : volume_ok s -> length l = 4096%nat -> volume_ok (set_io l s).
Proof. intros [] ?. by split. Qed.

Lemma volume_ok_put s off l : volume_ok s -> volume_ok (io_put off l s).
Proof. intros Hv. apply volume_ok_io; [done|]. rewrite length_inserts. by destruct Hv. Qed.

Lemma set_io_same s l : same_disk s (set_io l s).
Proof. by split. Qed.

(** The front of the buffer after a block is read. *)
Lemma io_front s n l : take (Z.to_nat BS) (blk s n ++ l) = blk s n.
Proof. rewrite take_app_le by (rewrite length_blk_nat; lia). apply firstn_all2. rewrite length_blk_nat. lia. Qed.

(** ** Inodes *)

(** What the operations never change in the structures of a volume. *)
Definition layout (f : ext2_fs) :=
  (bdev f, block_size f, (block_bitmap (fs_bg f), inode_bitmap (fs_bg f), inode_table (fs_bg f)),
   (first_data_block (fs_sb f), inodes_count (fs_sb f), inode_size (fs_sb f), blocks_per_group (fs_sb f), inodes_per_group (fs_sb f))).

Lemma dec_field_ne off n o k l : (off + n <= o \/ o + k <= off)%nat -> field off n (dec_field o k l) = field off n l.
Proof. intros H. unfold dec_field. destruct (_ =? 0); [done|]. by apply field_set_ne. Qed.

Lemma length_dec_field o k l : length (dec_field o k l) = length l.
Proof. unfold dec_field. destruct (_ =? 0); [done|]. apply length_set_field. Qed.

Lemma layout_taken b f : layout (count_taken b f) = layout f.
Proof.
  unfold layout, block_bitmap, inode_bitmap, inode_table, first_data_block, inodes_count, inode_size, blocks_per_group, inodes_per_group.
  destruct b; cbn [count_taken bdev block_size fs_sb fs_bg]; by rewrite !dec_field_ne by lia.
Qed.

Lemma volume_ok_taken b s : volume_ok s -> volume_ok (set_fs (count_taken b (fs s)) s).
Proof.
  intros []. destruct b; split; cbn [set_fs fs count_taken bdev block_size fs_sb fs_bg]; rewrite ?length_dec_field; done.
Qed.

Lemma place_layout ino s s' : layout (fs s') = layout (fs s) -> inode_place ino s' = inode_place ino s.
Proof.
  unfold layout, inode_place. intros [= E1 E2 E3 E4 E5 E6 E7 E8 E9 E10]. by rewrite E2, E5, E7, E8.
Qed.

Lemma place_bound ino s tb bo : volume_ok s -> inode_place ino s = Some (tb, bo) -> 0 <= bo /\ bo + 128 <= BS.
Proof.
  intros [_ _ _ Eb _ _ _ _]. unfold inode_place. rewrite Eb. destruct (_ || _); [done|].
  set (off := u32 _). clearbody off. change (Z.of_nat EXT2_INODE_SIZE) with 128.
  destruct (Z.ltb_spec BS (off mod BS + 128)); [done|]. intros [= _ <-].
  pose proof (Z.mod_pos_bound off BS ltac:(nia)). lia.
Qed.

(** The inode at a place. *)
Definition inode_at s (place : Z * Z) : list Z := take EXT2_INODE_SIZE (drop (Z.to_nat place.2) (blk s place.1)).

Lemma slice_front (l r : list Z) n off : (off + n <= length l)%nat -> take n (drop off (l ++ r)) = take n (drop off l).
Proof. intros H. rewrite drop_app_le by lia. apply take_app_le. rewrite length_drop. lia. Qed.

Lemma read_inode_spec ino s pl :
  volume_ok s -> inode_place ino s = Some pl -> valid pl.1 ->
  exists s', read_inode ino s = (s', Some (inode_at s pl)) /\ same_disk s s' /\ volume_ok s'.
Proof.
  intros Hv Hp Ht. destruct pl as [tb bo]. destruct (place_bound ino s tb bo Hv Hp) as [Hb1 Hb2]. unfold read_inode. rewrite Hp.
  destruct (read_block_spec s tb Hv Ht) as (s1 & -> & Hs & Hv1 & Hg). exists s1. split; [|done]. rewrite Hg, slice_front; [done|].
  rewrite length_blk_nat. unfold EXT2_INODE_SIZE. lia.
Qed.

Lemma write_inode_spec ino i s pl :
  volume_ok s -> inode_place ino s = Some pl -> valid pl.1 -> length i = EXT2_INODE_SIZE ->
  exists s', write_inode ino i s = (s', true) /\ volume_ok s' /\
    one_block pl.1 (list_inserts (Z.to_nat pl.2) i (blk s pl.1)) s s'.
Proof.
  intros Hv Hp Ht Hi. destruct pl as [tb bo]. destruct (place_bound ino s tb bo Hv Hp) as [Hb1 Hb2]. unfold write_inode. rewrite Hp.
  cbn [fst snd] in *. destruct (read_block_spec s tb Hv Ht) as (s1 & -> & [Hf Hs] & Hv1 & Hg). cbn [negb].
  destruct (write_block_spec (io_put bo i s1) tb (volume_ok_put _ _ _ Hv1) Ht) as (s2 & -> & Hv2 & _ & Hf2 & Hb & Hfr).
  exists s2. split; [done|]. split; [done|]. split; [by rewrite Hf2|]. split.
  - rewrite Hb. cbn [io_put set_io g_io]. rewrite Hg, take_inserts, io_front; [done|]. rewrite Hi. unfold EXT2_INODE_SIZE. lia.
  - intros k Hk. rewrite Hfr by done. apply Hs.
Qed.

Lemma inode_written i s s' pl :
  one_block pl.1 (list_inserts (Z.to_nat pl.2) i (blk s pl.1)) s s' -> length i = EXT2_INODE_SIZE -> 0 <= pl.2 -> pl.2 + 128 <= BS ->
  inode_at s' pl = i.
Proof.
  intros (_ & Hb & _) Hi H0 Hle. unfold inode_at. rewrite Hb, <- Hi. apply take_drop_inserts_same.
  rewrite length_blk_nat, Hi. unfold EXT2_INODE_SIZE. lia.
Qed.

(** ** The superblock and the bitmaps *)

Definition gdt s : Z := u32 (first_data_block (fs_sb (fs s)) + 1).

(** A block that the bookkeeping of the volume does not touch. *)
Definition apart_from_super s (m : Z) : Prop := m <> gdt s /\ (4 <= m * cnt \/ (m + 1) * cnt <= 2).

Lemma sync_spec s :
  volume_ok s -> valid (gdt s) ->
  exists s', sync_super_bg s = (s', true) /\ fs s' = fs s /\ volume_ok s' /\
    forall m, apart_from_super s m -> blk s' m = blk s m.
Proof.
  intros Hv Hg. unfold sync_super_bg.
  destruct (load_io_spec s 2 2 Hv) as (s1 & -> & [Hf1 Hs1] & Hv1 & _); try lia. cbn [negb].
  destruct (store_io_spec (io_put 0 (fs_sb (fs s1)) s1) 2 2) as (s2 & -> & Hf2 & Hv2 & _ & _ & Hs2); try lia; [by apply volume_ok_put|].
  cbn [negb]. change (fs (io_put 0 (fs_sb (fs s1)) s1)) with (fs s1) in Hf2. rewrite Hf2, Hf1. fold (gdt s).
  destruct (read_block_spec s2 (gdt s) Hv2 Hg) as (s3 & -> & [Hf3 Hs3] & Hv3 & _). cbn [negb].
  destruct (write_block_spec (io_put 0 (fs_bg (fs s3)) s3) (gdt s) (volume_ok_put _ _ _ Hv3) Hg) as (s4 & -> & Hv4 & _ & Hw).
  exists s4. split; [done|]. split; [destruct Hw as [-> _]; cbn; congruence|]. split; [done|]. intros m [Hm1 Hm2].
  rewrite (one_block_other _ _ _ _ m Hw Hm1). change (blk (io_put 0 (fs_bg (fs s3)) s3) m) with (blk s3 m).
  rewrite (same_blk s2 s3 m) by (by split). rewrite (blk_off s1 s2 m 2 4 Hs2) by lia. by apply same_blk.
Qed.

(** Changes of blocks that are not in a set; the layout stays. *)
Definition outside (P : Z -> Prop) s s' : Prop := layout (fs s') = layout (fs s) /\ forall m, ~ P m -> blk s' m = blk s m.

Lemma outside_trans (P : Z -> Prop) s1 s2 s3 : outside P s1 s2 -> outside P s2 s3 -> outside P s1 s3.
Proof. intros [L1 H1] [L2 H2]. split; [congruence|]. intros m Hm. by rewrite H2, H1. Qed.

Lemma outside_mono (P Q : Z -> Prop) s s' : outside P s s' -> (forall m, P m -> Q m) -> outside Q s s'.
Proof. intros [L H] HPQ. split; [done|]. intros m Hm. apply H. eauto. Qed.

Lemma same_outside (P : Z -> Prop) s s' : same_disk s s' -> outside P s s'.
Proof. intros H. split; [by destruct H as [-> _]|]. intros m _. by apply same_blk. Qed.

Lemma one_block_outside (P : Z -> Prop) n l s s' : one_block n l s s' -> P n -> outside P s s'.
Proof.
  intros H HP. split; [by destruct H as [-> _]|]. intros m Hm. apply (one_block_other n l); [done|]. intros ->. done.
Qed.

(** The blocks that an allocation from a bitmap changes. *)
Definition bookkeeping s (bitmap m : Z) : Prop := m = bitmap \/ ~ apart_from_super s m.

Lemma bit_of_app l r k : 0 <= k < 8 * Z.of_nat (length l) -> bit_of (l ++ r) k = bit_of l k.
Proof. intros Hk. unfold bit_of. rewrite app_nth1; [done|]. pose proof (Z.div_lt_upper_bound k 8 (Z.of_nat (length l))). lia. Qed.

Lemma bit_of_set l k j : 0 <= k < 8 * Z.of_nat (length l) -> 0 <= j -> bit_of (set_bit k l) j = (j =? k) || bit_of l j.
Proof.
  intros Hk Hj. unfold bit_of, set_bit. pose proof (Z.div_lt_upper_bound k 8 (Z.of_nat (length l))) as Hb.
  pose proof (Z.mod_pos_bound k 8 ltac:(lia)). pose proof (Z.mod_pos_bound j 8 ltac:(lia)).
  pose proof (Z.div_mod k 8 ltac:(lia)). pose proof (Z.div_mod j 8 ltac:(lia)). pose proof (Z.div_pos k 8 ltac:(lia) ltac:(lia)).
  destruct (decide (j / 8 = k / 8)) as [E|E].
  - rewrite E. rewrite (nth_lookup (<[_ := _]> l)), list_lookup_insert_eq by lia. cbn [from_option id]. rewrite Z.lor_spec, Z.shiftl_spec by lia.
    destruct (Z.eqb_spec j k) as [->|Hne].
    + rewrite Z.sub_diag. by rewrite orb_true_r.
    + assert (Z.testbit 1 (j mod 8 - k mod 8) = false) as ->; [|by rewrite orb_false_r].
      destruct (Z_lt_ge_dec (j mod 8) (k mod 8)); [by apply Z.testbit_neg_r; lia|].
      change 1 with (2 ^ 0). apply Z.pow2_bits_false. lia.
  - destruct (Z.eqb_spec j k) as [->|_]; [done|]. cbn [orb]. rewrite !nth_lookup, list_lookup_insert_ne by lia. done.
Qed.

(** The first clear bit is set, and nothing but the bookkeeping changes. *)
Lemma alloc_spec bitmap max is_inode s :
  volume_ok s -> valid bitmap -> valid (gdt s) -> 0 <= max <= 8 * BS -> apart_from_super s bitmap ->
  exists s' r, ext2_alloc_from_bitmap bitmap max is_inode s = (s', r) /\ volume_ok s' /\ outside (bookkeeping s bitmap) s s' /\
    (r = -1 /\ blk s' bitmap = blk s bitmap /\ (forall j, 0 <= j < max -> bit_of (blk s bitmap) j = true) \/
     exists k, 0 <= k < max /\ r = k + (if is_inode then 1 else 0) /\ bit_of (blk s bitmap) k = false /\
       (forall j, 0 <= j < k -> bit_of (blk s bitmap) j = true) /\
       (forall j, 0 <= j -> bit_of (blk s' bitmap) j = (j =? k) || bit_of (blk s bitmap) j)).
Proof.
  intros Hv Hb Hg Hmax Hap. unfold ext2_alloc_from_bitmap.
  destruct (read_block_spec s bitmap Hv Hb) as (s1 & -> & Hs1 & Hv1 & Hio1). cbn [negb].
  pose proof (length_blk s bitmap) as Hlen.
  assert (forall j, 0 <= j < max -> bit_of (g_io s1) j = bit_of (blk s bitmap) j) as Hbit.
  { intros j Hj. rewrite Hio1. apply bit_of_app. lia. }
  set (r := scan _ 0 _). destruct (Z.ltb_spec r 0) as [Hr|Hr].
  { exists s1, (-1). split; [done|]. split; [done|]. split; [by apply same_outside|]. left. split; [done|].
    split; [by apply same_blk|]. intros j Hj. assert (r = -1) as E by (unfold r in *; pose proof (scan_range (fun q => negb (bit_of (g_io s1) q)) 0 (Z.to_nat max)); lia).
    pose proof (scan_miss _ 0 _ j ltac:(lia) E ltac:(lia)) as Hj'. cbv beta in Hj'. rewrite Hbit in Hj' by done.
    by apply negb_false_iff in Hj'. }
  destruct (scan_hit _ 0 _ r ltac:(lia) eq_refl ltac:(lia)) as (Hr1 & Hr2 & Hr3). cbv beta in Hr2, Hr3.
  clearbody r. rewrite Hbit in Hr2 by lia. apply negb_true_iff in Hr2.
  assert (length (set_bit r (g_io s1)) = 4096%nat) as Hlio by (unfold set_bit; rewrite length_insert; by destruct Hv1).
  destruct (write_block_spec (set_io (set_bit r (g_io s1)) s1) bitmap (volume_ok_io _ _ Hv1 Hlio) Hb) as (s2 & -> & Hv2 & _ & Hw).
  cbn [negb]. set (s2' := set_fs _ s2).
  assert (volume_ok s2') as Hv2' by (by apply volume_ok_taken).
  assert (fs s2 = fs s) as Hf2 by (destruct Hw as [-> _]; destruct Hs1 as [E _]; exact E).
  assert (layout (fs s2') = layout (fs s)) as Hl2 by (unfold s2'; cbn [set_fs fs]; by rewrite layout_taken, Hf2).
  assert (gdt s2' = gdt s) as Hg2 by (unfold layout in Hl2; unfold gdt; congruence).
  destruct (sync_spec s2' Hv2') as (s3 & -> & Hf3 & Hv3 & Hs3); [by rewrite Hg2|].
  assert (blk s2 bitmap = set_bit r (blk s bitmap)) as Hbm.
  { destruct Hw as (_ & -> & _). cbn [set_io g_io]. rewrite Hio1. unfold set_bit. rewrite app_nth1 by (pose proof (Z.div_lt_upper_bound r 8 (Z.of_nat (length (blk s bitmap)))); lia).
    rewrite insert_app_l by (pose proof (Z.div_lt_upper_bound r 8 (Z.of_nat (length (blk s bitmap)))); lia).
    rewrite take_app_le by (rewrite length_insert, length_blk_nat; lia). apply firstn_all2. rewrite length_insert, length_blk_nat. lia. }
  assert (forall m, apart_from_super s m -> blk s3 m = blk s2 m) as Hb3.
  { intros m Hm. rewrite (Hs3 m); [done|]. unfold apart_from_super in *. by rewrite Hg2. }
  exists s3, (i32 (r + if is_inode then 1 else 0)). split; [done|]. split; [done|]. split.
  - split; [by rewrite Hf3|]. intros m Hm. unfold bookkeeping in Hm. rewrite Hb3.
    + rewrite (one_block_other _ _ _ _ m Hw) by (intros ->; apply Hm; by left). by apply (same_blk s s1).
    + destruct (decide (m = bitmap)) as [->|]; [done|]. unfold apart_from_super in *.
      destruct (decide (m = gdt s)); [exfalso; apply Hm; right; intros [? _]; done|].
      destruct (decide (4 <= m * cnt \/ (m + 1) * cnt <= 2)); [done|]. exfalso. apply Hm. right. by intros [_ ?].
  - right. exists r. split; [lia|]. split; [apply i32_small; destruct is_inode; nia|]. split; [done|]. split.
    + intros j Hj. specialize (Hr3 j ltac:(lia)). rewrite Hbit in Hr3 by lia. by apply negb_false_iff in Hr3.
    + intros j Hj. rewrite Hb3 by done. rewrite Hbm. apply bit_of_set; lia.
Qed.

(** ** Files *)

(** The blocks that hold data: not the bitmap, the superblock or the group
    descriptor, and not the block of the table that holds the inode. *)
Definition data_ok s (tb b : Z) : Prop :=
  valid b /\ b <> block_bitmap (fs_bg (fs s)) /\ apart_from_super s b /\ b <> tb.

(** A direct block of the file. *)
Definition owns i (m : Z) : Prop := exists k, (k < 12)%nat /\ x_block k i = m /\ m <> 0.

(** The places of the bookkeeping are blocks of their own. *)
Record bitmap_ok s : Prop := {
  b_valid : valid (block_bitmap (fs_bg (fs s))); b_gdt : valid (gdt s);
  b_apart : apart_from_super s (block_bitmap (fs_bg (fs s)));
  b_max : blocks_per_group (fs_sb (fs s)) <= 8 * BS
}.

(** The bit of the bitmap for a block number. *)
Definition taken s (j : Z) : bool := bit_of (blk s (block_bitmap (fs_bg (fs s)))) j.

(** The inode [i] at [pl]: its direct blocks hold data, each once, and a clear bit
    of the bitmap stands for a block that is free. *)
Record file_ok s (pl : Z * Z) i : Prop := {
  f_len : length i = EXT2_INODE_SIZE;
  f_blocks : forall k, (k < 12)%nat -> x_block k i <> 0 -> data_ok s pl.1 (x_block k i);
  f_inj : forall k k', (k < 12)%nat -> (k' < 12)%nat -> x_block k i <> 0 -> x_block k i = x_block k' i -> k = k';
  f_free : forall j, 0 <= j < blocks_per_group (fs_sb (fs s)) -> taken s j = false ->
    j <> 0 /\ data_ok s pl.1 j /\ ~ owns i j
}.

(** The byte at a position that the direct blocks cover; a hole is zero. *)
Definition file_byte s i (q : Z) : Z :=
  let b := x_block (Z.to_nat (q / BS)) i in if b =? 0 then 0 else nth (Z.to_nat (q mod BS)) (blk s b) 0.

Lemma data_ok_layout s s' tb b : layout (fs s') = layout (fs s) -> data_ok s tb b -> data_ok s' tb b.
Proof.
  unfold layout, data_ok, apart_from_super, gdt. intros [= _ _ E1 _ _ E2 _ _ _ _] H. by rewrite E1, E2.
Qed.

Lemma bitmap_ok_layout s s' : layout (fs s') = layout (fs s) -> bitmap_ok s -> bitmap_ok s'.
Proof.
  unfold layout. intros [= _ _ E1 _ _ E2 _ _ E3 _] [H1 H2 H3 H4].
  split; unfold apart_from_super, gdt in *; by rewrite ?E1, ?E2, ?E3.
Qed.

Lemma nth_inserts o (l bs : list Z) j :
  nth j (list_inserts o l bs) 0 = if decide (o <= j < o + length l /\ j < length bs)%nat then nth (j - o) l 0 else nth j bs 0.
Proof.
  rewrite !nth_lookup. case_decide as H.
  - rewrite list_lookup_inserts by lia. done.
  - destruct (decide (j < length bs)%nat).
    + destruct (decide (j < o)%nat); [by rewrite list_lookup_inserts_lt by lia | by rewrite list_lookup_inserts_ge by lia].
    + by rewrite !lookup_ge_None_2 by (rewrite ?length_inserts; lia).
Qed.

Lemma nth_zeros n j : nth j (replicate n 0) 0 = 0.
Proof. destruct (nth_in_or_default j (replicate n 0) 0) as [H|H]; [|done]. apply list_elem_of_In, elem_of_replicate in H. by destruct H. Qed.

Lemma x_block_set k v i :
  0 <= v < 2 ^ 32 -> (k < 12)%nat -> length i = EXT2_INODE_SIZE -> x_block k (set_x_block k v i) = v.
Proof. intros Hv Hk Hi. apply field_set; [exact Hv|]. rewrite Hi. unfold EXT2_INODE_SIZE. lia. Qed.

Lemma x_block_set_ne k k' v i : k <> k' -> x_block k (set_x_block k' v i) = x_block k i.
Proof. intros Hk. apply field_set_ne. lia. Qed.

Lemma valid_bound b : valid b -> 0 <= b < 2 ^ 32.
Proof. intros [H1 H2]. nia. Qed.

(** From [i0] on [s0] to [i] on [s], [done] bytes of [src] have been written from
    [off] on. *)
Record wrote s0 (pl : Z * Z) i0 (off : Z) (src : list Z) (done : Z) s i : Prop := {
  w_volume : volume_ok s; w_layout : layout (fs s) = layout (fs s0); w_file : file_ok s pl i;
  w_fields : forall o n, (o + n <= 40)%nat -> field o n i = field o n i0;
  w_kept : forall k, (k < 12)%nat -> x_block k i0 <> 0 -> x_block k i = x_block k i0;
  w_bytes : forall q, 0 <= q < 12 * BS ->
    file_byte s i q = if (off <=? q) && (q <? off + done) then nth (Z.to_nat (q - off)) src 0 else file_byte s0 i0 q;
  w_there : forall q, off <= q < off + done -> x_block (Z.to_nat (q / BS)) i <> 0;
  w_others : forall m, m <> block_bitmap (fs_bg (fs s0)) -> apart_from_super s0 m ->
    ~ owns i m -> blk s m = blk s0 m;
  w_fresh : forall m, owns i m -> owns i0 m \/ 0 <= m < blocks_per_group (fs_sb (fs s0)) /\ taken s0 m = false;
  w_taken : forall j, 0 <= j -> taken s j = true <-> taken s0 j = true \/ owns i j /\ ~ owns i0 j
}.

Lemma wrote_nothing s pl i off src : volume_ok s -> file_ok s pl i -> wrote s pl i off src 0 s i.
Proof.
  intros Hv Hf. split; try done.
  - intros q Hq. destruct (Z.leb_spec off q), (Z.ltb_spec q (off + 0)); cbn [andb]; done || lia.
  - intros q Hq. lia.
  - intros m Hm. by left.
  - intros j Hj. tauto.
Qed.

Lemma layout_eqs s s' : layout (fs s') = layout (fs s) ->
  block_bitmap (fs_bg (fs s')) = block_bitmap (fs_bg (fs s)) /\ blocks_per_group (fs_sb (fs s')) = blocks_per_group (fs_sb (fs s)) /\
  gdt s' = gdt s.
Proof. unfold layout, gdt. intros [= _ _ E1 _ _ E2 _ _ E3 _]. by rewrite E1, E2, E3. Qed.

(** The block of a position of the direct blocks. *)
Lemma block_of_byte q : 0 <= q < 12 * BS -> (Z.to_nat (q / BS) < 12)%nat.
Proof. intros Hq. pose proof (Z.div_lt_upper_bound q BS 12 ltac:(nia) ltac:(lia)). pose proof (Z.div_pos q BS ltac:(lia) ltac:(nia)). lia. Qed.

Lemma file_byte_ext s s' i q :
  0 <= q < 12 * BS -> (forall k, (k < 12)%nat -> x_block k i <> 0 -> blk s' (x_block k i) = blk s (x_block k i)) ->
  file_byte s' i q = file_byte s i q.
Proof.
  intros Hq H. unfold file_byte. destruct (Z.eqb_spec (x_block (Z.to_nat (q / BS)) i) 0); [done|].
  rewrite H; [done | by apply block_of_byte | done].
Qed.

(** Nothing of the file, nor the bitmap, has changed. *)
Lemma wrote_apart s0 pl i0 off src done s i s' :
  wrote s0 pl i0 off src done s i -> volume_ok s' -> layout (fs s') = layout (fs s) ->
  blk s' (block_bitmap (fs_bg (fs s))) = blk s (block_bitmap (fs_bg (fs s))) ->
  (forall m, m <> block_bitmap (fs_bg (fs s)) -> apart_from_super s m -> blk s' m = blk s m) ->
  wrote s0 pl i0 off src done s' i.
Proof.
  intros [Hv Hl Hf Hfi Hk Hby Hth Hot Hfr Htk] Hv' Hl' Hbm Hm. destruct (layout_eqs s s' Hl') as (E1 & E2 & E3).
  destruct (layout_eqs s0 s Hl) as (E4 & E5 & E6). pose proof Hf as [F1 F2 F3 F4]. split; try done; [congruence | | | |].
  - split; [done| |done|].
    + intros k Hk12 Hnz. apply (data_ok_layout s); [exact Hl' | by apply F2].
    + unfold taken. rewrite E1, E2, Hbm. intros j Hj Hc. destruct (F4 j Hj Hc) as (? & ? & ?).
      split; [done|]. split; [by apply (data_ok_layout s) | done].
  - intros q Hq. rewrite <- Hby by done. apply file_byte_ext; [done|]. intros k Hk12 Hnz. destruct (F2 k Hk12 Hnz) as (_ & ? & ? & _). by apply Hm.
  - intros m Hm1 Hap Hown. rewrite Hm; [by apply Hot | congruence |]. unfold apart_from_super in *. by rewrite E6.
  - intros j Hj. rewrite <- Htk by done. unfold taken. by rewrite E1, Hbm.
Qed.

(** A free block becomes a block of the file. *)
Lemma file_grow s s' pl i r bi :
  file_ok s pl i -> layout (fs s') = layout (fs s) -> (bi < 12)%nat -> x_block bi i = 0 ->
  0 <= r < blocks_per_group (fs_sb (fs s)) -> taken s r = false ->
  (forall j, 0 <= j -> taken s' j = (j =? r) || taken s j) ->
  file_ok s' pl (set_x_block bi r i) /\ x_block bi (set_x_block bi r i) = r /\
  forall k, k <> bi -> x_block k (set_x_block bi r i) = x_block k i.
Proof.
  intros [F1 F2 F3 F4] Hl' Hbi Hz Hr Hclear Hset. destruct (layout_eqs s s' Hl') as (E1 & E2 & E3).
  destruct (F4 r Hr Hclear) as (Hr0 & Hrd & Hown). pose proof (valid_bound r ltac:(by destruct Hrd)) as Hr32.
  assert (forall k, (k < 12)%nat -> x_block k i <> r) as Hfresh by (intros k Hk12 Heq; apply Hown; by exists k).
  set (i' := set_x_block bi r i). assert (x_block bi i' = r) as Ebi by (by apply x_block_set).
  assert (forall k, k <> bi -> x_block k i' = x_block k i) as Ene by (intros; by apply x_block_set_ne).
  split; [|done]. split.
  - unfold i', set_x_block. by rewrite length_set_field.
  - intros k Hk12 Hnz. apply (data_ok_layout s); [exact Hl'|]. destruct (decide (k = bi)) as [->|Hne]; [by rewrite Ebi|].
    rewrite Ene in * by done. by apply F2.
  - intros k k' Hk12 Hk12' Hnz Heq. destruct (decide (k = bi)) as [->|Hne], (decide (k' = bi)) as [->|Hne']; [done| | |].
    + rewrite Ebi, Ene in Heq by done. symmetry in Heq. by apply Hfresh in Heq.
    + rewrite Ebi, Ene in Heq by done. by apply Hfresh in Heq.
    + rewrite !Ene in * by done. by apply F3.
  - rewrite E2. intros j Hj. rewrite Hset by lia. destruct (Z.eqb_spec j r) as [|Hjr]; [done|]. cbn [orb]. intros Hc.
    destruct (F4 j Hj Hc) as (G1 & G2 & G3). split; [done|]. split; [by apply (data_ok_layout s)|].
    intros (k & Hk12 & Heq & Hnz). destruct (decide (k = bi)) as [->|Hne]; [congruence|]. rewrite Ene in Heq by done. apply G3. by exists k.
Qed.

(** A free block, cleared, becomes a block of the file. *)
Lemma wrote_grow s0 pl i0 off src done s i s' r bi :
  wrote s0 pl i0 off src done s i -> volume_ok s' -> layout (fs s') = layout (fs s) -> (bi < 12)%nat -> x_block bi i = 0 ->
  0 <= r < blocks_per_group (fs_sb (fs s)) -> taken s r = false ->
  (forall j, 0 <= j -> taken s' j = (j =? r) || taken s j) ->
  blk s' r = replicate (Z.to_nat BS) 0 ->
  (forall m, m <> r -> m <> block_bitmap (fs_bg (fs s)) -> apart_from_super s m -> blk s' m = blk s m) ->
  wrote s0 pl i0 off src done s' (set_x_block bi r i) /\ x_block bi (set_x_block bi r i) <> 0.
Proof.
  intros [Hv Hl Hf Hfi Hk Hby Hth Hot Hfr Htk] Hv' Hl' Hbi Hz Hr Hclear Hset Ez Hm. destruct (layout_eqs s0 s Hl) as (E4 & E5 & E6).
  destruct (file_grow s s' pl i r bi Hf Hl' Hbi Hz Hr Hclear Hset) as (Hf' & Ebi & Ene).
  destruct Hf as [_ F2 _ F4]. destruct (F4 r Hr Hclear) as (Hr0 & _ & Hown). set (i' := set_x_block bi r i) in *.
  assert (forall m, owns i' m <-> owns i m \/ m = r) as Hown'.
  { intros m. split.
    - intros (k & Hk12 & Hkm & Hnz). destruct (decide (k = bi)) as [->|Hne]; [right; congruence|]. left. exists k. by rewrite <- Ene.
    - intros [(k & Hk12 & Hkm & Hnz)| ->]; [|by exists bi]. exists k. rewrite Ene; [done|]. intros ->. congruence. }
  split; [|congruence]. split; try done.
  - congruence.
  - intros o n Hon. unfold i', set_x_block. rewrite field_set_ne by lia. by apply Hfi.
  - intros k Hk12 Hnz. destruct (decide (k = bi)) as [->|Hne]; [|rewrite Ene by done; by apply Hk].
    rewrite <- (Hk bi) in Hnz by done. done.
  - intros q Hq. rewrite <- Hby by done. unfold file_byte. pose proof (block_of_byte q Hq) as Hq12.
    destruct (decide (Z.to_nat (q / BS) = bi)) as [->|Hne].
    + rewrite Ebi, Hz, Z.eqb_refl. destruct (Z.eqb_spec r 0); [done|]. by rewrite Ez, nth_zeros.
    + rewrite Ene by done. destruct (Z.eqb_spec (x_block (Z.to_nat (q / BS)) i) 0) as [|Hnz]; [done|].
      destruct (F2 _ Hq12 Hnz) as (_ & ? & ? & _). rewrite Hm; [done | | done..]. intros Heq. apply Hown. by exists (Z.to_nat (q / BS)).
  - intros q Hq. destruct (decide (Z.to_nat (q / BS) = bi)) as [->|Hne]; [congruence|]. rewrite Ene by done. by apply Hth.
  - intros m Hm1 Hap Hnot. rewrite Hm; [| |congruence|unfold apart_from_super in *; by rewrite E6].
    + apply Hot; [done..|]. intros (k & Hk12 & Heq & Hnz). apply Hnot. exists k. split; [done|]. split; [|done].
      rewrite Ene; [done|]. intros ->. congruence.
    + intros ->. apply Hnot. by exists bi.
  - intros m Hm1. apply Hown' in Hm1 as [Hm1| ->]; [by apply Hfr | right]. split; [by rewrite <- E5|].
    destruct (taken s0 r) eqn:Et; [|done]. assert (taken s r = true) as Ht by (apply Htk; [lia | by left]). congruence.
  - intros j Hj. rewrite Hset by done. rewrite orb_true_iff, Z.eqb_eq, Htk by done. rewrite Hown'. split; [|tauto].
    intros [->|[?|[? ?]]]; [right | by left | tauto]. split; [by right|]. intros (k & Hk12 & Hkr & Hnz). apply Hown. exists k.
    split; [done|]. split; [|done]. rewrite <- Hkr. apply Hk; [done | congruence].
Qed.

Lemma clear_buffer s l : volume_ok s -> g_io s = l -> take (Z.to_nat BS) (list_inserts 0 (replicate (Z.to_nat BS) 0) l) = replicate (Z.to_nat BS) 0.
Proof.
  intros Hv <-. rewrite <- (length_replicate (Z.to_nat BS) 0) at 1. apply (take_drop_inserts_same 0). rewrite length_replicate, (v_io _ Hv). lia.
Qed.

(** A block of the file is there, or the bitmap is full. *)
Lemma ensure_spec s0 pl i0 off src done s i bi :
  bitmap_ok s0 -> wrote s0 pl i0 off src done s i -> (bi < 12)%nat ->
  exists s' i' ok, ensure_block bi i s = (s', i', ok) /\ wrote s0 pl i0 off src done s' i' /\
    (if ok then x_block bi i' <> 0
     else forall j, 0 <= j < blocks_per_group (fs_sb (fs s0)) -> taken s' j = true).
Proof.
  intros Hbo Hw Hbi. unfold ensure_block. destruct (Z.eqb_spec (x_block bi i) 0) as [Hz|Hz]; cbn [negb].
  2: { exists s, i, true. split; [done|]. by split. }
  pose proof (w_volume _ _ _ _ _ _ _ _ Hw) as Hv. pose proof (w_layout _ _ _ _ _ _ _ _ Hw) as Hl.
  pose proof (bitmap_ok_layout s0 s Hl Hbo) as [Hb1 Hb2 Hb3 Hb4]. destruct (layout_eqs s0 s Hl) as (E4 & E5 & E6).
  assert (0 <= blocks_per_group (fs_sb (fs s))) as Hp0 by apply (field_range 32 4).
  destruct (alloc_spec (block_bitmap (fs_bg (fs s))) (blocks_per_group (fs_sb (fs s))) false s Hv Hb1 Hb2 ltac:(lia) Hb3)
    as (s1 & r & E & Hv1 & [Hl1 Ho1] & Hcase).
  unfold alloc_block. rewrite E. destruct (layout_eqs s s1 Hl1) as (E1 & E2 & E3).
  assert (forall m, m <> block_bitmap (fs_bg (fs s)) -> apart_from_super s m -> blk s1 m = blk s m) as Hm1.
  { intros m H1 H2. apply Ho1. by intros [?|?]. }
  destruct Hcase as [(-> & Eb & Hfull) | (r' & Hr & -> & Hclear & _ & Hset)].
  - destruct (Z.ltb_spec (-1) 0); [|lia]. exists s1, i, false. split; [done|]. split; [by apply (wrote_apart _ _ _ _ _ _ s)|].
    intros j Hj. unfold taken. rewrite E1, Eb. apply Hfull. lia.
  - rewrite Z.add_0_r. destruct (Z.ltb_spec r' 0); [lia|].
    destruct (f_free _ _ _ (w_file _ _ _ _ _ _ _ _ Hw) r' Hr Hclear) as (_ & (Hrv & Hrb & Hra & _) & _).
    pose proof (f_len _ _ _ (w_file _ _ _ _ _ _ _ _ Hw)) as Hilen.
    rewrite x_block_set by (done || by apply valid_bound). set (s1' := io_put 0 _ s1).
    destruct (write_block_spec s1' r' (volume_ok_put _ _ _ Hv1) Hrv) as (s2 & -> & Hv2 & _ & Hw2).
    pose proof Hw2 as (Hf2 & Ez & _). unfold s1', io_put in Ez. cbn [set_io g_io] in Ez. rewrite (v_bs _ Hv1) in Ez.
    change (Z.to_nat 0) with 0%nat in Ez. rewrite (clear_buffer s1) in Ez by done.
    assert (forall m, m <> r' -> blk s2 m = blk s1 m) as Hm2 by (intros m Hm; apply (one_block_other _ _ _ _ m Hw2 Hm)).
    destruct (wrote_grow s0 pl i0 off src done s i s2 r' bi) as [G1 G2]; try done.
    + rewrite Hf2. exact Hl1.
    + intros j Hj. unfold taken. rewrite Hf2. change (fs s1') with (fs s1). rewrite E1, Hm2 by congruence. by apply Hset.
    + intros m H1 H2 H3. rewrite Hm2 by done. by apply Hm1.
    + exists s2, (set_x_block bi r' i), true. split; [done|]. by split.
Qed.

(** One piece of the data is written into a block of the file. *)
Lemma wrote_piece s0 pl i0 off src done s i s' k :
  let pos := off + done in
  let b := x_block (Z.to_nat (pos / BS)) i in
  wrote s0 pl i0 off src done s i -> volume_ok s' -> 0 <= off -> 0 <= done -> 0 < k -> done + k <= zlength src ->
  pos mod BS + k <= BS -> pos < 12 * BS -> b <> 0 ->
  one_block b (list_inserts (Z.to_nat (pos mod BS)) (take (Z.to_nat k) (drop (Z.to_nat done) src)) (blk s b)) s s' ->
  wrote s0 pl i0 off src (done + k) s' i.
Proof.
  intros pos b [Hv Hl Hf Hfi Hk Hby Hth Hot Hfr Htk] Hv' Ho Hd Hk0 Hlen Hroom Hpos Hb (Hfs & Eb & Hsec).
  pose proof Hf as [F1 F2 F3 F4]. pose proof (block_of_byte pos ltac:(unfold pos; lia)) as Hbi.
  destruct (F2 _ Hbi Hb) as (Hbv & Hbb & Hba & Hbt). fold b in Hbv, Hbb, Hba, Hbt. assert (forall m, m <> b -> blk s' m = blk s m) as Hm.
  { intros m Hne. apply (one_block_other b (blk s' b)); [|done]. by split. }
  assert (length (take (Z.to_nat k) (drop (Z.to_nat done) src)) = Z.to_nat k) as Hlc.
  { unfold zlength in Hlen. rewrite length_take, length_drop. lia. }
  split; try done.
  - by rewrite Hfs.
  - split; try done.
    + intros k' Hk' Hnz. apply (data_ok_layout s); [by rewrite Hfs | by apply F2].
    + unfold taken. rewrite Hfs. intros j Hj. rewrite Hm by congruence. intros Hc. destruct (F4 j Hj Hc) as (? & ? & ?).
      split; [done|]. split; [|done]. apply (data_ok_layout s); [by rewrite Hfs | done].
  - intros q Hq. pose proof (block_of_byte q Hq) as Hq12. specialize (Hby q Hq). unfold file_byte in *.
    pose proof (Z.div_mod q BS ltac:(nia)) as Eq. pose proof (Z.div_mod pos BS ltac:(nia)) as Epos.
    pose proof (Z.mod_pos_bound q BS ltac:(nia)). pose proof (Z.mod_pos_bound pos BS ltac:(nia)).
    destruct (decide (q / BS = pos / BS)) as [E|E].
    + assert (q - q mod BS = pos - pos mod BS) as Eqp by (rewrite E in Eq; lia). rewrite E in *. fold b in Hby |- *. clear Eq Epos. destruct (Z.eqb_spec b 0); [done|]. rewrite Eb, nth_inserts, Hlc, length_blk_nat.
      case_decide as Hin.
      * replace ((off <=? q) && (q <? off + (done + k))) with true by (destruct (Z.leb_spec off q), (Z.ltb_spec q (off + (done + k))); cbn [andb]; unfold pos in *; lia).
        rewrite !nth_lookup, lookup_take_lt, lookup_drop by lia. do 2 f_equal. unfold pos in *. lia.
      * rewrite Hby. unfold pos in *. destruct (Z.leb_spec off q), (Z.ltb_spec q (off + done)), (Z.ltb_spec q (off + (done + k))); cbn [andb]; try done; lia.
    + assert (x_block (Z.to_nat (q / BS)) i <> b \/ x_block (Z.to_nat (q / BS)) i = 0) as Hne.
      { destruct (decide (x_block (Z.to_nat (q / BS)) i = 0)) as [|Hnz]; [by right|]. left. intros Heq.
        apply F3 in Heq; [|done..]. pose proof (Z.div_pos q BS ltac:(lia) ltac:(nia)). pose proof (Z.div_pos pos BS ltac:(unfold pos; lia) ltac:(nia)). lia. }
      assert (~ pos <= q < pos + k) as Hout.
      { intros Hq'. apply E. symmetry. apply (Z.div_unique q BS (pos / BS) (q - BS * (pos / BS))); lia. }
      replace ((off <=? q) && (q <? off + (done + k))) with ((off <=? q) && (q <? off + done))
        by (unfold pos in *; destruct (Z.leb_spec off q), (Z.ltb_spec q (off + done)), (Z.ltb_spec q (off + (done + k))); cbn [andb]; done || lia).
      rewrite <- Hby. destruct (Z.eqb_spec (x_block (Z.to_nat (q / BS)) i) 0); [done|]. rewrite Hm; [done|]. by destruct Hne.
  - intros q Hq. destruct (Z_lt_ge_dec q pos) as [|Hge]; [apply Hth; unfold pos in *; lia|].
    replace (q / BS) with (pos / BS); [exact Hb|]. pose proof (Z.div_mod pos BS ltac:(nia)). pose proof (Z.mod_pos_bound pos BS ltac:(nia)).
    apply (Z.div_unique q BS (pos / BS) (q - BS * (pos / BS))); unfold pos in *; lia.
  - intros m Hm1 Hap Hown. rewrite Hm; [by apply Hot|]. intros ->. apply Hown. by exists (Z.to_nat (pos / BS)).
  - intros j Hj. rewrite <- Htk by done. unfold taken. rewrite Hfs, Hm by congruence. done.
Qed.

Lemma file_write_spec n s0 pl i0 off src dn s i :
  bitmap_ok s0 -> wrote s0 pl i0 off src dn s i -> 0 <= off -> off + zlength src <= 12 * BS -> 0 <= dn <= zlength src ->
  zlength src - dn <= Z.of_nat n ->
  exists s' i' r, file_write_loop n i off dn src s = (s', i', r) /\ wrote s0 pl i0 off src r s' i' /\ dn <= r <= zlength src /\
    (r < zlength src -> forall j, 0 <= j < blocks_per_group (fs_sb (fs s0)) -> taken s' j = true).
Proof.
  intros Hbo. revert dn s i. induction n as [|n IH]; intros dn s i Hw Ho Hlen Hd Hn; cbn [file_write_loop];
    (destruct (Z.leb_spec (zlength src) dn) as [|Hlt]; [exists s, i, dn; split; [done|]; split; [done|]; lia | try lia]).
  rewrite (v_bs s (w_volume _ _ _ _ _ _ _ _ Hw)). rewrite (u32_small (off + dn)) by lia.
  set (pos := off + dn). pose proof (block_of_byte pos ltac:(unfold pos; lia)) as Hbi.
  destruct (Z.leb_spec 12 (pos / BS)); [lia|].
  destruct (ensure_spec s0 pl i0 off src dn s i (Z.to_nat (pos / BS)) Hbo Hw Hbi) as (s1 & i1 & ok & -> & Hw1 & Hok).
  destruct ok; cbn [negb]; [|exists s1, i1, dn; split; [done|]; split; [done|]; split; [lia | done]].
  set (b := x_block (Z.to_nat (pos / BS)) i1) in *. pose proof Hw1 as [Hv1 Hl1 Hf1 _ _ _ _ _ _ _].
  destruct (f_blocks _ _ _ Hf1 _ Hbi Hok) as (Hbv & _ & _ & _).
  destruct (read_block_spec s1 b Hv1 Hbv) as (s2 & -> & Hs2 & Hv2 & Hio2). cbn [negb].
  rewrite (v_bs _ Hv2). pose proof (Z.mod_pos_bound pos BS ltac:(nia)) as Hmod. set (bo := pos mod BS) in *.
  set (k := if zlength src - dn <? BS - bo then zlength src - dn else BS - bo).
  assert (0 < k /\ k <= BS - bo /\ k <= zlength src - dn) as (Hk1 & Hk2 & Hk3).
  { unfold k. destruct (Z.ltb_spec (zlength src - dn) (BS - bo)); lia. }
  clearbody k. set (chunk := take (Z.to_nat k) _). assert (length chunk = Z.to_nat k) as Hlc.
  { unfold chunk. unfold zlength in Hk3. rewrite length_take, length_drop. lia. }
  destruct (write_block_spec (io_put bo chunk s2) b (volume_ok_put _ _ _ Hv2) Hbv) as (s3 & -> & Hv3 & _ & Hf3 & Eb3 & Hsec3).
  cbn [negb]. destruct (IH (dn + k) s3 i1) as (s' & i' & r & E & Hw' & Hr & Hfull); [|done..|lia|lia|].
  2: { exists s', i', r. split; [exact E|]. split; [done|]. split; [lia | done]. }
  apply (wrote_piece s0 pl i0 off src dn s1 i1 s3 k); try done; try (fold pos bo; lia).
  fold pos b bo chunk. split; [by rewrite Hf3; destruct Hs2|]. split.
  - rewrite Eb3. unfold io_put. cbn [set_io g_io]. rewrite Hio2, take_inserts by lia. by rewrite io_front.
  - intros q Hq. rewrite Hsec3 by done. destruct Hs2 as [_ H2]. apply H2.
Qed.

(** The bytes of a piece of a block of the file. *)
Lemma piece_bytes s i pos k r :
  0 <= pos -> 0 <= k -> pos mod BS + k <= BS -> x_block (Z.to_nat (pos / BS)) i <> 0 ->
  take (Z.to_nat k) (drop (Z.to_nat (pos mod BS)) (blk s (x_block (Z.to_nat (pos / BS)) i) ++ r)) = map (file_byte s i) (seqZ pos k).
Proof.
  intros Hp Hk Hr Hnz. pose proof (Z.mod_pos_bound pos BS ltac:(nia)). pose proof (Z.div_mod pos BS ltac:(nia)).
  rewrite slice_front by (rewrite length_blk_nat; lia). apply list_eq. intros j. change (map (file_byte s i)) with (fmap (M := list) (file_byte s i)).
  rewrite list_lookup_fmap. destruct (decide (j < Z.to_nat k)%nat) as [Hj|Hj].
  2: { rewrite lookup_take_ge, lookup_seqZ_ge by lia. done. }
  rewrite lookup_take_lt, lookup_drop, lookup_seqZ_lt by lia. cbn [fmap option_fmap option_map].
  assert ((pos + Z.of_nat j) / BS = pos / BS) as Eq.
  { symmetry. apply (Z.div_unique _ BS (pos / BS) (pos + Z.of_nat j - BS * (pos / BS))); lia. }
  assert ((pos + Z.of_nat j) mod BS = pos mod BS + Z.of_nat j) as Em.
  { pose proof (Z.div_mod (pos + Z.of_nat j) BS ltac:(nia)) as Ed. rewrite Eq in Ed. lia. }
  unfold file_byte. rewrite Eq, Em. destruct (Z.eqb_spec (x_block (Z.to_nat (pos / BS)) i) 0); [done|].
  set (l := blk s _). destruct (lookup_lt_is_Some_2 l (Z.to_nat (pos mod BS) + j)) as [c Hc].
  { unfold l. rewrite length_blk_nat. lia. }
  rewrite Hc. f_equal. rewrite nth_lookup. replace (Z.to_nat (pos mod BS + Z.of_nat j)) with (Z.to_nat (pos mod BS) + j)%nat by lia. by rewrite Hc.
Qed.

Lemma seqZ_app o n k : 0 <= n -> 0 <= k -> seqZ o n ++ seqZ (o + n) k = seqZ o (n + k).
Proof. intros. symmetry. by apply seqZ_app. Qed.

Lemma file_read_spec n s i off len out :
  volume_ok s -> (forall k, (k < 12)%nat -> x_block k i <> 0 -> valid (x_block k i)) ->
  (forall q, off <= q < off + len -> x_block (Z.to_nat (q / BS)) i <> 0) -> 0 <= off -> off + len <= 12 * BS ->
  zlength out <= len -> len - zlength out <= Z.of_nat n ->
  exists s', file_read_loop n i off len out s = (s', out ++ map (file_byte s i) (seqZ (off + zlength out) (len - zlength out))) /\
    same_disk s s' /\ volume_ok s'.
Proof.
  revert s out. induction n as [|n IH]; intros s out Hv Hok Hth Ho Hlen Hout Hn; cbn [file_read_loop];
    (destruct (Z.leb_spec len (zlength out)) as [|Hlt];
     [exists s; replace (len - zlength out) with 0 by lia; rewrite app_nil_r; by split | try lia]).
  set (dn := zlength out) in *. assert (0 <= dn) as Hd by (unfold dn, zlength; lia). rewrite (v_bs _ Hv), (u32_small (off + dn)) by lia.
  set (pos := off + dn). pose proof (block_of_byte pos ltac:(unfold pos; lia)) as Hbi.
  assert (pos / BS < 12) as Hbi' by (apply Z.div_lt_upper_bound; [nia | unfold pos; lia]).
  unfold data_block. destruct (Z.ltb_spec (pos / BS) 12); [|lia].
  pose proof (Hth pos ltac:(unfold pos; lia)) as Hnz. set (b := x_block (Z.to_nat (pos / BS)) i) in *.
  destruct (Z.eqb_spec b 0); [done|]. destruct (read_block_spec s b Hv ltac:(by apply Hok)) as (s1 & -> & Hs1 & Hv1 & Hio1).
  cbn [negb]. rewrite (v_bs _ Hv1). pose proof (Z.mod_pos_bound pos BS ltac:(nia)) as Hmod.
  set (k := if len - dn <? BS - pos mod BS then len - dn else BS - pos mod BS).
  assert (0 < k /\ k <= BS - pos mod BS /\ k <= len - dn) as (Hk1 & Hk2 & Hk3).
  { unfold k. destruct (Z.ltb_spec (len - dn) (BS - pos mod BS)); lia. }
  clearbody k. rewrite Hio1. unfold b. rewrite piece_bytes by first [exact Hnz | lia | unfold pos; lia].
  assert (zlength (out ++ map (file_byte s i) (seqZ pos k)) = dn + k) as El.
  { unfold dn, zlength. rewrite length_app, length_map, length_seqZ. lia. }
  destruct (IH s1 (out ++ map (file_byte s i) (seqZ pos k)) Hv1 Hok Hth) as (s' & E & Hs' & Hv'); try lia.
  exists s'. rewrite E, El. split; [|split; [by etrans | done]]. f_equal. rewrite <- app_assoc. f_equal.
  replace (len - dn) with (k + (len - (dn + k))) by lia. rewrite <- seqZ_app by lia. rewrite map_app. f_equal.
  replace (pos + k) with (off + (dn + k)) by (unfold pos; lia). apply map_ext_in. intros q Hq.
  apply list_elem_of_In, elem_of_seqZ in Hq. apply file_byte_ext; [lia|]. intros. by apply same_blk.
Qed.

(** ** Writing and reading *)

(** The place of an inode is a block of the inode table. *)
Definition place_ok s ino (pl : Z * Z) : Prop :=
  inode_place ino s = Some pl /\ valid pl.1 /\ pl.1 <> block_bitmap (fs_bg (fs s)) /\ apart_from_super s pl.1.

Lemma x_block_sized k n i : x_block k (sized n i) = x_block k i.
Proof. unfold sized, set_x_blocks, set_x_size. unfold x_block. by rewrite !field_set_ne by lia. Qed.

Lemma length_sized n i : length (sized n i) = length i.
Proof. unfold sized, set_x_blocks, set_x_size. by rewrite !length_set_field. Qed.

Lemma x_size_sized n i : 0 <= n < 2 ^ 32 -> length i = EXT2_INODE_SIZE -> x_size (sized n i) = n.
Proof.
  intros Hn Hi. unfold sized, set_x_blocks, set_x_size, x_size. rewrite field_set_ne by lia.
  apply field_set; [exact Hn|]. rewrite Hi. unfold EXT2_INODE_SIZE. lia.
Qed.

(** Another inode with the same blocks is stored in the place. *)
Lemma file_stored s pl i i' s' l :
  file_ok s pl i -> pl.1 <> block_bitmap (fs_bg (fs s)) -> one_block pl.1 l s s' -> length i' = EXT2_INODE_SIZE ->
  (forall k, x_block k i' = x_block k i) -> file_ok s' pl i'.
Proof.
  intros [F1 F2 F3 F4] Hbm Hw Hlen Hx. pose proof Hw as (Hfs & _ & _).
  split; [done | | |].
  - intros k Hk. rewrite Hx. intros Hnz. apply (data_ok_layout s); [by rewrite Hfs | by apply F2].
  - intros k k' Hk Hk'. rewrite !Hx. by apply F3.
  - unfold taken. rewrite Hfs. intros j Hj. rewrite (one_block_other _ _ _ _ _ Hw) by done. intros Hc. destruct (F4 j Hj Hc) as (? & ? & Hown).
    split; [done|]. split; [apply (data_ok_layout s); [by rewrite Hfs | done]|].
    intros (k & Hk & Hkj & Hnz). rewrite Hx in Hkj. apply Hown. by exists k.
Qed.

(** The inode is stored after the data. *)
Lemma wrote_inode s0 pl i0 off src r s i s' n :
  wrote s0 pl i0 off src r s i -> pl.1 <> block_bitmap (fs_bg (fs s)) ->
  one_block pl.1 (list_inserts (Z.to_nat pl.2) (sized n i) (blk s pl.1)) s s' ->
  file_ok s' pl (sized n i) /\ (forall q, 0 <= q < 12 * BS -> file_byte s' (sized n i) q = file_byte s i q).
Proof.
  intros [Hv Hl Hf _ _ _ _ _] Hbm Hw. split.
  - eapply (file_stored s); [exact Hf | done | exact Hw | rewrite length_sized; by destruct Hf | intros; apply x_block_sized].
  - intros q Hq. rewrite <- (file_byte_ext s s' i q Hq).
    + unfold file_byte. by rewrite x_block_sized.
    + intros k Hk Hnz. apply (one_block_other _ _ _ _ _ Hw). by destruct (f_blocks _ _ _ Hf k Hk Hnz) as (_ & _ & _ & ?).
Qed.

(** A block that the bitmap has as free, as the format counts: bit 0 stands for the
    first data block. *)
Definition free_block s (m : Z) : Prop :=
  let k := m - first_data_block (fs_sb (fs s)) in 0 <= k < blocks_per_group (fs_sb (fs s)) /\ taken s k = false.

(** What a write leaves: [r] bytes of [src] are in the file from [off] on. *)
Record stored s0 (pl : Z * Z) (off : Z) (src : list Z) (r : Z) s : Prop := {
  st_volume : volume_ok s; st_layout : layout (fs s) = layout (fs s0); st_file : file_ok s pl (inode_at s pl);
  st_size : x_size (inode_at s pl) = Z.max (x_size (inode_at s0 pl)) (off + r);
  st_kept : forall k, (k < 12)%nat -> x_block k (inode_at s0 pl) <> 0 -> x_block k (inode_at s pl) = x_block k (inode_at s0 pl);
  st_bytes : forall q, 0 <= q < 12 * BS ->
    file_byte s (inode_at s pl) q =
      if (off <=? q) && (q <? off + r) then nth (Z.to_nat (q - off)) src 0 else file_byte s0 (inode_at s0 pl) q;
  st_there : forall q, off <= q < off + r -> x_block (Z.to_nat (q / BS)) (inode_at s pl) <> 0;
  st_others : forall m, m <> block_bitmap (fs_bg (fs s0)) -> m <> pl.1 -> apart_from_super s0 m -> ~ owns (inode_at s pl) m -> blk s m = blk s0 m;
  st_full : r < zlength src -> forall j, 0 <= j < blocks_per_group (fs_sb (fs s0)) -> taken s j = true;
  st_fresh : forall m, owns (inode_at s pl) m -> owns (inode_at s0 pl) m \/ 0 <= m < blocks_per_group (fs_sb (fs s0)) /\ taken s0 m = false;
  st_taken : forall j, 0 <= j -> taken s j = true <-> taken s0 j = true \/ owns (inode_at s pl) j /\ ~ owns (inode_at s0 pl) j;
  st_table : blk s pl.1 = list_inserts (Z.to_nat pl.2) (inode_at s pl) (blk s0 pl.1);
  st_fields : forall o n, (o + n <= 4 \/ 8 <= o /\ o + n <= 28)%nat -> field o n (inode_at s pl) = field o n (inode_at s0 pl)
}.

Lemma ext2_write_spec s inode off src pl :
  volume_ok s -> bitmap_ok s -> place_ok s (i_ino inode) pl -> file_ok s pl (inode_at s pl) -> 0 <= off -> off + zlength src <= 12 * BS ->
  exists s1 r, ext2_write inode off src s = (s1, set_i_size (Z.max (x_size (inode_at s pl)) (off + r)) inode, r) /\
    0 <= r <= zlength src /\ stored s pl off src r s1.
Proof.
  intros Hv Hbm (Hp & Hpv & Hpb & Hpa) Hf Hoff Hlen. unfold ext2_write. assert (0 <= pl.2 /\ pl.2 + 128 <= BS) as [Hbo1 Hbo2].
  { destruct pl as [tb bo]. by apply (place_bound (i_ino inode) s tb bo). }
  destruct (read_inode_spec _ s pl Hv Hp Hpv) as (s0 & -> & Hs0 & Hv0). set (i := inode_at s pl) in *.
  assert (layout (fs s0) = layout (fs s)) as Hl0 by (by destruct Hs0 as [-> _]).
  pose proof (wrote_apart _ _ _ _ _ _ _ _ s0 (wrote_nothing s pl i off src Hv Hf) Hv0 Hl0 (same_blk _ _ _ Hs0) (fun m _ _ => same_blk _ _ m Hs0)) as Hw0.
  destruct (file_write_spec (length src) s pl i off src 0 s0 i Hbm Hw0 Hoff Hlen) as (s1 & i1 & r & -> & Hw1 & Hr & Hfull);
    [unfold zlength; lia | unfold zlength; lia |].
  pose proof Hw1 as [Hv1 Hl1 Hf1 Hfi1 Hk1 Hby1 Hth1 Hot1 Hfr1 Htk1]. rewrite (u32_small (off + r)) by lia.
  assert (x_size i1 = x_size i) as Esz by (apply Hfi1; lia). pose proof (field_range 4 4 i) as Hsz. fold (x_size i) in Hsz.
  assert ((if x_size i1 <? off + r then off + r else x_size i1) = Z.max (x_size i) (off + r)) as -> by (destruct (Z.ltb_spec (x_size i1) (off + r)); lia).
  set (n := Z.max _ _). assert (length (sized n i1) = EXT2_INODE_SIZE) as Hil by (rewrite length_sized; by destruct Hf1).
  destruct (layout_eqs s s1 Hl1) as (E1 & E2 & E3).
  destruct (write_inode_spec (i_ino inode) (sized n i1) s1 pl Hv1) as (s2 & -> & Hv2 & Hw2);
    [by rewrite (place_layout _ s) | done | done |].
  destruct (wrote_inode _ _ _ _ _ _ _ _ s2 n Hw1 ltac:(by rewrite E1) Hw2) as [Hf2 Hby2].
  assert (inode_at s2 pl = sized n i1) as Ei2 by (by apply (inode_written _ s1)).
  assert (layout (fs s2) = layout (fs s)) as Hl2 by (destruct Hw2 as [-> _]; done).
  assert (forall m, owns (sized n i1) m <-> owns i1 m) as Hown by (intros m; unfold owns; by setoid_rewrite x_block_sized).
  exists s2, r. split; [by rewrite i32_small by lia|]. split; [lia|]. split; rewrite ?Ei2; try done.
  - fold i n. apply x_size_sized; [unfold n; lia | by destruct Hf1].
  - intros k Hk. rewrite x_block_sized. by apply Hk1.
  - intros q Hq. rewrite Hby2, Hby1 by done. done.
  - intros q Hq. rewrite x_block_sized. by apply Hth1.
  - intros m H1 H2 H3 H4. rewrite (one_block_other _ _ _ _ _ Hw2) by done. apply Hot1; [done..|].
    intros (k & Hk & Hkm & Hnz). apply H4. exists k. by rewrite x_block_sized.
  - intros Hlt j Hj. destruct (layout_eqs s s2 Hl2) as (E4 & _). unfold taken. rewrite E4.
    rewrite (one_block_other _ _ _ _ _ Hw2) by done. rewrite <- E1. by apply Hfull.
  - intros m. rewrite Hown. apply Hfr1.
  - intros j Hj. destruct (layout_eqs s s2 Hl2) as (E4 & _). rewrite Hown. fold i. rewrite <- Htk1 by done. unfold taken. rewrite E4, E1.
    by rewrite (one_block_other _ _ _ _ _ Hw2).
  - destruct Hw2 as (_ & -> & _). f_equal. apply Hot1; [done..|].
    intros (k & Hk & Hkm & Hnz). destruct (f_blocks _ _ _ Hf1 k Hk); [by rewrite Hkm | tauto].
  - intros o m Hom. unfold sized, set_x_blocks, set_x_size. rewrite !field_set_ne by lia. apply Hfi1. lia.
Qed.

(** A read gives the bytes up to the end of the file, if no hole stops it. *)
Lemma ext2_read_spec s inode off len pl :
  volume_ok s -> inode_place (i_ino inode) s = Some pl -> valid pl.1 -> let i := inode_at s pl in
  (forall k, (k < 12)%nat -> x_block k i <> 0 -> valid (x_block k i)) -> 0 <= off -> 0 <= len -> off + len < 2 ^ 32 ->
  Z.min (off + len) (x_size i) <= 12 * BS -> (forall q, off <= q < Z.min (off + len) (x_size i) -> x_block (Z.to_nat (q / BS)) i <> 0) ->
  let c := map (file_byte s i) (seqZ off (Z.min len (x_size i - off))) in
  exists s', ext2_read inode off len s = (s', zlength c, c) /\ same_disk s s' /\ volume_ok s'.
Proof.
  intros Hv Hp Hpv i Hok Ho Hl Hlt Hmax Hth c. unfold ext2_read.
  destruct (read_inode_spec (i_ino inode) s pl Hv Hp Hpv) as (s1 & -> & Hs1 & Hv1). fold i.
  pose proof (field_range 4 4 i) as Hsz. fold (x_size i) in Hsz.
  destruct (Z.leb_spec (x_size i) off) as [Hno|Hno].
  { exists s1. assert (c = []) as -> by (unfold c; by rewrite seqZ_nil by lia). by split. }
  rewrite u32_small by lia. set (m := if x_size i <? off + len then x_size i - off else len).
  assert (m = Z.min len (x_size i - off)) as Em by (unfold m; destruct (Z.ltb_spec (x_size i) (off + len)); lia). rewrite Em. clear m Em.
  set (m := Z.min len (x_size i - off)) in *. destruct (file_read_spec (Z.to_nat m) s1 i off m [] Hv1 Hok) as (s2 & -> & Hs2 & Hv2).
  - intros q Hq. apply Hth. lia.
  - done.
  - lia.
  - unfold zlength. cbn. lia.
  - unfold zlength. cbn. lia.
  - exists s2. cbn [app]. change (zlength []) with 0. rewrite Z.add_0_r, Z.sub_0_r. split; [|split; [by etrans | done]].
    assert (map (file_byte s1 i) (seqZ off m) = c) as ->.
    { apply map_ext_in. intros q Hq. apply list_elem_of_In, elem_of_seqZ in Hq. apply file_byte_ext; [lia|]. intros. by apply same_blk. }
    unfold c, zlength. rewrite length_map, length_seqZ. rewrite i32_small by lia. done.
Qed.

(** C17: on a volume whose first data block is block 0, a write to a file at a
    position that its direct blocks cover stores the first bytes of the data, all of
    them unless the bitmap of blocks is full, and reading them back gives them; the
    file grows to the end of what was written, its other bytes, its owner and its
    mode stay. A block that the file gains is one that the bitmap had as free, and
    the bits that become set are those of the blocks gained; in the table of inodes
    only the bytes of this inode change, so that the inodes beside it stay; every
    other block but the bitmap, the superblock and the group descriptor is as
    before. (Where the first data block is block 1 a block of another file may be
    taken: [alloc_reuses_block].) *)
Theorem ext2_write_then_read s inode off src pl
    (Hv : volume_ok s) (Hbm : bitmap_ok s) (Hpl : place_ok s (i_ino inode) pl) (Hf : file_ok s pl (inode_at s pl))
    (Hfirst : first_data_block (fs_sb (fs s)) = 0) (Hoff : 0 <= off) (Hlen : off + zlength src <= 12 * BS) :
  exists s1 inode1 r,
    ext2_write inode off src s = (s1, inode1, r) /\ 0 <= r <= zlength src /\
    (r < zlength src -> forall j, 0 <= j < blocks_per_group (fs_sb (fs s)) -> taken s1 j = true) /\
    file_ok s1 pl (inode_at s1 pl) /\ x_size (inode_at s1 pl) = Z.max (x_size (inode_at s pl)) (off + r) /\
    (forall q, 0 <= q < 12 * BS ->
      file_byte s1 (inode_at s1 pl) q =
        if (off <=? q) && (q <? off + r) then nth (Z.to_nat (q - off)) src 0 else file_byte s (inode_at s pl) q) /\
    (forall o n, (o + n <= 4 \/ 8 <= o /\ o + n <= 28)%nat -> field o n (inode_at s1 pl) = field o n (inode_at s pl)) /\
    (forall m, owns (inode_at s pl) m -> owns (inode_at s1 pl) m) /\
    (forall m, owns (inode_at s1 pl) m -> owns (inode_at s pl) m \/ free_block s m) /\
    (forall j, 0 <= j -> taken s1 j = true <-> taken s j = true \/ owns (inode_at s1 pl) j /\ ~ owns (inode_at s pl) j) /\
    blk s1 pl.1 = list_inserts (Z.to_nat pl.2) (inode_at s1 pl) (blk s pl.1) /\
    (forall m, m <> block_bitmap (fs_bg (fs s)) -> m <> pl.1 -> apart_from_super s m -> ~ owns (inode_at s1 pl) m -> blk s1 m = blk s m) /\
    exists s2, ext2_read inode1 off r s1 = (s2, r, take (Z.to_nat r) src) /\ same_disk s1 s2.
Proof.
  destruct (ext2_write_spec s inode off src pl Hv Hbm Hpl Hf Hoff Hlen) as (s1 & r & -> & Hr & [Hv1 Hl1 Hf1 Hsz Hk1 Hby1 Hth1 Hot1 Hfull Hfr Htk Htab Hfi]).
  destruct Hpl as (Hp & Hpv & _). eexists s1, _, r. do 7 (split; [done|]).
  split; [intros m (k & Hk & Hkm & Hnz); exists k; by rewrite Hk1 by congruence|].
  split; [intros m Hm; unfold free_block; rewrite Hfirst, Z.sub_0_r; by apply Hfr|]. do 3 (split; [done|]).
  destruct (ext2_read_spec s1 (set_i_size (Z.max (x_size (inode_at s pl)) (off + r)) inode) off r pl Hv1) as (s2 & E & Hs & _); try done; try lia.
  - by rewrite (place_layout _ s).
  - intros k Hk Hnz. by destruct (f_blocks _ _ _ Hf1 k Hk Hnz).
  - intros q Hq. apply Hth1. lia.
  - replace (Z.min r (x_size (inode_at s1 pl) - off)) with r in E by lia. exists s2. rewrite E.
    assert (map (file_byte s1 (inode_at s1 pl)) (seqZ off r) = take (Z.to_nat r) src) as ->; [|unfold zlength in *; rewrite length_take; split; [do 2 f_equal; lia | done]].
    apply list_eq. intros j. change (map (file_byte s1 (inode_at s1 pl))) with (fmap (M := list) (file_byte s1 (inode_at s1 pl))).
    rewrite list_lookup_fmap. destruct (decide (j < Z.to_nat r)%nat) as [Hj|Hj].
    2: { by rewrite lookup_take_ge, lookup_seqZ_ge by lia. }
    rewrite lookup_take_lt, lookup_seqZ_lt by lia. cbn [fmap option_fmap option_map]. rewrite Hby1 by lia.
    destruct (Z.leb_spec off (off + Z.of_nat j)), (Z.ltb_spec (off + Z.of_nat j) (off + r)); cbn [andb]; try lia.
    destruct (lookup_lt_is_Some_2 src j) as [c Hc]; [unfold zlength in Hr; lia|]. rewrite Hc, nth_lookup.
    replace (Z.to_nat (off + Z.of_nat j - off)) with j by lia. by rewrite Hc.
Qed.

(** On a volume whose first block is 1, as it is with blocks of 1 KiB, bit [k] of
    the bitmap stands for block [k + 1]: the block that is handed out is one that
    the bitmap has as taken, unless it is block 0. *)
Theorem alloc_reuses_block s s' r
    (Hv : volume_ok s) (Hb : bitmap_ok s) (Hfirst : first_data_block (fs_sb (fs s)) = 1)
    (Hrun : alloc_block s = (s', r)) (Hr : 0 < r) :
  taken s (r - first_data_block (fs_sb (fs s))) = true.
Proof.
  destruct Hb as [Hb1 Hb2 Hb3 Hb4]. pose proof (field_range 32 4 (fs_sb (fs s))) as Hp. fold (blocks_per_group (fs_sb (fs s))) in Hp.
  destruct (alloc_spec (block_bitmap (fs_bg (fs s))) (blocks_per_group (fs_sb (fs s))) false s Hv Hb1 Hb2 ltac:(lia) Hb3)
    as (s1 & r' & E & _ & _ & Hcase).
  unfold alloc_block in Hrun. rewrite E in Hrun. injection Hrun as <- <-.
  destruct Hcase as [(-> & _) | (k & Hk & -> & _ & Hlow & _)]; [lia|]. rewrite Hfirst. apply Hlow. lia.
Qed.
End volume.

(** ** A volume *)

(** A disk from the content of its blocks of 2048 bytes. *)
Definition disk_of (block : Z -> list Z) : ramdisk 512 := {| rd_sector := fun n => drop (512 * Z.to_nat (n mod 4)) (block (n / 4)) |}.

Definition demo_dev : block_device :=
  {| present := 1; bname := str "sda"; sector_size := 512; sector_count := 128; start_lba := 0; ctx := 0; has_read := true; has_write := true |}.

(** The superblock, the group descriptor, the bitmaps in blocks 3 and 4, the
    inodes in block 5, the root directory in block 6. *)
Definition demo_super : list Z :=
  le_bytes 4 16 ++ le_bytes 4 32 ++ le_bytes 4 0 ++ le_bytes 4 25 ++ le_bytes 4 5 ++ le_bytes 4 0 ++ le_bytes 4 1 ++ le_bytes 4 1 ++
  le_bytes 4 32 ++ le_bytes 4 32 ++ le_bytes 4 16 ++ replicate 12 0 ++ le_bytes 2 0xEF53 ++ replicate 30 0 ++ le_bytes 2 128.
Definition demo_group : list Z := le_bytes 4 3 ++ le_bytes 4 4 ++ le_bytes 4 5 ++ le_bytes 2 25 ++ le_bytes 2 5.
Definition demo_root : list Z := le_bytes 2 0x41FF ++ le_bytes 2 0 ++ le_bytes 4 2048 ++ replicate 32 0 ++ le_bytes 4 6.
Definition demo_file : list Z := le_bytes 2 0x81FF.
Definition demo_block (n : Z) : list Z :=
  match n with
  | 0 => replicate 1024 0 ++ pad 1024 demo_super
  | 1 => pad 2048 demo_group
  | 3 => pad 2048 [0x7F; 0; 0; 0]
  | 4 => pad 2048 [0xFF; 0x07]
  | 5 => replicate 128 0 ++ pad 128 demo_root ++ replicate 1024 0 ++ pad 768 demo_file
  | 6 => pad 2048 (pad 12 (entry_bytes 2 12 2 dot) ++ entry_bytes 2 2036 2 dotdot)
  | _ => replicate 2048 0
  end.

Definition demo_volume : e2 (ramdisk 512) :=
  {| fs := {| bdev := demo_dev; fs_sb := pad 104 demo_super; fs_bg := pad 32 demo_group; block_size := 2048 |};
     disk := disk_of demo_block; g_io := replicate 4096 0; g_io2 := replicate 4096 0 |}.
Definition demo_sector (d : ramdisk 512) (n : Z) : list Z := pad 512 (rd_sector d n).
Definition demo_inode : vfs_inode := {| i_ino := 11; i_mode := 0x81FF; i_uid := 0; i_gid := 0; i_size := 0; i_private := [0; 0; 0; 0] |}.

#[local] Instance demo_driver_ok : driver_ok (ramdisk 512) 512 demo_sector.
Proof. apply (ramdisk_ok 512). Qed.

Lemma demo_volume_ok : volume_ok 512 4 demo_volume.
Proof. split; vm_compute; reflexivity. Qed.

Lemma demo_bitmap_ok : bitmap_ok 512 4 demo_volume.
Proof.
  assert (block_bitmap (fs_bg (fs demo_volume)) = 3) as E1 by (vm_compute; reflexivity).
  assert (gdt demo_volume = 1) as E2 by (vm_compute; reflexivity).
  assert (blocks_per_group (fs_sb (fs demo_volume)) = 32) as E3 by (vm_compute; reflexivity).
  split; unfold apart_from_super, valid; rewrite ?E1, ?E2, ?E3; lia.
Qed.

Lemma demo_place_ok : place_ok 4 demo_volume 11 (5, 1280).
Proof.
  assert (block_bitmap (fs_bg (fs demo_volume)) = 3) as E1 by (vm_compute; reflexivity).
  assert (gdt demo_volume = 1) as E2 by (vm_compute; reflexivity).
  split; [vm_compute; reflexivity|]. unfold apart_from_super, valid. rewrite E1, E2. cbn [fst]. lia.
Qed.

Lemma demo_file_ok : file_ok 4 demo_sector demo_volume (5, 1280) (inode_at 4 demo_sector demo_volume (5, 1280)).
Proof.
  assert (inode_at 4 demo_sector demo_volume (5, 1280) = pad 128 demo_file) as -> by (vm_compute; reflexivity).
  assert (forall k, (k < 12)%nat -> x_block k (pad 128 demo_file) = 0) as Hz.
  { intros k Hk. do 12 (destruct k as [|k]; [vm_compute; reflexivity|]). lia. }
  split; [vm_compute; reflexivity | | |].
  - intros k Hk Hnz. by rewrite Hz in Hnz.
  - intros k k' Hk _ Hnz. by rewrite Hz in Hnz.
  - assert (block_bitmap (fs_bg (fs demo_volume)) = 3) as E1 by (vm_compute; reflexivity).
    assert (gdt demo_volume = 1) as E2 by (vm_compute; reflexivity).
    assert (blocks_per_group (fs_sb (fs demo_volume)) = 32) as E3 by (vm_compute; reflexivity).
    assert (forallb (fun j => taken 4 demo_sector demo_volume j || (7 <=? j)) (seqZ 0 32) = true) as Hall by (vm_compute; reflexivity).
    rewrite E3. intros j Hj Hc. rewrite forallb_forall in Hall. specialize (Hall j ltac:(apply list_elem_of_In, elem_of_seqZ; lia)).
    rewrite Hc in Hall. cbn [orb] in Hall. apply Z.leb_le in Hall. split; [lia|].
    split; [unfold data_ok, apart_from_super, valid; rewrite E1, E2; cbn [fst]; lia|]. intros (k & Hk & Heq & _). rewrite Hz in Heq by done. lia.
Qed.

Lemma demo_reads : reads_singles (D := ramdisk 512).
Proof. intros d lba. discriminate. Qed.

Lemma demo_writes : writes_singles (D := ramdisk 512).
Proof. by intros d lba bs. Qed.

(** A write past the end of an empty file, over a hole. *)
Lemma ext2_write_then_read_witness :
  exists s1 i1 r s2, ext2_write demo_inode 3000 (str "hello") demo_volume = (s1, i1, r) /\ 0 <= r <= 5 /\
    ext2_read i1 3000 r s1 = (s2, r, take (Z.to_nat r) (str "hello")) /\ x_size (inode_at 4 demo_sector s1 (5, 1280)) = 3000 + r.
Proof.
  destruct (ext2_write_then_read 512 4 demo_sector demo_reads demo_writes ltac:(lia) ltac:(lia) ltac:(lia) ltac:(lia)
    demo_volume demo_inode 3000 (str "hello") (5, 1280) demo_volume_ok demo_bitmap_ok demo_place_ok demo_file_ok)
    as (s1 & i1 & r & Hw & Hr & _ & _ & Hsz & _ & _ & _ & _ & _ & _ & _ & s2 & Hread & _); [vm_compute; reflexivity | lia | vm_compute; discriminate |].
  exists s1, i1, r, s2. split; [exact Hw|]. split; [exact Hr|]. split; [exact Hread|]. rewrite Hsz.
  assert (x_size (inode_at 4 demo_sector demo_volume (5, 1280)) = 0) as -> by (vm_compute; reflexivity). lia.
Defined.
