(* ===== verification/Ext2Dir.v ===== *)
(** * Directories of an ext2 volume

    A directory is the list of the names and inode numbers of its usable entries,
    over its blocks in order: a lookup finds the first entry with the name, an
    unlink removes it and an insertion adds one entry. *)

From S2P Require Import Prelude CString Block BlockIo Path Uaccess Rng Vfs Ext2 Ext2Inv.

(** ** The entries of one block *)

(** Two buffers that differ at most from [lo] to [hi]. *)
Definition agree_outside (lo hi : Z) (l l' : list Z) : Prop :=
  forall j, ~ lo <= Z.of_nat j < hi -> l' !! j = l !! j.

Lemma agree_slice lo hi l l' n off :
  agree_outside lo hi l l' -> (Z.of_nat (off + n) <= lo \/ hi <= Z.of_nat off) -> take n (drop off l') = take n (drop off l).
Proof.
  intros H Ho. apply list_eq. intros j. destruct (decide (j < n)%nat).
  - rewrite !lookup_take_lt, !lookup_drop by done. apply H. lia.
  - by rewrite !lookup_take_ge by lia.
Qed.

Lemma agree_field lo hi l l' off n :
  agree_outside lo hi l l' -> (Z.of_nat (off + n) <= lo \/ hi <= Z.of_nat off) -> field off n l' = field off n l.
Proof. intros H Ho. unfold field. by rewrite (agree_slice lo hi l l'). Qed.

Lemma agree_inserts off (c l : list Z) lo hi :
  lo <= Z.of_nat off -> Z.of_nat (off + length c) <= hi -> agree_outside lo hi l (list_inserts off c l).
Proof.
  intros H1 H2 j Hj. destruct (decide (j < off)%nat); [by apply list_lookup_inserts_lt|]. apply list_lookup_inserts_ge. lia.
Qed.

Lemma agree_trans lo hi l1 l2 l3 : agree_outside lo hi l1 l2 -> agree_outside lo hi l2 l3 -> agree_outside lo hi l1 l3.
Proof. intros H1 H2 j Hj. by rewrite H2, H1. Qed.

Lemma dirent_read_off lo hi l l' bs off :
  agree_outside lo hi l l' -> 0 <= off -> (off + 8 <= lo \/ hi <= off) -> ext2_dirent_read l' bs off = ext2_dirent_read l bs off.
Proof. intros H Ho Hr. unfold ext2_dirent_read. by rewrite !(agree_field lo hi l l') by (done || lia). Qed.

Lemma dirent_read_some l bs off de :
  ext2_dirent_read l bs off = Some de -> 8 <= rec_len de /\ off + rec_len de <= bs.
Proof.
  unfold ext2_dirent_read. destruct (bs <? off + 8); [done|]. set (d := {| de_inode := _ |}).
  destruct (Z.ltb_spec (rec_len d) 8), (Z.ltb_spec bs (off + rec_len d)); cbn [orb]; try done. intros [= <-]. lia.
Qed.

(** The entries follow one another. *)
Lemma dirents_from n l bs off x : 0 <= off -> x ∈ dirents n l bs off -> off <= x.1 /\ 8 <= rec_len x.2 /\ x.1 + rec_len x.2 <= bs.
Proof.
  revert off. induction n as [|n IH]; intros off Ho; cbn [dirents]; [by intros ?%elem_of_nil|].
  destruct (negb _); [by intros ?%elem_of_nil|]. destruct (ext2_dirent_read l bs off) as [de|] eqn:Ed; [|by intros ?%elem_of_nil].
  apply dirent_read_some in Ed as [H1 H2]. intros [->|Hx]%elem_of_cons; [cbn; lia|]. apply IH in Hx; lia.
Qed.

Lemma dirents_ranges n l bs off pre x post :
  0 <= off -> dirents n l bs off = pre ++ x :: post ->
  (forall y, y ∈ pre -> y.1 + rec_len y.2 <= x.1) /\ (forall y, y ∈ post -> x.1 + rec_len x.2 <= y.1).
Proof.
  revert off pre. induction n as [|n IH]; intros off pre Ho; cbn [dirents]; [by destruct pre|].
  destruct (negb _); [by destruct pre|]. destruct (ext2_dirent_read l bs off) as [de|] eqn:Ed; [|by destruct pre].
  pose proof (dirent_read_some _ _ _ _ Ed) as [H1 H2]. destruct pre as [|y pre]; cbn [app]; intros [= E1 E2].
  - subst x post. split; [by intros y ?%elem_of_nil|]. intros y Hy. apply dirents_from in Hy; cbn [fst snd] in *; lia.
  - subst y. destruct (IH (off + rec_len de) pre ltac:(lia) E2) as [G1 G2]. split; [|done].
    intros y [->|Hy]%elem_of_cons; [|by apply G1]. assert (x ∈ dirents n l bs (off + rec_len de)) as Hx.
    { rewrite E2. apply elem_of_app. right. apply elem_of_cons. by left. }
    apply dirents_from in Hx; cbn [fst snd]; lia.
Qed.

Lemma dirents_after n lo hi l l' bs off :
  agree_outside lo hi l l' -> 0 <= off -> hi <= off -> dirents n l' bs off = dirents n l bs off.
Proof.
  intros Hag. revert off. induction n as [|n IH]; intros off Ho Hhi; cbn [dirents]; [done|]. destruct (negb _); [done|].
  rewrite (dirent_read_off lo hi l l') by (done || lia). destruct (ext2_dirent_read l bs off) as [de|] eqn:Ed; [|done].
  apply dirent_read_some in Ed. rewrite IH by lia. done.
Qed.

(** A change inside one record that keeps its length changes that entry only. *)
Lemma dirents_change n l l' bs off0 pre off de post :
  0 <= off0 -> dirents n l bs off0 = pre ++ (off, de) :: post -> agree_outside off (off + rec_len de) l l' ->
  field (Z.to_nat off + 4) 2 l' = rec_len de ->
  exists de', ext2_dirent_read l' bs off = Some de' /\ dirents n l' bs off0 = pre ++ (off, de') :: post.
Proof.
  intros Ho E Hag Hrec. pose proof (dirents_ranges _ _ _ _ _ _ _ Ho E) as [Hpre _]. cbn [fst snd] in Hpre.
  revert off0 pre Ho E Hpre. induction n as [|n IH]; intros off0 pre Ho; cbn [dirents]; [by destruct pre|].
  destruct (Z.leb_spec (off0 + 8) bs) as [Hle|]; cbn [negb]; [|by destruct pre].
  destruct (ext2_dirent_read l bs off0) as [d0|] eqn:Ed; [|by destruct pre].
  pose proof (dirent_read_some _ _ _ _ Ed) as [H1 H2]. destruct pre as [|y pre]; cbn [app].
  - intros [= -> -> E2] Hpre. unfold ext2_dirent_read. destruct (Z.ltb_spec bs (off + 8)); [lia|]. set (de' := {| de_inode := _ |}).
    assert (rec_len de' = rec_len de) as Er by exact Hrec. rewrite Er.
    destruct (Z.ltb_spec (rec_len de) 8), (Z.ltb_spec bs (off + rec_len de)); cbn [orb]; try lia. exists de'. split; [done|].
    rewrite Er. f_equal. rewrite <- E2. apply (dirents_after n off (off + rec_len de)); [done | clear -Ho H1; lia | done].
  - intros [= <- E2] Hpre. pose proof (Hpre _ ltac:(apply elem_of_cons; by left)) as Hy. cbn [fst snd] in Hy.
    rewrite (dirent_read_off off (off + rec_len de) l l' bs off0), Ed by (done || lia).
    destruct (IH (off0 + rec_len d0) pre ltac:(lia) E2) as (de' & Hd & E'); [intros z Hz; apply Hpre, elem_of_cons; by right|].
    exists de'. split; [done|]. by rewrite E'.
Qed.

(** The names and inode numbers of a block. *)
Definition live (bs : Z) (l : list Z) : list (path * Z) :=
  map (fun x => (entry_name l x, de_inode x.2)) (filter usable (dirents (Z.to_nat bs) l bs 0)).

(** Every entry with a name has room for it. *)
Definition names_ok (bs : Z) (l : list Z) : Prop := Forall (fun x => named x -> usable x) (dirents (Z.to_nat bs) l bs 0).

Lemma usable_room x : usable x -> 0 <= name_len x.2 < VFS_NAME_MAX -> 8 + name_len x.2 <= rec_len x.2.
Proof.
  unfold usable. intros Hu Hn. unfold VFS_NAME_MAX in Hn. apply Is_true_true, andb_true_iff in Hu as [_ Hu]. apply Z.leb_le in Hu.
  unfold rec_len_min in Hu. replace (Z.lnot 3) with (Z.lnot (Z.ones 2)) in Hu by done.
  rewrite <- Z.ldiff_land, Z.ldiff_ones_r, Z.shiftr_div_pow2, Z.shiftl_mul_pow2 in Hu by done. change (2 ^ 2) with 4 in Hu.
  pose proof (Z.div_mod (8 + name_len x.2 + 3) 4 ltac:(done)). pose proof (Z.mod_pos_bound (8 + name_len x.2 + 3) 4 ltac:(done)).
  rewrite u16_small in Hu by lia. lia.
Qed.

Definition entries_of (l : list Z) (xs : list (Z * dirent)) : list (path * Z) :=
  map (fun x => (entry_name l x, de_inode x.2)) (filter usable xs).

Lemma live_eq bs l : live bs l = entries_of l (dirents (Z.to_nat bs) l bs 0).
Proof. reflexivity. Qed.

Lemma entries_of_app l xs ys : entries_of l (xs ++ ys) = entries_of l xs ++ entries_of l ys.
Proof. unfold entries_of. by rewrite filter_app, map_app. Qed.

Lemma entries_of_cons l x xs :
  entries_of l (x :: xs) = (if usable x then [(entry_name l x, de_inode x.2)] else []) ++ entries_of l xs.
Proof. unfold entries_of. rewrite filter_cons. destruct (usable x); by repeat case_decide. Qed.

Lemma entries_of_ext l l' xs : (forall x, x ∈ xs -> usable x -> entry_name l' x = entry_name l x) -> entries_of l' xs = entries_of l xs.
Proof.
  intros H. unfold entries_of. apply map_ext_in. intros x Hx. apply list_elem_of_In, list_elem_of_filter in Hx as [Hu Hx].
  by rewrite H.
Qed.

Lemma usable_record x : usable x -> 0 < name_len x.2 < VFS_NAME_MAX /\ 8 + name_len x.2 <= rec_len x.2.
Proof.
  intros Hu. pose proof (usable_room x Hu) as Hr. unfold usable, named in Hu. apply Is_true_true in Hu. rewrite !andb_true_iff, !Z.ltb_lt in Hu.
  destruct Hu as (((_ & H1) & H2) & _). split; [lia|]. apply Hr. lia.
Qed.

Lemma name_off lo hi l l' x :
  agree_outside lo hi l l' -> 0 <= x.1 -> usable x -> (x.1 + rec_len x.2 <= lo \/ hi <= x.1) -> entry_name l' x = entry_name l x.
Proof.
  intros Hag Hx Hu Hr. destruct (usable_record x Hu) as [H1 H2]. unfold entry_name. by rewrite (agree_slice lo hi l l') by (done || lia).
Qed.

(** What a change inside one record does to the names of the block. *)
Lemma entries_change bs l l' off de pre post :
  dirents (Z.to_nat bs) l bs 0 = pre ++ (off, de) :: post -> agree_outside off (off + rec_len de) l l' ->
  field (Z.to_nat off + 4) 2 l' = rec_len de ->
  exists de', ext2_dirent_read l' bs off = Some de' /\
    dirents (Z.to_nat bs) l' bs 0 = pre ++ (off, de') :: post /\
    entries_of l' (pre ++ (off, de') :: post) =
      entries_of l pre ++ (if usable (off, de') then [(entry_name l' (off, de'), de_inode de')] else []) ++ entries_of l post.
Proof.
  intros E Hag Hrec. destruct (dirents_change _ l l' bs 0 pre off de post ltac:(done) E Hag Hrec) as (de' & Hd & E').
  exists de'. split; [done|]. split; [done|]. destruct (dirents_ranges _ _ _ _ _ _ _ ltac:(done) E) as [H1 H2]. cbn [fst snd] in *.
  rewrite entries_of_app, entries_of_cons. f_equal; [|f_equal]; apply entries_of_ext; intros x Hx Hu.
  - assert (x ∈ dirents (Z.to_nat bs) l bs 0) as Hxd by (rewrite E; apply elem_of_app; by left).
    apply dirents_from in Hxd; [|done]. apply (name_off off (off + rec_len de)); [done | lia | done | left; by apply H1].
  - assert (x ∈ dirents (Z.to_nat bs) l bs 0) as Hxd by (rewrite E; apply elem_of_app; right; apply elem_of_cons; by right).
    apply dirents_from in Hxd; [|done]. apply (name_off off (off + rec_len de)); [done | lia | done | right; by apply H2].
Qed.

Lemma dirents_app n (l r : list Z) bs off : 0 <= off -> bs <= Z.of_nat (length l) -> dirents n (l ++ r) bs off = dirents n l bs off.
Proof.
  intros Ho Hb. revert off Ho. induction n as [|n IH]; intros off Ho; cbn [dirents]; [done|]. destruct (Z.leb_spec (off + 8) bs); [|done]. cbn [negb].
  assert (ext2_dirent_read (l ++ r) bs off = ext2_dirent_read l bs off) as -> by (unfold ext2_dirent_read; by rewrite !field_app by lia).
  destruct (ext2_dirent_read l bs off) as [de|] eqn:Ed; [|done]. apply dirent_read_some in Ed. by rewrite IH by lia.
Qed.

Lemma name_app (l r : list Z) bs x :
  bs <= Z.of_nat (length l) -> x ∈ dirents (Z.to_nat bs) l bs 0 -> usable x -> entry_name (l ++ r) x = entry_name l x.
Proof.
  intros Hb Hx Hu. apply dirents_from in Hx; [|done]. destruct (usable_record x Hu) as [H1 H2].
  unfold entry_name. rewrite slice_front; [done | lia].
Qed.

Lemma dirents_read n l bs off0 x : x ∈ dirents n l bs off0 -> ext2_dirent_read l bs x.1 = Some x.2.
Proof.
  revert off0. induction n as [|n IH]; intros off0; cbn [dirents]; [by intros ?%elem_of_nil|].
  destruct (negb _); [by intros ?%elem_of_nil|]. destruct (ext2_dirent_read l bs off0) as [de|] eqn:Ed; [|by intros ?%elem_of_nil].
  intros [->|Hx]%elem_of_cons; [done | by apply IH in Hx].
Qed.

Lemma dirent_read_fields l bs off de :
  ext2_dirent_read l bs off = Some de ->
  de = {| de_inode := field (Z.to_nat off) 4 l; rec_len := field (Z.to_nat off + 4) 2 l; name_len := field (Z.to_nat off + 6) 1 l;
          de_type := field (Z.to_nat off + 7) 1 l |}.
Proof. unfold ext2_dirent_read. destruct (_ <? _); [done|]. destruct (_ || _); [done|]. by intros [= <-]. Qed.

(** An entry of a block is replaced; [l'] is what the block becomes. *)
Lemma replace_entry bs l l' off de pre post :
  dirents (Z.to_nat bs) l bs 0 = pre ++ (off, de) :: post -> agree_outside off (off + rec_len de) l l' ->
  field (Z.to_nat off + 4) 2 l' = rec_len de -> names_ok bs l ->
  let x' := (off, {| de_inode := field (Z.to_nat off) 4 l'; rec_len := rec_len de; name_len := field (Z.to_nat off + 6) 1 l';
                     de_type := field (Z.to_nat off + 7) 1 l' |}) in
  (named x' -> usable x') ->
  live bs l' = entries_of l pre ++ (if usable x' then [(entry_name l' x', de_inode x'.2)] else []) ++ entries_of l post /\
  names_ok bs l'.
Proof.
  intros E Hag Hrec Hn x' Hx'. destruct (entries_change bs l l' off de pre post E Hag Hrec) as (de' & Hd & E' & Een).
  apply dirent_read_fields in Hd. rewrite Hrec in Hd. assert ((off, de') = x') as Ex by (by subst de'). rewrite Ex in E', Een. split.
  - rewrite live_eq, E', Een. by rewrite <- Ex.
  - unfold names_ok in *. rewrite E in Hn. rewrite E'. rewrite Forall_app, Forall_cons in *. destruct Hn as (? & _ & ?). done.
Qed.

Lemma live_split bs l off de pre post :
  dirents (Z.to_nat bs) l bs 0 = pre ++ (off, de) :: post ->
  live bs l = entries_of l pre ++ (if usable (off, de) then [(entry_name l (off, de), de_inode de)] else []) ++ entries_of l post.
Proof. intros E. by rewrite live_eq, E, entries_of_app, entries_of_cons. Qed.

(** An entry whose inode number becomes zero is no longer there. *)
Lemma clear_entry bs l off de pre post :
  dirents (Z.to_nat bs) l bs 0 = pre ++ (off, de) :: post -> names_ok bs l -> bs <= Z.of_nat (length l) ->
  let l' := list_inserts (Z.to_nat off) (le_bytes 4 0) l in
  live bs l' = entries_of l pre ++ entries_of l post /\ names_ok bs l'.
Proof.
  intros E Hn Hlen l'. assert ((off, de) ∈ dirents (Z.to_nat bs) l bs 0) as Hin by (rewrite E; apply elem_of_app; right; apply elem_of_cons; by left).
  pose proof (dirents_from _ _ _ _ _ ltac:(done) Hin) as Hr. cbn [fst snd] in Hr.
  pose proof (dirent_read_fields _ _ _ _ (dirents_read _ _ _ _ _ Hin)) as Hde. cbn [fst snd] in Hde.
  assert (field (Z.to_nat off) 4 l' = 0) as Ez by (apply (field_set (Z.to_nat off) 4 0 l); lia).
  assert (field (Z.to_nat off + 4) 2 l' = rec_len de) as Er by (unfold l'; rewrite field_inserts by (rewrite length_le_bytes; lia); by rewrite Hde).
  destruct (replace_entry bs l l' off de pre post E) as [H1 H2]; try done.
  - apply agree_inserts; rewrite ?length_le_bytes; lia.
  - unfold named. cbn [fst snd de_inode]. by rewrite Ez.
  - split; [|exact H2]. rewrite H1. unfold usable, named. cbn [fst snd de_inode]. by rewrite Ez.
Qed.

(** ** A new entry *)

Lemma inserts_over off (c1 c2 l : list Z) :
  (length c2 <= length c1)%nat -> list_inserts off c2 (list_inserts off c1 l) = list_inserts off (c2 ++ drop (length c2) c1) l.
Proof.
  intros Hc. assert (length (c2 ++ drop (length c2) c1) = length c1) as Hl by (rewrite length_app, length_drop; lia).
  apply list_eq. intros j. destruct (decide (j < length l)%nat) as [Hj|Hj].
  2: { rewrite !lookup_ge_None_2 by (rewrite ?length_inserts; lia). done. }
  destruct (decide (j < off)%nat); [by rewrite !list_lookup_inserts_lt by lia|].
  destruct (decide (off + length c1 <= j)%nat); [by rewrite !list_lookup_inserts_ge by lia|].
  rewrite (list_lookup_inserts l off (c2 ++ drop (length c2) c1)) by lia. destruct (decide (j < off + length c2)%nat).
  - rewrite list_lookup_inserts by (rewrite ?length_inserts; lia). by rewrite lookup_app_l by lia.
  - rewrite list_lookup_inserts_ge by lia. rewrite list_lookup_inserts by lia. rewrite lookup_app_r, lookup_drop by lia. f_equal. lia.
Qed.

Lemma c_string_all nm : Forall (fun c => c <> 0) nm -> c_string nm = nm.
Proof. induction 1 as [|c nm Hc _ IH]; cbn [c_string]; [done|]. apply Z.eqb_neq in Hc. by rewrite Hc, IH. Qed.

(** The name of a directory entry. *)
Definition name_valid (nm : path) : Prop := nm <> [] /\ zlength nm < VFS_NAME_MAX /\ Forall (fun c => c <> 0) nm.

Lemma rec_len_min_bounds n : 0 <= n < VFS_NAME_MAX -> 8 + n <= rec_len_min n <= 8 + n + 3.
Proof.
  intros Hn. unfold VFS_NAME_MAX in Hn. unfold rec_len_min. change (Z.lnot 3) with (Z.lnot (Z.ones 2)).
  rewrite <- Z.ldiff_land, Z.ldiff_ones_r, Z.shiftr_div_pow2, Z.shiftl_mul_pow2 by done. change (2 ^ 2) with 4.
  pose proof (Z.div_mod (8 + n + 3) 4 ltac:(done)). pose proof (Z.mod_pos_bound (8 + n + 3) 4 ltac:(done)). rewrite u16_small by lia. lia.
Qed.

Lemma nm_bounds nm : name_valid nm -> 0 < zlength nm < VFS_NAME_MAX.
Proof. intros (H1 & H2 & _). split; [|done]. unfold zlength. destruct nm; [done|]. cbn. lia. Qed.

Section new_entry.
Context (child slot kind : Z) (nm : path).
Context (Hnm : name_valid nm) (Hchild : 0 < child < 2 ^ 32) (Hslot : rec_len_min (zlength nm) <= slot < 2 ^ 16).

(** The whole record: the entry and zeros. *)
Definition record : list Z := entry_bytes child slot kind nm ++ drop (length (entry_bytes child slot kind nm)) (replicate (Z.to_nat slot) 0).

Lemma length_entry : Z.of_nat (length (entry_bytes child slot kind nm)) = 8 + zlength nm.
Proof. unfold entry_bytes. rewrite !length_app, !length_le_bytes. unfold zlength. cbn [length]. lia. Qed.

Lemma entry_fits : (length (entry_bytes child slot kind nm) <= Z.to_nat slot)%nat.
Proof. pose proof length_entry. pose proof (nm_bounds nm Hnm). pose proof (rec_len_min_bounds (zlength nm)). lia. Qed.

Lemma length_record : length record = Z.to_nat slot.
Proof. unfold record. pose proof entry_fits. rewrite length_app, length_drop, length_replicate. lia. Qed.

(** The record as it is read where it has been put. *)
Lemma record_read (off : Z) (l : list Z) :
  0 <= off -> off + slot <= Z.of_nat (length l) ->
  let l' := list_inserts (Z.to_nat off) record l in
  field (Z.to_nat off) 4 l' = child /\ field (Z.to_nat off + 4) 2 l' = slot /\ field (Z.to_nat off + 6) 1 l' = zlength nm /\
  forall ty, entry_name l' (off, {| de_inode := child; rec_len := slot; name_len := zlength nm; de_type := ty |}) = nm.
Proof.
  intros Ho Hl l'. pose proof length_record as Hrl. pose proof length_entry as Hel. pose proof (nm_bounds nm Hnm) as Hb. pose proof entry_fits as Hef.
  unfold VFS_NAME_MAX in Hb. assert (0 <= slot < 256 ^ Z.of_nat 2) as Hs by (change (256 ^ Z.of_nat 2) with (2 ^ 16); pose proof (rec_len_min_bounds (zlength nm)); unfold VFS_NAME_MAX in *; lia).
  assert (u8 (zlength nm) = zlength nm) as Eu by (apply u8_small; lia).
  assert (forall k n, (k + n <= length record)%nat -> field (Z.to_nat off + k) n l' = field k n record) as Hf.
  { intros k n Hk. unfold field, l'. by rewrite slice_inside by lia. }
  set (z := drop (length (entry_bytes child slot kind nm)) (replicate (Z.to_nat slot) 0)) in *.
  assert (record = le_bytes 4 child ++ le_bytes 2 slot ++ le_bytes 1 (zlength nm) ++ kind :: nm ++ z) as Er.
  { unfold record, entry_bytes. rewrite Eu, <- !app_assoc. cbn [le_bytes app]. by rewrite (Z.mod_small (zlength nm) 256) by lia. }
  split; [|split; [|split]].
  - replace (Z.to_nat off) with (Z.to_nat off + 0)%nat by lia. rewrite Hf by lia. rewrite Er. apply (field_value 4 child []); [done|]. change (256 ^ Z.of_nat 4) with (2 ^ 32). lia.
  - rewrite Hf by lia. rewrite Er. by apply (field_value 2 slot (le_bytes 4 child)).
  - rewrite Hf by lia. rewrite Er, app_assoc. apply (field_value 1); [done|]. change (256 ^ Z.of_nat 1) with 256. lia.
  - intros ty. unfold entry_name. cbn [fst snd name_len]. replace (Z.to_nat (off + 8)) with (Z.to_nat off + 8)%nat by lia.
    unfold l'. rewrite slice_inside by lia. rewrite Er.
    replace (le_bytes 4 child ++ le_bytes 2 slot ++ le_bytes 1 (zlength nm) ++ kind :: nm ++ z)
      with ((le_bytes 4 child ++ le_bytes 2 slot ++ le_bytes 1 (zlength nm) ++ [kind]) ++ nm ++ z) by (by rewrite <- !app_assoc).
    rewrite drop_app_length' by done. rewrite take_app_length' by (unfold zlength; lia). apply c_string_all. by destruct Hnm as (_ & _ & ?).
Qed.

(** An unused record becomes the entry. *)
Lemma fill_entry bs l off de pre post :
  dirents (Z.to_nat bs) l bs 0 = pre ++ (off, de) :: post -> names_ok bs l -> bs <= Z.of_nat (length l) ->
  de_inode de = 0 -> rec_len de = slot ->
  let l' := list_inserts (Z.to_nat off) record l in
  live bs l = entries_of l pre ++ entries_of l post /\ live bs l' = entries_of l pre ++ (nm, child) :: entries_of l post /\ names_ok bs l'.
Proof.
  intros E Hn Hlen Hz Hrec l'. assert ((off, de) ∈ dirents (Z.to_nat bs) l bs 0) as Hin by (rewrite E; apply elem_of_app; right; apply elem_of_cons; by left).
  pose proof (dirents_from _ _ _ _ _ ltac:(done) Hin) as Hr. cbn [fst snd] in Hr.
  destruct (record_read off l ltac:(lia) ltac:(lia)) as (F1 & F2 & F3 & F4). fold l' in F1, F2, F3, F4.
  pose proof (nm_bounds nm Hnm) as Hb. split.
  - rewrite (live_split _ _ _ _ _ _ E). unfold usable, named. cbn [fst snd]. by rewrite Hz.
  - destruct (replace_entry bs l l' off de pre post E) as [H1 H2]; try done.
    + apply agree_inserts; [lia|]. rewrite length_record. pose proof (nm_bounds nm Hnm). pose proof (rec_len_min_bounds (zlength nm)). lia.
    + by rewrite F2.
    + intros _. unfold usable, named. cbn [fst snd de_inode name_len rec_len]. rewrite F1, F3, Hrec. apply Is_true_true.
      rewrite !andb_true_iff, !Z.ltb_lt, Z.leb_le, negb_true_iff, Z.eqb_neq. lia.
    + split; [|exact H2]. rewrite H1. rewrite F1, F3, Hrec. rewrite F4. unfold usable, named. cbn [fst snd de_inode name_len rec_len].
      destruct (Z.eqb_spec child 0); [lia|]. destruct (Z.ltb_spec 0 (zlength nm)); [|lia]. destruct (Z.ltb_spec (zlength nm) VFS_NAME_MAX); [|lia].
      destruct (Z.leb_spec (rec_len_min (zlength nm)) slot); [|lia]. done.
Qed.
End new_entry.

(** ** Association lists *)

Fixpoint assoc (nm : path) (d : list (path * Z)) : option Z :=
  match d with [] => None | (n, i) :: d => if bool_decide (n = nm) then Some i else assoc nm d end.

Fixpoint remove_first (nm : path) (d : list (path * Z)) : list (path * Z) :=
  match d with [] => [] | (n, i) :: d => if bool_decide (n = nm) then d else (n, i) :: remove_first nm d end.

Lemma assoc_app nm d1 d2 : assoc nm (d1 ++ d2) = match assoc nm d1 with Some i => Some i | None => assoc nm d2 end.
Proof. induction d1 as [|[n i] d1 IH]; cbn [app assoc]; [done|]. case_bool_decide; [done | exact IH]. Qed.

Lemma names_missing nm d : assoc nm d = None -> remove_first nm d = d.
Proof. induction d as [|[n i] d IH]; cbn [assoc remove_first]; [done|]. case_bool_decide; [done|]. intros Hd. by rewrite IH. Qed.

Lemma remove_app nm d1 d2 : assoc nm d1 = None -> remove_first nm (d1 ++ d2) = d1 ++ remove_first nm d2.
Proof. induction d1 as [|[n i] d1 IH]; cbn [app assoc remove_first]; [done|]. case_bool_decide; [done|]. intros Hd. by rewrite IH. Qed.

Lemma remove_app_l nm d1 d2 i : assoc nm d1 = Some i -> remove_first nm (d1 ++ d2) = remove_first nm d1 ++ d2.
Proof. induction d1 as [|[n j] d1 IH]; cbn [app assoc remove_first]; [done|]. case_bool_decide; [done|]. intros Hd. by rewrite IH. Qed.

Lemma find_split {A} (p : A -> bool) l x :
  List.find p l = Some x -> exists pre post, l = pre ++ x :: post /\ p x = true /\ forall y, y ∈ pre -> p y = false.
Proof.
  induction l as [|y l IH]; cbn [List.find]; [done|]. destruct (p y) eqn:Ep.
  - intros [= ->]. exists [], l. split; [done|]. split; [done|]. by intros z ?%elem_of_nil.
  - intros (pre & post & -> & Hx & Hpre)%IH. exists (y :: pre), post. split; [done|]. split; [done|].
    intros z [->|Hz]%elem_of_cons; [done | by apply Hpre].
Qed.

Lemma find_missing {A} (p : A -> bool) l : List.find p l = None -> forall y, y ∈ l -> p y = false.
Proof.
  induction l as [|y l IH]; cbn [List.find]; [by intros _ z ?%elem_of_nil|]. destruct (p y) eqn:Ep; [done|].
  intros H z [->|Hz]%elem_of_cons; [done | by apply IH].
Qed.

Lemma find_ext {A} (p q : A -> bool) l : (forall x, x ∈ l -> p x = q x) -> List.find p l = List.find q l.
Proof.
  induction l as [|y l IH]; intros H; cbn [List.find]; [done|]. rewrite (H y) by (apply elem_of_cons; by left). destruct (q y); [done|].
  apply IH. intros x Hx. apply H, elem_of_cons. by right.
Qed.

(** No entry with the name, or the first one. *)
Definition matches (l : list Z) (nm : path) (x : Z * dirent) : bool := usable x && test (entry_name l x = nm).

Lemma assoc_missing l nm xs : (forall x, x ∈ xs -> matches l nm x = false) -> assoc nm (entries_of l xs) = None.
Proof.
  induction xs as [|x xs IH]; intros H; [done|]. rewrite entries_of_cons, assoc_app, IH by (intros y Hy; apply H, elem_of_cons; by right).
  specialize (H x ltac:(apply elem_of_cons; by left)). unfold matches in H. destruct (usable x); [|done]. cbn [andb] in H. cbn [assoc]. by rewrite H.
Qed.

Lemma assoc_found l nm x : matches l nm x = true -> usable x = true /\ assoc nm [(entry_name l x, de_inode x.2)] = Some (de_inode x.2) /\
  remove_first nm [(entry_name l x, de_inode x.2)] = [].
Proof. unfold matches. intros [H1 H2]%andb_true_iff. split; [done|]. cbn [assoc remove_first]. by rewrite H2. Qed.

(** ** Directories *)

Section directory.
Context {D : Type} `{!driver D} (ss cnt : Z) (sector : D -> Z -> list Z) `{!driver_ok D ss sector}.
Context (Hrs : reads_singles (D := D)) (Hws : writes_singles (D := D)).
Context (Hss : 0 < ss) (Hcnt : 0 < cnt) (Hbuf : 2 * ss <= 4096) (Hbs : cnt * ss <= 4096).
Implicit Types (s : e2 D) (i : list Z).

Abbreviation BS := (cnt * ss).
Abbreviation blk := (Ext2Inv.blk cnt sector).
Abbreviation inode_at := (Ext2Inv.inode_at cnt sector).
Abbreviation file_ok := (Ext2Inv.file_ok cnt sector).
Abbreviation same_disk := (Ext2Inv.same_disk sector).
Abbreviation volume_ok := (Ext2Inv.volume_ok ss cnt).
Abbreviation one_block := (Ext2Inv.one_block cnt sector).
Abbreviation entries := (fun l => dirents (Z.to_nat BS) l BS 0).

(** The names of a list of blocks. *)
Definition names_of s (bs : list Z) : list (path * Z) := concat (map (fun b => if b =? 0 then [] else live BS (blk s b)) bs).
Definition dir_list s i : list (path * Z) := names_of s (direct i).

Record dir_ok s ino (pl : Z * Z) i : Prop := {
  d_volume : volume_ok s; d_bitmap : bitmap_ok ss cnt s; d_place : place_ok cnt s ino pl;
  d_inode : inode_at s pl = i; d_file : file_ok s pl i;
  d_names : forall k, (k < 12)%nat -> x_block k i <> 0 -> names_ok BS (blk s (x_block k i))
}.

Lemma names_of_app s l1 l2 : names_of s (l1 ++ l2) = names_of s l1 ++ names_of s l2.
Proof. unfold names_of. by rewrite map_app, concat_app. Qed.

Lemma names_of_cons s b l : names_of s (b :: l) = (if b =? 0 then [] else live BS (blk s b)) ++ names_of s l.
Proof. reflexivity. Qed.

Lemma names_of_ext s s' bs : (forall b, b ∈ bs -> b <> 0 -> blk s' b = blk s b) -> names_of s' bs = names_of s bs.
Proof.
  intros H. unfold names_of. f_equal. apply map_ext_in. intros b Hb%list_elem_of_In. destruct (Z.eqb_spec b 0); [done|]. by rewrite H.
Qed.

Lemma direct_lookup i k : (k < 12)%nat -> direct i !! k = Some (x_block k i).
Proof.
  intros Hk. unfold direct. change (map (fun k => x_block k i)) with (fmap (M := list) (fun k => x_block k i)).
  rewrite list_lookup_fmap, lookup_seq_lt by done. done.
Qed.

Lemma direct_elem i b : b ∈ direct i <-> exists k, (k < 12)%nat /\ x_block k i = b.
Proof.
  split.
  - intros [k Hk]%list_elem_of_lookup. assert (k < 12)%nat as Hlt by exact (lookup_lt_Some _ _ _ Hk).
    exists k. split; [done|]. rewrite direct_lookup in Hk by done. congruence.
  - intros (k & Hk & <-). apply list_elem_of_lookup. exists k. by apply direct_lookup.
Qed.

(** A block that holds data is in one place of the list. *)
Lemma direct_once s pl i pre b post :
  file_ok s pl i -> direct i = pre ++ b :: post -> b <> 0 -> (b ∉ pre) /\ (b ∉ post).
Proof.
  intros Hf E Hb. assert (length (direct i) = 12%nat) as Hl by reflexivity. rewrite E, length_app in Hl. cbn [length] in Hl.
  assert (x_block (length pre) i = b) as Eb.
  { pose proof (direct_lookup i (length pre) ltac:(lia)) as H. rewrite E, list_lookup_middle in H by done. congruence. }
  assert (forall k, (k < 12)%nat -> direct i !! k = Some b -> k = length pre) as Hu.
  { intros k Hk H. rewrite direct_lookup in H by done. apply (f_inj _ _ _ _ _ Hf); [lia | lia | congruence | congruence]. }
  split; intros [k Hk]%list_elem_of_lookup; pose proof (lookup_lt_Some _ _ _ Hk).
  - specialize (Hu k ltac:(lia)). rewrite E, lookup_app_l in Hu by lia. specialize (Hu Hk). lia.
  - specialize (Hu (length pre + S k)%nat ltac:(lia)). rewrite E, lookup_app_r in Hu by lia.
    replace (length pre + S k - length pre)%nat with (S k) in Hu by lia. specialize (Hu Hk). lia.
Qed.

Lemma find_entry_spec (p : list Z -> Z * dirent -> bool) bs s s0 :
  same_disk s s0 -> volume_ok s0 -> (forall b, b ∈ bs -> b <> 0 -> valid cnt b) ->
  (forall b r x, b ∈ bs -> b <> 0 -> x ∈ entries (blk s b) -> p (blk s b ++ r) x = p (blk s b) x) ->
  exists s' o, find_entry p bs s0 = (s', o) /\ same_disk s s' /\ volume_ok s' /\
    match o with
    | None => forall b, b ∈ bs -> b <> 0 -> List.find (p (blk s b)) (entries (blk s b)) = None
    | Some (b, x) => exists pre post r, bs = pre ++ b :: post /\ b <> 0 /\ g_io s' = blk s b ++ r /\
        List.find (p (blk s b)) (entries (blk s b)) = Some x /\
        forall c, c ∈ pre -> c <> 0 -> List.find (p (blk s c)) (entries (blk s c)) = None
    end.
Proof.
  intros Hs Hv0 Hval Hp. revert s0 Hs Hv0. induction bs as [|b bs IH]; intros s0 Hs Hv0; cbn [find_entry].
  { exists s0, None. split; [done|]. split; [done|]. split; [done|]. by intros b ?%elem_of_nil. }
  assert (forall c, c ∈ bs -> c ∈ b :: bs) as Hin by (intros c Hc; apply elem_of_cons; by right).
  assert (b ∈ b :: bs) as Hb by (apply elem_of_cons; by left).
  specialize (IH (fun c Hc => Hval c (Hin c Hc)) (fun c r x Hc => Hp c r x (Hin c Hc))).
  destruct (Z.eqb_spec b 0) as [->|Hnz].
  { destruct (IH s0 Hs Hv0) as (s' & o & E & H1 & H2 & H3). exists s', o. split; [exact E|]. split; [done|]. split; [done|].
    destruct o as [[c x]|].
    - destruct H3 as (pre & post & r & -> & Hc & Hg & Hf & Hpre). exists (0 :: pre), post, r. split; [done|].
      split; [done|]. split; [done|]. split; [done|]. intros d [->|Hd]%elem_of_cons Hd0; [done | by apply Hpre].
    - intros c [->|Hc]%elem_of_cons Hc0; [done | by apply H3]. }
  destruct (read_block_spec ss cnt sector Hrs Hss Hcnt Hbs s0 b Hv0 (Hval b Hb Hnz)) as (s1 & -> & Hs1 & Hv1 & Hio). cbn [negb].
  rewrite (v_bs _ _ _ Hv1), Hio. rewrite (same_blk _ _ _ _ _ Hs).
  assert (same_disk s s1) as Hs' by (by etrans). pose proof (length_blk_nat ss cnt sector Hss Hcnt s b) as Hlen.
  rewrite dirents_app by lia. set (r := drop _ _). rewrite (find_ext (p (blk s b ++ r)) (p (blk s b))) by (intros x Hx; by apply Hp).
  destruct (List.find (p (blk s b)) (entries (blk s b))) as [x|] eqn:Ef.
  - exists s1, (Some (b, x)). split; [done|]. split; [done|]. split; [done|]. exists [], bs, r. split; [done|].
    split; [done|]. split; [by rewrite Hio, (same_blk _ _ _ _ _ Hs)|]. split; [done|]. by intros c ?%elem_of_nil.
  - destruct (IH s1 Hs' Hv1) as (s' & o & E & H1 & H2 & H3). exists s', o. split; [exact E|]. split; [done|]. split; [done|].
    destruct o as [[c x]|].
    + destruct H3 as (pre & post & r' & -> & Hc & Hg & Hf & Hpre). exists (b :: pre), post, r'. split; [done|].
      split; [done|]. split; [done|]. split; [done|]. intros d [->|Hd]%elem_of_cons Hd0; [done | by apply Hpre].
    + intros c [->|Hc]%elem_of_cons Hc0; [done | by apply H3].
Qed.

(** A search by name finds the first entry with it. *)
Lemma find_name (p : list Z -> Z * dirent -> bool) nm bs s s0 :
  same_disk s s0 -> volume_ok s0 -> (forall b, b ∈ bs -> b <> 0 -> valid cnt b) ->
  (forall b r x, b ∈ bs -> b <> 0 -> x ∈ entries (blk s b) -> p (blk s b ++ r) x = matches (blk s b) nm x) ->
  exists s' o, find_entry p bs s0 = (s', o) /\ same_disk s s' /\ volume_ok s' /\
    match o with
    | None => assoc nm (names_of s bs) = None
    | Some (b, (off, de)) => exists pre post bpre bpost r, bs = pre ++ b :: post /\ b <> 0 /\ g_io s' = blk s b ++ r /\
        assoc nm (names_of s pre) = None /\ entries (blk s b) = bpre ++ (off, de) :: bpost /\
        assoc nm (entries_of (blk s b) bpre) = None /\ matches (blk s b) nm (off, de) = true
    end.
Proof.
  intros Hs Hv Hval Hp.
  assert (forall b x, b ∈ bs -> b <> 0 -> x ∈ entries (blk s b) -> p (blk s b) x = matches (blk s b) nm x) as Hp0.
  { intros b x Hb Hnz Hx. rewrite <- (Hp b [] x Hb Hnz Hx). by rewrite app_nil_r. }
  assert (forall b, b ∈ bs -> b <> 0 -> List.find (p (blk s b)) (entries (blk s b)) = List.find (matches (blk s b) nm) (entries (blk s b))) as Hfind.
  { intros b Hb Hnz. apply find_ext. intros x Hx. by apply Hp0. }
  assert (forall l, (forall b, b ∈ l -> b ∈ bs) -> (forall b, b ∈ l -> b <> 0 -> List.find (p (blk s b)) (entries (blk s b)) = None) ->
    assoc nm (names_of s l) = None) as Hmiss.
  { induction l as [|b l IH]; intros Hl Hf; [done|]. assert (b ∈ b :: l) as Hb by (apply elem_of_cons; by left).
    rewrite names_of_cons, assoc_app, IH by (intros c Hc; (apply Hl || apply Hf); apply elem_of_cons; by right).
    destruct (Z.eqb_spec b 0) as [|Hnz]; [done|]. rewrite live_eq, assoc_missing; [done|]. apply find_missing.
    rewrite <- Hfind; [by apply Hf | by apply Hl | done]. }
  destruct (find_entry_spec p bs s s0 Hs Hv Hval) as (s' & o & E & Hs' & Hv' & Ho).
  { intros b r x Hb Hnz Hx. rewrite Hp, Hp0 by done. done. }
  exists s', o. split; [exact E|]. split; [done|]. split; [done|]. destruct o as [[b [off de]]|]; [|by apply Hmiss].
  destruct Ho as (pre & post & r & -> & Hnz & Hio & Hf & Hpre). assert (b ∈ pre ++ b :: post) as Hb by (apply elem_of_app; right; apply elem_of_cons; by left).
  rewrite Hfind in Hf by done. destruct (find_split _ _ _ Hf) as (bpre & bpost & Eb & Hm & Hbp).
  exists pre, post, bpre, bpost, r. split; [done|]. split; [done|]. split; [done|]. split; [|split; [done|split; [by apply assoc_missing|done]]].
  apply Hmiss; [|done]. intros c Hc. apply elem_of_app. by left.
Qed.

Lemma dir_valid s pl i b : file_ok s pl i -> b ∈ direct i -> b <> 0 -> valid cnt b.
Proof. intros Hf (k & Hk & <-)%direct_elem Hnz. by destruct (f_blocks _ _ _ _ _ Hf k Hk Hnz). Qed.

Lemma dir_names_ok s ino pl i b : dir_ok s ino pl i -> b ∈ direct i -> b <> 0 -> names_ok BS (blk s b).
Proof. intros Hd (k & Hk & <-)%direct_elem Hnz. by apply (d_names _ _ _ _ Hd). Qed.

(** What the searches by name compare. *)
Lemma lookup_test s b r nm x :
  x ∈ entries (blk s b) -> usable x && test (entry_name (blk s b ++ r) x = nm) = matches (blk s b) nm x.
Proof.
  intros Hx. unfold matches. destruct (usable x) eqn:Hu; [|done]. cbn [andb].
  rewrite (name_app (blk s b) r BS x); [done | | done | by apply Is_true_true]. rewrite (length_blk ss cnt sector Hss Hcnt). lia.
Qed.

Lemma unlink_test s b r nm x :
  names_ok BS (blk s b) -> x ∈ entries (blk s b) -> named x && test (entry_name (blk s b ++ r) x = nm) = matches (blk s b) nm x.
Proof.
  intros Hn Hx. rewrite <- (lookup_test s b r nm x Hx). f_equal. unfold names_ok in Hn. rewrite Forall_forall in Hn. specialize (Hn x Hx).
  unfold usable in *. destruct (named x); [|done]. cbn [andb] in *. specialize (Hn I). by apply Is_true_true in Hn.
Qed.

(** One data block of a directory is written. *)
Lemma dir_write s s' ino pl i pre b post l' :
  dir_ok s ino pl i -> direct i = pre ++ b :: post -> b <> 0 -> volume_ok s' -> one_block b l' s s' -> names_ok BS l' ->
  dir_ok s' ino pl i /\ names_of s' pre = names_of s pre /\ names_of s' post = names_of s post.
Proof.
  intros [Hv Hb Hp Hi Hf Hn] E Hnz Hv' Hw Hnl. destruct (direct_once s pl i pre b post Hf E Hnz) as [Hpre Hpost].
  assert (b ∈ direct i) as Hbd by (rewrite E; apply elem_of_app; right; apply elem_of_cons; by left).
  assert (forall m, m <> b -> blk s' m = blk s m) as Hm by (intros m Hne; by apply (one_block_other ss cnt sector Hss Hcnt Hbuf Hbs _ _ _ _ _ Hw)).
  pose proof Hw as (Hfs & Hbl & _). pose proof Hbd as (k & Hk & Ek)%direct_elem.
  destruct (f_blocks _ _ _ _ _ Hf k Hk ltac:(by rewrite Ek)) as (_ & Hbb & _ & Hbt). rewrite Ek in Hbb, Hbt.
  split; [|split; apply names_of_ext; intros c Hc _; apply Hm; intros ->; done].
  assert (layout (fs s') = layout (fs s)) as Hl by (by rewrite Hfs). split.
  - done.
  - by apply (bitmap_ok_layout ss cnt s s').
  - destruct Hp as (H1 & H2 & H3 & H4). unfold place_ok, apart_from_super, gdt. rewrite Hfs. split; [|done].
    by rewrite (place_layout _ s s').
  - rewrite <- Hi. unfold Ext2Inv.inode_at. by rewrite Hm.
  - destruct Hf as [F1 F2 F3 F4]. split; [done | | done |].
    + intros k' Hk' Hnz'. apply (data_ok_layout cnt s s'); [done | by apply F2].
    + unfold taken. rewrite Hfs, Hm by done. intros j Hj Hc. destruct (F4 j Hj Hc) as (? & ? & ?). split; [done|]. split; [|done].
      by apply (data_ok_layout cnt s s').
  - intros k' Hk' Hnz'. destruct (decide (x_block k' i = b)) as [->|Hne]; [by rewrite Hbl|]. rewrite Hm by done. by apply Hn.
Qed.

(** Bytes of the block in the buffer are changed and the block is written. *)
Lemma put_write s s1 b off r c :
  same_disk s s1 -> volume_ok s1 -> valid cnt b -> g_io s1 = blk s b ++ r -> 0 <= off -> off + Z.of_nat (length c) <= BS ->
  exists s2, write_block b (io_put off c s1) = (s2, true) /\ volume_ok s2 /\
    one_block b (list_inserts (Z.to_nat off) c (blk s b)) s s2.
Proof.
  intros [Hf Hs] Hv Hb Hio Ho Hlen.
  destruct (write_block_spec ss cnt sector Hws Hss Hcnt Hbs (io_put off c s1) b) as (s2 & -> & Hv2 & _ & W1 & W2 & W3); [by apply volume_ok_put | done |].
  exists s2. split; [done|]. split; [done|]. split; [by rewrite W1|]. split.
  - rewrite W2. unfold io_put. cbn [set_io g_io]. rewrite Hio, take_inserts by lia. f_equal. apply (io_front ss cnt sector Hss Hcnt).
  - intros k Hk. rewrite W3 by done. apply Hs.
Qed.

Lemma dir_same s s' ino pl i : dir_ok s ino pl i -> same_disk s s' -> volume_ok s' -> dir_ok s' ino pl i.
Proof.
  intros [Hv Hb Hp Hi Hf Hn] Hs Hv'. assert (layout (fs s') = layout (fs s)) as Hl by (by destruct Hs as [-> _]).
  assert (forall m, blk s' m = blk s m) as Hm by (intros m; by apply same_blk). pose proof Hs as [Hfs _]. split.
  - done.
  - by apply (bitmap_ok_layout ss cnt s s').
  - destruct Hp as (H1 & H2 & H3 & H4). unfold place_ok, apart_from_super, gdt. rewrite Hfs. split; [|done]. by rewrite (place_layout _ s s').
  - rewrite <- Hi. unfold Ext2Inv.inode_at. by rewrite Hm.
  - destruct Hf as [F1 F2 F3 F4]. split; [done | | done |].
    + intros k Hk Hnz. apply (data_ok_layout cnt s s'); [done | by apply F2].
    + unfold taken. rewrite Hfs, Hm. intros j Hj Hc. destruct (F4 j Hj Hc) as (? & ? & ?). split; [done|]. split; [|done].
      by apply (data_ok_layout cnt s s').
  - intros k Hk Hnz. rewrite Hm. by apply Hn.
Qed.

(** C22: a directory is the list of its names: [ext2_lookup] finds the first entry
    with the name and fails when there is none, and [ext2_unlink] removes exactly
    that entry and leaves the list as it is when there is none. *)
Theorem ext2_lookup_unlink s dir pl i nm out (Hd : dir_ok s (i_ino dir) pl i) :
  (exists s1, same_disk s s1 /\
    ext2_lookup dir nm out s =
      match assoc nm (dir_list s i) with Some ino => fill_found ino out s1 | None => (s1, None) end) /\
  (exists s2, ext2_unlink dir nm s = (s2, if assoc nm (dir_list s i) is Some _ then 0 else -1) /\
    dir_ok s2 (i_ino dir) pl i /\ dir_list s2 i = remove_first nm (dir_list s i)).
Proof.
  pose proof Hd as [Hv Hb Hp Hi Hf Hn]. destruct Hp as (Hp & Hpv & _).
  destruct (read_inode_spec ss cnt sector Hrs Hss Hcnt Hbs (i_ino dir) s pl Hv Hp Hpv) as (s0 & Er & Hs0 & Hv0).
  unfold ext2_lookup, ext2_unlink. rewrite Er, Hi. split.
  - destruct (find_name (fun io x => usable x && test (entry_name io x = nm)) nm (direct i) s s0 Hs0 Hv0) as (s1 & o & -> & Hs1 & Hv1 & Ho).
    + intros b. by apply dir_valid with s pl.
    + intros b r x _ _. by apply lookup_test.
    + unfold dir_list. exists s1. split; [done|]. destruct o as [[b [off de]]|]; [|by rewrite Ho].
      destruct Ho as (pre & post & bpre & bpost & r & -> & Hnz & _ & H1 & Eb & H2 & H3).
      rewrite names_of_app, assoc_app, H1, names_of_cons, assoc_app. apply Z.eqb_neq in Hnz. rewrite Hnz, live_eq, Eb, entries_of_app, assoc_app, H2.
      rewrite entries_of_cons. destruct (assoc_found _ _ _ H3) as (-> & H4 & _). by rewrite assoc_app, H4.
  - destruct (find_name (fun io x => named x && test (entry_name io x = nm)) nm (direct i) s s0 Hs0 Hv0) as (s1 & o & -> & Hs1 & Hv1 & Ho).
    + intros b. by apply dir_valid with s pl.
    + intros b r x Hbd Hnz. apply unlink_test. by apply dir_names_ok with (i_ino dir) pl i.
    + unfold dir_list. destruct o as [[b [off de]]|].
      * destruct Ho as (pre & post & bpre & bpost & r & E & Hnz & Hio & H1 & Eb & H2 & H3).
        assert (b ∈ direct i) as Hbd by (rewrite E; apply elem_of_app; right; apply elem_of_cons; by left).
        pose proof (dirents_from (Z.to_nat BS) (blk s b) BS 0 (off, de) ltac:(done) ltac:(rewrite Eb; apply elem_of_app; right; apply elem_of_cons; by left)) as Hr.
        cbn [fst snd] in Hr. 
        destruct (put_write s s1 b off r (le_bytes 4 0) Hs1 Hv1 ltac:(by apply (dir_valid s pl i)) Hio ltac:(lia) ltac:(rewrite length_le_bytes; lia))
          as (s2 & -> & Hv2 & Hw).
        destruct (clear_entry BS (blk s b) off de bpre bpost Eb) as [Hl Hnl];
          [by apply (dir_names_ok s (i_ino dir) pl i) | rewrite (length_blk ss cnt sector Hss Hcnt); lia |].
        destruct (dir_write s s2 (i_ino dir) pl i pre b post _ Hd E Hnz Hv2 Hw Hnl) as (Hd2 & Hpre & Hpost).
        exists s2. rewrite E, !names_of_app, !names_of_cons, assoc_app, H1, Hpre, Hpost. destruct Hw as (_ & -> & _).
        apply Z.eqb_neq in Hnz. rewrite Hnz, (live_split _ _ _ _ _ _ Eb), Hl. destruct (assoc_found _ _ _ H3) as (-> & H4 & H5). cbn [fst snd] in H4, H5.
        rewrite !assoc_app, H2, H4. split; [done|]. split; [done|]. rewrite remove_app by done. f_equal.
        rewrite <- !app_assoc, remove_app by done. f_equal. by erewrite remove_app_l, H5 by exact H4.
      * exists s1. rewrite Ho. split; [done|]. split; [by apply (dir_same s)|]. unfold names_of.
        rewrite (names_missing nm) by done. apply names_of_ext. intros b _ _. by apply same_blk.
Qed.

(** The directory is stored in its inode with the same blocks. *)
Lemma dir_store s s' ino pl i i' n :
  volume_ok s -> bitmap_ok ss cnt s -> place_ok cnt s ino pl -> file_ok s pl i ->
  (forall k, (k < 12)%nat -> x_block k i <> 0 -> names_ok BS (blk s (x_block k i))) ->
  length i' = EXT2_INODE_SIZE -> (forall k, x_block k i' = x_block k i) -> write_inode ino i' s = (s', n) ->
  n = true /\ dir_ok s' ino pl i' /\ forall bs, (forall b, b ∈ bs -> b ∈ direct i) -> names_of s' bs = names_of s bs.
Proof.
  intros Hv Hb Hp Hf Hn Hlen Hx E. pose proof Hp as (Hp1 & Hp2 & Hp3 & Hp4).
  destruct (write_inode_spec ss cnt sector Hrs Hws Hss Hcnt Hbs ino i' s pl Hv Hp1 Hp2 Hlen) as (s1 & E1 & Hv1 & Hw).
  rewrite E1 in E. injection E as <- <-. split; [done|]. pose proof Hw as (Hfs & _ & _).
  assert (layout (fs s1) = layout (fs s)) as Hl by (by rewrite Hfs).
  assert (forall m, m <> pl.1 -> blk s1 m = blk s m) as Hm by (intros m Hne; by apply (one_block_other ss cnt sector Hss Hcnt Hbuf Hbs _ _ _ _ _ Hw)).
  assert (forall k, (k < 12)%nat -> x_block k i <> 0 -> x_block k i <> pl.1) as Hne.
  { intros k Hk Hnz. by destruct (f_blocks _ _ _ _ _ Hf k Hk Hnz) as (_ & _ & _ & ?). }
  assert (0 <= pl.2 /\ pl.2 + 128 <= BS) as [Hbo1 Hbo2] by (destruct pl as [tb bo]; by apply (place_bound ss cnt Hss Hcnt Hbs ino s tb bo)).
  split.
  - split.
    + done.
    + by apply (bitmap_ok_layout ss cnt s s1).
    + unfold place_ok, apart_from_super, gdt. rewrite Hfs. split; [|done]. by rewrite (place_layout _ s s1).
    + by apply (inode_written ss cnt sector Hss Hcnt i' s s1 pl).
    + by apply (file_stored ss cnt sector Hss Hcnt Hbuf Hbs s pl i i' s1 _ Hf Hp3 Hw).
    + intros k Hk. rewrite Hx. intros Hnz. rewrite Hm by (by apply Hne). by apply Hn.
  - intros bs Hbs'. apply names_of_ext. intros b Hbb Hnz. apply Hm. apply Hbs', direct_elem in Hbb as (k & Hk & <-). by apply Hne.
Qed.

(** The block of a new directory entry when no record is free. *)
Lemma new_block s s' child kind nm r n :
  volume_ok s -> name_valid nm -> 0 < child < 2 ^ 32 -> 1024 <= BS -> valid cnt r ->
  write_block r (io_put 0 (entry_bytes child (u16 BS) kind nm) (io_put 0 (replicate (Z.to_nat BS) 0) s)) = (s', n) ->
  n = true /\ volume_ok s' /\ live BS (blk s' r) = [(nm, child)] /\ names_ok BS (blk s' r) /\ fs s' = fs s /\
  forall m, m <> r -> blk s' m = blk s m.
Proof.
  intros Hv Hnm Hch Hsz Hr E. pose proof (nm_bounds nm Hnm) as Hnb. pose proof (rec_len_min_bounds (zlength nm) ltac:(lia)) as Hrl. unfold VFS_NAME_MAX in *.
  rewrite (u16_small BS) in E by lia. set (c := record child BS kind nm).
  assert (length c = Z.to_nat BS) as Hlc by (apply length_record; [done | lia]).
  assert (io_put 0 (entry_bytes child BS kind nm) (io_put 0 (replicate (Z.to_nat BS) 0) s) = io_put 0 c s) as Ep.
  { unfold io_put. cbn [set_io g_io]. rewrite inserts_over; [done|]. rewrite length_replicate. apply entry_fits; [done | lia]. }
  rewrite Ep in E. destruct (write_block_spec ss cnt sector Hws Hss Hcnt Hbs (io_put 0 c s) r) as (s1 & E1 & Hv1 & _ & Hw); [by apply volume_ok_put | done |].
  rewrite E1 in E. injection E as <- <-. split; [done|]. split; [done|]. pose proof Hw as (Hfs & Hbl & _).
  assert (blk s1 r = c) as Ec.
  { rewrite Hbl. unfold io_put. cbn [set_io g_io]. change (Z.to_nat 0) with 0%nat. rewrite <- Hlc. apply (take_drop_inserts_same 0). rewrite Hlc, (v_io _ _ _ Hv). lia. }
  rewrite Ec. assert (list_inserts (Z.to_nat 0) c c = c) as Ecc.
  { pose proof (take_drop_inserts_same 0 c c (le_n _)) as H. rewrite drop_0, take_ge in H; [exact H | by rewrite length_inserts]. }
  destruct (record_read child BS kind nm Hnm Hch ltac:(lia) 0 c ltac:(done) ltac:(lia)) as (F1 & F2 & F3 & F4). fold c in F1, F2, F3, F4. rewrite Ecc in *.
  set (x := (0, {| de_inode := child; rec_len := BS; name_len := zlength nm; de_type := field 7 1 c |})).
  assert (dirents (Z.to_nat BS) c BS 0 = [x]) as Ed.
  { destruct (Z.to_nat BS) as [|k] eqn:Ek; [lia|]. cbn [dirents]. destruct (Z.leb_spec (0 + 8) BS); [|lia]. cbn [negb]. unfold ext2_dirent_read.
    change (Z.to_nat 0) with 0%nat in *. destruct (Z.ltb_spec BS (0 + 8)); [lia|]. rewrite F1, F2, F3. cbn [rec_len].
    destruct (Z.ltb_spec BS 8); [lia|]. destruct (Z.ltb_spec BS (0 + BS)); [lia|]. cbn [orb]. f_equal.
    destruct k; cbn [dirents rec_len]; [done|]. destruct (Z.leb_spec (0 + BS + 8) BS); [lia|]. cbn [negb]. done. }
  assert (usable x = true) as Hu.
  { unfold usable, named, x. cbn [fst snd de_inode name_len rec_len]. rewrite !andb_true_iff, !Z.ltb_lt, Z.leb_le, negb_true_iff, Z.eqb_neq. unfold VFS_NAME_MAX. lia. }
  split; [|split; [|split; [exact Hfs|]]].
  - rewrite live_eq, Ed, entries_of_cons, Hu. unfold x. by rewrite F4.
  - unfold names_ok. rewrite Ed. constructor; [|done]. intros _. by rewrite Hu.
  - intros m Hne. rewrite (one_block_other ss cnt sector Hss Hcnt Hbuf Hbs _ _ _ _ _ Hw Hne). done.
Qed.

Lemma direct_set i k v : (k < 12)%nat -> x_block k (set_x_block k v i) = v ->
  direct i = take k (direct i) ++ x_block k i :: drop (S k) (direct i) /\
  direct (set_x_block k v i) = take k (direct i) ++ v :: drop (S k) (direct i).
Proof.
  intros Hk Ev. assert (length (direct i) = 12%nat) as Hl by reflexivity. split.
  - symmetry. apply take_drop_middle. by apply direct_lookup.
  - apply list_eq. intros j. destruct (decide (j < 12)%nat) as [Hj|Hj].
    2: { rewrite !lookup_ge_None_2; [done | rewrite length_app, length_take, length_cons, length_drop, Hl; lia |].
         change (length (direct (set_x_block k v i))) with 12%nat. lia. }
    rewrite direct_lookup by done. destruct (decide (j = k)) as [->|Hne].
    + rewrite list_lookup_middle by (rewrite length_take; lia). by rewrite Ev.
    + rewrite x_block_set_ne by done. rewrite <- (direct_lookup i j Hj). destruct (decide (j < k)%nat).
      * by rewrite lookup_app_l, lookup_take_lt by (rewrite ?length_take; lia).
      * rewrite lookup_app_r by (rewrite length_take; lia). rewrite length_take. replace (j - k `min` length (direct i))%nat with (S (j - S k)) by lia.
        rewrite lookup_cons, lookup_drop. f_equal. lia.
Qed.

(** A state with the same bitmap and the same layout. *)
Lemma file_moved s s' pl i :
  layout (fs s') = layout (fs s) -> blk s' (block_bitmap (fs_bg (fs s))) = blk s (block_bitmap (fs_bg (fs s))) ->
  file_ok s pl i -> file_ok s' pl i.
Proof.
  intros Hl Hb [F1 F2 F3 F4]. destruct (layout_eqs s s' Hl) as (E1 & E2 & _). split; [done | | done |].
  - intros k Hk Hnz. apply (data_ok_layout cnt s s'); [done | by apply F2].
  - unfold taken. rewrite E1, E2, Hb. intros j Hj Hc. destruct (F4 j Hj Hc) as (? & ? & ?). split; [done|]. split; [|done].
    by apply (data_ok_layout cnt s s').
Qed.

Lemma place_moved s s' ino pl : layout (fs s') = layout (fs s) -> place_ok cnt s ino pl -> place_ok cnt s' ino pl.
Proof.
  intros Hl (H1 & H2 & H3 & H4). destruct (layout_eqs s s' Hl) as (E1 & _ & E3). unfold place_ok, apart_from_super.
  rewrite E1, E3, (place_layout _ s s') by done. done.
Qed.

(** The directory after a free block has become its block [k] with one entry. *)
Lemma dir_grow s s1 s2 ino pl i k r nm child :
  dir_ok s ino pl i -> (k < 12)%nat -> x_block k i = 0 -> 0 <= r < blocks_per_group (fs_sb (fs s)) -> taken cnt sector s r = false ->
  outside cnt sector (bookkeeping cnt s (block_bitmap (fs_bg (fs s)))) s s1 ->
  (forall j, 0 <= j -> taken cnt sector s1 j = (j =? r) || taken cnt sector s j) ->
  live BS (blk s2 r) = [(nm, child)] -> names_ok BS (blk s2 r) -> fs s2 = fs s1 -> (forall m, m <> r -> blk s2 m = blk s1 m) ->
  let i1 := set_x_block k r i in
  place_ok cnt s2 ino pl /\ file_ok s2 pl i1 /\ (forall j, (j < 12)%nat -> x_block j i1 <> 0 -> names_ok BS (blk s2 (x_block j i1))) /\
  exists l1 l2, dir_list s i = l1 ++ l2 /\ names_of s2 (direct i1) = l1 ++ (nm, child) :: l2.
Proof.
  intros [Hv Hb Hp Hi Hf Hn] Hk Hz Hr Hclear [Hl1 Ho1] Hset Hlive Hnm Hf2 Hm2 i1.
  destruct (f_free _ _ _ _ _ Hf r Hr Hclear) as (Hr0 & (Hrv & Hrb & Hra & _) & Hown). destruct (layout_eqs s s1 Hl1) as (E1 & E2 & E3).
  destruct (file_grow cnt sector Hcnt s s1 pl i r k Hf Hl1 Hk Hz Hr Hclear Hset) as (Hf1 & Ek & Ej). fold i1 in Hf1, Ek, Ej.
  assert (layout (fs s2) = layout (fs s)) as Hl2 by (by rewrite Hf2).
  assert (forall m, m <> r -> m <> block_bitmap (fs_bg (fs s)) -> apart_from_super cnt s m -> blk s2 m = blk s m) as Hm.
  { intros m H1 H2 H3. rewrite Hm2 by done. apply Ho1. by intros [?|?]. }
  assert (forall j, (j < 12)%nat -> x_block j i <> 0 -> blk s2 (x_block j i) = blk s (x_block j i)) as Hd.
  { intros j Hj Hnz. destruct (f_blocks _ _ _ _ _ Hf j Hj Hnz) as (_ & H2 & H3 & _). apply Hm; [|done..]. intros Heq. apply Hown. by exists j. }
  split; [by apply (place_moved s)|]. split; [|split].
  - apply (file_moved s1); [by rewrite Hf2 | | done]. apply Hm2. by rewrite E1.
  - intros j Hj. destruct (decide (j = k)) as [->|Hne]; [by rewrite Ek|]. rewrite Ej by done. intros Hnz. rewrite Hd by done. by apply Hn.
  - destruct (direct_set i k r Hk Ek) as [D1 D2]. fold i1 in D2. rewrite Hz in D1. exists (names_of s (take k (direct i))), (names_of s (drop (S k) (direct i))).
    assert (forall l, (forall b, b ∈ l -> b ∈ direct i) -> names_of s2 l = names_of s l) as Hsame.
    { intros l Hin. apply names_of_ext. intros b Hbl Hnz. apply Hin, direct_elem in Hbl as (j & Hj & <-). by apply Hd. }
    split; [unfold dir_list; by rewrite D1 at 1; rewrite names_of_app, names_of_cons|].
    rewrite D2, names_of_app, names_of_cons, Hlive. apply Z.eqb_neq in Hr0. rewrite Hr0, !Hsame; [done | |].
    + intros b. apply subseteq_drop.
    + intros b. apply subseteq_take.
Qed.

Lemma insert_block_spec s ino pl i child nm kind :
  dir_ok s ino pl i -> name_valid nm -> 0 < child < 2 ^ 32 -> 1024 <= BS ->
  exists s' o, insert_in_new_block i ino child nm kind s = (s', o) /\
    match o with
    | Some i' => dir_ok s' ino pl i' /\ exists l1 l2, dir_list s i = l1 ++ l2 /\ dir_list s' i' = l1 ++ (nm, child) :: l2
    | None => (forall k, (k < 12)%nat -> x_block k i <> 0) \/ forall j, 0 <= j < blocks_per_group (fs_sb (fs s)) -> taken cnt sector s j = true
    end.
Proof.
  intros Hd Hnm Hch Hsize. pose proof Hd as [Hv Hb Hp Hi Hf Hn]. unfold insert_in_new_block.
  set (bi := scan _ 0 12). destruct (Z.ltb_spec bi 0) as [Hbi|Hbi].
  { exists s, None. split; [done|]. left. intros k Hk Hz. assert (bi = -1) as Em.
    { unfold bi in *. pose proof (scan_range (fun k => x_block (Z.to_nat k) i =? 0) 0 12 ltac:(done)). lia. }
    pose proof (scan_miss _ 0 12 (Z.of_nat k) ltac:(done) Em ltac:(lia)) as Hm. cbv beta in Hm. rewrite Nat2Z.id, Hz in Hm. done. }
  destruct (scan_hit _ 0 12 bi ltac:(done) eq_refl ltac:(lia)) as (Hb12 & Hbz & _). cbv beta in Hbz. apply Z.eqb_eq in Hbz. clearbody bi.
  set (k := Z.to_nat bi) in *. assert (k < 12)%nat as Hk by lia. pose proof Hb as [Hb1 Hb2 Hb3 Hb4].
  assert (0 <= blocks_per_group (fs_sb (fs s))) as Hp0 by apply (field_range 32 4).
  destruct (alloc_spec ss cnt sector Hrs Hws Hss Hcnt Hbuf Hbs (block_bitmap (fs_bg (fs s))) (blocks_per_group (fs_sb (fs s))) false s Hv Hb1 Hb2 ltac:(lia) Hb3)
    as (s1 & r & E & Hv1 & Ho & Hcase).
  unfold alloc_block. rewrite E. destruct (layout_eqs s s1) as (E1 & E2 & E3); [by destruct Ho|].
  destruct Hcase as [(-> & Eb & Hfull) | (r' & Hr & -> & Hclear & _ & Hset)].
  { exists s1, None. split; [done|]. right. intros j Hj. by apply Hfull. }
  rewrite Z.add_0_r. destruct (Z.ltb_spec r' 0); [lia|]. rewrite (v_bs _ _ _ Hv1), x_block_sized.
  destruct (f_free _ _ _ _ _ Hf r' Hr Hclear) as (_ & (Hrv & _) & _).
  pose proof (f_len _ _ _ _ _ Hf) as Hilen.
  rewrite x_block_set by (done || by apply (valid_bound cnt)).
  change (block_size (fs (io_put 0 _ s1))) with (block_size (fs s1)). rewrite (v_bs _ _ _ Hv1).
  destruct (write_block r' _) as [s2 n] eqn:E2w.
  destruct (new_block s1 s2 child kind nm r' n Hv1 Hnm Hch Hsize Hrv E2w) as (-> & Hv2 & Hlive & Hnok & Hf2 & Hm2). cbn [negb].
  destruct (dir_grow s s1 s2 ino pl i k r' nm child Hd Hk Hbz Hr Hclear Ho) as (Hp2 & Hfl2 & Hn2 & l1 & l2 & D1 & D2); [|done..|].
  { intros j Hj. unfold taken. rewrite E1. by apply Hset. }
  set (i' := sized _ _). destruct (write_inode ino i' s2) as [s3 n] eqn:E3w.
  assert (forall j, x_block j i' = x_block j (set_x_block k r' i)) as Hx by (intros; apply x_block_sized).
  destruct (dir_store s2 s3 ino pl _ i' n Hv2 ltac:(apply (bitmap_ok_layout ss cnt s s2); [by rewrite Hf2; destruct Ho | done]) Hp2 Hfl2 Hn2) as (-> & Hd3 & Hkeep);
    [unfold i'; rewrite length_sized; by destruct Hfl2 | done | done |].
  exists s3, (Some i'). split; [done|]. split; [done|]. exists l1, l2. split; [done|]. rewrite <- D2, <- Hkeep by done. unfold dir_list, direct.
  f_equal. apply map_ext. done.
Qed.

(** C23: adding an entry to a directory adds its name and inode number at one place
    of the list and keeps all the others in their order; it fails only when no
    record is free and large enough and there is no direct block left or the
    bitmap is full. *)
Theorem ext2_insert_adds s ino pl i child nm is_dir
    (Hd : dir_ok s ino pl i) (Hnm : name_valid nm) (Hchild : 0 < child < 2 ^ 32) (Hsize : 1024 <= BS) :
  exists s' o, ext2_insert_dirent i ino child nm is_dir s = (s', o) /\
    match o with
    | Some i' => dir_ok s' ino pl i' /\
        exists l1 l2, dir_list s i = l1 ++ l2 /\ dir_list s' i' = l1 ++ (nm, child) :: l2
    | None => (forall b x, b ∈ direct i -> b <> 0 -> x ∈ entries (blk s b) -> ~ (de_inode x.2 = 0 /\ rec_len_min (zlength nm) <= rec_len x.2)) /\
        ((forall k, (k < 12)%nat -> x_block k i <> 0) \/ forall j, 0 <= j < blocks_per_group (fs_sb (fs s)) -> taken cnt sector s j = true)
    end.
Proof.
  pose proof Hnm as (Hne & Hlt & _). pose proof (nm_bounds nm Hnm) as Hnb. pose proof (rec_len_min_bounds (zlength nm) ltac:(lia)) as Hneed.
  unfold VFS_NAME_MAX in Hnb, Hneed. pose proof Hd as [Hv Hb Hp Hi Hf Hn]. unfold ext2_insert_dirent.
  rewrite bool_decide_false by done. rewrite (u16_small (zlength nm)) by lia. destruct (Z.leb_spec VFS_NAME_MAX (zlength nm)); [lia|]. cbn [orb].
  rewrite (u8_small (zlength nm)) by lia. set (kind := if is_dir then 2 else 1).
  set (p := fun (_ : list Z) (x : Z * dirent) => (de_inode x.2 =? 0) && (rec_len_min (zlength nm) <=? rec_len x.2)).
  destruct (find_entry_spec p (direct i) s s) as (s1 & o & -> & Hs1 & Hv1 & Ho); [by split | done | intros b; by apply dir_valid with s pl | done |].
  pose proof (dir_same s s1 ino pl i Hd Hs1 Hv1) as Hd1. pose proof (same_blk cnt sector s s1) as Hm1. specialize (fun n => Hm1 n Hs1).
  destruct o as [[b [off de]]|].
  - destruct Ho as (pre & post & r & E & Hnz & Hio & Hfind & _). destruct (find_split _ _ _ Hfind) as (bpre & bpost & Eb & Hpx & _).
    unfold p in Hpx. cbn [snd] in Hpx. apply andb_true_iff in Hpx as [Hz%Z.eqb_eq Hroom%Z.leb_le].
    assert (b ∈ direct i) as Hbd by (rewrite E; apply elem_of_app; right; apply elem_of_cons; by left).
    assert ((off, de) ∈ entries (blk s b)) as Hin by (rewrite Eb; apply elem_of_app; right; apply elem_of_cons; by left).
    pose proof (dirents_from _ _ _ _ _ ltac:(done) Hin) as Hr. cbn [fst snd] in Hr. pose proof (length_blk ss cnt sector Hss Hcnt s b) as Hlb.
    set (c := record child (rec_len de) kind nm).
    assert (length c = Z.to_nat (rec_len de)) as Hlc by (apply length_record; [done | lia]).
    assert (io_put off (entry_bytes child (rec_len de) kind nm) (io_put off (replicate (Z.to_nat (rec_len de)) 0) s1) = io_put off c s1) as ->.
    { unfold io_put. cbn [set_io g_io]. rewrite inserts_over; [done|]. rewrite length_replicate. apply entry_fits; [done | lia]. }
    destruct (put_write s s1 b off r c Hs1 Hv1 ltac:(by apply (dir_valid s pl i)) Hio ltac:(lia) ltac:(lia)) as (s2 & -> & Hv2 & Hw). cbn [negb].
    destruct (fill_entry child (rec_len de) kind nm Hnm Hchild ltac:(lia) BS (blk s b) off de bpre bpost Eb
      ltac:(by apply (dir_names_ok s ino pl i)) ltac:(lia) Hz eq_refl) as (Hl1 & Hl2 & Hnl). fold c in Hl2, Hnl.
    destruct (dir_write s s2 ino pl i pre b post _ Hd E Hnz Hv2 Hw Hnl) as ([_ Hb2 Hp2 Hi2 Hf2 Hn2] & Hpre & Hpost).
    destruct (write_inode ino i s2) as [s3 n] eqn:E3.
    destruct (dir_store s2 s3 ino pl i i n Hv2 Hb2 Hp2 Hf2 Hn2 ltac:(by destruct Hf) ltac:(done) E3) as (-> & Hd3 & Hkeep).
    exists s3, (Some i). split; [done|]. split; [done|]. exists (names_of s pre ++ entries_of (blk s b) bpre), (entries_of (blk s b) bpost ++ names_of s post).
    unfold dir_list. rewrite Hkeep by done. rewrite E, !names_of_app, !names_of_cons, Hpre, Hpost. destruct Hw as (_ & -> & _).
    apply Z.eqb_neq in Hnz. rewrite Hnz, Hl1, Hl2, <- !app_assoc. done.
  - assert (forall b x, b ∈ direct i -> b <> 0 -> x ∈ entries (blk s b) -> ~ (de_inode x.2 = 0 /\ rec_len_min (zlength nm) <= rec_len x.2)) as Hfree.
    { intros b x Hbd Hnz Hx [H1 H2]. pose proof (find_missing _ _ (Ho b Hbd Hnz) x Hx) as Hpx. unfold p in Hpx.
      apply Z.eqb_eq in H1. apply Z.leb_le in H2. by rewrite H1, H2 in Hpx. }
    destruct (insert_block_spec s1 ino pl i child nm kind Hd1 Hnm Hchild Hsize) as (s' & o & -> & Ho'). exists s', o. split; [done|].
    assert (dir_list s1 i = dir_list s i) as El by (apply names_of_ext; intros; apply Hm1).
    destruct o as [i'|]; [by rewrite <- El|]. split; [done|]. destruct Hs1 as [Hfs _]. unfold taken in Ho'. by rewrite Hfs, Hm1 in Ho'.
Qed.
End directory.

(** ** The root directory of the example *)

Definition demo_dir : vfs_inode := {| i_ino := 2; i_mode := 0x41FF; i_uid := 0; i_gid := 0; i_size := 2048; i_private := [0; 0; 0; 0] |}.

Lemma demo_dir_inode : inode_at 4 demo_sector demo_volume (5, 128) = pad 128 demo_root.
Proof. vm_compute. reflexivity. Qed.

Lemma demo_x_block k : (k < 12)%nat -> x_block k (pad 128 demo_root) <> 0 -> k = 0%nat /\ x_block k (pad 128 demo_root) = 6.
Proof.
  intros Hk. destruct k as [|k]; [split; vm_compute; reflexivity|].
  do 11 (destruct k as [|k]; [intros Hnz; exfalso; apply Hnz; vm_compute; reflexivity|]). lia.
Qed.

Lemma demo_dir_file_ok : file_ok 4 demo_sector demo_volume (5, 128) (pad 128 demo_root).
Proof.
  assert (block_bitmap (fs_bg (fs demo_volume)) = 3) as E1 by (vm_compute; reflexivity).
  assert (gdt demo_volume = 1) as E2 by (vm_compute; reflexivity).
  assert (blocks_per_group (fs_sb (fs demo_volume)) = 32) as E3 by (vm_compute; reflexivity).
  split; [vm_compute; reflexivity | | |].
  - intros k Hk Hnz. destruct (demo_x_block k Hk Hnz) as [_ ->]. unfold data_ok, apart_from_super, valid. rewrite E1, E2. cbn [fst]. lia.
  - intros k k' Hk Hk' Hnz Heq. destruct (demo_x_block k Hk Hnz) as [-> _]. rewrite Heq in Hnz. by destruct (demo_x_block k' Hk' Hnz) as [-> _].
  - assert (forallb (fun j => taken 4 demo_sector demo_volume j || (7 <=? j)) (seqZ 0 32) = true) as Hall by (vm_compute; reflexivity).
    rewrite E3. intros j Hj Hc. rewrite forallb_forall in Hall. specialize (Hall j ltac:(apply list_elem_of_In, elem_of_seqZ; lia)).
    rewrite Hc in Hall. cbn [orb] in Hall. apply Z.leb_le in Hall. split; [lia|].
    split; [unfold data_ok, apart_from_super, valid; rewrite E1, E2; cbn [fst]; lia|]. intros (k & Hk & Heq & Hnz).
    rewrite <- Heq in Hnz. destruct (demo_x_block k Hk Hnz) as [_ E]. lia.
Qed.

Lemma demo_dir_ok : dir_ok 512 4 demo_sector demo_volume 2 (5, 128) (pad 128 demo_root).
Proof.
  split; [exact demo_volume_ok | exact demo_bitmap_ok | | exact demo_dir_inode | exact demo_dir_file_ok |].
  - destruct demo_place_ok as (_ & H). split; [vm_compute; reflexivity | exact H].
  - intros k Hk Hnz. destruct (demo_x_block k Hk Hnz) as [_ ->]. unfold names_ok.
    assert (forallb (fun x => negb (named x) || usable x) (dirents (Z.to_nat (4 * 512)) (blk 4 demo_sector demo_volume 6) (4 * 512) 0) = true) as Hall
      by (vm_compute; reflexivity).
    rewrite forallb_forall in Hall. apply Forall_forall. intros x Hx. specialize (Hall x ltac:(by apply list_elem_of_In)).
    destruct (named x); [|done]. cbn [negb orb] in Hall. intros _. by rewrite Hall.
Qed.

Lemma demo_dir_list : dir_list 512 4 demo_sector demo_volume (pad 128 demo_root) = [(dot, 2); (dotdot, 2)].
Proof. vm_compute. reflexivity. Qed.

Lemma ext2_lookup_unlink_witness :
  exists s2, ext2_unlink demo_dir dot demo_volume = (s2, 0) /\ dir_list 512 4 demo_sector s2 (pad 128 demo_root) = [(dotdot, 2)].
Proof.
  destruct (ext2_lookup_unlink 512 4 demo_sector demo_reads demo_writes ltac:(lia) ltac:(lia) ltac:(lia) ltac:(lia)
    demo_volume demo_dir (5, 128) (pad 128 demo_root) dot zero_inode demo_dir_ok) as [_ (s2 & E & _ & Hl)].
  exists s2. rewrite demo_dir_list in E, Hl. split; [exact E | exact Hl].
Defined.

Lemma ext2_insert_adds_witness :
  exists s' i' l1 l2, ext2_insert_dirent (pad 128 demo_root) 2 11 (str "a") false demo_volume = (s', Some i') /\
    [(dot, 2); (dotdot, 2)] = l1 ++ l2 /\ dir_list 512 4 demo_sector s' i' = l1 ++ (str "a", 11) :: l2.
Proof.
  destruct (ext2_insert_adds 512 4 demo_sector demo_reads demo_writes ltac:(lia) ltac:(lia) ltac:(lia) ltac:(lia)
    demo_volume 2 (5, 128) (pad 128 demo_root) 11 (str "a") false demo_dir_ok) as (s' & o & E & Ho).
  - split; [done|]. split; [vm_compute; reflexivity|]. repeat constructor; vm_compute; discriminate.
  - lia.
  - lia.
  - destruct o as [i'|].
    + destruct Ho as (_ & l1 & l2 & H1 & H2). rewrite demo_dir_list in H1. exists s', i', l1, l2. split; [exact E|]. split; [exact H1 | exact H2].
    + exfalso. destruct Ho as [_ [H|H]].
      * apply (H 1%nat); [lia | vm_compute; reflexivity].
      * assert (blocks_per_group (fs_sb (fs demo_volume)) = 32) as E3 by (vm_compute; reflexivity).
        specialize (H 7 ltac:(lia)). assert (taken 4 demo_sector demo_volume 7 = false) as Hf by (vm_compute; reflexivity). congruence.
Defined.
