(* ===== verification/Ext2Files.v ===== *)
(** * ext2 behind the virtual file system ([src/src/fs/ext2/ext2.c])

    The functions of [g_ext2_ops] as an instance of the interfaces of [Vfs.v] and
    [PathCalls.v], for one mounted volume, and the proof that its files keep what
    [FilesInv.v] asks of a file system, as long as they fit in the direct blocks. *)

From S2P Require Import Prelude CString Block BlockIo Path Process Rng Uaccess Vfs FatVfs Ring Fd FdOps FdInv FdCalls Signals FdIo Pty FdIoInv Tty TtyInv PathCalls Files FilesInv Ext2 Ext2Inv Ext2Dir.

Section ext2.
Context {D M : Type} `{!driver D, !machine M, !sigint_source M}.

(** The volume, the effective ids of the caller, the machine. *)
Record ext2_world := { volume : e2 D; caller_ids : Z * Z; devices : M }.
Implicit Types (wd : ext2_world).

Definition set_volume (s : e2 D) wd : ext2_world := {| volume := s; caller_ids := caller_ids wd; devices := devices wd |}.
Definition set_devices (m : M) wd : ext2_world := {| volume := volume wd; caller_ids := caller_ids wd; devices := m |}.

#[export] Instance g_ext2_ops : filesystems ext2_world := {|
  sb_has _ _ := true;
  op_lookup _ dir nm out wd := let '(s, r) := ext2_lookup dir nm out (volume wd) in (set_volume s wd, r);
  op_read _ i off len wd := let '(s, r, l) := ext2_read i off len (volume wd) in (set_volume s wd, r, l);
  op_write _ i off src wd := let '(s, i, r) := ext2_write i off src (volume wd) in (set_volume s wd, i, r);
  op_create _ dir nm mode wd :=
    let '(s, r) := ext2_create (caller_ids wd).1 (caller_ids wd).2 dir nm mode (volume wd) in (set_volume s wd, r);
  op_mkdir _ dir nm mode wd :=
    let '(s, r) := ext2_mkdir (caller_ids wd).1 (caller_ids wd).2 dir nm mode (volume wd) in (set_volume s wd, r);
  op_unlink _ dir nm wd := let '(s, r) := ext2_unlink dir nm (volume wd) in (set_volume s wd, r);
  op_statfs _ wd := Some (ext2_statfs (volume wd));
  ext_setattr _ _ i mode uid gid mask wd := let '(s, r) := ext2_setattr i mode uid gid mask (volume wd) in (set_volume s wd, r)
|}.

#[export] Instance ext2_readdirs : readdirs ext2_world := {|
  has_readdir _ := true;
  op_readdir _ dir idx wd := let '(s, r) := ext2_readdir dir idx zero_inode (volume wd) in (set_volume s wd, r)
|}.

#[export] Instance ext2_machine : machine ext2_world := {|
  keyboard_getchar wd := let '(m, c) := keyboard_getchar (devices wd) in (set_devices m wd, c);
  keyboard_mouse_read n wd := let '(m, r, bs) := keyboard_mouse_read n (devices wd) in (set_devices m wd, r, bs);
  keyboard_mouse_event_read n wd := let '(m, r, bs) := keyboard_mouse_event_read n (devices wd) in (set_devices m wd, r, bs);
  console_putchar c wd := set_devices (console_putchar c (devices wd)) wd;
  fb_bytes wd := fb_bytes (devices wd);
  fb_store off bs wd := set_devices (fb_store off bs (devices wd)) wd;
  fb_get_2m_phys_window wd := fb_get_2m_phys_window (devices wd);
  fb_addr wd := fb_addr (devices wd);
  entropy_source wd := let '(ms, m) := entropy_source (devices wd) in (ms, set_devices m wd)
|}.

#[export] Instance ext2_sigint : sigint_source ext2_world := {| take_sigint wd := set_devices (take_sigint (devices wd)) wd |}.
End ext2.

Arguments ext2_world : clear implicits.

Section store.
Context {D M : Type} `{!driver D} (ss cnt : Z) (sector : D -> Z -> list Z) `{!driver_ok D ss sector}.
Context (Hrs : reads_singles (D := D)) (Hws : writes_singles (D := D)).
Context (Hss : 0 < ss) (Hcnt : 0 < cnt) (Hbuf : 2 * ss <= 4096) (Hbs : cnt * ss <= 4096).
Implicit Types (s : e2 D).

Abbreviation BS := (cnt * ss).

(** The file of an inode holds [l]: its direct blocks are data and none is missing
    before the end. *)
Record ext2_contains (inode : vfs_inode) (l : list Z) s (pl : Z * Z) : Prop := {
  c_volume : volume_ok ss cnt s; c_bitmap : bitmap_ok ss cnt s; c_place : place_ok cnt s (i_ino inode) pl;
  c_file : file_ok cnt sector s pl (inode_at cnt sector s pl);
  c_inode : i_size inode = zlength l; c_size : x_size (inode_at cnt sector s pl) = zlength l;
  c_direct : zlength l <= 12 * BS;
  c_there : forall q, 0 <= q < zlength l -> x_block (Z.to_nat (q / BS)) (inode_at cnt sector s pl) <> 0;
  c_bytes : forall q, 0 <= q < zlength l -> l !! Z.to_nat q = Some (file_byte ss cnt sector s (inode_at cnt sector s pl) q)
}.

(** No free block is left. *)
Definition ext2_full s : Prop := forall j, 0 <= j < blocks_per_group (fs_sb (fs s)) -> taken cnt sector s j = true.

Abbreviation ino_of s pl := (inode_at cnt sector s pl).

Lemma contains_moved inode l s s' pl :
  ext2_contains inode l s pl -> same_disk sector s s' -> volume_ok ss cnt s' -> ext2_contains inode l s' pl.
Proof.
  intros [V B Pl F I S Di Th By] Hs Hv. assert (forall m, blk cnt sector s' m = blk cnt sector s m) as Hb by (intros; by apply same_blk).
  pose proof Hs as [Hfs _]. assert (ino_of s' pl = ino_of s pl) as Ei by (unfold inode_at; by rewrite Hb).
  assert (layout (fs s') = layout (fs s)) as Hl by (by rewrite Hfs).
  split; rewrite ?Ei; try done.
  - by apply (bitmap_ok_layout _ _ s).
  - destruct Pl as (P1 & P2 & P3 & P4). unfold place_ok, apart_from_super, gdt. rewrite (place_layout _ s) by done. by rewrite Hfs.
  - destruct F as [F1 F2 F3 F4]. split; [done | | done |]; unfold taken, data_ok, apart_from_super, gdt in *; rewrite Hfs, ?Hb; done.
  - intros q Hq. rewrite (By q Hq). f_equal. unfold file_byte. by rewrite Hb.
Qed.

(** The bytes that are there are the bytes that are read. *)
Lemma contained_bytes inode l s pl off n :
  ext2_contains inode l s pl -> 0 <= off -> 0 <= n ->
  map (file_byte ss cnt sector s (ino_of s pl)) (seqZ off (Z.min n (x_size (ino_of s pl) - off))) = bytes_at off n l.
Proof.
  intros Hc Ho Hn. rewrite (c_size _ _ _ _ Hc). apply list_eq. intros j. unfold bytes_at.
  set (f := file_byte _ _ _ _ _). change (map f) with (fmap (M := list) f). rewrite list_lookup_fmap.
  destruct (decide (j < Z.to_nat (Z.min n (zlength l - off)))%nat) as [Hj|Hj].
  - rewrite lookup_take_lt, lookup_drop, lookup_seqZ_lt by lia. cbn [fmap option_fmap option_map].
    replace (Z.to_nat off + j)%nat with (Z.to_nat (off + Z.of_nat j)) by lia. symmetry. apply (c_bytes _ _ _ _ Hc). lia.
  - rewrite lookup_seqZ_ge by lia. symmetry. apply lookup_ge_None. rewrite length_take, length_drop. unfold zlength in Hj. lia.
Qed.

Lemma ext2_store_read inode l s pl off n :
  ext2_contains inode l s pl -> 0 <= off < 2 ^ 31 -> 0 <= n < 2 ^ 31 ->
  exists s', ext2_read inode off n s = (s', zlength (bytes_at off n l), bytes_at off n l) /\ ext2_contains inode l s' pl.
Proof.
  intros Hc Ho Hn. pose proof Hc as [V B (P1 & P2 & _) F I S Di Th By].
  destruct (ext2_read_spec ss cnt sector Hrs Hss Hcnt Hbuf Hbs s inode off n pl V P1 P2) as (s' & E & Hs & Hv); try lia.
  - intros k Hk Hnz. by destruct (f_blocks _ _ _ _ _ F k Hk Hnz).
  - intros q Hq. apply Th. lia.
  - rewrite (contained_bytes _ _ _ _ _ _ Hc) in E by lia. exists s'. split; [done|]. by apply (contains_moved _ _ s).
Qed.

Lemma lookup_written off c l q :
  0 <= off <= zlength l -> 0 <= q ->
  written off c l !! Z.to_nat q = if (off <=? q) && (q <? off + zlength c) then c !! Z.to_nat (q - off) else l !! Z.to_nat q.
Proof.
  intros Ho Hq. unfold written, zlength in *.
  destruct (Z.leb_spec off q) as [H1|H1]; cbn [andb].
  2: { rewrite lookup_app_l by (rewrite length_take; lia). by rewrite lookup_take_lt by lia. }
  rewrite lookup_app_r by (rewrite length_take; lia). rewrite length_take, Nat.min_l by lia.
  destruct (Z.ltb_spec q (off + Z.of_nat (length c))).
  - rewrite lookup_app_l by lia. f_equal. lia.
  - rewrite lookup_app_r by lia. rewrite lookup_drop. f_equal. lia.
Qed.

Lemma ext2_store_write inode l s pl off src :
  ext2_contains inode l s pl -> 0 <= off <= zlength l -> off + zlength src <= 12 * BS ->
  exists s' inode' r, ext2_write inode off src s = (s', inode', r) /\ 0 <= r <= zlength src /\ i_mode inode' = i_mode inode /\
    ext2_contains inode' (written off (take (Z.to_nat r) src) l) s' pl /\ (r < zlength src -> ext2_full s').
Proof.
  intros Hc Ho Hlen. pose proof Hc as [V B Pl F I S Di Th By].
  destruct (ext2_write_spec ss cnt sector Hrs Hws Hss Hcnt Hbuf Hbs s inode off src pl V B Pl F ltac:(lia) Hlen)
    as (s' & r & E & Hr & [V' L' F' S' K' By' Th' _ Full]).
  assert (zlength (take (Z.to_nat r) src) = r) as Er by (unfold zlength in *; rewrite length_take; lia).
  pose proof (zlength_written off (take (Z.to_nat r) src) l Ho) as El. rewrite Er in El.
  eexists s', _, r. split; [exact E|]. split; [done|]. split; [done|]. destruct (layout_eqs s s' L') as (L1 & L2 & L3).
  split; [|intros Hlt j Hj; rewrite L2 in Hj; by apply Full].
  split; cbn [set_i_size i_ino i_size]; try done; rewrite ?El, ?S', ?S; try lia.
  - by apply (bitmap_ok_layout _ _ s).
  - destruct Pl as (P1 & P2 & P3 & P4). unfold place_ok, apart_from_super in *. by rewrite (place_layout _ s), L1, L3 by done.
  - intros q Hq. destruct (decide (off <= q < off + r)) as [Hw|Hw]; [by apply Th'|]. pose proof (Th q ltac:(lia)) as Hnz.
    rewrite K'; [done | apply (block_of_byte ss cnt Hss Hcnt); lia | done].
  - intros q Hq. rewrite By' by lia. rewrite lookup_written, Er by lia.
    destruct (Z.leb_spec off q), (Z.ltb_spec q (off + r)); cbn [andb]; try (apply By; lia).
    rewrite lookup_take_lt by lia. destruct (lookup_lt_is_Some_2 src (Z.to_nat (q - off))) as [c Hb]; [unfold zlength in Hr; lia|].
    by rewrite nth_lookup, Hb.
Qed.

(** ext2 keeps the promises of a file system for files of twelve blocks at most. *)
#[export] Instance ext2_file_store (sb : superblock) : file_store (W := ext2_world D M) sb (12 * BS).
Proof.
  refine {| contains i l wd := exists pl, ext2_contains i l (volume wd) pl; full wd := ext2_full (volume wd) |}.
  - done.
  - lia.
  - intros i l wd [pl Hc]. split; [apply (c_inode _ _ _ _ Hc) | apply (c_direct _ _ _ _ Hc)].
  - intros i l wd off n [pl Hc] Ho Hn. destruct (ext2_store_read _ _ _ _ _ _ Hc Ho Hn) as (s' & E & Hc'). cbn [op_read g_ext2_ops]. rewrite E.
    eexists. split; [done|]. by exists pl.
  - intros i l wd off src [pl Hc] Ho Hl. destruct (ext2_store_write _ _ _ _ _ _ Hc Ho Hl) as (s' & i' & r & E & Hr & Hm & Hc' & Hf).
    cbn [op_write g_ext2_ops]. rewrite E. eexists _, i', r. split; [done|]. split; [done|]. split; [done|]. split; [by exists pl | done].
Defined.
End store.

(** ** Entries of a directory *)

Section listing.
Context {D M : Type} `{!driver D} (ss cnt : Z) (sector : D -> Z -> list Z) `{!driver_ok D ss sector}.
Context (Hrs : reads_singles (D := D)).
Context (Hss : 0 < ss) (Hcnt : 0 < cnt) (Hbuf : 2 * ss <= 4096) (Hbs : cnt * ss <= 4096).
Implicit Types (s : e2 D).

Abbreviation BS := (cnt * ss).

Lemma live_lookup bs l k :
  live bs l !! k = match filter usable (dirents (Z.to_nat bs) l bs 0) !! k with
                   | Some x => Some (entry_name l x, de_inode x.2) | None => None end.
Proof.
  unfold live. set (f := fun x : Z * dirent => _). change (map f) with (fmap (M := list) f). rewrite list_lookup_fmap. by destruct (_ !! k).
Qed.

(** The entry of an index is the name of that index. *)
Lemma nth_entry_spec bs idx s s0 :
  same_disk sector s s0 -> volume_ok ss cnt s0 -> (forall b, b ∈ bs -> b <> 0 -> valid cnt b) -> 0 <= idx ->
  exists s' o, nth_entry idx bs s0 = (s', o) /\ same_disk sector s s' /\ volume_ok ss cnt s' /\
    match names_of ss cnt sector s bs !! Z.to_nat idx with
    | Some (nm, ino) => exists x, o = Some x /\ entry_name (g_io s') x = nm /\ de_inode x.2 = ino
    | None => o = None
    end.
Proof.
  intros Hs Hv Hval. revert idx s0 Hs Hv. induction bs as [|b bs IH]; intros idx s0 Hs Hv Hi; cbn [nth_entry].
  { exists s0, None. by split_and!. }
  specialize (IH (fun c Hc => Hval c (proj2 (elem_of_cons bs c b) (or_intror Hc)))). rewrite names_of_cons.
  destruct (Z.eqb_spec b 0) as [|Hnz]; [by apply IH|].
  destruct (read_block_spec ss cnt sector Hrs Hss Hcnt Hbs s0 b Hv) as (s1 & -> & Hs1 & Hv1 & Hio); [apply Hval; [apply elem_of_cons; by left | done]|].
  cbn [negb]. rewrite (v_bs _ _ _ Hv1), Hio. rewrite (same_blk _ _ _ _ _ Hs). assert (same_disk sector s s1) as Hs' by (by etrans).
  pose proof (length_blk_nat ss cnt sector Hss Hcnt s b) as Hlen. rewrite dirents_app by lia. set (r := drop _ _) in *.
  set (l := filter usable (dirents (Z.to_nat BS) (blk cnt sector s b) BS 0)).
  assert (zlength (live BS (blk cnt sector s b)) = zlength l) as El by (unfold live, zlength; by rewrite length_map).
  destruct (Z.ltb_spec idx (zlength l)) as [Hlt|Hge].
  - exists s1, (l !! Z.to_nat idx). split; [done|]. split; [done|]. split; [done|].
    rewrite lookup_app_l by (unfold zlength in *; lia). rewrite live_lookup. fold l.
    destruct (lookup_lt_is_Some_2 l (Z.to_nat idx)) as [x Ex]; [unfold zlength in Hlt; lia|]. rewrite Ex. exists x. split; [done|]. split; [|done].
    apply list_elem_of_lookup_2 in Ex. apply list_elem_of_filter in Ex as [Hu Hx].
    rewrite Hio, (same_blk _ _ _ _ _ Hs). fold r. by apply (name_app (blk cnt sector s b) r BS x); [lia | |].
  - destruct (IH (idx - zlength l) s1 Hs' Hv1 ltac:(lia)) as (s' & o & E & H1 & H2 & H3). exists s', o. split; [exact E|]. split; [done|]. split; [done|].
    rewrite lookup_app_r by (unfold zlength in *; lia). replace (Z.to_nat (idx - zlength l)) with (Z.to_nat idx - length (live BS (blk cnt sector s b)))%nat in H3 by (unfold zlength in *; lia).
    done.
Qed.

(** What a listing gives for a name: the inode of its number, of a type that the
    system knows. *)
Definition entry_inode s (x : path * Z) (y : path * vfs_inode) : Prop :=
  y.1 = x.1 /\ exists pl, inode_place x.2 s = Some pl /\ valid cnt pl.1 /\
    let t := inode_at cnt sector s pl in
    vfs_mode_from_ext2 (x_mode t) <> 0 /\
    y.2 = {| i_ino := x.2; i_mode := vfs_mode_from_ext2 (x_mode t); i_uid := x_uid t; i_gid := x_gid t; i_size := x_size t;
             i_private := i_private zero_inode |}.

(** The disk is still as it was. *)
Definition unchanged s (wd : ext2_world D M) : Prop := same_disk sector s (volume wd) /\ volume_ok ss cnt (volume wd).

Lemma ext2_readdir_spec sb s dir pl i entries idx wd :
  dir_ok ss cnt sector s (i_ino dir) pl i -> Forall2 (entry_inode s) (dir_list ss cnt sector s i) entries ->
  unchanged s wd -> 0 <= idx ->
  exists wd', op_readdir sb dir idx wd = (wd', entries !! Z.to_nat idx) /\ unchanged s wd'.
Proof.
  intros [Hv Hb (Hp & Hpv & _) Hi Hf Hn] Hent [Hs Hvw] Hidx. cbn [op_readdir ext2_readdirs]. unfold ext2_readdir.
  assert (inode_place (i_ino dir) (volume wd) = Some pl) as Hp' by (rewrite <- Hp; apply place_layout; by destruct Hs as [-> _]).
  destruct (read_inode_spec ss cnt sector Hrs Hss Hcnt Hbs (i_ino dir) _ pl Hvw Hp' Hpv) as (s1 & -> & Hs1 & Hv1).
  assert (inode_at cnt sector (volume wd) pl = i) as -> by (rewrite <- Hi; unfold inode_at; by rewrite (same_blk _ _ _ _ _ Hs)).
  assert (same_disk sector s s1) as Hs1' by (by etrans).
  destruct (nth_entry_spec (direct i) idx s s1 Hs1' Hv1) as (s2 & o & -> & Hs2 & Hv2 & Ho); [intros b Hbd Hnz; by eapply dir_valid | done|].
  fold (dir_list ss cnt sector s i) in Ho. destruct (dir_list ss cnt sector s i !! Z.to_nat idx) as [[nm ino]|] eqn:El.
  2: { subst o. pose proof (proj1 (Forall2_lookup _ _ _) Hent (Z.to_nat idx)) as Hk. rewrite El in Hk. inversion Hk. exists (set_volume s2 wd). by split. }
  destruct Ho as (x & -> & En & Ei). unfold fill_found. rewrite En, Ei.
  destruct (Forall2_lookup_l _ _ _ _ _ Hent El) as ([nm' vi] & -> & E1 & plc & P1 & P2 & P3 & P4). cbn [fst snd] in E1, P1, P4.
  destruct (read_inode_spec ss cnt sector Hrs Hss Hcnt Hbs ino s2 plc Hv2) as (s3 & -> & Hs3 & Hv3); [rewrite <- P1; apply place_layout; by destruct Hs2 as [-> _] | done |].
  assert (inode_at cnt sector s2 plc = inode_at cnt sector s plc) as -> by (unfold inode_at; by rewrite (same_blk _ _ _ _ _ Hs2)).
  destruct (Z.eqb_spec (vfs_mode_from_ext2 (x_mode (inode_at cnt sector s plc))) 0); [done|].
  exists (set_volume s3 wd). rewrite E1, P4. split; [done|]. split; [by etrans | done].
Qed.

(** ** What is in a list of names *)

Lemma length_dirents n l bs off : (length (dirents n l bs off) <= n)%nat.
Proof.
  revert off. induction n as [|n IH]; intros off; cbn [dirents]; [done|]. destruct (negb _); [cbn; lia|].
  destruct (ext2_dirent_read l bs off) as [de|]; [|cbn; lia]. cbn [length]. specialize (IH (off + rec_len de)). lia.
Qed.

Lemma length_names s bs : (length (names_of ss cnt sector s bs) <= length bs * Z.to_nat BS)%nat.
Proof.
  induction bs as [|b bs IH]; [done|]. rewrite names_of_cons, length_app. cbn [length].
  assert (length (if (b =? 0)%Z then [] else live BS (blk cnt sector s b)) <= Z.to_nat BS)%nat; [|lia].
  destruct (b =? 0); [cbn; lia|]. unfold live. rewrite length_map. etrans; [apply length_filter | apply length_dirents].
Qed.

Lemma c_string_ok l : Forall (fun c => c <> 0) (c_string l) /\ (length (c_string l) <= length l)%nat.
Proof. induction l as [|c l [H1 H2]]; cbn [c_string]; [done|]. destruct (Z.eqb_spec c 0); cbn [length]; [split; [done | lia]|]. split; [by constructor | lia]. Qed.

Lemma live_ok bs l x : x ∈ live bs l -> Forall (fun c => c <> 0) x.1 /\ zlength x.1 < 256 /\ 0 <= x.2 < 2 ^ 64.
Proof.
  unfold live. intros (y & -> & Hy)%list_elem_of_fmap. apply list_elem_of_filter in Hy as [Hu Hy]. cbn [fst snd].
  destruct (usable_record y Hu) as [Hn _]. unfold VFS_NAME_MAX in Hn. unfold entry_name.
  destruct (c_string_ok (take (Z.to_nat (name_len y.2)) (drop (Z.to_nat (y.1 + 8)) l))) as [H1 H2]. rewrite length_take in H2.
  split; [done|]. split; [unfold zlength; lia|]. apply dirents_read, dirent_read_fields in Hy. rewrite Hy. cbn [de_inode].
  pose proof (field_range (Z.to_nat y.1) 4 l). lia.
Qed.

Lemma listed_entries s i entries :
  Forall2 (entry_inode s) (dir_list ss cnt sector s i) entries -> Forall entry_ok entries /\ zlength entries < 2 ^ 31.
Proof.
  intros H. split.
  - apply Forall_lookup. intros k [nm vi] Hk. destruct (Forall2_lookup_r _ _ _ _ _ H Hk) as ([nm' ino] & Hl & E & pl & _ & _ & _ & Ev).
    cbn [fst snd] in *. subst nm' vi. unfold entry_ok. cbn [fst snd i_ino]. apply list_elem_of_lookup_2 in Hl.
    unfold dir_list, names_of in Hl. apply list_elem_of_In, in_concat in Hl as (l & Hl & Hx%list_elem_of_In).
    apply in_map_iff in Hl as (b & <- & _). destruct (b =? 0); [by apply elem_of_nil in Hx|]. by apply live_ok in Hx.
  - unfold zlength. rewrite <- (Forall2_length _ _ _ H). pose proof (length_names s (direct i)) as Hl. unfold dir_list.
    assert (length (direct i) = 12%nat) as El by reflexivity. rewrite El in Hl. lia.
Qed.
End listing.

(** ** Calls on an ext2 volume *)

Section calls.
Context {SK D M D' : Type} `{!sock_layer SK, !driver D, !machine M, !sigint_source M, !driver D'}.
Context (ss cnt : Z) (sector : D -> Z -> list Z) `{!driver_ok D ss sector}.
Context (Hrs : reads_singles (D := D)) (Hws : writes_singles (D := D)).
Context (Hss : 0 < ss) (Hcnt : 0 < cnt) (Hbuf : 2 * ss <= 4096) (Hbs : cnt * ss <= 4096).
Implicit Types (s : sys SK (ext2_world D M) D').

(** The volume of the world. *)
Definition vol s : e2 D := volume (world (vf s)).

(** Descriptor [fd_u] of the process is a file of the volume, open at [pos], that
    holds [l]; it is neither a terminal nor the mouse by its path. *)
Definition ext2_file (sb : superblock) (me p fd_u : Z) (l : list Z) (pos : Z) s : Prop :=
  plain_file sb (12 * (cnt * ss)) (file_store0 := ext2_file_store ss cnt sector Hrs Hws Hss Hcnt Hbuf Hbs sb) me p fd_u l pos s.

(** C18: a write to a file of an ext2 volume, open on a descriptor, stores the first
    [r] bytes of the buffer of the program at the position, or at the end of the file if it was
    opened for appending; all of them, unless the bitmap of blocks is full. The position is
    then after them; no other descriptor and no byte of the program changes. A seek
    back and a read of [r] bytes put the same bytes in another buffer, and nothing
    else in the memory of the program. *)
Theorem ext2_write_seek_read other other' n x sb me p fd_u l pos buf len buf2 s sg
    (Hme : e_me x = me) (Hp : ext2_file sb me p fd_u l pos s)
    (Hst : 0 <= write_pos p (i32 fd_u) l pos s <= zlength l) (Hfit : write_pos p (i32 fd_u) l pos s + len <= 12 * (cnt * ss)) (Hlen : 0 < len)
    (Hb1 : buf <> 0) (Hb : 0 <= buf < 2 ^ 64) (Hr : user_range_ok buf len = true)
    (Hb2 : buf2 <> 0) (Hb2r : 0 <= buf2 < 2 ^ 64) (Hr2 : user_range_ok buf2 len = true) :
  let start := write_pos p (i32 fd_u) l pos s in
  exists s1 r, do_sys_fd_write other x fd_u buf len s sg = Some (s1, sg, [], Done r) /\ 0 <= r <= len /\
    (r < len -> forall j, 0 <= j < blocks_per_group (fs_sb (fs (vol s1))) -> taken cnt sector (vol s1) j = true) /\
    umem (fdt s1) = umem (fdt s) /\ same_but p (i32 fd_u) (fdt s) (fdt s1) /\
    let data := load_bytes (umem (fdt s)) buf (Z.to_nat r) in
    ext2_file sb me p fd_u (written start data l) (start + r) s1 /\
    exists s2, returns (do_sys_lseek me fd_u start LINUX_SEEK_SET) s1 = Some (s2, start) /\
      (0 < r -> exists s3, do_sys_fd_read other' n x fd_u buf2 r s2 sg = Some (s3, sg, [], Done r) /\
        load_bytes (umem (fdt s3)) buf2 (Z.to_nat r) = data /\
        (forall a, a < buf2 \/ buf2 + r <= a -> umem (fdt s3) a = umem (fdt s) a)).
Proof.
  apply (write_seek_read sb (12 * (cnt * ss)) (file_store0 := ext2_file_store ss cnt sector Hrs Hws Hss Hcnt Hbuf Hbs sb)
    other other' n x me p fd_u l pos buf len buf2 s sg); assumption.
Qed.

(** C19: [getdents64] on a directory of an ext2 volume gives its next entries, as many
    as the buffer has room for: a program that walks the records of the buffer finds
    the names of the directory, with the numbers and types of their inodes, in order, and no
    other byte of its memory changes. The position is then the index of the first
    entry that is not given, so the calls that follow give each of the others once. With room for
    the longest record, a call that gives nothing is at the end of the directory. *)
Theorem ext2_directory_is_listed sb dir pl i entries me p fd_u pos dirp count s s0
    (Hd : dir_ok ss cnt sector (vol s) (i_ino dir) pl i) (Hent : Forall2 (entry_inode cnt sector (vol s)) (dir_list ss cnt sector (vol s) i) entries)
    (Hh : at_home me p (fdt s)) (Hfd : 0 <= i32 fd_u < EDGE_MAX_FD) (Hdir : is_dir dir = true)
    (Ho : dir_open sb dir (unchanged ss cnt sector (vol s)) p (i32 fd_u) pos s)
    (Hpts : f_path (fd_of (fdt s) p (i32 fd_u)) <> str "/dev/pts")
    (Hdev : is_dev_dir (fd_of (fdt s) p (i32 fd_u)) s = Some (s0, inl false)) (Hw : unchanged ss cnt sector (vol s) (world (vf s0)))
    (Hpos : 0 <= pos < 2 ^ 31) (Hb : 0 <= dirp < 2 ^ 64) (Hc : 21 <= count < 2 ^ 31) (Hr : user_range_ok dirp count = true) :
  exists s' r k, returns (do_sys_getdents64 me fd_u dirp count) s = Some (s', r) /\ 0 <= r <= count /\
    listed entries pos count k /\ dir_open sb dir (unchanged ss cnt sector (vol s)) p (i32 fd_u) (pos + Z.of_nat k) s' /\
    same_but p (i32 fd_u) (fdt s) (fdt s') /\
    parse_dirents k (load_bytes (umem (fdt s')) dirp (Z.to_nat r)) = records pos (take k (drop (Z.to_nat pos) entries)) /\
    (forall a, a < dirp \/ dirp + r <= a -> umem (fdt s') a = umem (fdt s) a) /\
    (280 <= count -> r = 0 -> zlength entries <= pos).
Proof.
  destruct (listed_entries ss cnt sector Hss Hcnt Hbs (vol s) i entries Hent) as [He Hz].
  apply (getdents_lists sb dir entries (unchanged ss cnt sector (vol s))) with (s0 := s0); try done.
  intros idx wd Hu Hidx. apply (ext2_readdir_spec ss cnt sector Hrs Hss Hcnt Hbs sb (vol s) dir pl i); (done || lia).
Qed.
End calls.

(** ** The volume of the example *)

#[local] Existing Instance no_sockets.
#[local] Instance no_sigint : sigint_source unit := {| take_sigint m := m |}.
#[local] Existing Instance demo_driver_ok.

Definition demo_sb : superblock :=
  {| fs_name := str "ext2"; dev_name := str "/dev/sda"; mountpoint := str "/mnt"; sb_root := demo_dir; sb_ops := 0; sb_private := 0 |}.
Definition vfs_of (wd : ext2_world (ramdisk 512) unit) (d : ramdisk 512) : vfs (ext2_world (ramdisk 512) unit) (ramdisk 512) :=
  {| g_mounts := [demo_sb]; g_fsreg := [str "ext2"]; g_cwd := [slash]; g_devnodes := chr_nodes;
     g_rng := rng_init; g_block := block_init; g_disk := d; world := wd; current := None |}.
Definition demo_vfs : vfs (ext2_world (ramdisk 512) unit) (ramdisk 512) :=
  vfs_of {| volume := demo_volume; caller_ids := (0, 0); devices := tt |} (disk_of demo_block).

Definition demo_memory : CString.mem := store_bytes (fun _ => 0) 0x2000 (str "hello").

(** Process 5 with the file as its descriptor 3, the root directory as 4. *)
Definition demo_files : fdw unit :=
  set_fd 0 4 (with_inode demo_dir (Some demo_sb) (opened FD_VFS 5 0 (-1) (str "/mnt")))
    (set_fd 0 3 (with_inode demo_inode (Some demo_sb) (opened FD_VFS 4 LINUX_O_RDWR (-1) (str "/mnt/a")))
      (fst (fd_proc_with_stdio 5 (fd_init tt demo_memory)))).
Definition demo_sys : sys unit (ext2_world (ramdisk 512) unit) (ramdisk 512) := {| fdt := demo_files; vf := demo_vfs |}.

Definition demo_env : io_env := {| e_clock := {| mono := 0; real := 0 |}; e_me := 5; e_uid := 0; e_task := None |}.

Lemma demo_home : at_home 5 0 demo_files.
Proof.
  split; [split; [lia|]; split; [vm_compute; reflexivity | intros j Hj; lia]|].
  intros n Hn. assert (n = 0 \/ n = 1 \/ n = 2) as [->|[->| ->]] by lia; vm_compute; reflexivity.
Qed.

Lemma demo_contains : ext2_contains 512 4 demo_sector demo_inode [] demo_volume (5, 1280).
Proof.
  split; [exact demo_volume_ok | exact demo_bitmap_ok | exact demo_place_ok | exact demo_file_ok | reflexivity | vm_compute; reflexivity | | |];
    change (zlength []) with 0; lia.
Qed.

Lemma demo_file_open : ext2_file 512 4 demo_sector demo_reads demo_writes ltac:(lia) ltac:(lia) ltac:(lia) ltac:(lia) demo_sb 5 0 3 [] 0 demo_sys.
Proof.
  split; [exact demo_home | vm_compute; split; [discriminate | reflexivity] | | vm_compute; reflexivity | vm_compute; reflexivity].
  split; [vm_compute; reflexivity.. |]. exists (5, 1280). exact demo_contains.
Qed.

Lemma ext2_write_seek_read_witness :
  exists s1 r s2, do_sys_fd_write (fun _ w sg => (w, sg, [], Spin)) demo_env 3 0x2000 5 demo_sys zero_sigs = Some (s1, zero_sigs, [], Done r) /\
    0 <= r <= 5 /\ returns (do_sys_lseek 5 3 0 LINUX_SEEK_SET) s1 = Some (s2, 0) /\
    (0 < r -> exists s3, do_sys_fd_read (fun _ w sg => (w, sg, Spin)) 0 demo_env 3 0x3000 r s2 zero_sigs = Some (s3, zero_sigs, [], Done r) /\
      load_bytes (umem (fdt s3)) 0x3000 (Z.to_nat r) = load_bytes demo_memory 0x2000 (Z.to_nat r)).
Proof.
  destruct (ext2_write_seek_read 512 4 demo_sector demo_reads demo_writes ltac:(lia) ltac:(lia) ltac:(lia) ltac:(lia)
    (fun _ w sg => (w, sg, [], Spin)) (fun _ w sg => (w, sg, Spin)) 0 demo_env demo_sb 5 0 3 [] 0 0x2000 5 0x3000 demo_sys zero_sigs)
    as (s1 & r & E & Hr & _ & _ & _ & _ & s2 & E2 & Hread).
  - reflexivity.
  - exact demo_file_open.
  - vm_compute. split; discriminate.
  - vm_compute. discriminate.
  - lia.
  - discriminate.
  - lia.
  - reflexivity.
  - discriminate.
  - lia.
  - reflexivity.
  - exists s1, r, s2. split; [exact E|]. split; [exact Hr|]. split; [exact E2|]. intros H0.
    destruct (Hread H0) as (s3 & E3 & El & _). exists s3. split; [exact E3 | exact El].
Defined.

(** The entries of the root. *)
Definition root_entry (nm : path) : path * vfs_inode :=
  (nm, {| i_ino := 2; i_mode := 0x41FF; i_uid := 0; i_gid := 0; i_size := 2048; i_private := i_private zero_inode |}).

Lemma demo_entries : Forall2 (entry_inode 4 demo_sector demo_volume) (dir_list 512 4 demo_sector demo_volume (pad 128 demo_root)) [root_entry dot; root_entry dotdot].
Proof.
  rewrite demo_dir_list. destruct demo_place_ok as (_ & Hv & _).
  assert (forall nm, entry_inode 4 demo_sector demo_volume (nm, 2) (root_entry nm)) as H; [|by do 2 (constructor; [apply H|])].
  intros nm. split; [done|]. exists (5, 128). split; [vm_compute; reflexivity|]. split; [exact Hv|]. rewrite demo_dir_inode.
  split; [vm_compute; discriminate | vm_compute; reflexivity].
Qed.

Lemma no_dev wd d : vfs_resolve (Some (str "/dev")) (vfs_of wd d) = Some (vfs_of wd d, Unresolved).
Proof. vm_compute. reflexivity. Qed.

Lemma demo_not_dev (w : fdw unit) (e : edge_fd) wd d : f_path e = str "/mnt" -> is_dev_dir e {| fdt := w; vf := vfs_of wd d |} = Some ({| fdt := w; vf := vfs_of wd d |}, inl false).
Proof.
  intros E. unfold is_dev_dir. rewrite E. unfold mbind, call_bind, resolve, on_vfs.
  rewrite bool_decide_false by discriminate. cbn [vf]. by rewrite no_dev.
Qed.

Lemma ext2_directory_is_listed_witness :
  exists s' r k, returns (do_sys_getdents64 5 4 0x4000 1024) demo_sys = Some (s', r) /\
    parse_dirents k (load_bytes (umem (fdt s')) 0x4000 (Z.to_nat r)) = records 0 (take k [root_entry dot; root_entry dotdot]).
Proof.
  destruct (ext2_directory_is_listed 512 4 demo_sector demo_reads ltac:(lia) ltac:(lia) ltac:(lia)
    demo_sb demo_dir (5, 128) (pad 128 demo_root) [root_entry dot; root_entry dotdot] 5 0 4 0 0x4000 1024 demo_sys demo_sys)
    as (s' & r & k & E & _ & _ & _ & _ & El & _).
  - exact demo_dir_ok.
  - exact demo_entries.
  - exact demo_home.
  - vm_compute. split; [discriminate | reflexivity].
  - reflexivity.
  - split; [vm_compute; reflexivity..|]. split; [reflexivity | exact demo_volume_ok].
  - discriminate.
  - apply demo_not_dev. reflexivity.
  - split; [reflexivity | exact demo_volume_ok].
  - lia.
  - lia.
  - lia.
  - reflexivity.
  - exists s', r, k. split; [exact E | exact El].
Defined.
