(* ===== verification/Ext4.v ===== *)
(** * The ext4 file system ([src/src/fs/ext4/ext4.c])

    A mounted volume with extents over the block layer. The structures of the disk
    are lists of bytes; those that have the layout of ext2 (the superblock, the
    group descriptor, the inode up to its addresses, the entries of directories)
    are read with the fields of [Ext2.v]. An operation is a function on the state
    of the volume; [None] is an operation that never returns, the inner [None] is
    the result [-1]. Memory past the buffers and past the bytes of an inode is not
    modelled, nor is the division by zero of a volume without inodes per group. *)

From S2P Require Import Prelude CString Block BlockIo Path Uaccess Rng Vfs Ext2.

(** ** Structures of the disk *)

Definition x_flags (i : list Z) : Z := field 32 4 i.
Definition set_x_flags (v : Z) : list Z -> list Z := set_field 32 4 v.
Definition set_x_size_high (v : Z) : list Z -> list Z := set_field 108 4 v.
Definition inode_size_get (i : list Z) : Z := x_size i.

(** [in.block] and what follows it. *)
Definition node_of (i : list Z) : list Z := drop 40 i.

Definition EXT4_EXTENTS_FL : Z := 0x00080000.
Definition EXT4_EXT_MAGIC : Z := 0xF30A.

Definition EXT4_INCOMPAT_EXTENTS : Z := 0x0040.
Definition EXT4_INCOMPAT_FLEX_BG : Z := 0x0200.
Definition EXT4_RO_COMPAT_DIR_NLINK : Z := 0x0020.

Definition ext4_feature_set_supported (sb : list Z) : bool :=
  negb (flag (feature_incompat sb) (u32 (Z.lnot (Z.lor (Z.lor EXT4_INCOMPAT_FILETYPE EXT4_INCOMPAT_EXTENTS) EXT4_INCOMPAT_FLEX_BG)))) &&
  negb (flag (feature_ro_compat sb)
    (u32 (Z.lnot (Z.lor (Z.lor (Z.lor EXT4_RO_COMPAT_SPARSE_SUPER EXT4_RO_COMPAT_LARGE_FILE) EXT4_RO_COMPAT_BTREE_DIR)
                        EXT4_RO_COMPAT_DIR_NLINK)))).

Definition vfs_mode_from_ext (mode : Z) : Z :=
  let kind := Z.land mode 0xF000 in
  let perms := Z.land mode (oct 7777) in
  if kind =? 0x4000 then u16 (Z.lor VFS_INODE_DIR perms)
  else if kind =? 0x8000 then u16 (Z.lor VFS_INODE_FILE perms)
  else 0.

(** ** Extents *)

(** [ext4_extent_header_t] *)
Definition eh_magic (node : list Z) : Z := field 0 2 node.
Definition eh_entries (node : list Z) : Z := field 2 2 node.
Definition eh_max (node : list Z) : Z := field 4 2 node.
Definition eh_depth (node : list Z) : Z := field 6 2 node.

(** [ext4_extent_t] *)
Record extent := { ee_block : Z; ee_len : Z; ee_start_hi : Z; ee_start_lo : Z }.

Definition extent_at (node : list Z) (k : nat) : extent :=
  {| ee_block := field (12 + 12 * k) 4 node; ee_len := field (16 + 12 * k) 2 node;
     ee_start_hi := field (18 + 12 * k) 2 node; ee_start_lo := field (20 + 12 * k) 4 node |}.

(** [ext4_extent_idx_t] *)
Record extent_idx := { ei_block : Z; ei_leaf_lo : Z; ei_leaf_hi : Z }.

Definition idx_at (node : list Z) (k : nat) : extent_idx :=
  {| ei_block := field (12 + 12 * k) 4 node; ei_leaf_lo := field (16 + 12 * k) 4 node; ei_leaf_hi := field (20 + 12 * k) 2 node |}.

Definition extent_header_valid (node : list Z) : bool := (eh_magic node =? EXT4_EXT_MAGIC) && (eh_entries node <=? eh_max node).
Definition extent_start_phys (e : extent) : Z := u32 (Z.lor (Z.shiftl (ee_start_hi e) 32) (ee_start_lo e)).
Definition idx_leaf_phys (e : extent_idx) : Z := u32 (Z.lor (Z.shiftl (ei_leaf_hi e) 32) (ei_leaf_lo e)).

Definition extents (node : list Z) : list extent := map (extent_at node) (seq 0 (Z.to_nat (eh_entries node))).
Definition indices (node : list Z) : list extent_idx := map (idx_at node) (seq 0 (Z.to_nat (eh_entries node))).

Definition extent_len (e : extent) : Z := Z.land (ee_len e) 0x7FFF.

Definition covers (lblock : Z) (e : extent) : bool :=
  negb (extent_len e =? 0) && (ee_block e <=? lblock) && (lblock <? u32 (ee_block e + extent_len e)).

(** The block that a leaf gives. *)
Definition leaf_find (node : list Z) (lblock : Z) : option Z :=
  match List.find (covers lblock) (extents node) with
  | Some e => Some (u32 (extent_start_phys e + (lblock - ee_block e)))
  | None => None
  end.

(** How many entries the loop over the indices passes. *)
Fixpoint passed (lblock : Z) (l : list extent_idx) : nat :=
  match l with
  | [] => 0
  | e :: l => if ei_block e <=? lblock then S (passed lblock l) else 0
  end.

Definition pick_index (node : list Z) (lblock : Z) : option extent_idx := indices node !! Nat.pred (passed lblock (indices node)).

(** [memset] and the header of a tree without extents, four of which fit. *)
Definition extent_init_inode (i : list Z) : list Z :=
  set_x_flags (Z.lor (x_flags i) EXT4_EXTENTS_FL)
    (list_inserts 40 (le_bytes 2 EXT4_EXT_MAGIC ++ le_bytes 2 0 ++ le_bytes 2 4 ++ le_bytes 2 0 ++ le_bytes 4 0 ++ replicate 48 0) i).

(** The extent of [lblock], or one that [lblock] and [pblock] continue. *)
Definition extends (lblock pblock : Z) (e : extent) : bool :=
  negb (extent_len e =? 0) && (lblock =? u32 (ee_block e + extent_len e)) && (pblock =? u32 (extent_start_phys e + extent_len e)) &&
  (extent_len e <? 0x7FFF).

Definition extent_map_insert_local (i : list Z) (lblock pblock : Z) : option (list Z) :=
  let node := node_of i in
  if negb (extent_header_valid node) || negb (eh_depth node =? 0) then None
  else
    match list_find (fun e => covers lblock e || extends lblock pblock e) (extents node) with
    | Some (k, e) =>
        if covers lblock e then Some i else Some (set_field (56 + 12 * k) 2 (extent_len e + 1) i)
    | None =>
        if eh_max node <=? eh_entries node then None
        else
          let k := Z.to_nat (eh_entries node) in
          Some (list_inserts (52 + 12 * k) (le_bytes 4 lblock ++ le_bytes 2 1 ++ le_bytes 2 0 ++ le_bytes 4 pblock)
                  (set_field 42 2 (eh_entries node + 1) i))
    end.

(** ** The volume *)

(** [ext4_fs_t] *)
Record ext4_fs := {
  bdev : block_device; fs_sb : list Z; fs_bg : list Z; block_size : Z; desc_size : Z; meta_dirty : bool;
  next_free_block_hint : Z; next_free_inode_hint : Z;
  bitmap_cache_block : Z; bitmap_cache_valid : bool; bitmap_cache_dirty : bool; bitmap_cache : list Z
}.

Section ext4.
Context {D : Type} `{!driver D}.

Record e4 := { fs : ext4_fs; disk : D; g_io : list Z; g_blk : list Z }.

(** An operation on the volume. *)
Definition fsm (A : Type) : Type := e4 -> option (e4 * option A).

#[export] Instance fsm_ret : MRet fsm := fun A x s => Some (s, Some x).
#[export] Instance fsm_bind : MBind fsm := fun A B f m s =>
  match m s with
  | None => None
  | Some (s, None) => Some (s, None)
  | Some (s, Some x) => f x s
  end.

Definition fail {A} : fsm A := fun s => Some (s, None).
Definition never {A} : fsm A := fun _ => None.
Definition gets {A} (f : ext4_fs -> A) : fsm A := fun s => Some (s, Some (f (fs s))).
Definition modify (f : e4 -> e4) : fsm unit := fun s => Some (f s, Some tt).
Definition get_io : fsm (list Z) := fun s => Some (s, Some (g_io s)).
Definition get_blk : fsm (list Z) := fun s => Some (s, Some (g_blk s)).

(** The result of an operation that may fail. *)
Definition attempt {A} (m : fsm A) : fsm (option A) := fun s =>
  match m s with None => None | Some (s, o) => Some (s, Some o) end.

Definition set_fs (f : ext4_fs) s : e4 := {| fs := f; disk := disk s; g_io := g_io s; g_blk := g_blk s |}.
Definition set_disk (d : D) s : e4 := {| fs := fs s; disk := d; g_io := g_io s; g_blk := g_blk s |}.
Definition set_io (l : list Z) s : e4 := {| fs := fs s; disk := disk s; g_io := l; g_blk := g_blk s |}.
Definition set_blk (l : list Z) s : e4 := {| fs := fs s; disk := disk s; g_io := g_io s; g_blk := l |}.
Definition io_put (off : Z) (l : list Z) s : e4 := set_io (list_inserts (Z.to_nat off) l (g_io s)) s.

Definition with_cache (blk : Z) (valid dirty : bool) (l : list Z) (f : ext4_fs) : ext4_fs :=
  {| bdev := bdev f; fs_sb := fs_sb f; fs_bg := fs_bg f; block_size := block_size f; desc_size := desc_size f;
     meta_dirty := meta_dirty f; next_free_block_hint := next_free_block_hint f; next_free_inode_hint := next_free_inode_hint f;
     bitmap_cache_block := blk; bitmap_cache_valid := valid; bitmap_cache_dirty := dirty; bitmap_cache := l |}.
Definition with_meta (dirty : bool) (f : ext4_fs) : ext4_fs :=
  {| bdev := bdev f; fs_sb := fs_sb f; fs_bg := fs_bg f; block_size := block_size f; desc_size := desc_size f;
     meta_dirty := dirty; next_free_block_hint := next_free_block_hint f; next_free_inode_hint := next_free_inode_hint f;
     bitmap_cache_block := bitmap_cache_block f; bitmap_cache_valid := bitmap_cache_valid f;
     bitmap_cache_dirty := bitmap_cache_dirty f; bitmap_cache := bitmap_cache f |}.

(** Sectors into a buffer and from one. *)
Definition load_sectors (lba cnt : Z) (buf : list Z) : e4 -> e4 * list Z * bool := fun s =>
  let '(d, l, ok) := read_sectors (bdev (fs s)) lba cnt buf (disk s) in (set_disk d s, l, ok).
Definition load_io (lba cnt : Z) : fsm unit := fun s =>
  let '(s, l, ok) := load_sectors lba cnt (g_io s) s in Some (set_io l s, if ok then Some tt else None).
Definition store (lba cnt : Z) (buf : list Z) : fsm unit := fun s =>
  let '(d, ok) := write_sectors (bdev (fs s)) lba cnt buf (disk s) in Some (set_disk d s, if ok then Some tt else None).

(** The sectors of a block, none when there is no whole sector in it. *)
Definition block_sectors (f : ext4_fs) : Z :=
  if sector_size (bdev f) =? 0 then 0 else block_size f / sector_size (bdev f).

(** A block into [g_io], [g_blk] and the bitmap cache. *)
Definition read_block (blk : Z) : fsm unit :=
  cnt ← gets block_sectors; if cnt =? 0 then fail else load_io (u32 (blk * cnt)) cnt.
Definition read_blk (blk : Z) : fsm unit :=
  cnt ← gets block_sectors;
  if cnt =? 0 then fail
  else fun s => let '(s, l, ok) := load_sectors (u32 (blk * cnt)) cnt (g_blk s) s in Some (set_blk l s, if ok then Some tt else None).
Definition read_cache (blk : Z) : fsm unit :=
  cnt ← gets block_sectors;
  if cnt =? 0 then fail
  else fun s =>
    let '(s, l, ok) := load_sectors (u32 (blk * cnt)) cnt (bitmap_cache (fs s)) s in
    let f := fs s in
    Some (set_fs (with_cache (bitmap_cache_block f) (bitmap_cache_valid f) (bitmap_cache_dirty f) l f) s, if ok then Some tt else None).

Definition write_block (blk : Z) (buf : list Z) : fsm unit :=
  cnt ← gets block_sectors; if cnt =? 0 then fail else store (u32 (blk * cnt)) cnt buf.
Definition write_io (blk : Z) : fsm unit := io ← get_io; write_block blk io.

Definition sync_super_bg : fsm unit :=
  load_io 2 2;;
  modify (fun s => io_put 0 (fs_sb (fs s)) s);;
  io ← get_io;
  store 2 2 io;;
  b ← gets (fun f => u32 (first_data_block (fs_sb f) + 1));
  read_block b;;
  modify (fun s => io_put 0 (fs_bg (fs s)) s);;
  write_io b.

(** ** The bitmap cache *)

Definition bitmap_cache_flush : fsm unit :=
  f ← gets id;
  if negb (bitmap_cache_valid f && bitmap_cache_dirty f) then mret tt
  else
    write_block (bitmap_cache_block f) (bitmap_cache f);;
    modify (fun s => set_fs (with_cache (bitmap_cache_block f) true false (bitmap_cache f) (fs s)) s).

Definition bitmap_cache_load (bitmap_block : Z) : fsm unit :=
  f ← gets id;
  if 4096 <? block_size f then fail
  else if bitmap_cache_valid f && (bitmap_cache_block f =? bitmap_block) then mret tt
  else
    bitmap_cache_flush;;
    read_cache bitmap_block;;
    modify (fun s => set_fs (with_cache bitmap_block true false (bitmap_cache (fs s)) (fs s)) s).

Definition sync_super_bg_if_dirty : fsm unit :=
  bitmap_cache_flush;;
  f ← gets id;
  if negb (meta_dirty f) then mret tt
  else
    sync_super_bg;;
    modify (fun s => set_fs (with_meta false (fs s)) s).

(** Bit [n] of the search from the hint. *)
Definition turn (start max n : Z) : Z := let i := u32 (start + n) in if max <=? i then i - max else i.

Definition count_taken (is_inode : bool) (i max : Z) (f : ext4_fs) : ext4_fs :=
  let hint := if max <=? i + 1 then 0 else i + 1 in
  {| bdev := bdev f; block_size := block_size f; desc_size := desc_size f; meta_dirty := true;
     fs_sb := if is_inode then dec_field 16 4 (fs_sb f) else dec_field 12 4 (fs_sb f);
     fs_bg := if is_inode then dec_field 14 2 (fs_bg f) else dec_field 12 2 (fs_bg f);
     next_free_block_hint := if is_inode then next_free_block_hint f else hint;
     next_free_inode_hint := if is_inode then hint else next_free_inode_hint f;
     bitmap_cache_block := bitmap_cache_block f; bitmap_cache_valid := bitmap_cache_valid f; bitmap_cache_dirty := true;
     bitmap_cache := set_bit i (bitmap_cache f) |}.

(** A result that is negative as an [int] is a failure for every caller. *)
Definition alloc_from_bitmap (bitmap_block max : Z) (is_inode : bool) : fsm Z :=
  bitmap_cache_load bitmap_block;;
  f ← gets id;
  let hint := if is_inode then next_free_inode_hint f else next_free_block_hint f in
  let start := if hint <? max then hint else 0 in
  let n := scan (fun n => negb (bit_of (bitmap_cache f) (turn start max n))) 0 (Z.to_nat max) in
  if n <? 0 then fail
  else
    let i := turn start max n in
    modify (fun s => set_fs (count_taken is_inode i max (fs s)) s);;
    let r := i32 (i + if is_inode then 1 else 0) in
    if r <? 0 then fail else mret r.

Definition alloc_block : fsm Z :=
  f ← gets id; alloc_from_bitmap (block_bitmap (fs_bg f)) (blocks_per_group (fs_sb f)) false.
Definition alloc_inode : fsm Z :=
  f ← gets id; alloc_from_bitmap (inode_bitmap (fs_bg f)) (inodes_per_group (fs_sb f)) true.

(** ** Inodes *)

Definition read_bgdesc (group : Z) : fsm (list Z) :=
  f ← gets id;
  let per_block := block_size f / desc_size f in
  if per_block =? 0 then fail
  else
    read_block (u32 (first_data_block (fs_sb f) + 1 + group / per_block));;
    let off := u32 (group mod per_block * desc_size f) in
    if block_size f <? off + Z.of_nat EXT2_BGDESC_SIZE then fail
    else io ← get_io; mret (take EXT2_BGDESC_SIZE (drop (Z.to_nat off) io)).

(** The block and the offset of an inode. *)
Definition inode_place (ino : Z) : fsm (Z * Z) :=
  f ← gets id;
  if (ino =? 0) || (inodes_count (fs_sb f) <? ino) then fail
  else
    let idx := ino - 1 in
    bg ← read_bgdesc (idx / inodes_per_group (fs_sb f));
    let off := u32 (idx mod inodes_per_group (fs_sb f) * inode_size (fs_sb f)) in
    let boff := off mod block_size f in
    if block_size f <? boff + Z.of_nat EXT2_INODE_SIZE then fail
    else mret (u32 (inode_table bg + off / block_size f), boff).

Definition read_inode (ino : Z) : fsm (list Z) :=
  p ← inode_place ino;
  read_block p.1;;
  io ← get_io;
  mret (take EXT2_INODE_SIZE (drop (Z.to_nat p.2) io)).

Definition write_inode (ino : Z) (i : list Z) : fsm unit :=
  p ← inode_place ino;
  read_block p.1;;
  modify (io_put p.2 i);;
  write_io p.1.

(** ** The map of a file *)

(** The descent has no bound of its own; the depths of a tree are 16-bit numbers
    that decrease. *)
Definition EXTENT_FUEL : nat := Z.to_nat 65536.

Fixpoint extent_find_phys_from_node (n : nat) (node : list Z) (lblock : Z) : fsm Z :=
  if negb (extent_header_valid node) then fail
  else if eh_depth node =? 0 then
    match leaf_find node lblock with Some p => mret p | None => fail end
  else
    match pick_index node lblock with
    | None => fail
    | Some e =>
        read_blk (idx_leaf_phys e);;
        node ← get_blk;
        match n with
        | O => never
        | S n => extent_find_phys_from_node n node lblock
        end
    end.

Definition extent_find_phys (i : list Z) (lblock : Z) : fsm Z := extent_find_phys_from_node EXTENT_FUEL (node_of i) lblock.

Definition legacy_find_phys (i : list Z) (lblock : Z) : fsm Z :=
  if lblock <? 12 then
    if x_block (Z.to_nat lblock) i =? 0 then fail else mret (x_block (Z.to_nat lblock) i)
  else
    let lblock := lblock - 12 in
    if x_block 12 i =? 0 then fail
    else
      read_block (x_block 12 i);;
      f ← gets id;
      io ← get_io;
      if block_size f / 4 <=? lblock then fail
      else if word_at lblock io =? 0 then fail
      else mret (word_at lblock io).

Definition map_find_phys (i : list Z) (lblock : Z) : fsm Z :=
  if flag (x_flags i) EXT4_EXTENTS_FL then extent_find_phys i lblock else legacy_find_phys i lblock.

(** The new inode and the block. *)
Definition extent_map_create (i : list Z) (lblock : Z) : fsm (list Z * Z) :=
  o ← attempt (extent_find_phys i lblock);
  match o with
  | Some p => mret (i, p)
  | None =>
      nb ← alloc_block;
      match extent_map_insert_local i lblock nb with
      | None => fail
      | Some i => mret (i, nb)
      end
  end.

Definition legacy_map_create (i : list Z) (lblock : Z) : fsm (list Z * Z) :=
  o ← attempt (legacy_find_phys i lblock);
  match o with
  | Some p => mret (i, p)
  | None =>
      nb ← alloc_block;
      if lblock <? 12 then mret (set_x_block (Z.to_nat lblock) nb i, nb)
      else
        let lblock := lblock - 12 in
        bs ← gets block_size;
        if bs / 4 <=? lblock then fail
        else
          i ← (if negb (x_block 12 i =? 0) then mret i
               else
                 ib ← alloc_block;
                 let i := set_x_block 12 ib i in
                 modify (io_put 0 (replicate (Z.to_nat bs) 0));;
                 write_io (x_block 12 i);;
                 mret i);
          read_block (x_block 12 i);;
          modify (io_put (4 * lblock) (le_bytes 4 nb));;
          write_io (x_block 12 i);;
          mret (i, nb)
  end.

Definition map_create_phys (i : list Z) (lblock : Z) : fsm (list Z * Z) :=
  if flag (x_flags i) EXT4_EXTENTS_FL then extent_map_create i lblock else legacy_map_create i lblock.

(** ** Contents of files *)

(** The bytes read, [out] so far; a turn reads a byte at least, [n] bounds the
    turns. *)
Fixpoint file_read_loop (n : nat) (i : list Z) (off len : Z) (out : list Z) : fsm (list Z) :=
  let done := zlength out in
  if len <=? done then mret out
  else
    match n with
    | O => mret out
    | S n =>
        bs ← gets block_size;
        let pos := u32 (off + done) in
        let lbi := pos / bs in
        let bo := pos mod bs in
        let k := bs - bo in
        let k := if len - done <? k then len - done else k in
        o ← attempt (map_find_phys i lbi);
        if default 0 o =? 0 then file_read_loop n i off len (out ++ replicate (Z.to_nat k) 0)
        else
          r ← attempt (read_block (default 0 o));
          match r with
          | None => mret out
          | Some _ => io ← get_io; file_read_loop n i off len (out ++ take (Z.to_nat k) (drop (Z.to_nat bo) io))
          end
    end.

Definition ext4_read (inode : vfs_inode) (off len : Z) : fsm (Z * list Z) :=
  i ← read_inode (i_ino inode);
  let size := inode_size_get i in
  if size <=? off then mret (0, [])
  else
    let len := if size <? u32 (off + len) then size - off else len in
    out ← file_read_loop (Z.to_nat len) i off len [];
    mret (i32 (zlength out), out).

(** Blocks for a run of whole blocks that follow one another on the disk: the new
    inode, how many there are and the first. *)
Fixpoint map_run (n : nat) (i : list Z) (lbi run first prev : Z) : fsm (list Z * Z * Z) :=
  match n with
  | O => mret (i, run, first)
  | S n =>
      o ← attempt (map_create_phys i (u32 (lbi + run)));
      match o with
      | None => mret (i, run, first)
      | Some (i, p) =>
          if run =? 0 then map_run n i lbi 1 p p
          else if negb (p =? u32 (prev + 1)) then mret (i, run, first)
          else map_run n i lbi (run + 1) first p
      end
  end.

(** The fast path: the new inode and the number of blocks written. *)
Definition write_run (i : list Z) (lbi : Z) (rest : list Z) : fsm (list Z * Z) :=
  f ← gets id;
  let sectors_per_block := block_sectors f in
  let max_blocks := zlength rest / block_size f in
  let max_blocks := if 256 <? max_blocks then 256 else max_blocks in
  '(i, run, first) ← map_run (Z.to_nat max_blocks) i lbi 0 0 0;
  if 0 <? run then
    r ← attempt (store (u32 (first * sectors_per_block)) (u32 (run * sectors_per_block)) rest);
    mret (i, match r with Some _ => run | None => 0 end)
  else mret (i, 0).

(** One piece of a block; false is a [break]. *)
Definition write_piece (i : list Z) (lbi bo : Z) (piece : list Z) : fsm (list Z * bool) :=
  o ← attempt (map_create_phys i lbi);
  match o with
  | None => mret (i, false)
  | Some (i, p) =>
      bs ← gets block_size;
      r ← attempt (if negb ((bo =? 0) && (zlength piece =? bs)) then read_block p;; modify (io_put bo piece);; write_io p
                   else write_block p piece);
      mret (i, match r with Some _ => true | None => false end)
  end.

(** The inode and the number of bytes written. *)
Fixpoint file_write_loop (n : nat) (i : list Z) (off done : Z) (src : list Z) : fsm (list Z * Z) :=
  let len := zlength src in
  if len <=? done then mret (i, done)
  else
    match n with
    | O => mret (i, done)
    | S n =>
        bs ← gets block_size;
        let pos := u32 (off + done) in
        let lbi := pos / bs in
        let bo := pos mod bs in
        let k := bs - bo in
        let k := if len - done <? k then len - done else k in
        '(i, run) ← (if (bo =? 0) && (k =? bs) then write_run i lbi (drop (Z.to_nat done) src) else mret (i, 0));
        if 0 <? run then file_write_loop n i off (done + run * bs) src
        else
          '(i, ok) ← write_piece i lbi bo (take (Z.to_nat k) (drop (Z.to_nat done) src));
          if ok : bool then file_write_loop n i off (done + k) src else mret (i, done)
    end.

Definition set_size (size : Z) (i : list Z) : list Z := set_x_size_high 0 (set_x_size size i).

Definition ext4_write (inode : vfs_inode) (off : Z) (src : list Z) : fsm (vfs_inode * Z) :=
  i ← read_inode (i_ino inode);
  let i := if flag (x_flags i) EXT4_EXTENTS_FL then i else extent_init_inode i in
  cnt ← gets block_sectors;
  if cnt =? 0 then fail
  else
    '(i, done) ← file_write_loop (length src) i off 0 src;
    let i := if inode_size_get i <? u32 (off + done) then set_size (u32 (off + done)) i else i in
    let i := set_x_blocks (u32 (x_size i + 511) / 512) i in
    write_inode (i_ino inode) i;;
    sync_super_bg_if_dirty;;
    mret (set_i_size (x_size i) inode, i32 done).

(** ** Directories *)

Definition dir_blocks (i : list Z) (bs : Z) : list Z := seqZ 0 (u32 (inode_size_get i + bs - 1) / bs).

(** The first entry that satisfies [p] of the block in the buffer, over the
    blocks of a directory that are mapped and can be read. *)
Fixpoint find_entry (p : Z * dirent -> list Z -> bool) (i : list Z) (bis : list Z) : fsm (option (Z * (Z * dirent))) :=
  match bis with
  | [] => mret None
  | bi :: bis =>
      o ← attempt (pblk ← map_find_phys i bi; read_block pblk;; mret pblk);
      match o with
      | None => find_entry p i bis
      | Some pblk =>
          bs ← gets block_size;
          io ← get_io;
          match List.find (fun x => p x io) (dirents (Z.to_nat bs) io bs 0) with
          | Some x => mret (Some (pblk, x))
          | None => find_entry p i bis
          end
      end
  end.

(** What [ext4_lookup] and [ext4_readdir] put in the inode of the caller. *)
Definition fill_found (ino : Z) (out : vfs_inode) : fsm vfs_inode :=
  i ← read_inode ino;
  let mode := vfs_mode_from_ext (x_mode i) in
  if mode =? 0 then fail
  else mret {| i_ino := ino; i_mode := mode; i_uid := x_uid i; i_gid := x_gid i; i_size := inode_size_get i;
               i_private := i_private out |}.

Definition by_name (nm : path) (x : Z * dirent) (io : list Z) : bool := named x && test (entry_name io x = nm).

(** The look at a directory in which "init" is searched is for a message. *)
Definition ext4_lookup (dir : vfs_inode) (nm : path) (out : vfs_inode) : fsm vfs_inode :=
  dino ← read_inode (i_ino dir);
  attempt (if test (nm = str "init") then map_find_phys dino 0 else mret 0);;
  bs ← gets block_size;
  o ← find_entry (by_name nm) dino (dir_blocks dino bs);
  match o with
  | None => fail
  | Some (_, (_, de)) => fill_found (de_inode de) out
  end.

(** The entry with [idx] others before it, in the block in the buffer. *)
Fixpoint nth_entry (idx : Z) (i : list Z) (bis : list Z) : fsm (Z * dirent) :=
  match bis with
  | [] => fail
  | bi :: bis =>
      o ← attempt (pblk ← map_find_phys i bi; read_block pblk);
      match o with
      | None => nth_entry idx i bis
      | Some _ =>
          bs ← gets block_size;
          io ← get_io;
          let l := filter named (dirents (Z.to_nat bs) io bs 0) in
          match l !! Z.to_nat idx with
          | Some x => mret x
          | None => nth_entry (idx - zlength l) i bis
          end
      end
  end.

Definition ext4_readdir (dir : vfs_inode) (idx : Z) (out : vfs_inode) : fsm (path * vfs_inode) :=
  dino ← read_inode (i_ino dir);
  bs ← gets block_size;
  x ← nth_entry idx dino (dir_blocks dino bs);
  io ← get_io;
  i ← fill_found (de_inode x.2) out;
  mret (entry_name io x, i).

(** The new inode of the directory. *)
Definition dir_insert (dino : list Z) (dir_ino child_ino : Z) (nm : path) (is_dir : bool) : fsm (list Z) :=
  let need := rec_len_min (u8 (u16 (zlength nm))) in
  let kind := if is_dir then 2 else 1 in
  bs ← gets block_size;
  o ← find_entry (fun x _ => (de_inode x.2 =? 0) && (need <=? rec_len x.2)) dino (dir_blocks dino bs);
  match o with
  | Some (pblk, (off, de)) =>
      modify (io_put off (replicate (Z.to_nat (rec_len de)) 0));;
      modify (io_put off (entry_bytes child_ino (rec_len de) kind nm));;
      write_io pblk;;
      write_inode dir_ino dino;;
      mret dino
  | None =>
      '(dino, pblk) ← map_create_phys dino (u32 (inode_size_get dino + bs - 1) / bs);
      modify (io_put 0 (replicate (Z.to_nat bs) 0));;
      modify (io_put 0 (entry_bytes child_ino (u16 bs) kind nm));;
      write_io pblk;;
      let dino := set_size (u32 (inode_size_get dino + bs)) dino in
      let dino := set_x_blocks (u32 (x_size dino + 511) / 512) dino in
      write_inode dir_ino dino;;
      mret dino
  end.

(** The first block of a new directory. *)
Definition make_dots (nino parent : Z) (ni : list Z) : fsm (list Z) :=
  nb ← alloc_block;
  match extent_map_insert_local ni 0 nb with
  | None => fail
  | Some ni =>
      bs ← gets block_size;
      modify (io_put 0 (replicate (Z.to_nat bs) 0));;
      let dot_len := rec_len_min 1 in
      modify (io_put 0 (entry_bytes nino dot_len 2 dot));;
      modify (io_put dot_len (entry_bytes parent (u16 (bs - dot_len)) 2 dotdot));;
      write_io nb;;
      mret (set_x_blocks (bs / 512) (set_size bs ni))
  end.

(** [euid] and [egid] are those of the calling process. *)
Definition ext4_create_like (euid egid : Z) (dir : vfs_inode) (nm : path) (mode : Z) (is_dir : bool) : fsm vfs_inode :=
  if test (nm = []) || (VFS_NAME_MAX <=? zlength nm) then fail
  else
    dino ← read_inode (i_ino dir);
    o ← attempt (ext4_lookup dir nm zero_inode);
    match o with
    | Some _ => fail
    | None =>
        nino ← alloc_inode;
        let ni := set_x_mode (u16 (Z.lor (if is_dir then 0x4000 else 0x8000) (Z.land mode (oct 777)))) zero_x_inode in
        let ni := set_x_links (if is_dir then 2 else 1) (set_x_gid (u16 egid) (set_x_uid (u16 euid) ni)) in
        let ni := extent_init_inode (set_x_flags EXT4_EXTENTS_FL ni) in
        ni ← (if is_dir then make_dots nino (i_ino dir) ni else mret ni);
        let dino := if is_dir then set_x_links (u16 (x_links dino + 1)) dino else dino in
        write_inode nino ni;;
        dino ← dir_insert dino (i_ino dir) nino nm is_dir;
        (if is_dir then write_inode (i_ino dir) dino else mret tt);;
        sync_super_bg_if_dirty;;
        mret {| i_ino := nino; i_mode := mode; i_uid := x_uid ni; i_gid := x_gid ni; i_size := inode_size_get ni;
                i_private := i_private zero_inode |}
    end.

Definition ext4_create (euid egid : Z) dir nm mode := ext4_create_like euid egid dir nm mode false.
Definition ext4_mkdir (euid egid : Z) dir nm mode := ext4_create_like euid egid dir nm mode true.

Definition ext4_unlink (dir : vfs_inode) (nm : path) : fsm unit :=
  dino ← read_inode (i_ino dir);
  bs ← gets block_size;
  o ← find_entry (by_name nm) dino (dir_blocks dino bs);
  match o with
  | None => fail
  | Some (pblk, (off, _)) => modify (io_put off (le_bytes 4 0));; write_io pblk
  end.

(** ** The rest *)

Definition ext4_statfs (f : ext4_fs) : Z * Z :=
  let total_bytes := u64 (blocks_count (fs_sb f) * block_size f) in
  let free_bytes := u64 (sb_free_blocks_count (fs_sb f) * block_size f) in
  let used_bytes := if free_bytes <? total_bytes then total_bytes - free_bytes else 0 in
  (u32 (total_bytes / 1024), u32 (used_bytes / 1024)).

Definition ext4_setattr (inode : vfs_inode) (mode uid gid mask : Z) : fsm unit :=
  i ← read_inode (i_ino inode);
  let i := if flag mask 1 then set_x_mode (u16 (Z.lor (Z.land (x_mode i) 0xF000) (Z.land mode (oct 7777)))) i else i in
  let i := if flag mask 2 then set_x_uid uid i else i in
  let i := if flag mask 4 then set_x_gid gid i else i in
  write_inode (i_ino inode) i;;
  sync_super_bg_if_dirty.

(** The fields of a volume that the mount sets one after the other. *)
Definition with_super (sb : list Z) (bs : Z) (f : ext4_fs) : ext4_fs :=
  {| bdev := bdev f; fs_sb := sb; fs_bg := fs_bg f; block_size := bs; desc_size := 32;
     meta_dirty := meta_dirty f; next_free_block_hint := next_free_block_hint f; next_free_inode_hint := next_free_inode_hint f;
     bitmap_cache_block := 0; bitmap_cache_valid := false; bitmap_cache_dirty := false; bitmap_cache := bitmap_cache f |}.
Definition with_group (bg : list Z) (f : ext4_fs) : ext4_fs :=
  {| bdev := bdev f; fs_sb := fs_sb f; fs_bg := bg; block_size := block_size f; desc_size := desc_size f;
     meta_dirty := meta_dirty f; next_free_block_hint := next_free_block_hint f; next_free_inode_hint := next_free_inode_hint f;
     bitmap_cache_block := bitmap_cache_block f; bitmap_cache_valid := bitmap_cache_valid f;
     bitmap_cache_dirty := bitmap_cache_dirty f; bitmap_cache := bitmap_cache f |}.

Definition zero_fs (b : block_device) : ext4_fs :=
  {| bdev := b; fs_sb := replicate EXT2_SUPER_SIZE 0; fs_bg := replicate EXT2_BGDESC_SIZE 0; block_size := 0; desc_size := 0;
     meta_dirty := false; next_free_block_hint := 0; next_free_inode_hint := 0;
     bitmap_cache_block := 0; bitmap_cache_valid := false; bitmap_cache_dirty := false; bitmap_cache := replicate 4096 0 |}.

(** The volume of a device up to its root inode: the inode and its mode. *)
Definition open_volume : fsm (list Z * Z) :=
  load_io 2 2;;
  io ← get_io;
  let sb := take EXT2_SUPER_SIZE io in
  let bs := u32 (Z.shiftl 1024 (log_block_size sb mod 32)) in
  if negb (magic sb =? 0xEF53) then fail
  else if negb (ext4_feature_set_supported sb) then fail
  else
    modify (fun s => set_fs (with_super sb bs (fs s)) s);;
    if (bs =? 0) || (4096 <? bs) then fail
    else
      read_block (u32 (first_data_block sb + 1));;
      io ← get_io;
      modify (fun s => set_fs (with_group (take EXT2_BGDESC_SIZE io) (fs s)) s);;
      root ← read_inode 2;
      let mode := vfs_mode_from_ext (x_mode root) in
      if (mode =? 0) || negb (Z.land mode 0xF000 =? VFS_INODE_DIR) then fail else mret (root, mode).
End ext4.

Arguments e4 : clear implicits.
Arguments fsm : clear implicits.
