(* ===== verification/Ext4Tree.v ===== *)
(** * Extents of a file of an ext4 volume

    The extents in an inode as a map from the blocks of the file to the blocks of
    the disk: what the search finds and what the insertion of a block does to it. *)

From stdpp Require Import gmap.
From S2P Require Import Prelude CString Block BlockIo Path Uaccess Rng Vfs Ext2 Ext2Inv Ext4.

(** ** Fields of the inode *)

Lemma field_drop k off n l : field off n (drop k l) = field (k + off) n l.
Proof. unfold field. by rewrite drop_drop. Qed.

Lemma extent_at_node i k :
  extent_at (node_of i) k =
    {| ee_block := field (52 + 12 * k) 4 i; ee_len := field (56 + 12 * k) 2 i; ee_start_hi := field (58 + 12 * k) 2 i; ee_start_lo := field (60 + 12 * k) 4 i |}.
Proof. unfold extent_at, node_of. rewrite !field_drop. done. Qed.

Lemma start_phys e : 0 <= ee_start_lo e < 2 ^ 32 -> extent_start_phys e = ee_start_lo e.
Proof.
  intros H. unfold extent_start_phys, u32. rewrite <- Z.land_ones by lia. apply Z.bits_inj'. intros n Hn.
  rewrite Z.land_spec, Z.lor_spec, Z.shiftl_spec, Z.testbit_ones_nonneg by lia. destruct (Z.ltb_spec n 32).
  - rewrite Z.testbit_neg_r by lia. by rewrite andb_true_r.
  - rewrite andb_false_r. symmetry. apply Z.bits_above_log2; [lia|]. destruct (decide (ee_start_lo e = 0)) as [->|]; [change (Z.log2 0) with 0; lia|].
    apply Z.log2_lt_pow2; [lia|]. pose proof (Z.pow_le_mono_r 2 32 n). lia.
Qed.

Lemma extent_len_range e : 0 <= ee_len e -> 0 <= extent_len e < 2 ^ 15.
Proof. intros H. unfold extent_len. change 0x7FFF with (Z.ones 15). rewrite Z.land_ones by lia. apply Z.mod_pos_bound. lia. Qed.

(** ** The map of a list of extents *)

Definition lookup_extents (xs : list extent) (l : Z) : option Z :=
  match List.find (covers l) xs with Some e => Some (u32 (extent_start_phys e + (l - ee_block e))) | None => None end.

Definition extent_ok (e : extent) : Prop := 0 <= ee_block e /\ 0 <= ee_len e /\ ee_block e + extent_len e < 2 ^ 32.

Definition longer (e : extent) : extent :=
  {| ee_block := ee_block e; ee_len := extent_len e + 1; ee_start_hi := ee_start_hi e; ee_start_lo := ee_start_lo e |}.

Lemma len_small n : 0 <= n < 2 ^ 15 -> Z.land n 0x7FFF = n.
Proof. intros H. change 0x7FFF with (Z.ones 15). rewrite Z.land_ones by lia. by apply Z.mod_small. Qed.

Lemma covers_spec l e : extent_ok e -> covers l e = (ee_block e <=? l) && (l <? ee_block e + extent_len e).
Proof.
  intros (H1 & H2 & H3). pose proof (extent_len_range e H2) as Hl. unfold covers. rewrite u32_small by lia.
  destruct (Z.eqb_spec (extent_len e) 0), (Z.leb_spec (ee_block e) l), (Z.ltb_spec l (ee_block e + extent_len e)); cbn [negb andb]; done || lia.
Qed.

Lemma extends_spec l p e : extent_ok e -> extends l p e = true ->
  0 < extent_len e < 0x7FFF /\ l = ee_block e + extent_len e /\ p = u32 (extent_start_phys e + extent_len e).
Proof.
  intros (H1 & H2 & H3). pose proof (extent_len_range e H2) as Hl. unfold extends. rewrite (u32_small (ee_block e + extent_len e)) by lia.
  rewrite !andb_true_iff, negb_true_iff, Z.eqb_neq, !Z.eqb_eq, Z.ltb_lt. lia.
Qed.

Lemma longer_len e : 0 <= extent_len e < 0x7FFF -> extent_len (longer e) = extent_len e + 1.
Proof. intros H. unfold extent_len at 1, longer. cbn [ee_len]. by rewrite len_small by lia. Qed.

Lemma longer_ok e l p : extent_ok e -> extends l p e = true -> l + 1 < 2 ^ 32 -> extent_ok (longer e).
Proof.
  intros He Hx Hl. destruct (extends_spec l p e He Hx) as (H1 & H2 & _). destruct He as (H3 & _ & _). unfold extent_ok.
  rewrite longer_len by lia. cbn [ee_block ee_len longer]. lia.
Qed.

Lemma covers_longer l l0 p e :
  extent_ok e -> extends l0 p e = true -> l0 + 1 < 2 ^ 32 -> covers l (longer e) = (l =? l0) || covers l e.
Proof.
  intros He Hx Hl. pose proof (longer_ok e l0 p He Hx Hl) as He'. destruct (extends_spec l0 p e He Hx) as (H1 & H2 & _).
  rewrite !covers_spec by done. rewrite longer_len by lia. cbn [ee_block longer].
  destruct (Z.eqb_spec l l0), (Z.leb_spec (ee_block e) l), (Z.ltb_spec l (ee_block e + extent_len e)),
    (Z.ltb_spec l (ee_block e + (extent_len e + 1))); cbn [orb andb]; done || lia.
Qed.

(** The extent at [k] gets one block more. *)
Lemma lookup_longer xs k e l0 p l :
  xs !! k = Some e -> extent_ok e -> extends l0 p e = true -> l0 + 1 < 2 ^ 32 -> lookup_extents xs l0 = None ->
  lookup_extents (<[k := longer e]> xs) l = if l =? l0 then Some p else lookup_extents xs l.
Proof.
  intros Hk He Hx Hl. revert k Hk. unfold lookup_extents. induction xs as [|x xs IH]; intros k Hk; [done|]. cbn [List.find].
  destruct (covers l0 x) eqn:Hc; [done|]. intros Hn. destruct k as [|k].
  - injection Hk as ->. change (<[0%nat := longer e]> (e :: xs)) with (longer e :: xs). cbn [List.find].
    rewrite (covers_longer l l0 p) by done. destruct (extends_spec l0 p e He Hx) as (H1 & H2 & H3).
    destruct (Z.eqb_spec l l0) as [->|]; cbn [orb].
    + cbn [longer ee_block]. rewrite H3, H2. f_equal. f_equal. unfold extent_start_phys. cbn [longer ee_start_hi ee_start_lo]. lia.
    + by destruct (covers l e).
  - change (<[S k := longer e]> (x :: xs)) with (x :: <[k := longer e]> xs). cbn [List.find].
    destruct (covers l x) eqn:Hcl; [|by apply IH]. destruct (Z.eqb_spec l l0) as [->|]; [congruence | done].
Qed.

(** One extent more, of one block. *)
Lemma lookup_append xs l0 p l :
  0 <= l0 -> l0 + 1 < 2 ^ 32 -> 0 <= p < 2 ^ 32 -> lookup_extents xs l0 = None ->
  lookup_extents (xs ++ [{| ee_block := l0; ee_len := 1; ee_start_hi := 0; ee_start_lo := p |}]) l = if l =? l0 then Some p else lookup_extents xs l.
Proof.
  intros H0 Hl Hp. set (e := {| ee_block := l0; ee_len := 1; ee_start_hi := 0; ee_start_lo := p |}). unfold lookup_extents.
  assert (extent_ok e) as He by (unfold extent_ok, extent_len; cbn [e ee_block ee_len]; change (Z.land 1 0x7FFF) with 1; lia).
  induction xs as [|x xs IH]; cbn [app List.find].
  - intros _. rewrite covers_spec by done. change (extent_len e) with 1. cbn [e ee_block].
    destruct (Z.eqb_spec l l0) as [->|].
    + destruct (Z.leb_spec l0 l0), (Z.ltb_spec l0 (l0 + 1)); cbn [andb]; try lia. rewrite (start_phys e) by exact Hp. cbn [e ee_start_lo ee_block]. by rewrite Z.sub_diag, Z.add_0_r, u32_small.
    + destruct (Z.leb_spec l0 l), (Z.ltb_spec l (l0 + 1)); cbn [andb]; done || lia.
  - destruct (covers l0 x) eqn:Hc; [done|]. intros Hn. destruct (covers l x) eqn:Hcl; [|by apply IH].
    destruct (Z.eqb_spec l l0) as [->|]; [congruence | done].
Qed.

(** ** The map of an inode *)

(** An inode with its extents in it, four of which have room. *)
Record map_ok (i : list Z) : Prop := {
  m_len : length i = EXT2_INODE_SIZE; m_flag : flag (x_flags i) EXT4_EXTENTS_FL = true;
  m_valid : extent_header_valid (node_of i) = true; m_depth : eh_depth (node_of i) = 0; m_max : eh_max (node_of i) <= 4;
  m_extents : Forall extent_ok (extents (node_of i))
}.

Lemma leaf_find_eq node l : leaf_find node l = lookup_extents (extents node) l.
Proof. done. Qed.

Lemma extents_lookup node k : (k < Z.to_nat (eh_entries node))%nat -> extents node !! k = Some (extent_at node k).
Proof. intros Hk. unfold extents. change (map (extent_at node)) with (fmap (M := list) (extent_at node)). by rewrite list_lookup_fmap, lookup_seq_lt. Qed.

Lemma length_extents node : length (extents node) = Z.to_nat (eh_entries node).
Proof. unfold extents. by rewrite length_map, length_seq. Qed.

Lemma extents_eq node xs :
  length xs = Z.to_nat (eh_entries node) -> (forall k e, xs !! k = Some e -> extent_at node k = e) -> extents node = xs.
Proof.
  intros Hl H. apply list_eq. intros k. destruct (decide (k < Z.to_nat (eh_entries node))%nat) as [Hk|Hk].
  - rewrite extents_lookup by done. destruct (lookup_lt_is_Some_2 xs k ltac:(lia)) as [e He]. rewrite He. f_equal. by apply H.
  - rewrite !lookup_ge_None_2; [done | lia | rewrite length_extents; lia].
Qed.

Lemma entries_range node : 0 <= eh_entries node < 2 ^ 16.
Proof. apply (field_range 2 2). Qed.

Lemma map_entries i : map_ok i -> 0 <= eh_entries (node_of i) <= eh_max (node_of i).
Proof. intros [_ _ H _ _ _]. apply andb_true_iff in H as [_ H%Z.leb_le]. pose proof (entries_range (node_of i)). lia. Qed.

(** The parts of the inode that the map does not use. *)
Definition same_fields (i i' : list Z) : Prop :=
  length i' = length i /\ forall o n, (o + n <= 40)%nat -> field o n i' = field o n i.

Lemma map_ok_extents i xs i' :
  map_ok i -> same_fields i i' -> extents (node_of i') = xs -> Forall extent_ok xs ->
  eh_magic (node_of i') = eh_magic (node_of i) -> eh_max (node_of i') = eh_max (node_of i) -> eh_depth (node_of i') = eh_depth (node_of i) ->
  eh_entries (node_of i') <= eh_max (node_of i) -> map_ok i'.
Proof.
  intros [H1 H2 H3 H4 H5 H6] [Hl Hf] Ex Hx Em Ema Ed He. split; try congruence.
  - unfold x_flags in *. by rewrite Hf by lia.
  - unfold extent_header_valid in *. rewrite Em, Ema. apply andb_true_iff in H3 as [-> _]. by apply Z.leb_le in He as ->.
Qed.

Lemma insert_longer i k e l0 p :
  map_ok i -> extents (node_of i) !! k = Some e -> extends l0 p e = true -> l0 + 1 < 2 ^ 32 ->
  let i' := set_field (56 + 12 * k) 2 (extent_len e + 1) i in
  map_ok i' /\ same_fields i i' /\ extents (node_of i') = <[k := longer e]> (extents (node_of i)) /\
  eh_entries (node_of i') = eh_entries (node_of i).
Proof.
  intros Hm Hk Hx Hl i'. pose proof Hm as [H1 _ _ _ H5 H6]. pose proof (map_entries i Hm) as He. unfold EXT2_INODE_SIZE in H1.
  pose proof (lookup_lt_Some _ _ _ Hk) as Hlt. rewrite length_extents in Hlt.
  assert (extent_ok e) as Hok by (rewrite Forall_lookup in H6; by apply (H6 k)). destruct (extends_spec l0 p e Hok Hx) as (Hel & _ & _).
  assert (same_fields i i') as Hs by (split; [apply length_set_field | intros o n Hon; apply field_set_ne; lia]).
  assert (forall o n, (o + n <= 52)%nat -> field o n i' = field o n i) as Hh by (intros o n Hon; apply field_set_ne; lia).
  assert (eh_entries (node_of i') = eh_entries (node_of i)) as Een by (unfold eh_entries, node_of; rewrite !field_drop; by rewrite Hh by lia).
  assert (extents (node_of i') = <[k := longer e]> (extents (node_of i))) as Ex.
  { apply extents_eq; [by rewrite length_insert, length_extents, Een|]. intros j x Hj. rewrite extent_at_node.
    destruct (decide (j = k)) as [->|Hne].
    - rewrite list_lookup_insert_eq in Hj by (rewrite length_extents; lia). apply (inj Some) in Hj as <-.
      rewrite extents_lookup, extent_at_node in Hk by done. apply (inj Some) in Hk as <-. unfold longer. cbn [ee_block ee_len ee_start_hi ee_start_lo].
      unfold i'. rewrite (field_set_ne (52 + 12 * k)), (field_set_ne (58 + 12 * k)), (field_set_ne (60 + 12 * k)) by lia. rewrite field_set; [done | | lia]. change (256 ^ Z.of_nat 2) with (2 ^ 16). lia.
    - rewrite list_lookup_insert_ne in Hj by done. pose proof (lookup_lt_Some _ _ _ Hj) as Hjl. rewrite length_extents in Hjl.
      rewrite extents_lookup, extent_at_node in Hj by done. apply (inj Some) in Hj as <-. unfold i'.
      by rewrite (field_set_ne (52 + 12 * j)), (field_set_ne (56 + 12 * j)), (field_set_ne (58 + 12 * j)), (field_set_ne (60 + 12 * j)) by lia. }
  split; [|by split_all]. apply (map_ok_extents i _ i' Hm Hs Ex).
  - apply Forall_insert; [done|]. by apply (longer_ok e l0 p).
  - unfold eh_magic, node_of. rewrite !field_drop. apply Hh. lia.
  - unfold eh_max, node_of. rewrite !field_drop. apply Hh. lia.
  - unfold eh_depth, node_of. rewrite !field_drop. apply Hh. lia.
  - lia.
Qed.

Lemma insert_append i l0 p :
  map_ok i -> eh_entries (node_of i) < eh_max (node_of i) -> 0 <= l0 -> l0 + 1 < 2 ^ 32 -> 0 <= p < 2 ^ 32 ->
  let k := Z.to_nat (eh_entries (node_of i)) in
  let i' := list_inserts (52 + 12 * k) (le_bytes 4 l0 ++ le_bytes 2 1 ++ le_bytes 2 0 ++ le_bytes 4 p)
              (set_field 42 2 (eh_entries (node_of i) + 1) i) in
  map_ok i' /\ same_fields i i' /\
  extents (node_of i') = extents (node_of i) ++ [{| ee_block := l0; ee_len := 1; ee_start_hi := 0; ee_start_lo := p |}] /\
  eh_entries (node_of i') = eh_entries (node_of i) + 1.
Proof.
  intros Hm Hlt H0 Hl Hp k i'. pose proof Hm as [H1 _ _ _ H5 H6]. pose proof (map_entries i Hm) as He. unfold EXT2_INODE_SIZE in H1.
  set (c := le_bytes 4 l0 ++ _) in i'. set (e := {| ee_block := l0; ee_len := 1; ee_start_hi := 0; ee_start_lo := p |}).
  assert (length c = 12%nat) as Hc by reflexivity. set (i1 := set_field 42 2 (eh_entries (node_of i) + 1) i) in i'.
  assert (length i1 = 128%nat) as Hl1 by (unfold i1; by rewrite length_set_field).
  assert (forall o n, (o + n <= 52 + 12 * k)%nat -> (o + n <= 42 \/ 44 <= o)%nat -> field o n i' = field o n i) as Hh.
  { intros o n Hon Ho. unfold i'. rewrite field_inserts by lia. unfold i1. by rewrite field_set_ne by lia. }
  assert (same_fields i i') as Hs by (split; [unfold i'; rewrite length_inserts; lia | intros o n Hon; apply Hh; lia]).
  assert (eh_entries (node_of i') = eh_entries (node_of i) + 1) as Een.
  { unfold eh_entries at 1, node_of at 1. rewrite field_drop. unfold i'. rewrite field_inserts by lia. unfold i1.
    apply field_set; [change (256 ^ Z.of_nat 2) with (2 ^ 16); lia | lia]. }
  assert (extents (node_of i') = extents (node_of i) ++ [e]) as Ex.
  { apply extents_eq; [rewrite length_app, length_extents, Een; cbn [length]; lia|]. intros j x Hj. rewrite extent_at_node.
    pose proof (lookup_lt_Some _ _ _ Hj) as Hjl. rewrite length_app, length_extents in Hjl. cbn [length] in Hjl. fold k in Hjl.
    destruct (decide (j = k)) as [->|Hne].
    - rewrite lookup_app_r in Hj by (by rewrite length_extents). rewrite length_extents, Nat.sub_diag in Hj. apply (inj Some) in Hj as <-.
      assert (forall o n, (o + n <= 12)%nat -> field (52 + 12 * k + o) n i' = field o n c) as Hin by (intros o n Hon; apply field_inside; lia).
      replace (52 + 12 * k)%nat with (52 + 12 * k + 0)%nat by lia. replace (56 + 12 * k)%nat with (52 + 12 * k + 4)%nat by lia.
      replace (58 + 12 * k)%nat with (52 + 12 * k + 6)%nat by lia. replace (60 + 12 * k)%nat with (52 + 12 * k + 8)%nat by lia.
      rewrite !Hin by lia. unfold e, c. f_equal.
      + apply (field_value 4 l0 []); [done|]. change (256 ^ Z.of_nat 4) with (2 ^ 32). lia.
      + rewrite !app_assoc, <- (app_nil_r (_ ++ le_bytes 4 p)), <- app_assoc. by apply (field_value 4 p (le_bytes 4 l0 ++ le_bytes 2 1 ++ le_bytes 2 0)).
    - rewrite lookup_app_l in Hj by (rewrite length_extents; lia). rewrite extents_lookup, extent_at_node in Hj by lia. apply (inj Some) in Hj as <-.
      by rewrite !Hh by lia. }
  split; [|by split_all]. apply (map_ok_extents i _ i' Hm Hs Ex).
  - apply Forall_app. split; [done|]. constructor; [|done]. unfold extent_ok, extent_len. cbn [e ee_block ee_len]. change (Z.land 1 0x7FFF) with 1. lia.
  - unfold eh_magic, node_of. rewrite !field_drop. apply Hh; lia.
  - unfold eh_max, node_of. rewrite !field_drop. apply Hh; lia.
  - unfold eh_depth, node_of. rewrite !field_drop. apply Hh; lia.
  - lia.
Qed.

(** What an insertion does when the block is not mapped. *)
Lemma insert_local_spec i l0 p :
  map_ok i -> 0 <= l0 -> l0 + 1 < 2 ^ 32 -> 0 <= p < 2 ^ 32 -> leaf_find (node_of i) l0 = None ->
  match extent_map_insert_local i l0 p with
  | Some i' => map_ok i' /\ same_fields i i' /\ forall l, leaf_find (node_of i') l = if l =? l0 then Some p else leaf_find (node_of i) l
  | None => eh_entries (node_of i) = eh_max (node_of i) /\ forall e, e ∈ extents (node_of i) -> extends l0 p e = false
  end.
Proof.
  intros Hm H0 Hl Hp Hn. pose proof Hm as [_ _ H3 H4 _ H6]. pose proof (map_entries i Hm) as He.
  unfold extent_map_insert_local. rewrite H3, H4. cbn [negb orb Z.eqb]. rewrite leaf_find_eq in Hn.
  assert (forall e, e ∈ extents (node_of i) -> covers l0 e = false) as Hc.
  { intros e Hin. unfold lookup_extents in Hn. destruct (List.find (covers l0) (extents (node_of i))) eqn:Ef; [done|].
    apply list_elem_of_In in Hin. by apply (find_none _ _ Ef). }
  destruct (list_find _ (extents (node_of i))) as [[k e]|] eqn:Ef.
  - apply list_find_Some in Ef as (Hk & Hx & _). pose proof (list_elem_of_lookup_2 _ _ _ Hk) as Hin. rewrite (Hc e Hin) in *. cbn [orb] in Hx.
    apply Is_true_true in Hx. destruct (insert_longer i k e l0 p Hm Hk Hx Hl) as (G1 & G2 & G3 & _). split; [done|]. split; [done|].
    intros l. rewrite !leaf_find_eq, G3. apply lookup_longer; try done. rewrite Forall_lookup in H6. by apply (H6 k).
  - apply list_find_None in Ef. destruct (Z.leb_spec (eh_max (node_of i)) (eh_entries (node_of i))) as [Hfull|Hroom].
    + split; [lia|]. intros e Hin. rewrite Forall_forall in Ef. specialize (Ef e Hin). destruct (extends l0 p e); [|done]. by rewrite orb_true_r in Ef.
    + destruct (insert_append i l0 p Hm Hroom H0 Hl Hp) as (G1 & G2 & G3 & _). split; [done|]. split; [done|].
      intros l. rewrite !leaf_find_eq, G3. by apply lookup_append.
Qed.

Lemma lor_bound a b : 0 <= a < 2 ^ 32 -> 0 <= b < 2 ^ 32 -> 0 <= Z.lor a b < 2 ^ 32.
Proof.
  intros Ha Hb. assert (Z.lor a b = Z.land (Z.lor a b) (Z.ones 32)) as ->.
  - rewrite Z.land_lor_distr_l, !Z.land_ones by done. by rewrite !Z.mod_small.
  - rewrite Z.land_ones by done. by apply Z.mod_pos_bound.
Qed.

(** A new inode maps nothing. *)
Lemma extent_init_ok i : length i = EXT2_INODE_SIZE ->
  map_ok (extent_init_inode i) /\ extents (node_of (extent_init_inode i)) = [] /\ eh_max (node_of (extent_init_inode i)) = 4 /\
  forall o n, (o + n <= 32)%nat -> field o n (extent_init_inode i) = field o n i.
Proof.
  intros Hi. unfold extent_init_inode. set (c := le_bytes 2 EXT4_EXT_MAGIC ++ _). assert (length c = 60%nat) as Hc by reflexivity. unfold EXT2_INODE_SIZE in Hi.
  set (i1 := list_inserts 40 c i). assert (length i1 = 128%nat) as Hl1 by (unfold i1; by rewrite length_inserts). unfold set_x_flags.
  set (i' := set_field 32 4 _ i1).
  assert (forall o n, (o + n <= 60)%nat -> field (40 + o) n i' = field o n c) as Hh.
  { intros o n Hon. unfold i'. rewrite field_set_ne by lia. apply field_inside; lia. }
  assert (eh_magic (node_of i') = EXT4_EXT_MAGIC) as E1 by (unfold eh_magic, node_of; rewrite field_drop; by apply (Hh 0%nat 2%nat); lia).
  assert (eh_entries (node_of i') = 0) as E2 by (unfold eh_entries, node_of; rewrite field_drop; by apply (Hh 2%nat 2%nat); lia).
  assert (eh_max (node_of i') = 4) as E3 by (unfold eh_max, node_of; rewrite field_drop; by apply (Hh 4%nat 2%nat); lia).
  assert (eh_depth (node_of i') = 0) as E4 by (unfold eh_depth, node_of; rewrite field_drop; by apply (Hh 6%nat 2%nat); lia).
  assert (extents (node_of i') = []) as E5 by (unfold extents; by rewrite E2).
  split; [split|split; [done|split; [done|]]].
  - unfold i'. by rewrite length_set_field.
  - unfold x_flags. unfold i' at 1. rewrite field_set.
    + unfold flag, x_flags. rewrite Z.land_lor_distr_l, Z.land_diag. destruct (Z.eqb_spec (Z.lor (Z.land (field 32 4 i) EXT4_EXTENTS_FL) EXT4_EXTENTS_FL) 0) as [E|]; [|done].
      apply Z.lor_eq_0_iff in E as [_ E]. done.
    + apply lor_bound; [apply (field_range 32 4) | done].
    + lia.
  - unfold extent_header_valid. by rewrite E1, E2, E3.
  - done.
  - lia.
  - by rewrite E5.
  - intros o n Hon. unfold i', i1. rewrite field_set_ne by lia. by rewrite field_inserts by lia.
Qed.

(** Blocks inserted one after the other. *)
Fixpoint insert_all (i : list Z) (ps : list (Z * Z)) : option (list Z) :=
  match ps with
  | [] => Some i
  | (l, p) :: ps => match extent_map_insert_local i l p with Some i => insert_all i ps | None => None end
  end.

Definition blocks_ok (ps : list (Z * Z)) : Prop := Forall (fun x => 0 <= x.1 /\ x.1 + 1 < 2 ^ 32 /\ 0 <= x.2 < 2 ^ 32) ps.

Lemma insert_all_map i ps i' :
  map_ok i -> blocks_ok ps -> NoDup (map fst ps) -> (forall l, l ∈ map fst ps -> leaf_find (node_of i) l = None) -> insert_all i ps = Some i' ->
  map_ok i' /\ same_fields i i' /\
  forall l, leaf_find (node_of i') l = match (list_to_map ps : gmap Z Z) !! l with Some p => Some p | None => leaf_find (node_of i) l end.
Proof.
  revert i. induction ps as [|[l0 p] ps IH]; intros i Hm Hb Hd Hn; cbn [insert_all].
  { intros [= <-]. split; [done|]. split; [done|]. intros l. change (list_to_map [] : gmap Z Z) with (∅ : gmap Z Z). by rewrite lookup_empty. }
  apply Forall_cons in Hb as [(B1 & B2 & B3) Hb]. cbn [fst snd map] in *. apply NoDup_cons in Hd as [Hnot Hd].
  pose proof (insert_local_spec i l0 p Hm B1 B2 B3 (Hn l0 ltac:(apply elem_of_cons; by left))) as Hs.
  destruct (extent_map_insert_local i l0 p) as [i1|]; [|done]. destruct Hs as (M1 & [F1 F2] & L1). intros E.
  destruct (IH i1 M1 Hb Hd) as (M2 & [F3 F4] & L2); [|done|].
  - intros l Hl. rewrite L1. destruct (Z.eqb_spec l l0) as [->|]; [done|]. apply Hn, elem_of_cons. by right.
  - split; [done|]. split; [split; [congruence | intros o n Hon; rewrite F4, F2 by done; done]|]. intros l. rewrite L2, L1, list_to_map_cons.
    destruct (Z.eqb_spec l l0) as [->|Hne].
    + assert ((list_to_map ps : gmap Z Z) !! l0 = None) as -> by (by apply not_elem_of_list_to_map). by rewrite lookup_insert_eq.
    + by rewrite lookup_insert_ne by done.
Qed.

(** [n] blocks that follow one another on both sides. *)
Definition run (l0 p0 : Z) (n : nat) : list (Z * Z) := map (fun k => (l0 + Z.of_nat k, p0 + Z.of_nat k)) (seq 0 n).

Lemma run_S l0 p0 n : run l0 p0 (S n) = (l0, p0) :: run (l0 + 1) (p0 + 1) n.
Proof.
  unfold run. cbn [seq map]. rewrite !Z.add_0_r. f_equal. rewrite <- seq_shift, map_map. apply map_ext. intros k. f_equal; lia.
Qed.

Lemma run_extends n : forall i l0 p0 k, map_ok i -> extents (node_of i) = [{| ee_block := l0; ee_len := k; ee_start_hi := 0; ee_start_lo := p0 |}] ->
  1 <= k -> k + Z.of_nat n <= 0x7FFF -> 0 <= l0 -> l0 + 0x8000 < 2 ^ 32 -> 0 <= p0 -> p0 + 0x8000 < 2 ^ 32 ->
  exists i', insert_all i (run (l0 + k) (p0 + k) n) = Some i' /\
    extents (node_of i') = [{| ee_block := l0; ee_len := k + Z.of_nat n; ee_start_hi := 0; ee_start_lo := p0 |}].
Proof.
  induction n as [|n IH]; intros i l0 p0 k Hm Ex Hk Hn Hl Hl' Hp Hp'.
  { exists i. split; [done|]. by rewrite Z.add_0_r. }
  rewrite run_S. cbn [insert_all]. set (e := {| ee_block := l0; ee_len := k; ee_start_hi := 0; ee_start_lo := p0 |}) in *.
  assert (extent_len e = k) as El by (apply len_small; lia). assert (extent_ok e) as He by (unfold extent_ok; rewrite El; cbn [e ee_block ee_len]; lia).
  assert (covers (l0 + k) e = false) as Hc.
  { rewrite covers_spec, El by done. cbn [e ee_block]. destruct (Z.leb_spec l0 (l0 + k)), (Z.ltb_spec (l0 + k) (l0 + k)); cbn [andb]; done || lia. }
  assert (extends (l0 + k) (p0 + k) e = true) as Hx.
  { unfold extends. rewrite El, start_phys by (cbn [e ee_start_lo]; lia). cbn [e ee_block ee_start_lo]. rewrite !u32_small by lia.
    rewrite !Z.eqb_refl. destruct (Z.eqb_spec k 0), (Z.ltb_spec k 0x7FFF); cbn [negb andb]; done || lia. }
  pose proof Hm as [_ _ H3 H4 _ _]. unfold extent_map_insert_local. rewrite H3, H4, Ex. cbn [negb orb Z.eqb list_find]. rewrite Hc, Hx. cbn [orb].
  rewrite decide_True by done. rewrite Hc, El.
  destruct (insert_longer i 0 e (l0 + k) (p0 + k) Hm ltac:(by rewrite Ex) Hx ltac:(lia)) as (M1 & _ & X1 & _). rewrite El, Ex in *.
  destruct (IH (set_field (56 + 12 * 0) 2 (k + 1) i) l0 p0 (k + 1) M1) as (i' & E & Ex'); try lia.
  - rewrite X1. unfold longer. by rewrite El.
  - exists i'. rewrite Z.add_assoc, Z.add_assoc in E. rewrite <- !Z.add_assoc in *. split; [exact E|]. rewrite Ex'. do 2 f_equal. lia.
Qed.

(** C21: the extents of an inode are a finite map: after any blocks have been
    inserted one after the other into a new inode, each once, the search finds
    exactly them, and the other fields of the inode are as before; up to 32767
    blocks that follow one another fit in one extent. *)
Theorem extents_are_a_map i ps (Hi : length i = EXT2_INODE_SIZE) (Hb : blocks_ok ps) (Hd : NoDup (map fst ps)) :
  (forall i', insert_all (extent_init_inode i) ps = Some i' ->
    (forall l, leaf_find (node_of i') l = (list_to_map ps : gmap Z Z) !! l) /\
    forall o n, (o + n <= 32)%nat -> field o n i' = field o n i) /\
  (forall l0 p0 n, ps = run l0 p0 n -> Z.of_nat n <= 0x7FFF -> l0 + 0x8000 < 2 ^ 32 -> p0 + 0x8000 < 2 ^ 32 ->
    exists i', insert_all (extent_init_inode i) ps = Some i' /\ (length (extents (node_of i')) <= 1)%nat).
Proof.
  destruct (extent_init_ok i Hi) as (Hm & Ex & Emax & Hf). split.
  - intros i' E. assert (forall l, leaf_find (node_of (extent_init_inode i)) l = None) as Hn by (intros l; by rewrite leaf_find_eq, Ex).
    destruct (insert_all_map _ ps i' Hm Hb Hd (fun l _ => Hn l) E) as (_ & [_ F] & L). split.
    + intros l. rewrite L, Hn. by destruct ((list_to_map ps : gmap Z Z) !! l).
    + intros o n Hon. rewrite F by lia. by apply Hf.
  - intros l0 p0 n -> Hn Hl Hp. destruct n as [|n]; [exists (extent_init_inode i); split; [done | rewrite Ex; cbn; lia]|].
    rewrite run_S in *. apply Forall_cons in Hb as [(B1 & B2 & B3) _]. cbn [fst snd] in *. cbn [insert_all].
    pose proof Hm as [_ _ H3 H4 _ _]. unfold extent_map_insert_local. rewrite H3, H4, Ex, Emax. cbn [negb orb Z.eqb list_find].
    assert (eh_entries (node_of (extent_init_inode i)) = 0) as E0.
    { pose proof (length_extents (node_of (extent_init_inode i))) as H. rewrite Ex in H. pose proof (entries_range (node_of (extent_init_inode i))). cbn [length] in H. lia. }
    rewrite E0. cbn [Z.leb Z.compare]. destruct (insert_append _ l0 p0 Hm ltac:(lia) B1 B2 B3) as (M1 & _ & X1 & _). rewrite E0, Ex in *. cbn [app] in X1.
    destruct (run_extends n _ l0 p0 1 M1 X1) as (i' & E & Ex'); try lia. exists i'. split; [exact E|]. rewrite Ex'. cbn. lia.
Qed.

Lemma extents_are_a_map_witness :
  (forall i', insert_all (extent_init_inode zero_x_inode) (run 5 100 3) = Some i' ->
    (forall l, leaf_find (node_of i') l = (list_to_map (run 5 100 3) : gmap Z Z) !! l) /\
    forall o n, (o + n <= 32)%nat -> field o n i' = field o n zero_x_inode) /\
  exists i', insert_all (extent_init_inode zero_x_inode) (run 5 100 3) = Some i' /\ (length (extents (node_of i')) <= 1)%nat.
Proof.
  destruct (extents_are_a_map zero_x_inode (run 5 100 3)) as [H1 H2].
  - reflexivity.
  - repeat constructor; cbn; lia.
  - apply (bool_decide_unpack _). vm_compute. exact I.
  - split; [exact H1|]. apply (H2 5 100 3%nat); [reflexivity | lia | lia | lia].
Defined.

(** An extent of 32768 blocks, the longest one, is written with the length 0x8000,
    whose low bits are zero: it maps nothing here. *)
Lemma longest_extent_is_a_hole e l : ee_len e = 0x8000 -> covers l e = false.
Proof. intros H. unfold covers, extent_len. by rewrite H. Qed.

(** [ext4_write] starts a file without extents anew: none of its old blocks is
    found again. *)
Lemma converted_file_is_empty i l : length i = EXT2_INODE_SIZE -> leaf_find (node_of (extent_init_inode i)) l = None.
Proof. intros Hi. destruct (extent_init_ok i Hi) as (_ & Hx & _). by rewrite leaf_find_eq, Hx. Qed.
