(* ===== verification/Ext4Inv.v ===== *)
(** * Files of an ext4 volume

    Over a disk that serves single sectors: what the operations of [Ext4.v] do to
    the blocks, the bitmaps, the inodes and the files of a volume. An operation is
    described by [wp], what holds of its result and of the state after it. The
    bitmaps go through a cache that is written back late: [view] is the content of
    a block as the volume means it, and a synchronisation makes the disk hold it. *)

From S2P Require Import Prelude CString Block BlockIo Path Uaccess Rng Vfs Ext2 Ext2Inv Ext4 Ext4Tree.

(** ** Runs *)

Section runs.
Context {D : Type} `{!driver D}.
Implicit Types (s : e4 D).

(** The operation returns, and its result and the state after it are in [Q]. *)
Definition wp {A} (m : fsm D A) s (Q : option A -> e4 D -> Prop) : Prop :=
  match m s with Some (s', o) => Q o s' | None => False end.

Lemma wp_mono {A} (m : fsm D A) s (P Q : option A -> e4 D -> Prop) : wp m s P -> (forall o s', P o s' -> Q o s') -> wp m s Q.
Proof. unfold wp. destruct (m s) as [[s' o]|]; [|done]. intros H HQ. by apply HQ. Qed.

Lemma wp_bind {A B} (m : fsm D A) (f : A -> fsm D B) s Q :
  wp m s (fun o s' => match o with Some x => wp (f x) s' Q | None => Q None s' end) -> wp (m ≫= f) s Q.
Proof. unfold wp, mbind, fsm_bind. destruct (m s) as [[s' [x|]]|]; done. Qed.

Lemma wp_ret {A} (x : A) s (Q : option A -> e4 D -> Prop) : Q (Some x) s -> wp (mret x) s Q.
Proof. done. Qed.

Lemma wp_fail {A} s (Q : option A -> e4 D -> Prop) : Q None s -> wp fail s Q.
Proof. done. Qed.

Lemma wp_gets {A} (f : ext4_fs -> A) s (Q : option A -> e4 D -> Prop) : Q (Some (f (fs s))) s -> wp (gets f) s Q.
Proof. done. Qed.

Lemma wp_modify f s (Q : option unit -> e4 D -> Prop) : Q (Some tt) (f s) -> wp (modify f) s Q.
Proof. done. Qed.

Lemma wp_get_io s (Q : option (list Z) -> e4 D -> Prop) : Q (Some (g_io s)) s -> wp get_io s Q.
Proof. done. Qed.

Lemma wp_attempt {A} (m : fsm D A) s (Q : option (option A) -> e4 D -> Prop) : wp m s (fun o => Q (Some o)) -> wp (attempt m) s Q.
Proof. unfold wp, attempt. destruct (m s) as [[s' o]|]; done. Qed.

(** What a run gives. *)
Lemma wp_run {A} (m : fsm D A) s Q : wp m s Q -> exists s' o, m s = Some (s', o) /\ Q o s'.
Proof. unfold wp. destruct (m s) as [[s' o]|]; [|done]. by exists s', o. Qed.
End runs.

(** One step of a run. *)
Ltac wstep :=
  first [apply wp_bind | apply wp_gets; cbv beta iota | apply wp_modify; cbv beta iota | apply wp_get_io; cbv beta iota
        | apply wp_ret; cbv beta iota | apply wp_fail; cbv beta iota | apply wp_attempt].

(** ** Blocks *)

Section volume.
Context {D : Type} `{!driver D} (ss cnt : Z) (sector : D -> Z -> list Z) `{!driver_ok D ss sector}.
Context (Hrs : reads_singles (D := D)) (Hws : writes_singles (D := D)).
Context (Hss : 0 < ss) (Hcnt : 0 < cnt) (Hbuf : 2 * ss <= 4096) (Hbs : cnt * ss <= 4096) (Hbs1 : 1024 <= cnt * ss).
Implicit Types (s : e4 D) (i : list Z).

Abbreviation BS := (cnt * ss).

Record volume_ok s : Prop := {
  v_ss : sector_size (bdev (fs s)) = ss; v_read : has_read (bdev (fs s)) = true; v_write : has_write (bdev (fs s)) = true;
  v_bs : block_size (fs s) = BS; v_desc : desc_size (fs s) = 32;
  v_io : length (g_io s) = 4096%nat; v_blk : length (g_blk s) = 4096%nat; v_cache : length (bitmap_cache (fs s)) = 4096%nat;
  v_sb : length (fs_sb (fs s)) = EXT2_SUPER_SIZE; v_bg : length (fs_bg (fs s)) = EXT2_BGDESC_SIZE
}.

Definition sec s (n : Z) : list Z := sector (disk s) n.
Definition blk s (n : Z) : list Z := sectors (sec s) (n * cnt) (Z.to_nat cnt).
Definition valid (n : Z) : Prop := 0 <= n /\ (n + 1) * cnt <= 2 ^ 32.

Lemma length_blk4 s n : length (blk s n) = Z.to_nat BS.
Proof. unfold blk, sec. rewrite (length_sectors_nat ss sector) by lia. done. Qed.

Lemma valid4_range n : valid n -> 0 <= n < 2 ^ 32 /\ 0 <= n * cnt /\ n * cnt + cnt <= 2 ^ 32 /\ u32 (n * cnt) = n * cnt.
Proof. intros [H1 H2]. assert (0 <= n * cnt) by nia. split; [nia|]. split; [done|]. split; [lia|]. apply u32_small. nia. Qed.

(** Only the buffers and the state of the driver differ. *)
Definition same_disk s s' : Prop := fs s' = fs s /\ forall n, sec s' n = sec s n.

#[export] Instance same_disk4_refl : Reflexive same_disk.
Proof. by split. Qed.
#[export] Instance same_disk4_trans : Transitive same_disk.
Proof. intros s1 s2 s3 [F1 H1] [F2 H2]. split; [congruence|]. intros n. by rewrite H2, H1. Qed.

Lemma same_blk4 s s' n : same_disk s s' -> blk s' n = blk s n.
Proof. intros [_ H]. unfold blk. apply sectors_ext. intros. apply H. Qed.

(** The content of one block changes. *)
Definition one_block (n : Z) (l : list Z) s s' : Prop :=
  fs s' = fs s /\ blk s' n = l /\ forall k, ~ n * cnt <= k < (n + 1) * cnt -> sec s' k = sec s k.

Lemma blk4_off s s' m lo hi :
  (forall k, ~ lo <= k < hi -> sec s' k = sec s k) -> ((m + 1) * cnt <= lo \/ hi <= m * cnt) -> blk s' m = blk s m.
Proof. intros H Hm. unfold blk. apply sectors_ext. intros k Hk. apply H. lia. Qed.

Lemma one_block4_other n l s s' m : one_block n l s s' -> m <> n -> blk s' m = blk s m.
Proof. intros (_ & _ & H) Hm. apply (blk4_off s s' m _ _ H). nia. Qed.

Lemma load_sectors_spec s lba n buf :
  volume_ok s -> length buf = 4096%nat -> 0 <= n -> n * ss <= 4096 -> 0 <= lba -> lba + n <= 2 ^ 32 ->
  exists d, load_sectors lba n buf s = (set_disk d s, sectors (sec s) lba (Z.to_nat n) ++ drop (Z.to_nat (n * ss)) buf, true) /\
    forall k, sector d k = sec s k.
Proof.
  intros Hv Hlen Hn Hsz Hl Hend.
  destruct (read_sectors_spec ss sector Hrs Hss (bdev (fs s)) (disk s) buf lba n) as (d & E & Hd); try done; try lia; [by destruct Hv | by destruct Hv |].
  unfold load_sectors. rewrite E. by exists d.
Qed.

Lemma length_loaded s lba n buf : length buf = 4096%nat -> 0 <= n -> n * ss <= 4096 ->
  length (sectors (sec s) lba (Z.to_nat n) ++ drop (Z.to_nat (n * ss)) buf) = 4096%nat.
Proof. intros Hl Hn Hsz. rewrite length_app, length_drop, Hl. unfold sec. rewrite (length_sectors_nat ss sector) by done. lia. Qed.

Lemma load_io_wp s lba n Q :
  volume_ok s -> 0 <= n -> n * ss <= 4096 -> 0 <= lba -> lba + n <= 2 ^ 32 ->
  (forall s', same_disk s s' -> volume_ok s' -> g_io s' = sectors (sec s) lba (Z.to_nat n) ++ drop (Z.to_nat (n * ss)) (g_io s) -> Q (Some tt) s') ->
  wp (load_io lba n) s Q.
Proof.
  intros Hv Hn Hsz Hl Hend HQ. destruct (load_sectors_spec s lba n (g_io s) Hv (v_io _ Hv) Hn Hsz Hl Hend) as (d & E & Hd).
  unfold wp, load_io. rewrite E. apply HQ; [by split | | done]. destruct Hv. split; try done. cbn [set_io g_io]. by apply length_loaded.
Qed.

Lemma store_wp s lba n buf Q :
  volume_ok s -> 0 <= n -> n * ss < 2 ^ 32 -> n * ss <= Z.of_nat (length buf) -> 0 <= lba -> lba + n <= 2 ^ 32 ->
  (forall s', fs s' = fs s -> volume_ok s' -> g_io s' = g_io s -> sectors (sec s') lba (Z.to_nat n) = take (Z.to_nat (n * ss)) buf ->
    (forall k, ~ lba <= k < lba + n -> sec s' k = sec s k) -> Q (Some tt) s') ->
  wp (store lba n buf) s Q.
Proof.
  intros Hv Hn Hsz Hlen Hl Hend HQ.
  destruct (write_sectors_spec ss sector Hws Hss (bdev (fs s)) (disk s) buf lba n) as (d & E & Hd & Hf); try done; [by destruct Hv | by destruct Hv |].
  unfold wp, store. rewrite E. apply HQ; try done. by destruct Hv.
Qed.

Lemma block_sectors4 s : volume_ok s -> block_sectors (fs s) = cnt.
Proof.
  intros [Es _ _ Eb _ _ _ _ _ _]. unfold block_sectors. rewrite Es, Eb. destruct (Z.eqb_spec ss 0); [lia|]. apply Z.div_mul. lia.
Qed.

Lemma read_block_wp s n Q :
  volume_ok s -> valid n ->
  (forall s', same_disk s s' -> volume_ok s' -> g_io s' = blk s n ++ drop (Z.to_nat BS) (g_io s) -> Q (Some tt) s') ->
  wp (read_block n) s Q.
Proof.
  intros Hv Hn HQ. destruct (valid4_range n Hn) as (_ & H1 & H2 & H3). unfold read_block. repeat wstep. rewrite block_sectors4 by done.
  destruct (Z.eqb_spec cnt 0); [lia|]. rewrite H3. apply load_io_wp; done || lia.
Qed.

Lemma write_block_wp s n buf Q :
  volume_ok s -> valid n -> BS <= Z.of_nat (length buf) ->
  (forall s', volume_ok s' -> g_io s' = g_io s -> one_block n (take (Z.to_nat BS) buf) s s' -> Q (Some tt) s') ->
  wp (write_block n buf) s Q.
Proof.
  intros Hv Hn Hlen HQ. destruct (valid4_range n Hn) as (_ & H1 & H2 & H3). unfold write_block. repeat wstep. rewrite block_sectors4 by done.
  destruct (Z.eqb_spec cnt 0); [lia|]. rewrite H3. apply store_wp; try done; try lia. intros s' Hf Hv' Hg Hd Hfr. apply HQ; try done.
  split; [done|]. split; [exact Hd|]. intros k Hk. apply Hfr. lia.
Qed.

Lemma write_io_wp s n Q :
  volume_ok s -> valid n ->
  (forall s', volume_ok s' -> g_io s' = g_io s -> one_block n (take (Z.to_nat BS) (g_io s)) s s' -> Q (Some tt) s') ->
  wp (write_io n) s Q.
Proof. intros Hv Hn HQ. unfold write_io. repeat wstep. apply write_block_wp; try done. rewrite (v_io _ Hv). lia. Qed.

Lemma volume4_put s off l : volume_ok s -> volume_ok (io_put off l s).
Proof. intros []. split; try done. cbn [io_put set_io g_io]. by rewrite length_inserts. Qed.

Lemma put_same s off l : same_disk s (io_put off l s).
Proof. by split. Qed.

Lemma io_front4 s n l : take (Z.to_nat BS) (blk s n ++ l) = blk s n.
Proof. rewrite take_app_le by (rewrite length_blk4; lia). apply firstn_all2. rewrite length_blk4. lia. Qed.

(** A block is read, bytes of it are changed and it is written. *)
Lemma update_block_wp s n off l Q :
  volume_ok s -> valid n -> 0 <= off -> off + Z.of_nat (length l) <= BS ->
  (forall s', volume_ok s' -> one_block n (list_inserts (Z.to_nat off) l (blk s n)) s s' -> Q (Some tt) s') ->
  wp (read_block n;; modify (io_put off l);; write_io n) s Q.
Proof.
  intros Hv Hn Ho Hl HQ. wstep. apply read_block_wp; try done. intros s1 [Hf1 Hs1] Hv1 Hg1. wstep. wstep. apply write_io_wp; [by apply volume4_put | done |].
  intros s2 Hv2 _ (Hf2 & Hb2 & Hfr2). apply HQ; [done|]. split; [by rewrite Hf2|]. split.
  - rewrite Hb2. cbn [io_put set_io g_io]. rewrite Hg1, take_inserts by lia. by rewrite io_front4.
  - intros k Hk. rewrite Hfr2 by done. apply Hs1.
Qed.

(** ** The bitmap cache *)

(** What the operations never change in a volume. *)
Definition geom (f : ext4_fs) :=
  (bdev f, block_size f, (block_bitmap (fs_bg f), inode_bitmap (fs_bg f), inode_table (fs_bg f)),
   (first_data_block (fs_sb f), inodes_count (fs_sb f), inode_size (fs_sb f), blocks_per_group (fs_sb f), inodes_per_group (fs_sb f))).

Definition bbm s : Z := block_bitmap (fs_bg (fs s)).
Definition ibm s : Z := inode_bitmap (fs_bg (fs s)).
Definition group_block s : Z := u32 (first_data_block (fs_sb (fs s)) + 1).
Definition group_blocks s : Z := blocks_per_group (fs_sb (fs s)).

(** A block that the superblock and the group descriptor do not touch. *)
Definition apart s (m : Z) : Prop := m <> group_block s /\ (4 <= m * cnt \/ (m + 1) * cnt <= 2).

(** The places of the bookkeeping are blocks of their own. *)
Record meta_ok s : Prop := {
  b_valid : valid (bbm s); b_ivalid : valid (ibm s); b_gvalid : valid (group_block s);
  b_apart : apart s (bbm s); b_iapart : apart s (ibm s); b_ne : bbm s <> ibm s;
  b_max : group_blocks s <= 8 * BS
}.

(** What a block holds, the cached bitmap included. *)
Definition view s (n : Z) : list Z :=
  if bitmap_cache_valid (fs s) && (bitmap_cache_block (fs s) =? n) then take (Z.to_nat BS) (bitmap_cache (fs s)) else blk s n.

(** The cache holds a bitmap, and differs from the disk only when it is dirty. *)
Record cache_ok s : Prop := {
  c_block : bitmap_cache_valid (fs s) = true -> bitmap_cache_block (fs s) = bbm s \/ bitmap_cache_block (fs s) = ibm s;
  c_clean : bitmap_cache_valid (fs s) = true -> bitmap_cache_dirty (fs s) = false ->
    take (Z.to_nat BS) (bitmap_cache (fs s)) = blk s (bitmap_cache_block (fs s));
  c_dirty : bitmap_cache_dirty (fs s) = true -> bitmap_cache_valid (fs s) = true;
  c_hint : 0 <= next_free_block_hint (fs s)
}.

Lemma geom_eqs s s' : geom (fs s') = geom (fs s) ->
  bbm s' = bbm s /\ ibm s' = ibm s /\ group_block s' = group_block s /\ group_blocks s' = group_blocks s.
Proof. unfold geom, bbm, ibm, group_block, group_blocks. intros [= _ _ E1 E2 _ E3 _ _ E4 _]. by rewrite E1, E2, E3, E4. Qed.

Lemma meta_geom s s' : geom (fs s') = geom (fs s) -> meta_ok s -> meta_ok s'.
Proof. intros Hg [H1 H2 H3 H4 H5 H6 H7]. destruct (geom_eqs s s' Hg) as (E1 & E2 & E3 & E4). split; unfold apart in *; by rewrite ?E1, ?E2, ?E3, ?E4. Qed.

Lemma apart_geom s s' m : geom (fs s') = geom (fs s) -> apart s m -> apart s' m.
Proof. intros Hg. destruct (geom_eqs s s' Hg) as (_ & _ & E3 & _). unfold apart. by rewrite E3. Qed.

Lemma view_blk s n : cache_ok s -> n <> bbm s -> n <> ibm s -> view s n = blk s n.
Proof.
  intros [H _ _ _] H1 H2. unfold view. destruct (bitmap_cache_valid (fs s)); [|done]. cbn [andb]. destruct (Z.eqb_spec (bitmap_cache_block (fs s)) n); [|done].
  destruct (H eq_refl); congruence.
Qed.

Lemma same_view s s' n : same_disk s s' -> view s' n = view s n.
Proof. intros Hs. unfold view. rewrite (same_blk4 s s' n Hs). by destruct Hs as [-> _]. Qed.

Lemma same_cache s s' : same_disk s s' -> cache_ok s -> cache_ok s'.
Proof.
  intros Hs [H1 H2 H3 H4]. pose proof (same_blk4 s s') as Hb. pose proof Hs as [Hf _]. split; unfold bbm, ibm; rewrite Hf; try done.
  intros Hv Hd. rewrite Hb by done. by apply H2.
Qed.

Lemma length_view s n : volume_ok s -> length (view s n) = Z.to_nat BS.
Proof. intros Hv. unfold view. destruct (_ && _); [|apply length_blk4]. rewrite length_take, (v_cache _ Hv). lia. Qed.

Definition clean (f : ext4_fs) : ext4_fs := with_cache (bitmap_cache_block f) (bitmap_cache_valid f) false (bitmap_cache f) f.

Lemma clean_same f : bitmap_cache_dirty f = false -> clean f = f.
Proof. destruct f. cbn. by intros ->. Qed.

Lemma volume4_fs s f : volume_ok s -> geom f = geom (fs s) -> desc_size f = 32 -> length (bitmap_cache f) = 4096%nat ->
  length (fs_sb f) = EXT2_SUPER_SIZE -> length (fs_bg f) = EXT2_BGDESC_SIZE -> volume_ok (set_fs f s).
Proof. intros [] Hg Hd Hc H1 H2. unfold geom in Hg. injection Hg as E1 E2 _ _ _ _ _ _ _ _. split; cbn [set_fs fs]; try done; congruence. Qed.

(** What is seen of another block when one block that is not cached changes. *)
Lemma one_block_view n l s s' : one_block n l s s' -> (bitmap_cache_valid (fs s) = true -> bitmap_cache_block (fs s) <> n) ->
  view s' n = l /\ (forall m, m <> n -> view s' m = view s m) /\ (cache_ok s -> cache_ok s').
Proof.
  intros Hw Hn. pose proof Hw as (Hf & Hb & _). pose proof (one_block4_other n l s s') as Ho. split; [|split].
  - unfold view. rewrite Hf. destruct (bitmap_cache_valid (fs s)); [|exact Hb]. cbn [andb]. destruct (Z.eqb_spec (bitmap_cache_block (fs s)) n); [by destruct Hn | exact Hb].
  - intros m Hm. unfold view. rewrite Hf. rewrite Ho by done. done.
  - intros [H1 H2 H3 H4]. split; unfold bbm, ibm; rewrite Hf; try done. intros Hv Hd. rewrite Ho by (try done; by apply Hn). by apply H2.
Qed.

(** The cache is written back. *)
Lemma flush_wp s Q :
  volume_ok s -> meta_ok s -> cache_ok s ->
  (forall s', volume_ok s' -> cache_ok s' -> fs s' = clean (fs s) -> (forall n, blk s' n = view s n) -> Q (Some tt) s') ->
  wp bitmap_cache_flush s Q.
Proof.
  intros Hv Hm Hc HQ. unfold bitmap_cache_flush. repeat wstep. change (id (fs s)) with (fs s).
  destruct (bitmap_cache_valid (fs s)) eqn:Ev, (bitmap_cache_dirty (fs s)) eqn:Ed; cbn [andb negb].
  2, 3, 4: apply wp_ret, HQ; [done | done | symmetry; apply clean_same; try done; by rewrite (c_dirty _ Hc Ed) in Ev |].
  - assert (valid (bitmap_cache_block (fs s))) as Hvb by (destruct (c_block _ Hc Ev) as [-> | ->]; by destruct Hm).
    wstep. apply write_block_wp; [done | done | rewrite (v_cache _ Hv); lia |]. intros s1 Hv1 Hg1 Hw. pose proof Hw as (Hf & Hb & _). wstep.
    assert (forall n, blk s1 n = view s n) as Hbv.
    { intros n. unfold view. rewrite Ev. cbn [andb]. destruct (Z.eqb_spec (bitmap_cache_block (fs s)) n) as [<-|]; [exact Hb|]. by apply (one_block4_other _ _ _ _ _ Hw). }
    apply HQ; [| | by unfold clean; rewrite Hf, Ev | exact Hbv].
    + rewrite Hf. apply volume4_fs; [done | by rewrite Hf | by destruct Hv..].
    + destruct Hc as [H1 _ _ H4]. split; cbn [set_fs fs with_cache bitmap_cache_valid bitmap_cache_block bitmap_cache_dirty bitmap_cache next_free_block_hint]; rewrite ?Hf; try done.
      intros _. unfold bbm, ibm. cbn [set_fs fs with_cache fs_bg]. by apply H1.
  - intros n. unfold view. rewrite Ev. cbn [andb]. destruct (Z.eqb_spec (bitmap_cache_block (fs s)) n) as [<-|]; [|done]. symmetry. by apply (c_clean _ Hc).
  - intros n. unfold view. by rewrite Ev.
  - intros n. unfold view. by rewrite Ev.
Qed.

Lemma geom_cache b v d l f : geom (with_cache b v d l f) = geom f.
Proof. done. Qed.

(** A bitmap is in the cache; nothing is seen of it. *)
Lemma load_wp s b Q :
  volume_ok s -> meta_ok s -> cache_ok s -> b = bbm s \/ b = ibm s ->
  (forall s' d, volume_ok s' -> cache_ok s' -> fs s' = with_cache b true d (bitmap_cache (fs s')) (fs s) -> (forall n, view s' n = view s n) -> Q (Some tt) s') ->
  wp (bitmap_cache_load b) s Q.
Proof.
  intros Hv Hm Hc Hb HQ. unfold bitmap_cache_load. repeat wstep. change (id (fs s)) with (fs s). rewrite (v_bs _ Hv).
  destruct (Z.ltb_spec 4096 BS); [lia|]. destruct (bitmap_cache_valid (fs s) && (bitmap_cache_block (fs s) =? b)) eqn:E.
  { apply andb_true_iff in E as [Ev Eb%Z.eqb_eq]. apply wp_ret, (HQ s (bitmap_cache_dirty (fs s))); try done. destruct (fs s). cbn in *. by subst. }
  assert (valid b) as Hvb by (destruct Hb as [-> | ->]; by destruct Hm). destruct (valid4_range b Hvb) as (_ & R1 & R2 & R3).
  wstep. apply flush_wp; try done. intros s1 Hv1 Hc1 Hf1 Hb1. wstep. unfold read_cache. repeat wstep. rewrite block_sectors4 by done.
  destruct (Z.eqb_spec cnt 0) as [|Hz]; [lia|]. rewrite R3.
  destruct (load_sectors_spec s1 (b * cnt) cnt (bitmap_cache (fs s1)) Hv1 (v_cache _ Hv1)) as (d & Er & Hd); try done; try lia.
  unfold wp at 1. rewrite Er. set (l := sectors (sec s1) (b * cnt) (Z.to_nat cnt) ++ _). wstep.
  assert (length l = 4096%nat) as Hl by (apply length_loaded; [by destruct Hv1 | lia | lia]).
  assert (take (Z.to_nat BS) l = view s b) as Ht by (unfold l; fold (blk s1 b); rewrite io_front4; apply Hb1).
  set (s2 := set_fs _ _). assert (forall n, blk s2 n = view s n) as Hb2.
  { intros n. rewrite <- Hb1. unfold blk. apply sectors_ext. intros k _. apply Hd. }
  assert (fs s2 = with_cache b true false l (fs s)) as Hf2 by (unfold s2; cbn [set_fs set_disk fs with_cache bitmap_cache]; by rewrite Hf1).
  apply (HQ s2 false); [| | by rewrite Hf2 |].
  - unfold s2. apply volume4_fs; [by destruct Hv1; split | done | by destruct Hv1 | done | by destruct Hv1 | by destruct Hv1].
  - split; [|intros _ _; rewrite Hb2, Hf2; exact Ht | intros Hdd; by rewrite Hf2 in Hdd | rewrite Hf2; by destruct Hc].
    intros _. unfold bbm, ibm. rewrite Hf2. cbn [with_cache bitmap_cache_block fs_bg]. exact Hb.
  - intros n. unfold view at 1. rewrite Hf2. cbn [with_cache bitmap_cache_block bitmap_cache_valid bitmap_cache andb].
    destruct (Z.eqb_spec b n) as [->|]; [exact Ht | apply Hb2].
Qed.

(** ** Allocation *)

Lemma turn_range start max n : 0 <= start < max -> max <= 2 ^ 31 -> 0 <= n < max -> 0 <= turn start max n < max.
Proof. intros H1 H2 H3. unfold turn. rewrite u32_small by lia. destruct (Z.leb_spec max (start + n)); lia. Qed.

Lemma turn_onto start max j : 0 <= start < max -> max <= 2 ^ 31 -> 0 <= j < max -> exists n, 0 <= n < max /\ turn start max n = j.
Proof.
  intros H1 H2 H3. destruct (Z_lt_ge_dec j start).
  - exists (j - start + max). split; [lia|]. unfold turn. rewrite u32_small by lia. destruct (Z.leb_spec max (start + (j - start + max))); lia.
  - exists (j - start). split; [lia|]. unfold turn. rewrite u32_small by lia. destruct (Z.leb_spec max (start + (j - start))); lia.
Qed.

Definition taken s (j : Z) : bool := bit_of (view s (bbm s)) j.

Lemma geom_taken b (k m : Z) f : geom (count_taken b k m f) = geom f.
Proof.
  unfold geom, block_bitmap, inode_bitmap, inode_table, first_data_block, inodes_count, inode_size, blocks_per_group, inodes_per_group.
  destruct b; cbn [count_taken bdev block_size fs_sb fs_bg]; by rewrite !dec_field_ne by lia.
Qed.

Lemma bit_of_front l n j : 0 <= j < 8 * Z.of_nat n -> bit_of (take n l) j = bit_of l j.
Proof.
  intros H. unfold bit_of. f_equal. rewrite !nth_lookup, lookup_take_lt; [done|]. pose proof (Z.div_lt_upper_bound j 8 (Z.of_nat n)). lia.
Qed.

(** A block is taken from the bitmap: the one found was free, and nothing else is
    seen to change. *)
Lemma alloc_wp s Q :
  volume_ok s -> meta_ok s -> cache_ok s ->
  (forall s', volume_ok s' -> cache_ok s' -> geom (fs s') = geom (fs s) -> (forall n, view s' n = view s n) ->
    (forall j, 0 <= j < group_blocks s -> taken s j = true) -> Q None s') ->
  (forall s' k, volume_ok s' -> cache_ok s' -> geom (fs s') = geom (fs s) -> (forall n, n <> bbm s -> view s' n = view s n) ->
    0 <= k < group_blocks s -> taken s k = false -> (forall j, 0 <= j -> taken s' j = (j =? k) || taken s j) -> Q (Some k) s') ->
  wp alloc_block s Q.
Proof.
  intros Hv Hm Hc HN HS. unfold alloc_block. repeat wstep. change (id (fs s)) with (fs s). fold (bbm s) (group_blocks s). unfold alloc_from_bitmap.
  apply load_wp; [done..| by left |]. intros s1 d Hv1 Hc1 Hf1 Hview. repeat wstep. change (id (fs s1)) with (fs s1).
  assert (geom (fs s1) = geom (fs s)) as Hg1 by (by rewrite Hf1). destruct (geom_eqs s s1 Hg1) as (E1 & E2 & E3 & E4).
  assert (bitmap_cache_valid (fs s1) = true) as Ev1 by (by rewrite Hf1). assert (bitmap_cache_block (fs s1) = bbm s) as Eb1 by (by rewrite Hf1).
  assert (view s1 (bbm s) = take (Z.to_nat BS) (bitmap_cache (fs s1))) as Evw by (unfold view; by rewrite Ev1, Eb1, Z.eqb_refl).
  pose proof (b_max _ Hm) as Hmax. assert (0 <= group_blocks s) as Hp0 by apply (field_range 32 4).
  assert (forall j, 0 <= j < group_blocks s -> bit_of (bitmap_cache (fs s1)) j = taken s j) as Hbit.
  { intros j Hj. unfold taken. rewrite <- (Hview (bbm s)), Evw, bit_of_front by lia. done. }
  set (max := group_blocks s) in *. set (start := if _ <? max then _ else 0). set (m := scan _ 0 _).
  pose proof (c_hint _ Hc1) as Hh.
  assert (0 < max -> 0 <= start < max) as Hst by (intros Hp; unfold start; destruct (Z.ltb_spec (next_free_block_hint (fs s1)) max); lia).
  destruct (Z.ltb_spec m 0) as [Hneg|Hpos].
  - apply wp_fail, HN; try done. intros j Hj. destruct (turn_onto start max j (Hst ltac:(lia)) ltac:(lia) Hj) as (n & Hn & <-).
    assert (m = -1) as Em by (unfold m in *; pose proof (scan_range (fun n => negb (bit_of (bitmap_cache (fs s1)) (turn start max n))) 0 (Z.to_nat max)); lia).
    pose proof (scan_miss _ 0 _ n ltac:(lia) Em ltac:(lia)) as Hb. cbv beta in Hb. apply negb_false_iff in Hb. by rewrite <- Hbit.
  - destruct (scan_hit _ 0 _ m ltac:(lia) eq_refl ltac:(lia)) as (Hm1 & Hm2 & _). cbv beta in Hm2. apply negb_true_iff in Hm2. clearbody m.
    set (k := turn start max m) in *. assert (0 <= k < max) as Hk by (apply turn_range; lia). clearbody k. rewrite Hbit in Hm2 by done.
    repeat wstep. rewrite Z.add_0_r. rewrite i32_small by lia. destruct (Z.ltb_spec k 0); [lia|]. set (s2 := set_fs _ s1).
    assert (geom (fs s2) = geom (fs s)) as Hg2 by (unfold s2; cbn [set_fs fs]; by rewrite geom_taken). destruct (geom_eqs s s2 Hg2) as (F1 & F2 & _).
    assert (view s2 (bbm s) = set_bit k (view s (bbm s))) as Evk.
    { rewrite <- Hview, Evw. unfold view, s2. cbn [set_fs fs count_taken bitmap_cache_valid bitmap_cache_block bitmap_cache]. rewrite Ev1, Eb1, Z.eqb_refl. cbn [andb].
      unfold set_bit. pose proof (Z.div_lt_upper_bound k 8 BS). rewrite !nth_lookup, lookup_take_lt, take_insert_lt by lia. done. }
    apply wp_ret, HS; try done.
    + unfold s2. apply volume4_fs; [done | by rewrite geom_taken | by destruct Hv1 | | |]; cbn [count_taken bitmap_cache fs_sb fs_bg]; rewrite ?length_dec_field; try by destruct Hv1.
      unfold set_bit. rewrite length_insert. by destruct Hv1.
    + destruct Hc1 as [G1 G2 G3 G4]. split; unfold bbm, ibm; rewrite ?F1, ?F2; unfold s2; cbn [set_fs fs count_taken bitmap_cache_valid bitmap_cache_block bitmap_cache_dirty fs_bg next_free_block_hint]; try done.
      * intros Hvv. rewrite Eb1. left. symmetry. exact F1.
      * destruct (Z.leb_spec max (k + 1)); lia.
    + intros n Hn. rewrite <- Hview. unfold view, s2. cbn [set_fs fs count_taken bitmap_cache_valid bitmap_cache_block]. rewrite Ev1, Eb1.
      destruct (Z.eqb_spec (bbm s) n); [congruence|]. done.
    + intros j Hj. unfold taken. rewrite F1, Evk. apply bit_of_set; [rewrite length_view by done; lia | done].
Qed.

(** ** Inodes *)

(** The table of inodes that the first group descriptor on the disk names. *)
Definition table_ok s : Prop := field 8 4 (view s (group_block s)) = inode_table (fs_bg (fs s)).

Record good s : Prop := { g_volume : volume_ok s; g_meta : meta_ok s; g_cache : cache_ok s; g_table : table_ok s }.

Lemma good_keep s s' :
  good s -> volume_ok s' -> cache_ok s' -> geom (fs s') = geom (fs s) -> view s' (group_block s) = view s (group_block s) -> good s'.
Proof.
  intros [_ Hm _ Ht] Hv Hc Hg Hview. split; [done | by apply (meta_geom s) | done |]. destruct (geom_eqs s s' Hg) as (_ & _ & E3 & _).
  unfold table_ok in *. rewrite E3, Hview, Ht. unfold geom in Hg. congruence.
Qed.

Lemma good_same s s' : good s -> same_disk s s' -> volume_ok s' -> good s'.
Proof.
  intros Hg Hs Hv. apply (good_keep s); [done | done | apply (same_cache s); [done | by destruct Hg] | by destruct Hs as [-> _] | by apply same_view].
Qed.

Lemma apart_ne s m : good s -> apart s m -> m <> group_block s.
Proof. by intros _ [? _]. Qed.

(** A block without a part in the bookkeeping. *)
Definition plain s (m : Z) : Prop := valid m /\ apart s m /\ m <> bbm s /\ m <> ibm s.

Lemma plain_geom s s' m : geom (fs s') = geom (fs s) -> plain s m -> plain s' m.
Proof.
  intros Hg (H1 & H2 & H3 & H4). destruct (geom_eqs s s' Hg) as (E1 & E2 & _). split; [done|]. split; [by apply (apart_geom s)|]. by rewrite E1, E2.
Qed.

Lemma plain_view s m : good s -> plain s m -> view s m = blk s m.
Proof. intros Hg (_ & _ & H1 & H2). apply view_blk; [by destruct Hg | done..]. Qed.

Lemma group_view s : good s -> view s (group_block s) = blk s (group_block s).
Proof.
  intros [_ [_ _ _ [H1 _] [H2 _] _ _] Hc _]. apply view_blk; [done | congruence..].
Qed.

(** A plain block is written. *)
Lemma plain_written s s' n l : good s -> volume_ok s' -> plain s n -> one_block n l s s' ->
  good s' /\ view s' n = l /\ forall m, m <> n -> view s' m = view s m.
Proof.
  intros Hg Hv (_ & [Hn _] & H1 & H2) Hw. pose proof (g_cache _ Hg) as Hc. destruct (one_block_view n l s s' Hw) as (E1 & E2 & E3).
  { intros Hvv Heq. destruct (c_block _ Hc Hvv); congruence. }
  split; [|done]. apply (good_keep s); [done | done | by apply E3 | by destruct Hw as [-> _] | apply E2; congruence].
Qed.

(** The place of an inode of the first group, where all are that are made here. *)
Record place_ok s (ino : Z) (pl : Z * Z) : Prop := {
  p_ino : 0 < ino <= inodes_count (fs_sb (fs s)); p_group : ino <= inodes_per_group (fs_sb (fs s));
  p_place : let off := u32 ((ino - 1) * inode_size (fs_sb (fs s))) in
    pl = (u32 (inode_table (fs_bg (fs s)) + off / BS), off mod BS);
  p_room : pl.2 + 128 <= BS; p_plain : plain s pl.1
}.

Lemma place_geom s s' ino pl : geom (fs s') = geom (fs s) -> place_ok s ino pl -> place_ok s' ino pl.
Proof.
  intros Hg [H1 H2 H3 H4 H5]. pose proof (plain_geom s s' pl.1 Hg H5). unfold geom in Hg. injection Hg as _ _ _ _ E3 _ E5 E6 _ E8.
  split; by rewrite ?E3, ?E5, ?E6, ?E8.
Qed.

Lemma place_off s ino pl : place_ok s ino pl -> 0 <= pl.2 /\ pl.2 + 128 <= BS.
Proof. intros [_ _ Hp Hr _]. split; [|done]. rewrite Hp. cbn [snd]. apply Z.mod_pos_bound. lia. Qed.

Lemma inode_place_wp s ino pl Q :
  good s -> place_ok s ino pl -> (forall s', same_disk s s' -> volume_ok s' -> Q (Some pl) s') -> wp (inode_place ino) s Q.
Proof.
  intros Hg [H1 H2 H3 H4 H5] HQ. pose proof Hg as [Hv Hm Hc Ht]. unfold inode_place. repeat wstep. change (id (fs s)) with (fs s).
  destruct (Z.eqb_spec ino 0), (Z.ltb_spec (inodes_count (fs_sb (fs s))) ino); cbn [orb]; try lia. wstep. unfold read_bgdesc. repeat wstep. change (id (fs s)) with (fs s).
  rewrite (v_bs _ Hv), (v_desc _ Hv). assert (32 <= BS / 32) as Hpb by (apply Z.div_le_lower_bound; lia).
  destruct (Z.eqb_spec (BS / 32) 0); [lia|]. rewrite (Z.div_small (ino - 1)) by lia. rewrite (Z.div_small 0), (Z.mod_small 0) by lia. rewrite Z.add_0_r. fold (group_block s).
  wstep. apply read_block_wp; [done | by destruct Hm |]. intros s1 Hs1 Hv1 Hio. cbv beta zeta. change (u32 (0 * 32)) with 0. change (Z.of_nat EXT2_BGDESC_SIZE) with 32.
  destruct (Z.ltb_spec BS (0 + 32)); [lia|]. repeat wstep. change (drop (Z.to_nat 0) (g_io s1)) with (g_io s1).
  assert (inode_table (take EXT2_BGDESC_SIZE (g_io s1)) = inode_table (fs_bg (fs s))) as ->.
  { unfold table_ok in Ht. rewrite group_view in Ht by done. rewrite <- Ht. unfold inode_table, EXT2_BGDESC_SIZE. rewrite field_front by lia.
    rewrite Hio. apply field_app. rewrite length_blk4. lia. }
  rewrite (Z.mod_small (ino - 1)) by lia. cbv zeta in H3. subst pl. cbn [snd fst] in *. change (Z.of_nat EXT2_INODE_SIZE) with 128.
  set (o := u32 (_ * _)) in *. destruct (Z.ltb_spec BS (o mod BS + 128)); [lia|]. apply wp_ret. by apply HQ.
Qed.

(** The inode at a place. *)
Definition inode_at s (pl : Z * Z) : list Z := take EXT2_INODE_SIZE (drop (Z.to_nat pl.2) (view s pl.1)).

Lemma read_inode_wp s ino pl Q :
  good s -> place_ok s ino pl -> (forall s', same_disk s s' -> volume_ok s' -> Q (Some (inode_at s pl)) s') -> wp (read_inode ino) s Q.
Proof.
  intros Hg Hp HQ. unfold read_inode. repeat wstep. apply (inode_place_wp s ino pl); try done. intros s1 Hs1 Hv1. pose proof (p_plain _ _ _ Hp) as Hpl.
  wstep. apply read_block_wp; [done | by destruct Hpl |]. intros s2 Hs2 Hv2 Hio. repeat wstep. pose proof (place_off s ino pl Hp).
  rewrite Hio, slice_front by (rewrite length_blk4; unfold EXT2_INODE_SIZE; lia). rewrite (same_blk4 s s1) by done.
  rewrite <- (plain_view s) by done. apply HQ; [by etrans | done].
Qed.

Lemma write_inode_wp s ino pl i Q :
  good s -> place_ok s ino pl -> length i = EXT2_INODE_SIZE ->
  (forall s', good s' -> fs s' = fs s -> inode_at s' pl = i -> view s' pl.1 = list_inserts (Z.to_nat pl.2) i (view s pl.1) ->
    (forall m, m <> pl.1 -> view s' m = view s m) -> Q (Some tt) s') ->
  wp (write_inode ino i) s Q.
Proof.
  intros Hg Hp Hi HQ. unfold write_inode. repeat wstep. apply (inode_place_wp s ino pl); try done. intros s1 Hs1 Hv1. pose proof (p_plain _ _ _ Hp) as Hpl.
  pose proof (place_off s ino pl Hp). apply update_block_wp; [done | by destruct Hpl | lia | rewrite Hi; unfold EXT2_INODE_SIZE; lia |].
  intros s2 Hv2 Hw. pose proof (good_same s s1 Hg Hs1 Hv1) as Hg1. assert (plain s1 pl.1) as Hpl1 by (apply (plain_geom s); [by destruct Hs1 as [-> _] | done]).
  destruct (plain_written s1 s2 pl.1 _ Hg1 Hv2 Hpl1 Hw) as (Hg2 & E1 & E2). apply HQ; [done | by destruct Hw as [-> _]; destruct Hs1 | | |].
  - unfold inode_at. rewrite E1, <- Hi. apply take_drop_inserts_same. rewrite length_blk4, Hi. unfold EXT2_INODE_SIZE. lia.
  - rewrite E1. f_equal. rewrite (same_blk4 s s1) by done. symmetry. by apply plain_view.
  - intros m Hm. rewrite E2 by done. by apply same_view.
Qed.

(** ** The superblock and the group descriptor *)

Lemma meta_clean s : volume_ok s -> geom (with_meta false (fs s)) = geom (fs s) -> volume_ok (set_fs (with_meta false (fs s)) s).
Proof. intros Hv Hg. apply volume4_fs; [done | done | by destruct Hv..]. Qed.

Lemma sync_super_bg_wp s Q :
  volume_ok s -> meta_ok s ->
  (forall s', volume_ok s' -> fs s' = fs s -> field 8 4 (blk s' (group_block s)) = inode_table (fs_bg (fs s)) ->
    (forall m, apart s m -> blk s' m = blk s m) -> Q (Some tt) s') ->
  wp sync_super_bg s Q.
Proof.
  intros Hv Hm HQ. unfold sync_super_bg. wstep. apply load_io_wp; try done; try lia. intros s1 Hs1 Hv1 _. repeat wstep. set (s2 := io_put 0 _ s1).
  assert (volume_ok s2) as Hv2 by (by apply volume4_put). apply store_wp; try done; try lia.
  { unfold s2. cbn [io_put set_io g_io]. rewrite length_inserts, (v_io _ Hv1). lia. }
  intros s3 Hf3 Hv3 _ _ Hk3. do 3 wstep. assert (fs s3 = fs s) as Hf3' by (rewrite Hf3; by destruct Hs1).
  rewrite Hf3'. fold (group_block s). pose proof (v_bg _ Hv) as Hbg.
  apply read_block_wp; [done | by destruct Hm |]. intros s4 Hs4 Hv4 Hio4. wstep. wstep. set (s5 := io_put 0 _ s4).
  assert (fs s4 = fs s) as Hf4 by (destruct Hs4 as [-> _]; done).
  apply write_io_wp; [by apply volume4_put | by destruct Hm |]. intros s6 Hv6 _ Hw. pose proof Hw as (Hf6 & Hb6 & _).
  apply HQ; [done | by rewrite Hf6 | |].
  - rewrite Hb6. unfold s5. cbn [io_put set_io g_io]. rewrite Hf4. rewrite field_front by lia.
    change (8%nat) with (Z.to_nat 0 + 8)%nat. unfold EXT2_BGDESC_SIZE in Hbg. apply field_inside; [lia | rewrite (v_io _ Hv4); lia].
  - intros m [Hm1 Hm2]. rewrite (one_block4_other _ _ _ _ m Hw Hm1). change (blk s5 m) with (blk s4 m). rewrite (same_blk4 s3 s4) by done.
    rewrite (blk4_off s2 s3 m 2 4 Hk3) by lia. change (blk s2 m) with (blk s1 m). by apply same_blk4.
Qed.

Lemma clean_view s m : cache_ok s -> bitmap_cache_dirty (fs s) = false -> view s m = blk s m.
Proof.
  intros Hc Hd. unfold view. destruct (bitmap_cache_valid (fs s)) eqn:Ev; [|done]. cbn [andb]. destruct (Z.eqb_spec (bitmap_cache_block (fs s)) m) as [<-|]; [|done].
  by apply (c_clean _ Hc).
Qed.

(** All is written back. *)
Lemma sync_wp s Q :
  good s ->
  (forall s', good s' -> geom (fs s') = geom (fs s) -> bitmap_cache_dirty (fs s') = false ->
    (forall m, apart s m -> view s' m = view s m) -> Q (Some tt) s') ->
  wp sync_super_bg_if_dirty s Q.
Proof.
  intros Hg HQ. pose proof Hg as [Hv Hm Hc Ht]. unfold sync_super_bg_if_dirty. wstep. apply flush_wp; try done. intros s1 Hv1 Hc1 Hf1 Hb1. repeat wstep.
  change (id (fs s1)) with (fs s1). assert (geom (fs s1) = geom (fs s)) as Hg1 by (by rewrite Hf1). destruct (geom_eqs s s1 Hg1) as (_ & _ & E3 & _).
  assert (bitmap_cache_dirty (fs s1) = false) as Hd1 by (by rewrite Hf1).
  assert (forall m, view s1 m = view s m) as Hv01 by (intros m; by rewrite clean_view, Hb1).
  assert (good s1) as Hgd1 by (apply (good_keep s); try done; apply Hv01).
  destruct (meta_dirty (fs s1)); cbn [negb]; [|by apply wp_ret, HQ].
  wstep. apply sync_super_bg_wp; [done | by destruct Hgd1 |]. intros s2 Hv2 Hf2 Htab Hb2. wstep. set (s3 := set_fs _ s2).
  assert (cache_ok s3) as Hc3.
  { destruct Hc1 as [C1 C2 C3 C4]. unfold s3. split; unfold bbm, ibm; cbn [set_fs fs with_meta bitmap_cache_valid bitmap_cache_block bitmap_cache_dirty bitmap_cache fs_bg next_free_block_hint]; rewrite ?Hf2; try done.
    intros C5 C6. change (blk (set_fs (with_meta false (fs s1)) s2)) with (blk s2). rewrite Hb2; [by apply C2|].
    pose proof (g_meta _ Hgd1) as Hm1. destruct (C1 C5) as [-> | ->]; by destruct Hm1. }
  assert (geom (fs s3) = geom (fs s)) as Hg3 by (unfold s3; cbn [set_fs fs]; rewrite Hf2; exact Hg1).
  assert (bitmap_cache_dirty (fs s3) = false) as Hd3 by (unfold s3; cbn [set_fs fs with_meta bitmap_cache_dirty]; by rewrite Hf2).
  apply HQ; [|done|done|].
  - destruct (geom_eqs s s3 Hg3) as (_ & _ & F3 & _). split; [by apply meta_clean | by apply (meta_geom s) | done |].
    unfold table_ok. rewrite clean_view by done. rewrite F3, <- E3. change (blk s3) with (blk s2). rewrite Htab. unfold s3. cbn [set_fs fs with_meta fs_bg]. by rewrite Hf2.
  - intros m Hap. rewrite clean_view by done. change (blk s3 m) with (blk s2 m). rewrite Hb2 by (by apply (apart_geom s)). apply Hb1.
Qed.

(** ** Files *)

(** The block of the disk for a block of a file. *)
Definition block_of i (l : Z) : option Z := leaf_find (node_of i) l.
Definition owns i (m : Z) : Prop := exists l, 0 <= l /\ block_of i l = Some m.

(** A block that can hold data of the file with its inode at [pl]. *)
Definition data_ok s (pl : Z * Z) (b : Z) : Prop := plain s b /\ b <> 0 /\ b <> pl.1.

(** The inode [i] with its extents in it: its blocks hold data, each once, and a
    clear bit of the bitmap stands for a block that is free. *)
Record file_ok s (pl : Z * Z) i : Prop := {
  f_map : map_ok i;
  f_blocks : forall l b, 0 <= l -> block_of i l = Some b -> data_ok s pl b;
  f_inj : forall l l' b, 0 <= l -> 0 <= l' -> block_of i l = Some b -> block_of i l' = Some b -> l = l';
  f_free : forall j, 0 <= j < group_blocks s -> taken s j = false -> data_ok s pl j /\ ~ owns i j
}.

(** No block can be added. *)
Definition full s i : Prop :=
  (forall j, 0 <= j < group_blocks s -> taken s j = true) \/ eh_entries (node_of i) = eh_max (node_of i).

(** The byte of a file at a position, none in a hole. *)
Definition byte s i (q : Z) : option Z :=
  match block_of i (q / BS) with Some b => Some (nth (Z.to_nat (q mod BS)) (view s b) 0) | None => None end.

Lemma data_geom s s' pl b : geom (fs s') = geom (fs s) -> data_ok s pl b -> data_ok s' pl b.
Proof. intros Hg (H1 & H2 & H3). split; [by apply (plain_geom s)|done]. Qed.

Lemma file_mono s s' pl i :
  geom (fs s') = geom (fs s) -> (forall j, 0 <= j -> taken s j = true -> taken s' j = true) -> file_ok s pl i -> file_ok s' pl i.
Proof.
  intros Hg Ht [H1 H2 H3 H4]. destruct (geom_eqs s s' Hg) as (_ & _ & _ & E4). split; [done | | done |].
  - intros l b Hl Hb. apply (data_geom s); [done | by apply (H2 l)].
  - rewrite E4. intros j Hj Hc. destruct (H4 j Hj) as [G1 G2]; [|split; [by apply (data_geom s) | done]].
    destruct (taken s j) eqn:E; [|done]. rewrite (Ht j) in Hc by (done || lia). done.
Qed.

Lemma find_node n i l s : map_ok i -> extent_find_phys_from_node n (node_of i) l s = Some (s, block_of i l).
Proof.
  intros [_ _ H1 H2 _ _]. destruct n; cbn [extent_find_phys_from_node]; rewrite H1, H2; cbn [negb Z.eqb];
    unfold block_of; by destruct (leaf_find (node_of i) l).
Qed.

Lemma find_phys_wp i l s (Q : option Z -> e4 D -> Prop) : map_ok i -> Q (block_of i l) s -> wp (extent_find_phys i l) s Q.
Proof. intros Hm HQ. unfold wp, extent_find_phys. by rewrite (find_node EXTENT_FUEL i l s Hm). Qed.

Lemma map_find_wp i l s (Q : option Z -> e4 D -> Prop) : map_ok i -> Q (block_of i l) s -> wp (map_find_phys i l) s Q.
Proof. intros Hm HQ. unfold map_find_phys. rewrite (m_flag _ Hm). by apply find_phys_wp. Qed.

(** A free block that has been taken becomes block [l]. *)
Lemma file_extend s s' pl i i' l k :
  file_ok s pl i -> geom (fs s') = geom (fs s) -> map_ok i' -> 0 <= l -> 0 <= k < group_blocks s -> taken s k = false ->
  (forall j, 0 <= j -> taken s' j = (j =? k) || taken s j) ->
  (forall m, block_of i' m = if m =? l then Some k else block_of i m) -> file_ok s' pl i'.
Proof.
  intros [H1 H2 H3 H4] Hg Hm Hl Hk Hc Hset Hb. destruct (geom_eqs s s' Hg) as (_ & _ & _ & E4). destruct (H4 k Hk Hc) as [Hd Hown]. split; [done | | |].
  - intros m b Hm0. rewrite Hb. destruct (Z.eqb_spec m l); [intros [= <-]; by apply (data_geom s)|]. intros Hbm. apply (data_geom s); [done | by apply (H2 m)].
  - intros m m' b Hm0 Hm1. rewrite !Hb. destruct (Z.eqb_spec m l), (Z.eqb_spec m' l); [congruence | | | by apply H3].
    + intros [= <-] Hx. exfalso. apply Hown. by exists m'.
    + intros Hx [= <-]. exfalso. apply Hown. by exists m.
  - rewrite E4. intros j Hj. rewrite Hset by lia. destruct (Z.eqb_spec j k) as [|Hne]; [done|]. cbn [orb]. intros Hj'. destruct (H4 j Hj Hj') as [G1 G2].
    split; [by apply (data_geom s)|]. intros (m & Hm0 & Hx). rewrite Hb in Hx. destruct (Z.eqb_spec m l); [congruence|]. apply G2. by exists m.
Qed.

(** The bits of the bitmap that are set stay set. *)
Definition kept_taken s s' : Prop := forall j, 0 <= j -> taken s j = true -> taken s' j = true.

(** Block [b] of the disk is block [l] of the file, or a free block for it. *)
Definition found s i (l b : Z) : Prop := block_of i l = Some b \/ block_of i l = None /\ 0 <= b < group_blocks s /\ taken s b = false.

(** A block of the file is there, or none can be added. *)
Lemma map_create_wp s pl i l Q :
  good s -> file_ok s pl i -> 0 <= l -> l + 1 < 2 ^ 32 ->
  (forall s', good s' -> geom (fs s') = geom (fs s) -> file_ok s' pl i -> (forall m, m <> bbm s -> view s' m = view s m) -> kept_taken s s' -> full s' i -> Q None s') ->
  (forall s' i' b, good s' -> geom (fs s') = geom (fs s) -> file_ok s' pl i' -> same_fields i i' -> (forall m, m <> bbm s -> view s' m = view s m) ->
    kept_taken s s' -> (forall m, block_of i' m = if m =? l then Some b else block_of i m) -> found s i l b -> Q (Some (i', b)) s') ->
  wp (map_create_phys i l) s Q.
Proof.
  intros Hg Hf Hl Hl1 HN HS. pose proof (f_map _ _ _ Hf) as Hmap. unfold map_create_phys. rewrite (m_flag _ Hmap). unfold extent_map_create.
  wstep. wstep. apply find_phys_wp; [done|]. destruct (block_of i l) as [p|] eqn:Eb.
  { apply wp_ret, HS; try done; [| |by left]; [by intros j|]. intros m. by destruct (Z.eqb_spec m l) as [->|]. }
  pose proof Hg as [Hv Hm Hc Ht]. assert (group_block s <> bbm s) as Hgb by (destruct Hm as [_ _ _ [? _] _ _ _]; congruence).
  wstep. apply alloc_wp; try done.
  - intros s' Hv' Hc' Hg' Hview Hfull. destruct (geom_eqs s s' Hg') as (E1 & _ & _ & E4).
    assert (forall j, taken s' j = taken s j) as Htk by (intros j; unfold taken; by rewrite E1, Hview).
    apply HN; try done; [by apply (good_keep s) | apply (file_mono s); [done | intros j _; by rewrite Htk | done] | intros j _; by rewrite Htk |].
    left. intros j Hj. rewrite Htk. apply Hfull. lia.
  - intros s' k Hv' Hc' Hg' Hview Hk Hclear Hset. destruct (geom_eqs s s' Hg') as (E1 & _ & _ & E4).
    assert (good s') as Hgd' by (apply (good_keep s); try done; by apply Hview).
    destruct (f_free _ _ _ Hf k Hk Hclear) as [[[Hkv _] _] _]. pose proof (valid4_range k Hkv) as (Hk32 & _).
    assert (kept_taken s s') as Hkt by (intros j Hj Hjt; rewrite Hset by done; by rewrite Hjt, orb_true_r).
    pose proof (insert_local_spec i l k Hmap Hl Hl1 Hk32 Eb) as Hi. destruct (extent_map_insert_local i l k) as [i'|].
    + destruct Hi as (M1 & M2 & M3). apply wp_ret, HS; try done; [by apply (file_extend s s' pl i i' l k) | by right].
    + destruct Hi as [Hi _]. apply wp_fail, HN; try done; [|by right]. by apply (file_mono s).
Qed.

(** ** Writing *)

(** From [i0] on [s0] to [i] on [s], [done] bytes of [src] have been written from
    [off] on. *)
Record wrote s0 (pl : Z * Z) i0 (off : Z) (src : list Z) (done : Z) s i : Prop := {
  w_good : good s; w_geom : geom (fs s) = geom (fs s0); w_file : file_ok s pl i; w_fields : same_fields i0 i;
  w_kept : forall l b, 0 <= l -> block_of i0 l = Some b -> block_of i l = Some b;
  w_range : forall l, 0 <= l -> ~ off / BS <= l <= (off + zlength src - 1) / BS -> block_of i l = block_of i0 l;
  w_data : forall q, off <= q < off + done -> byte s i q = Some (nth (Z.to_nat (q - off)) src 0);
  w_old : forall q c, 0 <= q -> ~ off <= q < off + done -> byte s0 i0 q = Some c -> byte s i q = Some c;
  w_others : forall m, m <> bbm s0 -> ~ owns i m -> view s m = view s0 m;
  w_fresh : forall m, owns i m -> owns i0 m \/ 0 <= m < group_blocks s0 /\ taken s0 m = false;
  w_taken : kept_taken s0 s
}.

Lemma wrote_nothing4 s pl i off src : good s -> file_ok s pl i -> wrote s pl i off src 0 s i.
Proof. intros Hg Hf. split; try done; [intros q Hq; lia | intros m Hm; by left | by intros j]. Qed.

Lemma byte_block s i q c : byte s i q = Some c -> exists b, block_of i (q / BS) = Some b /\ c = nth (Z.to_nat (q mod BS)) (view s b) 0.
Proof. unfold byte. destruct (block_of i (q / BS)) as [b|]; [|done]. intros [= <-]. by exists b. Qed.

(** The map grows, the blocks of the file stay. *)
Lemma byte_kept s s' pl i i' q c :
  file_ok s pl i -> 0 <= q -> (forall m, m <> bbm s -> view s' m = view s m) ->
  (forall l b, 0 <= l -> block_of i l = Some b -> block_of i' l = Some b) -> byte s i q = Some c -> byte s' i' q = Some c.
Proof.
  intros Hf Hq Hview Hk Hb. apply byte_block in Hb as (b & Hb & ->). assert (0 <= q / BS) as Hq0 by (apply Z.div_pos; lia).
  unfold byte. rewrite (Hk _ b) by done. destruct (f_blocks _ _ _ Hf _ _ Hq0 Hb) as [(_ & _ & Hne & _) _]. by rewrite Hview.
Qed.

Lemma wrote_map s0 pl i0 off src done s i s' i' l b :
  wrote s0 pl i0 off src done s i -> 0 <= off -> good s' -> geom (fs s') = geom (fs s) -> file_ok s' pl i' -> same_fields i i' ->
  (forall m, m <> bbm s -> view s' m = view s m) -> kept_taken s s' -> (forall m, block_of i' m = if m =? l then Some b else block_of i m) ->
  found s i l b -> off / BS <= l <= (off + zlength src - 1) / BS ->
  wrote s0 pl i0 off src done s' i'.
Proof.
  intros [W1 W2 W3 [W4 W4'] W5 W6 W7 W8 W9 W10 W11] Ho Hg Hge Hf [Hs1 Hs2] Hview Hkt Hb Hold Hl.
  assert (forall m c, 0 <= m -> block_of i m = Some c -> block_of i' m = Some c) as Hk.
  { intros m c Hm Hc. rewrite Hb. destruct (Z.eqb_spec m l) as [->|]; [|done]. destruct Hold as [?|[? _]]; congruence. }
  destruct (geom_eqs s0 s W2) as (E1 & _ & _ & E4). split; try done.
  - congruence.
  - split; [congruence|]. intros o n Hon. by rewrite Hs2, W4'.
  - intros m c Hm Hc. by apply Hk, W5.
  - intros m Hm Hr. rewrite Hb. destruct (Z.eqb_spec m l) as [->|]; [done | by apply W6].
  - intros q Hq. apply (byte_kept s s' pl i i'); [done | lia | done | done | by apply W7].
  - intros q c Hq Hr Hc. apply (byte_kept s s' pl i i'); [done | lia | done | done | by apply W8].
  - intros m Hm Hown. rewrite Hview by congruence. apply W9; [done|]. intros (k & Hk0 & Hkm). apply Hown. exists k. split; [done | by apply Hk].
  - intros m (k & Hk0 & Hkm). rewrite Hb in Hkm. destruct (Z.eqb_spec k l) as [->|]; [|by apply W10; exists k]. injection Hkm as <-.
    destruct Hold as [Hin|(_ & Hr & Hfree)]; [apply W10; by exists l | right]. split; [by rewrite <- E4|].
    destruct (taken s0 b) eqn:Et; [|done]. apply W11 in Et; [congruence | lia].
  - intros j Hj Hjt. by apply Hkt, W11.
Qed.

(** Nothing but the bitmap has changed. *)
Lemma wrote_same s0 pl i0 off src done s i s' :
  wrote s0 pl i0 off src done s i -> 0 <= off -> good s' -> geom (fs s') = geom (fs s) -> file_ok s' pl i ->
  (forall m, m <> bbm s -> view s' m = view s m) -> kept_taken s s' -> wrote s0 pl i0 off src done s' i.
Proof.
  intros [W1 W2 W3 W4 W5 W6 W7 W8 W9 W10 W11] Ho Hg Hge Hf Hview Hkt. destruct (geom_eqs s0 s W2) as (E1 & _). split; try done.
  - congruence.
  - intros q Hq. apply (byte_kept s s' pl i i); [done | lia | done | done | by apply W7].
  - intros q c Hq Hr Hc. apply (byte_kept s s' pl i i); [done | lia | done | done | by apply W8].
  - intros m Hm Hown. rewrite Hview by congruence. by apply W9.
  - intros j Hj Hjt. by apply Hkt, W11.
Qed.

(** Blocks of the file get the next [k] bytes. *)
Lemma wrote_bytes s0 pl i0 off src done s i s' k :
  wrote s0 pl i0 off src done s i -> 0 <= off -> 0 <= done -> good s' -> fs s' = fs s ->
  (forall m, ~ owns i m -> view s' m = view s m) ->
  (forall q, 0 <= q -> off + done <= q < off + done + k -> byte s' i q = Some (nth (Z.to_nat (q - off)) src 0)) ->
  (forall q, 0 <= q -> ~ off + done <= q < off + done + k -> byte s' i q = byte s i q) -> 0 <= k ->
  wrote s0 pl i0 off src (done + k) s' i.
Proof.
  intros [W1 W2 W3 W4 W5 W6 W7 W8 W9 W10 W11] Ho Hd Hg Hfs Hview Hin Hout Hk.
  assert (kept_taken s s') as Hkt.
  { intros j _. unfold taken, bbm. rewrite Hfs. fold (bbm s). rewrite Hview; [done|].
    intros (l & Hl & Hb). by destruct (f_blocks _ _ _ W3 l _ Hl Hb) as [(_ & _ & ? & _) _]. }
  split; try done.
  - by rewrite Hfs.
  - apply (file_mono s); [by rewrite Hfs | done | done].
  - intros q Hq. destruct (decide (off + done <= q < off + done + k)); [by apply Hin; lia|]. rewrite Hout by lia. apply W7. lia.
  - intros q c Hq Hr Hc. rewrite Hout by lia. apply W8; [done | lia | done].
  - intros m Hm Hown. rewrite Hview by done. by apply W9.
  - intros j Hj Hjt. by apply Hkt, W11.
Qed.

(** Plain blocks are written. *)
Lemma blocks_written s s' (P : Z -> Prop) :
  good s -> volume_ok s' -> fs s' = fs s -> (forall m, P m -> plain s m) -> (forall m, ~ P m -> blk s' m = blk s m) ->
  good s' /\ (forall m, P m -> view s' m = blk s' m) /\ forall m, ~ P m -> view s' m = view s m.
Proof.
  intros Hg Hv Hfs HP Hb. pose proof (g_cache _ Hg) as [C1 C2 C3 C4].
  assert (forall m, bitmap_cache_valid (fs s) = true -> bitmap_cache_block (fs s) = m -> ~ P m) as Hn.
  { intros m Hvv <- Hm. destruct (HP _ Hm) as (_ & _ & ? & ?). destruct (C1 Hvv); done. }
  assert (forall m, ~ P m -> view s' m = view s m) as Hview by (intros m Hm; unfold view; rewrite Hfs, Hb; done).
  assert (~ P (group_block s)) as Hgp by (intros Hm; destruct (HP _ Hm) as (_ & [? _] & _); done).
  assert (cache_ok s') as Hc'.
  { split; unfold bbm, ibm; rewrite Hfs; try done. intros Hvv Hd. rewrite Hb by (by apply (Hn _ Hvv)). by apply C2. }
  assert (good s') as Hg' by (apply (good_keep s); try done; [by rewrite Hfs | by apply Hview]).
  split; [done|]. split; [|done]. intros m Hm. apply (plain_view s' m Hg'). apply (plain_geom s); [by rewrite Hfs | by apply HP].
Qed.

Lemma same_quotient q a : a * BS <= q < (a + 1) * BS -> q / BS = a /\ q mod BS = q - a * BS.
Proof.
  intros H. assert (q / BS = a) as E by (symmetry; apply (Z.div_unique q BS a (q - BS * a)); lia). split; [done|].
  pose proof (Z.div_mod q BS ltac:(lia)) as Ed. rewrite E in Ed. lia.
Qed.

(** A piece of one block. *)
Lemma wrote_piece4 s0 pl i0 off src done s i s' k b :
  let pos := off + done in
  wrote s0 pl i0 off src done s i -> 0 <= off -> 0 <= done -> 0 < k -> done + k <= zlength src -> pos mod BS + k <= BS ->
  block_of i (pos / BS) = Some b -> volume_ok s' ->
  one_block b (list_inserts (Z.to_nat (pos mod BS)) (take (Z.to_nat k) (drop (Z.to_nat done) src)) (view s b)) s s' ->
  wrote s0 pl i0 off src (done + k) s' i.
Proof.
  intros pos Hw Ho Hd Hk Hlen Hroom Hb Hv' Hone. pose proof Hw as [Hg _ Hf _ _ _ _ _ _ _ _]. pose proof (Z.div_mod pos BS ltac:(lia)) as Epos.
  pose proof (Z.mod_pos_bound pos BS ltac:(lia)) as Hmod. assert (0 <= pos / BS) as Hp0 by (apply Z.div_pos; lia).
  destruct (f_blocks _ _ _ Hf _ _ Hp0 Hb) as (Hpl & _ & _). destruct (plain_written s s' b _ Hg Hv' Hpl Hone) as (Hg' & Eb & Hview).
  set (chunk := take (Z.to_nat k) _) in *. assert (length chunk = Z.to_nat k) as Hlc by (unfold chunk, zlength in *; rewrite length_take, length_drop; lia).
  pose proof (length_view s b (g_volume _ Hg)) as Hlv.
  apply (wrote_bytes s0 pl i0 off src done s i s'); try done; try lia.
  - by destruct Hone.
  - intros m Hm. apply Hview. intros ->. apply Hm. by exists (pos / BS).
  - intros q Hq Hr. destruct (same_quotient q (pos / BS)) as [E1 E2]; [unfold pos in *; lia|]. unfold byte. rewrite E1, Hb, E2, Eb. f_equal.
    rewrite nth_inserts, decide_True by (unfold pos in *; lia). unfold chunk. rewrite !nth_lookup, lookup_take_lt, lookup_drop by (unfold pos in *; lia).
    do 2 f_equal. unfold pos in *. lia.
  - intros q Hq Hr. unfold byte. destruct (block_of i (q / BS)) as [c|] eqn:Ec; [|done]. f_equal. destruct (decide (c = b)) as [->|Hne]; [|by rewrite Hview].
    assert (q / BS = pos / BS) as E by (apply (f_inj _ _ _ Hf _ _ b); try done; apply Z.div_pos; lia).
    pose proof (Z.div_mod q BS ltac:(lia)) as Eq. pose proof (Z.mod_pos_bound q BS ltac:(lia)). rewrite E in Eq.
    rewrite Eb, nth_inserts, decide_False; [done|]. unfold pos in *. lia.
Qed.

(** The bytes of a block among sectors that follow one another. *)
Lemma block_of_run s first run j : 0 <= j < run ->
  blk s (first + j) = take (Z.to_nat BS) (drop (Z.to_nat (j * BS)) (sectors (sec s) (first * cnt) (Z.to_nat (run * cnt)))).
Proof.
  intros Hj. replace (Z.to_nat (run * cnt)) with (Z.to_nat (j * cnt) + (Z.to_nat cnt + Z.to_nat ((run - j - 1) * cnt)))%nat by nia.
  rewrite !sectors_app. replace (first * cnt + Z.of_nat (Z.to_nat (j * cnt))) with ((first + j) * cnt) by nia. fold (blk s (first + j)).
  pose proof (length_sectors_nat ss sector Hss (disk s) (first * cnt) (j * cnt) ltac:(nia)) as Hl. change (sector (disk s)) with (sec s) in Hl.
  rewrite drop_app_length' by (rewrite Hl; f_equal; lia). symmetry. apply take_app_length'. by rewrite length_blk4.
Qed.

(** Whole blocks that follow one another. *)
Lemma wrote_run4 s0 pl i0 off src done s i s' first run :
  let pos := off + done in
  wrote s0 pl i0 off src done s i -> 0 <= off -> 0 <= done -> 0 < run -> done + run * BS <= zlength src -> pos mod BS = 0 ->
  (forall j, 0 <= j < run -> block_of i (pos / BS + j) = Some (first + j)) -> volume_ok s' -> fs s' = fs s ->
  sectors (sec s') (first * cnt) (Z.to_nat (run * cnt)) = take (Z.to_nat (run * BS)) (drop (Z.to_nat done) src) ->
  (forall k, ~ first * cnt <= k < first * cnt + run * cnt -> sec s' k = sec s k) ->
  wrote s0 pl i0 off src (done + run * BS) s' i.
Proof.
  intros pos Hw Ho Hd Hk Hlen Hmod Hb Hv' Hfs Hdata Hfr. pose proof Hw as [Hg _ Hf _ _ _ _ _ _ _ _]. pose proof (Z.div_mod pos BS ltac:(lia)) as Epos.
  assert (0 <= pos / BS) as Hp0 by (apply Z.div_pos; lia).
  assert (forall m, first <= m < first + run -> plain s m) as Hpl.
  { intros m Hm. destruct (f_blocks _ _ _ Hf (pos / BS + (m - first)) m) as (? & _ & _); [lia | | done]. rewrite Hb by lia. f_equal. lia. }
  destruct (blocks_written s s' (fun m => first <= m < first + run)) as (Hg' & Hin & Hview); try done.
  { intros m Hm. apply (blk4_off s s' m (first * cnt) (first * cnt + run * cnt)); [done | nia]. }
  apply (wrote_bytes s0 pl i0 off src done s i s'); try done; try nia.
  - intros m Hm. apply Hview. intros Hr. apply Hm. exists (pos / BS + (m - first)). split; [lia|]. rewrite Hb by lia. f_equal. lia.
  - intros q Hq Hr. fold pos in Hr. set (j := (q - pos) / BS). pose proof (Z.div_mod (q - pos) BS ltac:(lia)) as Ej. fold j in Ej.
    pose proof (Z.mod_pos_bound (q - pos) BS ltac:(lia)) as Hmj. assert (0 <= j < run) as Hj by (split; [apply Z.div_pos; lia | apply Z.div_lt_upper_bound; lia]).
    destruct (same_quotient q (pos / BS + j)) as [E1 E2]; [lia|]. unfold byte. rewrite E1, Hb, E2 by done. f_equal.
    rewrite Hin by lia. rewrite (block_of_run s' first run j), Hdata by done. rewrite !nth_lookup, lookup_take_lt, lookup_drop, lookup_take_lt, lookup_drop by nia.
    do 2 f_equal. unfold pos in *. lia.
  - intros q Hq Hr. fold pos in Hr. unfold byte. destruct (block_of i (q / BS)) as [c|] eqn:Ec; [|done]. f_equal. rewrite Hview; [done|]. intros Hc.
    assert (q / BS = pos / BS + (c - first)) as E.
    { apply (f_inj _ _ _ Hf _ _ c); [apply Z.div_pos; lia | lia | done |]. rewrite Hb by lia. f_equal. lia. }
    pose proof (Z.div_mod q BS ltac:(lia)) as Eq. pose proof (Z.mod_pos_bound q BS ltac:(lia)). nia.
Qed.

Section loop.
Context (s0 : e4 D) (pl : Z * Z) (i0 : list Z) (off : Z) (src : list Z) (Ho : 0 <= off) (Hend : off + zlength src < 2 ^ 32).

Abbreviation wrote' := (wrote s0 pl i0 off src).
Abbreviation last := ((off + zlength src - 1) / BS).

Lemma last_small l : 0 <= l <= last -> u32 l = l /\ l + 1 < 2 ^ 32.
Proof. intros Hl. assert (last < 2 ^ 22) by (apply Z.div_lt_upper_bound; nia). split; [apply u32_small|]; lia. Qed.

(** A block of the range that is written. *)
Lemma create_wp s i dn l Q :
  wrote' dn s i -> off / BS <= l <= last ->
  (forall s', wrote' dn s' i -> full s' i -> Q None s') ->
  (forall s' i' b, wrote' dn s' i' -> (forall m, block_of i' m = if m =? l then Some b else block_of i m) ->
    (block_of i l = None \/ block_of i l = Some b) -> Q (Some (i', b)) s') ->
  wp (map_create_phys i l) s Q.
Proof.
  intros Hw Hl HN HS. pose proof (Z.div_pos off BS ltac:(lia) ltac:(lia)). destruct (last_small l ltac:(lia)) as [_ Hl1].
  apply (map_create_wp s pl); [by destruct Hw | by destruct Hw | lia | done | |].
  - intros s' G1 G2 G3 G4 G5 G6. apply HN; [by apply (wrote_same s0 pl i0 off src dn s) | done].
  - intros s' i' b G1 G2 G3 G4 G5 G6 G7 G8. apply HS; try done; [by apply (wrote_map s0 pl i0 off src dn s i s' i' l b)|].
    destruct G8 as [?|[? _]]; [by right | by left].
Qed.

Lemma map_run_wp n : forall s i dn lbi run first prev,
  wrote' dn s i -> 0 <= run -> off / BS <= lbi -> lbi + run + Z.of_nat n - 1 <= last ->
  (forall j, 0 <= j < run -> block_of i (lbi + j) = Some (first + j)) -> (0 < run -> prev = first + run - 1) ->
  wp (map_run n i lbi run first prev) s (fun o s' => exists i' run' first', o = Some (i', run', first') /\ wrote' dn s' i' /\
    run <= run' <= run + Z.of_nat n /\ forall j, 0 <= j < run' -> block_of i' (lbi + j) = Some (first' + j)).
Proof.
  pose proof (Z.div_pos off BS ltac:(lia) ltac:(lia)) as Ho0.
  induction n as [|n IH]; intros s i dn lbi run first prev Hw Hr Hlo Hhi Hb Hp; cbn [map_run].
  { apply wp_ret. exists i, run, first. split; [done|]. split; [done|]. split; [lia | done]. }
  destruct (last_small (lbi + run) ltac:(lia)) as [-> _]. wstep. wstep. apply (create_wp s i dn); [done | lia | |].
  { intros s' Hw' _. apply wp_ret. exists i, run, first. split; [done|]. split; [done|]. split; [lia | done]. }
  intros s' i' b Hw' Hb' Hold. destruct (Z.eqb_spec run 0) as [->|Hnz].
  - eapply wp_mono; [apply (IH s' i' dn lbi 1 b b); try done; try lia|].
    + intros j Hj. replace j with 0 by lia. rewrite Hb', !Z.add_0_r. by rewrite Z.eqb_refl.
    + intros o s2 (i2 & r2 & f2 & -> & G1 & G2 & G3). exists i2, r2, f2. split; [done|]. split; [done|]. split; [lia | done].
  - assert (forall j, 0 <= j < run -> block_of i' (lbi + j) = Some (first + j)) as Hb2.
    { intros j Hj. rewrite Hb'. destruct (Z.eqb_spec (lbi + j) (lbi + run)); [lia | by apply Hb]. }
    destruct (Z.eqb_spec b (u32 (prev + 1))) as [Eb|]; cbn [negb].
    2: { apply wp_ret. exists i', run, first. split; [done|]. split; [done|]. split; [lia | done]. }
    specialize (Hp ltac:(lia)). pose proof (w_file _ _ _ _ _ _ _ _ Hw') as Hf'.
    assert (block_of i' (lbi + run) = Some b) as Ebl by (by rewrite Hb', Z.eqb_refl).
    destruct (f_blocks _ _ _ Hf' (lbi + run) b ltac:(lia) Ebl) as (_ & Hbz & _).
    destruct (f_blocks _ _ _ Hf' (lbi + (run - 1)) (first + (run - 1)) ltac:(lia) ltac:(apply Hb2; lia)) as [[[Hv1 Hv2] _] _].
    assert (b = first + run) as ->.
    { rewrite Hp in Eb. replace (first + run - 1 + 1) with (first + run) in Eb by lia. assert (first + run <= 2 ^ 32) by nia.
      destruct (decide (first + run = 2 ^ 32)) as [E|]; [rewrite E in Eb; by rewrite Eb in Hbz|]. rewrite Eb. apply u32_small. lia. }
    eapply wp_mono; [apply (IH s' i' dn lbi (run + 1) first (first + run)); try done; try lia|].
    + intros j Hj. destruct (decide (j = run)) as [->|]; [done | apply Hb2; lia].
    + intros o s2 (i2 & r2 & f2 & -> & G1 & G2 & G3). exists i2, r2, f2. split; [done|]. split; [done|]. split; [lia | done].
Qed.

Lemma write_run_wp s i dn :
  let pos := off + dn in
  wrote' dn s i -> 0 <= dn -> dn + BS <= zlength src -> pos mod BS = 0 ->
  wp (write_run i (pos / BS) (drop (Z.to_nat dn) src)) s (fun o s' => exists i' run, o = Some (i', run) /\ 0 <= run /\
    dn + run * BS <= zlength src /\ wrote' (dn + run * BS) s' i').
Proof.
  intros pos Hw Hd Hlen Hmod. unfold write_run. repeat wstep. change (id (fs s)) with (fs s). pose proof Hw as [Hg _ _ _ _ _ _ _ _ _ _].
  rewrite (block_sectors4 s), (v_bs s) by (by destruct Hg). set (n := if 256 <? _ then _ else _). pose proof (Z.div_mod pos BS ltac:(lia)) as Epos.
  assert (0 <= n <= 256 /\ dn + n * BS <= zlength src) as [Hn Hnl].
  { unfold n, zlength in *. rewrite length_drop. set (x := Z.of_nat (length src - Z.to_nat dn)). assert (x = Z.of_nat (length src) - dn) as Ex by lia.
    pose proof (Z.div_mod x BS ltac:(lia)). pose proof (Z.mod_pos_bound x BS ltac:(lia)). pose proof (Z.div_pos x BS ltac:(lia) ltac:(lia)). destruct (Z.ltb_spec 256 (x / BS)); nia. }
  assert (off / BS <= pos / BS) as Hlo by (apply Z.div_le_mono; unfold pos; lia).
  assert (0 < n -> pos / BS + n - 1 <= last) as Hhi by (intros Hn0; apply Z.div_le_lower_bound; [lia|]; unfold pos in *; nia).
  clearbody n. eapply wp_mono with (P := fun o s' => exists i' run first, o = Some (i', run, first) /\ wrote' dn s' i' /\ 0 <= run <= n /\
    forall j, 0 <= j < run -> block_of i' (pos / BS + j) = Some (first + j)).
  - destruct (decide (n = 0)) as [->|].
    + apply wp_ret. exists i, 0, 0. split; [done|]. split; [done|]. split; [lia|]. intros j Hj. lia.
    + eapply wp_mono; [apply (map_run_wp _ s i dn (pos / BS) 0 0 0); try done; try lia|].
      intros o s' (i' & r & f & -> & G1 & G2 & G3). exists i', r, f. split; [done|]. split; [done|]. split; [lia | done].
  - intros o s1 (i1 & run & first & -> & Hw1 & Hrun & Hb). cbv beta iota.
    destruct (Z.ltb_spec 0 run) as [Hpos|]; [|apply wp_ret; exists i1, 0; replace run with 0 by lia; rewrite Z.add_0_r; split; [done|]; split; [lia|]; split; [lia | done]].
    pose proof Hw1 as [Hg1 _ Hf1 _ _ _ _ _ _ _ _]. pose proof (Z.div_pos off BS ltac:(lia) ltac:(lia)) as Ho0.
    destruct (f_blocks _ _ _ Hf1 (pos / BS + 0) (first + 0) ltac:(lia) ltac:(apply Hb; lia)) as [[Hva _] _].
    destruct (f_blocks _ _ _ Hf1 (pos / BS + (run - 1)) (first + (run - 1)) ltac:(lia) ltac:(apply Hb; lia)) as [[[_ Hvb] _] _].
    rewrite Z.add_0_r in Hva. destruct (valid4_range first Hva) as (Hf32 & Hfc & _ & ->). assert (cnt <= 4096) by nia. rewrite (u32_small (run * cnt)) by nia.
    wstep. wstep. apply store_wp; [by destruct Hg1 | nia | nia | | lia | nia |].
    { unfold zlength in *. rewrite length_drop. nia. }
    intros s2 Hfs Hv2 _ Hdata Hfr. apply wp_ret. exists i1, run. split; [done|]. split; [lia|]. split; [nia|].
    apply (wrote_run4 s0 pl i0 off src dn s1 i1 s2 first run); try done; [nia|]. rewrite Hdata. f_equal. f_equal. lia.
Qed.

Lemma write_piece_wp s i dn k :
  let pos := off + dn in
  wrote' dn s i -> 0 <= dn -> 0 < k -> dn + k <= zlength src -> pos mod BS + k <= BS ->
  wp (write_piece i (pos / BS) (pos mod BS) (take (Z.to_nat k) (drop (Z.to_nat dn) src))) s (fun o s' => exists i' ok, o = Some (i', ok) /\
    if ok : bool then wrote' (dn + k) s' i' else wrote' dn s' i' /\ full s' i').
Proof.
  intros pos Hw Hd Hk Hlen Hroom. unfold write_piece. wstep. wstep. pose proof (Z.div_pos off BS ltac:(lia) ltac:(lia)) as Ho0.
  assert (off / BS <= pos / BS <= last) as Hl by (split; apply Z.div_le_mono; unfold pos; lia).
  apply (create_wp s i dn); [done | done | |].
  { intros s' Hw' Hfull. apply wp_ret. by exists i, false. }
  intros s1 i1 b Hw1 Hb _. repeat wstep. set (chunk := take _ _). assert (length chunk = Z.to_nat k) as Hlc by (unfold chunk, zlength in *; rewrite length_take, length_drop; lia).
  pose proof Hw1 as [Hg1 _ Hf1 _ _ _ _ _ _ _ _]. specialize (Hb (pos / BS)). rewrite Z.eqb_refl in Hb.
  destruct (f_blocks _ _ _ Hf1 (pos / BS) b ltac:(lia) Hb) as (Hpl & _). pose proof Hpl as [Hval _]. pose proof (g_volume _ Hg1) as Hv1. rewrite (v_bs _ Hv1).
  pose proof (Z.mod_pos_bound pos BS ltac:(lia)) as Hmod. assert (zlength chunk = k) as Hzc by (unfold zlength; lia).
  assert (forall s2, volume_ok s2 -> one_block b (list_inserts (Z.to_nat (pos mod BS)) chunk (blk s1 b)) s1 s2 -> wrote' (dn + k) s2 i1) as Hstep.
  { intros s2 Hv2 Hone. apply (wrote_piece4 s0 pl i0 off src dn s1 i1 s2 k b); try done. by rewrite (plain_view s1 b). }
  rewrite Hzc. destruct ((pos mod BS =? 0) && (k =? BS)) eqn:Ewhole; cbn [negb].
  - apply andb_true_iff in Ewhole as [E1%Z.eqb_eq E2%Z.eqb_eq]. apply write_block_wp; [done | done | lia |]. intros s2 Hv2 _ Hone. apply wp_ret. exists i1, true. split; [done|].
    apply Hstep; [done|]. rewrite E1. change (Z.to_nat 0) with 0%nat. rewrite firstn_all2 in Hone by lia.
    pose proof (take_drop_inserts_same 0 chunk (blk s1 b) ltac:(rewrite length_blk4; lia)) as Ec. rewrite drop_0, firstn_all2 in Ec by (rewrite length_inserts, length_blk4; lia). by rewrite Ec.
  - apply update_block_wp; [done | done | lia | lia |]. intros s2 Hv2 Hone. apply wp_ret. exists i1, true. split; [done|]. by apply Hstep.
Qed.

Lemma file_write_wp n : forall s i dn,
  wrote' dn s i -> 0 <= dn <= zlength src -> zlength src - dn <= Z.of_nat n ->
  wp (file_write_loop n i off dn src) s (fun o s' => exists i' r, o = Some (i', r) /\ wrote' r s' i' /\ dn <= r <= zlength src /\
    (r < zlength src -> full s' i')).
Proof.
  induction n as [|n IH]; intros s i dn Hw Hd Hn; cbn [file_write_loop];
    (destruct (Z.leb_spec (zlength src) dn) as [|Hlt]; [apply wp_ret; exists i, dn; split; [done|]; split; [done|]; split; lia | try lia]).
  repeat wstep. rewrite (v_bs s) by (by destruct Hw as [[]]). rewrite (u32_small (off + dn)) by lia. set (pos := off + dn).
  pose proof (Z.mod_pos_bound pos BS ltac:(lia)) as Hmod. set (k := if _ <? _ then _ else _).
  assert (0 < k /\ k <= BS - pos mod BS /\ k <= zlength src - dn) as (Hk1 & Hk2 & Hk3).
  { unfold k. destruct (Z.ltb_spec (zlength src - dn) (BS - pos mod BS)); lia. }
  clearbody k. eapply wp_mono with (P := fun o s' => exists i' run, o = Some (i', run) /\ 0 <= run /\ dn + run * BS <= zlength src /\ wrote' (dn + run * BS) s' i').
  - destruct ((pos mod BS =? 0) && (k =? BS)) eqn:Ewhole.
    + apply andb_true_iff in Ewhole as [E1%Z.eqb_eq E2%Z.eqb_eq]. apply write_run_wp; [done | lia | lia | exact E1].
    + apply wp_ret. exists i, 0. split; [done|]. split; [lia|]. rewrite Z.add_0_r. split; [lia | done].
  - intros o s1 (i1 & run & -> & Hr0 & Hrl & Hw1). cbv beta iota. destruct (Z.ltb_spec 0 run) as [Hpos|].
    + eapply wp_mono; [apply (IH s1 i1 (dn + run * BS)); [done | nia | nia]|]. intros o s2 (i2 & r & -> & G1 & G2 & G3). exists i2, r. split; [done|]. split; [done|]. split; [nia | done].
    + replace run with 0 in * by lia. rewrite Z.add_0_r in Hw1. wstep. eapply wp_mono; [apply (write_piece_wp s1 i1 dn k); [done | lia | lia | lia | fold pos; lia]|].
      intros o s2 (i2 & ok & -> & Hok). cbv beta iota. destruct ok.
      * eapply wp_mono; [apply (IH s2 i2 (dn + k)); [done | lia | lia]|]. intros o s3 (i3 & r & -> & G1 & G2 & G3). exists i3, r. split; [done|]. split; [done|]. split; [lia | done].
      * destruct Hok as [Hw2 Hfull]. apply wp_ret. exists i2, dn. split; [done|]. split; [done|]. split; [lia | done].
Qed.
End loop.

(** ** Reading *)

Definition content s i (q : Z) : Z := default 0 (byte s i q).

Lemma same_bytes s s' i q : same_disk s s' -> byte s' i q = byte s i q.
Proof. intros Hs. unfold byte. destruct (block_of i (q / BS)); [|done]. by rewrite (same_view s s'). Qed.

(** The bytes of a piece of a block of the file. *)
Lemma piece_bytes4 s i pos k b r :
  volume_ok s -> 0 <= pos -> 0 <= k -> pos mod BS + k <= BS -> block_of i (pos / BS) = Some b ->
  take (Z.to_nat k) (drop (Z.to_nat (pos mod BS)) (view s b ++ r)) = map (content s i) (seqZ pos k).
Proof.
  intros Hv Hp Hk Hr Hb. pose proof (Z.mod_pos_bound pos BS ltac:(lia)). pose proof (Z.div_mod pos BS ltac:(lia)).
  pose proof (length_view s b Hv) as Hlv. rewrite slice_front by (rewrite Hlv; lia). apply list_eq. intros j.
  change (map (content s i)) with (fmap (M := list) (content s i)). rewrite list_lookup_fmap. destruct (decide (j < Z.to_nat k)%nat) as [Hj|Hj].
  2: { rewrite lookup_take_ge, lookup_seqZ_ge by lia. done. }
  rewrite lookup_take_lt, lookup_drop, lookup_seqZ_lt by lia. cbn [fmap option_fmap option_map].
  destruct (same_quotient (pos + Z.of_nat j) (pos / BS)) as [E1 E2]; [lia|]. unfold content, byte. rewrite E1, Hb, E2. cbn [default from_option id].
  destruct (lookup_lt_is_Some_2 (view s b) (Z.to_nat (pos mod BS) + j)) as [c Hc]; [lia|]. rewrite Hc, nth_lookup.
  replace (Z.to_nat (pos + Z.of_nat j - pos / BS * BS)) with (Z.to_nat (pos mod BS) + j)%nat by lia. by rewrite Hc.
Qed.

(** The bytes of a hole. *)
Lemma hole_bytes s i pos k :
  0 <= pos -> 0 <= k -> pos mod BS + k <= BS -> block_of i (pos / BS) = None -> replicate (Z.to_nat k) 0 = map (content s i) (seqZ pos k).
Proof.
  intros Hp Hk Hr Hb. pose proof (Z.mod_pos_bound pos BS ltac:(lia)). pose proof (Z.div_mod pos BS ltac:(lia)). apply list_eq. intros j.
  change (map (content s i)) with (fmap (M := list) (content s i)). rewrite list_lookup_fmap. destruct (decide (j < Z.to_nat k)%nat) as [Hj|Hj].
  - rewrite lookup_replicate_2, lookup_seqZ_lt by lia. cbn [fmap option_fmap option_map].
    destruct (same_quotient (pos + Z.of_nat j) (pos / BS)) as [E1 E2]; [lia|]. unfold content, byte. by rewrite E1, Hb.
  - rewrite lookup_seqZ_ge by lia. apply lookup_ge_None_2. rewrite length_replicate. lia.
Qed.

Lemma file_read_wp n s0 pl i off len : good s0 -> file_ok s0 pl i -> 0 <= off -> off + len <= 2 ^ 32 -> forall s out,
  same_disk s0 s -> volume_ok s -> zlength out <= len -> len - zlength out <= Z.of_nat n ->
  wp (file_read_loop n i off len out) s (fun o s' => o = Some (out ++ map (content s0 i) (seqZ (off + zlength out) (len - zlength out))) /\
    same_disk s0 s' /\ volume_ok s').
Proof.
  intros Hg Hf Ho Hend. induction n as [|n IH]; intros s out Hs Hv Hout Hn; cbn [file_read_loop];
    (destruct (Z.leb_spec len (zlength out)) as [|Hlt];
     [apply wp_ret; replace (len - zlength out) with 0 by lia; change (seqZ _ 0) with (@nil Z); rewrite app_nil_r; by split | try lia]).
  set (dn := zlength out) in *. assert (0 <= dn) as Hd by (unfold dn, zlength; lia). repeat wstep. rewrite (v_bs _ Hv), (u32_small (off + dn)) by lia.
  set (pos := off + dn). pose proof (Z.mod_pos_bound pos BS ltac:(lia)) as Hmod. set (k := if len - dn <? BS - pos mod BS then _ else _).
  assert (0 < k /\ k <= BS - pos mod BS /\ k <= len - dn) as (Hk1 & Hk2 & Hk3) by (unfold k; destruct (Z.ltb_spec (len - dn) (BS - pos mod BS)); lia).
  clearbody k. assert (forall s1, same_disk s0 s1 -> volume_ok s1 -> wp (file_read_loop n i off len (out ++ map (content s0 i) (seqZ pos k))) s1
    (fun o s' => o = Some (out ++ map (content s0 i) (seqZ pos (len - dn))) /\ same_disk s0 s' /\ volume_ok s')) as Hrest.
  { intros s1 Hs1 Hv1. assert (zlength (out ++ map (content s0 i) (seqZ pos k)) = dn + k) as El by (unfold dn, zlength; rewrite length_app, length_map, length_seqZ; lia).
    eapply wp_mono; [apply (IH s1 (out ++ map (content s0 i) (seqZ pos k)) Hs1 Hv1); lia|]. intros o s2 (-> & Hs2 & Hv2). split; [|done]. f_equal.
    rewrite El, <- app_assoc, <- map_app. do 2 f_equal. replace (off + (dn + k)) with (pos + k) by (unfold pos; lia). rewrite seqZ_app by lia. f_equal. lia. }
  assert (0 <= pos / BS) as Hp0 by (apply Z.div_pos; unfold pos; lia). apply map_find_wp; [by destruct Hf|]. destruct (block_of i (pos / BS)) as [b|] eqn:Eb; cbn [default from_option id].
  - destruct (f_blocks _ _ _ Hf _ _ Hp0 Eb) as ([Hval Hpl] & Hbz & _). destruct (Z.eqb_spec b 0); [done|]. wstep. wstep.
    apply read_block_wp; [done | done |]. intros s1 Hs1 Hv1 Hio. repeat wstep. rewrite Hio, (same_blk4 s0 s), <- (plain_view s0) by done.
    rewrite (piece_bytes4 s0 i pos k b); [|by destruct Hg | unfold pos; lia | lia | lia | done]. apply Hrest; [by etrans | done].
  - cbn [Z.eqb]. rewrite (hole_bytes s0 i pos k); [|unfold pos; lia | lia | lia | done]. by apply Hrest.
Qed.

(** ** Writing and reading *)

(** Another inode with the same extents. *)
Lemma file_same s pl i i' :
  file_ok s pl i -> length i' = length i -> (forall o n, (32 <= o)%nat -> (o + n <= 100)%nat -> field o n i' = field o n i) ->
  file_ok s pl i' /\ forall l, block_of i' l = block_of i l.
Proof.
  intros [[M1 M2 M3 M4 M5 M6] F2 F3 F4] Hl Hfd.
  assert (forall o n, (o + n <= 60)%nat -> field o n (node_of i') = field o n (node_of i)) as Hn by (intros o n Hon; unfold node_of; rewrite !field_drop; apply Hfd; lia).
  assert (eh_entries (node_of i') = eh_entries (node_of i)) as Een by (apply Hn; lia).
  assert (extents (node_of i') = extents (node_of i)) as Ex.
  { apply extents_eq; [by rewrite length_extents, Een|]. intros k e Hk. pose proof (lookup_lt_Some _ _ _ Hk) as Hlt. rewrite length_extents in Hlt.
    rewrite extents_lookup in Hk by done. apply (inj Some) in Hk as <-. apply andb_true_iff in M3 as [_ M3%Z.leb_le]. unfold extent_at. by rewrite !Hn by lia. }
  assert (forall l, block_of i' l = block_of i l) as Hb by (intros l; unfold block_of; by rewrite !leaf_find_eq, Ex).
  split; [|done]. split.
  - split; [congruence | | | | |].
    + unfold x_flags in *. by rewrite Hfd by lia.
    + unfold extent_header_valid, eh_magic, eh_entries, eh_max in *. by rewrite !Hn by lia.
    + unfold eh_depth in *. by rewrite Hn by lia.
    + unfold eh_max in *. by rewrite Hn by lia.
    + by rewrite Ex.
  - intros l b Hl0. rewrite Hb. by apply F2.
  - intros l l' b Hl0 Hl1. rewrite !Hb. by apply F3.
  - intros j Hj Hc. destruct (F4 j Hj Hc) as [G1 G2]. split; [done|]. intros (l & Hl0 & Hx). apply G2. exists l. by rewrite Hb in Hx.
Qed.

(** The inode that [ext4_write] stores. *)
Definition resized (n : Z) (grow : bool) i : list Z := let i := if grow then set_size n i else i in set_x_blocks (u32 (x_size i + 511) / 512) i.

Lemma field_resized n grow i o k : (32 <= o)%nat -> (o + k <= 100)%nat -> field o k (resized n grow i) = field o k i.
Proof.
  intros H1 H2. unfold resized, set_x_blocks. rewrite field_set_ne by lia. destruct grow; [|done].
  unfold set_size, set_x_size_high, set_x_size. by rewrite !field_set_ne by lia.
Qed.

Lemma length_resized n grow i : length (resized n grow i) = length i.
Proof. unfold resized, set_x_blocks. rewrite length_set_field. destruct grow; [|done]. unfold set_size, set_x_size_high, set_x_size. by rewrite !length_set_field. Qed.

Lemma size_resized n grow i : 0 <= n < 2 ^ 32 -> length i = EXT2_INODE_SIZE -> x_size (resized n grow i) = if grow then n else x_size i.
Proof.
  intros Hn Hi. unfold resized, set_x_blocks, x_size. rewrite field_set_ne by lia. destruct grow; [|done].
  unfold set_size, set_x_size_high, set_x_size. rewrite field_set_ne by lia. apply field_set; [exact Hn|]. rewrite Hi. unfold EXT2_INODE_SIZE. lia.
Qed.

(** What is the same of a file after changes of other blocks. *)
Lemma file_frame s s' pl i :
  file_ok s pl i -> good s' -> geom (fs s') = geom (fs s) -> (forall m, m <> pl.1 -> apart s m -> view s' m = view s m) -> apart s (bbm s) -> pl.1 <> bbm s ->
  file_ok s' pl i /\ (forall q, 0 <= q -> byte s' i q = byte s i q) /\ (full s i -> full s' i).
Proof.
  intros Hf Hg Hge Hview Hap Hpl. destruct (geom_eqs s s' Hge) as (E1 & _ & _ & E4).
  assert (forall j, taken s' j = taken s j) as Htk by (intros j; unfold taken; by rewrite E1, Hview).
  split; [apply (file_mono s); [done | intros j _; by rewrite Htk | done]|]. split.
  - intros q Hq. unfold byte. destruct (block_of i (q / BS)) as [b|] eqn:Eb; [|done]. assert (0 <= q / BS) as Hq0 by (apply Z.div_pos; lia).
    destruct (f_blocks _ _ _ Hf _ _ Hq0 Eb) as ((_ & ? & _) & _ & ?). by rewrite Hview.
  - intros [Hall|]; [left | by right]. rewrite E4. intros j Hj. rewrite Htk. by apply Hall.
Qed.

Lemma read_back s pl i off r src :
  good s -> file_ok s pl i -> 0 <= off -> 0 <= r <= zlength src -> (forall q, off <= q < off + r -> byte s i q = Some (nth (Z.to_nat (q - off)) src 0)) ->
  map (content s i) (seqZ off r) = take (Z.to_nat r) src.
Proof.
  intros Hg Hf Ho Hr Hb. apply list_eq. intros j. change (map (content s i)) with (fmap (M := list) (content s i)). rewrite list_lookup_fmap.
  destruct (decide (j < Z.to_nat r)%nat) as [Hj|Hj]; [|by rewrite lookup_take_ge, lookup_seqZ_ge by lia].
  rewrite lookup_take_lt, lookup_seqZ_lt by lia. cbn [fmap option_fmap option_map]. unfold content. rewrite Hb by lia. cbn [default from_option id].
  destruct (lookup_lt_is_Some_2 src j) as [c Hc]; [unfold zlength in Hr; lia|]. rewrite Hc, nth_lookup. replace (Z.to_nat (off + Z.of_nat j - off)) with j by lia. by rewrite Hc.
Qed.

(** What a read of [r] bytes gives. *)
Lemma read_wp s inode pl off r :
  good s -> place_ok s (i_ino inode) pl -> file_ok s pl (inode_at s pl) -> 0 <= off -> 0 <= r < 2 ^ 31 -> off + r < 2 ^ 32 ->
  off + r <= x_size (inode_at s pl) ->
  wp (ext4_read inode off r) s (fun o s' => o = Some (r, map (content s (inode_at s pl)) (seqZ off r)) /\ same_disk s s').
Proof.
  intros Hg Hp Hf Ho Hr Hend Hsz. unfold ext4_read. wstep. apply (read_inode_wp s (i_ino inode) pl); try done. intros s1 Hs1 Hv1. set (i := inode_at s pl) in *.
  unfold inode_size_get. rewrite (u32_small (off + r)) by lia. destruct (Z.leb_spec (x_size i) off) as [Hle|Hgt].
  { apply wp_ret. replace r with 0 by lia. by split. }
  destruct (Z.ltb_spec (x_size i) (off + r)); [lia|]. wstep.
  eapply wp_mono; [apply (file_read_wp (Z.to_nat r) s pl i off r Hg Hf Ho ltac:(lia) s1 [] Hs1 Hv1); unfold zlength; cbn [length]; lia|].
  intros o s2 (-> & Hs2 & _). apply wp_ret. split; [|done]. cbn [app]. change (zlength []) with 0. rewrite Z.add_0_r, Z.sub_0_r.
  unfold zlength. rewrite length_map, length_seqZ, i32_small by lia. do 2 f_equal. lia.
Qed.

(** What a write leaves. *)
Lemma write_wp s inode pl off src :
  good s -> place_ok s (i_ino inode) pl -> file_ok s pl (inode_at s pl) -> 0 <= off -> off + zlength src < 2 ^ 32 -> zlength src < 2 ^ 31 ->
  wp (ext4_write inode off src) s (fun o s1 => let i := inode_at s pl in let i1 := inode_at s1 pl in
    exists r, o = Some (set_i_size (x_size i1) inode, r) /\ 0 <= r <= zlength src /\ good s1 /\ geom (fs s1) = geom (fs s) /\ file_ok s1 pl i1 /\
      (r < zlength src -> full s1 i1) /\ x_size i1 = Z.max (x_size i) (off + r) /\
      (forall q, off <= q < off + r -> byte s1 i1 q = Some (nth (Z.to_nat (q - off)) src 0)) /\
      (forall q c, 0 <= q -> ~ off <= q < off + r -> byte s i q = Some c -> byte s1 i1 q = Some c) /\
      (forall l, 0 <= l -> ~ off / BS <= l <= (off + zlength src - 1) / BS -> block_of i1 l = block_of i l) /\
      (forall m, m <> bbm s -> m <> pl.1 -> apart s m -> ~ owns i1 m -> view s1 m = view s m) /\
      bitmap_cache_dirty (fs s1) = false /\
      (forall m, owns i1 m -> owns i m \/ 0 <= m < group_blocks s /\ taken s m = false) /\ kept_taken s s1 /\
      view s1 pl.1 = list_inserts (Z.to_nat pl.2) i1 (view s pl.1) /\
      (forall o n, (o + n <= 4 \/ 8 <= o /\ o + n <= 28)%nat -> field o n i1 = field o n i) /\
      (forall l b, 0 <= l -> block_of i l = Some b -> block_of i1 l = Some b)).
Proof.
  intros Hg Hp Hf Ho Hend Hlen. unfold ext4_write. wstep. apply (read_inode_wp s (i_ino inode) pl); try done. intros s1 Hs1 Hv1. set (i := inode_at s pl) in *.
  pose proof (good_same s s1 Hg Hs1 Hv1) as Hg1. rewrite (m_flag i) by (by destruct Hf). repeat wstep. rewrite block_sectors4 by done. destruct (Z.eqb_spec cnt 0); [lia|].
  assert (wrote s pl i off src 0 s1 i) as Hw0.
  { destruct Hs1 as [Hfs Hse]. apply (wrote_same s pl i off src 0 s i s1); [by apply wrote_nothing4 | done | done | by rewrite Hfs | | intros m _; by apply same_view | ];
    [apply (file_mono s); [by rewrite Hfs | | done]|]; intros j _; unfold taken, bbm; rewrite Hfs; by rewrite (same_view s s1). }
  wstep. eapply wp_mono; [apply (file_write_wp s pl i off src Ho Hend (length src) s1 i 0 Hw0); unfold zlength; lia|].
  intros o s2 (i2 & r & -> & Hw & Hr & Hfull). cbv beta iota zeta. rewrite (u32_small (off + r)) by lia. pose proof Hw as [W1 W2 W3 [W4 W4'] W5 W6 W7 W8 W9 W10 W11].
  assert (x_size i2 = x_size i) as Esz by (apply W4'; lia). pose proof (field_range 4 4 i) as Hszr. fold (x_size i) in Hszr.
  set (grow := inode_size_get i2 <? off + r). change (set_x_blocks _ _) with (resized (off + r) grow i2). set (i3 := resized (off + r) grow i2) in *.
  assert (x_size i3 = Z.max (x_size i) (off + r)) as Esz3.
  { unfold i3. rewrite size_resized by (lia || by destruct W3 as [[]]). unfold grow, inode_size_get. rewrite Esz. destruct (Z.ltb_spec (x_size i) (off + r)); lia. }
  destruct (file_same s2 pl i2 i3 W3 (length_resized _ _ _) (fun o n => field_resized _ _ _ o n)) as [Hf3 Hb3].
  pose proof (place_geom s s2 _ _ W2 Hp) as Hp2. pose proof (p_plain _ _ _ Hp2) as (Hplv & Hpla & Hplb & _).
  wstep. apply (write_inode_wp s2 (i_ino inode) pl); [done | done | by destruct Hf3 as [[]] |]. intros s3 Hg3 Hfs3 Hi3 Htab3 Hview3.
  wstep. apply sync_wp; [done|]. intros s4 Hg4 Hge4 Hd4 Hview4. apply wp_ret. destruct (geom_eqs s s2 W2) as (E1 & E2 & E3 & E4).
  assert (geom (fs s4) = geom (fs s2)) as Hge by (by rewrite Hge4, Hfs3).
  assert (forall m, apart s2 m -> apart s3 m) as Hap by (intros m; apply (apart_geom s2); by rewrite Hfs3).
  assert (inode_at s4 pl = i3) as Hi4 by (unfold inode_at; rewrite Hview4 by (by apply Hap); exact Hi3).
  assert (forall m, m <> pl.1 -> apart s2 m -> view s4 m = view s2 m) as Hview by (intros m H1 H2; rewrite Hview4 by (by apply Hap); by apply Hview3).
  destruct (file_frame s2 s4 pl i3 Hf3 Hg4 Hge Hview) as (Hf4 & Hby & Hfu); [by destruct W1 as [_ [] _ _] | done |].
  assert (forall q, 0 <= q -> byte s4 i3 q = byte s2 i2 q) as Hbyte by (intros q Hq; rewrite Hby by done; unfold byte; by rewrite Hb3).
  cbv zeta. rewrite Hi4. exists r. rewrite i32_small by lia. split; [done|]. split; [lia|]. split; [done|]. split; [congruence|]. split; [done|]. split; [|split; [done|split; [|split; [|split; [|split; [|split; [|split; [|split; [|split; [|split]]]]]]]]]].
  - intros Hlt. apply Hfu. destruct (Hfull Hlt) as [|He]; [by left | right]. unfold eh_entries, eh_max, node_of in *. rewrite !field_drop in *. unfold i3. by rewrite !field_resized by lia.
  - intros q Hq. rewrite Hbyte by lia. by apply W7.
  - intros q c Hq Hnq Hc. rewrite Hbyte by done. by apply W8.
  - intros l Hl Hr'. rewrite Hb3. by apply W6.
  - intros m H1 H2 H3 H4. rewrite Hview; [| done | by apply (apart_geom s)]. apply W9; [done|]. intros (l & Hl & Hx). apply H4. exists l. by rewrite Hb3.
  - done.
  - intros m (l & Hl & Hx). apply W10. exists l. by rewrite <- Hb3.
  - intros j Hj Hjt. apply W11 in Hjt; [|done]. unfold taken in *. destruct (geom_eqs s2 s4 Hge) as (-> & _).
    rewrite Hview; [done | congruence | by destruct W1 as [_ [] _ _]].
  - rewrite Hview4 by (by apply Hap). rewrite Htab3. f_equal. apply W9; [congruence|].
    intros (l & Hl & Hx). by destruct (f_blocks _ _ _ W3 l _ Hl Hx) as (_ & _ & ?).
  - intros p m Hpn. rewrite <- W4' by lia. unfold i3, resized, set_x_blocks. rewrite field_set_ne by lia. destruct grow; [|done].
    unfold set_size, set_x_size_high, set_x_size. by rewrite !field_set_ne by lia.
  - intros l b Hl Hx. rewrite Hb3. by apply W5.
Qed.

(** A block that the bitmap has as free, as the format counts. *)
Definition free_block4 s (m : Z) : Prop :=
  let k := m - first_data_block (fs_sb (fs s)) in 0 <= k < group_blocks s /\ taken s k = false.

(** C20: on a volume whose first data block is block 0, a write to a file with its
    extents in its inode stores the first bytes of the data, all of them unless the
    bitmap of blocks is full or the extents are used up, whole runs of blocks in one
    transfer included, and reading them back gives them; what the file held
    elsewhere stays, a hole that the data does not reach stays one, the file grows
    to the end of what was written, its owner and its mode stay. A block that the
    file gains is one that the bitmap had as free, no bit of the bitmap is cleared,
    in the table of inodes only the bytes of this inode change, so that the inodes
    beside it stay, and every other block but the bitmap, the superblock and the
    group descriptor is as before. No change is left in the bitmap cache: what is
    seen of every block is on the disk. *)
Theorem ext4_write_then_read s inode off src pl
    (Hg : good s) (Hp : place_ok s (i_ino inode) pl) (Hf : file_ok s pl (inode_at s pl))
    (Hfirst : first_data_block (fs_sb (fs s)) = 0)
    (Hoff : 0 <= off) (Hend : off + zlength src < 2 ^ 32) (Hlen : zlength src < 2 ^ 31) :
  exists s1 inode1 r,
    ext4_write inode off src s = Some (s1, Some (inode1, r)) /\ 0 <= r <= zlength src /\
    (r < zlength src -> full s1 (inode_at s1 pl)) /\
    good s1 /\ file_ok s1 pl (inode_at s1 pl) /\ x_size (inode_at s1 pl) = Z.max (x_size (inode_at s pl)) (off + r) /\
    (forall q, off <= q < off + r -> byte s1 (inode_at s1 pl) q = Some (nth (Z.to_nat (q - off)) src 0)) /\
    (forall q c, 0 <= q -> ~ off <= q < off + r -> byte s (inode_at s pl) q = Some c -> byte s1 (inode_at s1 pl) q = Some c) /\
    (forall l, 0 <= l -> ~ off / BS <= l <= (off + zlength src - 1) / BS -> block_of (inode_at s1 pl) l = block_of (inode_at s pl) l) /\
    (forall m, m <> bbm s -> m <> pl.1 -> apart s m -> ~ owns (inode_at s1 pl) m -> view s1 m = view s m) /\
    (forall m, view s1 m = blk s1 m) /\
    (forall l b, 0 <= l -> block_of (inode_at s pl) l = Some b -> block_of (inode_at s1 pl) l = Some b) /\
    (forall m, owns (inode_at s1 pl) m -> owns (inode_at s pl) m \/ free_block4 s m) /\ kept_taken s s1 /\
    view s1 pl.1 = list_inserts (Z.to_nat pl.2) (inode_at s1 pl) (view s pl.1) /\
    (forall o n, (o + n <= 4 \/ 8 <= o /\ o + n <= 28)%nat -> field o n (inode_at s1 pl) = field o n (inode_at s pl)) /\
    exists s2, ext4_read inode1 off r s1 = Some (s2, Some (r, take (Z.to_nat r) src)) /\ same_disk s1 s2.
Proof.
  destruct (wp_run _ _ _ (write_wp s inode pl off src Hg Hp Hf Hoff Hend Hlen)) as (s1 & o & E & r & -> & Hr & Hg1 & Hge & Hf1 & Hfull & Hsz & Hin & Hout & Hholes & Hother & Hd & Hfr & Hkt & Htab & Hfi & Hkb).
  exists s1, (set_i_size (x_size (inode_at s1 pl)) inode), r. do 10 (split; [done|]). split; [intros m; apply clean_view; [by destruct Hg1 | done]|].
  split; [done|]. split; [intros m Hm; unfold free_block4; rewrite Hfirst, Z.sub_0_r; by apply Hfr|]. do 3 (split; [done|]).
  destruct (wp_run _ _ _ (read_wp s1 (set_i_size (x_size (inode_at s1 pl)) inode) pl off r Hg1 (place_geom s s1 _ _ Hge Hp) Hf1 Hoff ltac:(lia) ltac:(lia) ltac:(lia)))
    as (s2 & o & E2 & -> & Hs2).
  exists s2. split; [|done]. rewrite E2. by rewrite (read_back s1 pl (inode_at s1 pl) off r src).
Qed.
End volume.

(** ** A volume *)

(** As that of [Ext2Inv.v], its file with an empty tree of extents. *)
Definition demo_file4 : list Z := extent_init_inode (pad 128 demo_file).
Definition demo_block4 (n : Z) : list Z :=
  if n =? 5 then replicate 128 0 ++ pad 128 demo_root ++ replicate 1024 0 ++ pad 768 demo_file4 else demo_block n.

Definition demo4 : e4 (ramdisk 512) :=
  {| fs := {| bdev := demo_dev; fs_sb := pad 104 demo_super; fs_bg := pad 32 demo_group; block_size := 2048; desc_size := 32;
              meta_dirty := false; next_free_block_hint := 0; next_free_inode_hint := 0;
              bitmap_cache_block := 0; bitmap_cache_valid := false; bitmap_cache_dirty := false; bitmap_cache := replicate 4096 0 |};
     disk := disk_of demo_block4; g_io := replicate 4096 0; g_blk := replicate 4096 0 |}.

#[local] Instance demo4_driver_ok : driver_ok (ramdisk 512) 512 demo_sector.
Proof. apply (ramdisk_ok 512). Qed.

Lemma demo4_places :
  bbm demo4 = 3 /\ ibm demo4 = 4 /\ group_block demo4 = 1 /\ group_blocks demo4 = 32 /\ inode_table (fs_bg (fs demo4)) = 5 /\
  inodes_count (fs_sb (fs demo4)) = 16 /\ inodes_per_group (fs_sb (fs demo4)) = 16 /\ inode_size (fs_sb (fs demo4)) = 128.
Proof. split_all; vm_compute; reflexivity. Qed.

Lemma demo4_good : good 512 4 demo_sector demo4.
Proof.
  destruct demo4_places as (E1 & E2 & E3 & E4 & _). split.
  - split; vm_compute; reflexivity.
  - split; unfold apart, valid; rewrite ?E1, ?E2, ?E3, ?E4; lia.
  - split; done.
  - vm_compute. reflexivity.
Qed.

Lemma demo4_plain m : 5 <= m < 2 ^ 16 -> plain 4 demo4 m.
Proof. intros Hm. destruct demo4_places as (E1 & E2 & E3 & _). unfold plain, apart, valid. rewrite E1, E2, E3. lia. Qed.

Lemma demo4_place : place_ok 512 4 demo4 11 (5, 1280).
Proof.
  destruct demo4_places as (_ & _ & _ & _ & E5 & E6 & E7 & E8). split; rewrite ?E5, ?E6, ?E7, ?E8; [lia | lia | reflexivity | cbn [snd]; lia | apply demo4_plain; cbn [fst]; lia].
Qed.

Lemma demo4_file : file_ok 512 4 demo_sector demo4 (5, 1280) (inode_at 512 4 demo_sector demo4 (5, 1280)).
Proof.
  assert (inode_at 512 4 demo_sector demo4 (5, 1280) = demo_file4) as -> by (vm_compute; reflexivity).
  assert (length (pad 128 demo_file) = EXT2_INODE_SIZE) as Hl by reflexivity.
  destruct (extent_init_ok _ Hl) as (Hm & _). assert (forall l, block_of demo_file4 l = None) as Hb by (intros l; by apply converted_file_is_empty).
  split; [exact Hm | intros l b _ Hx; by rewrite Hb in Hx | intros l l' b _ _ Hx; by rewrite Hb in Hx |].
  destruct demo4_places as (_ & _ & _ & E4 & _). rewrite E4.
  assert (forallb (fun j => taken 512 4 demo_sector demo4 j || (7 <=? j)) (seqZ 0 32) = true) as Hall by (vm_compute; reflexivity).
  intros j Hj Hc. rewrite forallb_forall in Hall. specialize (Hall j ltac:(apply list_elem_of_In, elem_of_seqZ; lia)).
  rewrite Hc in Hall. cbn [orb] in Hall. apply Z.leb_le in Hall. split; [split; [apply demo4_plain; lia | cbn [fst]; lia]|].
  intros (l & _ & Hx). by rewrite Hb in Hx.
Qed.

(** A write past the end of an empty file. *)
Lemma ext4_write_then_read_witness :
  exists s1 i1 r s2, ext4_write demo_inode 3000 (str "hello") demo4 = Some (s1, Some (i1, r)) /\ 0 <= r <= 5 /\
    ext4_read i1 3000 r s1 = Some (s2, Some (r, take (Z.to_nat r) (str "hello"))) /\ x_size (inode_at 512 4 demo_sector s1 (5, 1280)) = 3000 + r.
Proof.
  destruct (ext4_write_then_read 512 4 demo_sector demo_reads demo_writes ltac:(lia) ltac:(lia) ltac:(lia) ltac:(lia) ltac:(lia)
    demo4 demo_inode 3000 (str "hello") (5, 1280) demo4_good demo4_place demo4_file)
    as (s1 & i1 & r & Hw & Hr & _ & _ & _ & Hsz & _ & _ & _ & _ & _ & _ & _ & _ & _ & _ & s2 & Hread & _); [vm_compute; reflexivity | lia | vm_compute; reflexivity | vm_compute; reflexivity |].
  exists s1, i1, r, s2. split; [exact Hw|]. split; [exact Hr|]. split; [exact Hread|]. rewrite Hsz.
  assert (x_size (inode_at 512 4 demo_sector demo4 (5, 1280)) = 0) as -> by (vm_compute; reflexivity). lia.
Defined.
